(* ===== verification/_CoqProject ===== *)
-Q . S2P
Prelude.v
GoStrings.v
GoErrors.v
Database.v
GoSlices.v
GoTime.v
GoCSV.v
GoEncoding.v
GoFloat.v
Dates.v
Money.v
LoanModel.v
GoJSON.v
GoMarshal.v
Decimal.v
Fincloud.v
Sessions.v
Calculator.v
Position.v
Repositories.v
Snapshots.v
GoPath.v
Lps.v
LpsFacts.v
Directory.v
Api.v
Access.v
Navigation.v
AccessFacts.v
AuditLogs.v
AccessGuarantees.v
BrowserAuth.v
LoanInquiry.v
Routes.v
BrowserAuthFacts.v
LoginThrottle.v
SlikJobs.v
SlikLife.v
SlikGuarantees.v
SlikRun.v
Xlsx.v
XlsxFacts.v
GoConf.v
Config.v
UserPages.v
SlikPages.v
SnapshotPages.v
LpsPages.v
Schema.v
Migrate.v
RenameModule.v
LoanPDF.v
Render.v
Server.v
Shell.v
Cleanup.v
Lifecycle.v
Application.v
