(* ===== verification/Prelude.v ===== *)
(** * THOR Rate Sync, a verification library

    The program is an internal banking application in Go (module trs).  For a loan
    account and a date it says what the customer owes by contract; it fills those
    amounts into SLIK workbooks in the background, keeps a snapshot of the current
    loans, and lets people in who have signed in with Fincloud, the core banking
    service, and hold a permission for what they ask.  This library models the core
    of it as Rocq functions and proves what makes each part correct.

    ** The parts and how they interact

<<
      browser ──▶ browserauth ──▶ features/* ──▶ position.Service ──▶ fincloud.Client ──▶ Fincloud
                    │    │           │               │   │   │            │
                    ▼    ▼           ▼               ▼   ▼   ▼            ▼
                  users, access,   slik.Manager    dwh  mso  snapshot   session manager
                  sessions, audit    (workbooks)          ▲
                                                    snapshot.Service ──▶ Fincloud report
>>

    A position is looked up by [position.Service], which chooses between the
    snapshot of today, the warehouse (DWH), the legacy system (MSO) and a
    reconstruction by the contractual calculator.  The SLIK manager asks it for
    every account of an uploaded workbook.  The web interface guards every page
    with the session and the permissions of its user.

    ** The files, and the code they model (paths under src/internal/)

    Go itself.  [Prelude] has the result type of Go's (value, error) pairs with its
    monad, the tactics and hint databases, and list lemmas.  [GoStrings] (strings,
    strconv, unicode/utf8), [GoErrors] (error trees with errors.Is; the sentinels
    of every package), [GoSlices] (slices.SortFunc and SortStableFunc, the order of
    strings), [GoTime] (calendar, zones, time.Date, parsing), [GoCSV]
    (encoding/csv, strict and with LazyQuotes), [GoFloat] (float64: ParseFloat,
    comparison, the conversions to int and to text), [GoJSON] and [GoMarshal]
    (encoding/json both ways, with the round trip, Indent and Compact), [GoPath]
    (path, the escapes and queries of net/url), [GoConf] (ParseBool, ParseDuration,
    url.Parse), [GoEncoding] (SHA-256, base64) define what the program uses of
    the standard library.  A Go int or time.Duration is a Z, and where the code
    can leave the range of its type the wrap-around or the saturation is written
    out; an instant is the number of nanoseconds since year 1, so the zero time is
    0; a string is its bytes.  An error keeps its format string, not the arguments.

    [Database] is the application's MySQL: a monad over the tables that fails where
    a schedule of faults says so, before or after the server applied the
    statement, with transactions, and the rules to carry a relation between states
    through a program ([evolves]).

    - [Dates], [Money], [LoanModel]: loan/date.go, loan/money.go, loan/model.go.
      Amounts are exact rationals; texts round trip; the reporting date is a month
      end.
    - [Calculator]: contractual/calculator.go.  The flat schedule, the effective
      repayments, the allocation to buckets and the calculation: conservation of
      money, the balance invariant, exact answers on accepted input.
    - [Decimal], [Fincloud], [Sessions]: fincloud/.  [Decimal] is NormalizeDecimal;
      [Fincloud] the client for one caller at a time (the request loop with its
      single retry, loans, accounts, reports, the sign-in check); [Sessions] the
      session manager as a step machine over any number of callers, whose runs for
      one caller refine the client's.
    - [Repositories]: dwh/repository.go and mso/repository.go.  [Snapshots]:
      snapshot/ (source, service, repository): parsing, validation, the atomic
      refresh under a named lock, reading back.
    - [Position]: position/service.go, against the class [Evidence] of what it
      relies on, which the repositories and the calculator discharge.
    - [Directory]: user/, auth/, access/repository.go, audit/audit.go: the tables of
      people with their statements.  [Access]: access/, features/users (service and
      repository), platform/pagination, securityctx/, the permission lists.
      [AccessFacts] and [AccessGuarantees]: consistency of the tables, a manager
      always remains, grants are replaced exactly.
    - [BrowserAuth], [BrowserAuthFacts], [LoginThrottle]: browserauth/, the
      permission check of platform/adminshell, the middleware chain of
      server/router.go: who gets through, what a login opens, where redirects go,
      how many guesses reach Fincloud.
    - [Api]: api/handler.go.  The key, the parameters, the mapping of errors to
      statuses, the JSON of the answer and the event in the audit trail: every
      request is accounted for, and the answer reads back as the position.
    - [Navigation], [Routes]: platform/navigation and the routes.go, navigation.go
      and permissions.go of features/ with app/features.go.  [Navigation] is the
      registry of menu entries and what a user sees of it; [Routes] the tables of
      routes and entries, for which menu and guards agree.
    - [AuditLogs]: features/auditlogs with platform/webutil.  The pages of the
      history, and an event from its insert to its page.
    - [LoanInquiry]: features/loaninquiry.  The form, the view of a position with its
      schedule, the audit event and the response around the printed document; [LoanPDF]
      (pdf.go) the document: the calls made of the PDF library, and the pages they say.
    - [UserPages], [SlikPages], [SnapshotPages], [LpsPages]: the handler.go of
      features/users, slik, snapshots and lps, each over the world of its component, with
      snapshot/scheduler.go.  What a form changes and what its answer may claim, and who
      sees which job.  Every file has a reply type of its own for what the handler writes.
    - [SlikJobs], [SlikLife], [SlikRun], [SlikGuarantees]: slik/manager.go and
      slik/repository.go.  [SlikJobs] is the job tables and the manager;
      [SlikLife] lifts a relation that every effect respects to every call;
      [SlikGuarantees] applies it to the life and the books of the jobs; [SlikRun]
      follows a job that nothing disturbs to its workbook, and bounds the work.
    - [Xlsx], [XlsxFacts]: slik/xlsx.go over the entries of an archive and the
      tokens of an XML text.
    - [Lps], [LpsFacts]: lps/.  The reports of the month as tables, the lines of
      customers, deposits and loans, the pool of workers that looks up the customers
      that the report lacks, and the archive.
    - [Config]: config/config.go, the configuration from the environment and its checks.
      [Schema]: dbschema/dbschema.go and database/mysql.go, the check of the migrations
      and the connection settings of an accepted configuration.
    - [Render] (render/, logging/): responses, error pages, the recovery of panics, the
      templates in both modes.  [Shell] (platform/adminshell): the frame of a page.
      [Server] (server/router.go, middleware.go, branding/): the middleware and routes.
      [Application] puts the handlers of the session, the features and the API behind them,
      with what each reply writes, as app/app.go and app/features.go do.
      [Cleanup] (auth/cleanup.go): the worker that removes expired sessions.  [Lifecycle]
      (app/app.go, server/server.go, cmd/app): start, serving and the order of the shutdown.
    - [Migrate], [RenameModule]: the commands cmd/migrate and cmd/rename-module (src/cmd).

    ** What is a parameter, and what is assumed of it

    Fincloud ([upstream] of [Fincloud], [authenticate] of [BrowserAuth]) answers a
    request in any way, depending on all requests before; net/http may refuse to make one
    ([request_fault]).  The warehouse and MSO
    databases are records of queries; [WarehouseLaws] states the two clauses of the
    SQL that the code relies on.  Lower-casing outside ASCII, the comparison of
    characters in MySQL's LIKE, the ZIP container and the XML tokenizer are
    functions given to the definitions; so are the letters and digits outside ASCII
    and what Go makes of a float that no int holds, the numbers AUTO_INCREMENT gives
    ([ids], increasing) and the text MySQL keeps of a JSON document ([json_column]).
    [Api] takes the position service as a function, any answer allowed; [LoanInquiry] also
    the text of an error ([Error]) and the PDF writer ([render]), which [LoanPDF] puts in with the
    library fpdf as functions of the calls made so far ([FpdfLaws] states where its cursor
    is); [LpsPages] the generator.  [Render] takes what html/template does; [Server] the route chi
    finds and any handlers that leave the headers alone ([well_behaved]); [Application] proves
    that of the program's own, and assumes of http.ServeContent and the file server that they
    set the headers of their content only, but for Cache-Control, which they strip from errors
    ([serves]); [Lifecycle] the outcome of every step that needs the world.
    [Config] takes the time zones that are installed and how url.Parse reads an IP
    literal; [Migrate] the migration tool goose, which may change the database in any
    way; [RenameModule] what the Go parser finds for the imports of a file.  Random bytes are arguments.  Every law
    assumed of a parameter is met by a concrete one in a witness.

    ** Time, interleaving and faults

    Sections of Go code that run under a mutex, or single statements of a database,
    are atomic steps; everything else can be interrupted.  In [Sessions] the runs
    are lists of events of the scheduler, the callers and Fincloud.  In [Database]
    a fault can hit every statement, also after its effect.  In [Directory] and
    [SlikJobs] other requests get their turn before each statement outside a
    transaction ([others], [arrivals]); a transaction there begins with the lock of
    the row that every writer of these tables takes first, so its statements run
    together.  Theorems are quantified over faults, interference and schedules.

    ** Fuel

    Recursion that is not structural takes fuel, and a lemma says how much is
    enough: [read_all_fuel] and [lazy_all_fuel] (CSV: the length of the text),
    [json_fuel] and [json_text_fuel] (JSON: likewise),
    [replace_from_renames] (documents of [RenameModule]: likewise), [utoa_aux_spec] and [strip_factor_spec]
    (digits and factors of a number: its size), [month_search_spec] (twelve
    months), [insert_chunks] and [insert_batches] (the number of rows),
    [results_loop] (in [run_completes]: more pages than accounts), [shrink_enough] (the
    sizes a font can have), [groups_concat] (the number of rows), [ClaimNext] (each
    round needs another request that took the job).  [work_terminates] bounds the
    useful turns of the workers of a job by a measure, so no fuel is involved.

    ** What the theorems show

    The properties are numbered C1, C2, ... in their doc comments, the most
    important first: the calculator and its schedule; the jobs (completion, books,
    life, termination, a completion whose answer is lost); people and access;
    workbooks (which bytes of a sheet change, and to what); the menu; the answers of the
    whole application; positions and their evidence; the JSON API, the audit trail,
    the inquiry and its printed version; the LPS archive; the configuration; the course of the
    application; the snapshot; the migration command; the Fincloud client (what it sends and what it tells its
    caller) and its session manager (which sessions it signs out); redirects.  What a page answers about a change is
    with the component it is about.

    ** Not modelled

    The text of templates and static files; the JSON of the log; constructors that only fill in a structure; opening database
    connections and the TLS transport; the scaffolding command cmd/feature and the test
    support: they are I/O or text without decisions of their own.  The component list of the
    manifest has the reason for each.  Within the modelled parts, log output (but for the
    access log and the error records of [Render]), nil checks of constructors, timeouts of
    contexts and the check of the SLIK storage directory are left out, and so is the ticker
    behind the ticks of a worker. *)
From stdpp Require Import base list gmap strings.
From Stdlib Require Import ZArith Lia.

Declare Scope thor_scope.
Delimit Scope thor_scope with thor.
Open Scope thor_scope.
Local Open Scope Z_scope.

(** ** Results: Go's [(value, error)] pairs, where a non-nil error means that
    the value is the zero value and no caller looks at it. *)

Inductive result (E A : Type) : Type :=
| Ok (a : A)
| Fail (e : E).
Arguments Ok {E A} a.
Arguments Fail {E A} e.

#[export] Instance result_ret E : MRet (result E) := fun A a => Ok a.
#[export] Instance result_bind E : MBind (result E) := fun A B f m =>
  match m with
  | Ok a => f a
  | Fail e => Fail e
  end.
#[export] Instance result_fmap E : FMap (result E) := fun A B f m =>
  match m with
  | Ok a => Ok (f a)
  | Fail e => Fail e
  end.

(** [if cond { return ..., err }] *)
Definition fail_if {E : Type} (cond : bool) (e : E) : result E unit :=
  if cond then Fail e else Ok tt.

Definition is_ok {E A : Type} (r : result E A) : bool :=
  match r with Ok _ => true | Fail _ => false end.

Definition of_option {E A : Type} (o : option A) (e : E) : result E A :=
  match o with Some a => Ok a | None => Fail e end.

Section ResultFacts.
Context {E A B : Type}.

Lemma bind_Ok (m : result E A) (f : A → result E B) b :
    (m ≫= f) = Ok b ↔ ∃ a, m = Ok a ∧ f a = Ok b.
Proof. destruct m; split; [by eauto|by intros (? & [= ->] & ?)|done|by intros (? & ? & ?)]. Qed.

Lemma bind_Fail (m : result E A) (f : A → result E B) e :
    (m ≫= f) = Fail e ↔ m = Fail e ∨ ∃ a, m = Ok a ∧ f a = Fail e.
Proof.
    destruct m as [a|e']; split.
    - intros H. right. by exists a.
    - by intros [?|(? & [= ->] & ?)].
    - intros [= ->]. by left.
    - by intros [[= ->]|(? & ? & ?)].
Qed.

Lemma Ok_inj (a a' : A) : @Ok E A a = Ok a' → a = a'.
Proof. by intros [= ->]. Qed.

Lemma fail_if_Ok (c : bool) (e : E) u : fail_if c e = Ok u ↔ c = false.
Proof. by destruct c, u. Qed.

Lemma fail_if_Fail (c : bool) (e e' : E) :
    fail_if c e = Fail e' ↔ c = true ∧ e = e'.
Proof. destruct c; split; [by intros [= ->]|by intros [_ ->]|done|by intros []]. Qed.

Lemma of_option_Ok (o : option A) (e : E) a :
    of_option o e = Ok a ↔ o = Some a.
Proof. destruct o; split; by intros [= ->]. Qed.

Lemma of_option_Fail (o : option A) (e e' : E) :
    of_option o e = Fail e' ↔ o = None ∧ e = e'.
Proof. destruct o; split; [done|by intros []|by intros [= ->]|by intros [_ ->]]. Qed.

Lemma is_ok_true (r : result E A) : is_ok r = true ↔ ∃ a, r = Ok a.
Proof. destruct r; split; [by eauto|done|done|by intros [? ?]]. Qed.
End ResultFacts.

Lemma fmap_Ok {E A B} (g : A → B) (m : result E A) b :
  (g <$> m) = Ok b ↔ ∃ a, m = Ok a ∧ b = g a.
Proof. destruct m; split; [intros [= <-]; by eauto|by intros (? & [= ->] & ->)|done|by intros (? & ? & ?)]. Qed.

(** ** Booleans of conditions *)

Create HintDb thor.
Create Rewrite HintDb thor_bool.

#[export] Hint Rewrite orb_true_iff orb_false_iff andb_true_iff andb_false_iff
  negb_true_iff negb_false_iff Z.eqb_eq Z.eqb_neq Z.ltb_lt Z.ltb_ge
  Z.leb_le Z.leb_gt bool_decide_eq_true bool_decide_eq_false : thor_bool.

(** Turn boolean conditions into propositions, everywhere. *)
Tactic Notation "to_prop" := autorewrite with thor_bool in *.
Tactic Notation "to_prop" "in" hyp(H) := autorewrite with thor_bool in H.
Tactic Notation "to_prop" "in" "|-" "*" := autorewrite with thor_bool.

(** Break a successful monadic computation into the successes of its steps. *)
Ltac inv_ok :=
  repeat match goal with
  | H : Ok _ = Ok _ |- _ => injection H as H; subst
  | H : Fail _ = Fail _ |- _ => injection H as H; subst
  | H : Ok _ = Fail _ |- _ => discriminate H
  | H : Fail _ = Ok _ |- _ => discriminate H
  | H : (_ ≫= _) = Ok _ |- _ =>
      let a := fresh "a" in let H1 := fresh "Hstep" in
      apply bind_Ok in H as (a & H1 & H)
  | H : fail_if _ _ = Ok _ |- _ => apply fail_if_Ok in H
  | H : of_option _ _ = Ok _ |- _ => apply of_option_Ok in H
  | H : (_ <$> _) = Ok _ |- _ => apply fmap_Ok in H as (? & H & ?); subst
  end.

(** Case analysis on every condition of a hypothesis or of the goal. *)
Ltac cases_in H :=
  repeat match type of H with
  | context [match ?x with _ => _ end] => destruct x eqn:?; try discriminate H
  end.
Ltac cases_goal :=
  repeat match goal with
  | |- context [match ?x with _ => _ end] => destruct x eqn:?
  end.

(** Linear arithmetic with division and modulo by constants *)
Ltac dlia := Z.to_euclidean_division_equations; lia.
