(* ===== verification/GoStrings.v ===== *)
(** Go's byte strings and the functions of [strings], [strconv] and
    [unicode/utf8] that the program calls.

    A Go string is a sequence of bytes: it is [String.string] here, one [ascii]
    per byte, whatever the bytes encode.  Functions that look inside go through
    [bytes] / [of_bytes].  White space is Go's [unicode.IsSpace], recognised
    through its UTF-8 encodings. *)
From stdpp Require Import base list gmap strings.
From Stdlib Require Import ZArith NArith Lia Ascii.
From S2P Require Import Prelude.
Local Open Scope Z_scope.

Definition bytes (s : string) : list ascii := String.list_ascii_of_string s.
Definition of_bytes (l : list ascii) : string := String.string_of_list_ascii l.

Lemma of_bytes_bytes s : of_bytes (bytes s) = s.
Proof. apply String.string_of_list_ascii_of_string. Qed.
Lemma bytes_of_bytes l : bytes (of_bytes l) = l.
Proof. apply String.list_ascii_of_string_of_list_ascii. Qed.
#[export] Hint Rewrite of_bytes_bytes bytes_of_bytes : thor_bool.

Lemma bytes_inj s t : bytes s = bytes t → s = t.
Proof. intros H. rewrite <- (of_bytes_bytes s), <- (of_bytes_bytes t). by f_equal. Qed.

Definition code (c : ascii) : Z := Z.of_N (N_of_ascii c).
Definition chr (z : Z) : ascii := ascii_of_N (Z.to_N z).
Definition slen (s : string) : Z := Z.of_nat (length (bytes s)).

Lemma code_range c : 0 ≤ code c < 256.
Proof. unfold code. pose proof (N_ascii_bounded c). lia. Qed.
Lemma chr_code c : chr (code c) = c.
Proof. unfold chr, code. rewrite N2Z.id. apply ascii_N_embedding. Qed.
Lemma code_chr z : 0 ≤ z < 256 → code (chr z) = z.
Proof. intros H. unfold chr, code. rewrite N_ascii_embedding; lia. Qed.

Definition beq (a b : ascii) : bool := Ascii.eqb a b.
Definition seqb (s t : string) : bool := bool_decide (s = t).
Definition empty (s : string) : bool := seqb s EmptyString.

Definition is_digit (c : ascii) : bool := (48 <=? code c) && (code c <=? 57).

(** ** White space: [unicode.IsSpace] on encoded runes *)

Definition space1 (a : ascii) : bool :=
  (code a =? 32) || ((9 <=? code a) && (code a <=? 13)).
(** U+0085, U+00A0 *)
Definition space2 (a b : ascii) : bool :=
  (code a =? 194) && ((code b =? 133) || (code b =? 160)).
(** U+1680, U+2000..U+200A, U+2028, U+2029, U+202F, U+205F, U+3000 *)
Definition space3 (a b c : ascii) : bool :=
  ((code a =? 225) && (code b =? 154) && (code c =? 128)) ||
  ((code a =? 226) && (code b =? 128) &&
     (((128 <=? code c) && (code c <=? 138)) || (code c =? 168) ||
      (code c =? 169) || (code c =? 175))) ||
  ((code a =? 226) && (code b =? 129) && (code c =? 159)) ||
  ((code a =? 227) && (code b =? 128) && (code c =? 128)).

Fixpoint trim_left (l : list ascii) : list ascii :=
  match l with
  | [] => []
  | a :: l1 =>
      if space1 a then trim_left l1 else
      match l1 with
      | [] => l
      | b :: l2 =>
          if space2 a b then trim_left l2 else
          match l2 with
          | [] => l
          | c :: l3 => if space3 a b c then trim_left l3 else l
          end
      end
  end.

(** The same from the end: the list is reversed, so are the encodings. *)
Fixpoint trim_left_rev (l : list ascii) : list ascii :=
  match l with
  | [] => []
  | a :: l1 =>
      if space1 a then trim_left_rev l1 else
      match l1 with
      | [] => l
      | b :: l2 =>
          if space2 b a then trim_left_rev l2 else
          match l2 with
          | [] => l
          | c :: l3 => if space3 c b a then trim_left_rev l3 else l
          end
      end
  end.

Definition trim_bytes (l : list ascii) : list ascii :=
  rev (trim_left_rev (rev (trim_left l))).
(** [strings.TrimSpace] *)
Definition TrimSpace (s : string) : string := of_bytes (trim_bytes (bytes s)).

(** [strings.Fields]: the maximal runs without white space. [skip] says that
    white space is being skipped; [cur] is the reversed current field. *)
Fixpoint fields_aux (cur : list ascii) (l : list ascii) : list (list ascii) :=
  let flush rest := if bool_decide (cur = []) then rest else rev cur :: rest in
  match l with
  | [] => flush []
  | a :: l1 =>
      if space1 a then flush (fields_aux [] l1) else
      match l1 with
      | [] => fields_aux (a :: cur) l1
      | b :: l2 =>
          if space2 a b then flush (fields_aux [] l2) else
          match l2 with
          | [] => fields_aux (a :: cur) l1
          | c :: l3 =>
              if space3 a b c then flush (fields_aux [] l3)
              else fields_aux (a :: cur) l1
          end
      end
  end.
Definition Fields (s : string) : list string := of_bytes <$> fields_aux [] (bytes s).

(** ** Searching and replacing *)

Fixpoint has_prefix_bytes (l p : list ascii) : bool :=
  match p, l with
  | [], _ => true
  | b :: p', a :: l' => beq a b && has_prefix_bytes l' p'
  | _ :: _, [] => false
  end.
Definition HasPrefix (s p : string) : bool := has_prefix_bytes (bytes s) (bytes p).
Definition HasSuffix (s p : string) : bool :=
  has_prefix_bytes (rev (bytes s)) (rev (bytes p)).
Definition TrimPrefix (s p : string) : string :=
  if HasPrefix s p then of_bytes (drop (length (bytes p)) (bytes s)) else s.
Definition TrimSuffix (s p : string) : string :=
  if HasSuffix s p
  then of_bytes (take (length (bytes s) - length (bytes p)) (bytes s)) else s.

Fixpoint contains_bytes (l p : list ascii) : bool :=
  has_prefix_bytes l p ||
  match l with [] => false | _ :: l' => contains_bytes l' p end.
Definition Contains (s p : string) : bool := contains_bytes (bytes s) (bytes p).

(** [strings.Index] *)
Fixpoint index_of (pattern l : list ascii) : option nat :=
  if has_prefix_bytes l pattern then Some 0%nat else
  match l with [] => None | _ :: l' => S <$> index_of pattern l' end.

Definition count_byte (c : ascii) (l : list ascii) : nat :=
  length (List.filter (beq c) l).
Definition mem_byte (c : ascii) (l : list ascii) : bool := existsb (beq c) l.

(** [strings.ReplaceAll] for a one-byte old string *)
Definition replace_byte (old : ascii) (new : list ascii) (l : list ascii) : list ascii :=
  List.flat_map (fun c => if beq c old then new else [c]) l.
Definition ReplaceAll (s : string) (old : ascii) (new : string) : string :=
  of_bytes (replace_byte old (bytes new) (bytes s)).

(** [strings.LastIndex] for a one-byte string: the index, or -1 *)
Fixpoint last_index_aux (c : ascii) (i : Z) (found : Z) (l : list ascii) : Z :=
  match l with
  | [] => found
  | a :: l' => last_index_aux c (i + 1) (if beq a c then i else found) l'
  end.
Definition last_index (c : ascii) (l : list ascii) : Z := last_index_aux c 0 (-1) l.

(** [strings.Split] and [strings.Cut] for a one-byte separator *)
Fixpoint split_aux (sep : ascii) (cur : list ascii) (l : list ascii) : list (list ascii) :=
  match l with
  | [] => [rev cur]
  | a :: l' =>
      if beq a sep then rev cur :: split_aux sep [] l' else split_aux sep (a :: cur) l'
  end.
Definition split_byte (sep : ascii) (l : list ascii) : list (list ascii) := split_aux sep [] l.

Fixpoint cut_byte (sep : ascii) (l : list ascii) : list ascii * list ascii * bool :=
  match l with
  | [] => ([], [], false)
  | a :: l' =>
      if beq a sep then ([], l', true)
      else let '(before, after, found) := cut_byte sep l' in (a :: before, after, found)
  end.

(** [strings.Join] *)
Fixpoint join_bytes (sep : list ascii) (parts : list (list ascii)) : list ascii :=
  match parts with
  | [] => []
  | [p] => p
  | p :: rest => p ++ sep ++ join_bytes sep rest
  end.
Definition Join (parts : list string) (sep : string) : string :=
  of_bytes (join_bytes (bytes sep) (bytes <$> parts)).

(** [strings.TrimRight s c], [strings.TrimLeft s c] for a one-byte cut set *)
Fixpoint drop_while_eq (c : ascii) (l : list ascii) : list ascii :=
  match l with
  | [] => []
  | a :: l' => if beq a c then drop_while_eq c l' else l
  end.
Definition trim_right_byte (c : ascii) (l : list ascii) : list ascii :=
  rev (drop_while_eq c (rev l)).

(** ** Case: [strings.ToLower] has a pure ASCII path; other strings go through
    the Unicode tables, which are a parameter. *)
Definition lower_byte (c : ascii) : ascii :=
  if (65 <=? code c) && (code c <=? 90) then chr (code c + 32) else c.
Definition all_ascii (l : list ascii) : bool := forallb (fun c => code c <? 128) l.
Definition to_lower_with (unicode_lower : string → string) (s : string) : string :=
  if all_ascii (bytes s) then of_bytes (lower_byte <$> bytes s) else unicode_lower s.
Definition upper_byte (c : ascii) : ascii :=
  if (97 <=? code c) && (code c <=? 122) then chr (code c - 32) else c.
Definition to_upper_with (unicode_upper : string → string) (s : string) : string :=
  if all_ascii (bytes s) then of_bytes (upper_byte <$> bytes s) else unicode_upper s.

(** ** Numbers *)

Definition digit_value (c : ascii) : Z := code c - 48.
Definition digit_char (d : Z) : ascii := chr (48 + d).
Definition digits_value (l : list ascii) : Z :=
  List.fold_left (fun acc c => 10 * acc + digit_value c) l 0.

Definition min_int64 : Z := - 2 ^ 63.
Definition max_int64 : Z := 2 ^ 63 - 1.

(** [strconv.Atoi] (and [ParseInt s 10 64]): an optional sign, then digits,
    within 64 bits; [None] is any error. *)
Definition atoi_bytes (l : list ascii) : option Z :=
  let '(neg, ds) := match l with
                    | c :: l' => if beq c "-" then (true, l')
                                 else if beq c "+" then (false, l') else (false, l)
                    | [] => (false, l)
                    end in
  if bool_decide (ds = []) || negb (forallb is_digit ds) then None else
  let v := if (neg : bool) then - digits_value ds else digits_value ds in
  if (min_int64 <=? v) && (v <=? max_int64) then Some v else None.
Definition Atoi (s : string) : option Z := atoi_bytes (bytes s).

(** Decimal digits of a non-negative integer; the fuel is its bit length. *)
Fixpoint utoa_aux (fuel : nat) (n : Z) (acc : list ascii) : list ascii :=
  match fuel with
  | O => acc
  | S fuel' =>
      let acc' := digit_char (n mod 10) :: acc in
      if n / 10 =? 0 then acc' else utoa_aux fuel' (n / 10) acc'
  end.
Definition utoa (n : Z) : list ascii := utoa_aux (S (Z.to_nat (Z.log2 n + 1))) n [].
Definition itoa (n : Z) : list ascii :=
  if n <? 0 then "-"%char :: utoa (- n) else utoa n.
Definition Itoa (n : Z) : string := of_bytes (itoa n).

(** [fmt] verb [%0wd] on non-negative numbers *)
Definition pad_left (c : ascii) (w : nat) (l : list ascii) : list ascii :=
  replicate (w - length l) c ++ l.

(** ** Facts *)

Lemma beq_eq a b : beq a b = true ↔ a = b.
Proof. apply Ascii.eqb_eq. Qed.
Lemma beq_neq a b : beq a b = false ↔ a ≠ b.
Proof. apply Ascii.eqb_neq. Qed.
Lemma beq_refl a : beq a a = true.
Proof. by apply beq_eq. Qed.
Lemma seqb_eq s t : seqb s t = true ↔ s = t.
Proof. apply bool_decide_eq_true. Qed.
Lemma seqb_neq s t : seqb s t = false ↔ s ≠ t.
Proof. apply bool_decide_eq_false. Qed.
#[export] Hint Rewrite beq_eq beq_neq seqb_eq seqb_neq : thor_bool.

Lemma space1_not_digit c : is_digit c = true → space1 c = false.
Proof.
  unfold is_digit, space1. intros H. to_prop. split; [lia|].
  destruct (9 <=? code c) eqn:E; simpl; to_prop; lia.
Qed.

(** *** Trimming *)

Definition space_head (l : list ascii) : bool :=
  match l with
  | [] => false
  | a :: l1 => space1 a ||
      match l1 with
      | [] => false
      | b :: l2 => space2 a b ||
          match l2 with [] => false | c :: _ => space3 a b c end
      end
  end.
Definition space_head_rev (l : list ascii) : bool :=
  match l with
  | [] => false
  | a :: l1 => space1 a ||
      match l1 with
      | [] => false
      | b :: l2 => space2 b a ||
          match l2 with [] => false | c :: _ => space3 c b a end
      end
  end.

Section Trimming.
Let short (P : list ascii → Prop) :
    (∀ l, (∀ l', (length l' < length l)%nat → P l') → P l) → ∀ l, P l.
Proof. intros H l. induction l as [l IH] using (induction_ltof1 _ (@length _)). apply H, IH. Qed.

Ltac trim_end :=
    simpl; repeat match goal with H : _ = false |- _ => rewrite H end; done.
Ltac trim_next IH x :=
    destruct x eqn:?; [apply IH; simpl; lia|].

Lemma trim_left_head l : space_head (trim_left l) = false.
Proof.
    revert l. apply short. intros [|a l] IH; [done|].
    cbn [trim_left]. trim_next IH (space1 a). destruct l as [|b l]; [trim_end|].
    trim_next IH (space2 a b). destruct l as [|c l]; [trim_end|].
    trim_next IH (space3 a b c). trim_end.
Qed.
Lemma trim_left_rev_head l : space_head_rev (trim_left_rev l) = false.
Proof.
    revert l. apply short. intros [|a l] IH; [done|].
    cbn [trim_left_rev]. trim_next IH (space1 a). destruct l as [|b l]; [trim_end|].
    trim_next IH (space2 b a). destruct l as [|c l]; [trim_end|].
    trim_next IH (space3 c b a). trim_end.
Qed.
Lemma trim_left_id l : space_head l = false → trim_left l = l.
Proof.
    destruct l as [|a [|b [|c l]]]; simpl; intros H; to_prop; try done;
      repeat match goal with
      | H : _ ∧ _ |- _ => destruct H
      | H : _ = false |- _ => rewrite H; clear H
      end; done.
Qed.
Lemma trim_left_rev_id l : space_head_rev l = false → trim_left_rev l = l.
Proof.
    destruct l as [|a [|b [|c l]]]; simpl; intros H; to_prop; try done;
      repeat match goal with
      | H : _ ∧ _ |- _ => destruct H
      | H : _ = false |- _ => rewrite H; clear H
      end; done.
Qed.
Lemma trim_left_suffix l : ∃ p, l = p ++ trim_left l.
Proof.
    revert l. apply short. intros l IH.
    destruct l as [|a l]; [by exists []|]. simpl.
    destruct (space1 a).
    { destruct (IH l) as [p Hp]; [simpl; lia|]. exists (a :: p). simpl. by f_equal. }
    destruct l as [|b l]; [by exists []|].
    destruct (space2 a b).
    { destruct (IH l) as [p Hp]; [simpl; lia|]. exists (a :: b :: p). simpl. by do 2 f_equal. }
    destruct l as [|c l]; [by exists []|].
    destruct (space3 a b c); [|by exists []].
    destruct (IH l) as [p Hp]; [simpl; lia|]. exists (a :: b :: c :: p). simpl. by do 3 f_equal.
Qed.
Lemma trim_left_rev_suffix l : ∃ p, l = p ++ trim_left_rev l.
Proof.
    revert l. apply short. intros l IH.
    destruct l as [|a l]; [by exists []|]. simpl.
    destruct (space1 a).
    { destruct (IH l) as [p Hp]; [simpl; lia|]. exists (a :: p). simpl. by f_equal. }
    destruct l as [|b l]; [by exists []|].
    destruct (space2 b a).
    { destruct (IH l) as [p Hp]; [simpl; lia|]. exists (a :: b :: p). simpl. by do 2 f_equal. }
    destruct l as [|c l]; [by exists []|].
    destruct (space3 c b a); [|by exists []].
    destruct (IH l) as [p Hp]; [simpl; lia|]. exists (a :: b :: c :: p). simpl. by do 3 f_equal.
Qed.
End Trimming.

Lemma space_head_app l1 l2 : space_head (l1 ++ l2) = false → space_head l1 = false.
Proof.
  destruct l1 as [|a [|b [|c l]]]; simpl; intros H; to_prop in H;
    repeat match goal with H : _ ∧ _ |- _ => destruct H end;
    repeat match goal with H : _ = false |- _ => rewrite H; clear H end; done.
Qed.

Lemma trim_bytes_idem l : trim_bytes (trim_bytes l) = trim_bytes l.
Proof.
  unfold trim_bytes. destruct (trim_left_rev_suffix (rev (trim_left l))) as [p Hp].
  assert (trim_left l = rev (trim_left_rev (rev (trim_left l))) ++ rev p) as Hl.
  { rewrite <- (rev_involutive (trim_left l)) at 1. rewrite Hp at 1. apply rev_app_distr. }
  rewrite (trim_left_id (rev (trim_left_rev _))).
  - rewrite rev_involutive. f_equal. apply trim_left_rev_id, trim_left_rev_head.
  - eapply space_head_app. rewrite <- Hl. apply trim_left_head.
Qed.

Lemma TrimSpace_idem s : TrimSpace (TrimSpace s) = TrimSpace s.
Proof. unfold TrimSpace. by rewrite bytes_of_bytes, trim_bytes_idem. Qed.

(** Bytes that start no white-space encoding leave a string untouched. *)
Definition plain (c : ascii) : bool := negb (space1 c) && (code c <? 128).

Lemma space2_plain a b : plain b = true → space2 a b = false.
Proof.
  unfold plain, space2. intros [_ H]%andb_true_iff. to_prop in H.
  destruct (code a =? 194); simpl; [|reflexivity].
  apply orb_false_iff. split; apply Z.eqb_neq; lia.
Qed.
Lemma space3_plain a b c : plain c = true → space3 a b c = false.
Proof.
  unfold plain, space3. intros [_ H]%andb_true_iff. to_prop in H.
  repeat match goal with
  | |- context [code c =? ?n] => replace (code c =? n) with false by (symmetry; apply Z.eqb_neq; lia)
  end.
  replace (128 <=? code c) with false by (symmetry; apply Z.leb_gt; lia).
  simpl. by rewrite !andb_false_r.
Qed.

Lemma space2_plain' a b : plain a = true → space2 a b = false.
Proof.
  unfold plain, space2. intros [_ H]%andb_true_iff. to_prop in H.
  by replace (code a =? 194) with false by (symmetry; apply Z.eqb_neq; lia).
Qed.
Lemma space3_plain' a b c : plain a = true → space3 a b c = false.
Proof.
  unfold plain, space3. intros [_ H]%andb_true_iff. to_prop in H.
  repeat match goal with
  | |- context [code a =? ?n] => replace (code a =? n) with false by (symmetry; apply Z.eqb_neq; lia)
  end. reflexivity.
Qed.

Lemma trim_bytes_plain l : forallb plain l = true → trim_bytes l = l.
Proof.
  intros H.
  assert (∀ l0, forallb plain l0 = true → space_head l0 = false ∧ space_head_rev l0 = false) as Hh.
  { assert (∀ x, plain x = true → space1 x = false) as H1.
    { intros x Hx. unfold plain in Hx. to_prop in Hx. by destruct Hx. }
    intros [|a [|b [|c l0]]]; simpl; intros H0; to_prop in H0;
      repeat match goal with H : _ ∧ _ |- _ => destruct H end;
      rewrite ?H1, ?space2_plain, ?space3_plain by done; simpl;
      rewrite ?space2_plain', ?space3_plain' by done; done. }
  unfold trim_bytes. rewrite trim_left_id by apply Hh, H.
  rewrite trim_left_rev_id; [apply rev_involutive|].
  apply Hh. apply forallb_forall. intros x Hx. apply in_rev in Hx.
  by eapply forallb_forall in H.
Qed.

(** *** Decimal digits *)

Lemma digit_char_digit d : 0 ≤ d < 10 → is_digit (digit_char d) = true.
Proof. intros H. unfold is_digit, digit_char. rewrite code_chr by lia. to_prop. lia. Qed.
Lemma digit_char_value d : 0 ≤ d < 10 → digit_value (digit_char d) = d.
Proof. intros H. unfold digit_value, digit_char. rewrite code_chr by lia. lia. Qed.
Lemma is_digit_plain c : is_digit c = true → plain c = true.
Proof.
  intros H. unfold plain. rewrite space1_not_digit by done.
  unfold is_digit in H. to_prop. simpl. lia.
Qed.
#[export] Hint Resolve is_digit_plain digit_char_digit : thor.

Lemma fold_digits_app l l' acc :
  List.fold_left (fun acc c => 10 * acc + digit_value c) (l ++ l') acc =
  List.fold_left (fun acc c => 10 * acc + digit_value c) l'
    (List.fold_left (fun acc c => 10 * acc + digit_value c) l acc).
Proof. apply List.fold_left_app. Qed.

Lemma fold_digits_acc l acc :
  List.fold_left (fun acc c => 10 * acc + digit_value c) l acc =
  acc * 10 ^ Z.of_nat (length l) + digits_value l.
Proof.
  unfold digits_value. revert acc. induction l as [|c l IH]; intros acc; simpl; [lia|].
  rewrite IH, (IH (10 * 0 + digit_value c)).
  rewrite Nat2Z.inj_succ, Z.pow_succ_r by lia. lia.
Qed.

Lemma digits_value_app l l' :
  digits_value (l ++ l') = digits_value l * 10 ^ Z.of_nat (length l') + digits_value l'.
Proof. unfold digits_value. rewrite fold_digits_app. apply fold_digits_acc. Qed.

Lemma digits_value_cons c l :
  digits_value (c :: l) = digit_value c * 10 ^ Z.of_nat (length l) + digits_value l.
Proof. change (c :: l) with ([c] ++ l). rewrite digits_value_app. unfold digits_value. simpl. lia. Qed.

Lemma digits_value_range l :
  forallb is_digit l = true → 0 ≤ digits_value l < 10 ^ Z.of_nat (length l).
Proof.
  induction l as [|c l IH]; [done|]. intros H. simpl in H. to_prop. destruct H as [Hc Hl].
  specialize (IH Hl). rewrite digits_value_cons. simpl length.
  rewrite Nat2Z.inj_succ, Z.pow_succ_r by lia.
  assert (0 ≤ digit_value c ≤ 9) by (unfold is_digit in Hc; unfold digit_value; to_prop; lia).
  nia.
Qed.

Lemma utoa_aux_spec fuel n acc :
  0 ≤ n < 2 ^ Z.of_nat fuel →
  forallb is_digit acc = true →
  fuel ≠ O →
  let l := utoa_aux fuel n acc in
  forallb is_digit l = true ∧
  digits_value l = n * 10 ^ Z.of_nat (length acc) + digits_value acc ∧
  (length acc < length l)%nat.
Proof.
  revert n acc. induction fuel as [|fuel IH]; intros n acc Hn Hacc Hf; [done|].
  cbn [utoa_aux]. cbv zeta.
  pose proof (Z.mod_pos_bound n 10 ltac:(lia)) as Hm.
  assert (forallb is_digit (digit_char (n mod 10) :: acc) = true) as Hacc'.
  { simpl. rewrite Hacc, digit_char_digit by lia. done. }
  assert (n = 10 * (n / 10) + n mod 10) as Hdiv by (apply Z.div_mod; lia).
  assert (digits_value (digit_char (n mod 10) :: acc) =
          n mod 10 * 10 ^ Z.of_nat (length acc) + digits_value acc) as Hv.
  { rewrite digits_value_cons, digit_char_value by lia. done. }
  destruct (n / 10 =? 0) eqn:E; to_prop.
  { split; [done|]. split; [|simpl; lia]. rewrite Hv. do 2 f_equal. lia. }
  assert (0 ≤ n / 10) by (apply Z.div_pos; lia).
  rewrite Nat2Z.inj_succ, Z.pow_succ_r in Hn by lia.
  assert (fuel ≠ O) as Hf' by (intros ->; simpl in Hn; lia).
  destruct (IH (n / 10) (digit_char (n mod 10) :: acc)) as (Hd & Hval & Hlen); [lia|done|done|].
  split; [done|]. split; [|simpl in Hlen; lia].
  rewrite Hval, Hv. simpl length. rewrite Nat2Z.inj_succ, Z.pow_succ_r by lia. nia.
Qed.

Lemma utoa_spec n :
  0 ≤ n →
  forallb is_digit (utoa n) = true ∧ digits_value (utoa n) = n ∧ utoa n ≠ [].
Proof.
  intros Hn. unfold utoa.
  destruct (utoa_aux_spec (S (Z.to_nat (Z.log2 n + 1))) n []) as (H1 & H2 & H3); [|done|done|].
  - split; [done|]. pose proof (Z.log2_nonneg n).
    destruct (decide (n = 0)) as [->|]; [done|].
    pose proof (Z.log2_spec n ltac:(lia)) as [_ Hlt].
    eapply Z.lt_le_trans; [exact Hlt|]. apply Z.pow_le_mono_r; lia.
  - split; [done|]. split.
    + rewrite H2. simpl. unfold digits_value. simpl. lia.
    + intros E. rewrite E in H3. simpl in H3. lia.
Qed.

Lemma utoa_digits n : 0 ≤ n → forallb is_digit (utoa n) = true.
Proof. intros H. by apply utoa_spec. Qed.
Lemma utoa_value n : 0 ≤ n → digits_value (utoa n) = n.
Proof. intros H. by apply utoa_spec. Qed.
Lemma utoa_nonempty n : 0 ≤ n → utoa n ≠ [].
Proof. intros H. by apply utoa_spec. Qed.

Lemma forallb_digit_plain l : forallb is_digit l = true → forallb plain l = true.
Proof.
  intros H. apply forallb_forall. intros x Hx.
  apply is_digit_plain. by eapply forallb_forall in H.
Qed.

Lemma digits_value_pad w l :
  digits_value (pad_left "0" w l) = digits_value l.
Proof.
  unfold pad_left. rewrite digits_value_app.
  assert (∀ k, digits_value (replicate k "0"%char) = 0) as ->; [|lia].
  induction k as [|k IH]; [done|]. cbn [replicate]. rewrite digits_value_cons, IH. done.
Qed.
Lemma pad_digits w l : forallb is_digit l = true → forallb is_digit (pad_left "0" w l) = true.
Proof.
  intros H. unfold pad_left. rewrite forallb_app, H, andb_true_r.
  generalize (w - length l)%nat as k. intros k. by induction k.
Qed.
Lemma length_pad w l : length (pad_left "0"%char w l) = Nat.max w (length l).
Proof. unfold pad_left. rewrite length_app, length_replicate. lia. Qed.

(** [strconv.Atoi] undoes [strconv.Itoa] on 64-bit integers. *)
Lemma Atoi_Itoa n : min_int64 ≤ n ≤ max_int64 → Atoi (Itoa n) = Some n.
Proof.
  intros Hn. unfold Atoi, Itoa, itoa. rewrite bytes_of_bytes.
  destruct (n <? 0) eqn:E; to_prop.
  - unfold atoi_bytes. rewrite beq_refl.
    rewrite utoa_digits, utoa_value by lia.
    rewrite bool_decide_false by (apply utoa_nonempty; lia). simpl.
    replace (- - n) with n by lia.
    replace ((min_int64 <=? n) && (n <=? max_int64)) with true; [done|].
    symmetry. to_prop. lia.
  - pose proof (utoa_digits n E) as Hd. pose proof (utoa_nonempty n E) as Hne.
    unfold atoi_bytes. destruct (utoa n) as [|c l] eqn:El; [done|].
    assert (beq c "-" = false ∧ beq c "+" = false) as [-> ->].
    { simpl in Hd. to_prop. destruct Hd as [Hd _].
      split; intros ->; vm_compute in Hd; discriminate. }
    rewrite Hd, <- El, utoa_value by done. simpl.
    replace ((min_int64 <=? n) && (n <=? max_int64)) with true.
    { rewrite bool_decide_false; [done|]. by rewrite El. }
    symmetry. to_prop. lia.
Qed.

(** *** Digit strings around a decimal point *)

Lemma utoa_aux_length fuel n acc k :
  0 ≤ n < 10 ^ Z.of_nat (S k) → (length (utoa_aux fuel n acc) ≤ S k + length acc)%nat.
Proof.
  revert n acc k. induction fuel as [|fuel IH]; intros n acc k Hn; cbn [utoa_aux]; [lia|].
  destruct (n / 10 =? 0) eqn:E; [simpl; lia|]. to_prop.
  destruct k as [|k].
  { exfalso. apply E. apply Z.div_small. change (10 ^ Z.of_nat 1) with 10 in Hn. lia. }
  etransitivity; [apply (IH _ _ k)|simpl; lia].
  rewrite Nat2Z.inj_succ, Z.pow_succ_r in Hn by lia.
  split; [apply Z.div_pos; lia|apply Z.div_lt_upper_bound; lia].
Qed.
Lemma utoa_length n k : 0 ≤ n < 10 ^ Z.of_nat (S k) → (length (utoa n) ≤ S k)%nat.
Proof. intros H. unfold utoa. etransitivity; [by apply (utoa_aux_length _ _ _ k)|simpl; lia]. Qed.

Lemma cut_byte_found sep l1 l2 :
  mem_byte sep l1 = false → cut_byte sep (l1 ++ sep :: l2) = (l1, l2, true).
Proof.
  unfold mem_byte. induction l1 as [|a l1 IH]; simpl; [by rewrite beq_refl|].
  intros [Ha Hl]%orb_false_iff. rewrite (IH Hl).
  destruct (beq a sep) eqn:E; [|done]. apply beq_eq in E. subst.
  by rewrite beq_refl in Ha.
Qed.
Lemma cut_byte_absent sep l :
  mem_byte sep l = false → cut_byte sep l = (l, [], false).
Proof.
  unfold mem_byte. induction l as [|a l IH]; simpl; [done|].
  intros [Ha Hl]%orb_false_iff. rewrite (IH Hl).
  destruct (beq a sep) eqn:E; [|done]. apply beq_eq in E. subst.
  by rewrite beq_refl in Ha.
Qed.
Lemma mem_byte_digits c l : is_digit c = false → forallb is_digit l = true → mem_byte c l = false.
Proof.
  intros Hc. induction l as [|a l IH]; simpl; [done|]. intros [Ha Hl]%andb_true_iff.
  unfold mem_byte in *. simpl. rewrite IH by done. rewrite orb_false_r.
  apply beq_neq. congruence.
Qed.

Lemma drop_while_eq_spec c l :
  ∃ k, l = replicate k c ++ drop_while_eq c l ∧
       (drop_while_eq c l = [] ∨ ∃ a l', drop_while_eq c l = a :: l' ∧ a ≠ c).
Proof.
  induction l as [|a l IH]; simpl; [exists O; auto|].
  destruct (beq a c) eqn:E.
  - apply beq_eq in E. subst. destruct IH as (k & Hk & IH). exists (S k). simpl.
    split; [by f_equal|done].
  - apply beq_neq in E. exists O. simpl. split; [done|]. right. by exists a, l.
Qed.

Lemma trim_right_byte_spec c l :
  ∃ k, l = trim_right_byte c l ++ replicate k c ∧
       (trim_right_byte c l = [] ∨ ∃ l' a, trim_right_byte c l = l' ++ [a] ∧ a ≠ c).
Proof.
  unfold trim_right_byte. destruct (drop_while_eq_spec c (rev l)) as (k & Hk & H).
  exists k. split.
  - rewrite <- (rev_involutive l) at 1. rewrite Hk at 1. rewrite rev_app_distr. f_equal.
    clear. induction k as [|k IH]; [done|]. simpl. rewrite IH. symmetry. apply replicate_cons_app.
  - destruct H as [->|(a & l' & -> & Ha)]; [by left|]. right. exists (rev l'), a. done.
Qed.

Lemma trim_right_byte_last c l a : a ≠ c → trim_right_byte c (l ++ [a]) = l ++ [a].
Proof.
  intros H. unfold trim_right_byte. rewrite rev_app_distr. simpl.
  apply beq_neq in H. rewrite H. simpl. by rewrite rev_involutive.
Qed.
Lemma trim_right_byte_app c l k : trim_right_byte c (l ++ replicate k c) = trim_right_byte c l.
Proof.
  unfold trim_right_byte. f_equal. rewrite rev_app_distr.
  assert (rev (replicate k c) = replicate k c) as ->.
  { induction k as [|k IH]; [done|]. simpl. rewrite IH. symmetry. apply replicate_cons_app. }
  induction k as [|k IH]; [done|]. simpl. by rewrite beq_refl.
Qed.
Lemma digits_value_zeros l k :
  digits_value (l ++ replicate k "0"%char) = digits_value l * 10 ^ Z.of_nat k.
Proof.
  rewrite digits_value_app, length_replicate.
  assert (digits_value (replicate k "0"%char) = 0) as ->; [|lia].
  induction k as [|k IH]; [done|]. cbn [replicate]. by rewrite digits_value_cons, IH.
Qed.
Lemma zeros_digits k : forallb is_digit (replicate k "0"%char) = true.
Proof. by induction k. Qed.

Lemma digit_value_inj c c' :
  is_digit c = true → is_digit c' = true → digit_value c = digit_value c' → c = c'.
Proof.
  unfold digit_value, is_digit. intros H H' E. rewrite <- (chr_code c), <- (chr_code c').
  f_equal. lia.
Qed.

Lemma digit_value_range c : is_digit c = true → 0 ≤ digit_value c < 10.
Proof. unfold digit_value, is_digit. intros H. to_prop in H. lia. Qed.

(** Two digit texts of the same length and value are the same text. *)
Lemma digits_value_inj l l' :
  forallb is_digit l = true → forallb is_digit l' = true → length l = length l' →
  digits_value l = digits_value l' → l = l'.
Proof.
  revert l'. induction l as [|c l IH]; intros [|c' l']; [done..|].
  simpl forallb. intros Hl Hl' [= Hlen] Hv. to_prop in Hl. to_prop in Hl'.
  destruct Hl as [Hc Hl], Hl' as [Hc' Hl']. rewrite !digits_value_cons in Hv. rewrite <- Hlen in Hv.
  pose proof (digits_value_range l Hl) as R. pose proof (digits_value_range l' Hl') as R'.
  rewrite <- Hlen in R'. apply digit_value_range in Hc as Rc. apply digit_value_range in Hc' as Rc'.
  assert (digit_value c = digit_value c') as E by nia.
  f_equal; [by apply digit_value_inj|]. apply IH; [done..|]. rewrite E in Hv. lia.
Qed.

Lemma replace_byte_app c new l l' : replace_byte c new (l ++ l') = replace_byte c new l ++ replace_byte c new l'.
Proof. unfold replace_byte. by rewrite flat_map_app. Qed.

Lemma replace_byte_absent c new l : mem_byte c l = false → replace_byte c new l = l.
Proof.
  unfold mem_byte, replace_byte. induction l as [|a l IH]; [done|]. simpl. intros H. to_prop in H.
  destruct H as [Ha Hl]. rewrite IH by done. destruct (beq a c) eqn:E; [|done].
  apply beq_eq in E as ->. by rewrite ?beq_refl in Ha.
Qed.

Lemma mem_byte_app c l l' : mem_byte c (l ++ l') = mem_byte c l || mem_byte c l'.
Proof. apply existsb_app. Qed.

Lemma replace_byte_cons_eq c new l : replace_byte c new (c :: l) = new ++ replace_byte c new l.
Proof. unfold replace_byte. simpl. by rewrite beq_refl. Qed.

(** ** Separators *)

Lemma last_index_aux_shift c i f l :
  last_index_aux c i f l = if mem_byte c l then i + last_index c l else f.
Proof.
  unfold last_index. revert i f. induction l as [|a l IH]; intros i f; [done|].
  change (mem_byte c (a :: l)) with (beq c a || mem_byte c l). cbn [last_index_aux].
  rewrite (IH (i + 1)), (IH (0 + 1)). assert (beq a c = beq c a) as -> by apply Ascii.eqb_sym.
  destruct (mem_byte c l) eqn:E; [rewrite orb_true_r; lia|]. rewrite orb_false_r. destruct (beq c a); lia.
Qed.

Lemma last_index_aux_app c i f l1 l2 :
  last_index_aux c i f (l1 ++ l2) =
  last_index_aux c (i + Z.of_nat (length l1)) (last_index_aux c i f l1) l2.
Proof.
  revert i f. induction l1 as [|a l1 IH]; intros i f; cbn [app length last_index_aux].
  - f_equal. lia.
  - rewrite IH. f_equal. lia.
Qed.

Lemma last_index_app c l1 l2 :
  last_index c (l1 ++ l2) = if mem_byte c l2 then Z.of_nat (length l1) + last_index c l2 else last_index c l1.
Proof.
  unfold last_index at 1. rewrite last_index_aux_app, last_index_aux_shift. by destruct (mem_byte c l2).
Qed.

Lemma last_index_absent c l : mem_byte c l = false → last_index c l = -1.
Proof. intros H. unfold last_index. by rewrite last_index_aux_shift, H. Qed.

Lemma last_index_range c l : mem_byte c l = true → 0 ≤ last_index c l < Z.of_nat (length l).
Proof.
  induction l as [|a l IH]; [done|]. intros H. change (a :: l) with ([a] ++ l). rewrite last_index_app.
  cbn [length app]. destruct (mem_byte c l) eqn:E; [specialize (IH eq_refl); lia|].
  simpl in H. fold (mem_byte c l) in H. rewrite E, orb_false_r in H. apply beq_eq in H as ->.
  unfold last_index. simpl. rewrite beq_refl. lia.
Qed.

Lemma last_index_nonneg c l : (0 <=? last_index c l) = mem_byte c l.
Proof.
  destruct (mem_byte c l) eqn:E; [apply Z.leb_le; by apply last_index_range|].
  by rewrite last_index_absent.
Qed.

Lemma mem_byte_join c sep parts :
  mem_byte c sep = false → Forall (λ p, mem_byte c p = false) parts → mem_byte c (join_bytes sep parts) = false.
Proof.
  intros Hs. induction 1 as [|p parts Hp _ IH]; [done|]. destruct parts as [|q parts]; [done|].
  change (join_bytes sep (p :: q :: parts)) with (p ++ sep ++ join_bytes sep (q :: parts)).
  by rewrite !mem_byte_app, Hp, Hs, IH.
Qed.

Lemma mem_byte_join_sep c p q parts : mem_byte c (join_bytes [c] (p :: q :: parts)) = true.
Proof.
  change (join_bytes [c] (p :: q :: parts)) with (p ++ c :: join_bytes [c] (q :: parts)).
  rewrite mem_byte_app. simpl. rewrite beq_refl. apply orb_true_r.
Qed.

Lemma replace_join c new parts :
  Forall (λ p, mem_byte c p = false) parts → replace_byte c new (join_bytes [c] parts) = join_bytes new parts.
Proof.
  induction 1 as [|p parts Hp _ IH]; [done|].
  destruct parts as [|q parts]; [by apply replace_byte_absent|].
  change (join_bytes [c] (p :: q :: parts)) with (p ++ c :: join_bytes [c] (q :: parts)).
  rewrite replace_byte_app, replace_byte_cons_eq, IH. by rewrite (replace_byte_absent _ _ p).
Qed.

Lemma join_nil_concat parts : join_bytes [] parts = List.concat parts.
Proof.
  induction parts as [|p parts IH]; [done|]. destruct parts as [|q parts]; [simpl; by rewrite app_nil_r|].
  change (join_bytes [] (p :: q :: parts)) with (p ++ join_bytes [] (q :: parts)). by rewrite IH.
Qed.

Lemma mem_byte_cons c a l : mem_byte c (a :: l) = beq c a || mem_byte c l.
Proof. done. Qed.
Lemma beq_sym a b : beq a b = beq b a.
Proof. apply Ascii.eqb_sym. Qed.
Lemma has_prefix_prefix l p : has_prefix_bytes l p = true ↔ p `prefix_of` l.
Proof.
  revert l. induction p as [|b p IH]; intros l; [split; [by intros _; exists l|by destruct l]|]. destruct l as [|a l]; cbn.
  - split; [done|]. intros [r H]. discriminate H.
  - rewrite andb_true_iff, beq_eq, IH. split; [intros [-> H]; by apply prefix_cons|intros H].
    split; [by apply prefix_cons_inv_1 in H|by apply prefix_cons_inv_2 in H].
Qed.
Lemma index_of_Some pattern l i : index_of pattern l = Some i →
  pattern `prefix_of` drop i l ∧ (i ≤ length l)%nat ∧ ∀ j, (j < i)%nat → has_prefix_bytes (drop j l) pattern = false.
Proof.
  revert i. induction l as [|c l IH]; intros i H; cbn [index_of] in H.
  - destruct (has_prefix_bytes [] pattern) eqn:E; [|done]. injection H as <-. split_and!; [by apply has_prefix_prefix|done|lia].
  - destruct (has_prefix_bytes (c :: l) pattern) eqn:E.
    + injection H as <-. split_and!; [by apply has_prefix_prefix|cbn; lia|lia].
    + apply fmap_Some in H as (i' & H & ->). apply IH in H as (Hp & Hl & Hj). split_and!; [done|cbn; lia|].
      intros [|j] Hlt; [done|]. apply Hj. lia.
Qed.
Lemma index_of_None pattern l : index_of pattern l = None → ∀ j, has_prefix_bytes (drop j l) pattern = false.
Proof.
  induction l as [|c l IH]; intros H j; cbn [index_of] in H.
  - rewrite drop_nil. by destruct (has_prefix_bytes [] pattern).
  - destruct (has_prefix_bytes (c :: l) pattern) eqn:E; [done|]. apply fmap_None in H. destruct j as [|j]; [done|]. by apply IH.
Qed.

Lemma split_aux_app sep cur l l' :
  mem_byte sep l = false → split_aux sep cur (l ++ sep :: l') = (rev cur ++ l) :: split_byte sep l'.
Proof.
  revert cur. induction l as [|a l IH]; intros cur H; cbn [app split_aux].
  - rewrite beq_refl, app_nil_r. done.
  - rewrite mem_byte_cons in H. apply orb_false_iff in H as [Ha Hl]. rewrite beq_sym, Ha.
    rewrite IH by done. simpl. by rewrite <- app_assoc.
Qed.

Lemma split_aux_absent sep cur l : mem_byte sep l = false → split_aux sep cur l = [rev cur ++ l].
Proof.
  revert cur. induction l as [|a l IH]; intros cur H; cbn [app split_aux].
  - by rewrite app_nil_r.
  - rewrite mem_byte_cons in H. apply orb_false_iff in H as [Ha Hl]. rewrite beq_sym, Ha.
    rewrite IH by done. simpl. by rewrite <- app_assoc.
Qed.

(** Splitting undoes joining. *)
Lemma split_join sep parts :
  parts ≠ [] → Forall (λ p, mem_byte sep p = false) parts → split_byte sep (join_bytes [sep] parts) = parts.
Proof.
  intros Hne. induction 1 as [|p parts Hp _ IH]; [done|]. destruct parts as [|q parts].
  - unfold split_byte. by rewrite split_aux_absent.
  - change (join_bytes [sep] (p :: q :: parts)) with (p ++ sep :: join_bytes [sep] (q :: parts)).
    unfold split_byte at 1. rewrite split_aux_app by done. by rewrite IH.
Qed.

Lemma count_byte_absent c l : mem_byte c l = false → count_byte c l = O.
Proof.
  unfold count_byte. induction l as [|a l IH]; [done|]. rewrite mem_byte_cons. intros H.
  apply orb_false_iff in H as [Ha Hl]. simpl. by rewrite Ha, IH.
Qed.
Lemma count_byte_app c l l' : count_byte c (l ++ l') = (count_byte c l + count_byte c l')%nat.
Proof. unfold count_byte. by rewrite List.filter_app, length_app. Qed.
Lemma bytes_app s t : bytes (s +:+ t) = bytes s ++ bytes t.
Proof.
  induction s as [|c s IH]; [done|]. change (c :: bytes (s +:+ t) = c :: (bytes s ++ bytes t)). by rewrite IH.
Qed.
Lemma bytes_Join parts sep : bytes (Join parts sep) = join_bytes (bytes sep) (bytes <$> parts).
Proof. apply bytes_of_bytes. Qed.
