(* ===== verification/GoErrors.v ===== *)
(** Go error values.

    An error is a tree: a sentinel declared with [errors.New], a plain message,
    [fmt.Errorf] with one [%w], or [errors.Join].  [Is] is [errors.Is]: it looks
    for a sentinel anywhere in the tree.  Messages are kept as the format string
    of the source, without the arguments, which no decision of the program
    depends on.  The sentinels of [internal/loan/errors.go] come first; two of
    them wrap a third. *)
From stdpp Require Import base list strings.
From S2P Require Import Prelude.

Inductive sentinel : Set :=
(* internal/loan/errors.go *)
| ErrNotFound
| ErrAmbiguousAccountResolution
| ErrInvalidInput
| ErrUnsupportedCalculation
| ErrUnsupportedRepaymentReversal
| ErrUnsupportedRepaymentAdjustment
| ErrHistoricalEvidence
| ErrCurrentSnapshot
| ErrFincloudCredentials
| ErrFincloudSession
| ErrFincloudUnavailable
| ErrDWHUnavailable
| ErrMSOUnavailable
| ErrInvariant
(* the standard library's *)
| ContextCanceled
| ContextDeadlineExceeded
(* internal/snapshot *)
| ErrRefreshInProgress
(* internal/slik *)
| SlikErrNotFound
| SlikErrNotReady
| SlikErrExpired
(* internal/fincloud, internal/browserauth, internal/auth, internal/user *)
| FincloudErrInvalidCredentials
| ErrInvalidCredentials
| ErrInactiveUser
| ErrUnauthenticated
| ErrLoginThrottled
| ErrSessionNotFound
| UserErrNotFound
| ErrUsernameTaken
(* internal/features/users *)
| UsersErrNotFound
| ErrUnknownPermission
| ErrBaselinePermission
| ErrLastAccessManager
(* internal/features/auditlogs *)
| AuditErrNotFound.

#[export] Instance sentinel_eq_dec : EqDecision sentinel.
Proof. solve_decision. Defined.

Inductive err : Type :=
| Sentinel (s : sentinel)
| Msg (m : string)
| Wrap (m : string) (e : err)
| JoinErr (es : list err).

Abbreviation res := (result err).

(** The errors that [fmt.Errorf("%w: ...", other)] builds in a [var] block. *)
Definition sentinel_unwrap (s : sentinel) : option sentinel :=
  match s with
  | ErrUnsupportedRepaymentReversal | ErrUnsupportedRepaymentAdjustment =>
      Some ErrUnsupportedCalculation
  | _ => None
  end.

Definition sentinel_is (s t : sentinel) : bool :=
  bool_decide (s = t) || bool_decide (sentinel_unwrap s = Some t).

Fixpoint Is (e : err) (t : sentinel) : bool :=
  match e with
  | Sentinel s => sentinel_is s t
  | Msg _ => false
  | Wrap _ e' => Is e' t
  | JoinErr es => existsb (fun e' => Is e' t) es
  end.

(** [fmt.Errorf("%w: ...", sentinel)] *)
Definition errorf (s : sentinel) (m : string) : err := Wrap m (Sentinel s).

(** An error of a step, in the words of its caller *)
Definition wrap_err {A} (format : string) (r : res A) : res A := match r with Ok a => Ok a | Fail e => Fail (Wrap format e) end.

Lemma Is_self s : Is (Sentinel s) s = true.
Proof. simpl. unfold sentinel_is. by rewrite bool_decide_true. Qed.
Lemma wrap_err_Ok {A} format (r : res A) a : wrap_err format r = Ok a ↔ r = Ok a.
Proof. by destruct r. Qed.
Lemma Is_wrap m e t : Is (Wrap m e) t = Is e t.
Proof. done. Qed.
Lemma Is_join es t : Is (JoinErr es) t = existsb (fun e => Is e t) es.
Proof. done. Qed.

(** An unsupported reversal or adjustment is an unsupported calculation. *)
Lemma Is_unsupported e :
  Is e ErrUnsupportedRepaymentReversal = true ∨ Is e ErrUnsupportedRepaymentAdjustment = true →
  Is e ErrUnsupportedCalculation = true.
Proof.
  revert e. fix IH 1. intros [s|m|m e|es]; simpl.
  - unfold sentinel_is. destruct s; cbn; intros []; done.
  - by intros [].
  - apply IH.
  - induction es as [|e es IHes]; simpl; [by intros []|].
    intros H. apply orb_true_iff.
    destruct H as [[H|H]%orb_true_iff|[H|H]%orb_true_iff];
      (left; apply IH; by (left + right)) || (right; apply IHes; by (left + right)).
Qed.
