(* ===== verification/Database.v ===== *)
(** The application database, as the repositories use it.

    A repository call runs statements against the tables [S] one after the other.
    Any statement can fail for a reason outside the program (connection lost,
    deadlock, context cancelled); the schedule [faults] says which ones do, and
    whether the server had already applied the statement when the connection
    failed.  A theorem quantified over the world covers every schedule.

    [transaction] is [BeginTxx], the body, [Commit], with the deferred
    [Rollback]: InnoDB undoes an uncommitted transaction, and a commit that
    reports an error may or may not have been applied. *)
From stdpp Require Import base list strings.
From S2P Require Import Prelude GoErrors.

Inductive fault := Lost (applied : bool) (e : err).

Record world (S : Type) := World { tables : S; faults : list (option fault) }.
Arguments World {S} tables faults.
Arguments tables {S}.
Arguments faults {S}.

Definition db (S A : Type) : Type := world S → res A * world S.

#[export] Instance db_ret S : MRet (db S) := fun A a w => (Ok a, w).
#[export] Instance db_bind S : MBind (db S) := fun A B f m w =>
  match m w with
  | (Ok a, w') => f a w'
  | (Fail e, w') => (Fail e, w')
  end.

Section Database.
Context {S : Type}.

Definition db_fail {A} (e : err) : db S A := fun w => (Fail e, w).
Definition lift {A} (r : res A) : db S A := fun w => (r, w).

Definition next_fault (w : world S) : option fault * list (option fault) :=
  match faults w with
  | [] => (None, [])
  | f :: rest => (f, rest)
  end.

(** One statement outside a transaction; [f] is its effect, or the error that
    the server answers with, in which case nothing changes. *)
Definition statement {A} (f : S → res (A * S)) : db S A := fun w =>
  let '(fl, rest) := next_fault w in
  match fl, f (tables w) with
  | None, Ok (a, s) => (Ok a, World s rest)
  | None, Fail e => (Fail e, World (tables w) rest)
  | Some (Lost true e), Ok (_, s) => (Fail e, World s rest)
  | Some (Lost _ e), _ => (Fail e, World (tables w) rest)
  end.
(** A statement that always has an effect, and a query *)
Definition exec (f : S → S) : db S unit := statement (fun s => Ok (tt, f s)).
Definition query {A} (f : S → A) : db S A := statement (fun s => Ok (f s, s)).

(** [fmt.Errorf("...: %w", err)] around the error of a call *)
Definition wrapped {A} (m : string) (c : db S A) : db S A := fun w =>
  match c w with
  | (Ok a, w') => (Ok a, w')
  | (Fail e, w') => (Fail (Wrap m e), w')
  end.

(** What the code does about the error of a call *)
Definition recover {A} (c : db S A) (k : err → db S A) : db S A := fun w =>
  match c w with
  | (Ok a, w') => (Ok a, w')
  | (Fail e, w') => k e w'
  end.

(** [on_begin] and [on_commit] wrap the errors of the two ends. *)
Definition transaction {A} (on_begin on_commit : err → err) (body : db S A) : db S A := fun w =>
  let '(fl, rest) := next_fault w in
  match fl with
  | Some (Lost _ e) => (Fail (on_begin e), World (tables w) rest)
  | None =>
      match body (World (tables w) rest) with
      | (Fail e, w') => (Fail e, World (tables w) (faults w'))
      | (Ok a, w') =>
          let '(fl, rest) := next_fault w' in
          match fl with
          | None => (Ok a, World (tables w') rest)
          | Some (Lost applied e) =>
              (Fail (on_commit e), World (if applied then tables w' else tables w) rest)
          end
      end
  end.

(** ** What a call did *)

(** A transaction that reports success applied its body; one that reports an
    error left the tables alone, or applied the whole body in a commit whose
    answer was lost. *)
Lemma transaction_atomic {A} b c (body : db S A) w r w' :
  transaction b c body w = (r, w') →
  match r with
  | Ok a => ∃ rest w1, body (World (tables w) rest) = (Ok a, w1) ∧ tables w' = tables w1
  | Fail _ => tables w' = tables w ∨
      ∃ a rest w1, body (World (tables w) rest) = (Ok a, w1) ∧ tables w' = tables w1
  end.
Proof.
  unfold transaction. destruct (next_fault w) as [[[applied e]|] rest].
  { intros [= <- <-]. by left. }
  destruct (body _) as [[a|e] w1] eqn:Hb.
  - destruct (next_fault w1) as [[[[] e]|] rest1]; intros [= <- <-]; simpl.
    + right. by eexists _, _, _.
    + by left.
    + by eexists _, _.
  - intros [= <- <-]. by left.
Qed.

Lemma statement_effect {A} (f : S → res (A * S)) w r w' :
  statement f w = (r, w') →
  match r with
  | Ok a => ∃ s, f (tables w) = Ok (a, s) ∧ tables w' = s
  | Fail _ => tables w' = tables w ∨ ∃ a s, f (tables w) = Ok (a, s) ∧ tables w' = s
  end.
Proof.
  unfold statement. destruct (next_fault w) as [[[[] e]|] rest]; destruct (f (tables w)) as [[a s]|e'];
    intros [= <- <-]; simpl; eauto 6.
Qed.

Lemma exec_Ok (f : S → S) w u w' : exec f w = (Ok u, w') → tables w' = f (tables w).
Proof. intros H. apply statement_effect in H as (s & [= <- <-] & ->). done. Qed.
Lemma query_Ok {A} (f : S → A) w a w' : query f w = (Ok a, w') → a = f (tables w) ∧ tables w' = tables w.
Proof. intros H. apply statement_effect in H as (s & [= <- <-] & ->). done. Qed.
Lemma query_same {A} (f : S → A) w r w' : query f w = (r, w') → tables w' = tables w.
Proof.
  intros H. apply statement_effect in H. destruct r as [a|e].
  - by destruct H as (s & [= <- <-] & ->).
  - destruct H as [->|(a & s & [= <- <-] & ->)]; done.
Qed.

Lemma wrapped_Ok {A} m (c : db S A) w a w' : wrapped m c w = (Ok a, w') → c w = (Ok a, w').
Proof. unfold wrapped. by destruct (c w) as [[]]. Qed.
Lemma wrapped_inv {A} m (c : db S A) w r w' :
  wrapped m c w = (r, w') → ∃ r', c w = (r', w') ∧
    match r with Ok a => r' = Ok a | Fail e => ∃ e', r' = Fail e' ∧ e = Wrap m e' end.
Proof.
  unfold wrapped. destruct (c w) as [[a|e] w1]; intros [= <- <-]; eexists; (split; [done|]); eauto.
Qed.

Lemma db_bind_Ok {A B} (m : db S A) (f : A → db S B) w b w' :
  (m ≫= f) w = (Ok b, w') ↔ ∃ a w1, m w = (Ok a, w1) ∧ f a w1 = (Ok b, w').
Proof.
  unfold mbind, db_bind. destruct (m w) as [[a|e] w1]; split.
  - intros H. by exists a, w1.
  - by intros (? & ? & [= -> ->] & ?).
  - done.
  - by intros (? & ? & ? & _).
Qed.

(** Every call relates the tables before and after by [R], whatever fails.  With a
    preorder [R] this composes: an invariant is [R s s' := I s → I s']. *)
Definition evolves {A} (R : S → S → Prop) (c : db S A) : Prop :=
  ∀ w r w', c w = (r, w') → R (tables w) (tables w').

Section Evolves.
Context (R : S → S → Prop) `{!PreOrder R}.

Lemma evolves_bind {A B} (c : db S A) (k : A → db S B) :
  evolves R c → (∀ a, evolves R (k a)) → evolves R (c ≫= k).
Proof.
  intros Hc Hk w r w'. unfold mbind, db_bind. destruct (c w) as [[a|e] w1] eqn:E.
  - intros H. etrans; [by eapply Hc|by eapply Hk].
  - intros [= <- <-]. by eapply Hc.
Qed.
Lemma evolves_ret {A} (a : A) : evolves R (mret a : db S A).
Proof. by intros w r w' [= <- <-]. Qed.
Lemma evolves_fail {A} e : evolves R (db_fail e : db S A).
Proof. by intros w r w' [= <- <-]. Qed.
Lemma evolves_lift {A} (r : res A) : evolves R (lift r).
Proof. by intros w r' w' [= <- <-]. Qed.
Lemma evolves_statement {A} (f : S → res (A * S)) :
  (∀ s a s', f s = Ok (a, s') → R s s') → evolves R (statement f).
Proof.
  intros Hf w r w' H. apply statement_effect in H. destruct r as [a|e].
  - destruct H as (s & H & ->). by eapply Hf.
  - destruct H as [->|(a & s & H & ->)]; [done|by eapply Hf].
Qed.
Lemma evolves_exec (f : S → S) : (∀ s, R s (f s)) → evolves R (exec f).
Proof. intros Hf. apply evolves_statement. by intros s a s' [= <- <-]. Qed.
Lemma evolves_query {A} (f : S → A) : evolves R (query f).
Proof. apply evolves_statement. by intros s a s' [= <- <-]. Qed.
Lemma evolves_wrapped {A} m (c : db S A) : evolves R c → evolves R (wrapped m c).
Proof. intros Hc w r w' H. apply wrapped_inv in H as (r' & H & _). by eapply Hc. Qed.
Lemma evolves_recover {A} (c : db S A) (k : err → db S A) :
  evolves R c → (∀ e, evolves R (k e)) → evolves R (recover c k).
Proof.
  intros Hc Hk w r w'. unfold recover. destruct (c w) as [[a|e] w1] eqn:E.
  - intros [= <- <-]. by eapply Hc.
  - intros H. etrans; [by eapply Hc|by eapply Hk].
Qed.
Lemma evolves_transaction {A} b c (body : db S A) :
  (∀ w a w', body w = (Ok a, w') → R (tables w) (tables w')) → evolves R (transaction b c body).
Proof.
  intros Hb w r w' H. apply transaction_atomic in H. destruct r as [a|e].
  - destruct H as (rest & w1 & H & ->). by apply Hb in H.
  - destruct H as [->|(a & rest & w1 & H & ->)]; [done|]. by apply Hb in H.
Qed.
End Evolves.

(** A run without faults *)
Definition healthy (w : world S) : Prop := Forall (λ f, f = None) (faults w).

Lemma healthy_next w : healthy w → ∃ rest, next_fault w = (None, rest) ∧ Forall (λ f : option fault, f = None) rest.
Proof.
  unfold healthy, next_fault. destruct (faults w) as [|f l]; intros H; [by exists []|].
  inversion H; subst. by exists l.
Qed.

(** A call meets the faults of the schedule in their order. *)
Definition drains {A} (c : db S A) : Prop := ∀ w r w', c w = (r, w') → faults w' `suffix_of` faults w.

Lemma drains_ret {A} (a : A) : drains (mret a : db S A).
Proof. by intros w r w' [= <- <-]. Qed.
Lemma drains_fail {A} e : drains (db_fail e : db S A).
Proof. by intros w r w' [= <- <-]. Qed.
Lemma drains_lift {A} (r : res A) : drains (lift r).
Proof. by intros w r' w' [= <- <-]. Qed.
Lemma drains_bind {A B} (c : db S A) (k : A → db S B) : drains c → (∀ a, drains (k a)) → drains (c ≫= k).
Proof.
  intros Hc Hk w r w'. unfold mbind, db_bind. destruct (c w) as [[a|e] w1] eqn:E.
  - intros H. etrans; [by eapply Hk|by eapply Hc].
  - intros [= <- <-]. by eapply Hc.
Qed.
Lemma drains_wrapped {A} m (c : db S A) : drains c → drains (wrapped m c).
Proof. intros Hc w r w' H. apply wrapped_inv in H as (r' & H & _). by eapply Hc. Qed.
Lemma next_fault_suffix w fl rest : next_fault w = (fl, rest) → rest `suffix_of` faults w.
Proof. unfold next_fault. destruct (faults w) as [|f l]; intros [= <- <-]; [done|by exists [f]]. Qed.
Lemma drains_statement {A} (f : S → res (A * S)) : drains (statement f).
Proof.
  intros w r w'. unfold statement. destruct (next_fault w) as [fl rest] eqn:E. apply next_fault_suffix in E.
  destruct fl as [[[] e]|], (f (tables w)) as [[a s]|e']; intros [= <- <-]; exact E.
Qed.

(** A transaction that reports an error left the tables alone, or the error is that
    of the connection at its commit. *)
Lemma transaction_refused {A} b c (body : db S A) w e w' :
  drains body → transaction b c body w = (Fail e, w') →
  tables w' = tables w ∨ ∃ applied f, Some (Lost applied f) ∈ faults w ∧ e = c f.
Proof.
  intros Hd. unfold transaction. destruct (next_fault w) as [fl rest] eqn:E.
  apply next_fault_suffix in E. destruct fl as [[applied f]|]; [intros [= <- <-]; by left|].
  destruct (body (World (tables w) rest)) as [[a|e'] w1] eqn:Eb; [|intros [= <- <-]; by left].
  apply Hd in Eb. cbn [faults] in Eb. unfold next_fault. destruct (faults w1) as [|[[applied f]|] l] eqn:Ef; [done| |done].
  intros [= <- <-]. right. exists applied, f. split; [|done]. eapply elem_of_suffix; [|exact E]. eapply elem_of_suffix; [|exact Eb]. left.
Qed.
End Database.

(** ** Calls that leave a part of the tables alone *)

Definition keeps {S A B} (f : S → A) (c : db S B) : Prop :=
  ∀ w r w', c w = (r, w') → f (tables w') = f (tables w).

Lemma keeps_bind {S A B C} (f : S → A) (c : db S B) (k : B → db S C) :
  keeps f c → (∀ b, keeps f (k b)) → keeps f (c ≫= k).
Proof.
  intros Hc Hk w r w'. unfold mbind, db_bind. destruct (c w) as [[b|e] w1] eqn:E.
  - intros H. rewrite (Hk b _ _ _ H). by apply Hc in E.
  - intros [= <- <-]. by apply Hc in E.
Qed.
Lemma keeps_ret {S A B} (f : S → A) (b : B) : keeps f (mret b : db S B).
Proof. by intros w r w' [= <- <-]. Qed.
Lemma keeps_fail {S A B} (f : S → A) e : keeps f (db_fail e : db S B).
Proof. by intros w r w' [= <- <-]. Qed.
Lemma keeps_lift {S A B} (f : S → A) (r : res B) : keeps f (lift r : db S B).
Proof. by intros w r' w' [= <- <-]. Qed.
Lemma keeps_exec {S A} (f : S → A) (g : S → S) : (∀ s, f (g s) = f s) → keeps f (exec g).
Proof.
  intros Hg w r w' H. apply statement_effect in H. destruct r as [u|e].
  - destruct H as (s & [= <- <-] & ->). apply Hg.
  - destruct H as [->|(a & s & [= <- <-] & ->)]; [done|apply Hg].
Qed.
Lemma keeps_wrapped {S A B} (f : S → A) m (c : db S B) : keeps f c → keeps f (wrapped m c).
Proof. intros Hc w r w' H. apply wrapped_inv in H as (r' & H & _). by eapply Hc. Qed.
Lemma keeps_query {S A B} (f : S → A) (g : S → B) : keeps f (query g).
Proof. intros w r w' H. by rewrite (query_same _ _ _ _ H). Qed.
#[export] Hint Resolve keeps_bind keeps_ret keeps_fail keeps_lift keeps_exec keeps_wrapped keeps_query : thor.

(** Take a successful call apart into the successes of its steps. *)
Ltac inv_db :=
  repeat match goal with
  | H : (_ ≫= _) _ = (Ok _, _) |- _ =>
      let a := fresh "a" in let w := fresh "w" in let H1 := fresh "Hcall" in
      apply db_bind_Ok in H as (a & w & H1 & H)
  | H : wrapped _ _ _ = (Ok _, _) |- _ => apply wrapped_Ok in H
  | H : exec _ _ = (Ok _, _) |- _ => apply exec_Ok in H
  | H : query _ _ = (Ok _, _) |- _ => apply query_Ok in H as [? H]
  | H : mret _ _ = (_, _) |- _ => injection H as H; subst
  | H : lift _ _ = (_, _) |- _ => injection H as H; subst
  | H : db_fail _ _ = (Ok _, _) |- _ => discriminate H
  end.
