(* ===== verification/GoSlices.v ===== *)
(** Go's [slices] package: [SortStableFunc] and [SortFunc].

    The comparison of the source is a three-way function; [leb x y] is its
    "[compare(x, y) <= 0]".  A stable sort has one possible result, computed here
    by insertion; an unstable sort returns some sorted permutation, so code that
    calls it is related to every such result by [sorted_permutation_unique].
    Strings are ordered byte by byte. *)
From stdpp Require Import base list sorting strings.
From Stdlib Require Import ZArith Lia OrderedTypeEx.
From S2P Require Import Prelude.
Local Open Scope Z_scope.

Section Sort.
Context {A : Type}.
Variable leb : A → A → bool.

Fixpoint insert_sorted (x : A) (l : list A) : list A :=
  match l with
  | [] => [x]
  | y :: l' => if leb x y then x :: l else y :: insert_sorted x l'
  end.
Fixpoint SortStableFunc (l : list A) : list A :=
  match l with
  | [] => []
  | x :: l' => insert_sorted x (SortStableFunc l')
  end.

Hypothesis leb_total : ∀ x y, leb x y = false → leb y x = true.
Hypothesis leb_trans : ∀ x y z, leb x y = true → leb y z = true → leb x z = true.

Abbreviation le := (fun x y => leb x y = true).

Lemma insert_sorted_perm x l : insert_sorted x l ≡ₚ x :: l.
Proof.
  induction l as [|y l IH]; [done|]. simpl. destruct (leb x y); [done|].
  rewrite IH. constructor.
Qed.
Lemma SortStableFunc_perm l : SortStableFunc l ≡ₚ l.
Proof. induction l as [|x l IH]; [done|]. simpl. by rewrite insert_sorted_perm, IH. Qed.

Lemma insert_sorted_StronglySorted x l : StronglySorted le l → StronglySorted le (insert_sorted x l).
Proof.
  induction l as [|y l IH]; simpl; intros H; [by repeat constructor|].
  inversion H as [|? ? Hl Hy]; subst. destruct (leb x y) eqn:E.
  - constructor; [done|]. constructor; [done|]. eapply Forall_impl; [exact Hy|].
    intros z Hz. by apply (leb_trans x y z).
  - constructor; [by apply IH|]. rewrite insert_sorted_perm. constructor; [by apply leb_total|done].
Qed.
Lemma SortStableFunc_sorted l : StronglySorted le (SortStableFunc l).
Proof. induction l as [|x l IH]; simpl; [constructor|]. by apply insert_sorted_StronglySorted. Qed.

(** Sorting a filtered list is filtering the sorted list: stability. *)
Lemma insert_sorted_first x l :
  Forall (λ y, leb x y = true) l → insert_sorted x l = x :: l.
Proof. destruct l as [|y l]; [done|]. intros H. inversion H as [|? ? Hx]; subst. simpl. by rewrite Hx. Qed.

Lemma SortStableFunc_id l : StronglySorted le l → SortStableFunc l = l.
Proof.
  induction 1 as [|x l Hl IH Hx]; [done|]. simpl. rewrite IH. by apply insert_sorted_first.
Qed.
End Sort.

(** A sort by an injective integer key has one possible result. *)
Lemma sorted_permutation_unique {A} (f : A → Z) (l1 l2 : list A) :
  l1 ≡ₚ l2 → NoDup (f <$> l1) →
  StronglySorted (λ x y, f x ≤ f y) l1 → StronglySorted (λ x y, f x ≤ f y) l2 → l1 = l2.
Proof.
  revert l2. induction l1 as [|x l1 IH]; intros l2 Hp Hnd H1 H2.
  { by apply Permutation_nil in Hp as ->. }
  destruct l2 as [|y l2]; [by symmetry in Hp; apply Permutation_nil_cons in Hp|].
  inversion H1 as [|? ? Hs1 Hx]; inversion H2 as [|? ? Hs2 Hy]; subst.
  simpl in Hnd. apply NoDup_cons in Hnd as [Hnin Hnd].
  assert (x = y) as <-.
  { assert (y ∈ x :: l1) as Hin1 by (rewrite Hp; left).
    assert (x ∈ y :: l2) as Hin2 by (rewrite <- Hp; left).
    apply elem_of_cons in Hin1 as [->|Hin1]; [done|].
    apply elem_of_cons in Hin2 as [->|Hin2]; [done|].
    rewrite Forall_forall in Hx. rewrite Forall_forall in Hy.
    specialize (Hx _ Hin1). specialize (Hy _ Hin2). exfalso. apply Hnin.
    replace (f x) with (f y) by lia. by apply list_elem_of_fmap_2. }
  f_equal. apply IH; [by apply (Permutation_cons_inv Hp)|done..].
Qed.

(** ** The order of strings *)

Definition string_ltb (s t : string) : bool := match String.compare s t with Lt => true | _ => false end.
Definition string_leb (s t : string) : bool := negb (string_ltb t s).

Lemma string_ltb_lt a b : string_ltb a b = true ↔ String_as_OT.lt a b.
Proof. rewrite <- String_as_OT.cmp_lt. unfold string_ltb, String_as_OT.cmp. by destruct (String.compare a b). Qed.
Lemma string_ltb_irrefl a : string_ltb a a = false.
Proof. destruct (string_ltb a a) eqn:E; [|done]. apply string_ltb_lt, String_as_OT.lt_not_eq in E. by destruct E. Qed.
Lemma string_ltb_trans a b c : string_ltb a b = true → string_ltb b c = true → string_ltb a c = true.
Proof. rewrite !string_ltb_lt. apply String_as_OT.lt_trans. Qed.
Lemma string_ltb_total a b : string_ltb a b = false → string_ltb b a = false → a = b.
Proof.
  unfold string_ltb. pose proof (String_as_OT.cmp_antisym a b) as H. unfold String_as_OT.cmp in H.
  destruct (String.compare a b) eqn:E; [|done|].
  - intros _ _. by apply String_as_OT.cmp_eq.
  - by destruct (String.compare b a).
Qed.
Lemma string_leb_total a b : string_leb a b = false → string_leb b a = true.
Proof.
  unfold string_leb. rewrite negb_false_iff, negb_true_iff. intros H. destruct (string_ltb a b) eqn:E; [|done].
  pose proof (string_ltb_trans _ _ _ H E) as H'. by rewrite string_ltb_irrefl in H'.
Qed.
Lemma string_leb_trans a b c : string_leb a b = true → string_leb b c = true → string_leb a c = true.
Proof.
  unfold string_leb. rewrite !negb_true_iff. intros H1 H2. destruct (string_ltb c a) eqn:E; [|done].
  destruct (string_ltb a b) eqn:E'; [by rewrite (string_ltb_trans c a b E E') in H2|].
  rewrite (string_ltb_total a b E' H1) in E. congruence.
Qed.

Definition slt (a b : string) : Prop := string_ltb a b = true.
Lemma slt_strict a b : string_leb a b = true → a ≠ b → slt a b.
Proof.
  unfold slt, string_leb. rewrite negb_true_iff. intros H Hne. destruct (string_ltb a b) eqn:E; [done|].
  by destruct Hne; apply string_ltb_total.
Qed.
#[export] Instance slt_transitive : Transitive slt.
Proof. intros a b c. apply string_ltb_trans. Qed.
Lemma slt_empty a : a ≠ EmptyString → slt EmptyString a.
Proof. by destruct a. Qed.

Lemma sorted_strict (l : list string) :
  StronglySorted (fun a b => string_leb a b = true) l → NoDup l → StronglySorted slt l.
Proof.
  induction 1 as [|a l _ IH Ha]; intros Hnd; [constructor|]. apply NoDup_cons in Hnd as [Hnin Hnd].
  constructor; [by apply IH|]. rewrite Forall_forall in *. intros b Hb. apply slt_strict; [by apply Ha|].
  by intros ->.
Qed.
Lemma sorted_take n (l : list string) : StronglySorted slt l → StronglySorted slt (take n l).
Proof.
  intros H. revert n. induction H as [|a l _ IH Ha]; intros [|n]; cbn; try constructor; [apply IH|by apply Forall_take].
Qed.
