(* ===== verification/GoTime.v ===== *)
(** Go's [time] package, as far as dates need it: the proleptic Gregorian
    calendar, instants, time zones, [time.Date], [Time.AddDate] and
    [time.ParseInLocation] for the layouts of the program.

    An instant is the number of nanoseconds since 0001-01-01T00:00:00Z, Go's
    zero [Time].  A [Location] is the lookup function of the zone database: the
    offset in force at a Unix second and the bounds of its validity. *)
From stdpp Require Import base list strings.
From Stdlib Require Import ZArith Lia Ascii.
From S2P Require Import Prelude GoStrings GoErrors.
Local Open Scope Z_scope.

(** ** Calendar *)

Definition is_leap (y : Z) : bool :=
  (y mod 4 =? 0) && (negb (y mod 100 =? 0) || (y mod 400 =? 0)).
Definition leap_day (y : Z) : Z := if is_leap y then 1 else 0.

(** Days before month [m] (1..13) in a year with [l] leap days *)
Definition days_before_month (l m : Z) : Z :=
  match m with
  | 1 => 0 | 2 => 31 | 3 => 59 + l | 4 => 90 + l | 5 => 120 + l | 6 => 151 + l
  | 7 => 181 + l | 8 => 212 + l | 9 => 243 + l | 10 => 273 + l | 11 => 304 + l
  | 12 => 334 + l | _ => 365 + l
  end.
Definition days_in_month (y m : Z) : Z :=
  days_before_month (leap_day y) (m + 1) - days_before_month (leap_day y) m.

(** Days from 0001-01-01 to January 1 of year [y] *)
Definition days_before_year (y : Z) : Z :=
  365 * (y - 1) + (y - 1) / 4 - (y - 1) / 100 + (y - 1) / 400.

(** Days from 0001-01-01 to a date whose month and day may overflow, the way
    [time.Date] normalises them *)
Definition days_of_civil (y m d : Z) : Z :=
  let y' := y + (m - 1) / 12 in
  let m' := (m - 1) mod 12 + 1 in
  days_before_year y' + days_before_month (leap_day y') m' + (d - 1).

(** The year and day of year of a day number: 400-, 100-, 4- and 1-year cycles *)
Definition year_of_days (n : Z) : Z * Z :=
  let n400 := n / 146097 in let r := n - 146097 * n400 in
  let q100 := r / 36524 in let n100 := q100 - q100 / 4 in let r := r - 36524 * n100 in
  let n4 := r / 1461 in let r := r - 1461 * n4 in
  let q1 := r / 365 in let n1 := q1 - q1 / 4 in let r := r - 365 * n1 in
  (400 * n400 + 100 * n100 + 4 * n4 + n1 + 1, r).

Fixpoint month_search (l yday : Z) (m : Z) (fuel : nat) : Z :=
  match fuel with
  | O => m
  | S fuel' => if yday <? days_before_month l (m + 1) then m
               else month_search l yday (m + 1) fuel'
  end.

Definition civil_of_days (n : Z) : Z * Z * Z :=
  let '(y, yday) := year_of_days n in
  let m := month_search (leap_day y) yday 1 11 in
  (y, m, yday - days_before_month (leap_day y) m + 1).

Definition valid_civil (y m d : Z) : Prop :=
  1 ≤ m ≤ 12 ∧ 1 ≤ d ≤ days_in_month y m.

(** ** Instants and zones *)

Abbreviation time := Z (only parsing).
Abbreviation duration := Z (only parsing).

Definition Second : Z := 1000000000.
Definition Minute : Z := 60 * Second.
(** Seconds from 0001-01-01 to the Unix epoch *)
Definition unix_epoch : Z := 62135596800.

Record zone := { zone_offset : Z; zone_start : Z; zone_end : Z }.
Record Location := { zone_lookup : Z → zone }.

Definition fixed_zone (offset : Z) : Location :=
  {| zone_lookup := fun _ => {| zone_offset := offset; zone_start := min_int64; zone_end := max_int64 |} |}.
Definition UTC : Location := fixed_zone 0.

(** Seconds since 0001-01-01 on the clocks of the location *)
Definition local_seconds (t : time) (loc : Location) : Z :=
  let sec := t / Second in
  sec + zone_offset (zone_lookup loc (sec - unix_epoch)).
Definition time_civil (t : time) (loc : Location) : Z * Z * Z :=
  civil_of_days (local_seconds t loc / 86400).
Definition time_clock (t : time) (loc : Location) : Z := local_seconds t loc mod 86400.

(** [time.Date]: the offset is looked up at the wall-clock second taken as UTC,
    and once more if that falls outside the zone found. *)
Definition time_date (y m d clock : Z) (loc : Location) : time :=
  let unix := days_of_civil y m d * 86400 + clock - unix_epoch in
  let z := zone_lookup loc unix in
  let offset :=
    if zone_offset z =? 0 then 0 else
    let utc := unix - zone_offset z in
    if (utc <? zone_start z) || (zone_end z <=? utc)
    then zone_offset (zone_lookup loc utc) else zone_offset z in
  (unix - offset + unix_epoch) * Second.

(** [t.AddDate(0, 0, days)] *)
Definition add_days (t : time) (days : Z) (loc : Location) : time :=
  let '(y, m, d) := time_civil t loc in
  time_date y m (d + days) (time_clock t loc) loc.

(** ** Parsing: [time.ParseInLocation] for the date layouts of the program.
    A layout is a list of elements; [None] is any parse error. *)
Inductive layout_item := LYear | LMonth | LDay | LChar (c : ascii).

(** "2006-01-02", "20060102", "02/01/2006" *)
Definition layout_iso : list layout_item :=
  [LYear; LChar "-"; LMonth; LChar "-"; LDay].
Definition layout_compact : list layout_item := [LYear; LMonth; LDay].
Definition layout_slash : list layout_item :=
  [LDay; LChar "/"; LMonth; LChar "/"; LYear].

Definition take_digits (n : nat) (l : list ascii) : option (Z * list ascii) :=
  let p := take n l in
  if bool_decide (length p = n) && forallb is_digit p
  then Some (digits_value p, drop n l) else None.

Fixpoint parse_layout (layout : list layout_item) (l : list ascii) (y m d : Z)
    : option (Z * Z * Z) :=
  match layout with
  | [] => if bool_decide (l = []) then Some (y, m, d) else None
  | LYear :: rest => '(v, l') ← take_digits 4 l; parse_layout rest l' v m d
  | LMonth :: rest =>
      '(v, l') ← take_digits 2 l;
      if (1 <=? v) && (v <=? 12) then parse_layout rest l' y v d else None
  | LDay :: rest => '(v, l') ← take_digits 2 l; parse_layout rest l' y m v
  | LChar c :: rest =>
      match l with
      | a :: l' => if beq a c then parse_layout rest l' y m d else None
      | [] => None
      end
  end.

Definition parse_civil (layout : list layout_item) (raw : string) : option (Z * Z * Z) :=
  '(y, m, d) ← parse_layout layout (bytes raw) 0 1 1;
  if (1 <=? d) && (d <=? days_in_month y m) then Some (y, m, d) else None.

Definition parse_time (layout : list layout_item) (raw : string) (loc : Location)
    : option time :=
  '(y, m, d) ← parse_civil layout raw; Some (time_date y m d 0 loc).

(** [Time.Format] for the same layouts, for years 0..9999 *)
Definition format_item (it : layout_item) (y m d : Z) : list ascii :=
  match it with
  | LYear => pad_left "0" 4 (itoa y)
  | LMonth => pad_left "0" 2 (itoa m)
  | LDay => pad_left "0" 2 (itoa d)
  | LChar c => [c]
  end.
Definition format_civil (layout : list layout_item) (y m d : Z) : list ascii :=
  List.concat ((fun it => format_item it y m d) <$> layout).
Definition format_time (layout : list layout_item) (t : time) (loc : Location) : string :=
  let '(y, m, d) := time_civil t loc in of_bytes (format_civil layout y m d).

(** ** Facts on the calendar *)

Lemma leap_day_range y : 0 ≤ leap_day y ≤ 1.
Proof. unfold leap_day. destruct (is_leap y); lia. Qed.

Lemma is_leap_cases y :
  (is_leap y = true ∧ y mod 4 = 0 ∧ (y mod 100 ≠ 0 ∨ y mod 400 = 0)) ∨
  (is_leap y = false ∧ (y mod 4 ≠ 0 ∨ (y mod 100 = 0 ∧ y mod 400 ≠ 0))).
Proof.
  unfold is_leap.
  destruct (Z.eqb_spec (y mod 4) 0), (Z.eqb_spec (y mod 100) 0), (Z.eqb_spec (y mod 400) 0);
    simpl; lia.
Qed.

Lemma days_before_year_succ y :
  days_before_year (y + 1) = days_before_year y + 365 + leap_day y.
Proof.
  unfold days_before_year, leap_day.
  destruct (is_leap_cases y) as [(-> & H)|(-> & H)]; dlia.
Qed.

Lemma days_before_year_le y y' : y ≤ y' → days_before_year y ≤ days_before_year y'.
Proof.
  intros H. replace y' with (y + Z.of_nat (Z.to_nat (y' - y))) by lia.
  induction (Z.to_nat (y' - y)) as [|k IH]; [rewrite Z.add_0_r; lia|].
  rewrite Nat2Z.inj_succ, <- Z.add_1_r, Z.add_assoc, days_before_year_succ.
  pose proof (leap_day_range (y + Z.of_nat k)). lia.
Qed.

Lemma year_of_days_spec n y yd :
  year_of_days n = (y, yd) →
  n = days_before_year y + yd ∧ 0 ≤ yd < 365 + leap_day y.
Proof.
  unfold year_of_days. intros H.
  set (a := n / 146097) in *. set (r0 := n - 146097 * a) in *.
  assert (0 ≤ r0 < 146097) as Hr0 by (subst r0 a; dlia).
  set (b := r0 / 36524 - r0 / 36524 / 4) in *. set (r1 := r0 - 36524 * b) in *.
  assert (0 ≤ b ≤ 3 ∧ 0 ≤ r1 ∧ (r1 < 36524 ∨ b = 3 ∧ r1 < 36525)) as (Hb & Hr1 & Hr1')
    by (subst r1 b; clearbody r0; dlia).
  set (c := r1 / 1461) in *. set (r2 := r1 - 1461 * c) in *.
  assert (0 ≤ c ≤ 24 ∧ 0 ≤ r2 < 1461 ∧ (c = 24 → r2 < 1460 ∨ b = 3)) as (Hc & Hr2 & Hr2')
    by (subst r2 c; clearbody r1 b; dlia).
  set (d := r2 / 365 - r2 / 365 / 4) in *. set (r3 := r2 - 365 * d) in *.
  assert (0 ≤ d ≤ 3 ∧ 0 ≤ r3 ∧ (r3 < 365 ∨ d = 3 ∧ r3 < 366 ∧ r2 = 1460)) as (Hd & Hr3 & Hr3')
    by (subst r3 d; clearbody r2; dlia).
  assert (n = 146097 * a + 36524 * b + 1461 * c + 365 * d + r3) as Hn
    by (subst r3 r2 r1 r0; lia).
  clearbody r3 d r2 c r1 b r0 a.
  injection H as <- <-. unfold days_before_year.
  replace (400 * a + 100 * b + 4 * c + d + 1 - 1) with (400 * a + 100 * b + 4 * c + d) by lia.
  replace ((400 * a + 100 * b + 4 * c + d) / 4) with (100 * a + 25 * b + c) by dlia.
  replace ((400 * a + 100 * b + 4 * c + d) / 100) with (4 * a + b) by dlia.
  replace ((400 * a + 100 * b + 4 * c + d) / 400) with a by dlia.
  split; [lia|]. split; [lia|].
  destruct Hr3' as [?|(-> & ? & ?)]; [pose proof (leap_day_range (400 * a + 100 * b + 4 * c + d + 1)); lia|].
  unfold leap_day.
  destruct (is_leap_cases (400 * a + 100 * b + 4 * c + 3 + 1)) as [(-> & _)|(-> & Hl)]; [lia|].
  dlia.
Qed.

Lemma days_before_month_bound l m :
  0 ≤ l ≤ 1 → 1 ≤ m ≤ 12 →
  0 ≤ days_before_month l m < days_before_month l (m + 1) ∧ days_before_month l (m + 1) ≤ 365 + l.
Proof.
  intros Hl Hm.
  assert (m = 1 ∨ m = 2 ∨ m = 3 ∨ m = 4 ∨ m = 5 ∨ m = 6 ∨ m = 7 ∨ m = 8 ∨ m = 9 ∨
          m = 10 ∨ m = 11 ∨ m = 12) as Hc by lia.
  repeat destruct Hc as [->|Hc]; try subst m; simpl; lia.
Qed.

Lemma month_search_spec l yday m fuel :
  0 ≤ l ≤ 1 → 1 ≤ m → m + Z.of_nat fuel = 12 →
  days_before_month l m ≤ yday < 365 + l →
  let r := month_search l yday m fuel in
  m ≤ r ≤ 12 ∧ days_before_month l r ≤ yday < days_before_month l (r + 1).
Proof.
  intros Hl. revert m. induction fuel as [|fuel IH]; intros m Hm Hf Hy; cbn [month_search].
  - assert (m = 12) as -> by lia. cbv zeta. simpl in *. lia.
  - destruct (yday <? days_before_month l (m + 1)) eqn:E; to_prop.
    + cbv zeta. lia.
    + destruct (IH (m + 1)) as [? ?]; [lia..|]. cbv zeta. lia.
Qed.

Lemma days_of_civil_valid y m d :
  1 ≤ m ≤ 12 →
  days_of_civil y m d = days_before_year y + days_before_month (leap_day y) m + (d - 1).
Proof.
  intros Hm. unfold days_of_civil.
  replace ((m - 1) / 12) with 0 by dlia. replace ((m - 1) mod 12 + 1) with m by dlia.
  by rewrite Z.add_0_r.
Qed.

(** The two conversions are inverse, so day numbers and valid dates correspond. *)
Lemma civil_of_days_spec n y m d :
  civil_of_days n = (y, m, d) → valid_civil y m d ∧ days_of_civil y m d = n.
Proof.
  unfold civil_of_days. destruct (year_of_days n) as [y0 yd] eqn:E.
  apply year_of_days_spec in E as [Hn Hyd].
  pose proof (leap_day_range y0) as Hl.
  destruct (month_search_spec (leap_day y0) yd 1 11 Hl) as [Hm Hd]; [done|done|exact Hyd|].
  revert Hm Hd. generalize (month_search (leap_day y0) yd 1 11) as m0. intros m0 Hm Hd [= <- <- <-].
  unfold valid_civil, days_in_month. rewrite days_of_civil_valid by lia. lia.
Qed.

Lemma valid_civil_bound y m d :
  valid_civil y m d →
  days_before_year y ≤ days_of_civil y m d < days_before_year (y + 1).
Proof.
  intros [Hm Hd]. rewrite days_of_civil_valid, days_before_year_succ by done.
  pose proof (days_before_month_bound (leap_day y) m (leap_day_range y) Hm).
  unfold days_in_month in Hd. lia.
Qed.

(** Day numbers order valid dates lexicographically. *)
Definition civil_key (y m d : Z) : Z := y * 10000 + m * 100 + d.

Lemma valid_day_31 y m d : valid_civil y m d → 1 ≤ d ≤ 31.
Proof.
  intros [Hm Hd]. unfold days_in_month in Hd. pose proof (leap_day_range y).
  assert (m = 1 ∨ m = 2 ∨ m = 3 ∨ m = 4 ∨ m = 5 ∨ m = 6 ∨ m = 7 ∨ m = 8 ∨ m = 9 ∨
          m = 10 ∨ m = 11 ∨ m = 12) as Hc by lia.
  repeat destruct Hc as [->|Hc]; try subst m; simpl in Hd; lia.
Qed.

Lemma days_before_month_le l m m' :
  0 ≤ l ≤ 1 → 1 ≤ m → m ≤ m' → m' ≤ 13 → days_before_month l m ≤ days_before_month l m'.
Proof.
  intros Hl H1 H2 H3. replace m' with (m + Z.of_nat (Z.to_nat (m' - m))) in * by lia.
  induction (Z.to_nat (m' - m)) as [|k IH]; [rewrite Z.add_0_r; lia|].
  rewrite Nat2Z.inj_succ, <- Z.add_1_r, Z.add_assoc in *.
  pose proof (days_before_month_bound l (m + Z.of_nat k) Hl ltac:(lia)). lia.
Qed.

Lemma civil_lt_iff y m d y' m' d' :
  valid_civil y m d → valid_civil y' m' d' →
  days_of_civil y m d < days_of_civil y' m' d' ↔ civil_key y m d < civil_key y' m' d'.
Proof.
  assert (∀ y m d y' m' d', valid_civil y m d → valid_civil y' m' d' →
    civil_key y m d < civil_key y' m' d' → days_of_civil y m d < days_of_civil y' m' d') as Hlt.
  { clear. intros y m d y' m' d' H H' Hk.
    pose proof (valid_day_31 _ _ _ H). pose proof (valid_day_31 _ _ _ H').
    pose proof (proj1 H). pose proof (proj1 H'). unfold civil_key in Hk.
    destruct (decide (y < y')) as [Hy|Hy].
    { pose proof (valid_civil_bound _ _ _ H). pose proof (valid_civil_bound _ _ _ H').
      pose proof (days_before_year_le (y + 1) y' ltac:(lia)). lia. }
    assert (y' = y) as -> by lia. rewrite !days_of_civil_valid by done.
    destruct (decide (m < m')) as [Hm|Hm]; [|assert (m' = m) as -> by lia; lia].
    pose proof (days_before_month_le (leap_day y) (m + 1) m' (leap_day_range y)).
    destruct H as [_ H]. unfold days_in_month in H. lia. }
  intros H H'. split; [|by apply Hlt]. intros Hd.
  destruct (Z.lt_trichotomy (civil_key y m d) (civil_key y' m' d')) as [?|[Heq|Hgt]]; [done| |].
  - pose proof (valid_day_31 _ _ _ H). pose proof (valid_day_31 _ _ _ H').
    pose proof (proj1 H). pose proof (proj1 H'). unfold civil_key in Heq.
    assert (y' = y) as -> by lia. assert (m' = m) as -> by lia. assert (d' = d) as -> by lia. lia.
  - apply Hlt in Hgt; [lia|done..].
Qed.

Lemma civil_key_inj y m d y' m' d' :
  valid_civil y m d → valid_civil y' m' d' → civil_key y m d = civil_key y' m' d' →
  (y, m, d) = (y', m', d').
Proof.
  intros H H' Hk. pose proof (valid_day_31 _ _ _ H). pose proof (valid_day_31 _ _ _ H').
  pose proof (proj1 H). pose proof (proj1 H'). unfold civil_key in Hk.
  assert (y' = y) as -> by lia. assert (m' = m) as -> by lia. by assert (d' = d) as -> by lia.
Qed.

Lemma civil_days_inverse y m d :
  valid_civil y m d → civil_of_days (days_of_civil y m d) = (y, m, d).
Proof.
  intros H. destruct (civil_of_days (days_of_civil y m d)) as [[y' m'] d'] eqn:E.
  apply civil_of_days_spec in E as [H' E].
  symmetry. apply civil_key_inj; [done..|].
  destruct (Z.lt_trichotomy (civil_key y m d) (civil_key y' m' d')) as [Hk|[?|Hk]]; [|done|];
    apply civil_lt_iff in Hk; (done || lia).
Qed.

(** ** Facts on locations *)

(** Civil midnight exists on every day: [time.Date] at 00:00 is on that day.
    It holds of every zone without a transition at midnight. *)
Definition midnights (loc : Location) : Prop :=
  ∀ y m d, 1 ≤ m ≤ 12 →
    time_civil (time_date y m d 0 loc) loc = civil_of_days (days_of_civil y m d) ∧
    time_clock (time_date y m d 0 loc) loc = 0.

Lemma fixed_zone_midnights off : midnights (fixed_zone off).
Proof.
  intros y m d _.
  assert (local_seconds (time_date y m d 0 (fixed_zone off)) (fixed_zone off) =
          days_of_civil y m d * 86400) as Hs.
  { unfold local_seconds, time_date, fixed_zone; simpl.
    rewrite Z.div_mul by done.
    destruct (off =? 0) eqn:E; to_prop; [lia|].
    destruct (_ || _); lia. }
  unfold time_civil, time_clock. rewrite Hs, Z.div_mul, Z.mod_mul by done. done.
Qed.

Lemma UTC_midnights : midnights UTC.
Proof. apply fixed_zone_midnights. Qed.
#[export] Hint Resolve fixed_zone_midnights UTC_midnights : thor.
