(* ===== verification/GoCSV.v ===== *)
(** Go's [encoding/csv] reader with [FieldsPerRecord = -1], with the default
    strict quoting ([read_fields], [csv_records]) and with [LazyQuotes] and
    [TrimLeadingSpace] ([lazy_fields], [lazy_records]): the records of a text,
    read on demand.

    The reader works line by line; on the text with "\r\n" turned into "\n" (and
    a carriage return at the very end dropped, as the reader does) that is a scan
    of the characters, which a quoted field may take across line ends. *)
From stdpp Require Import base list strings.
From Stdlib Require Import ZArith Lia Ascii.
From S2P Require Import Prelude GoStrings GoErrors.
Local Open Scope Z_scope.

Definition newline : ascii := chr 10.
Definition carriage_return : ascii := chr 13.
Definition double_quote : ascii := chr 34.

Fixpoint normalize_newlines (l : list ascii) : list ascii :=
  match l with
  | [] => []
  | c :: rest =>
      if beq c carriage_return
      then match rest with
           | [] => []
           | d :: _ => if beq d newline then normalize_newlines rest else c :: normalize_newlines rest
           end
      else c :: normalize_newlines rest
  end.

Inductive field_mode := AtStart | Unquoted | Quoted | AfterQuote.

(** One record: the fields read so far and the field in progress, both reversed *)
Fixpoint read_fields (comma : ascii) (mode : field_mode) (field : list ascii) (fields : list (list ascii))
    (l : list ascii) : res (list (list ascii) * list ascii) :=
  let finish := rev field :: fields in
  match l with
  | [] =>
      match mode with
      | Quoted => Fail (Msg "extraneous or missing quote in quoted-field")
      | _ => Ok (rev finish, [])
      end
  | c :: rest =>
      match mode with
      | Quoted =>
          if beq c double_quote then read_fields comma AfterQuote field fields rest
          else read_fields comma Quoted (c :: field) fields rest
      | AfterQuote =>
          if beq c double_quote then read_fields comma Quoted (c :: field) fields rest else
          if beq c comma then read_fields comma AtStart [] finish rest else
          if beq c newline then Ok (rev finish, rest) else
          Fail (Msg "extraneous or missing quote in quoted-field")
      | AtStart | Unquoted =>
          if beq c double_quote
          then match mode with
               | AtStart => read_fields comma Quoted [] fields rest
               | _ => Fail (Msg "bare quote in non-quoted-field")
               end else
          if beq c comma then read_fields comma AtStart [] finish rest else
          if beq c newline then Ok (rev finish, rest) else
          read_fields comma Unquoted (c :: field) fields rest
      end
  end.

(** [Read]: [None] at the end of the file *)
Fixpoint skip_empty_lines (l : list ascii) : list ascii :=
  match l with
  | c :: rest => if beq c newline then skip_empty_lines rest else l
  | [] => []
  end.
Definition read_record (comma : ascii) (l : list ascii) : option (res (list string * list ascii)) :=
  match skip_empty_lines l with
  | [] => None
  | l =>
      Some (match read_fields comma AtStart [] [] l with
            | Fail e => Fail e
            | Ok (fields, rest) => Ok (of_bytes <$> fields, rest)
            end)
  end.

(** All records up to the end of the file or the first malformed one *)
Fixpoint read_all (fuel : nat) (comma : ascii) (l : list ascii) : list (res (list string)) :=
  match fuel with
  | O => []
  | S fuel' =>
      match read_record comma l with
      | None => []
      | Some (Fail e) => [Fail e]
      | Some (Ok (record, rest)) => Ok record :: read_all fuel' comma rest
      end
  end.
Definition csv_records (comma : ascii) (body : list ascii) : list (res (list string)) :=
  let l := normalize_newlines body in read_all (S (length l)) comma l.

(** ** Fuel: every record consumes text *)

Lemma read_fields_shorter comma mode field fields l r rest :
  read_fields comma mode field fields l = Ok (r, rest) → (length rest ≤ length l)%nat ∧ (l ≠ [] → (length rest < length l)%nat).
Proof.
  revert mode field fields. induction l as [|c l IH]; intros mode field fields; simpl.
  { destruct mode; intros [= <- <-]; split; simpl; (lia || done). }
  intros H.
  assert (∀ mode field fields, read_fields comma mode field fields l = Ok (r, rest) → (length rest < S (length l))%nat) as Hgo.
  { intros m f fs Hm. destruct (IH m f fs Hm). lia. }
  assert (length rest < S (length l))%nat; [|lia].
  destruct mode; repeat match type of H with context [if ?b then _ else _] => destruct b end;
    try discriminate H; try (injection H as <- <-; lia); by eapply Hgo.
Qed.

Lemma skip_empty_lines_shorter l : (length (skip_empty_lines l) ≤ length l)%nat.
Proof. induction l as [|c l IH]; simpl; [lia|]. destruct (beq c newline); simpl; lia. Qed.

Lemma read_record_shorter comma l r rest :
  read_record comma l = Some (Ok (r, rest)) → (length rest < length l)%nat.
Proof.
  unfold read_record. pose proof (skip_empty_lines_shorter l) as Hs.
  destruct (skip_empty_lines l) as [|c l'] eqn:E; [done|]. intros H. apply (inj Some) in H.
  destruct (read_fields comma AtStart [] [] (c :: l')) as [[fields rest']|] eqn:Hf; [|done]. injection H as <- <-. rename Hf into H.
  apply read_fields_shorter in H as [_ H]. specialize (H ltac:(done)). lia.
Qed.

(** More fuel than text changes nothing: the records are all there. *)
Lemma read_all_fuel comma fuel fuel' l :
  (length l < fuel)%nat → (length l < fuel')%nat → read_all fuel comma l = read_all fuel' comma l.
Proof.
  revert fuel' l. induction fuel as [|fuel IH]; intros [|fuel'] l H H'; [lia..|]. simpl.
  destruct (read_record comma l) as [[[r rest]|e]|] eqn:E; [|done..].
  apply read_record_shorter in E. f_equal. apply IH; lia.
Qed.

(** ** [LazyQuotes] with [TrimLeadingSpace]: every text has records *)

(** A quote that nothing closes is part of its field, and a field starts after the
    white space in front of it. *)
Fixpoint lazy_fields (comma : ascii) (mode : field_mode) (field : list ascii) (fields : list (list ascii))
    (l : list ascii) : list (list ascii) * list ascii :=
  let finish := rev field :: fields in
  match l with
  | [] => (rev finish, [])
  | c :: l1 =>
      match mode with
      | Quoted =>
          if beq c double_quote then lazy_fields comma AfterQuote field fields l1
          else lazy_fields comma Quoted (c :: field) fields l1
      | AfterQuote =>
          if beq c double_quote then lazy_fields comma Quoted (c :: field) fields l1 else
          if beq c comma then lazy_fields comma AtStart [] finish l1 else
          if beq c newline then (rev finish, l1) else
          lazy_fields comma Quoted (c :: double_quote :: field) fields l1
      | Unquoted =>
          if beq c comma then lazy_fields comma AtStart [] finish l1 else
          if beq c newline then (rev finish, l1) else
          lazy_fields comma Unquoted (c :: field) fields l1
      | AtStart =>
          if beq c newline then (rev finish, l1) else
          if space1 c then lazy_fields comma AtStart field fields l1 else
          if beq c double_quote then lazy_fields comma Quoted field fields l1 else
          if beq c comma then lazy_fields comma AtStart [] finish l1 else
          let plain := lazy_fields comma Unquoted (c :: field) fields l1 in
          match l1 with
          | b :: l2 =>
              if space2 c b then lazy_fields comma AtStart field fields l2 else
              match l2 with
              | a :: l3 => if space3 c b a then lazy_fields comma AtStart field fields l3 else plain
              | [] => plain
              end
          | [] => plain
          end
      end
  end.
Definition lazy_record (comma : ascii) (l : list ascii) : option (list string * list ascii) :=
  match skip_empty_lines l with
  | [] => None
  | l => let '(fields, rest) := lazy_fields comma AtStart [] [] l in Some (of_bytes <$> fields, rest)
  end.
Fixpoint lazy_all (fuel : nat) (comma : ascii) (l : list ascii) : list (list string) :=
  match fuel with
  | O => []
  | S fuel' =>
      match lazy_record comma l with
      | None => []
      | Some (record, rest) => record :: lazy_all fuel' comma rest
      end
  end.
Definition lazy_records (comma : ascii) (body : list ascii) : list (list string) :=
  let l := normalize_newlines body in lazy_all (S (length l)) comma l.

Lemma lazy_fields_shorter comma mode field fields l r rest :
  lazy_fields comma mode field fields l = (r, rest) → (length rest ≤ length l)%nat ∧ (l ≠ [] → (length rest < length l)%nat).
Proof.
  assert (∀ n l mode field fields, (length l ≤ n)%nat → lazy_fields comma mode field fields l = (r, rest) →
    (length rest ≤ length l)%nat ∧ (l ≠ [] → (length rest < length l)%nat)) as Hgo; [|by apply (Hgo (length l))].
  clear. induction n as [|n IH]; intros [|c l] mode field fields Hn; simpl in Hn |- *; try lia; try (by intros [= <- <-]).
  intros H. assert (length rest < S (length l))%nat; [|lia].
  assert (∀ l' mode field fields, (length l' ≤ length l)%nat → lazy_fields comma mode field fields l' = (r, rest) → (length rest < S (length l))%nat) as Hstep.
  { intros l' m f fs Hl Hr. destruct (IH l' m f fs ltac:(lia) Hr). lia. }
  destruct mode;
    repeat match type of H with
           | context [if ?b then _ else _] => destruct b
           | context [match ?x with [] => _ | _ => _ end] => destruct x
           end;
    try (injection H as <- <-; simpl in *; lia);
    (eapply Hstep; [|exact H]); simpl; lia.
Qed.
Lemma lazy_record_shorter comma l r rest :
  lazy_record comma l = Some (r, rest) → (length rest < length l)%nat.
Proof.
  unfold lazy_record. pose proof (skip_empty_lines_shorter l) as Hs.
  destruct (skip_empty_lines l) as [|c l'] eqn:E; [done|]. destruct (lazy_fields comma AtStart [] [] (c :: l')) as [fields rest'] eqn:Hf.
  intros [= <- <-]. apply lazy_fields_shorter in Hf as [_ Hf]. specialize (Hf ltac:(done)). lia.
Qed.
Lemma lazy_all_fuel comma fuel fuel' l :
  (length l < fuel)%nat → (length l < fuel')%nat → lazy_all fuel comma l = lazy_all fuel' comma l.
Proof.
  revert fuel' l. induction fuel as [|fuel IH]; intros [|fuel'] l H H'; [lia..|]. simpl.
  destruct (lazy_record comma l) as [[r rest]|] eqn:E; [|done].
  apply lazy_record_shorter in E. f_equal. apply IH; lia.
Qed.
