(* ===== verification/GoEncoding.v ===== *)
(** Go's [crypto/sha256] and [encoding/base64] as the session tokens use them.

    A byte is an [ascii]; a 32-bit word is a [Z] in [0, 2^32) with its
    wrap-around written out.  The round constants of SHA-256 are computed from
    their definition, the fractional parts of roots of the first primes. *)
From stdpp Require Import base list strings.
From Stdlib Require Import ZArith Lia Ascii.
From S2P Require Import Prelude GoStrings.
Local Open Scope Z_scope.

(** ** SHA-256 *)

Definition w32 (x : Z) : Z := Z.land x (Z.ones 32).
Definition rotr (n x : Z) : Z := Z.lor (Z.shiftr x n) (w32 (Z.shiftl x (32 - n))).

Definition prime (n : Z) : bool :=
  forallb (fun d => negb (n mod d =? 0)) (seqZ 2 (Z.sqrt n - 1)).
Definition first_primes (n : nat) : list Z := take n (List.filter prime (seqZ 2 400)).
(** The integer cube root, bit by bit from [2^(bits-1)] *)
Fixpoint cbrt_from (bits : nat) (n acc : Z) : Z :=
  match bits with
  | O => acc
  | S b => let c := acc + 2 ^ Z.of_nat b in cbrt_from b n (if c ^ 3 <=? n then c else acc)
  end.
Definition round_constants : list Z :=
  Eval vm_compute in (fun p => w32 (cbrt_from 40 (p * 2 ^ 96) 0)) <$> first_primes 64.
Definition initial_words : list Z :=
  Eval vm_compute in (fun p => w32 (Z.sqrt (p * 2 ^ 64))) <$> first_primes 8.

Record sha_state := { ha : Z; hb : Z; hc : Z; hd : Z; he : Z; hf : Z; hg : Z; hh : Z }.

Definition sha_round (s : sha_state) (kw : Z * Z) : sha_state :=
  let s1 := Z.lxor (Z.lxor (rotr 6 (he s)) (rotr 11 (he s))) (rotr 25 (he s)) in
  let ch := Z.lxor (Z.land (he s) (hf s)) (Z.land (Z.lxor (he s) (Z.ones 32)) (hg s)) in
  let t1 := w32 (hh s + s1 + ch + fst kw + snd kw) in
  let s0 := Z.lxor (Z.lxor (rotr 2 (ha s)) (rotr 13 (ha s))) (rotr 22 (ha s)) in
  let maj := Z.lxor (Z.lxor (Z.land (ha s) (hb s)) (Z.land (ha s) (hc s))) (Z.land (hb s) (hc s)) in
  {| ha := w32 (t1 + s0 + maj); hb := ha s; hc := hb s; hd := hc s;
     he := w32 (hd s + t1); hf := he s; hg := hf s; hh := hg s |}.

(** The message schedule; [window] holds the last sixteen words, the oldest first. *)
Fixpoint schedule_words (n : nat) (window : list Z) : list Z :=
  match n with
  | O => []
  | S n' =>
      let w := fun i => nth i window 0 in
      let s0 := Z.lxor (Z.lxor (rotr 7 (w 1%nat)) (rotr 18 (w 1%nat))) (Z.shiftr (w 1%nat) 3) in
      let s1 := Z.lxor (Z.lxor (rotr 17 (w 14%nat)) (rotr 19 (w 14%nat))) (Z.shiftr (w 14%nat) 10) in
      let next := w32 (w 0%nat + s0 + w 9%nat + s1) in
      next :: schedule_words n' (tl window ++ [next])
  end.

Definition sha_block (s : sha_state) (block : list Z) : sha_state :=
  let r := fold_left sha_round (combine round_constants (block ++ schedule_words 48 block)) s in
  {| ha := w32 (ha s + ha r); hb := w32 (hb s + hb r); hc := w32 (hc s + hc r); hd := w32 (hd s + hd r);
     he := w32 (he s + he r); hf := w32 (hf s + hf r); hg := w32 (hg s + hg r); hh := w32 (hh s + hh r) |}.

Fixpoint be_words (l : list ascii) : list Z :=
  match l with
  | a :: b :: c :: d :: rest =>
      (code a * 2 ^ 24 + code b * 2 ^ 16 + code c * 2 ^ 8 + code d) :: be_words rest
  | _ => []
  end.
Definition be_bytes (w : Z) : list ascii :=
  [chr (Z.shiftr w 24 mod 256); chr (Z.shiftr w 16 mod 256); chr (Z.shiftr w 8 mod 256); chr (w mod 256)].

Definition sha_pad (l : list ascii) : list ascii :=
  let n := Z.of_nat (length l) in
  l ++ chr 128 :: replicate (Z.to_nat ((55 - n) mod 64)) (chr 0)
    ++ be_bytes (Z.shiftr (8 * n) 32) ++ be_bytes (w32 (8 * n)).

Fixpoint sha_blocks (fuel : nat) (s : sha_state) (words : list Z) : sha_state :=
  match fuel, words with
  | S fuel', _ :: _ => sha_blocks fuel' (sha_block s (take 16 words)) (drop 16 words)
  | _, _ => s
  end.

Definition initial_state : sha_state :=
  match initial_words with
  | [a; b; c; d; e; f; g; h] => {| ha := a; hb := b; hc := c; hd := d; he := e; hf := f; hg := g; hh := h |}
  | _ => {| ha := 0; hb := 0; hc := 0; hd := 0; he := 0; hf := 0; hg := 0; hh := 0 |}
  end.

(** [sha256.Sum256] *)
Definition Sum256 (l : list ascii) : list ascii :=
  let words := be_words (sha_pad l) in
  let s := sha_blocks (length words) initial_state words in
  be_bytes (ha s) ++ be_bytes (hb s) ++ be_bytes (hc s) ++ be_bytes (hd s) ++
  be_bytes (he s) ++ be_bytes (hf s) ++ be_bytes (hg s) ++ be_bytes (hh s).

Lemma length_Sum256 l : length (Sum256 l) = 32%nat.
Proof. done. Qed.

(** The padded message is a whole number of 64-byte blocks. *)
Lemma length_sha_pad l : Z.of_nat (length (sha_pad l)) mod 64 = 0.
Proof.
  unfold sha_pad. rewrite length_app. cbn [length]. rewrite !length_app, length_replicate.
  cbn [be_bytes length]. set (n := Z.of_nat (length l)).
  pose proof (Z.mod_pos_bound (55 - n) 64 eq_refl).
  replace (Z.of_nat _) with (n + 9 + (55 - n) mod 64) by lia. dlia.
Qed.

(** ** Base64 with the URL alphabet and without padding *)

Definition base64_char (v : Z) : ascii :=
  if v <? 26 then chr (65 + v) else if v <? 52 then chr (71 + v)
  else if v <? 62 then chr (v - 4) else if v =? 62 then "-" else "_".
Definition base64_value (c : ascii) : option Z :=
  let z := code c in
  if (65 <=? z) && (z <=? 90) then Some (z - 65)
  else if (97 <=? z) && (z <=? 122) then Some (z - 71)
  else if (48 <=? z) && (z <=? 57) then Some (z + 4)
  else if z =? 45 then Some 62 else if z =? 95 then Some 63 else None.

Fixpoint base64_encode (l : list ascii) : list ascii :=
  match l with
  | [] => []
  | [a] => [base64_char (code a / 4); base64_char (code a mod 4 * 16)]
  | [a; b] => [base64_char (code a / 4); base64_char (code a mod 4 * 16 + code b / 16);
               base64_char (code b mod 16 * 4)]
  | a :: b :: c :: rest =>
      base64_char (code a / 4) :: base64_char (code a mod 4 * 16 + code b / 16)
      :: base64_char (code b mod 16 * 4 + code c / 64) :: base64_char (code c mod 64) :: base64_encode rest
  end.
(** The bytes of a list of six-bit values; a lone value is an error, and spare bits are ignored. *)
Fixpoint base64_bytes (vs : list Z) : option (list ascii) :=
  match vs with
  | [] => Some []
  | [_] => None
  | [a; b] => Some [chr (a * 4 + b / 16)]
  | [a; b; c] => Some [chr (a * 4 + b / 16); chr (b mod 16 * 16 + c / 4)]
  | a :: b :: c :: d :: rest =>
      rest' ← base64_bytes rest;
      Some (chr (a * 4 + b / 16) :: chr (b mod 16 * 16 + c / 4) :: chr (c mod 4 * 64 + d) :: rest')
  end.
Definition newline_byte (c : ascii) : bool := (code c =? 10) || (code c =? 13).
(** [RawURLEncoding.DecodeString]: line ends anywhere are skipped. *)
Definition base64_decode (l : list ascii) : option (list ascii) :=
  vs ← mapM base64_value (List.filter (fun c => negb (newline_byte c)) l);
  base64_bytes vs.
Definition base64_encoded_len (n : Z) : Z := n / 3 * 4 + (n mod 3 * 8 + 5) / 6.

Lemma base64_value_char v : 0 ≤ v < 64 → base64_value (base64_char v) = Some v.
Proof.
  intros H. assert (Hall : forallb (fun v => bool_decide (base64_value (base64_char v) = Some v)) (seqZ 0 64) = true)
    by (vm_compute; reflexivity).
  rewrite forallb_forall in Hall. specialize (Hall v). rewrite bool_decide_eq_true in Hall. apply Hall.
  apply list_elem_of_In, elem_of_seqZ. lia.
Qed.
Lemma base64_char_newline v : 0 ≤ v < 64 → newline_byte (base64_char v) = false.
Proof.
  intros H. assert (Hall : forallb (fun v => negb (newline_byte (base64_char v))) (seqZ 0 64) = true)
    by (vm_compute; reflexivity).
  rewrite forallb_forall in Hall. specialize (Hall v). rewrite negb_true_iff in Hall. apply Hall.
  apply list_elem_of_In, elem_of_seqZ. lia.
Qed.

(** Three bytes at a time *)
Lemma triples_ind {A} (P : list A → Prop) :
  P [] → (∀ a, P [a]) → (∀ a b, P [a; b]) → (∀ a b c l, P l → P (a :: b :: c :: l)) → ∀ l, P l.
Proof.
  intros H0 H1 H2 H3. fix IH 1. intros [|a [|b [|c l]]]; [exact H0|apply H1|apply H2|apply H3, IH].
Qed.

Definition base64_values (l : list ascii) : option (list Z) :=
  mapM base64_value (List.filter (fun c => negb (newline_byte c)) l).
Lemma base64_values_cons v l :
  0 ≤ v < 64 → base64_values (base64_char v :: l) = (fun vs => v :: vs) <$> base64_values l.
Proof.
  intros H. unfold base64_values. cbn [List.filter]. rewrite base64_char_newline by done. cbn [negb mapM].
  rewrite base64_value_char by done. cbn. by destruct (mapM base64_value _).
Qed.

Lemma base64_quantum a b c :
  let v0 := code a / 4 in let v1 := code a mod 4 * 16 + code b / 16 in
  let v2 := code b mod 16 * 4 + code c / 64 in let v3 := code c mod 64 in
  (0 ≤ v0 < 64 ∧ 0 ≤ v1 < 64 ∧ 0 ≤ v2 < 64 ∧ 0 ≤ v3 < 64) ∧
  v0 * 4 + v1 / 16 = code a ∧ v1 mod 16 * 16 + v2 / 4 = code b ∧ v2 mod 4 * 64 + v3 = code c.
Proof.
  pose proof (code_range a). pose proof (code_range b). pose proof (code_range c). intros v0 v1 v2 v3.
  unfold v0, v1, v2, v3. dlia.
Qed.

(** Decoding is the inverse of encoding. *)
Lemma base64_decode_encode l : base64_decode (base64_encode l) = Some l.
Proof.
  change (base64_values (base64_encode l) ≫= base64_bytes = Some l).
  induction l as [|a|a b|a b c l IH] using triples_ind; [done| | |].
  - destruct (base64_quantum a (chr 0) (chr 0)) as ((H0 & H1 & _) & E & _).
    change (code (chr 0)) with 0 in *. rewrite Z.add_0_r in H1, E. cbn [base64_encode].
    rewrite !base64_values_cons by (done || dlia). cbn. by rewrite E, chr_code.
  - destruct (base64_quantum a b (chr 0)) as ((H0 & H1 & H2 & _) & E & E' & _).
    change (code (chr 0)) with 0 in *. rewrite Z.add_0_r in H2, E'. cbn [base64_encode].
    rewrite !base64_values_cons by (done || dlia). cbn. by rewrite E, E', !chr_code.
  - destruct (base64_quantum a b c) as ((H0 & H1 & H2 & H3) & E & E' & E'').
    cbn [base64_encode]. rewrite !base64_values_cons by done.
    destruct (base64_values (base64_encode l)) as [vs|]; [|done]. cbn in IH |- *.
    by rewrite IH, E, E', E'', !chr_code.
Qed.

Lemma length_base64_encode l : Z.of_nat (length (base64_encode l)) = base64_encoded_len (Z.of_nat (length l)).
Proof.
  unfold base64_encoded_len. induction l as [|a|a b|a b c l IH] using triples_ind; [done..|].
  cbn [base64_encode length]. rewrite !Nat2Z.inj_succ, IH.
  dlia.
Qed.
