(* ===== verification/GoFloat.v ===== *)
(** Go's [float64]: [strconv.ParseFloat], the product, the sum, the order, the conversion
    to [int], and the formats "%.2f" and "%v".

    A finite value is a sign, a mantissa below 2^53 and an exponent: its mantissa
    has 53 bits, or the exponent is the least one.  Every operation is the exact
    one followed by rounding to the nearest value, ties to even.  The conversion
    of a value that no [int] holds depends on the machine: it is a parameter. *)
From stdpp Require Import base list strings.
From Stdlib Require Import ZArith Lia Ascii.
From S2P Require Import Prelude GoStrings.
Local Open Scope Z_scope.

Inductive float64 :=
| NaN
| Infinite (negative : bool)
| Finite (negative : bool) (mantissa exponent : Z).
#[export] Instance float64_eq_dec : EqDecision float64.
Proof. solve_decision. Defined.

Definition least_exponent : Z := -1074.
Definition most_exponent : Z := 971.
Definition float_zero : float64 := Finite false 0 least_exponent.

(** ** Rounding *)

(** The integer nearest to n/d *)
Definition round_half_even (n d : Z) : Z :=
  let a := n / d in
  match 2 * (n mod d) ?= d with
  | Lt => a
  | Gt => a + 1
  | Eq => if Z.even a then a else a + 1
  end.
(** n * b^e / d, rounded *)
Definition scaled (b n d e : Z) : Z :=
  if 0 <=? e then round_half_even (n * b ^ e) d else round_half_even n (d * b ^ (- e)).
(** b^k ≤ n/d *)
Definition reaches (b n d k : Z) : bool := if 0 <=? k then d * b ^ k <=? n else d <=? n * b ^ (- k).
(** The k with 2^k ≤ n/d < 2^(k+1) *)
Definition binade (n d : Z) : Z :=
  let k := Z.log2 n - Z.log2 d in if reaches 2 n d k then k else k - 1.
(** n/d, for n ≥ 0 and d > 0 *)
Definition nearest (negative : bool) (n d : Z) : float64 :=
  if n =? 0 then Finite negative 0 least_exponent else
  let e := Z.max (binade n d - 52) least_exponent in
  let m := scaled 2 n d (- e) in
  let '(m, e) := if m =? 2 ^ 53 then (2 ^ 52, e + 1) else (m, e) in
  if most_exponent <? e then Infinite negative else Finite negative m e.
(** n * b^e *)
Definition nearest_power (negative : bool) (n b e : Z) : float64 :=
  if 0 <=? e then nearest negative (n * b ^ e) 1 else nearest negative n (b ^ (- e)).

(** ** [strconv.ParseFloat(s, 64)]: [None] for a malformed text or one out of range *)

Definition is_hex_letter (c : ascii) : bool := (97 <=? code (lower_byte c)) && (code (lower_byte c) <=? 102).
(** The digits of a number: their value and how many follow the point; whether there
    was a digit and an underscore; what comes after *)
Fixpoint read_mantissa (hex sawdot sawdigits underscores : bool) (value scale : Z) (l : list ascii)
    : Z * Z * bool * bool * list ascii :=
  let stop := (value, scale, sawdigits, underscores, l) in
  let base := if hex then 16 else 10 in
  let scale' := if sawdot then scale + 1 else scale in
  match l with
  | [] => stop
  | c :: rest =>
      if beq c "_" then read_mantissa hex sawdot sawdigits true value scale rest else
      if beq c "." then if sawdot then stop else read_mantissa hex true sawdigits underscores value scale rest else
      if is_digit c then read_mantissa hex sawdot true underscores (value * base + digit_value c) scale' rest else
      if hex && is_hex_letter c
      then read_mantissa hex sawdot true underscores (value * base + (code (lower_byte c) - 87)) scale' rest
      else stop
  end.
(** The digits of an exponent, which grows no further once it has five of them *)
Fixpoint read_exponent (e : Z) (underscores : bool) (l : list ascii) : Z * bool * list ascii :=
  match l with
  | c :: rest =>
      if beq c "_" then read_exponent e true rest else
      if is_digit c then read_exponent (if e <? 10000 then e * 10 + digit_value c else e) underscores rest else
      (e, underscores, l)
  | [] => (e, underscores, l)
  end.
Definition exponent_sign (l : list ascii) : Z * list ascii :=
  match l with
  | c :: rest => if beq c "+" then (1, rest) else if beq c "-" then (-1, rest) else (1, l)
  | [] => (1, [])
  end.
(** [None] when the exponent is malformed, or missing from a hexadecimal number *)
Definition optional_exponent (hex : bool) (l : list ascii) : option (Z * bool * list ascii) :=
  match l with
  | c :: rest =>
      if beq (lower_byte c) (if hex then "p" else "e")%char then
        let '(sign, l) := exponent_sign rest in
        match l with
        | d :: _ => if is_digit d then let '(e, us, l) := read_exponent 0 false l in Some (sign * e, us, l) else None
        | [] => None
        end
      else if hex then None else Some (0, false, l)
  | [] => if hex then None else Some (0, false, [])
  end.

(** [underscoreOK]: the last character seen is a digit, an underscore or another one *)
Inductive seen_char := SawDigit | SawUnderscore | SawOther.
Fixpoint underscores_between (hex : bool) (saw : seen_char) (l : list ascii) : bool :=
  match l with
  | [] => match saw with SawUnderscore => false | _ => true end
  | c :: rest =>
      if is_digit c || (hex && is_hex_letter c) then underscores_between hex SawDigit rest else
      if beq c "_" then match saw with SawDigit => underscores_between hex SawUnderscore rest | _ => false end else
      match saw with SawUnderscore => false | _ => underscores_between hex SawOther rest end
  end.
Definition base_prefix (l : list ascii) : bool :=
  match l with
  | z :: c :: _ => beq z "0" && (beq (lower_byte c) "b" || beq (lower_byte c) "o" || beq (lower_byte c) "x")
  | _ => false
  end.
Definition hex_prefix (l : list ascii) : bool :=
  match l with z :: c :: _ => beq z "0" && beq (lower_byte c) "x" | _ => false end.
Definition underscoreOK (l : list ascii) : bool :=
  if base_prefix l then underscores_between (hex_prefix l) SawDigit (drop 2 l) else underscores_between false SawOther l.

Definition float_sign (l : list ascii) : bool * bool * list ascii :=
  match l with
  | c :: rest => if beq c "+" then (true, false, rest) else if beq c "-" then (true, true, rest) else (false, false, l)
  | [] => (false, false, [])
  end.
Definition special_float (signed negative : bool) (l : list ascii) : option float64 :=
  let word := lower_byte <$> l in
  if bool_decide (word = bytes "inf") || bool_decide (word = bytes "infinity") then Some (Infinite negative) else
  if negb signed && bool_decide (word = bytes "nan") then Some NaN else None.
Definition finite_float (f : float64) : option float64 := match f with Finite _ _ _ => Some f | _ => None end.
Definition number_float (negative : bool) (l : list ascii) : option float64 :=
  let hex := hex_prefix l && (2 <? Z.of_nat (length l)) in
  let '(value, scale, digits, us, rest) := read_mantissa hex false false false 0 0 (if hex then drop 2 l else l) in
  if negb digits then None else
  '(e, us', rest) ← optional_exponent hex rest;
  if negb (bool_decide (rest = [])) || ((us || us') && negb (underscoreOK l)) then None else
  finite_float (if hex then nearest_power negative value 2 (e - 4 * scale) else nearest_power negative value 10 (e - scale)).
Definition ParseFloat (s : string) : option float64 :=
  let '(signed, negative, l) := float_sign (bytes s) in
  match special_float signed negative l with
  | Some f => Some f
  | None => number_float negative l
  end.

(** ** Operations *)

Definition signed (f : float64) : Z := match f with Finite n m _ => if n then - m else m | _ => 0 end.
(** [f < g] *)
Definition float_lt (f g : float64) : bool :=
  match f, g with
  | NaN, _ | _, NaN => false
  | Infinite n, Infinite n' => n && negb n'
  | Infinite n, Finite _ _ _ => n
  | Finite _ _ _, Infinite n => negb n
  | Finite _ _ e, Finite _ _ e' =>
      let low := Z.min e e' in signed f * 2 ^ (e - low) <? signed g * 2 ^ (e' - low)
  end.
Definition float_mul (f g : float64) : float64 :=
  match f, g with
  | NaN, _ | _, NaN => NaN
  | Infinite n, Infinite n' => Infinite (xorb n n')
  | Infinite n, Finite n' m _ | Finite n m _, Infinite n' => if m =? 0 then NaN else Infinite (xorb n n')
  | Finite n m e, Finite n' m' e' => nearest_power (xorb n n') (m * m') 2 (e + e')
  end.
(** The negation, the sum and the difference; an exact zero is positive unless both are negative. *)
Definition float_opp (f : float64) : float64 :=
  match f with
  | NaN => NaN
  | Infinite n => Infinite (negb n)
  | Finite n m e => Finite (negb n) m e
  end.
Definition float_add (f g : float64) : float64 :=
  match f, g with
  | NaN, _ | _, NaN => NaN
  | Infinite n, Infinite n' => if Bool.eqb n n' then Infinite n else NaN
  | Infinite n, Finite _ _ _ | Finite _ _ _, Infinite n => Infinite n
  | Finite n _ e, Finite n' _ e' =>
      let low := Z.min e e' in
      let sum := signed f * 2 ^ (e - low) + signed g * 2 ^ (e' - low) in
      if sum =? 0 then Finite (n && n') 0 least_exponent else nearest_power (sum <? 0) (Z.abs sum) 2 low
  end.
Definition float_sub (f g : float64) : float64 := float_add f (float_opp g).
(** A constant n/10 of the source *)
Definition tenths (n : Z) : float64 := nearest (n <? 0) (Z.abs n) 10.
Definition truncated (m e : Z) : Z := if 0 <=? e then m * 2 ^ e else m / 2 ^ (- e).
(** [int(f)] *)
Definition float_int (unrepresentable : float64 → Z) (f : float64) : Z :=
  match f with
  | Finite n m e =>
      let t := if n then - truncated m e else truncated m e in
      if (min_int64 <=? t) && (t <=? max_int64) then t else unrepresentable f
  | _ => unrepresentable f
  end.

(** ** Formats *)

Definition sign_text (negative : bool) : list ascii := if negative then ["-"%char] else [].
Definition hundredths (n : Z) : list ascii := utoa (n / 100) ++ "."%char :: pad_left "0" 2 (utoa (n mod 100)).
(** "%.2f" *)
Definition format_fixed2 (f : float64) : string :=
  match f with
  | NaN => "NaN"
  | Infinite n => if n then "-Inf" else "+Inf"
  | Finite n m e => of_bytes (sign_text n ++ hundredths (scaled 2 (m * 100) 1 e))
  end.

(** The shortest decimal that rounds to a positive value: its digits as a number
    and the power of ten of the last one.  [decade] is the k with 10^k ≤ n/d. *)
Definition decade (n d : Z) : Z :=
  let k := (Z.log2 n - Z.log2 d - 1) * 30103 / 100000 in
  if reaches 10 n d (k + 1) then k + 1 else k.
Definition candidates (n d e : Z) : list Z :=   (* in units of 10^e, the closest first *)
  let low := if 0 <=? e then n / (d * 10 ^ e) else n * 10 ^ (- e) / d in
  let r := scaled 10 n d (- e) in if r =? low then [low; low + 1] else [low + 1; low].
Fixpoint shortest_digits (fuel : nat) (f : float64) (n d k digits : Z) : Z * Z :=
  let e := k - digits + 1 in
  match List.filter (fun c => bool_decide (nearest_power false c 10 e = f)) (candidates n d e), fuel with
  | c :: _, _ => (c, e)
  | [], S fuel' => shortest_digits fuel' f n d k (digits + 1)
  | [], O => (scaled 10 n d (- e), e)
  end.
Definition shortest (m e : Z) : Z * Z :=
  let '(n, d) := if 0 <=? e then (m * 2 ^ e, 1) else (m, 2 ^ (- e)) in
  shortest_digits 17 (Finite false m e) n d (decade n d) 1.
(** [dp] is the place of the point in the digits *)
Definition format_e (digits : list ascii) (dp : Z) : list ascii :=
  let e := dp - 1 in
  take 1 digits ++ (if (1 <? Z.of_nat (length digits)) then "."%char :: drop 1 digits else []) ++
  ["e"%char; if e <? 0 then "-"%char else "+"%char] ++ pad_left "0" 2 (utoa (Z.abs e)).
Definition format_f (digits : list ascii) (dp : Z) : list ascii :=
  let n := Z.to_nat dp in
  (if 0 <? dp then take n digits ++ replicate (n - length digits) "0"%char else ["0"%char]) ++
  (if dp <? Z.of_nat (length digits)
   then "."%char :: replicate (Z.to_nat (- dp)) "0"%char ++ drop n digits else []).
(** "%v" *)
Definition format_shortest (f : float64) : string :=
  match f with
  | NaN => "NaN"
  | Infinite n => if n then "-Inf" else "+Inf"
  | Finite n m e =>
      of_bytes (sign_text n ++
        if m =? 0 then ["0"%char] else
        let '(c, e) := shortest m e in
        let dp := Z.of_nat (length (utoa c)) + e in
        let digits := trim_right_byte "0" (utoa c) in
        if (dp - 1 <? -4) || (6 <=? dp - 1) then format_e digits dp else format_f digits dp)
  end.

(** ** Rounding is close and keeps integers in order *)

Lemma round_half_even_spec n d :
  0 < d → n / d ≤ round_half_even n d ≤ n / d + 1 ∧ 2 * Z.abs (d * round_half_even n d - n) ≤ d.
Proof.
  intros Hd. unfold round_half_even. pose proof (Z.div_mod n d ltac:(lia)) as Hn. pose proof (Z.mod_pos_bound n d Hd).
  destruct (Z.compare_spec (2 * (n mod d)) d); [destruct (Z.even _)|..]; split; lia || nia.
Qed.
Lemma round_half_even_ge n d a : 0 < d → a * d ≤ n → a ≤ round_half_even n d.
Proof. intros Hd Ha. destruct (round_half_even_spec n d Hd). pose proof (Z.div_le_lower_bound n d a Hd). lia. Qed.
Lemma round_half_even_close n d a : 0 < d → 2 * Z.abs (n - a * d) < d → round_half_even n d = a.
Proof. intros Hd Ha. destruct (round_half_even_spec n d Hd) as [_ H]. nia. Qed.

Lemma reaches_shift b n d k N :
  0 < b → 0 ≤ N → 0 ≤ k + N → reaches b n d k = (d * b ^ (k + N) <=? n * b ^ N).
Proof.
  intros Hb HN Hk. unfold reaches. apply eq_true_iff_eq. destruct (Z.leb_spec 0 k) as [H|H]; rewrite !Z.leb_le.
  - rewrite Z.pow_add_r by lia. assert (0 < b ^ N) by (by apply Z.pow_pos_nonneg). split; nia.
  - replace N with (k + N + - k) at 2 by lia. rewrite (Z.pow_add_r b (k + N) (- k)) by lia.
    assert (0 < b ^ (k + N)) by (by apply Z.pow_pos_nonneg). split; nia.
Qed.

Lemma binade_spec n d (k := binade n d) : 0 < n → 0 < d → reaches 2 n d k = true ∧ reaches 2 n d (k + 1) = false.
Proof.
  intros Hn Hd. unfold k, binade. clear k. destruct (Z.log2_spec n Hn) as [N1 N2]. destruct (Z.log2_spec d Hd) as [D1 D2].
  pose proof (Z.log2_nonneg n). pose proof (Z.log2_nonneg d).
  set (ln := Z.log2 n) in *. set (ld := Z.log2 d) in *. rewrite <- Z.add_1_r in N2, D2.
  assert (0 < 2 ^ (ld + 1)) as P by (apply Z.pow_pos_nonneg; lia).
  assert (H1 : reaches 2 n d (ln - ld - 1) = true).
  { rewrite (reaches_shift _ _ _ _ (ld + 1)) by lia. replace (ln - ld - 1 + (ld + 1)) with ln by lia.
    apply Z.leb_le. nia. }
  assert (H2 : reaches 2 n d (ln - ld + 1) = false).
  { rewrite (reaches_shift _ _ _ _ ld) by lia. replace (ln - ld + 1 + ld) with (ln + 1) by lia.
    assert (0 < 2 ^ ld) by (apply Z.pow_pos_nonneg; lia). apply Z.leb_gt. nia. }
  destruct (reaches 2 n d (ln - ld)) eqn:E; [done|]. split; [done|]. by replace (ln - ld - 1 + 1) with (ln - ld) by lia.
Qed.

(** A value below 2^46 is rounded to one within 2^-8, not below any integer that it
    is not below itself. *)
Lemma nearest_close negative n d :
  0 ≤ n → 0 < d → n < d * 2 ^ 46 →
  ∃ m s, nearest negative n d = Finite negative m (- s) ∧ 0 ≤ m ∧ 1 ≤ s ∧
    2 ^ 8 * Z.abs (d * m - n * 2 ^ s) ≤ d * 2 ^ s ∧ (∀ a, a * d ≤ n → a * 2 ^ s ≤ m).
Proof.
  intros Hn Hd Hlt. unfold nearest. destruct (Z.eqb_spec n 0) as [->|Hn0].
  { exists 0, 1074. split; [done|]. rewrite Z.mul_0_r, Z.mul_0_l. split_and!; [lia..|]. intros a Ha. nia. }
  destruct (binade_spec n d) as [B1 B2]; [lia..|]. set (k := binade n d) in *.
  assert (Hk : k ≤ 45).
  { destruct (Z.le_gt_cases k 45); [done|]. exfalso. unfold reaches in B1. rewrite (proj2 (Z.leb_le 0 k)) in B1 by lia.
    apply Z.leb_le in B1. pose proof (Z.pow_le_mono_r 2 46 k). nia. }
  unfold least_exponent, most_exponent. set (s := - Z.max (k - 52) (-1074)).
  assert (7 ≤ s) as Hs by lia. replace (Z.max (k - 52) (-1074)) with (- s) by lia. rewrite ?Z.opp_involutive.
  unfold scaled. rewrite (proj2 (Z.leb_le 0 s)) by lia. destruct (round_half_even_spec (n * 2 ^ s) d Hd) as [_ Hr].
  assert (Hge : ∀ a, a * d ≤ n → a * 2 ^ s ≤ round_half_even (n * 2 ^ s) d).
  { intros a Ha. apply round_half_even_ge; [done|]. assert (0 < 2 ^ s) by (apply Z.pow_pos_nonneg; lia). nia. }
  assert (H7 : 2 ^ s = 2 ^ 7 * 2 ^ (s - 7)) by (rewrite <- Z.pow_add_r by lia; f_equal; lia).
  assert (H1 : 2 ^ s = 2 * 2 ^ (s - 1)) by (rewrite <- Z.pow_succ_r by lia; f_equal; lia).
  assert (0 < 2 ^ (s - 7)) by (apply Z.pow_pos_nonneg; lia). assert (0 < 2 ^ (s - 1)) by (apply Z.pow_pos_nonneg; lia).
  pose proof (Hge 0 ltac:(lia)) as Hm0. set (m := round_half_even (n * 2 ^ s) d) in *.
  destruct (Z.eqb_spec m (2 ^ 53)) as [Hm|_].
  - rewrite (proj2 (Z.ltb_ge _ _)) by lia. exists (2 ^ 52), (s - 1). split; [f_equal; lia|]. split_and!; [lia..| |].
    + assert (d * 2 ^ 52 * 2 = d * m) by nia. nia.
    + intros a Ha. specialize (Hge a Ha). nia.
  - rewrite (proj2 (Z.ltb_ge _ _)) by lia. exists m, s. split; [done|]. split_and!; [lia..| |done]. nia.
Qed.

(** So a decimal below 2^46 with two digits after the point keeps its integer part and
    its two digits. *)
Lemma nearest_truncated negative n d m e :
  0 ≤ n → 0 < d ≤ 100 → n < d * 2 ^ 46 → nearest negative n d = Finite negative m e → truncated m e = n / d.
Proof.
  intros Hn Hd Hlt H. destruct (nearest_close negative n d) as (m' & s & E & Hm & Hs & Herr & Hge); [lia..|].
  rewrite H in E. injection E as -> ->. unfold truncated. destruct (Z.leb_spec 0 (- s)); [lia|]. rewrite Z.opp_involutive.
  assert (0 < 2 ^ s) as P by (apply Z.pow_pos_nonneg; lia). pose proof (Z.div_mod n d ltac:(lia)). pose proof (Z.mod_pos_bound n d ltac:(lia)).
  specialize (Hge (n / d)). symmetry. apply (Z.div_unique_pos _ _ _ (m' - (n / d) * 2 ^ s)); [|lia]. split; [lia|].
  assert (d * m' < d * ((n / d + 1) * 2 ^ s)) by nia. nia.
Qed.
Lemma nearest_fixed2 n d m e c :
  0 ≤ n → 0 < d → n < d * 2 ^ 46 → 100 * n = c * d → nearest false n d = Finite false m e → scaled 2 (m * 100) 1 e = c.
Proof.
  intros Hn Hd Hlt Hc H. destruct (nearest_close false n d) as (m' & s & E & Hm & Hs & Herr & _); [lia..|].
  rewrite H in E. injection E as -> ->. unfold scaled. destruct (Z.leb_spec 0 (- s)); [lia|]. rewrite Z.opp_involutive.
  assert (0 < 2 ^ s) as P by (apply Z.pow_pos_nonneg; lia). apply round_half_even_close; [lia|].
  assert (d * (m' * 100 - c * (1 * 2 ^ s)) = 100 * (d * m' - n * 2 ^ s)) as Hd' by nia.
  assert (d * (2 * Z.abs (m' * 100 - c * (1 * 2 ^ s))) < d * (1 * 2 ^ s)) as Hd2; [|nia].
  replace (d * (2 * Z.abs (m' * 100 - c * (1 * 2 ^ s)))) with (2 * Z.abs (d * (m' * 100 - c * (1 * 2 ^ s)))) by (rewrite Z.abs_mul; lia).
  rewrite Hd', Z.abs_mul. change (2 ^ 8) with 256 in Herr. lia.
Qed.

(** ** Plain decimals *)

Lemma is_digit_facts c : is_digit c = true → beq c "_" = false ∧ beq c "." = false ∧ beq c "+" = false ∧ beq c "-" = false.
Proof. intros H. split_and!; apply beq_neq; intros ->; discriminate H. Qed.
Lemma digit_lower c : is_digit c = true → lower_byte c = c.
Proof. unfold lower_byte, is_digit. intros H. to_prop in H. destruct (Z.leb_spec 65 (code c)); [lia|done]. Qed.
Lemma read_mantissa_digits sawdot sawdigits us value scale ds rest :
  forallb is_digit ds = true →
  read_mantissa false sawdot sawdigits us value scale (ds ++ rest) =
  read_mantissa false sawdot (sawdigits || negb (bool_decide (ds = []))) us (value * 10 ^ Z.of_nat (length ds) + digits_value ds)
    (if sawdot then scale + Z.of_nat (length ds) else scale) rest.
Proof.
  revert sawdigits value scale. induction ds as [|c ds IH]; intros sawdigits value scale H.
  { cbn [app length]. rewrite orb_false_r. change (digits_value []) with 0. rewrite Z.mul_1_r, Z.add_0_r.
    destruct sawdot; [by rewrite Z.add_0_r|done]. }
  cbn in H. apply andb_true_iff in H as [Hc H]. destruct (is_digit_facts c Hc) as (H1 & H2 & _). cbn [app read_mantissa].
  rewrite H1, H2, Hc, IH by done. rewrite digits_value_cons. cbn [length]. rewrite (bool_decide_eq_false_2 (c :: ds = [])) by done. cbn [negb orb]. rewrite orb_true_r.
  f_equal; [|destruct sawdot; lia]. rewrite Nat2Z.inj_succ, Z.pow_succ_r by lia. lia.
Qed.

(** Digits, perhaps with a point and more digits *)
Definition plain_decimal (whole fraction : list ascii) : list ascii :=
  whole ++ (if bool_decide (fraction = []) then [] else "."%char :: fraction).
Lemma ParseFloat_plain whole fraction :
  whole ≠ [] → forallb is_digit whole = true → forallb is_digit fraction = true →
  ParseFloat (of_bytes (plain_decimal whole fraction)) =
    finite_float (nearest false (digits_value (whole ++ fraction)) (10 ^ Z.of_nat (length fraction))).
Proof.
  intros Hne Hw Hf. unfold ParseFloat, plain_decimal. rewrite bytes_of_bytes.
  destruct whole as [|c whole']; [done|]. pose proof Hw as Hw'. cbn in Hw'. apply andb_true_iff in Hw' as [Hc Hw'].
  set (l := (c :: whole') ++ (if bool_decide (fraction = []) then [] else "."%char :: fraction)).
  assert (float_sign l = (false, false, l)) as ->.
  { cbn. destruct (is_digit_facts c Hc) as (_ & _ & -> & ->). done. }
  assert (special_float false false l = None) as ->.
  { unfold special_float. pose proof (digit_lower c Hc) as Hlow. assert (∀ x w, is_digit x = false → lower_byte <$> l ≠ x :: w) as Hne'.
    { intros x w Hx E. cbn in E. rewrite Hlow in E. injection E as <- _. congruence. }
    rewrite !bool_decide_eq_false_2 by (by apply Hne'). done. }
  unfold number_float.
  assert (hex_prefix l = false) as ->.
  { cbn. destruct whole' as [|x whole'']; cbn.
    - case_bool_decide; [done|]. apply andb_false_r.
    - cbn in Hw'. apply andb_true_iff in Hw' as [Hx _]. apply andb_false_iff. right. apply beq_neq. rewrite digit_lower by done.
      intros ->. discriminate Hx. }
  cbn [andb]. unfold l. rewrite read_mantissa_digits by done. rewrite bool_decide_eq_false_2 by done. cbn [negb orb].
  rewrite Z.mul_0_l, Z.add_0_l. destruct (bool_decide_reflect (fraction = [])) as [->|Hfne].
  - cbn -[digits_value nearest]. rewrite !app_nil_r. change (10 ^ Z.of_nat 0) with 1. change (0 - 0) with 0. unfold nearest_power. cbn [Z.leb Z.compare]. change (10 ^ 0) with 1. by rewrite Z.mul_1_r.
  - cbn [read_mantissa]. change (beq "." "_") with false. change (beq "." ".") with true. cbn iota.
    rewrite <- (app_nil_r fraction) at 1. rewrite read_mantissa_digits by done. cbn [read_mantissa orb negb].
    cbn [optional_exponent mbind option_bind]. rewrite bool_decide_eq_true_2 by done. cbn [negb orb andb].
    rewrite digits_value_app, Z.add_0_l, Z.sub_0_l. unfold nearest_power.
    destruct (Z.leb_spec 0 (- Z.of_nat (length fraction))) as [Hl|_]; [destruct fraction; [done|cbn in Hl; lia]|].
    by rewrite Z.opp_involutive.
Qed.

(** The integer part of an amount is what [int] gives, and two digits after the point
    are what "%.2f" prints. *)
Lemma plain_amount whole fraction :
  whole ≠ [] → forallb is_digit whole = true → forallb is_digit fraction = true → (length fraction ≤ 2)%nat →
  digits_value whole < 2 ^ 46 - 1 →
  ∃ f, ParseFloat (of_bytes (plain_decimal whole fraction)) = Some f ∧
    (∀ unrepresentable, float_int unrepresentable f = digits_value whole) ∧
    format_fixed2 f = of_bytes (hundredths (digits_value (whole ++ fraction ++ replicate (2 - length fraction) "0"%char))).
Proof.
  intros Hne Hw Hf Hlen Hlt. rewrite ParseFloat_plain by done. set (v := digits_value (whole ++ fraction)). set (d := 10 ^ Z.of_nat (length fraction)).
  assert (Hd : 0 < d ≤ 100).
  { unfold d. split; [apply Z.pow_pos_nonneg; lia|]. change 100 with (10 ^ 2). apply Z.pow_le_mono_r; lia. }
  assert (Hv : v = digits_value whole * d + digits_value fraction) by (unfold v; by rewrite digits_value_app).
  pose proof (digits_value_range fraction Hf) as Hfr. fold d in Hfr. pose proof (digits_value_range whole Hw).
  assert (Hv0 : 0 ≤ v) by nia. assert (Hvd : v < d * 2 ^ 46) by nia.
  destruct (nearest_close false v d) as (m & s & E & Hm & Hs & _); [lia..|]. rewrite E. cbn [finite_float]. eexists. split; [done|].
  assert (Hq : v / d = digits_value whole) by (symmetry; apply (Z.div_unique_pos _ _ _ (digits_value fraction)); nia).
  split.
  - intros u. cbn. rewrite (nearest_truncated false v d m (- s)), Hq by done. unfold min_int64, max_int64.
    rewrite (proj2 (Z.leb_le _ _)), (proj2 (Z.leb_le _ _)) by lia. done.
  - cbn [format_fixed2 sign_text app]. do 2 f_equal.
    rewrite (nearest_fixed2 v d m (- s) (digits_value (whole ++ fraction ++ replicate (2 - length fraction) "0"%char))); [lia..| |exact E].
    rewrite app_assoc, digits_value_zeros. fold v. rewrite <- Z.mul_assoc. unfold d. rewrite <- Z.pow_add_r by lia.
    replace (Z.of_nat (2 - length fraction) + Z.of_nat (length fraction)) with 2 by lia. change (10 ^ 2) with 100. lia.
Qed.
