(* ===== verification/Dates.v ===== *)
(** Business dates, [internal/loan/date.go]: a calendar date without a time,
    its order, its ISO text, day arithmetic through the midnights of a location,
    and the default reporting date. *)
From stdpp Require Import base list strings.
From Stdlib Require Import ZArith Lia Ascii.
From S2P Require Import Prelude GoStrings GoErrors GoTime.
Local Open Scope Z_scope.

Record Date := MkDate { date_year : Z; date_month : Z; date_day : Z }.
Definition ZeroDate : Date := MkDate 0 0 0.

#[export] Instance date_eq_dec : EqDecision Date.
Proof. solve_decision. Defined.

(** [if location == nil { location = time.UTC }] *)
Definition or_utc (location : option Location) : Location :=
  match location with Some loc => loc | None => UTC end.

Definition of_civil (c : Z * Z * Z) : Date := let '(y, m, d) := c in MkDate y m d.

Definition NewDate (value : time) (location : option Location) : Date :=
  of_civil (time_civil value (or_utc location)).

Definition ParseDate (raw : string) (location : option Location) : res Date :=
  match location with
  | None => Fail (Msg "date location is required")
  | Some loc =>
      match parse_time layout_iso raw loc with
      | None => Fail (Wrap "parse date %q: %w" (Msg "time.ParseError"))
      | Some value => Ok (NewDate value location)
      end
  end.

Definition Date_IsZero (date : Date) : bool := date_year date =? 0.

Definition Date_Time (date : Date) (location : option Location) : time :=
  time_date (date_year date) (date_month date) (date_day date) 0 (or_utc location).

(** [%0wd] of [fmt.Sprintf]: the width counts the sign *)
Definition sprintf_0d (width : nat) (n : Z) : list ascii :=
  if n <? 0 then "-"%char :: pad_left "0" (width - 1) (utoa (- n)) else pad_left "0" width (utoa n).

Definition Date_String (date : Date) : string :=
  if Date_IsZero date then EmptyString else
  of_bytes (sprintf_0d 4 (date_year date) ++ "-"%char :: sprintf_0d 2 (date_month date) ++
            "-"%char :: sprintf_0d 2 (date_day date)).

Definition key (date : Date) : Z := date_year date * 10000 + date_month date * 100 + date_day date.

Definition Before (date other : Date) : bool := key date <? key other.
Definition After (date other : Date) : bool := key other <? key date.
Definition Equal (date other : Date) : bool := key date =? key other.

Definition AddDays (date : Date) (days : Z) (location : option Location) : Date :=
  NewDate (add_days (Date_Time date location) days (or_utc location)) location.

(** The body of [DefaultReportingDate] after [today := NewDate(now, location)] *)
Definition reporting_date (today : Date) (location : option Location) : Date :=
  let tomorrow := AddDays today 1 location in
  if negb (date_month tomorrow =? date_month today) then today else
  AddDays (MkDate (date_year today) (date_month today) 1) (-1) location.
Definition DefaultReportingDate (now : time) (location : option Location) : Date :=
  reporting_date (NewDate now location) location.

(** ** Valid dates and their day numbers *)

Definition valid (date : Date) : Prop :=
  valid_civil (date_year date) (date_month date) (date_day date).
Definition day_number (date : Date) : Z :=
  days_of_civil (date_year date) (date_month date) (date_day date).
(** The next day is the first of a month. *)
Definition month_end (date : Date) : Prop :=
  date_day date = days_in_month (date_year date) (date_month date).

Lemma of_civil_days date : valid date → of_civil (civil_of_days (day_number date)) = date.
Proof. intros H. unfold day_number. rewrite civil_days_inverse by done. by destruct date. Qed.

Lemma civil_of_days_date n :
  valid (of_civil (civil_of_days n)) ∧ day_number (of_civil (civil_of_days n)) = n.
Proof.
  destruct (civil_of_days n) as [[y m] d] eqn:E. apply civil_of_days_spec in E.
  exact E.
Qed.

Lemma NewDate_valid value location : valid (NewDate value location).
Proof. apply civil_of_days_date. Qed.

Lemma key_days a b : valid a → valid b → key a < key b ↔ day_number a < day_number b.
Proof. intros Ha Hb. symmetry. by apply civil_lt_iff. Qed.

Lemma key_inj a b : valid a → valid b → key a = key b → a = b.
Proof.
  intros Ha Hb Hk. pose proof (civil_key_inj _ _ _ _ _ _ Ha Hb Hk) as E.
  destruct a, b. simpl in *. congruence.
Qed.

Lemma days_of_civil_add y m d n : days_of_civil y m (d + n) = days_of_civil y m d + n.
Proof. unfold days_of_civil. lia. Qed.

Lemma AddDays_days date n location :
  midnights (or_utc location) → valid date →
  AddDays date n location = of_civil (civil_of_days (day_number date + n)).
Proof.
  intros Hmid Hv. unfold AddDays, NewDate, add_days, Date_Time. f_equal.
  destruct (Hmid (date_year date) (date_month date) (date_day date)) as [-> ->]; [apply Hv|].
  rewrite civil_days_inverse by done.
  destruct (Hmid (date_year date) (date_month date) (date_day date + n)) as [-> _]; [apply Hv|].
  by rewrite days_of_civil_add.
Qed.

(** ** Text *)

Lemma take_digits_pad n (k : nat) v rest :
  0 ≤ v < 10 ^ Z.of_nat k → n = k → (0 < k)%nat →
  take_digits n (sprintf_0d k v ++ rest) = Some (v, rest).
Proof.
  intros Hv -> Hk. unfold take_digits, sprintf_0d.
  destruct (Z.ltb_spec v 0); [lia|].
  assert (length (pad_left "0" k (utoa v)) = k) as Hl by 
    (rewrite length_pad; destruct k as [|k]; [lia|]; pose proof (utoa_length v k Hv); lia).
  rewrite take_app_length', drop_app_length' by done.
  rewrite bool_decide_eq_true_2 by done.
  rewrite pad_digits by (apply utoa_digits; lia). simpl.
  by rewrite digits_value_pad, utoa_value by lia.
Qed.

Lemma parse_layout_iso y m d :
  0 ≤ y < 10000 → 1 ≤ m ≤ 12 → 0 ≤ d < 100 →
  parse_layout layout_iso (sprintf_0d 4 y ++ "-"%char :: sprintf_0d 2 m ++ "-"%char :: sprintf_0d 2 d)
    0 1 1 = Some (y, m, d).
Proof.
  intros Hy Hm Hd. unfold layout_iso. cbn [parse_layout].
  rewrite (take_digits_pad 4 4) by (simpl; lia). cbn [mbind option_bind parse_layout].
  rewrite beq_refl. rewrite (take_digits_pad 2 2) by (simpl; lia). cbn [mbind option_bind parse_layout].
  replace ((1 <=? m) && (m <=? 12)) with true by (symmetry; to_prop; lia). cbn [parse_layout].
  rewrite beq_refl. rewrite <- (app_nil_r (sprintf_0d 2 d)).
  by rewrite (take_digits_pad 2 2) by (simpl; lia).
Qed.

(** A text of [n] digits is the padded text of its value. *)
Lemma pad_of_digits (k : nat) l :
  length l = k → forallb is_digit l = true → (0 < k)%nat → sprintf_0d k (digits_value l) = l.
Proof.
  intros Hl Hd Hk. pose proof (digits_value_range l Hd) as Hr. rewrite Hl in Hr.
  unfold sprintf_0d. destruct (Z.ltb_spec (digits_value l) 0); [lia|].
  assert (0 ≤ digits_value l) by lia.
  apply digits_value_inj; [by apply pad_digits, utoa_digits|done| |by rewrite digits_value_pad, utoa_value].
  rewrite length_pad. destruct k as [|k]; [lia|]. pose proof (utoa_length _ k Hr). lia.
Qed.

Lemma take_digits_inv n l v rest :
  (0 < n)%nat → take_digits n l = Some (v, rest) →
  l = sprintf_0d n v ++ rest ∧ 0 ≤ v < 10 ^ Z.of_nat n.
Proof.
  unfold take_digits. intros Hn H. case_bool_decide as Hl; [|done]. cbn [andb] in H.
  destruct (forallb is_digit (take n l)) eqn:Hd; [|done]. injection H as <- <-.
  rewrite pad_of_digits by done. split; [by rewrite take_drop|].
  pose proof (digits_value_range _ Hd) as Hr. by rewrite Hl in Hr.
Qed.

Lemma parse_layout_iso_inv l y m d :
  parse_layout layout_iso l 0 1 1 = Some (y, m, d) →
  l = sprintf_0d 4 y ++ "-"%char :: sprintf_0d 2 m ++ "-"%char :: sprintf_0d 2 d ∧
  0 ≤ y < 10000 ∧ 1 ≤ m ≤ 12.
Proof.
  unfold layout_iso. cbn [parse_layout]. intros H.
  apply bind_Some in H as ([y' l1] & Hy & H). apply take_digits_inv in Hy as [-> Hy]; [|lia].
  destruct l1 as [|c1 l1]; [done|]. destruct (beq c1 "-") eqn:E1; [|done].
  apply bind_Some in H as ([m' l2] & Hm & H). apply take_digits_inv in Hm as [-> Hm]; [|lia].
  destruct ((1 <=? m') && (m' <=? 12)) eqn:Em; [|done].
  destruct l2 as [|c2 l2]; [done|]. destruct (beq c2 "-") eqn:E2; [|done].
  apply bind_Some in H as ([d' l3] & Hd & H). apply take_digits_inv in Hd as [-> Hd]; [|lia].
  case_bool_decide as El; [|done]. injection H as <- <- <-. subst l3.
  apply beq_eq in E1, E2. subst. to_prop in Em. rewrite app_nil_r.
  split; [done|]. simpl in Hy. lia.
Qed.

Lemma ParseDate_Ok raw loc date :
  midnights loc → ParseDate raw (Some loc) = Ok date ↔
  ∃ y m d, parse_layout layout_iso (bytes raw) 0 1 1 = Some (y, m, d) ∧
    1 ≤ d ≤ days_in_month y m ∧ date = MkDate y m d.
Proof.
  intros Hmid. unfold ParseDate, parse_time, parse_civil.
  destruct (parse_layout _ _ _ _ _) as [[[y m] d]|] eqn:E; cbn [mbind option_bind].
  - apply parse_layout_iso_inv in E as (_ & _ & Hm).
    destruct ((1 <=? d) && (d <=? days_in_month y m)) eqn:Ed; cbn [mbind option_bind].
    + to_prop in Ed. unfold NewDate. change (or_utc (Some loc)) with loc.
      destruct (Hmid y m d Hm) as [-> _].
      rewrite civil_days_inverse by done. cbn [of_civil]. split.
      * intros [= <-]. by exists y, m, d.
      * intros (? & ? & ? & [= <- <- <-] & _ & ->). done.
    + split; [done|]. intros (? & ? & ? & [= <- <- <-] & Hd & _). to_prop in Ed. lia.
  - split; [done|]. by intros (? & ? & ? & [=] & _).
Qed.

(** The dates that have a text: the years 1..9999 *)
Definition date_ok (date : Date) : Prop := valid date ∧ 1 ≤ date_year date ≤ 9999.

Lemma Date_String_parses date :
  date_ok date → parse_layout layout_iso (bytes (Date_String date)) 0 1 1 =
    Some (date_year date, date_month date, date_day date).
Proof.
  intros [Hv Hy]. pose proof (valid_day_31 _ _ _ Hv). unfold Date_String, Date_IsZero.
  destruct (Z.eqb_spec (date_year date) 0); [lia|]. rewrite bytes_of_bytes.
  apply parse_layout_iso; [lia|apply Hv|lia].
Qed.

Lemma length_sprintf k n : 0 ≤ n < 10 ^ Z.of_nat k → (0 < k)%nat → length (sprintf_0d k n) = k.
Proof.
  intros Hn Hk. unfold sprintf_0d. destruct (Z.ltb_spec n 0); [lia|]. rewrite length_pad.
  destruct k as [|k]; [lia|]. pose proof (utoa_length n k Hn). lia.
Qed.

Lemma length_sprintf_ge k n : 10 ^ Z.of_nat k ≤ n → (k < length (sprintf_0d k n))%nat.
Proof.
  intros Hn. assert (0 < 10 ^ Z.of_nat k) by (apply Z.pow_pos_nonneg; lia).
  unfold sprintf_0d. destruct (Z.ltb_spec n 0); [lia|]. rewrite length_pad.
  assert (0 ≤ n) as Hn0 by lia.
  pose proof (digits_value_range (utoa n) (utoa_digits n Hn0)) as Hr. rewrite utoa_value in Hr by done.
  assert (Z.of_nat k < Z.of_nat (length (utoa n))) by (apply (Z.pow_lt_mono_r_iff 10); lia). lia.
Qed.

(** Two dates of the calendar with the same text are the same date. *)
Lemma date_text_inj date date' :
  date_ok date → valid date' → Date_String date' = Date_String date → date' = date.
Proof.
  intros Hok Hv E. pose proof (Date_String_parses date Hok) as Hp.
  assert (date_ok date') as Hok'; [|pose proof (Date_String_parses date' Hok') as Hp'; rewrite E, Hp in Hp';
    destruct date, date'; simpl in *; congruence].
  split; [done|]. rewrite <- E in Hp. pose proof (valid_day_31 _ _ _ Hv). pose proof (proj1 Hv).
  apply parse_layout_iso_inv in Hp as (Ht & Hy & Hm). destruct Hok as [Hvd Hyd].
  pose proof (valid_day_31 _ _ _ Hvd). apply (f_equal length) in Ht as Hlen.
  rewrite length_app in Hlen. cbn [length] in Hlen. rewrite length_app in Hlen. cbn [length] in Hlen.
  rewrite (length_sprintf 4), !(length_sprintf 2) in Hlen by (simpl; lia).
  unfold Date_String, Date_IsZero in Hlen, Ht.
  destruct (Z.eqb_spec (date_year date') 0) as [|Hz]; [done|].
  rewrite bytes_of_bytes in Hlen, Ht. rewrite length_app in Hlen. cbn [length] in Hlen.
  rewrite length_app in Hlen. cbn [length] in Hlen. rewrite !(length_sprintf 2) in Hlen by (simpl; lia).
  destruct (Z.lt_ge_cases (date_year date') 0) as [Hneg|Hpos].
  - exfalso. unfold sprintf_0d in Ht at 1. destruct (Z.ltb_spec (date_year date') 0); [|lia].
    pose proof (f_equal (λ l, forallb is_digit (take 4 l)) Ht) as Hd. cbn beta in Hd.
    rewrite (take_app_length' (sprintf_0d 4 _)) in Hd by (rewrite length_sprintf; simpl; lia).
    unfold sprintf_0d in Hd. destruct (Z.ltb_spec (date_year date) 0); [lia|].
    rewrite pad_digits in Hd by (apply utoa_digits; lia). done.
  - split; [lia|]. apply Z.nlt_ge. intros Hbig.
    pose proof (length_sprintf_ge 4 (date_year date') ltac:(simpl; lia)). lia.
Qed.

(** ** Month ends *)

Lemma day_number_in_month date day :
  valid date → day_number (MkDate (date_year date) (date_month date) day) =
  day_number date + (day - date_day date).
Proof.
  intros Hv. unfold day_number. simpl. rewrite !days_of_civil_valid by apply Hv. lia.
Qed.

Lemma next_in_month date next :
  valid date → valid next → day_number next = day_number date + 1 → ~ month_end date →
  next = MkDate (date_year date) (date_month date) (date_day date + 1).
Proof.
  unfold month_end. intros Hv Hn E Hlt.
  assert (valid (MkDate (date_year date) (date_month date) (date_day date + 1))) as Hv'
    by (pose proof (proj2 Hv); split; [apply Hv|simpl; lia]).
  rewrite <- (of_civil_days next), E by done.
  replace (day_number date + 1) with
    (day_number (MkDate (date_year date) (date_month date) (date_day date + 1)))
    by (rewrite day_number_in_month by done; lia).
  by rewrite of_civil_days.
Qed.

Lemma month_end_dec date : {month_end date} + {~ month_end date}.
Proof. apply Z.eq_dec. Qed.

Lemma month_end_next date next :
  valid date → valid next → day_number next = day_number date + 1 →
  month_end date ↔ date_month next ≠ date_month date.
Proof.
  intros Hv Hn E. unfold month_end. pose proof (proj2 Hv) as Hd. split.
  - intros Hend Hm. pose proof (proj1 Hv) as Hm1. pose proof (proj1 Hn) as Hm2. pose proof (proj2 Hn) as Hd2.
    pose proof (valid_civil_bound _ _ _ Hv) as B. pose proof (valid_civil_bound _ _ _ Hn) as B2.
    unfold day_number in E. rewrite !days_of_civil_valid in E by done.
    rewrite !days_of_civil_valid in B, B2 by done. rewrite Hm in *. unfold days_in_month in *.
    set (m := date_month date) in *. clearbody m.
    pose proof (leap_day_range (date_year date)). pose proof (leap_day_range (date_year next)).
    destruct (Z.lt_trichotomy (date_year next) (date_year date)) as [Hy|[Hy|Hy]].
    + pose proof (days_before_year_le (date_year next + 1) (date_year date)). lia.
    + rewrite Hy in *. lia.
    + pose proof (days_before_year_le (date_year date + 1) (date_year next)).
      rewrite days_before_year_succ in *.
      pose proof (days_before_month_bound (leap_day (date_year next)) m ltac:(lia) ltac:(lia)).
      pose proof (days_before_month_bound (leap_day (date_year date)) m ltac:(lia) ltac:(lia)).
      assert (days_before_month (leap_day (date_year next)) m = 0) as Hz by lia.
      assert (m = 1) as -> by (destruct (Z.eq_dec m 1); [done|];
        pose proof (days_before_month_le (leap_day (date_year next)) 2 m ltac:(lia) ltac:(lia) ltac:(lia) ltac:(lia)) as Hle;
        change (days_before_month (leap_day (date_year next)) 2) with 31 in Hle; lia).
      change (days_before_month (leap_day (date_year date)) (1 + 1)) with 31 in *.
      simpl in *. lia.
  - intros Hne. destruct (month_end_dec date) as [He|He]; [exact He|].
    exfalso. apply Hne. by rewrite (next_in_month date next).
Qed.

Lemma report_cases today first tomorrow report :
  valid today → first = MkDate (date_year today) (date_month today) 1 →
  valid tomorrow → day_number tomorrow = day_number today + 1 →
  valid report → day_number report = day_number first - 1 →
  date_month tomorrow = date_month today →
  (valid report ∧ month_end report ∧ key report ≤ key today) ∧
  ∀ date, valid date → month_end date → key date ≤ key today → key date ≤ key report.
Proof.
  intros Hv Hf Hvt Hnt Hvr Hnr Hsame. pose proof (valid_day_31 _ _ _ Hv) as Hd31.
  assert (date_year first = date_year today ∧ date_month first = date_month today ∧
          date_day first = 1) as (Hfy & Hfm & Hfd) by (by rewrite Hf).
  assert (valid first) as Hfirst by (split; rewrite ?Hfy, ?Hfm, ?Hfd; [apply Hv|pose proof (proj2 Hv); lia]).
  clear Hf. pose proof (month_end_next today tomorrow Hv Hvt Hnt) as Hend.
  assert (month_end report) as Her.
  { destruct (month_end_dec report) as [|He]; [done|]. pose proof (valid_day_31 _ _ _ Hvr).
    pose proof (f_equal date_day (next_in_month report first Hvr Hfirst ltac:(lia) He)) as Hday.
    cbn [date_day] in Hday. lia. }
  assert (key first ≤ key today) as Hft by (unfold key; lia).
  assert (key report < key first) as Hrf by (apply key_days; [done..|lia]).
  split; [split_and!; [done|done|lia]|]. intros date Hvd Hed Hdt.
  apply Z.nlt_ge. intros Hlt. apply key_days in Hlt; [|done..].
  assert (key first ≤ key date) as Hle by (apply Z.nlt_ge; rewrite key_days by done; lia).
  pose proof (proj1 Hvd). pose proof (valid_day_31 _ _ _ Hvd). pose proof (proj1 Hv).
  unfold key in Hle, Hdt. rewrite Hfy, Hfm, Hfd in Hle.
  assert (date_year date = date_year today) as Ey by lia.
  assert (date_month date = date_month today) as Em by lia.
  unfold month_end in Hed. rewrite Ey, Em in Hed. pose proof (proj2 Hv).
  apply Hend; [|done]. unfold month_end. lia.
Qed.

Lemma reporting_date_spec today location :
  midnights (or_utc location) → valid today →
  (valid (reporting_date today location) ∧ month_end (reporting_date today location) ∧
   key (reporting_date today location) ≤ key today) ∧
  ∀ date, valid date → month_end date → key date ≤ key today →
    key date ≤ key (reporting_date today location).
Proof.
  intros Hmid Hv. unfold reporting_date.
  destruct (civil_of_days_date (day_number today + 1)) as [Hvt Hnt].
  rewrite <- (AddDays_days today 1 location) in Hvt, Hnt by assumption.
  remember (AddDays today 1 location) as tomorrow eqn:Et. clear Et.
  remember (MkDate (date_year today) (date_month today) 1) as first eqn:Ef.
  assert (valid first) as Hfirst.
  { pose proof (proj2 Hv). rewrite Ef. split; [apply Hv|cbn [date_day date_year date_month]; lia]. }
  destruct (civil_of_days_date (day_number first + -1)) as [Hvr Hnr].
  rewrite <- (AddDays_days first (-1) location) in Hvr, Hnr by assumption.
  remember (AddDays first (-1) location) as report eqn:Er. clear Er.
  destruct (Z.eqb_spec (date_month tomorrow) (date_month today)) as [Hsame|Hdiff]; cbn [negb].
  - apply (report_cases today first tomorrow report); assumption.
  - split; [split; [assumption|split; [|lia]]|intros date _ _ H; exact H].
    by apply (month_end_next today tomorrow).
Qed.

Lemma ParseDate_String date loc :
  midnights loc → date_ok date → ParseDate (Date_String date) (Some loc) = Ok date.
Proof.
  intros Hmid Hd. apply ParseDate_Ok; [done|].
  exists (date_year date), (date_month date), (date_day date).
  split; [by apply Date_String_parses|]. split; [apply Hd|by destruct date].
Qed.

(** ** Properties *)

(** The ISO text of a date and [ParseDate] are inverse to each other: every
    date of the years 1..9999 is read back from its text, and a text that is
    accepted is the text of the date it gives, a date of the calendar (the year
    0000, which the code takes for the zero date, apart). *)
Theorem Date_roundtrip loc date raw :
  midnights loc →
  (valid date → 1 ≤ date_year date ≤ 9999 → ParseDate (Date_String date) (Some loc) = Ok date) ∧
  (ParseDate raw (Some loc) = Ok date → Date_IsZero date = false →
   Date_String date = raw ∧ valid date ∧ 1 ≤ date_year date ≤ 9999).
Proof.
  intros Hmid. split; [intros Hv Hy; by apply ParseDate_String|].
  rewrite ParseDate_Ok by done. unfold Date_String, Date_IsZero.
  intros (y & m & d & Hp & Hd & ->) Hz. simpl in *. rewrite Hz. to_prop in Hz.
  apply parse_layout_iso_inv in Hp as (Hraw & Hy & Hm).
  split_and!; [by rewrite <- Hraw, of_bytes_bytes|done|lia|lia].
Qed.
Lemma Date_roundtrip_witness :
  let jakarta := fixed_zone 25200 in let date := MkDate 2028 2 29 in
  ParseDate (Date_String date) (Some jakarta) = Ok date ∧
  Date_String date = "2028-02-29"%string.
Proof.
  split.
  - apply (Date_roundtrip (fixed_zone 25200) (MkDate 2028 2 29) EmptyString);
      [apply fixed_zone_midnights|vm_compute; intuition discriminate|simpl; lia].
  - apply (Date_roundtrip (fixed_zone 25200) (MkDate 2028 2 29) "2028-02-29"%string);
      [apply fixed_zone_midnights|vm_compute; reflexivity|reflexivity].
Defined.

(** The default reporting date is the latest month end that is not in the
    future: a month end of the calendar, at most today, with no month end
    strictly between it and today. *)
Theorem DefaultReportingDate_latest_month_end now location date :
  midnights (or_utc location) →
  let today := NewDate now location in
  let report := DefaultReportingDate now location in
  (valid report ∧ month_end report ∧ key report ≤ key today) ∧
  (valid date → month_end date → key date ≤ key today → key date ≤ key report).
Proof.
  intros Hmid today report. destruct (reporting_date_spec today location Hmid (NewDate_valid now location)) as [H Hmax].
  split; [exact H|apply Hmax].
Qed.
Lemma DefaultReportingDate_witness :
  let now := time_date 2026 10 6 36000 (fixed_zone 25200) in
  DefaultReportingDate now (Some (fixed_zone 25200)) = MkDate 2026 9 30 ∧
  key (MkDate 2026 8 31) ≤ key (DefaultReportingDate now (Some (fixed_zone 25200))).
Proof.
  split; [vm_compute; reflexivity|].
  apply (DefaultReportingDate_latest_month_end
    (time_date 2026 10 6 36000 (fixed_zone 25200)) (Some (fixed_zone 25200)) (MkDate 2026 8 31)).
  - apply fixed_zone_midnights.
  - vm_compute. intuition discriminate.
  - vm_compute. reflexivity.
  - vm_compute. discriminate.
Defined.
