(* ===== verification/Money.v ===== *)
(** [internal/loan/money.go]: exact rational amounts.

    [math/big.Rat] keeps values in lowest terms, so an amount is a [Q] in reduced
    form and every operation reduces its result; the Go struct's nil pointer is
    [None], which every operation reads as zero.  Two amounts are compared by
    value with [money_eq], for which the operations are [Proper]. *)
From stdpp Require Import base list strings.
From Stdlib Require Import ZArith Lia Ascii QArith Qabs Lqa Setoid Morphisms.
From S2P Require Import Prelude GoStrings GoErrors.
Local Open Scope Z_scope.

Record Money := mkMoney { value : option Q }.

Definition MoneyZero : Money := mkMoney None.
Definition rat (m : Money) : Q := match value m with None => 0%Q | Some q => q end.
Definition of_rat (q : Q) : Money := mkMoney (Some (Qred q)).

(** ** Arithmetic *)

Definition MoneyFromInt (n : Z) : Money := of_rat (inject_Z n).
Definition Add (m other : Money) : Money := of_rat (rat m + rat other).
Definition Sub (m other : Money) : Money := of_rat (rat m - rat other).
Definition Mul (m other : Money) : Money := of_rat (rat m * rat other).
Definition DivInt (m : Money) (divisor : Z) : res Money :=
  if divisor =? 0 then Fail (Msg "divide money by zero")
  else Ok (of_rat (rat m / inject_Z divisor)).
Definition Neg (m : Money) : Money := of_rat (- rat m).
Definition Cmp (m other : Money) : comparison := (rat m ?= rat other)%Q.
Definition IsZero (m : Money) : bool := match Cmp m MoneyZero with Eq => true | _ => false end.
Definition IsNegative (m : Money) : bool := match Cmp m MoneyZero with Lt => true | _ => false end.
Definition IsPositive (m : Money) : bool := match Cmp m MoneyZero with Gt => true | _ => false end.
(** [left.Cmp(right) <= 0], [left.Cmp(right) > 0] *)
Definition money_le (m other : Money) : bool := match Cmp m other with Gt => false | _ => true end.
Definition money_gt (m other : Money) : bool := negb (money_le m other).
Definition MinMoney (left right : Money) : Money := if money_le left right then left else right.

(** ** Parsing *)

(** [^[+-]?[0-9]+(?:\.[0-9]+)?$] and the exact value of a match *)
Definition parse_decimal (l : list ascii) : option Q :=
  let '(neg, body) := match l with
                      | c :: l' => if beq c "-" then (true, l')
                                   else if beq c "+" then (false, l') else (false, l)
                      | [] => (false, l)
                      end in
  let '(whole, frac, dot) := cut_byte "." body in
  if bool_decide (whole = []) || negb (forallb is_digit whole) then None else
  if dot && (bool_decide (frac = []) || negb (forallb is_digit frac)) then None else
  let v := digits_value (whole ++ frac) in
  Some ((if (neg : bool) then - v else v) # Z.to_pos (10 ^ Z.of_nat (length frac)))%Q.

Definition ParseMoney (raw : string) : res Money :=
  match parse_decimal (trim_bytes (bytes raw)) with
  | None => Fail (Msg "invalid money %q")
  | Some q => Ok (of_rat q)
  end.

(** ** Formatting *)

(** [big.Rat.FloatString]: [prec] digits after the point, halves away from zero *)
Definition float_string (prec : nat) (x : Q) : list ascii :=
  let a := Z.abs (Qnum x) in let b := Z.pos (Qden x) in
  if b =? 1 then
    itoa (Qnum x) ++ (if bool_decide (prec = O) then [] else "."%char :: replicate prec "0"%char)
  else
    let q := a / b in let p := 10 ^ Z.of_nat prec in
    let rp := (a mod b) * p in
    let r := rp / b in let r2 := 2 * (rp mod b) in
    let '(q, r) := if b <=? r2
                   then (if p <=? r + 1 then (q + 1, r + 1 - p) else (q, r + 1))
                   else (q, r) in
    (if Qnum x <? 0 then ["-"%char] else []) ++ utoa q ++
    (if bool_decide (prec = O) then [] else "."%char :: pad_left "0" prec (utoa r)).

Definition Format (m : Money) (scale : Z) : string :=
  of_bytes (float_string (Z.to_nat (if scale <? 0 then 0 else scale)) (rat m)).

Definition Money_String (m : Money) : string :=
  let v := trim_right_byte "." (trim_right_byte "0" (bytes (Format m 10))) in
  if bool_decide (v = []) || bool_decide (v = bytes "-0") then "0"%string else of_bytes v.

(** The loops that divide the denominator by 2 and by 5 as long as they can *)
Fixpoint strip_factor (p : Z) (fuel : nat) (d : Z) (count : nat) : Z * nat :=
  match fuel with
  | O => (d, count)
  | S fuel' => if d mod p =? 0 then strip_factor p fuel' (d / p) (S count) else (d, count)
  end.

(** The digits with the point put [scale] places from the right, trailing zeros
    and a trailing point dropped *)
Definition decimal_text (digits : Z) (scale : nat) : list ascii :=
  let raw := utoa digits in
  if bool_decide (scale = O) then raw else
  let raw := if (length raw <=? scale)%nat
             then replicate (scale - length raw + 1) "0"%char ++ raw else raw in
  let raw := take (length raw - scale) raw ++ "."%char :: drop (length raw - scale) raw in
  trim_right_byte "." (trim_right_byte "0" raw).

Definition ExactDecimal (m : Money) : res string :=
  let x := rat m in
  let fuel := S (Z.to_nat (Z.log2 (Z.pos (Qden x)))) in
  let '(d2, two) := strip_factor 2 fuel (Z.pos (Qden x)) O in
  let '(d5, five) := strip_factor 5 fuel d2 O in
  if negb (d5 =? 1) then Fail (Msg "money has no exact finite decimal") else
  let scale := Nat.max two five in
  let digits := Z.abs (Qnum x) * 2 ^ Z.of_nat (scale - two) * 5 ^ Z.of_nat (scale - five) in
  let raw := decimal_text digits scale in
  if (Qnum x <? 0) && negb (bool_decide (raw = bytes "0"))
  then Ok (of_bytes ("-"%char :: raw)) else Ok (of_bytes raw).

(** ** Database values *)

Inductive ScanSource :=
| ScanNil | ScanString (s : string) | ScanBytes (b : list ascii) | ScanInt64 (n : Z) | ScanOther.

Definition Scan (source : ScanSource) : res Money :=
  match source with
  | ScanNil => Fail (Msg "scan money from NULL")
  | ScanString raw => ParseMoney raw
  | ScanBytes raw => ParseMoney (of_bytes raw)
  | ScanInt64 n => Ok (MoneyFromInt n)
  | ScanOther => Fail (Msg "scan money from %T")
  end.
Definition Value (m : Money) : string := Format m 10.

(** ** Equality by value, rewriting *)

Definition money_eq (m n : Money) : Prop := (rat m == rat n)%Q.
#[export] Instance money_eq_equiv : Equivalence money_eq.
Proof.
  split; unfold money_eq.
  - intros m. apply Qeq_refl.
  - intros m n H. by apply Qeq_sym.
  - intros m n o. apply Qeq_trans.
Qed.

Create Rewrite HintDb money.

Lemma rat_of_rat q : (rat (of_rat q) == q)%Q.
Proof. apply Qred_correct. Qed.
Lemma rat_zero : (rat MoneyZero == 0)%Q.
Proof. apply Qeq_refl. Qed.
Lemma rat_FromInt n : (rat (MoneyFromInt n) == inject_Z n)%Q.
Proof. apply rat_of_rat. Qed.
Lemma rat_Add m n : (rat (Add m n) == rat m + rat n)%Q.
Proof. apply rat_of_rat. Qed.
Lemma rat_Sub m n : (rat (Sub m n) == rat m - rat n)%Q.
Proof. apply rat_of_rat. Qed.
Lemma rat_Mul m n : (rat (Mul m n) == rat m * rat n)%Q.
Proof. apply rat_of_rat. Qed.
Lemma rat_Neg m : (rat (Neg m) == - rat m)%Q.
Proof. apply rat_of_rat. Qed.

Lemma IsZero_true m : IsZero m = true ↔ (rat m == 0)%Q.
Proof. unfold IsZero, Cmp. rewrite Qeq_alt. by destruct (rat m ?= _)%Q. Qed.
Lemma IsZero_false m : IsZero m = false ↔ ~ (rat m == 0)%Q.
Proof. rewrite <- IsZero_true. by destruct (IsZero m). Qed.
Lemma IsNegative_true m : IsNegative m = true ↔ (rat m < 0)%Q.
Proof. unfold IsNegative, Cmp. rewrite Qlt_alt. by destruct (rat m ?= _)%Q. Qed.
Lemma IsNegative_false m : IsNegative m = false ↔ (0 <= rat m)%Q.
Proof.
  split.
  - intros H. apply Qnot_lt_le. rewrite <- IsNegative_true. by rewrite H.
  - intros H. apply not_true_is_false. rewrite IsNegative_true. lra.
Qed.
Lemma IsPositive_true m : IsPositive m = true ↔ (0 < rat m)%Q.
Proof. unfold IsPositive, Cmp. rewrite Qgt_alt. by destruct (rat m ?= _)%Q. Qed.
Lemma IsPositive_false m : IsPositive m = false ↔ (rat m <= 0)%Q.
Proof.
  split.
  - intros H. apply Qnot_lt_le. rewrite <- IsPositive_true. by rewrite H.
  - intros H. apply not_true_is_false. rewrite IsPositive_true. lra.
Qed.
Lemma money_le_true m n : money_le m n = true ↔ (rat m <= rat n)%Q.
Proof. unfold money_le, Cmp. rewrite Qle_alt. by destruct (rat m ?= _)%Q. Qed.
Lemma money_le_false m n : money_le m n = false ↔ (rat n < rat m)%Q.
Proof.
  split.
  - intros H. apply Qnot_le_lt. rewrite <- money_le_true. by rewrite H.
  - intros H. apply not_true_is_false. rewrite money_le_true. lra.
Qed.
Lemma money_gt_true m n : money_gt m n = true ↔ (rat n < rat m)%Q.
Proof. unfold money_gt. rewrite negb_true_iff. apply money_le_false. Qed.
Lemma money_gt_false m n : money_gt m n = false ↔ (rat m <= rat n)%Q.
Proof. unfold money_gt. rewrite negb_false_iff. apply money_le_true. Qed.

Lemma MinMoney_spec m n :
  (rat m <= rat n ∧ MinMoney m n = m)%Q ∨ (rat n < rat m ∧ MinMoney m n = n)%Q.
Proof.
  unfold MinMoney. destruct (money_le m n) eqn:E;
    [apply money_le_true in E|apply money_le_false in E]; auto.
Qed.

Lemma DivInt_Ok m d q :
  DivInt m d = Ok q → d ≠ 0 ∧ (rat q == rat m / inject_Z d)%Q.
Proof.
  unfold DivInt. destruct (Z.eqb_spec d 0); [done|]. intros [= <-].
  split; [done|]. apply rat_of_rat.
Qed.
Lemma DivInt_nonzero m d : d ≠ 0 → DivInt m d = Ok (of_rat (rat m / inject_Z d)).
Proof. unfold DivInt. by destruct (Z.eqb_spec d 0). Qed.

#[export] Hint Rewrite IsZero_true IsZero_false IsNegative_true IsNegative_false
  IsPositive_true IsPositive_false money_le_true money_le_false
  money_gt_true money_gt_false : money.
#[export] Hint Rewrite rat_zero rat_FromInt rat_Add rat_Sub rat_Mul rat_Neg : money.

(** Linear facts about amounts *)
Ltac to_rat := unfold money_eq in *; autorewrite with thor_bool money in *.
Ltac money := to_rat; lra.

#[export] Instance Add_proper : Proper (money_eq ==> money_eq ==> money_eq) Add.
Proof. intros m m' Hm n n' Hn. money. Qed.
#[export] Instance Sub_proper : Proper (money_eq ==> money_eq ==> money_eq) Sub.
Proof. intros m m' Hm n n' Hn. money. Qed.
#[export] Instance Mul_proper : Proper (money_eq ==> money_eq ==> money_eq) Mul.
Proof. intros m m' Hm n n' Hn. to_rat. by rewrite Hm, Hn. Qed.
#[export] Instance MinMoney_proper : Proper (money_eq ==> money_eq ==> money_eq) MinMoney.
Proof.
  intros m m' Hm n n' Hn. unfold money_eq in *.
  destruct (MinMoney_spec m n) as [[? ->]|[? ->]],
    (MinMoney_spec m' n') as [[? ->]|[? ->]]; lra.
Qed.
#[export] Instance IsNegative_proper : Proper (money_eq ==> eq) IsNegative.
Proof. intros m m' Hm. apply eq_true_iff_eq. money. Qed.
#[export] Instance IsZero_proper : Proper (money_eq ==> eq) IsZero.
Proof. intros m m' Hm. apply eq_true_iff_eq. money. Qed.
#[export] Instance money_le_proper : Proper (money_eq ==> money_eq ==> eq) money_le.
Proof. intros m m' Hm n n' Hn. apply eq_true_iff_eq. money. Qed.

(** ** Facts on formatting and parsing *)

Definition signed (neg : bool) (v : Z) : Z := if neg then - v else v.
Definition sign_bytes (neg : bool) : list ascii := if neg then ["-"%char] else [].

(** What [ParseMoney] reads in a sign, whole digits and fraction digits *)
Lemma parse_decimal_digits neg whole frac :
  forallb is_digit whole = true → whole ≠ [] → forallb is_digit frac = true →
  let s := sign_bytes neg ++ whole ++ (if bool_decide (frac = []) then [] else "."%char :: frac) in
  trim_bytes s = s ∧
  parse_decimal s = Some (signed neg (digits_value (whole ++ frac)) #
                          Z.to_pos (10 ^ Z.of_nat (length frac)))%Q.
Proof.
  intros Hw Hne Hf s.
  assert (forallb plain s = true) as Hplain.
  { subst s. rewrite !forallb_app, (forallb_digit_plain whole) by done.
    destruct neg; destruct (bool_decide (frac = [])); simpl;
      rewrite ?(forallb_digit_plain frac) by done; done. }
  split; [by apply trim_bytes_plain|].
  set (body := whole ++ if bool_decide (frac = []) then [] else "."%char :: frac) in *.
  assert (∃ c rest, body = c :: rest ∧ is_digit c = true) as (c & rest & Hb & Hc).
  { subst body. destruct whole as [|c w]; [done|]. simpl in Hw. to_prop.
    exists c, (w ++ if bool_decide (frac = []) then [] else "."%char :: frac).
    split; [done|tauto]. }
  assert (cut_byte "." body = (whole, frac, negb (bool_decide (frac = [])))) as Hcut.
  { subst body. pose proof (mem_byte_digits "." whole eq_refl Hw) as Hm.
    destruct (bool_decide (frac = [])) eqn:E.
    - apply bool_decide_eq_true in E. subst. rewrite app_nil_r. by rewrite cut_byte_absent.
    - by apply cut_byte_found. }
  assert ((let '(neg0, b0) := match s with
            | c0 :: l' => if beq c0 "-" then (true, l')
                          else if beq c0 "+" then (false, l') else (false, s)
            | [] => (false, s) end in (neg0, b0)) = (neg, body)) as Hsign.
  { subst s. destruct neg; simpl; [done|]. rewrite Hb.
    assert (beq c "-" = false ∧ beq c "+" = false) as [-> ->]; [|done].
    split; apply beq_neq; intros ->; by vm_compute in Hc. }
  unfold parse_decimal. destruct (match s with [] => _ | _ => _ end) as [neg0 b0].
  injection Hsign as -> ->. rewrite Hcut, Hw, Hf.
  rewrite bool_decide_false by done. simpl.
  destruct (bool_decide (frac = [])); done.
Qed.

(** The digits [FloatString] prints, for integers and fractions alike *)
Definition rounded (prec : nat) (x : Q) : Z :=
  (2 * Z.abs (Qnum x) * 10 ^ Z.of_nat prec + Z.pos (Qden x)) / (2 * Z.pos (Qden x)).

Lemma float_string_shape prec x :
  ∃ q r, 0 ≤ q ∧ 0 ≤ r < 10 ^ Z.of_nat prec ∧
    q * 10 ^ Z.of_nat prec + r = rounded prec x ∧
    float_string prec x = sign_bytes (Qnum x <? 0) ++ utoa q ++
      (if bool_decide (prec = O) then [] else "."%char :: pad_left "0" prec (utoa r)).
Proof.
  unfold float_string, rounded. set (p := 10 ^ Z.of_nat prec).
  assert (0 < p) as Hp by (apply Z.pow_pos_nonneg; lia).
  destruct (Z.eqb_spec (Z.pos (Qden x)) 1) as [Hb|Hb].
  - exists (Z.abs (Qnum x)), 0. rewrite Hb. split; [lia|]. split; [lia|]. split.
    { apply (Z.div_unique _ _ _ 1); lia. }
    unfold itoa. destruct (Z.ltb_spec (Qnum x) 0).
    + replace (- Qnum x) with (Z.abs (Qnum x)) by lia. simpl. do 2 f_equal.
      destruct prec as [|k]; [done|]. simpl. f_equal. unfold pad_left. simpl.
      rewrite Nat.sub_0_r. apply replicate_cons_app.
    + replace (Qnum x) with (Z.abs (Qnum x)) at 1 by lia. simpl. f_equal.
      destruct prec as [|k]; [done|]. simpl. f_equal. unfold pad_left. simpl.
      rewrite Nat.sub_0_r. apply replicate_cons_app.
  - set (a := Z.abs (Qnum x)). set (b := Z.pos (Qden x)) in *.
    assert (0 < b) as Hb' by (subst b; lia). assert (0 ≤ a) as Ha by (subst a; lia).
    pose proof (Z.div_mod a b ltac:(lia)) as Hdiv.
    pose proof (Z.mod_pos_bound a b Hb') as Hmod.
    pose proof (Z.div_pos a b Ha Hb').
    set (rp := (a mod b) * p) in *.
    pose proof (Z.div_mod rp b ltac:(lia)) as Hdiv2.
    pose proof (Z.mod_pos_bound rp b Hb') as Hmod2.
    assert (0 ≤ rp / b < p).
    { split; [apply Z.div_pos; subst rp; nia|apply Z.div_lt_upper_bound; subst rp; nia]. }
    set (q0 := a / b) in *. set (r0 := rp / b) in *. set (s := rp mod b) in *.
    assert (a * p = (q0 * p + r0) * b + s) as Htot by (subst rp; nia).
    assert ((2 * a * p + b) / (2 * b) = q0 * p + r0 + (if b <=? 2 * s then 1 else 0)) as ->.
    { symmetry. destruct (Z.leb_spec b (2 * s)).
      - apply (Z.div_unique _ _ _ (2 * s - b)); nia.
      - apply (Z.div_unique _ _ _ (2 * s + b)); nia. }
    clearbody s r0 q0.
    destruct (b <=? 2 * s); [destruct (Z.leb_spec p (r0 + 1))|].
    + exists (q0 + 1), (r0 + 1 - p). split_and!; [lia..|]. done.
    + exists q0, (r0 + 1). split_and!; [lia..|]. done.
    + exists q0, r0. split_and!; [lia..|]. done.
Qed.

Lemma rounded_error prec x :
  (Qabs ((rounded prec x # Z.to_pos (10 ^ Z.of_nat prec)) - Qabs x) <=
   1 # Z.to_pos (2 * 10 ^ Z.of_nat prec))%Q.
Proof.
  unfold rounded. destruct x as [n d]. simpl Qabs at 2. cbn [Qnum Qden].
  set (p := 10 ^ Z.of_nat prec).
  assert (0 < p) as Hp by (apply Z.pow_pos_nonneg; lia).
  set (t := 2 * Z.abs n * p + Z.pos d).
  pose proof (Z.div_mod t (2 * Z.pos d) ltac:(lia)) as Hdiv.
  pose proof (Z.mod_pos_bound t (2 * Z.pos d) ltac:(lia)) as Hmod.
  set (v := t / (2 * Z.pos d)) in *. clearbody v.
  apply Qabs_case; intros _; unfold Qle, Qminus, Qplus, Qopp; cbn [Qnum Qden];
    rewrite ?Pos2Z.inj_mul, !Z2Pos.id by lia; subst t; nia.
Qed.

Lemma Format_parses m scale :
  0 ≤ scale →
  ∃ r, ParseMoney (Format m scale) = Ok r ∧
    (rat r == signed (Qnum (rat m) <? 0)%Z (rounded (Z.to_nat scale) (rat m)) #
              Z.to_pos (10 ^ scale))%Q.
Proof.
  intros Hs. unfold ParseMoney, Format. rewrite bytes_of_bytes.
  destruct (Z.ltb_spec scale 0); [lia|].
  destruct (float_string_shape (Z.to_nat scale) (rat m)) as (q & r & Hq & Hr & Hqr & ->).
  set (frac := if bool_decide (Z.to_nat scale = O) then [] else pad_left "0" (Z.to_nat scale) (utoa r)).
  assert (length frac = Z.to_nat scale) as Hlen.
  { subst frac. destruct (Z.to_nat scale) as [|k] eqn:E; [done|].
    rewrite bool_decide_false by done.
    rewrite length_pad. pose proof (utoa_length r k Hr). lia. }
  assert (forallb is_digit frac = true) as Hfd.
  { subst frac. case_bool_decide; [done|]. apply pad_digits, utoa_digits. lia. }
  assert (digits_value frac = r) as Hfv.
  { subst frac. case_bool_decide as E.
    - rewrite E in Hr. simpl in Hr. unfold digits_value. simpl. lia.
    - rewrite digits_value_pad, utoa_value; lia. }
  assert ((if bool_decide (Z.to_nat scale = 0%nat) then []
           else "."%char :: pad_left "0" (Z.to_nat scale) (utoa r)) =
          (if bool_decide (frac = []) then [] else "."%char :: frac)) as ->.
  { subst frac. destruct (bool_decide (Z.to_nat scale = 0%nat)) eqn:E; [done|].
    rewrite bool_decide_false; [done|]. intros E0.
    rewrite E0 in Hlen. apply bool_decide_eq_false in E. simpl in Hlen. lia. }
  destruct (parse_decimal_digits (Qnum (rat m) <? 0)%Z (utoa q) frac) as [-> ->];
    [by apply utoa_digits|by apply utoa_nonempty|done|].
  eexists. split; [done|]. rewrite rat_of_rat.
  rewrite digits_value_app, utoa_value, Hfv, Hlen, Hqr by done.
  by rewrite Z2Nat.id.
Qed.

(** ** Exact decimals *)

Lemma forallb_take_drop n l :
  forallb is_digit l = true →
  forallb is_digit (take n l) = true ∧ forallb is_digit (drop n l) = true.
Proof. rewrite <- (take_drop n l) at 1. rewrite forallb_app. by intros []%andb_true_iff. Qed.

Lemma digit_last_not c l a :
  is_digit c = false → forallb is_digit (l ++ [a]) = true → a ≠ c.
Proof.
  rewrite forallb_app. simpl. intros Hc [_ Ha]%andb_true_iff. to_prop in Ha.
  destruct Ha as [Ha _]. congruence.
Qed.

Lemma decimal_point_trimmed whole frac :
  forallb is_digit whole = true → whole ≠ [] → forallb is_digit frac = true →
  ∃ frac' k, frac = frac' ++ replicate k "0"%char ∧
    trim_right_byte "." (trim_right_byte "0" (whole ++ "."%char :: frac)) =
    whole ++ (if bool_decide (frac' = []) then [] else "."%char :: frac').
Proof.
  intros Hw Hne Hf.
  destruct (trim_right_byte_spec "0" frac) as (k & Hk & Hlast).
  exists (trim_right_byte "0" frac), k. split; [done|].
  rewrite Hk at 1. rewrite app_comm_cons, app_assoc, trim_right_byte_app.
  destruct Hlast as [->|(l' & a & E & Ha)].
  - rewrite trim_right_byte_last by done.
    change (whole ++ ["."%char]) with (whole ++ replicate 1 "."%char).
    rewrite trim_right_byte_app.
    rewrite bool_decide_true by done. rewrite app_nil_r.
    destruct whole as [|w a] using rev_ind; [done|].
    apply trim_right_byte_last. by eapply digit_last_not.
  - rewrite E in *. rewrite bool_decide_false by (by destruct l').
    rewrite app_comm_cons, app_assoc. rewrite trim_right_byte_last by done.
    apply trim_right_byte_last.
    apply (digit_last_not _ l'); [done|].
    rewrite Hk, forallb_app in Hf. by apply andb_true_iff in Hf as [Hf _].
Qed.

Lemma decimal_text_shape digits scale :
  0 ≤ digits →
  ∃ whole frac, forallb is_digit whole = true ∧ whole ≠ [] ∧ forallb is_digit frac = true ∧
    decimal_text digits scale = whole ++ (if bool_decide (frac = []) then [] else "."%char :: frac) ∧
    digits_value (whole ++ frac) * 10 ^ Z.of_nat scale = digits * 10 ^ Z.of_nat (length frac).
Proof.
  intros Hd. unfold decimal_text. case_bool_decide as Hs.
  { exists (utoa digits), []. rewrite Hs. simpl. rewrite !app_nil_r.
    split_and!; [by apply utoa_digits|by apply utoa_nonempty|done|done|].
    rewrite utoa_value by done. lia. }
  set (raw := if (length (utoa digits) <=? scale)%nat
              then replicate (scale - length (utoa digits) + 1) "0"%char ++ utoa digits
              else utoa digits).
  assert (forallb is_digit raw = true ∧ digits_value raw = digits ∧ (scale < length raw)%nat)
    as (Hraw & Hval & Hlen).
  { subst raw. destruct (Nat.leb_spec (length (utoa digits)) scale) as [Hl|Hl].
    - rewrite length_app, length_replicate, forallb_app, utoa_digits, andb_true_r by done.
      split_and!.
      + by rewrite zeros_digits.
      + pose proof (digits_value_pad (scale + 1) (utoa digits)) as Hpad.
        rewrite utoa_value in Hpad by done. unfold pad_left in Hpad.
        by replace (scale + 1 - length (utoa digits))%nat
          with (scale - length (utoa digits) + 1)%nat in Hpad by lia.
      + lia.
    - split_and!; [by apply utoa_digits|by apply utoa_value|lia]. }
  clearbody raw.
  destruct (forallb_take_drop (length raw - scale) raw Hraw) as [Htake Hdrop].
  assert (take (length raw - scale) raw ≠ []) as Hne.
  { intros E. apply (f_equal length) in E. rewrite length_take in E. simpl in E. lia. }
  destruct (decimal_point_trimmed _ _ Htake Hne Hdrop) as (frac & k & Hfrac & ->).
  exists (take (length raw - scale) raw), frac. split_and!; [done|done| |done|].
  { rewrite Hfrac, forallb_app in Hdrop. by apply andb_true_iff in Hdrop as [Hdrop _]. }
  pose proof (f_equal length Hfrac) as Hlf.
  rewrite length_drop, length_app, length_replicate in Hlf.
  replace scale with (length frac + k)%nat at 2 by lia.
  rewrite Nat2Z.inj_add, Z.pow_add_r by lia.
  assert (digits_value (take (length raw - scale) raw ++ frac) * 10 ^ Z.of_nat k = digits) as <-; [|lia].
  rewrite <- digits_value_zeros, <- app_assoc, <- Hfrac, take_drop. done.
Qed.

Lemma strip_factor_spec p fuel d c :
  1 < p → 0 < d →
  ∃ d' k, strip_factor p fuel d c = (d', (c + k)%nat) ∧ 0 < d' ∧ d = d' * p ^ Z.of_nat k ∧
    (d < 2 ^ Z.of_nat fuel → d' mod p ≠ 0).
Proof.
  intros Hp. revert d c. induction fuel as [|fuel IH]; intros d c Hd; cbn [strip_factor].
  { exists d, O. rewrite Nat.add_0_r. split_and!; [done|done|simpl; lia|]. simpl. lia. }
  destruct (Z.eqb_spec (d mod p) 0) as [Hm|Hm].
  - assert (d = p * (d / p)) as Hdp by (apply Z.div_exact; lia).
    destruct (IH (d / p) (S c)) as (d' & k & -> & Hd' & Hk & Hfuel); [nia|].
    exists d', (S k). rewrite Nat2Z.inj_succ, Z.pow_succ_r by lia.
    split_and!; [f_equal; lia|done|nia|].
    intros Hlt. apply Hfuel. rewrite Nat2Z.inj_succ, Z.pow_succ_r in Hlt by lia. nia.
  - exists d, O. rewrite Nat.add_0_r. split_and!; [done|done|simpl; lia|done].
Qed.

(** The denominator is [d5 * 2^two * 5^five], with [d5] prime to ten. *)
Lemma denominator_split (d : Z) :
  0 < d →
  let fuel := S (Z.to_nat (Z.log2 d)) in
  ∃ d2 d5 two five, strip_factor 2 fuel d O = (d2, two) ∧ strip_factor 5 fuel d2 O = (d5, five) ∧
    0 < d5 ∧ d = d5 * 5 ^ Z.of_nat five * 2 ^ Z.of_nat two ∧ d5 mod 2 ≠ 0 ∧ d5 mod 5 ≠ 0.
Proof.
  intros Hd fuel.
  assert (d < 2 ^ Z.of_nat fuel) as Hfuel.
  { subst fuel. pose proof (Z.log2_nonneg d). rewrite Nat2Z.inj_succ, Z2Nat.id by done.
    by apply Z.log2_spec. }
  destruct (strip_factor_spec 2 fuel d O) as (d2 & two & H2 & Hd2 & HdE & Hm2); [lia|done|].
  assert (d2 ≤ d) by (pose proof (Z.pow_pos_nonneg 2 (Z.of_nat two)); nia).
  destruct (strip_factor_spec 5 fuel d2 O) as (d5 & five & H5 & Hd5 & Hd2' & Hm5); [lia|done|].
  exists d2, d5, two, five. split_and!; [done|done|done|nia| |apply Hm5; lia].
  intros E. apply (Hm2 Hfuel). rewrite Hd2'. rewrite Z.mul_mod by lia. by rewrite E.
Qed.

Lemma coprime_ten d : d mod 2 ≠ 0 → d mod 5 ≠ 0 → Z.gcd d 10 = 1.
Proof.
  intros H2 H5.
  pose proof (Z.gcd_nonneg d 10) as Hg0.
  destruct (Z.gcd_divide_l d 10) as [x Hx]. destruct (Z.gcd_divide_r d 10) as [y Hy].
  set (g := Z.gcd d 10) in *. clearbody g.
  assert (g ≤ 10) by (apply Z.divide_pos_le; [lia|by exists y]).
  assert (g = 0 ∨ g = 1 ∨ g = 2 ∨ g = 3 ∨ g = 4 ∨ g = 5 ∨ g = 6 ∨ g = 7 ∨ g = 8 ∨
          g = 9 ∨ g = 10) as Hc by lia.
  repeat destruct Hc as [->|Hc]; try subst g; try lia; exfalso; subst d; dlia.
Qed.

Lemma prime_to_ten_power d (k : nat) :
  0 < d → d mod 2 ≠ 0 → d mod 5 ≠ 0 → (d | 10 ^ Z.of_nat k) → d = 1.
Proof.
  intros Hd H2 H5. induction k as [|k IH]; intros Hdiv.
  - by apply Z.divide_1_r_nonneg; [lia|].
  - rewrite Nat2Z.inj_succ, Z.pow_succ_r in Hdiv by lia.
    apply IH. eapply Z.gauss; [exact Hdiv|]. by apply coprime_ten.
Qed.

(** Amounts built by the operations are in lowest terms. *)
Definition canonical (m : Money) : Prop := Qred (rat m) = rat m.
Lemma canonical_of_rat q : canonical (of_rat q).
Proof. unfold canonical, of_rat. simpl. apply Qred_complete, Qred_correct. Qed.
Lemma canonical_zero : canonical MoneyZero.
Proof. done. Qed.
Lemma canonical_ParseMoney raw m : ParseMoney raw = Ok m → canonical m.
Proof.
  unfold ParseMoney. destruct (parse_decimal _); [|done].
  intros [= <-]. apply canonical_of_rat.
Qed.
#[export] Hint Resolve canonical_of_rat canonical_zero canonical_ParseMoney : thor.

Lemma canonical_gcd m : canonical m → Z.gcd (Qnum (rat m)) (Z.pos (Qden (rat m))) = 1.
Proof.
  intros H. unfold canonical in H.
  destruct (rat m) as [n d]. unfold Qred in H. cbn [Qnum Qden] in *.
  pose proof (Z.ggcd_gcd n (Z.pos d)) as Hg.
  pose proof (Z.ggcd_correct_divisors n (Z.pos d)) as Hc.
  destruct (Z.ggcd n (Z.pos d)) as [g [a b]]. simpl in *. injection H as H1 H2. destruct Hc as [Hc1 Hc2].
  rewrite <- Hg. assert (0 ≤ g) by (rewrite Hg; apply Z.gcd_nonneg).
  assert (b = Z.pos d) as -> by (destruct b; simpl in H2; nia). nia.
Qed.

(** [10^scale] is a multiple of the denominator, so a decimal value is exact. *)
Lemma exact_value n (d two five scale : nat) (dz : Z) :
  dz = 5 ^ Z.of_nat five * 2 ^ Z.of_nat two → (two ≤ scale)%nat → (five ≤ scale)%nat →
  n * 10 ^ Z.of_nat scale =
  n * 2 ^ Z.of_nat (scale - two) * 5 ^ Z.of_nat (scale - five) * dz.
Proof.
  intros -> H2 H5. change 10 with (2 * 5). rewrite Z.pow_mul_l.
  rewrite !Nat2Z.inj_sub by done.
  replace (2 ^ Z.of_nat scale) with (2 ^ (Z.of_nat scale - Z.of_nat two) * 2 ^ Z.of_nat two)
    by (rewrite <- Z.pow_add_r by lia; f_equal; lia).
  replace (5 ^ Z.of_nat scale) with (5 ^ (Z.of_nat scale - Z.of_nat five) * 5 ^ Z.of_nat five)
    by (rewrite <- Z.pow_add_r by lia; f_equal; lia).
  ring.
Qed.

Lemma ExactDecimal_parses m s :
  ExactDecimal m = Ok s → ∃ r, ParseMoney s = Ok r ∧ money_eq r m.
Proof.
  unfold ExactDecimal, money_eq. set (x := rat m).
  destruct (denominator_split (Z.pos (Qden x))) as
    (d2 & d5 & two & five & -> & -> & Hd5 & Hden & _ & _); [lia|].
  destruct (Z.eqb_spec d5 1) as [->|]; [|done]. simpl negb. cbv iota zeta.
  rewrite Z.mul_1_l in Hden. set (scale := Nat.max two five).
  pose proof (exact_value (Z.abs (Qnum x)) O two five scale _ Hden ltac:(lia) ltac:(lia)) as Hex.
  set (digits := Z.abs (Qnum x) * 2 ^ Z.of_nat (scale - two) * 5 ^ Z.of_nat (scale - five)) in *.
  assert (0 ≤ digits) as Hpos.
  { subst digits. repeat apply Z.mul_nonneg_nonneg; try lia; apply Z.pow_nonneg; lia. }
  destruct (decimal_text_shape digits scale Hpos) as (whole & frac & Hw & Hne & Hf & Htext & Hval).
  assert (∀ neg, signed neg (Z.abs (Qnum x)) = Qnum x → ∃ r,
    ParseMoney (of_bytes (sign_bytes neg ++ decimal_text digits scale)) = Ok r ∧ (rat r == x)%Q) as Hgo.
  { intros neg Hneg. unfold ParseMoney. rewrite bytes_of_bytes, Htext.
    destruct (parse_decimal_digits neg whole frac Hw Hne Hf) as [-> ->].
    eexists. split; [done|]. rewrite rat_of_rat. destruct x as [n d]. cbn [Qnum Qden] in *.
    assert (0 < 10 ^ Z.of_nat (length frac)) by (apply Z.pow_pos_nonneg; lia).
    assert (0 < 10 ^ Z.of_nat scale) by (apply Z.pow_pos_nonneg; lia).
    unfold Qeq. cbn [Qnum Qden]. rewrite Z2Pos.id by done.
    assert (digits_value (whole ++ frac) * Z.pos d = Z.abs n * 10 ^ Z.of_nat (length frac)) as Hfin.
    { apply (Z.mul_reg_r _ _ (10 ^ Z.of_nat scale)); [lia|].
      transitivity (digits_value (whole ++ frac) * 10 ^ Z.of_nat scale * Z.pos d); [ring|].
      rewrite Hval. transitivity (Z.abs n * 10 ^ Z.of_nat scale * 10 ^ Z.of_nat (length frac)); [|ring].
      rewrite Hex. ring. }
    rewrite <- Hneg. destruct neg; unfold signed; [|lia].
    transitivity (- (digits_value (whole ++ frac) * Z.pos d)); [ring|]. rewrite Hfin. ring. }
  destruct (Z.ltb_spec (Qnum x) 0) as [Hlt|Hge]; cbn [andb]; intros Hs.
  - match type of Hs with context [bool_decide ?P] => destruct (decide P) as [E|E] end;
      [rewrite bool_decide_eq_true_2 in Hs by done|rewrite bool_decide_eq_false_2 in Hs by done];
      cbn [negb] in Hs; apply Ok_inj in Hs as <-.
    + exfalso.
      assert (0 < 2 ^ Z.of_nat (scale - two)) by (apply Z.pow_pos_nonneg; lia).
      assert (0 < 5 ^ Z.of_nat (scale - five)) by (apply Z.pow_pos_nonneg; lia).
      assert (0 < digits) by (subst digits; repeat apply Z.mul_pos_pos; lia).
      cut (digits = 0); [lia|]. rename E into E'. rewrite Htext in E'. destruct whole as [|c [|c' w]]; [done| |by destruct frac].
      destruct frac as [|f frac]; [|by case_bool_decide].
      injection E' as ->. change (digit_value "0") with 0 in Hval || change (digits_value (["0"%char] ++ [])) with 0 in Hval.
      change (10 ^ Z.of_nat (length [])) with 1 in Hval. lia.
    + apply (Hgo true). simpl. lia.
  - apply Ok_inj in Hs as <-. apply (Hgo false). simpl. lia.
Qed.

Lemma ExactDecimal_total m (z : Z) (k : nat) :
  canonical m → (rat m == z # Z.to_pos (10 ^ Z.of_nat k))%Q → is_ok (ExactDecimal m) = true.
Proof.
  intros Hc Heq. pose proof (canonical_gcd m Hc) as Hg. unfold ExactDecimal. set (x := rat m) in *.
  destruct (denominator_split (Z.pos (Qden x))) as
    (d2 & d5 & two & five & -> & -> & Hd5 & Hden & Hm2 & Hm5); [lia|].
  assert (d5 = 1) as ->.
  { apply (prime_to_ten_power d5 k); [done..|].
    apply (Z.divide_trans _ (Z.pos (Qden x))).
    { rewrite Hden. rewrite <- Z.mul_assoc. apply Z.divide_factor_l. }
    apply (Z.gauss _ (Qnum x)); [|by rewrite Z.gcd_comm].
    unfold Qeq in Heq. cbn [Qnum Qden] in Heq.
    rewrite Z2Pos.id in Heq by (apply Z.pow_pos_nonneg; lia).
    exists z. lia. }
  simpl. by destruct (_ && _).
Qed.

Lemma signed_error n (x : Q) (p : positive) :
  (Qabs ((n # p) - Qabs x) == Qabs ((signed (Qnum x <? 0) n # p) - x))%Q.
Proof.
  destruct x as [a b]. cbn [Qnum]. destruct (Z.ltb_spec a 0) as [Ha|Ha]; simpl signed.
  - rewrite <- (Qabs_opp ((- n # p) - (a # b))). rewrite (Qabs_neg (a # b)) by (unfold Qle; simpl; lia).
    apply Qabs_wd. unfold Qeq. simpl. ring.
  - by rewrite (Qabs_pos (a # b)) by (unfold Qle; simpl; lia).
Qed.

Lemma ParseMoney_decimal s r :
  ParseMoney s = Ok r → ∃ z k, (rat r == z # Z.to_pos (10 ^ Z.of_nat k))%Q.
Proof.
  unfold ParseMoney. destruct (parse_decimal _) as [q|] eqn:E; [|done]. intros [= <-].
  unfold parse_decimal in E.
  destruct (match trim_bytes (bytes s) with [] => _ | _ => _ end) as [neg body].
  destruct (cut_byte _ _) as [[whole frac] dot].
  destruct (_ || _); [done|]. destruct (_ && _); [done|]. injection E as <-.
  eexists _, (length frac). by rewrite rat_of_rat.
Qed.

(** Rounding is monotone on amounts that are not negative. *)
Lemma rounded_mono prec x y : (0 <= x)%Q → (x <= y)%Q → rounded prec x ≤ rounded prec y.
Proof.
  destruct x as [a b], y as [c d]. unfold Qle, rounded. cbn [Qnum Qden]. intros Hx Hxy.
  set (p := 10 ^ Z.of_nat prec). assert (0 < p) as Hp by (apply Z.pow_pos_nonneg; lia).
  assert (0 ≤ a) as Ha by lia. assert (0 ≤ c) as Hc by nia.
  rewrite !Z.abs_eq by done. apply Z.div_le_lower_bound; [lia|].
  set (q := (2 * a * p + Z.pos b) / (2 * Z.pos b)).
  assert (2 * Z.pos b * q ≤ 2 * a * p + Z.pos b) as Hq by (apply Z.mul_div_le; lia).
  assert (Z.pos b * (2 * Z.pos d * q) ≤ Z.pos b * (2 * c * p + Z.pos d)); [|nia].
  transitivity (Z.pos d * (2 * a * p + Z.pos b)); [nia|].
  assert (a * Z.pos d * p ≤ c * Z.pos b * p) by (apply Z.mul_le_mono_nonneg_r; lia). nia.
Qed.

Lemma rounded_nonneg prec x : 0 ≤ rounded prec x.
Proof. unfold rounded. apply Z.div_pos; [|lia]. pose proof (Z.pow_nonneg 10 (Z.of_nat prec)). lia. Qed.

(** ** Properties *)

(** The database and report texts of an amount are faithful.  [Format] (and
    hence the [driver.Valuer]'s ten-digit text) is always a text that
    [ParseMoney] accepts, and what it parses to is within half a unit of the
    last printed digit of the amount. *)
Theorem Format_roundtrip m scale :
  0 ≤ scale →
  ∃ r, ParseMoney (Format m scale) = Ok r ∧
    (Qabs (rat r - rat m) <= 1 # Z.to_pos (2 * 10 ^ scale))%Q.
Proof.
  intros Hs. destruct (Format_parses m scale Hs) as (r & Hr & Heq).
  exists r. split; [done|].
  pose proof (rounded_error (Z.to_nat scale) (rat m)) as Herr. rewrite Z2Nat.id in Herr by done.
  rewrite Heq. rewrite signed_error in Herr. exact Herr.
Qed.
Lemma Format_roundtrip_witness :
  let m := of_rat (-1 # 3) in
  Format m 2 = "-0.33"%string ∧
  ∃ r, ParseMoney (Format m 2) = Ok r ∧
    (Qabs (rat r - rat m) <= 1 # Z.to_pos (2 * 10 ^ 2))%Q.
Proof. split; [vm_compute; reflexivity|]. apply (Format_roundtrip (of_rat (-1 # 3)) 2). lia. Defined.

(** [ExactDecimal] answers exactly when the amount is a finite decimal,
    and its text then parses back to the very amount. *)
Theorem ExactDecimal_exact m :
  canonical m →
  ((∃ s, ExactDecimal m = Ok s) ↔ ∃ z k, (rat m == z # Z.to_pos (10 ^ Z.of_nat k))%Q) ∧
  (∀ s, ExactDecimal m = Ok s → ∃ r, ParseMoney s = Ok r ∧ money_eq r m).
Proof.
  intros Hc. split; [split|apply ExactDecimal_parses].
  - intros [s Hs]. destruct (ExactDecimal_parses m s Hs) as (r & Hr & Heq).
    destruct (ParseMoney_decimal s r Hr) as (z & k & Hz). exists z, k. unfold money_eq in Heq. by rewrite <- Heq, Hz.
  - intros (z & k & Hz). apply is_ok_true. by eapply ExactDecimal_total.
Qed.
Lemma ExactDecimal_exact_witness :
  canonical (of_rat (-1 # 8)) ∧ ExactDecimal (of_rat (-1 # 8)) = Ok "-0.125"%string ∧
  ((∃ s, ExactDecimal (of_rat (-1 # 8)) = Ok s) ↔
   ∃ z k, (rat (of_rat (-1 # 8)) == z # Z.to_pos (10 ^ Z.of_nat k))%Q).
Proof.
  split; [reflexivity|]. split; [vm_compute; reflexivity|].
  apply (ExactDecimal_exact (of_rat (-1 # 8))). reflexivity.
Defined.
