(* ===== verification/LoanModel.v ===== *)
(** [internal/loan/model.go]: the data that the loan components exchange.  Go
    [int] and [int64] fields are [Z]; a [*time.Time] is an [option]. *)
From stdpp Require Import base list strings.
From Stdlib Require Import ZArith.
From S2P Require Import Prelude GoErrors GoTime Dates Money.
Local Open Scope Z_scope.

Inductive PositionSource : Set :=
| SourceMSO | SourceDWH | SourceTodaySnapshot | SourceReconstructed | SourceClosed.
#[export] Instance PositionSource_eq_dec : EqDecision PositionSource.
Proof. solve_decision. Defined.

(** The text of the constants of type [PositionSource] *)
Definition source_text (s : PositionSource) : string :=
  match s with
  | SourceMSO => "MSO"
  | SourceDWH => "DWH"
  | SourceTodaySnapshot => "current_snapshot"
  | SourceReconstructed => "reconstructed"
  | SourceClosed => "closed"
  end.

Record LoanPosition := {
  lp_AsOf : Date;
  lp_LoanStartDate : Date;
  lp_AccountNumber : string;
  lp_PrincipalOutstanding : Money;
  lp_PrincipalDue : Money;
  lp_InterestDue : Money;
  lp_PenaltyDue : Money;
  lp_CollectabilityBI : Z;
  lp_UnappliedAmount : Money;
  lp_Source : option PositionSource;
  lp_Branch : string;
  lp_Product : string;
  lp_CIF : string;
  lp_ContractNumber : string;
  lp_SourceUpdatedAt : option time
}.

Record OpeningLoanState := {
  op_AccountNumber : string;
  op_InterestType : string;
  op_PrincipalOutstanding : Money;
  op_PrincipalDue : Money;
  op_InterestDue : Money;
  op_PenaltyDue : Money;
  op_CollectabilityBI : Z
}.

Record CollectabilityPoint := { cp_Date : Date; cp_Value : Z }.

Record Repayment := {
  rp_Date : Date;
  rp_PrincipalComponent : Money;
  rp_InterestComponent : Money;
  rp_PenaltyComponent : Money;
  rp_EarlyPenaltyComponent : Money;
  rp_DWPComponent : Money;
  rp_TotalPayment : Money;
  rp_JournalNumber : string;
  rp_SourceOrder : Z
}.

Record ContractualInstallment := { ci_Number : Z; ci_DueDate : Date }.

Record ContractualInstallmentEvidence := {
  ev_Number : Z;
  ev_RawDueDate : string;
  ev_RawPaymentStatus : string
}.

Record ContractualScheduleRow := {
  row_Number : Z;
  row_DueDate : Date;
  row_Principal : Money;
  row_Interest : Money;
  row_Installment : Money;
  row_ScheduledBalance : Money
}.

Record ContractData := {
  cd_PrimaryAccount : string;
  cd_AlternateAccount : string;
  cd_CIF : string;
  cd_CustomerName : string;
  cd_Branch : string;
  cd_Product : string;
  cd_PlafondLimit : Money;
  cd_TenorMonths : Z;
  cd_FlatRatePercent : Money;
  cd_ReferenceRatePercent : Money;
  cd_CurrentCollectability : Z;
  cd_CurrentPrincipalDue : Money;
  cd_CurrentInterestDue : Money;
  cd_PenaltyDue : Money;
  cd_Status : string;
  cd_CloseDate : Date;
  cd_RawScheduleCount : Z;
  cd_ContractScheduleEvidence : option (list ContractualInstallmentEvidence);  (* None: nil *)
  cd_ContractSchedule : list ContractualInstallment;
  cd_Repayments : list Repayment
}.

Record CalculationInput := {
  in_AsOf : Date;
  in_Cutoff : Date;
  in_ContractualPrincipal : Money;
  in_TenorMonths : Z;
  in_FlatRatePercent : Money;
  in_Opening : OpeningLoanState;
  in_ContractSchedule : list ContractualInstallment;
  in_Repayments : list Repayment;
  in_CollectabilityTimeline : list CollectabilityPoint
}.

Record CalculationTrace := {
  tr_Opening : OpeningLoanState;
  tr_PeriodsAccrued : Z;
  tr_RepaymentsApplied : Z;
  tr_LastPaymentDate : Date;
  tr_LastDueDateAccrued : Date
}.

(** Go's zero values *)
Definition ZeroOpening : OpeningLoanState :=
  Build_OpeningLoanState EmptyString EmptyString MoneyZero MoneyZero MoneyZero MoneyZero 0.
Definition ZeroTrace : CalculationTrace := Build_CalculationTrace ZeroOpening 0 0 ZeroDate ZeroDate.
Definition ZeroPosition : LoanPosition := {|
  lp_AsOf := ZeroDate; lp_LoanStartDate := ZeroDate; lp_AccountNumber := EmptyString;
  lp_PrincipalOutstanding := MoneyZero; lp_PrincipalDue := MoneyZero; lp_InterestDue := MoneyZero;
  lp_PenaltyDue := MoneyZero; lp_CollectabilityBI := 0; lp_UnappliedAmount := MoneyZero;
  lp_Source := None; lp_Branch := EmptyString; lp_Product := EmptyString; lp_CIF := EmptyString;
  lp_ContractNumber := EmptyString; lp_SourceUpdatedAt := None |}.

Record CalculationResult := {
  res_AsOf : Date;
  res_PrincipalOutstanding : Money;
  res_PrincipalDue : Money;
  res_InterestDue : Money;
  res_CollectabilityBI : Z;
  res_UnappliedAmount : Money;
  res_Trace : CalculationTrace;
  res_ContractualSchedule : list ContractualScheduleRow
}.

Record ResolvedPosition := {
  rv_Loan : ContractData;
  rv_Position : LoanPosition;
  rv_ActualPosition : LoanPosition;
  rv_Trace : CalculationTrace;
  rv_ContractualSchedule : list ContractualScheduleRow
}.
