(* ===== verification/GoJSON.v ===== *)
(** Go's [encoding/json] as the program uses it: [Unmarshal] into structs, slices
    and maps.

    [json_text] reads a whole text the way the scanner does (with the nesting
    limit of the package); a number keeps its literal, a string is unquoted with
    invalid UTF-8 and lone surrogates replaced by U+FFFD.  Decoding follows the
    package: a decoder starts from the current value, null leaves it alone, an
    object is decoded member by member in order, members match a field by its
    name or, failing that, by its folded name, unknown members are skipped, and
    any type mismatch makes [Unmarshal] answer an error ([None]). *)
From stdpp Require Import base list gmap strings.
From Stdlib Require Import ZArith Lia Ascii.
From S2P Require Import Prelude GoStrings.
Local Open Scope Z_scope.

Inductive json : Type :=
| JNull
| JBool (b : bool)
| JNumber (literal : string)
| JString (value : string)
| JArray (elements : list json)
| JObject (members : list (string * json)).

(** ** UTF-8 *)

Definition replacement : list ascii := [chr 239; chr 191; chr 189].
Definition between (lo hi : Z) (c : ascii) : bool := (lo <=? code c) && (code c <=? hi).
Definition continuation (c : ascii) : bool := between 128 191 c.
Definition utf8_second (a b : ascii) : bool :=
  if code a =? 224 then between 160 191 b else
  if code a =? 237 then between 128 159 b else
  if code a =? 240 then between 144 191 b else
  if code a =? 244 then between 128 143 b else continuation b.
Definition encode_rune (r : Z) : list ascii :=
  if r <? 128 then [chr r] else
  if r <? 2048 then [chr (192 + r / 64); chr (128 + r mod 64)] else
  if r <? 65536 then [chr (224 + r / 4096); chr (128 + r / 64 mod 64); chr (128 + r mod 64)] else
  [chr (240 + r / 262144); chr (128 + r / 4096 mod 64); chr (128 + r / 64 mod 64); chr (128 + r mod 64)].

(** The runes of a string: the bytes of a well-formed one, or [None] for a byte
    that begins none *)
Fixpoint utf8_runes (l : list ascii) : list (option (list ascii)) :=
  match l with
  | [] => []
  | c :: l1 =>
      if code c <? 128 then Some [c] :: utf8_runes l1 else
      match l1 with
      | c2 :: l2 =>
          if between 194 223 c && continuation c2 then Some [c; c2] :: utf8_runes l2 else
          match l2 with
          | c3 :: l3 =>
              if between 224 239 c && utf8_second c c2 && continuation c3
              then Some [c; c2; c3] :: utf8_runes l3 else
              match l3 with
              | c4 :: l4 =>
                  if between 240 244 c && utf8_second c c2 && continuation c3 && continuation c4
                  then Some [c; c2; c3; c4] :: utf8_runes l4 else None :: utf8_runes l1
              | [] => None :: utf8_runes l1
              end
          | [] => None :: utf8_runes l1
          end
      | [] => None :: utf8_runes l1
      end
  end.
(** [utf8.RuneCountInString], where an invalid byte counts as one rune, and [utf8.ValidString] *)
Definition rune_count (l : list ascii) : nat := length (utf8_runes l).
Definition valid_utf8 (l : list ascii) : bool := forallb (fun r => bool_decide (is_Some r)) (utf8_runes l).

(** ** Lexing *)

Definition json_space (c : ascii) : bool := (code c =? 32) || (code c =? 9) || (code c =? 10) || (code c =? 13).
Fixpoint skip_space (l : list ascii) : list ascii :=
  match l with
  | c :: rest => if json_space c then skip_space rest else l
  | [] => []
  end.

Definition hex_digit (c : ascii) : option Z :=
  if is_digit c then Some (code c - 48) else
  if between 97 102 c then Some (code c - 87) else
  if between 65 70 c then Some (code c - 55) else None.
Definition hex4 (a b c d : ascii) : option Z :=
  a ← hex_digit a; b ← hex_digit b; c ← hex_digit c; d ← hex_digit d;
  Some (a * 4096 + b * 256 + c * 16 + d).

Definition simple_escape (c : ascii) : option ascii :=
  if beq c (chr 34) || beq c "\" || beq c "/" then Some c else
  if beq c "b" then Some (chr 8) else if beq c "f" then Some (chr 12) else
  if beq c "n" then Some (chr 10) else if beq c "r" then Some (chr 13) else
  if beq c "t" then Some (chr 9) else None.

(** The decoded bytes of a string literal after its opening quote, and the rest *)
Fixpoint string_literal (l : list ascii) : option (list ascii * list ascii) :=
  let put := fun (prefix : list ascii) (tail : option (list ascii * list ascii)) =>
    '(s, rest) ← tail; Some (prefix ++ s, rest) in
  match l with
  | [] => None
  | c :: l1 =>
      if beq c (chr 34) then Some ([], l1) else
      if code c <? 32 then None else
      if beq c "\" then
        match l1 with
        | [] => None
        | e :: l2 =>
            if beq e "u" then
              match l2 with
              | h1 :: h2 :: h3 :: h4 :: l3 =>
                  match hex4 h1 h2 h3 h4 with
                  | None => None
                  | Some r =>
                      if (55296 <=? r) && (r <? 57344) then
                        match l3 with
                        | b :: u :: g1 :: g2 :: g3 :: g4 :: l4 =>
                            match (if beq b "\" && beq u "u" then hex4 g1 g2 g3 g4 else None) with
                            | Some r' =>
                                if (r <? 56320) && (56320 <=? r') && (r' <? 57344)
                                then put (encode_rune ((r - 55296) * 1024 + (r' - 56320) + 65536)) (string_literal l4)
                                else put replacement (string_literal l3)
                            | None => put replacement (string_literal l3)
                            end
                        | _ => put replacement (string_literal l3)
                        end
                      else put (encode_rune r) (string_literal l3)
                  end
              | _ => None
              end
            else match simple_escape e with
                 | Some c' => put [c'] (string_literal l2)
                 | None => None
                 end
        end
      else if code c <? 128 then put [c] (string_literal l1) else
      match l1 with
      | c2 :: l2 =>
          if between 194 223 c && continuation c2 then put [c; c2] (string_literal l2) else
          match l2 with
          | c3 :: l3 =>
              if between 224 239 c && utf8_second c c2 && continuation c3 then put [c; c2; c3] (string_literal l3) else
              match l3 with
              | c4 :: l4 =>
                  if between 240 244 c && utf8_second c c2 && continuation c3 && continuation c4
                  then put [c; c2; c3; c4] (string_literal l4)
                  else put replacement (string_literal l1)
              | [] => put replacement (string_literal l1)
              end
          | [] => put replacement (string_literal l1)
          end
      | [] => put replacement (string_literal l1)
      end
  end.

Fixpoint digit_run (l : list ascii) : list ascii * list ascii :=
  match l with
  | c :: rest => if is_digit c then let '(ds, r) := digit_run rest in (c :: ds, r) else ([], l)
  | [] => ([], [])
  end.
Definition some_digits (l : list ascii) : option (list ascii * list ascii) :=
  let '(ds, r) := digit_run l in if bool_decide (ds = []) then None else Some (ds, r).

(** -?(0|[1-9][0-9]* )(\.[0-9]+)?([eE][+-]?[0-9]+)? *)
Definition integer_part (l : list ascii) : option (list ascii * list ascii) :=
  match l with
  | c :: rest => if beq c "0" then Some ([c], rest) else some_digits l
  | [] => None
  end.
Definition fraction_part (l : list ascii) : option (list ascii * list ascii) :=
  match l with
  | c :: rest => if beq c "." then '(ds, r) ← some_digits rest; Some (c :: ds, r) else Some ([], l)
  | [] => Some ([], [])
  end.
Definition exponent_part (l : list ascii) : option (list ascii * list ascii) :=
  match l with
  | c :: rest =>
      if beq c "e" || beq c "E" then
        match rest with
        | s :: rest' =>
            if beq s "+" || beq s "-" then '(ds, r) ← some_digits rest'; Some (c :: s :: ds, r)
            else '(ds, r) ← some_digits rest; Some (c :: ds, r)
        | [] => None
        end
      else Some ([], l)
  | [] => Some ([], [])
  end.
Definition sign_part (l : list ascii) : list ascii * list ascii :=
  match l with
  | c :: rest => if beq c "-" then ([c], rest) else ([], l)
  | [] => ([], [])
  end.
Definition number_literal (l : list ascii) : option (list ascii * list ascii) :=
  let '(sign, l) := sign_part l in
  '(i, l) ← integer_part l; '(f, l) ← fraction_part l; '(e, l) ← exponent_part l;
  Some (sign ++ i ++ f ++ e, l).

(** ** Values *)

Definition max_depth : Z := 10000.

Fixpoint json_value (fuel : nat) (depth : Z) (l : list ascii) : option (json * list ascii) :=
  match fuel with
  | O => None
  | S fuel' =>
      match skip_space l with
      | [] => None
      | c :: r =>
          if beq c "{" then
            if max_depth <=? depth then None else
            match skip_space r with
            | [] => None
            | c' :: r' =>
                if beq c' "}" then Some (JObject [], r') else
                '(members, rest) ← json_members fuel' (depth + 1) (c' :: r'); Some (JObject members, rest)
            end
          else if beq c "[" then
            if max_depth <=? depth then None else
            match skip_space r with
            | [] => None
            | c' :: r' =>
                if beq c' "]" then Some (JArray [], r') else
                '(elements, rest) ← json_elements fuel' (depth + 1) (c' :: r'); Some (JArray elements, rest)
            end
          else if beq c (chr 34) then '(s, rest) ← string_literal r; Some (JString (of_bytes s), rest)
          else if has_prefix_bytes (c :: r) (bytes "true") then Some (JBool true, drop 4 (c :: r))
          else if has_prefix_bytes (c :: r) (bytes "false") then Some (JBool false, drop 5 (c :: r))
          else if has_prefix_bytes (c :: r) (bytes "null") then Some (JNull, drop 4 (c :: r))
          else '(n, rest) ← number_literal (c :: r); Some (JNumber (of_bytes n), rest)
      end
  end
with json_members (fuel : nat) (depth : Z) (l : list ascii) : option (list (string * json) * list ascii) :=
  match fuel with
  | O => None
  | S fuel' =>
      match skip_space l with
      | [] => None
      | c :: r =>
          if negb (beq c (chr 34)) then None else
          '(name, r1) ← string_literal r;
          match skip_space r1 with
          | [] => None
          | c1 :: r2 =>
              if negb (beq c1 ":") then None else
              '(value, r3) ← json_value fuel' depth r2;
              match skip_space r3 with
              | [] => None
              | c3 :: r4 =>
                  if beq c3 "}" then Some ([(of_bytes name, value)], r4) else
                  if beq c3 "," then
                    '(members, rest) ← json_members fuel' depth r4; Some ((of_bytes name, value) :: members, rest)
                  else None
              end
          end
      end
  end
with json_elements (fuel : nat) (depth : Z) (l : list ascii) : option (list json * list ascii) :=
  match fuel with
  | O => None
  | S fuel' =>
      '(value, r1) ← json_value fuel' depth l;
      match skip_space r1 with
      | [] => None
      | c :: r2 =>
          if beq c "]" then Some ([value], r2) else
          if beq c "," then '(elements, rest) ← json_elements fuel' depth r2; Some (value :: elements, rest)
          else None
      end
  end.

Definition json_text (body : list ascii) : option json :=
  match json_value (S (2 * length body)) 0 body with
  | Some (value, rest) => if bool_decide (skip_space rest = []) then Some value else None
  | None => None
  end.

(** ** Decoding into Go values *)

Definition decoder (T : Type) : Type := T → json → option T.

Definition decode_string : decoder string := fun current j =>
  match j with JNull => Some current | JString s => Some s | _ => None end.
Definition decode_int : decoder Z := fun current j =>
  match j with JNull => Some current | JNumber n => Atoi n | _ => None end.

(** Folding of a member's name: ASCII letters, and the two runes that fold to one *)
Fixpoint fold_name (l : list ascii) : list ascii :=
  match l with
  | [] => []
  | a :: l1 =>
      match l1 with
      | b :: l2 =>
          if (code a =? 197) && (code b =? 191) then "S"%char :: fold_name l2 else
          match l2 with
          | c :: l3 =>
              if (code a =? 226) && (code b =? 132) && (code c =? 170) then "K"%char :: fold_name l3
              else upper_byte a :: fold_name l1
          | [] => upper_byte a :: fold_name l1
          end
      | [] => upper_byte a :: fold_name l1
      end
  end.

(** Does member [key] set field [name] of a struct with the fields [names]? *)
Definition names_field (names : list string) (name key : string) : bool :=
  seqb key name ||
  (negb (existsb (seqb key) names) && bool_decide (fold_name (bytes key) = fold_name (bytes name))).

Definition members_of (j : json) : option (list (string * json)) :=
  match j with JNull => Some [] | JObject members => Some members | _ => None end.

(** The members in order, each decoded into the value of the field so far *)
Fixpoint decode_field {T} (names : list string) (name : string) (dec : decoder T) (current : T)
    (members : list (string * json)) : option T :=
  match members with
  | [] => Some current
  | (key, j) :: rest =>
      if names_field names name key
      then current ← dec current j; decode_field names name dec current rest
      else decode_field names name dec current rest
  end.

(** A slice: element [i] is decoded into the old element [i], if there is one. *)
Fixpoint decode_elements {T} (dec : decoder T) (zero : T) (current : list T) (elements : list json) : option (list T) :=
  match elements with
  | [] => Some []
  | j :: rest =>
      x ← dec (match current with c :: _ => c | [] => zero end) j;
      xs ← decode_elements dec zero (tail current) rest; Some (x :: xs)
  end.
Definition decode_slice {T} (dec : decoder T) (zero : T) : decoder (list T) := fun current j =>
  match j with
  | JNull => Some []
  | JArray elements => decode_elements dec zero current elements
  | _ => None
  end.

(** [json.Unmarshal] into a fresh value *)
Definition Unmarshal {T} (dec : decoder T) (zero : T) (body : list ascii) : option T :=
  j ← json_text body; dec zero j.

(** A number that goes into [any] becomes a float64: a literal that rounds to
    infinity is an error.  The digits of the literal without its point, and the
    power of ten they are scaled by *)
Definition literal_scale (l : list ascii) : Z * Z :=
  let '(_, l) := sign_part l in
  let '(i, l) := digit_run l in
  let '(f, l) := match l with
                 | c :: rest => if beq c "." then digit_run rest else ([], l)
                 | [] => ([], [])
                 end in
  let e := match l with
           | _ :: s :: rest =>
               if beq s "-" then - digits_value rest
               else if beq s "+" then digits_value rest else digits_value (s :: rest)
           | _ => 0
           end in
  (digits_value (i ++ f), e - Z.of_nat (length f)).
Definition float64_range (literal : string) : bool :=
  let l := bytes literal in
  let '(n, e) := literal_scale l in
  let bound := 2 ^ 1024 - 2 ^ 970 in
  if (n =? 0) || (e <? - Z.of_nat (length l)) then true
  else if 400 <? e then false
  else if 0 <=? e then n * 10 ^ e <? bound else n <? bound * 10 ^ (- e).

Fixpoint decode_any (j : json) : option json :=
  match j with
  | JNumber n => if float64_range n then Some j else None
  | JArray elements =>
      (fix go l := match l with
                   | [] => Some j
                   | x :: rest => match decode_any x with Some _ => go rest | None => None end
                   end) elements
  | JObject members =>
      (fix go l := match l with
                   | [] => Some j
                   | (_, x) :: rest => match decode_any x with Some _ => go rest | None => None end
                   end) members
  | _ => Some j
  end.
(** [map[string]any]; [None] is the nil map *)
Definition any_map : Type := option (gmap string json).
Fixpoint decode_map_members (m : gmap string json) (members : list (string * json)) : option (gmap string json) :=
  match members with
  | [] => Some m
  | (key, j) :: rest => x ← decode_any j; decode_map_members (<[key := x]> m) rest
  end.
Definition decode_map : decoder any_map := fun current j =>
  match j with
  | JNull => Some None
  | JObject members => m ← decode_map_members (default ∅ current) members; Some (Some m)
  | _ => None
  end.

(** A struct with one field: the shape of the nested envelopes *)
Definition decode_struct1 {T} (name : string) (dec : decoder T) : decoder T := fun current j =>
  members ← members_of j; decode_field [name] name dec current members.

(** ** [json.Marshal] of a string and of a slice of strings *)

Definition hex_char (d : Z) : ascii := if d <? 10 then chr (48 + d) else chr (87 + d).
Definition escape_byte (c : ascii) : list ascii :=
  if beq c (chr 34) || beq c "\" then ["\"%char; c] else
  if code c =? 8 then ["\"%char; "b"%char] else if code c =? 12 then ["\"%char; "f"%char] else
  if code c =? 10 then ["\"%char; "n"%char] else if code c =? 13 then ["\"%char; "r"%char] else
  if code c =? 9 then ["\"%char; "t"%char] else
  if (code c <? 32) || beq c "<" || beq c ">" || beq c "&"
  then bytes "\u00" ++ [hex_char (code c / 16); hex_char (code c mod 16)] else [c].
Definition escape_rune (r : option (list ascii)) : list ascii :=
  match r with
  | None => bytes "\ufffd"
  | Some [c] => escape_byte c
  | Some r => if bool_decide (r = [chr 226; chr 128; chr 168]) then bytes "\u2028" else
              if bool_decide (r = [chr 226; chr 128; chr 169]) then bytes "\u2029" else r
  end.
Definition escape_text (l : list ascii) : list ascii := List.concat (escape_rune <$> utf8_runes l).
Definition marshal_string (s : string) : list ascii := [chr 34] ++ escape_text (bytes s) ++ [chr 34].
Definition marshal_strings (l : list string) : list ascii :=
  if bool_decide (l = []) then bytes "null" else   (* the nil slice of no arguments *)
  ["["%char] ++ join_bytes [","%char] (marshal_string <$> l) ++ ["]"%char].

(** ** Fuel: reading consumes text *)

Lemma skip_space_length l : (length (skip_space l) ≤ length l)%nat.
Proof. induction l as [|c l IH]; simpl; [lia|]. destruct (json_space c); simpl; lia. Qed.

Lemma digit_run_length l ds r : digit_run l = (ds, r) → (length ds + length r = length l)%nat.
Proof.
  revert ds r. induction l as [|c l IH]; intros ds r; simpl; [by intros [= <- <-]|].
  destruct (is_digit c); [|by intros [= <- <-]]. destruct (digit_run l) as [ds' r'] eqn:E.
  intros [= <- <-]. simpl. by rewrite (IH _ _ eq_refl).
Qed.

Lemma some_digits_length l ds r : some_digits l = Some (ds, r) → (length r < length l)%nat.
Proof.
  unfold some_digits. destruct (digit_run l) as [ds' r'] eqn:E. apply digit_run_length in E.
  case_bool_decide as Hd; [done|]. intros [= <- <-]. destruct ds' as [|d ds']; [done|]. simpl in E. lia.
Qed.

(** What reads a part of a text: the rest is not longer, shorter if [strict]. *)
Definition consumes {A} (strict : bool) (l : list ascii) (r : option (A * list ascii)) : Prop :=
  ∀ a rest, r = Some (a, rest) → (length rest + (if strict then 1 else 0) ≤ length l)%nat.

Lemma consumes_bind {A B} strict l (m : option (A * list ascii)) (k : A * list ascii → option (B * list ascii)) :
  consumes false l m → (∀ a rest, m = Some (a, rest) → consumes strict rest (k (a, rest))) → consumes strict l (m ≫= k).
Proof.
  intros Hm Hk b rest' H. apply bind_Some in H as ([a rest] & E & H). specialize (Hm a rest E).
  specialize (Hk a rest E b rest' H). simpl in Hm. lia.
Qed.

Lemma number_literal_consumes l : consumes true l (number_literal l).
Proof.
  unfold number_literal. intros n rest H.
  destruct (sign_part l) as [s l'] eqn:Es.
  assert (length l' ≤ length l)%nat as Hl.
  { unfold sign_part in Es. destruct l as [|c l]; [by injection Es as <- <-|].
    destruct (beq c "-"); injection Es as <- <-; simpl; lia. }
  apply bind_Some in H as ([i l1] & Hi & H). apply bind_Some in H as ([f l2] & Hf & H).
  apply bind_Some in H as ([e l3] & He & H). injection H as <- <-.
  assert (length l1 < length l')%nat.
  { unfold integer_part in Hi. destruct l' as [|c l']; [done|].
    destruct (beq c "0"); [injection Hi as <- <-; simpl; lia|by apply some_digits_length in Hi]. }
  assert (length l2 ≤ length l1)%nat.
  { unfold fraction_part in Hf. destruct l1 as [|c l1]; [by injection Hf as <- <-|].
    destruct (beq c "."); [|injection Hf as <- <-; simpl; lia].
    apply bind_Some in Hf as ([ds r] & Hd & Hf). injection Hf as <- <-. apply some_digits_length in Hd. simpl. lia. }
  assert (length l3 ≤ length l2)%nat; [|lia].
  unfold exponent_part in He. destruct l2 as [|c l2]; [by injection He as <- <-|].
  destruct (_ || _); [|injection He as <- <-; simpl; lia]. destruct l2 as [|c' l2]; [done|].
  destruct (_ || _); apply bind_Some in He as ([ds r] & Hd & He); injection He as <- <-;
    apply some_digits_length in Hd; simpl in *; lia.
Qed.

Lemma string_literal_consumes l : consumes true l (string_literal l).
Proof.
  remember (length l) as n eqn:Hn. revert l Hn. induction (lt_wf n) as [n _ IH]. intros l ->.
  assert (∀ p t, (length t < length l)%nat →
    consumes true l ('(s, rest) ← string_literal t; Some (p ++ s, rest))) as Hput.
  { intros p t Ht a rest H. apply bind_Some in H as ([s r] & E & H). injection H as <- <-.
    specialize (IH _ Ht t eq_refl s r E). cbn in IH |- *. lia. }
  destruct l as [|c l1]; [done|]. cbn [string_literal].
  repeat match goal with
  | |- consumes _ _ None => done
  | |- consumes _ _ (_ ≫= _) => apply Hput; simpl; lia
  | |- consumes _ _ (Some _) => intros a rest [= <- <-]; simpl; lia
  | |- consumes _ _ (if ?b then _ else _) => destruct b
  | |- consumes _ _ (match ?x with _ => _ end) => destruct x
  end.
Qed.

Lemma skip_space_cons l c r : skip_space l = c :: r → (length r < length l)%nat.
Proof. intros H. pose proof (skip_space_length l). rewrite H in *. simpl in *. lia. Qed.

Lemma json_consumes fuel :
  (∀ depth l, consumes true l (json_value fuel depth l)) ∧
  (∀ depth l, consumes true l (json_members fuel depth l)) ∧
  (∀ depth l, consumes true l (json_elements fuel depth l)).
Proof.
  induction fuel as [|fuel (IHv & IHm & IHe)]; [done|]. split_and!; intros depth l a rest H; cbn in H.
  - destruct (skip_space l) as [|c r] eqn:Es; [done|]. apply skip_space_cons in Es.
    repeat match type of H with
    | (if beq _ _ then _ else _) = _ => destruct (beq _ _)
    | (if max_depth <=? depth then _ else _) = _ => destruct (max_depth <=? depth); [done|]
    | match skip_space ?r with _ => _ end = _ =>
        let E := fresh "E" in destruct (skip_space r) as [|c' r'] eqn:E; [done|]; apply skip_space_cons in E
    | (if ?b then _ else _) = _ => destruct b
    end.
    all: try (injection H as <- <-; rewrite ?length_drop; simpl; lia).
    all: apply bind_Some in H as ([x r1] & H1 & H); injection H as <- <-.
    + apply IHm in H1. simpl in *. lia.
    + apply IHe in H1. simpl in *. lia.
    + apply string_literal_consumes in H1. lia.
    + apply number_literal_consumes in H1. simpl in *. lia.
  - destruct (skip_space l) as [|c r] eqn:Es; [done|]. apply skip_space_cons in Es.
    destruct (negb _); [done|]. apply bind_Some in H as ([name r1] & H1 & H). apply string_literal_consumes in H1.
    destruct (skip_space r1) as [|c1 r2] eqn:E1; [done|]. apply skip_space_cons in E1.
    destruct (negb _); [done|]. apply bind_Some in H as ([v r3] & H3 & H). apply IHv in H3.
    destruct (skip_space r3) as [|c3 r4] eqn:E3; [done|]. apply skip_space_cons in E3.
    destruct (beq _ _); [injection H as <- <-; lia|]. destruct (beq _ _); [|done].
    apply bind_Some in H as ([ms r5] & H5 & H). injection H as <- <-. apply IHm in H5. lia.
  - apply bind_Some in H as ([v r1] & H1 & H). apply IHv in H1.
    destruct (skip_space r1) as [|c r2] eqn:E1; [done|]. apply skip_space_cons in E1.
    destruct (beq _ _); [injection H as <- <-; lia|]. destruct (beq _ _); [|done].
    apply bind_Some in H as ([es r3] & H3 & H). injection H as <- <-. apply IHe in H3. lia.
Qed.

Lemma option_bind_ext {A B} (m m' : option A) (k k' : A → option B) :
  m = m' → (∀ a, m' = Some a → k a = k' a) → m ≫= k = m' ≫= k'.
Proof. intros -> H. destruct m' as [a|]; [by apply H|done]. Qed.

(** More fuel than twice the text changes nothing. *)
Lemma json_fuel fuel : ∀ fuel',
  (∀ depth l, (2 * length l < fuel)%nat → (2 * length l < fuel')%nat → json_value fuel depth l = json_value fuel' depth l) ∧
  (∀ depth l, (2 * length l < fuel)%nat → (2 * length l < fuel')%nat → json_members fuel depth l = json_members fuel' depth l) ∧
  (∀ depth l, (2 * length l + 1 < fuel)%nat → (2 * length l + 1 < fuel')%nat → json_elements fuel depth l = json_elements fuel' depth l).
Proof.
  induction fuel as [|fuel IH]; intros fuel'; [split_and!; intros; lia|].
  destruct fuel' as [|fuel']; [split_and!; intros; lia|]. destruct (IH fuel') as (IHv & IHm & IHe).
  split_and!; intros depth l Hl Hl'; cbn -[Nat.mul has_prefix_bytes].
  - destruct (skip_space l) as [|c r] eqn:Es; [done|]. apply skip_space_cons in Es.
    destruct (beq c "{"); [|destruct (beq c "["); [|done]]; (destruct (max_depth <=? depth); [done|]);
      (destruct (skip_space r) as [|c' r'] eqn:Er; [done|]); apply skip_space_cons in Er;
      destruct (beq c' _); try done; (apply option_bind_ext; [|done]);
      [apply IHm|apply IHe]; simpl; lia.
  - destruct (skip_space l) as [|c r] eqn:Es; [done|]. apply skip_space_cons in Es.
    destruct (negb _); [done|]. apply option_bind_ext; [done|]. intros [name r1] H1.
    apply string_literal_consumes in H1. destruct (skip_space r1) as [|c1 r2] eqn:E1; [done|]. apply skip_space_cons in E1.
    destruct (negb _); [done|]. apply option_bind_ext; [apply IHv; lia|]. intros [v r3] H3.
    apply json_consumes in H3. destruct (skip_space r3) as [|c3 r4] eqn:E3; [done|]. apply skip_space_cons in E3.
    destruct (beq c3 "}"); [done|]. destruct (beq c3 ","); [|done]. apply option_bind_ext; [apply IHm; lia|done].
  - apply option_bind_ext; [apply IHv; lia|]. intros [v r1] H1. apply json_consumes in H1.
    destruct (skip_space r1) as [|c r2] eqn:E1; [done|]. apply skip_space_cons in E1.
    destruct (beq c "]"); [done|]. destruct (beq c ","); [|done]. apply option_bind_ext; [apply IHe; lia|done].
Qed.

Lemma json_text_fuel fuel body :
  (2 * length body < fuel)%nat → json_value fuel 0 body = json_value (S (2 * length body)) 0 body.
Proof. intros H. apply (json_fuel fuel); lia. Qed.

(** ** What is marshalled is read back *)

Lemma string_literal_escape c tail :
  code c < 128 → string_literal (escape_byte c ++ tail) = ('(s, rest) ← string_literal tail; Some (c :: s, rest)).
Proof. destruct c as [[] [] [] [] [] [] [] []]; intros Hc; first [reflexivity|vm_compute in Hc; discriminate Hc]. Qed.

(** The bytes of one rune *)
Inductive rune_bytes : list ascii → Prop :=
| rune1 c : code c < 128 → rune_bytes [c]
| rune2 c c2 : between 194 223 c = true → continuation c2 = true → rune_bytes [c; c2]
| rune3 c c2 c3 : between 224 239 c = true → utf8_second c c2 = true → continuation c3 = true →
    rune_bytes [c; c2; c3]
| rune4 c c2 c3 c4 : between 240 244 c = true → utf8_second c c2 = true → continuation c3 = true →
    continuation c4 = true → rune_bytes [c; c2; c3; c4].

Lemma between_false lo hi lo' hi' c : between lo hi c = true → hi < lo' ∨ hi' < lo → between lo' hi' c = false.
Proof. unfold between. to_prop. lia. Qed.
Lemma between_high lo hi c : between lo hi c = true → 128 ≤ lo → (code c <? 128) = false.
Proof. unfold between. to_prop. lia. Qed.

Lemma utf8_runes_app r l : rune_bytes r → utf8_runes (r ++ l) = Some r :: utf8_runes l.
Proof.
  destruct 1 as [c Hc|c c2 H H2|c c2 c3 H H2 H3|c c2 c3 c4 H H2 H3 H4]; cbn [app utf8_runes].
  - by rewrite (proj2 (Z.ltb_lt _ _) Hc).
  - by rewrite (between_high _ _ _ H), H, H2 by lia.
  - by rewrite (between_high _ _ _ H), (between_false _ _ 194 223 _ H), H, H2, H3 by lia.
  - by rewrite (between_high _ _ _ H), (between_false _ _ 194 223 _ H), (between_false _ _ 224 239 _ H), H, H2, H3, H4
      by lia.
Qed.

Lemma utf8_ind (P : list ascii → Prop) :
  P [] → (∀ r l, rune_bytes r → valid_utf8 l = true → P l → P (r ++ l)) →
  ∀ l, valid_utf8 l = true → P l.
Proof.
  intros H0 Hr l. remember (length l) as n eqn:Hn. revert l Hn.
  induction (lt_wf n) as [n _ IH]. intros l -> Hv.
  assert (Hgo : ∀ r l', l = r ++ l' → r ≠ [] → rune_bytes r → valid_utf8 l' = true → P l).
  { intros r l' -> Hne Hb Hv'. apply Hr; [done..|]. apply (IH (length l')); [|done..].
    rewrite length_app. destruct r; [done|]. simpl. lia. }
  unfold valid_utf8 in *. destruct l as [|c l1]; [done|]. cbn [utf8_runes] in Hv.
  destruct (code c <? 128) eqn:E1.
  { apply (Hgo [c] l1); [done..|constructor; lia|done]. }
  destruct l1 as [|c2 l2]; [discriminate Hv|].
  destruct (between 194 223 c && continuation c2) eqn:E2.
  { apply andb_true_iff in E2 as []. apply (Hgo [c; c2] l2); [done..|by constructor|done]. }
  destruct l2 as [|c3 l3]; [discriminate Hv|].
  destruct (between 224 239 c && utf8_second c c2 && continuation c3) eqn:E3.
  { to_prop in E3. destruct E3 as [[] ?]. apply (Hgo [c; c2; c3] l3); [done..|by constructor|done]. }
  destruct l3 as [|c4 l4]; [discriminate Hv|].
  destruct (_ && _ && _ && _) eqn:E4; [|discriminate Hv].
  to_prop in E4. destruct E4 as [[[] ?] ?]. apply (Hgo [c; c2; c3; c4] l4); [done..|by constructor|done].
Qed.

(** A rune of more than one byte that is not escaped *)
Lemma string_literal_rune r tail :
  rune_bytes r → (2 ≤ length r)%nat →
  string_literal (r ++ tail) = ('(s, rest) ← string_literal tail; Some (r ++ s, rest)).
Proof.
  assert (Hq : ∀ lo hi c, between lo hi c = true → 128 ≤ lo →
            beq c (chr 34) = false ∧ (code c <? 32) = false ∧ beq c "\" = false).
  { intros lo hi c Hb Hlo. unfold between in Hb. to_prop in Hb.
    rewrite !beq_neq. split_and!; [intros ->|lia|intros ->]; change (code (chr 34)) with 34 in *;
      change (code "\"%char) with 92 in *; lia. }
  destruct 1 as [c Hc|c c2 H H2|c c2 c3 H H2 H3|c c2 c3 c4 H H2 H3 H4]; intros Hlen; simpl in Hlen; [lia|..];
    destruct (Hq _ _ _ H) as (Ea & Eb & Ec); try lia; cbn [app string_literal]; rewrite Ea, Eb, Ec;
    rewrite (between_high _ _ _ H) by lia.
  - by rewrite H, H2.
  - by rewrite (between_false _ _ 194 223 _ H), H, H2, H3 by lia.
  - by rewrite (between_false _ _ 194 223 _ H), (between_false _ _ 224 239 _ H), H, H2, H3, H4 by lia.
Qed.

Lemma string_literal_escape_rune r tail :
  rune_bytes r → string_literal (escape_rune (Some r) ++ tail) = ('(s, rest) ← string_literal tail; Some (r ++ s, rest)).
Proof.
  intros Hr. destruct (decide (length r = 1)%nat) as [Hl|Hl].
  - destruct Hr as [c Hc| | |]; try discriminate Hl. by apply string_literal_escape.
  - assert (Hlong : (2 ≤ length r)%nat) by (destruct Hr; simpl in *; lia).
    unfold escape_rune. destruct r as [|c [|c2 r]]; [simpl in *; lia..|].
    case_bool_decide as E1; [by rewrite E1|]. case_bool_decide as E2; [by rewrite E2|].
    by apply string_literal_rune.
Qed.

Lemma marshalled_literal l rest :
  valid_utf8 l = true → string_literal (escape_text l ++ chr 34 :: rest) = Some (l, rest).
Proof.
  revert l. apply utf8_ind; [reflexivity|]. intros r l Hr _ IH. unfold escape_text in *.
  rewrite utf8_runes_app, fmap_cons by done. cbn [List.concat].
  rewrite <- app_assoc, string_literal_escape_rune by done. by rewrite IH.
Qed.

Definition utf8_text (s : string) : Prop := valid_utf8 (bytes s) = true.

Lemma marshalled_string fuel depth s rest :
  utf8_text s → json_value (S fuel) depth (marshal_string s ++ rest) = Some (JString s, rest).
Proof.
  intros Hs. unfold marshal_string. rewrite <- !app_assoc.
  transitivity ('(v, r) ← string_literal (escape_text (bytes s) ++ chr 34 :: rest);
                Some (JString (of_bytes v), r)); [reflexivity|].
  rewrite marshalled_literal by done. cbn [mbind option_bind]. by rewrite of_bytes_bytes.
Qed.

Lemma marshalled_elements fuel depth params rest :
  params ≠ [] → Forall utf8_text params → (length params < fuel)%nat →
  json_elements fuel depth (join_bytes [","%char] (marshal_string <$> params) ++ "]"%char :: rest) =
    Some (JString <$> params, rest).
Proof.
  revert fuel. induction params as [|s params IH]; intros fuel Hne Hs Hf; [done|].
  inversion Hs as [|? ? Hs1 Hs2]; subst. destruct fuel as [|[|fuel]]; simpl in Hf; [lia..|].
  remember (S fuel) as fuel1 eqn:Hfuel. cbn [json_elements]. destruct params as [|s' params].
  - cbn [fmap list_fmap join_bytes]. rewrite Hfuel, marshalled_string by done. reflexivity.
  - rewrite fmap_cons. cbn [join_bytes fmap list_fmap]. rewrite <- app_assoc.
    rewrite Hfuel, marshalled_string, <- Hfuel by done.
    transitivity ('(elements, r) ← json_elements fuel1 depth
                    (join_bytes [","%char] (marshal_string <$> s' :: params) ++ "]"%char :: rest);
                  Some (JString s :: elements, r)); [reflexivity|].
    rewrite IH by (done || (simpl in *; lia)). reflexivity.
Qed.

Lemma marshalled_strings params :
  params ≠ [] → Forall utf8_text params → json_text (marshal_strings params) = Some (JArray (JString <$> params)).
Proof.
  intros Hne Hs. unfold json_text, marshal_strings. rewrite bool_decide_eq_false_2 by done.
  set (body := _ ++ _ ++ _).
  assert (∃ c r, join_bytes [","%char] (marshal_string <$> params) ++ ["]"%char] = chr 34 :: c :: r) as (c & r & E).
  { destruct params as [|s [|s' params]]; [done|..]; unfold marshal_string; simpl;
      destruct (escape_text _) as [|? l]; simpl; by eexists _, _. }
  rewrite <- (json_text_fuel (S (S (2 * length body + length params)))) by lia.
  remember (2 * length body + length params)%nat as fuel eqn:Hfuel. subst body.
  change (["["%char] ++ join_bytes [","%char] (marshal_string <$> params) ++ ["]"%char]) with
    ("["%char :: (join_bytes [","%char] (marshal_string <$> params) ++ ["]"%char])).
  cbn -[json_elements join_bytes skip_space]. cbn [skip_space]. change (json_space "["%char) with false. cbv iota.
  cbn -[json_elements join_bytes skip_space]. rewrite E. cbn [skip_space]. change (json_space (chr 34)) with false. cbv iota.
  change (beq (chr 34) "]") with false. cbv iota. rewrite <- E.
  rewrite (marshalled_elements (S fuel) _ params []) by (done || lia). reflexivity.
Qed.
