(* ===== verification/GoMarshal.v ===== *)
(** Writing JSON, [encoding/json]: [Marshal] of a tree of values as the members of a
    struct come out, the text of a [json.Encoder], and [json.Indent].

    What is written is read back: the reader of [GoJSON] finds the same tree, with
    the bytes of a string that are no UTF-8 replaced.  Indenting changes nothing but
    the white space between the tokens. *)
From stdpp Require Import base list strings.
From Stdlib Require Import ZArith Lia Ascii.
From S2P Require Import Prelude GoStrings GoJSON.
Local Open Scope Z_scope.

Definition newline_char : ascii := chr 10.

(** ** Values *)

(** A number is written as its literal: the code makes it itself ([json.Marshaler]). *)
Fixpoint marshal_value (j : json) : list ascii :=
  match j with
  | JNull => bytes "null"
  | JBool b => bytes (if b then "true" else "false")
  | JNumber literal => bytes literal
  | JString s => marshal_string s
  | JArray elements => "["%char :: join_bytes [","%char] (List.map marshal_value elements) ++ ["]"%char]
  | JObject members =>
      "{"%char :: join_bytes [","%char]
        (List.map (fun kv => marshal_string (fst kv) ++ ":"%char :: marshal_value (snd kv)) members) ++ ["}"%char]
  end.
(** [json.NewEncoder(w).Encode] *)
Definition encode_value (j : json) : list ascii := marshal_value j ++ [newline_char].

(** [json.Indent] with two spaces; [in_string] is whether the scanner is inside a
    string, [escaped] whether it is right after a backslash, [need] whether the last
    token opened an object or array.  White space after the value is kept. *)
Definition indent_line (depth : nat) : list ascii := newline_char :: List.concat (replicate depth (bytes "  ")).
Fixpoint indent_bytes (in_string escaped need : bool) (depth : nat) (l : list ascii) : list ascii :=
  match l with
  | [] => []
  | c :: l =>
      if in_string then
        c :: (if escaped then indent_bytes true false need depth l
              else if beq c "\" then indent_bytes true true need depth l
              else indent_bytes (negb (beq c (chr 34))) false need depth l)
      else
        if json_space c then if forallb json_space l then c :: l else indent_bytes false false need depth l else
        if beq c "}" || beq c "]" then
          if need then c :: indent_bytes false false false depth l
          else indent_line (depth - 1) ++ c :: indent_bytes false false false (depth - 1) l
        else
          let depth' := if need then S depth else depth in
          (if need then indent_line depth' else []) ++
          (if beq c "{" || beq c "[" then c :: indent_bytes false false true depth' l else
           if beq c "," then c :: indent_line depth' ++ indent_bytes false false false depth' l else
           if beq c ":" then c :: " "%char :: indent_bytes false false false depth' l else
           c :: indent_bytes (beq c (chr 34)) false false depth' l)
  end.
(** A text that is no JSON is an error. *)
Definition Indent (body : list ascii) : option (list ascii) :=
  match json_text body with
  | Some _ => Some (indent_bytes false false false 0 body)
  | None => None
  end.

(** ** Strings, with the bytes that are no UTF-8 replaced *)

Definition valid_rune (r : option (list ascii)) : list ascii := default replacement r.
Definition to_valid (l : list ascii) : list ascii := List.concat (valid_rune <$> utf8_runes l).
Definition valid_text (s : string) : string := of_bytes (to_valid (bytes s)).

Lemma utf8_any_ind (P : list ascii → Prop) :
  P [] → (∀ r l, rune_bytes r → P l → P (r ++ l)) →
  (∀ c l, utf8_runes (c :: l) = None :: utf8_runes l → P l → P (c :: l)) → ∀ l, P l.
Proof.
  intros H0 Hr Hn l. remember (length l) as n eqn:Hlen. revert l Hlen.
  induction (lt_wf n) as [n _ IH]. intros l ->.
  assert (Hgo : ∀ r l', l = r ++ l' → r ≠ [] → rune_bytes r → P l).
  { intros r l' -> Hne Hb. apply Hr; [done|]. apply (IH (length l')); [|done].
    rewrite length_app. destruct r; [done|]. simpl. lia. }
  destruct l as [|c l1]; [done|].
  assert (Hbad : utf8_runes (c :: l1) = None :: utf8_runes l1 → P (c :: l1)).
  { intros E. apply Hn; [done|]. by apply (IH (length l1)); [simpl; lia|]. }
  cbn [utf8_runes] in Hbad. destruct (code c <? 128) eqn:E1.
  { apply (Hgo [c] l1); [done..|constructor; lia]. }
  destruct l1 as [|c2 l2]; [by apply Hbad|].
  destruct (between 194 223 c && continuation c2) eqn:E2.
  { apply andb_true_iff in E2 as []. apply (Hgo [c; c2] l2); [done..|by constructor]. }
  destruct l2 as [|c3 l3]; [by apply Hbad|].
  destruct (between 224 239 c && utf8_second c c2 && continuation c3) eqn:E3.
  { to_prop in E3. destruct E3 as [[] ?]. apply (Hgo [c; c2; c3] l3); [done..|by constructor]. }
  destruct l3 as [|c4 l4]; [by apply Hbad|].
  destruct (_ && _ && _ && _) eqn:E4; [|by apply Hbad].
  to_prop in E4. destruct E4 as [[[] ?] ?]. apply (Hgo [c; c2; c3; c4] l4); [done..|by constructor].
Qed.

Lemma written_literal l rest : string_literal (escape_text l ++ chr 34 :: rest) = Some (to_valid l, rest).
Proof.
  revert l. apply utf8_any_ind; [reflexivity|..].
  - intros r l Hr IH. unfold escape_text, to_valid in *. rewrite utf8_runes_app, !fmap_cons by done. cbn [List.concat].
    rewrite <- app_assoc, string_literal_escape_rune by done. by rewrite IH.
  - intros c l E IH. unfold escape_text, to_valid in *. rewrite E, !fmap_cons. cbn [List.concat].
    rewrite <- app_assoc. change (escape_rune None) with (bytes "\ufffd").
    transitivity ('(s, rest) ← string_literal (List.concat (escape_rune <$> utf8_runes l) ++ chr 34 :: rest);
                  Some (replacement ++ s, rest)); [reflexivity|]. by rewrite IH.
Qed.
Lemma to_valid_id l : valid_utf8 l = true → to_valid l = l.
Proof.
  revert l. apply utf8_ind; [done|]. intros r l Hr _ IH. unfold to_valid in *.
  by rewrite utf8_runes_app, fmap_cons by done; cbn; rewrite IH.
Qed.

(** ** What is written is read back *)

Fixpoint read_back (j : json) : json :=
  match j with
  | JString s => JString (valid_text s)
  | JArray elements => JArray (List.map read_back elements)
  | JObject members => JObject (List.map (fun kv => (valid_text (fst kv), read_back (snd kv))) members)
  | _ => j
  end.

(** The end of a number: the next byte is none that a number goes on with *)
Definition number_byte (c : ascii) : bool := is_digit c || beq c "." || beq c "e" || beq c "E".
Definition number_ends (rest : list ascii) : Prop := match rest with [] => True | c :: _ => number_byte c = false end.
Definition number_start (l : list ascii) : Prop := match l with [] => False | c :: _ => is_digit c = true ∨ c = "-"%char end.
Definition number_token (n : string) : Prop :=
  number_start (bytes n) ∧ ∀ rest, number_ends rest → number_literal (bytes n ++ rest) = Some (bytes n, rest).
(** A tree of at most [d] levels whose numbers are numbers *)
Fixpoint writable (d : nat) (j : json) : Prop :=
  match j with
  | JNumber n => number_token n
  | JArray elements => match d with O => False | S d' => Forall (writable d') elements end
  | JObject members => match d with O => False | S d' => Forall (λ kv, writable d' (snd kv)) members end
  | _ => True
  end.

Lemma some_digits_end l rest :
  l ≠ [] → forallb is_digit l = true → match rest with [] => True | c :: _ => is_digit c = false end →
  some_digits (l ++ rest) = Some (l, rest).
Proof.
  intros Hne Hl Hr. unfold some_digits. assert (digit_run (l ++ rest) = (l, rest)) as ->.
  { clear Hne. induction l as [|c l IH]; cbn in *.
    - destruct rest as [|c rest]; [done|]. cbn in *. by rewrite Hr.
    - apply andb_true_iff in Hl as [-> Hl]. by rewrite IH. }
  by rewrite bool_decide_eq_false_2.
Qed.
Lemma number_ends_digit rest : number_ends rest → match rest with [] => True | c :: _ => is_digit c = false end.
Proof. destruct rest as [|c rest]; [done|]. cbn. unfold number_byte. to_prop. tauto. Qed.
(** A decimal without superfluous zeros in front is a number. *)
Lemma decimal_token (neg : bool) w f :
  w ≠ [] → forallb is_digit w = true → (head w = Some "0"%char → w = ["0"%char]) → f ≠ [] → forallb is_digit f = true →
  number_token (of_bytes ((if neg then ["-"%char] else []) ++ w ++ "."%char :: f)).
Proof.
  intros Hw Hwd Hz Hf Hfd. unfold number_token. rewrite bytes_of_bytes. destruct w as [|c w]; [done|]. split.
  { cbn in Hwd. apply andb_true_iff in Hwd as [Hc _]. destruct neg; cbn; [by right|by left]. }
  intros rest Hr. unfold number_literal.
  assert (sign_part (((if neg then ["-"%char] else []) ++ (c :: w) ++ "."%char :: f) ++ rest) =
          (if neg then ["-"%char] else [], (c :: w) ++ "."%char :: f ++ rest)) as ->.
  { destruct neg; cbn; [by rewrite <- app_assoc|]. destruct (beq c "-") eqn:E; [|by rewrite <- app_assoc].
    apply beq_eq in E as ->. discriminate Hwd. }
  assert (integer_part ((c :: w) ++ "."%char :: f ++ rest) = Some (c :: w, "."%char :: f ++ rest)) as ->.
  { cbn [app integer_part]. destruct (beq c "0") eqn:E.
    - apply beq_eq in E as ->. specialize (Hz eq_refl). injection Hz as ->. done.
    - by apply (some_digits_end (c :: w)). }
  cbn [mbind option_bind fraction_part]. change (beq "." ".") with true. cbv iota. rewrite some_digits_end by (done || by apply number_ends_digit).
  cbn [mbind option_bind]. assert (exponent_part rest = Some ([], rest)) as ->.
  { destruct rest as [|e rest]; [done|]. cbn in *. unfold number_byte in Hr. apply orb_false_iff in Hr as [Hr HE].
    apply orb_false_iff in Hr as [_ He]. by rewrite He, HE. }
  cbn [mbind option_bind]. by rewrite app_nil_r.
Qed.

Lemma skip_space_id c l : json_space c = false → skip_space (c :: l) = c :: l.
Proof. intros H. cbn. by rewrite H. Qed.
Lemma digit_no_space c : is_digit c = true ∨ c = "-"%char → json_space c = false ∧
  beq c "{" = false ∧ beq c "[" = false ∧ beq c (chr 34) = false ∧ beq c "t" = false ∧ beq c "f" = false ∧ beq c "n" = false.
Proof.
  intros [H| ->]; [|by vm_compute]. revert H. destruct c as [[] [] [] [] [] [] [] []]; vm_compute; intuition discriminate.
Qed.

Section ReadBack.
Variable d : nat.
(** The trees one level below are read back. *)
Hypothesis below : ∀ j fuel depth rest, writable d j → (depth + Z.of_nat d <= max_depth) → number_ends rest →
  (2 * length (marshal_value j ++ rest) < fuel)%nat → json_value fuel depth (marshal_value j ++ rest) = Some (read_back j, rest).

Lemma elements_read elements fuel depth rest :
  elements ≠ [] → Forall (writable d) elements → depth + Z.of_nat d <= max_depth →
  (2 * length (join_bytes [","%char] (List.map marshal_value elements) ++ "]"%char :: rest) + 1 < fuel)%nat →
  json_elements fuel depth (join_bytes [","%char] (List.map marshal_value elements) ++ "]"%char :: rest) =
    Some (List.map read_back elements, rest).
Proof.
  revert fuel. induction elements as [|j elements IH]; intros fuel Hne Hw Hd Hf; [done|].
  apply Forall_cons in Hw as [Hj Hw]. destruct fuel as [|fuel]; [lia|]. cbn [json_elements].
  destruct elements as [|j' elements].
  - cbn [List.map join_bytes] in *. rewrite below by (done || lia). reflexivity.
  - assert (E : join_bytes [","%char] (List.map marshal_value (j :: j' :: elements)) =
                marshal_value j ++ ","%char :: join_bytes [","%char] (List.map marshal_value (j' :: elements))) by reflexivity.
    rewrite E in *. rewrite <- app_assoc in *. cbn [app] in *. rewrite below by (done || lia).
    cbn [mbind option_bind skip_space]. change (json_space ",") with false. cbv iota.
    change (beq "," "]") with false. change (beq "," ",") with true. cbv iota.
    rewrite IH; [reflexivity|done..|]. rewrite length_app in Hf. cbn [length] in Hf. lia.
Qed.
Lemma members_read members fuel depth rest :
  members ≠ [] → Forall (λ kv, writable d (snd kv)) members → depth + Z.of_nat d <= max_depth →
  let text := join_bytes [","%char] (List.map (fun kv => marshal_string (fst kv) ++ ":"%char :: marshal_value (snd kv)) members) in
  (2 * length (text ++ "}"%char :: rest) < fuel)%nat →
  json_members fuel depth (text ++ "}"%char :: rest) =
    Some (List.map (fun kv => (valid_text (fst kv), read_back (snd kv))) members, rest).
Proof.
  revert fuel. induction members as [|[name j] members IH]; intros fuel Hne Hw Hd text Hf; [done|].
  apply Forall_cons in Hw as [Hj Hw]. cbn [snd] in Hj. destruct fuel as [|fuel]; [lia|].
  set (tail := match members with
               | [] => "}"%char :: rest
               | _ => ","%char :: (join_bytes [","%char] (List.map (fun kv => marshal_string (fst kv) ++ ":"%char :: marshal_value (snd kv)) members) ++ "}"%char :: rest)
               end).
  assert (E : text ++ "}"%char :: rest = chr 34 :: escape_text (bytes name) ++ chr 34 :: ":"%char :: marshal_value j ++ tail).
  { subst text tail. destruct members; cbn [List.map join_bytes fst snd]; unfold marshal_string; cbn [app];
      rewrite <- ?app_assoc; cbn [app]; rewrite <- ?app_assoc; done. }
  assert (Ht : number_ends tail) by (subst tail; destruct members; done).
  rewrite E in *. cbn [json_members skip_space]. change (json_space (chr 34)) with false. cbv iota.
  change (negb (beq (chr 34) (chr 34))) with false. cbv iota. rewrite written_literal. cbn [mbind option_bind skip_space].
  change (json_space ":") with false. cbv iota. change (negb (beq ":" ":")) with false. cbv iota.
  cbn [length] in Hf. rewrite length_app in Hf. cbn [length] in Hf. rewrite below by (done || lia).
  cbn [mbind option_bind]. subst tail. destruct members as [|m members]; [reflexivity|].
  cbn [skip_space]. change (json_space ",") with false. cbv iota. change (beq "," "}") with false.
  change (beq "," ",") with true. cbv iota. rewrite IH; [reflexivity|done..|].
  rewrite length_app in Hf. cbn [length] in Hf. lia.
Qed.
End ReadBack.

Lemma number_read n fuel depth rest :
  number_token n → number_ends rest → json_value (S fuel) depth (bytes n ++ rest) = Some (JNumber n, rest).
Proof.
  intros [Hs Hw] Hr. specialize (Hw rest Hr). unfold number_start in Hs.
  destruct (bytes n) as [|c l] eqn:E; [done|]. destruct (digit_no_space c Hs) as (E1 & E2 & E3 & E4 & E5 & E6 & E7).
  cbn [app] in *. cbn [json_value skip_space]. rewrite E1, E2, E3, E4.
  assert (Hp : ∀ a p, beq c a = false → has_prefix_bytes (c :: l ++ rest) (a :: p) = false).
  { intros a p H. cbn. by rewrite H. }
  change (bytes "true") with ("t"%char :: bytes "rue"). change (bytes "false") with ("f"%char :: bytes "alse").
  change (bytes "null") with ("n"%char :: bytes "ull"). rewrite !Hp by done. rewrite Hw. cbn [mbind option_bind].
  rewrite <- E. by rewrite of_bytes_bytes.
Qed.
Lemma string_read s fuel depth rest :
  json_value (S fuel) depth (marshal_string s ++ rest) = Some (JString (valid_text s), rest).
Proof.
  unfold marshal_string. rewrite <- !app_assoc.
  transitivity ('(v, r) ← string_literal (escape_text (bytes s) ++ chr 34 :: rest);
                Some (JString (of_bytes v), r)); [reflexivity|].
  by rewrite written_literal.
Qed.
Lemma marshal_head j d : writable d j → ∃ c l, marshal_value j = c :: l ∧ json_space c = false ∧ beq c "]" = false.
Proof.
  destruct j as [|b|n|s|elements|members]; intros Hw; try (by eexists _, _).
  - by destruct b; eexists _, _.
  - destruct d, Hw as [Hs _]; unfold number_start in Hs; cbn [marshal_value]; destruct (bytes n) as [|c l]; try done; exists c, l;
      (split; [done|]); (split; [apply (digit_no_space c Hs)|]); apply beq_neq; intros ->; vm_compute in Hs; intuition discriminate.
Qed.

Lemma value_read d : ∀ j fuel depth rest,
  writable d j → depth + Z.of_nat d <= max_depth → number_ends rest →
  (2 * length (marshal_value j ++ rest) < fuel)%nat → json_value fuel depth (marshal_value j ++ rest) = Some (read_back j, rest).
Proof.
  induction d as [|d IH]; intros j fuel depth rest Hw Hd Hr Hf; (destruct fuel as [|fuel]; [lia|]);
    (destruct j as [|b|n|s|elements|members];
      [by destruct rest|by destruct b, rest|by apply number_read|apply string_read| |]); try done.
  all: cbn [marshal_value app] in *; rewrite <- app_assoc in *; cbn [app] in *; cbn [json_value].
  all: rewrite skip_space_id by done;
    repeat match goal with |- context [beq (Ascii ?a ?b ?c ?d ?e ?f ?g ?h) (Ascii ?a' ?b' ?c' ?d' ?e' ?f' ?g' ?h')] =>
      let r := eval vm_compute in (beq (Ascii a b c d e f g h) (Ascii a' b' c' d' e' f' g' h')) in
      change (beq (Ascii a b c d e f g h) (Ascii a' b' c' d' e' f' g' h')) with r end; cbv iota;
    (destruct (Z.leb_spec max_depth depth); [lia|]); cbn [length] in Hf.
  - destruct elements as [|j elements]; [reflexivity|]. pose proof Hw as Hw'. apply Forall_cons in Hw' as [Hj _].
    destruct (marshal_head j d Hj) as (c & l & E & Es & Eb).
    assert (∃ l', join_bytes [","%char] (List.map marshal_value (j :: elements)) ++ "]"%char :: rest = c :: l') as [l' El].
    { destruct elements; cbn [List.map join_bytes]; rewrite E; by eexists. }
    rewrite El, skip_space_id, Eb, <- El by done.
    rewrite (elements_read d IH) by (done || lia). reflexivity.
  - destruct members as [|[name j] members]; [reflexivity|].
    assert (∃ l', join_bytes [","%char] (List.map (fun kv => marshal_string (fst kv) ++ ":"%char :: marshal_value (snd kv)) ((name, j) :: members))
                  ++ "}"%char :: rest = chr 34 :: l') as [l' El].
    { destruct members; cbn [List.map join_bytes fst]; unfold marshal_string; by eexists. }
    rewrite El, skip_space_id, <- El by done. change (beq (chr 34) "}") with false. cbv iota.
    rewrite (members_read d IH) by (done || lia). reflexivity.
Qed.
(** A text written by the encoder is the JSON of the tree. *)
Lemma encode_read j d : writable d j → Z.of_nat d <= max_depth → json_text (encode_value j) = Some (read_back j).
Proof.
  intros Hw Hd. unfold json_text, encode_value. rewrite (value_read d); [|done|lia|done|lia]. reflexivity.
Qed.

(** ** Indenting *)

(** The text without the white space between its tokens, [json.Compact] *)
Fixpoint compact_bytes (in_string escaped : bool) (l : list ascii) : list ascii :=
  match l with
  | [] => []
  | c :: l =>
      if in_string then
        c :: (if escaped then compact_bytes true false l
              else if beq c "\" then compact_bytes true true l else compact_bytes (negb (beq c (chr 34))) false l)
      else if json_space c then compact_bytes false false l else c :: compact_bytes (beq c (chr 34)) false l
  end.

Lemma compact_line depth l : compact_bytes false false (indent_line depth ++ l) = compact_bytes false false l.
Proof.
  unfold indent_line. cbn [app compact_bytes]. change (json_space newline_char) with true. cbv iota.
  induction depth as [|depth IH]; [done|]. cbn [replicate List.concat]. rewrite <- app_assoc.
  change (bytes "  ") with [" "%char; " "%char]. cbn [app compact_bytes]. change (json_space " ") with true. done.
Qed.
Lemma compact_indent l : ∀ in_string escaped need depth,
  (in_string = false → escaped = false) →
  compact_bytes in_string escaped (indent_bytes in_string escaped need depth l) = compact_bytes in_string escaped l.
Proof.
  induction l as [|c l IH]; intros in_string escaped need depth He; [done|]. destruct in_string.
  { cbn [indent_bytes compact_bytes]. f_equal. destruct escaped; [by apply IH|]. destruct (beq c "\"); by apply IH. }
  rewrite (He eq_refl). clear He escaped. cbn [indent_bytes]. destruct (json_space c) eqn:Es.
  { destruct (forallb json_space l); [done|]. rewrite IH by done. cbn [compact_bytes]. by rewrite Es. }
  assert (Hc : ∀ l', compact_bytes false false (c :: l') = c :: compact_bytes (beq c (chr 34)) false l').
  { intros l'. cbn [compact_bytes]. by rewrite Es. }
  assert (Hq : ∀ k, beq c k = true → beq k (chr 34) = false → beq c (chr 34) = false).
  { by intros k ->%beq_eq. }
  destruct (beq c "}" || beq c "]") eqn:Ec.
  { assert (beq c (chr 34) = false) as Ecq by (apply orb_true_iff in Ec as []; by eapply Hq).
    destruct need; rewrite ?compact_line, !Hc, Ecq; by rewrite IH. }
  assert (Hline : ∀ l', compact_bytes false false ((if need then indent_line (if need then S depth else depth) else []) ++ l')
                        = compact_bytes false false l').
  { intros l'. destruct need; [apply compact_line|done]. }
  rewrite Hline, Hc. destruct (beq c "{" || beq c "[") eqn:E1.
  { assert (beq c (chr 34) = false) as Ecq by (apply orb_true_iff in E1 as []; by eapply Hq). rewrite Hc, Ecq. by rewrite IH. }
  destruct (beq c ",") eqn:E2; [rewrite Hc, (Hq _ E2 eq_refl), compact_line; by rewrite IH|].
  destruct (beq c ":") eqn:E3.
  { rewrite Hc, (Hq _ E3 eq_refl). cbn [compact_bytes]. change (json_space " ") with true. by rewrite IH. }
  rewrite Hc. by rewrite IH.
Qed.
Lemma Indent_compact body text :
  Indent body = Some text → compact_bytes false false text = compact_bytes false false body.
Proof. unfold Indent. destruct (json_text body); [|done]. intros [= <-]. by apply compact_indent. Qed.
