(* ===== verification/Decimal.v ===== *)
(** [NormalizeDecimal] of [internal/fincloud/loan.go]: one spelling of a decimal
    for the Indonesian ("1.234.567,89") and the English ("1,234,567.89") way of
    writing amounts, percent signs and spaces included. *)
From stdpp Require Import base list strings.
From Stdlib Require Import ZArith Lia Ascii QArith.
From S2P Require Import Prelude GoStrings GoErrors Money.
Local Open Scope Z_scope.

Definition decimal_byte (c : ascii) : bool :=
  is_digit c || beq c "," || beq c "." || beq c "-" || beq c " ".

(** The value after the switch on the separators *)
Definition normalize_separators (value : list ascii) : list ascii :=
  let comma := last_index "," value in
  let dot := last_index "." value in
  if (0 <=? comma) && (dot <? 0) then replace_byte "," ["."%char] value
  else if (0 <=? comma) && (0 <=? dot) && (dot <? comma)
  then replace_byte "," ["."%char] (replace_byte "." [] value)
  else if (0 <=? comma) && (0 <=? dot) then replace_byte "," [] value
  else if (1 <? count_byte "." value)%nat then
    let parts := split_byte "." value in
    let head := hd [] parts in
    let first := if beq (hd "0"%char head) "-" then tl head else head in
    let grouped := (1 <=? length first)%nat && (length first <=? 3)%nat &&
                   forallb (fun part => (length part =? 3)%nat) (tl parts) in
    if grouped then replace_byte "." [] value
    else join_bytes [] (removelast parts) ++ "."%char :: List.last parts []
  else if 0 <=? dot then
    match split_byte "." value with
    | [p0; p1] => if (length p0 <=? 3)%nat && (length p1 =? 3)%nat then p0 ++ p1 else value
    | _ => value
    end
  else value.

Definition NormalizeDecimal (raw : string) : res string :=
  let value := trim_bytes (replace_byte "%" [] (bytes raw)) in
  fail_if (bool_decide (value = []) || bool_decide (value = bytes "-")) (Msg "empty decimal");;
  fail_if (negb (forallb decimal_byte value)) (Msg "unsupported character %q");;
  let value := replace_byte " " [] value in
  fail_if ((1 <? count_byte "-" value)%nat ||
           (mem_byte "-" value && negb (has_prefix_bytes value ["-"%char])))
          (Msg "invalid minus sign");;
  Ok (of_bytes (normalize_separators value)).

(** ** Lemmas *)

Definition numeric (c : ascii) : bool := is_digit c || beq c "," || beq c ".".

Lemma numeric_facts c :
  numeric c = true →
  plain c = true ∧ decimal_byte c = true ∧ beq "%" c = false ∧ beq " " c = false ∧ beq "-" c = false.
Proof.
  unfold numeric, decimal_byte. intros H. apply orb_true_iff in H as [H|H]; [apply orb_true_iff in H as [H|H]|].
  - assert (∀ a, is_digit a = false → beq a c = false) as Hne.
    { intros a Ha. destruct (beq a c) eqn:E; [|done]. apply beq_eq in E. congruence. }
    rewrite H. split_and!; [by apply is_digit_plain|done|by apply Hne..].
  - apply beq_eq in H as ->. done.
  - apply beq_eq in H as ->. done.
Qed.

Lemma forallb_impl {A} (f g : A → bool) l :
  (∀ x, f x = true → g x = true) → forallb f l = true → forallb g l = true.
Proof. intros H. rewrite !forallb_forall. auto. Qed.

Lemma mem_byte_forallb c (f : ascii → bool) l :
  (∀ x, f x = true → beq c x = false) → forallb f l = true → mem_byte c l = false.
Proof.
  intros H. induction l as [|a l IH]; [done|]. rewrite mem_byte_cons. simpl. intros Hl.
  apply andb_true_iff in Hl as [Ha Hl]. by rewrite H, IH.
Qed.

(** A sign and a body of digits and separators reach the switch unchanged. *)
Lemma NormalizeDecimal_numeric neg body :
  forallb numeric body = true → body ≠ [] →
  NormalizeDecimal (of_bytes (sign_bytes neg ++ body)) =
  Ok (of_bytes (normalize_separators (sign_bytes neg ++ body))).
Proof.
  intros Hb Hne. unfold NormalizeDecimal. rewrite bytes_of_bytes.
  assert (mem_byte "%" body = false ∧ mem_byte " " body = false ∧ mem_byte "-" body = false) as (Hp & Hs & Hm).
  { split_and!; eapply mem_byte_forallb; try done; intros x Hx; apply (numeric_facts x Hx). }
  rewrite (replace_byte_absent "%") by (rewrite mem_byte_app, Hp; by destruct neg).
  rewrite trim_bytes_plain.
  2: { rewrite forallb_app. apply andb_true_iff. split; [by destruct neg|].
       eapply forallb_impl; [|exact Hb]. intros x Hx. apply (numeric_facts x Hx). }
  rewrite bool_decide_eq_false_2 by (intros E; apply app_eq_nil in E as [_ ?]; done).
  rewrite bool_decide_eq_false_2.
  2: { destruct neg; simpl; [by intros [= ->]|]. destruct body as [|c [|]]; [done| |done].
       intros [= ->]. done. }
  cbn [orb fail_if mbind result_bind].
  assert (forallb decimal_byte (sign_bytes neg ++ body) = true) as ->.
  { rewrite forallb_app. apply andb_true_iff. split; [by destruct neg|].
    eapply forallb_impl; [|exact Hb]. intros x Hx. apply (numeric_facts x Hx). }
  cbn [negb fail_if mbind result_bind].
  rewrite (replace_byte_absent " ") by (rewrite mem_byte_app, Hs; by destruct neg).
  assert (count_byte "-" (sign_bytes neg ++ body) ≤ 1)%nat as Hc.
  { unfold count_byte. rewrite List.filter_app, length_app.
    pose proof (count_byte_absent "-" body Hm) as Hz. unfold count_byte in Hz. rewrite Hz. destruct neg; simpl; lia. }
  destruct (Nat.ltb_spec 1 (count_byte "-" (sign_bytes neg ++ body))); [lia|]. cbn [orb].
  rewrite mem_byte_app, Hm. destruct neg; [|done]. simpl. by destruct body.
Qed.

Lemma digits_no_byte c l : is_digit c = false → forallb is_digit l = true → mem_byte c l = false.
Proof. intros Hc. apply mem_byte_digits. exact Hc. Qed.

Lemma concat_digits gs : Forall (λ g, forallb is_digit g = true) gs → forallb is_digit (List.concat gs) = true.
Proof. induction 1 as [|g gs Hg _ IH]; [done|]. simpl. by rewrite forallb_app, Hg. Qed.

Lemma join_numeric sep gs :
  numeric sep = true → Forall (λ g, forallb is_digit g = true) gs → forallb numeric (join_bytes [sep] gs) = true.
Proof.
  intros Hs. assert (∀ l, forallb is_digit l = true → forallb numeric l = true) as Hd.
  { intros l. apply forallb_impl. intros x Hx. unfold numeric. by rewrite Hx. }
  induction 1 as [|g gs Hg _ IH]; [done|]. destruct gs as [|g' gs]; [by apply Hd|].
  change (join_bytes [sep] (g :: g' :: gs)) with (g ++ sep :: join_bytes [sep] (g' :: gs)).
  rewrite forallb_app, Hd by done. cbn [forallb]. by rewrite Hs, IH.
Qed.

(** Groups separated by [sep], then the other separator [point] and a fraction *)
Lemma normalize_grouped neg sep point gs frac :
  (sep = "." ∧ point = "," ∨ sep = "," ∧ point = "." ∧ (1 < length gs)%nat)%char →
  gs ≠ [] → Forall (λ g, forallb is_digit g = true) gs → forallb is_digit frac = true →
  normalize_separators (sign_bytes neg ++ join_bytes [sep] gs ++ point :: frac) =
  sign_bytes neg ++ List.concat gs ++ "."%char :: frac.
Proof.
  intros Hsep Hne Hgs Hfrac. set (head := sign_bytes neg ++ join_bytes [sep] gs).
  assert (∀ c, is_digit c = false → Forall (λ g, mem_byte c g = false) gs) as Hmem.
  { intros c Hc. eapply Forall_impl; [exact Hgs|]. intros g Hg. by apply digits_no_byte. }
  assert (mem_byte point head = false) as Hpoint.
  { subst head. rewrite mem_byte_app, mem_byte_join; [destruct neg|..];
      destruct Hsep as [[-> ->]|(-> & -> & _)]; try done; by apply Hmem. }
  assert (replace_byte sep [] head = sign_bytes neg ++ List.concat gs) as Hrep.
  { subst head. rewrite replace_byte_app, replace_join, join_nil_concat.
    - f_equal. destruct neg; [|done]. by destruct Hsep as [[-> ->]|(-> & -> & _)].
    - apply Hmem. by destruct Hsep as [[-> ->]|(-> & -> & _)]. }
  rewrite app_assoc. fold head. unfold normalize_separators.
  rewrite !last_index_app, !mem_byte_cons.
  rewrite (digits_no_byte "," frac), (digits_no_byte "." frac) by done.
  destruct Hsep as [[-> ->]|(-> & -> & Hlen)].
  - change (beq "," ",") with true. change (beq "." ",") with false. cbn [orb].
    change (last_index "," (","%char :: frac)) with (last_index_aux "," 1 0 frac).
    rewrite last_index_aux_shift, (digits_no_byte "," frac) by done. rewrite Z.add_0_r.
    destruct (Z.leb_spec 0 (Z.of_nat (length head))); [|lia].
    destruct (mem_byte "." head) eqn:Hdot.
    + pose proof (last_index_range _ _ Hdot).
      destruct (Z.ltb_spec (last_index "." head) 0); [lia|]. destruct (Z.leb_spec 0 (last_index "." head)); [|lia].
      destruct (Z.ltb_spec (last_index "." head) (Z.of_nat (length head))); [|lia]. cbn [andb].
      rewrite replace_byte_app, Hrep, replace_byte_app.
      assert (mem_byte "," (sign_bytes neg ++ List.concat gs) = false) as Hno.
      { rewrite mem_byte_app, (digits_no_byte "," (List.concat gs)); [by destruct neg|done|by apply concat_digits]. }
      rewrite (replace_byte_absent "," _ (sign_bytes neg ++ List.concat gs)) by done.
      rewrite (replace_byte_absent "." [] (","%char :: frac)) by (rewrite mem_byte_cons; by rewrite digits_no_byte).
      rewrite replace_byte_cons_eq, replace_byte_absent by (by apply digits_no_byte). by rewrite <- app_assoc.
    + rewrite last_index_absent by done. cbn [andb]. change (-1 <? 0) with true. cbv iota.
      rewrite (replace_byte_absent "." [] head) in Hrep by done.
      rewrite replace_byte_app, (replace_byte_absent _ _ head), Hrep by done.
      rewrite replace_byte_cons_eq, replace_byte_absent by (by apply digits_no_byte). by rewrite <- app_assoc.
  - assert (mem_byte "," head = true) as Hcomma.
    { subst head. destruct gs as [|g [|g' gs]]; [done|simpl in Hlen; lia|].
      rewrite mem_byte_app, mem_byte_join_sep. apply orb_true_r. }
    change (beq "," ".") with false. change (beq "." ".") with true. cbn [orb].
    change (last_index "." ("."%char :: frac)) with (last_index_aux "." 1 0 frac).
    rewrite last_index_aux_shift, (digits_no_byte "." frac) by done. rewrite Z.add_0_r.
    pose proof (last_index_range _ _ Hcomma).
    destruct (Z.leb_spec 0 (last_index "," head)); [|lia].
    destruct (Z.ltb_spec (Z.of_nat (length head)) 0); [lia|]. destruct (Z.leb_spec 0 (Z.of_nat (length head))); [|lia].
    destruct (Z.ltb_spec (Z.of_nat (length head)) (last_index "," head)); [lia|]. cbn [andb].
    rewrite replace_byte_app, Hrep. rewrite (replace_byte_absent "," [] ("."%char :: frac)); [by rewrite <- app_assoc|].
    rewrite mem_byte_cons. by rewrite digits_no_byte.
Qed.

(** ** Properties *)

(** An amount means the same in both conventions.  Digit groups separated by
    dots with a decimal comma (Indonesian), and groups separated by commas with a
    decimal point (English, at least one separator), normalize to the same
    decimal, which the money parser reads as the digits' exact value. *)
Theorem NormalizeDecimal_conventions neg g gs frac :
  Forall (λ d, forallb is_digit d = true) (g :: gs) → g ≠ [] → gs ≠ [] →
  forallb is_digit frac = true → frac ≠ [] →
  let indonesian := of_bytes (sign_bytes neg ++ join_bytes ["."%char] (g :: gs) ++ ","%char :: frac) in
  let english := of_bytes (sign_bytes neg ++ join_bytes [","%char] (g :: gs) ++ "."%char :: frac) in
  NormalizeDecimal indonesian = NormalizeDecimal english ∧
  ∃ r, (NormalizeDecimal indonesian ≫= ParseMoney) = Ok r ∧
    (rat r == signed neg (digits_value (List.concat (g :: gs) ++ frac)) # Z.to_pos (10 ^ Z.of_nat (length frac)))%Q.
Proof.
  intros Hgs Hg Hne Hf Hfne indonesian english. set (groups := g :: gs) in *.
  assert (∀ sep point, numeric sep = true → numeric point = true →
    forallb numeric (join_bytes [sep] groups ++ point :: frac) = true) as Hnum.
  { intros sep point Hs Hp. rewrite forallb_app, join_numeric by done. cbn [forallb]. rewrite Hp. simpl.
    eapply forallb_impl; [|exact Hf]. intros x Hx. unfold numeric. by rewrite Hx. }
  assert (∀ sep point, join_bytes [sep] groups ++ point :: frac ≠ []) as Hnil.
  { intros sep point E. by apply app_eq_nil in E as [_ ?]. }
  subst indonesian english. rewrite !NormalizeDecimal_numeric by auto.
  rewrite (normalize_grouped neg "." ","), (normalize_grouped neg "," ".") by
    (try done; first [by left|right; split_and!; try done; subst groups; destruct gs; [done|simpl; lia]]).
  split; [done|]. cbn [mbind result_bind].
  assert (List.concat groups ≠ []) as Hcne by (subst groups; simpl; intros E; by apply app_eq_nil in E as [? _]).
  destruct (parse_decimal_digits neg (List.concat groups) frac (concat_digits _ Hgs) Hcne Hf) as [Htrim Hparse].
  rewrite bool_decide_eq_false_2 in Htrim, Hparse by done.
  unfold ParseMoney. rewrite bytes_of_bytes, Htrim, Hparse. eexists. split; [done|]. apply rat_of_rat.
Qed.
Lemma NormalizeDecimal_conventions_witness :
  NormalizeDecimal "-1.234.567,89" = NormalizeDecimal "-1,234,567.89" ∧
  NormalizeDecimal "-1,234,567.89" = Ok "-1234567.89"%string.
Proof.
  split; [|vm_compute; reflexivity].
  apply (NormalizeDecimal_conventions true ["1"%char] [bytes "234"; bytes "567"] (bytes "89"));
    [repeat constructor|discriminate|discriminate|reflexivity|discriminate].
Defined.

(** A single dot before exactly three digits is a thousands separator when at
    most three characters precede it -- the minus sign included, so a negative
    amount of three digits is read a thousand times smaller. *)
Lemma NormalizeDecimal_negative_thousands :
  NormalizeDecimal "123.456" = Ok "123456"%string ∧ NormalizeDecimal "-12.345" = Ok "-12345"%string ∧
  NormalizeDecimal "-123.456" = Ok "-123.456"%string ∧ NormalizeDecimal "-1.123.456" = Ok "-1123456"%string.
Proof. split_and!; vm_compute; reflexivity. Qed.
