(* ===== verification/Fincloud.v ===== *)
(** The Fincloud client, [internal/fincloud]: the request loop with its session,
    the mapping of a loan from the JSON of the core banking service, the
    resolution of an account, the reports and the sign-in check.

    Fincloud itself is a parameter: [upstream] answers a request, and may depend
    on every request made before.  The client's state is the log of its requests
    and the two fields of its session manager.  One caller at a time is modelled
    here, so nobody waits for another's sign-in; the concurrent session manager,
    with the waiting and its errors, is in Sessions.v.

    What [http.NewRequestWithContext] says of a request (it refuses a URL that does
    not parse) is a parameter too, [request_fault]. *)
From stdpp Require Import base list gmap strings.
From Stdlib Require Import ZArith Lia Ascii QArith.
From S2P Require Import Prelude GoStrings GoErrors GoTime Dates Money LoanModel GoJSON Decimal.
Local Open Scope Z_scope.

(** ** Requests and responses *)

(** What a response body gives: its bytes, then the end or an error *)
Record reader := { content : list ascii; read_fault : option err }.
Record response := { StatusCode : Z; Body : reader; close_fault : option err }.

Record request := {
  Method : string;
  Path : string;
  Query : list (string * string);   (* url.Values, by key *)
  Form : list (string * string);
  sessionid : option string         (* the header *)
}.

Definition defaultJSONLimit : Z := 8 * 2 ^ 20.
Definition defaultReportLimit : Z := 100 * 2 ^ 20.

(** [io.ReadAll] of a reader limited to one byte more than [limit] *)
Definition readBounded (r : reader) (limit : Z) : res (list ascii) :=
  fail_if (limit <=? 0) (Msg "response limit must be positive");;
  fail_if (limit <? Z.of_nat (length (content r))) (Msg "upstream response exceeds %d bytes");;
  match read_fault r with
  | Some e => Fail e
  | None => Ok (content r)
  end.

(** ** What a response says *)

Section Messages.
Context (unicode_lower : string → string).
Let ToLower := to_lower_with unicode_lower.

Record message_envelope := { me_Status : string; me_Description : string; me_System : string }.
Definition decode_message_envelope : decoder message_envelope := fun current j =>
  let names := ["status"; "description"; "error"]%string in
  members ← members_of j;
  status ← decode_field names "status" decode_string (me_Status current) members;
  description ← decode_field names "description" decode_string (me_Description current) members;
  system ← decode_field names "error" (decode_struct1 "system" decode_string) (me_System current) members;
  Some {| me_Status := status; me_Description := description; me_System := system |}.

Definition responseMessage (body : list ascii) : string * string :=
  match Unmarshal decode_message_envelope {| me_Status := ""; me_Description := ""; me_System := "" |} (trim_bytes body) with
  | None => (EmptyString, EmptyString)
  | Some envelope => (TrimSpace (me_Description envelope ++ " " ++ me_System envelope), me_Status envelope)
  end.

Definition isAuthenticationResponse (body : list ascii) : bool :=
  let '(message, status) := responseMessage body in
  if seqb status "ok" then false else
  let has := Contains (ToLower message) in
  has "not logged" || has "not login" || has "login required" || has "authentication required" ||
  has "unauthorized" ||
  (has "session" && (has "expired" || has "invalid" || has "timeout" || has "not found")).

Definition isCredentialResponse (body : list ascii) : bool :=
  let '(message, _) := responseMessage body in
  let has := Contains (ToLower message) in
  (has "password" || has "username" || has "credential" || has "login") &&
  (has "invalid" || has "wrong" || has "incorrect" || has "reject").

(** [strings.EqualFold] with "Data not found", whose letters fold with ASCII only *)
Definition isNotFoundResponse (body : list ascii) : bool :=
  let '(message, status) := responseMessage body in
  negb (seqb status "ok") &&
  bool_decide (lower_byte <$> bytes (TrimSpace message) = bytes "data not found").
End Messages.

(** ** The client *)

Record Config := {
  locationID : string; roleID : string; username : string; password : string; maxReportSize : Z;
  unicode_lower : string → string;
  request_fault : request → option err
}.

Record client_state := { exchanges : list request; session : string; retired : string }.
Definition client (A : Type) : Type := client_state → res A * client_state.
#[export] Instance client_ret : MRet client := fun A a st => (Ok a, st).
#[export] Instance client_bind : MBind client := fun A B f m st =>
  match m st with
  | (Ok a, st') => f a st'
  | (Fail e, st') => (Fail e, st')
  end.
Definition client_fail {A} (e : err) : client A := fun st => (Fail e, st).
Definition client_lift {A} (r : res A) : client A := fun st => (r, st).

(** The request that [newRequest] is asked for *)
Definition target (method path : string) (query form : list (string * string)) : request :=
  {| Method := method; Path := path; Query := query; Form := form; sessionid := None |}.
Definition newRequest (fault : request → option err) (r : request) : res request :=
  match fault r with
  | Some e => Fail (Wrap "build Fincloud request: %w" e)
  | None => Ok r
  end.
Definition with_session (r : request) (session : string) : request :=
  {| Method := Method r; Path := Path r; Query := Query r; Form := Form r; sessionid := Some session |}.

Definition unavailable (e : err) : err := JoinErr [Sentinel ErrFincloudUnavailable; e].
(** [if err != nil { return errors.Join(loan.ErrFincloudUnavailable, err) }] *)
Definition or_unavailable {A} (r : res A) : res A :=
  match r with Ok a => Ok a | Fail e => Fail (unavailable e) end.

Section Client.
Context (config : Config) (upstream : list request → request → res response).

(** [client.http.Do] *)
Definition http_Do (r : request) : client response := fun st =>
  (upstream (exchanges st) r,
   {| exchanges := exchanges st ++ [r]; session := session st; retired := retired st |}).

Definition envelope_names : list string := ["status"; "data"]%string.
Definition decode_login : decoder (string * string) := fun current j =>
  members ← members_of j;
  status ← decode_field envelope_names "status" decode_string current.1 members;
  id ← decode_field envelope_names "data" (decode_struct1 "result" (decode_struct1 "sessionid" decode_string)) current.2 members;
  Some (status, id).

Definition login_response (response : response) : res string :=
  body ← or_unavailable (readBounded (Body response) defaultJSONLimit);
  fail_if (500 <=? StatusCode response) (errorf ErrFincloudUnavailable "%w: login returned HTTP %d");;
  fail_if ((StatusCode response =? 401) || (StatusCode response =? 403) || (StatusCode response =? 400))
          (Sentinel ErrFincloudCredentials);;
  fail_if (negb (StatusCode response =? 200)) (errorf ErrFincloudUnavailable "%w: login returned HTTP %d");;
  match Unmarshal decode_login (EmptyString, EmptyString) body with
  | None => Fail (unavailable (Wrap "decode login response: %w" (Msg "json")))
  | Some (status, id) =>
      if negb (seqb status "ok") then
        if isCredentialResponse (unicode_lower config) body then Fail (Sentinel ErrFincloudCredentials)
        else Fail (unavailable (Msg "Fincloud login was rejected without a credential error"))
      else
        fail_if (seqb (TrimSpace id) EmptyString) (unavailable (Msg "Fincloud login response omitted session ID"));;
        Ok (TrimSpace id)
  end.

Definition login_request : request :=
  target "POST" "/admin/access/login" []
    [("locationid", locationID config); ("pwd", password config); ("roleid", roleID config);
     ("username", username config)]%string.
Definition login : client string := fun st =>
  match newRequest (request_fault config) login_request with
  | Fail e => (Fail e, st)
  | Ok request =>
      let '(r, st') := http_Do request st in (response ← or_unavailable r; login_response response, st')
  end.

Definition logout (session : string) : client unit :=
  request ← client_lift (newRequest (request_fault config) (target "POST" "/admin/access/logout" [] []));
  response ← http_Do (with_session request session);
  client_lift (fail_if ((StatusCode response <? 200) || (300 <=? StatusCode response))
                       (Msg "Fincloud logout returned HTTP %d")).

(** [SessionManager.Session] for one caller: no sign-in of another is in flight, so the
    part that waits for one ([select] on its channel, with the error of the context) is
    not here but in Sessions.v *)
Definition Session : client string := fun st =>
  if negb (seqb (session st) EmptyString) then (Ok (session st), st) else
  match login st with
  | (Fail e, st') => (Fail e, st')
  | (Ok id, st') =>
      if seqb id EmptyString then (Fail (Msg "Fincloud login returned empty session"), st') else
      let old := retired st' in
      let st' := {| exchanges := exchanges st'; session := id; retired := EmptyString |} in
      if negb (seqb old EmptyString) && negb (seqb old id) then (Ok id, snd (logout old st')) else (Ok id, st')
  end.
(** [SessionManager.Invalidate] *)
Definition Invalidate (id : string) : client unit := fun st =>
  (Ok tt, if negb (seqb id EmptyString) && seqb (session st) id
          then {| exchanges := exchanges st; session := EmptyString; retired := id |} else st).
(** [SessionManager.Close] *)
Definition Close : client unit := fun st =>
  let st' := {| exchanges := exchanges st; session := EmptyString; retired := retired st |} in
  if seqb (session st) EmptyString then (Ok tt, st') else logout (session st) st'.

(** What one attempt's response means: retry with another session, or an answer *)
Inductive verdict := Unauthenticated | Answer (r : res (list ascii)).
Definition judge (limit : Z) (response : response) : verdict :=
  match readBounded (Body response) limit with
  | Fail e => Answer (Fail (unavailable e))
  | Ok body =>
      match close_fault response with
      | Some e => Answer (Fail (unavailable e))
      | None =>
          if (StatusCode response =? 401) || (StatusCode response =? 403) ||
             isAuthenticationResponse (unicode_lower config) body then Unauthenticated
          else if (StatusCode response =? 404) || isNotFoundResponse body then Answer (Fail (Sentinel ErrNotFound))
          else if (StatusCode response <? 200) || (300 <=? StatusCode response)
          then Answer (Fail (errorf ErrFincloudUnavailable "%w: HTTP %d"))
          else Answer (Ok body)
      end
  end.

Definition send (limit : Z) (r : request) : client verdict := fun st =>
  match http_Do r st with
  | (Fail e, st') => (Fail (unavailable e), st')
  | (Ok response, st') => (Ok (judge limit response), st')
  end.

(** The loop of [do]; [attempts] attempts are left and [attempt] is the number of the next *)
Fixpoint do_loop (attempts : nat) (attempt : nat) (limit : Z) (build : string → res request) : client (list ascii) :=
  match attempts with
  | O => client_fail (Sentinel ErrFincloudSession)
  | S attempts' =>
      id ← Session;
      request ← client_lift (build id);
      v ← send limit (with_session request id);
      match v with
      | Answer r => client_lift r
      | Unauthenticated =>
          Invalidate id;;
          if (attempt =? 0)%nat then do_loop attempts' (S attempt) limit build
          else client_fail (Sentinel ErrFincloudSession)
      end
  end.
Definition do (limit : Z) (build : string → res request) : client (list ascii) := do_loop 2 0 limit build.

(** [stripBOM] *)
Definition stripBOM (body : list ascii) : list ascii :=
  let bom := [chr 239; chr 187; chr 191] in if has_prefix_bytes body bom then drop 3 body else body.

Definition DownloadMaintenanceReport (file path : string) : client (list ascii) :=
  body ← do (maxReportSize config) (fun session =>
    newRequest (request_fault config) (target "GET" "/system/downloaderlaporan/download.php"
      [("file", file); ("path", path); ("sessionId", session)]%string []));
  mret (stripBOM body).
Definition named_report_request (name : string) (params : list string) : request :=
  target "GET" "/system/laporanUmum/data/lap"
    [("nm", name); ("p", of_bytes (marshal_strings params)); ("type", "csv")]%string [].
Definition DownloadNamedReport (name : string) (params : list string) : client (list ascii) :=
  body ← do (maxReportSize config) (fun _ => newRequest (request_fault config) (named_report_request name params));
  mret (stripBOM body).
End Client.

(** ** The loan of a response, [loan.go] *)

Record scalar := { value : string; present : bool }.
Definition ZeroScalar : scalar := {| value := EmptyString; present := false |}.
(** [scalar.UnmarshalJSON] *)
Definition decode_scalar : decoder scalar := fun _ j =>
  match j with
  | JNull => Some {| value := EmptyString; present := true |}
  | JString s => Some {| value := s; present := true |}
  | JNumber n => Some {| value := n; present := true |}
  | _ => None
  end.

Record scheduleDTO := { sd_Date : string; sd_InstallmentNo : Z; sd_PaymentStatus : string }.
Definition decode_schedule : decoder scheduleDTO := fun current j =>
  let names := ["tanggal"; "angsuranke"; "statusbayar"]%string in
  members ← members_of j;
  date ← decode_field names "tanggal" decode_string (sd_Date current) members;
  number ← decode_field names "angsuranke" decode_int (sd_InstallmentNo current) members;
  status ← decode_field names "statusbayar" decode_string (sd_PaymentStatus current) members;
  Some {| sd_Date := date; sd_InstallmentNo := number; sd_PaymentStatus := status |}.

Record repaymentDTO := {
  rd_Date : string; rd_Principal : scalar; rd_Interest : scalar; rd_Penalty : scalar;
  rd_EarlyPenalty : scalar; rd_DWP : scalar; rd_Total : scalar; rd_JournalNumber : string
}.
Definition decode_repayment : decoder repaymentDTO := fun current j =>
  let names := ["tglbayar"; "bayar_pokok"; "bayar_bunga"; "bayar_denda"; "bayar_dendapelunasan"; "nominaldwp";
                "totalbayar"; "nojurnal"]%string in
  members ← members_of j;
  date ← decode_field names "tglbayar" decode_string (rd_Date current) members;
  principal ← decode_field names "bayar_pokok" decode_scalar (rd_Principal current) members;
  interest ← decode_field names "bayar_bunga" decode_scalar (rd_Interest current) members;
  penalty ← decode_field names "bayar_denda" decode_scalar (rd_Penalty current) members;
  early ← decode_field names "bayar_dendapelunasan" decode_scalar (rd_EarlyPenalty current) members;
  dwp ← decode_field names "nominaldwp" decode_scalar (rd_DWP current) members;
  total ← decode_field names "totalbayar" decode_scalar (rd_Total current) members;
  journal ← decode_field names "nojurnal" decode_string (rd_JournalNumber current) members;
  Some {| rd_Date := date; rd_Principal := principal; rd_Interest := interest; rd_Penalty := penalty;
          rd_EarlyPenalty := early; rd_DWP := dwp; rd_Total := total; rd_JournalNumber := journal |}.

Record loanDTO := {
  ld_ID : string; ld_NoAlt : string; ld_CIF : string; ld_CIFNumber : string; ld_CustomerName : string;
  ld_Branch : string; ld_Product : string; ld_PlafondLimit : scalar; ld_Tenor : scalar; ld_FlatRate : scalar;
  ld_ReferenceRate : scalar; ld_Collectability : Z; ld_PrincipalDue : scalar; ld_InterestDue : scalar;
  ld_PenaltyDue : scalar; ld_Status : string; ld_CloseDateLegacy : string; ld_CloseDateObject : string;
  ld_Schedule : list scheduleDTO; ld_Repayments : list repaymentDTO
}.
Definition ZeroLoanDTO : loanDTO :=
  {| ld_ID := ""; ld_NoAlt := ""; ld_CIF := ""; ld_CIFNumber := ""; ld_CustomerName := ""; ld_Branch := "";
     ld_Product := ""; ld_PlafondLimit := ZeroScalar; ld_Tenor := ZeroScalar; ld_FlatRate := ZeroScalar;
     ld_ReferenceRate := ZeroScalar; ld_Collectability := 0; ld_PrincipalDue := ZeroScalar;
     ld_InterestDue := ZeroScalar; ld_PenaltyDue := ZeroScalar; ld_Status := ""; ld_CloseDateLegacy := "";
     ld_CloseDateObject := ""; ld_Schedule := []; ld_Repayments := [] |}.
Definition ZeroSchedule : scheduleDTO := {| sd_Date := ""; sd_InstallmentNo := 0; sd_PaymentStatus := "" |}.
Definition ZeroRepayment : repaymentDTO :=
  {| rd_Date := ""; rd_Principal := ZeroScalar; rd_Interest := ZeroScalar; rd_Penalty := ZeroScalar;
     rd_EarlyPenalty := ZeroScalar; rd_DWP := ZeroScalar; rd_Total := ZeroScalar; rd_JournalNumber := "" |}.

Definition loan_names : list string :=
  ["id"; "noalt"; "nocif"; "cifno"; "namanasabah"; "rec_dibuat_lokasi"; "produkid"; "plafondlimit"; "jangkawaktu";
   "bungaflat"; "produk_sukubunga"; "kolekbi"; "tunggakanpokok"; "tunggakanbunga"; "dendatunggakan";
   "statusrekening"; "tgltutup"; "tgl_tutup"; "jadwalangsuran"; "historybayar"]%string.
Definition decode_loan : decoder loanDTO := fun current j =>
  members ← members_of j;
  let text := fun name (get : loanDTO → string) => decode_field loan_names name decode_string (get current) members in
  let number := fun name (get : loanDTO → scalar) => decode_field loan_names name decode_scalar (get current) members in
  id ← text "id"%string ld_ID; noalt ← text "noalt"%string ld_NoAlt; cif ← text "nocif"%string ld_CIF;
  cifno ← text "cifno"%string ld_CIFNumber; name ← text "namanasabah"%string ld_CustomerName;
  branch ← text "rec_dibuat_lokasi"%string ld_Branch; product ← text "produkid"%string ld_Product;
  plafond ← number "plafondlimit"%string ld_PlafondLimit; tenor ← number "jangkawaktu"%string ld_Tenor;
  flat ← number "bungaflat"%string ld_FlatRate; reference ← number "produk_sukubunga"%string ld_ReferenceRate;
  collectability ← decode_field loan_names "kolekbi" decode_int (ld_Collectability current) members;
  principal ← number "tunggakanpokok"%string ld_PrincipalDue; interest ← number "tunggakanbunga"%string ld_InterestDue;
  penalty ← number "dendatunggakan"%string ld_PenaltyDue; status ← text "statusrekening"%string ld_Status;
  legacy ← text "tgltutup"%string ld_CloseDateLegacy;
  close ← decode_field loan_names "tgl_tutup" (decode_struct1 "date" decode_string) (ld_CloseDateObject current) members;
  schedule ← decode_field loan_names "jadwalangsuran" (decode_slice decode_schedule ZeroSchedule) (ld_Schedule current) members;
  repayments ← decode_field loan_names "historybayar" (decode_slice decode_repayment ZeroRepayment) (ld_Repayments current) members;
  Some {| ld_ID := id; ld_NoAlt := noalt; ld_CIF := cif; ld_CIFNumber := cifno; ld_CustomerName := name;
          ld_Branch := branch; ld_Product := product; ld_PlafondLimit := plafond; ld_Tenor := tenor;
          ld_FlatRate := flat; ld_ReferenceRate := reference; ld_Collectability := collectability;
          ld_PrincipalDue := principal; ld_InterestDue := interest; ld_PenaltyDue := penalty; ld_Status := status;
          ld_CloseDateLegacy := legacy; ld_CloseDateObject := close; ld_Schedule := schedule;
          ld_Repayments := repayments |}.

Definition parseMoney (raw : string) : res Money :=
  or_unavailable (match NormalizeDecimal raw ≫= ParseMoney with
                  | Ok m => Ok m
                  | Fail e => Fail (Wrap "invalid %s: %w" e)
                  end).
Definition blank (s : scalar) : bool := negb (present s) || empty (TrimSpace (value s)).
Definition requiredMoney (s : scalar) : res Money :=
  if blank s then Fail (unavailable (Msg "missing %s")) else parseMoney (value s).
Definition optionalMoney (s : scalar) : res Money := if blank s then Ok MoneyZero else parseMoney (value s).

(** [tenorPattern.FindString]: the first run of digits *)
Fixpoint first_digits (l : list ascii) : list ascii :=
  match l with
  | c :: rest => if is_digit c then fst (digit_run l) else first_digits rest
  | [] => []
  end.

Definition parseDate (raw : string) (location : option Location) : res Date :=
  let raw := bytes (TrimSpace raw) in
  ParseDate (of_bytes (if (10 <=? length raw)%nat then take 10 raw else raw)) location.

(** The close date: [tgl_tutup.date] before [tgltutup], which must agree where both are dates *)
Definition close_date (source : loanDTO) (location : option Location) : res Date :=
  let objectDate := TrimSpace (ld_CloseDateObject source) in
  let legacyDate := TrimSpace (ld_CloseDateLegacy source) in
  if negb (empty objectDate) then
    match parseDate objectDate location with
    | Fail e => Fail (unavailable (Wrap "invalid tgl_tutup.date: %w" e))
    | Ok date =>
        fail_if (negb (empty legacyDate) &&
                 match parseDate legacyDate location with Ok legacy => negb (Equal legacy date) | Fail _ => false end)
                (unavailable (Msg "conflicting tgltutup and tgl_tutup dates"));;
        Ok date
    end
  else if negb (empty legacyDate) then
    match parseDate legacyDate location with
    | Fail e => Fail (unavailable (Wrap "invalid tgltutup: %w" e))
    | Ok date => Ok date
    end
  else Ok ZeroDate.

Definition map_repayment (location : option Location) (index : nat) (row : repaymentDTO) : res Repayment :=
  date ← match parseDate (rd_Date row) location with
         | Ok date => Ok date
         | Fail e => Fail (unavailable (Wrap "invalid repayment date: %w" e))
         end;
  principal ← requiredMoney (rd_Principal row);
  interest ← requiredMoney (rd_Interest row);
  total ← requiredMoney (rd_Total row);
  penalty ← optionalMoney (rd_Penalty row);
  earlyPenalty ← optionalMoney (rd_EarlyPenalty row);
  dwp ← optionalMoney (rd_DWP row);
  Ok {| rp_Date := date; rp_PrincipalComponent := principal; rp_InterestComponent := interest;
        rp_PenaltyComponent := penalty; rp_EarlyPenaltyComponent := earlyPenalty; rp_DWPComponent := dwp;
        rp_TotalPayment := total; rp_JournalNumber := TrimSpace (rd_JournalNumber row);
        rp_SourceOrder := Z.of_nat index |}.
Fixpoint map_repayments (location : option Location) (index : nat) (rows : list repaymentDTO) : res (list Repayment) :=
  match rows with
  | [] => Ok []
  | row :: rest =>
      repayment ← map_repayment location index row;
      repayments ← map_repayments location (S index) rest;
      Ok (repayment :: repayments)
  end.

Definition map_evidence (row : scheduleDTO) : ContractualInstallmentEvidence :=
  {| ev_Number := sd_InstallmentNo row; ev_RawDueDate := sd_Date row; ev_RawPaymentStatus := sd_PaymentStatus row |}.

Definition mapLoan (source : loanDTO) (location : option Location) : res ContractData :=
  fail_if (match location with None => true | Some _ => false end) (Msg "business timezone is required");;
  principal ← requiredMoney (ld_PlafondLimit source);
  flatRate ← requiredMoney (ld_FlatRate source);
  referenceRate ← optionalMoney (ld_ReferenceRate source);
  principalDue ← optionalMoney (ld_PrincipalDue source);
  interestDue ← optionalMoney (ld_InterestDue source);
  penaltyDue ← optionalMoney (ld_PenaltyDue source);
  tenor ← match atoi_bytes (first_digits (bytes (TrimSpace (value (ld_Tenor source))))) with
          | Some tenor => if negb (present (ld_Tenor source)) || (tenor <=? 0)
                          then Fail (unavailable (Msg "invalid jangkawaktu")) else Ok tenor
          | None => Fail (unavailable (Msg "invalid jangkawaktu"))
          end;
  close ← close_date source location;
  repayments ← map_repayments location 0 (ld_Repayments source);
  let cif := TrimSpace (ld_CIF source) in
  Ok {| cd_PrimaryAccount := TrimSpace (ld_ID source); cd_AlternateAccount := TrimSpace (ld_NoAlt source);
        cd_CIF := if empty cif then TrimSpace (ld_CIFNumber source) else cif;
        cd_CustomerName := TrimSpace (ld_CustomerName source); cd_Branch := TrimSpace (ld_Branch source);
        cd_Product := TrimSpace (ld_Product source); cd_PlafondLimit := principal; cd_TenorMonths := tenor;
        cd_FlatRatePercent := flatRate; cd_ReferenceRatePercent := referenceRate;
        cd_CurrentCollectability := ld_Collectability source; cd_CurrentPrincipalDue := principalDue;
        cd_CurrentInterestDue := interestDue; cd_PenaltyDue := penaltyDue; cd_Status := TrimSpace (ld_Status source);
        cd_CloseDate := close; cd_RawScheduleCount := Z.of_nat (length (ld_Schedule source));
        cd_ContractScheduleEvidence := Some (map_evidence <$> ld_Schedule source); cd_ContractSchedule := [];
        cd_Repayments := repayments |}.

(** ** Resolving an account *)

Record search_row := { sr_ID : string; sr_NoAlt : string }.
Definition decode_search_row : decoder search_row := fun current j =>
  members ← members_of j;
  id ← decode_field ["id"; "noalt"]%string "id" decode_string (sr_ID current) members;
  noalt ← decode_field ["id"; "noalt"]%string "noalt" decode_string (sr_NoAlt current) members;
  Some {| sr_ID := id; sr_NoAlt := noalt |}.

(** {"status": ..., "data": {"result": ...}} *)
Definition decode_envelope {T} (dec : decoder T) : decoder (string * T) := fun current j =>
  members ← members_of j;
  status ← decode_field envelope_names "status" decode_string current.1 members;
  result ← decode_field envelope_names "data" (decode_struct1 "result" dec) current.2 members;
  Some (status, result).

Definition loan_of_body (body : list ascii) (location : option Location) : res ContractData :=
  match Unmarshal (decode_envelope decode_loan) (EmptyString, ZeroLoanDTO) body with
  | None => Fail (unavailable (Wrap "decode loan detail: %w" (Msg "json")))
  | Some (status, result) =>
      fail_if (negb (seqb status "ok")) (Sentinel ErrFincloudUnavailable);;
      fail_if (empty (TrimSpace (ld_ID result))) (Sentinel ErrNotFound);;
      mapLoan result location
  end.

(** The primary accounts of the search that the alternate number may stand for *)
Definition candidate (alternate : string) (row : search_row) : option string :=
  let primary := TrimSpace (sr_ID row) in
  let returnedAlternate := TrimSpace (sr_NoAlt row) in
  if negb (empty primary) && (empty returnedAlternate || seqb returnedAlternate alternate) then Some primary else None.
Definition candidates (alternate : string) (rows : list search_row) : gset string :=
  list_to_set (omap (candidate alternate) rows).
Definition only_candidate (found : gset string) : res string :=
  match elements found with
  | [] => Fail (Sentinel ErrNotFound)
  | [primary] => Ok primary
  | _ => Fail (Sentinel ErrAmbiguousAccountResolution)
  end.
Definition search_rows (body : list ascii) : option (string * list search_row) :=
  Unmarshal (decode_envelope (decode_slice decode_search_row {| sr_ID := ""; sr_NoAlt := "" |})) (EmptyString, []) body.
Definition alternate_of_body (alternate : string) (body : list ascii) : res string :=
  match search_rows body with
  | None => Fail (unavailable (Wrap "decode alternate search: %w" (Msg "json")))
  | Some (status, rows) =>
      fail_if (negb (seqb status "ok")) (Sentinel ErrFincloudUnavailable);;
      only_candidate (candidates alternate rows)
  end.

Definition loan_request (account : string) : request :=
  target "GET" "/pinjaman/inquiry/rekening/pinjaman" [("id", account)]%string [].
Definition search_request (alternate : string) : request :=
  target "GET" "/pinjaman/inquiry/rekening/cari"
    [("cabang", "ALL"); ("noalt", alternate); ("pagesize", "50")]%string [].

Section Accounts.
Context (config : Config) (upstream : list request → request → res response).

Definition GetLoan (account : string) (location : option Location) : client ContractData :=
  let account := TrimSpace account in
  client_lift (fail_if (empty account) (errorf ErrInvalidInput "%w: account number is required"));;
  body ← do config upstream defaultJSONLimit (fun _ => newRequest (request_fault config) (loan_request account));
  client_lift (loan_of_body body location).

Definition resolveAlternate (alternate : string) : client string :=
  body ← do config upstream defaultJSONLimit (fun _ => newRequest (request_fault config) (search_request alternate));
  client_lift (alternate_of_body alternate body).

(** The second part of [ResolveLoan], after no loan was found under the account itself *)
Definition resolve_by_alternate (account : string) (location : option Location) : client ContractData :=
  primary ← resolveAlternate account;
  detail ← GetLoan primary location;
  client_lift (
    fail_if (negb (seqb (cd_PrimaryAccount detail) primary))
            (errorf ErrInvariant "%w: Fincloud returned primary %q after resolving %q");;
    Ok detail).

Definition ResolveLoan (account : string) (location : option Location) : client ContractData := fun st =>
  let account := TrimSpace account in
  if empty account then (Fail (errorf ErrInvalidInput "%w: account number is required"), st) else
  match GetLoan account location st with
  | (Ok detail, st') => (Ok detail, st')
  | (Fail e, st') =>
      if negb (Is e ErrNotFound) then (Fail e, st') else resolve_by_alternate account location st'
  end.

Definition CIF_of_body (body : list ascii) : res (gmap string json) :=
  match Unmarshal (decode_envelope decode_map) (EmptyString, None) body with
  | Some (status, Some result) =>
      if seqb status "ok" then Ok result else Fail (unavailable (Msg "invalid CIF response"))
  | _ => Fail (unavailable (Msg "invalid CIF response"))
  end.
Definition GetCIF (cif : string) : client (gmap string json) :=
  body ← do config upstream defaultJSONLimit (fun _ =>
    newRequest (request_fault config) (target "GET" "/cif/inquiry/cif/cif" [("nocif", TrimSpace cif)]%string []));
  client_lift (CIF_of_body body).
End Accounts.

(** ** Signing a user in, [authenticator.go] *)

Section Authenticator.
Context (fault : request → option err) (upstream : list request → request → res response).

(** [Authenticator.request] *)
Definition authenticator_request (r : request) : res request :=
  match fault r with
  | Some e => Fail (Wrap "build Fincloud authentication request: %w" e)
  | None => Ok r
  end.
Definition authenticator_logout (session : string) : client unit :=
  request ← client_lift (authenticator_request (target "POST" "/admin/access/logout" [] []));
  response ← http_Do upstream (with_session request session);
  client_lift (fail_if ((StatusCode response <? 200) || (300 <=? StatusCode response))
                       (Msg "Fincloud logout returned HTTP %d")).

Definition authenticate_response (response : response) : res string :=
  body ← match readBounded (Body response) defaultJSONLimit with
         | Ok body => Ok body
         | Fail e => Fail (Wrap "read Fincloud authentication response: %w" e)
         end;
  fail_if ((StatusCode response =? 400) || (StatusCode response =? 401) || (StatusCode response =? 403))
          (Sentinel FincloudErrInvalidCredentials);;
  fail_if ((StatusCode response <? 200) || (300 <=? StatusCode response))
          (Msg "Fincloud authentication returned HTTP %d");;
  match Unmarshal (decode_envelope (decode_struct1 "sessionid" decode_string)) (EmptyString, EmptyString) body with
  | None => Fail (Wrap "decode Fincloud authentication response: %w" (Msg "json"))
  | Some (status, id) =>
      fail_if (negb (seqb status "ok")) (Sentinel FincloudErrInvalidCredentials);;
      fail_if (empty (TrimSpace id)) (Msg "Fincloud authentication response omitted session ID");;
      Ok (TrimSpace id)
  end.

Definition authenticate_request (username password locationID roleID : string) : request :=
  target "POST" "/admin/access/login" []
    [("locationid", TrimSpace locationID); ("pwd", password); ("roleid", TrimSpace roleID);
     ("username", TrimSpace username)]%string.

(** The outcome of the sign-out is logged only. *)
Definition Authenticate (username password locationID roleID : string) : client unit := fun st =>
  match authenticator_request (authenticate_request username password locationID roleID) with
  | Fail e => (Fail e, st)
  | Ok request =>
      match http_Do upstream request st with
      | (Fail e, st') => (Fail (Wrap "Fincloud authentication unavailable: %w" e), st')
      | (Ok response, st') =>
          match authenticate_response response with
          | Fail e => (Fail e, st')
          | Ok id => (Ok tt, snd (authenticator_logout id st'))
          end
      end
  end.

Record AuthLabel := { al_ID : string; al_Description : string }.
Record AuthLabels := { Locations : list AuthLabel; Roles : list AuthLabel }.
Definition decode_label : decoder AuthLabel := fun current j =>
  members ← members_of j;
  id ← decode_field ["id"; "descr"]%string "id" decode_string (al_ID current) members;
  description ← decode_field ["id"; "descr"]%string "descr" decode_string (al_Description current) members;
  Some {| al_ID := id; al_Description := description |}.
Definition decode_labels : decoder AuthLabels := fun current j =>
  let names := ["locationid"; "roleid"]%string in
  let zero := {| al_ID := ""; al_Description := "" |} in
  members ← members_of j;
  locations ← decode_field names "locationid" (decode_slice decode_label zero) (Locations current) members;
  roles ← decode_field names "roleid" (decode_slice decode_label zero) (Roles current) members;
  Some {| Locations := locations; Roles := roles |}.

Definition Labels : client AuthLabels := fun st =>
  match authenticator_request (target "GET" "/admin/access/listvalues" [] []) with Fail e => (Fail e, st) | Ok request =>
  match http_Do upstream request st with
  | (Fail e, st') => (Fail (Wrap "load Fincloud authentication labels: %w" e), st')
  | (Ok response, st') =>
      (body ← match readBounded (Body response) defaultJSONLimit with
              | Ok body => Ok body
              | Fail e => Fail (Wrap "read Fincloud authentication labels: %w" e)
              end;
       fail_if ((StatusCode response <? 200) || (300 <=? StatusCode response))
               (Msg "Fincloud authentication labels returned HTTP %d");;
       match Unmarshal (decode_envelope decode_labels) (EmptyString, {| Locations := []; Roles := [] |}) body with
       | Some (status, labels) =>
           if seqb status "ok" then Ok labels else Fail (Msg "decode Fincloud authentication labels")
       | None => Fail (Msg "decode Fincloud authentication labels")
       end, st')
  end end.
End Authenticator.

(** ** The request loop *)

Lemma client_bind_inv {A B} (m : client A) (k : A → client B) st r st' :
  (m ≫= k) st = (r, st') →
  (∃ e, m st = (Fail e, st') ∧ r = Fail e) ∨ (∃ a st1, m st = (Ok a, st1) ∧ k a st1 = (r, st')).
Proof.
  unfold mbind, client_bind. destruct (m st) as [[a|e] st1]; intros H; [right; by eexists _, _|].
  injection H as <- <-. left. by eexists.
Qed.

Definition access_path (r : request) : bool :=
  seqb (Path r) "/admin/access/login" || seqb (Path r) "/admin/access/logout".
(** The requests other than signing in and out *)
Definition data_requests (l : list request) : list request := List.filter (fun r => negb (access_path r)) l.

Lemma data_requests_app l l' : data_requests (l ++ l') = data_requests l ++ data_requests l'.
Proof. apply List.filter_app. Qed.

(** ** What the answers of Fincloud come to

    These tables say, from the status and the body of a response alone, what the
    client makes of it; the lemmas below show that the code does. *)

Section Tables.
Context (config : Config) (limit : Z).

(** A response that was read to its end, and closed *)
Definition received (response : response) (body : list ascii) : Prop :=
  readBounded (Body response) limit = Ok body ∧ close_fault response = None.
(** It refuses the session: by its status, or by its message. *)
Definition refuses (response : response) (body : list ascii) : Prop :=
  StatusCode response = 401 ∨ StatusCode response = 403 ∨ isAuthenticationResponse (unicode_lower config) body = true.
Definition missing (response : response) (body : list ascii) : Prop :=
  StatusCode response = 404 ∨ isNotFoundResponse body = true.

(** What the caller is told of an answer that does not refuse the session *)
Inductive told : res response → res (list ascii) → Prop :=
| told_lost e : told (Fail e) (Fail (unavailable e))
| told_unread response e : readBounded (Body response) limit = Fail e → told (Ok response) (Fail (unavailable e))
| told_unclosed response body e : readBounded (Body response) limit = Ok body → close_fault response = Some e →
    told (Ok response) (Fail (unavailable e))
| told_missing response body : received response body → ~ refuses response body → missing response body →
    told (Ok response) (Fail (Sentinel ErrNotFound))
| told_status response body : received response body → ~ refuses response body → ~ missing response body →
    ~ (200 <= StatusCode response < 300) → told (Ok response) (Fail (errorf ErrFincloudUnavailable "%w: HTTP %d"))
| told_body response body : received response body → ~ refuses response body → ~ missing response body →
    200 <= StatusCode response < 300 → told (Ok response) (Ok body).

Lemma judge_told response :
  match judge config limit response with
  | Unauthenticated => ∃ body, received response body ∧ refuses response body
  | Answer r => told (Ok response) r
  end.
Proof.
  unfold judge. destruct (readBounded (Body response) limit) as [body|e] eqn:Eb; [|by constructor].
  destruct (close_fault response) as [e|] eqn:Ec; [by eapply told_unclosed|].
  assert (received response body) as Hrec by done.
  destruct ((StatusCode response =? 401) || (StatusCode response =? 403) || isAuthenticationResponse _ _) eqn:Er.
  { exists body. split; [done|]. unfold refuses. rewrite !orb_true_iff, !Z.eqb_eq in Er. tauto. }
  assert (~ refuses response body) as Hr.
  { unfold refuses. rewrite !orb_false_iff, !Z.eqb_neq in Er. intros [|[|Ha]]; [tauto..|]. destruct Er as [_ Er]. congruence. }
  destruct ((StatusCode response =? 404) || isNotFoundResponse _) eqn:Em.
  { eapply told_missing; [done..|]. unfold missing. rewrite !orb_true_iff, !Z.eqb_eq in Em. tauto. }
  assert (~ missing response body) as Hm.
  { unfold missing. rewrite !orb_false_iff, !Z.eqb_neq in Em. intros [|Ha]; [tauto|]. destruct Em as [_ Em]. congruence. }
  destruct ((StatusCode response <? 200) || (300 <=? StatusCode response)) eqn:Es;
    to_prop in Es; [eapply told_status|eapply told_body]; try done; lia.
Qed.

(** What a sign-in comes to *)
Inductive sign_in_told : res response → res string → Prop :=
| sign_in_lost e : sign_in_told (Fail e) (Fail (unavailable e))
| sign_in_unread response e : readBounded (Body response) defaultJSONLimit = Fail e →
    sign_in_told (Ok response) (Fail (unavailable e))
| sign_in_status response : StatusCode response ∉ [200; 400; 401; 403] →
    sign_in_told (Ok response) (Fail (errorf ErrFincloudUnavailable "%w: login returned HTTP %d"))
| sign_in_rejected response : StatusCode response ∈ [400; 401; 403] →
    sign_in_told (Ok response) (Fail (Sentinel ErrFincloudCredentials))
| sign_in_denied response body status id : StatusCode response = 200 →
    readBounded (Body response) defaultJSONLimit = Ok body →
    Unmarshal decode_login (EmptyString, EmptyString) body = Some (status, id) → status ≠ "ok"%string →
    isCredentialResponse (unicode_lower config) body = true →
    sign_in_told (Ok response) (Fail (Sentinel ErrFincloudCredentials))
| sign_in_unclear response message : StatusCode response = 200 →
    sign_in_told (Ok response) (Fail (unavailable message))
| sign_in_done response body id : StatusCode response = 200 →
    readBounded (Body response) defaultJSONLimit = Ok body →
    Unmarshal decode_login (EmptyString, EmptyString) body = Some ("ok"%string, id) → TrimSpace id ≠ EmptyString →
    sign_in_told (Ok response) (Ok (TrimSpace id)).

Lemma login_response_told response : sign_in_told (Ok response) (login_response config response).
Proof.
  unfold login_response. destruct (readBounded (Body response) defaultJSONLimit) as [body|e] eqn:Eb; [|by constructor].
  cbn [or_unavailable mbind result_bind]. destruct (Z.leb_spec 500 (StatusCode response)); cbn [fail_if mbind result_bind].
  { constructor. rewrite !not_elem_of_cons. split_and!; [lia..|]. apply not_elem_of_nil. }
  destruct (_ || _) eqn:Er; cbn [fail_if mbind result_bind]; to_prop in Er.
  { apply sign_in_rejected. rewrite !elem_of_cons. lia. }
  destruct (Z.eqb_spec (StatusCode response) 200) as [E|E]; cbn [negb fail_if mbind result_bind].
  2: { constructor. rewrite !not_elem_of_cons. split_and!; [lia..|]. apply not_elem_of_nil. }
  destruct (Unmarshal _ _ _) as [[status id]|] eqn:Eu; [|by constructor].
  destruct (seqb status "ok") eqn:Es; cbn [negb].
  - apply seqb_eq in Es as ->. destruct (seqb (TrimSpace id) EmptyString) eqn:Et; cbn [fail_if mbind result_bind]; [by constructor|].
    apply seqb_neq in Et. by eapply sign_in_done.
  - apply seqb_neq in Es. destruct (isCredentialResponse _ _) eqn:Ec; [by eapply sign_in_denied|by constructor].
Qed.
End Tables.

Section Loop.
Context (config : Config) (upstream : list request → request → res response).

(** The outcome of a sign-in: it could not be asked for, or Fincloud was asked *)
Definition signs_in (r : res string) : Prop :=
  (∃ e, request_fault config (login_request config) = Some e ∧ r = Fail (Wrap "build Fincloud request: %w" e)) ∨
  (∃ log, sign_in_told config (upstream log (login_request config)) r).
Lemma signs_in_Ok id : signs_in (Ok id) → id ≠ EmptyString.
Proof. intros [(? & _ & [=])|(log & H)]. by inversion H. Qed.

Lemma login_inv st r st' :
  login config upstream st = (r, st') →
  (∃ sent, exchanges st' = exchanges st ++ sent ∧ (length sent ≤ 1)%nat ∧ data_requests sent = []) ∧
  session st' = session st ∧ retired st' = retired st ∧ (∀ id, r = Ok id → id ≠ EmptyString) ∧ signs_in r.
Proof.
  unfold login, newRequest, http_Do. intros H. assert (signs_in r) as Hr.
  { destruct (request_fault config (login_request config)) as [e|] eqn:Ef.
    - injection H as <- _. left. by exists e.
    - injection H as <- _. right. exists (exchanges st). destruct (upstream _ _) as [response|e]; cbn [or_unavailable mbind result_bind].
      + apply login_response_told.
      + constructor. }
  assert (∀ id, r = Ok id → id ≠ EmptyString) as Hid by (intros id ->; by apply signs_in_Ok).
  destruct (request_fault config (login_request config)) as [e|]; injection H as _ <-; split_and!; try done.
  - exists []. rewrite app_nil_r. split_and!; [done|cbn; lia|done].
  - exists [login_request config]. split_and!; [done|cbn; lia|done].
Qed.

Lemma logout_inv id st r st' :
  logout config upstream id st = (r, st') →
  (∃ sent, exchanges st' = exchanges st ++ sent ∧ (length sent ≤ 1)%nat ∧ data_requests sent = []) ∧
  session st' = session st ∧ retired st' = retired st.
Proof.
  unfold logout, newRequest. destruct (request_fault _ _) as [e|]; cbn.
  - intros [= _ <-]. split; [|done]. exists []. rewrite app_nil_r. split_and!; [done|cbn; lia|done].
  - unfold http_Do, mbind, client_bind. intros H.
    assert (st' = {| exchanges := exchanges st ++ [with_session (target "POST" "/admin/access/logout" [] []) id];
                     session := session st; retired := retired st |}) as ->.
    { cbn in H. destruct (upstream _ _); by injection H. }
    split; [|done]. eexists [_]. split_and!; [done|cbn; lia|done].
Qed.

(** A session is had with at most a sign-in and a sign-out, and is then the current one. *)
Lemma Session_inv st r st' :
  Session config upstream st = (r, st') →
  ∃ sent, exchanges st' = exchanges st ++ sent ∧ (length sent ≤ 2)%nat ∧ data_requests sent = [] ∧
    (∀ id, r = Ok id → id ≠ EmptyString ∧ session st' = id ∧ (session st = EmptyString → signs_in (Ok id))) ∧
    (∀ e, r = Fail e → session st' = EmptyString ∧ signs_in (Fail e)).
Proof.
  unfold Session. destruct (seqb (session st) EmptyString) eqn:Hs; cbn [negb].
  2: { apply seqb_neq in Hs. intros [= <- <-]. exists []. rewrite app_nil_r.
       split_and!; [done|simpl; lia|done| |done]. intros id [= <-]. done. }
  apply seqb_eq in Hs. destruct (login config upstream st) as [[id|e] st1] eqn:Hl;
    apply login_inv in Hl as ((sent & Hx & Hlen & Hd) & Hsess & _ & Hid & He).
  - specialize (Hid id eq_refl). assert (seqb id EmptyString = false) as -> by by apply seqb_neq.
    destruct (negb _ && negb _) eqn:Hout.
    + destruct (logout config upstream _ _) as [r' st2] eqn:Hlo. apply logout_inv in Hlo as ((sent' & Hx2 & Hlen2 & Hd2) & Hs2 & _).
      cbn [exchanges session retired snd] in *. intros [= <- <-]. exists (sent ++ sent').
      rewrite Hx2, Hs2, Hx, <- app_assoc, data_requests_app, Hd, Hd2, length_app. split_and!; [done|lia|done| |done].
      by intros ? [= <-].
    + intros [= <- <-]. exists sent. cbn. split_and!; [done|lia|done| |done]. by intros ? [= <-].
  - intros [= <- <-]. exists sent. split_and!; [done|lia|done|done|].
    intros e' [= <-]. split; [congruence|done].
Qed.

(** What an attempt sends and how it ends *)
Lemma send_inv limit r st v st' :
  send config upstream limit r st = (v, st') →
  exchanges st' = exchanges st ++ [r] ∧ session st' = session st ∧
  match upstream (exchanges st) r with
  | Ok response => v = Ok (judge config limit response)
  | Fail e => v = Fail (unavailable e)
  end.
Proof. unfold send, http_Do. destruct (upstream _ _); by intros [= <- <-]. Qed.
Lemma Invalidate_inv id st : id ≠ EmptyString → session st = id →
  Invalidate id st = (Ok tt, {| exchanges := exchanges st; session := EmptyString; retired := id |}).
Proof.
  intros Hid Hs. unfold Invalidate. apply seqb_neq in Hid. rewrite Hid. rewrite (proj2 (seqb_eq _ _) Hs). done.
Qed.

(** An attempt: the session it was made with, the request, and the answer *)
Record attempt := { at_session : string; at_request : request; at_answer : res response }.
Definition attempted (build : string → res request) (log : list request) (t : attempt) : Prop :=
  at_session t ≠ EmptyString ∧
  (∃ q, build (at_session t) = Ok q ∧ at_request t = with_session q (at_session t)) ∧
  ∃ before, (before ++ [at_request t]) `prefix_of` log ∧ upstream before (at_request t) = at_answer t.
Definition was_refused (limit : Z) (t : attempt) : Prop :=
  ∃ response body, at_answer t = Ok response ∧ received limit response body ∧ refuses config response body.
(** Nothing could be sent: there was no session, or no request *)
Definition unsent (build : string → res request) (e : err) : Prop :=
  signs_in (Fail e) ∨ ∃ id, id ≠ EmptyString ∧ build id = Fail e.
Lemma attempted_more build log more t : attempted build log t → attempted build (log ++ more) t.
Proof. intros (H1 & H2 & before & H3 & H4). split_and!; try done. exists before. split; [by apply prefix_app_r|done]. Qed.

(** One attempt: nothing sent, an answer, or a session that Fincloud refuses, which is given up *)
Lemma attempt_inv attempts number limit build st r st' :
  (∀ id q, build id = Ok q → access_path q = false) →
  do_loop config upstream (S attempts) number limit build st = (r, st') →
  (∃ sent e, exchanges st' = exchanges st ++ sent ∧ data_requests sent = [] ∧ r = Fail e ∧ unsent build e) ∨
  ∃ sent t st1, exchanges st1 = exchanges st ++ sent ∧ data_requests sent = [at_request t] ∧
    attempted build (exchanges st1) t ∧ (session st = EmptyString → signs_in (Ok (at_session t))) ∧
    ((st' = st1 ∧ told config limit (at_answer t) r ∧ session st' = at_session t) ∨
     (was_refused limit t ∧ session st1 = EmptyString ∧
      (if (number =? 0)%nat then do_loop config upstream attempts (S number) limit build
       else client_fail (Sentinel ErrFincloudSession)) st1 = (r, st'))).
Proof.
  intros Hpath H. cbn [do_loop] in H. apply client_bind_inv in H as [(e & H & ->)|(id & st1 & H & H2)];
    apply Session_inv in H as (sent & Hx & _ & Hd & Hok & Hfail).
  { left. exists sent, e. split_and!; try done. left. by apply Hfail. }
  destruct (Hok id eq_refl) as (Hid & Hs & Hin).
  apply client_bind_inv in H2 as [(e & H2 & ->)|(q & st2 & H2 & H3)]; injection H2 as Hb ->.
  { left. exists sent, e. split_and!; try done. right. by exists id. }
  right. set (request := with_session q id) in *.
  assert (data_requests (sent ++ [request]) = [request]) as Hd'.
  { rewrite data_requests_app, Hd. cbn. unfold access_path. cbn. specialize (Hpath id q Hb). unfold access_path in Hpath. by rewrite Hpath. }
  set (t := {| at_session := id; at_request := request; at_answer := upstream (exchanges st2) request |}).
  assert (∀ st3, exchanges st3 = exchanges st2 ++ [request] → exchanges st3 = exchanges st ++ sent ++ [request] ∧
    attempted build (exchanges st3) t) as Hgo.
  { intros st3 E. rewrite E, Hx, app_assoc. split; [done|]. split_and!; [done|by exists q|].
    exists (exchanges st2). split; [by rewrite Hx|done]. }
  apply client_bind_inv in H3 as [(e & H3 & ->)|(v & st3 & H3 & H4)]; apply send_inv in H3 as (Hx3 & Hs3 & Hv);
    destruct (Hgo _ Hx3) as [Hx' Hatt].
  - exists (sent ++ [request]), t, st'. split_and!; try done. left. split_and!; [done| |rewrite Hs3; exact Hs].
    cbn. destruct (upstream _ _); [done|]. injection Hv as ->. constructor.
  - destruct (upstream (exchanges st2) request) as [response|] eqn:Hup; [|done]. injection Hv as ->.
    pose proof (judge_told config limit response) as Hj. destruct (judge config limit response) as [|answer].
    + destruct Hj as (body & Hrec & Href).
      apply client_bind_inv in H4 as [(e & H4 & _)|(u & st4 & H4 & H5)]; rewrite Invalidate_inv in H4 by congruence; [done|].
      injection H4 as _ <-. exists (sent ++ [request]), t, {| exchanges := exchanges st3; session := EmptyString; retired := id |}.
      split; [exact Hx'|]. split; [exact Hd'|].
      split; [exact Hatt|]. split; [exact Hin|]. right. split; [by exists response, body|]. split; [reflexivity|exact H5].
    + injection H4 as -> ->. exists (sent ++ [request]), t, st'. split_and!; try done. left. split_and!; [done| |rewrite Hs3; exact Hs].
      exact Hj.
Qed.
End Loop.

(** Fincloud answered [r] with [body]. *)
Definition answered (config : Config) (upstream : list request → request → res response) (limit : Z)
    (r : request) (body : list ascii) : Prop :=
  ∃ log id response, id ≠ EmptyString ∧ upstream log (with_session r id) = Ok response ∧
    received limit response body ∧ ~ refuses config response body ∧ ~ missing response body ∧ 200 <= StatusCode response < 300.

Lemma do_Ok config upstream limit r st body st' :
  access_path r = false → do config upstream limit (fun _ => newRequest (request_fault config) r) st = (Ok body, st') →
  answered config upstream limit r body.
Proof.
  intros Hpath H. unfold do in H.
  assert (∀ id q, newRequest (request_fault config) r = Ok q → access_path q = false ∧ with_session q id = with_session r id) as Hq.
  { intros id q. unfold newRequest. destruct (request_fault config r); [done|]. by intros [= <-]. }
  assert (∀ log t, attempted upstream (fun _ => newRequest (request_fault config) r) log t → told config limit (at_answer t) (Ok body) →
    answered config upstream limit r body) as Hgo.
  { intros log t (Hid & (q & Hb & Hreq) & before & _ & Hup) Ht. apply (Hq (at_session t)) in Hb as [_ E]. rewrite E in Hreq.
    inversion Ht as [| | | | |response b Hrec Href Hmis Hst Ha]; subst.
    exists before, (at_session t), response. rewrite <- Hreq, Hup. do 5 (split; [done|]). exact Hst. }
  apply attempt_inv in H as [(? & ? & _ & _ & [=] & _)|(sent & t & st1 & _ & _ & Ht & _ & H)]; [|by intros ? ? [Hb _]%(Hq EmptyString)].
  destruct H as [(-> & Htold & _)|(_ & _ & H)]; [by eapply Hgo|]. change (0 =? 0)%nat with true in H. cbv iota in H.
  apply attempt_inv in H as [(? & ? & _ & _ & [=] & _)|(sent' & t' & st2 & _ & _ & Ht' & _ & H)]; [|by intros ? ? [Hb _]%(Hq EmptyString)].
  destruct H as [(-> & Htold & _)|(_ & _ & H)]; [by eapply Hgo|]. change (1 =? 0)%nat with false in H. discriminate H.
Qed.

(** ** Resolving *)

Lemma elem_of_candidates alternate rows primary :
  primary ∈ candidates alternate rows ↔ ∃ row, row ∈ rows ∧ candidate alternate row = Some primary.
Proof. unfold candidates. rewrite elem_of_list_to_set, list_elem_of_omap. done. Qed.

Lemma only_candidate_Ok found primary : only_candidate found = Ok primary ↔ found = {[primary]}.
Proof.
  unfold only_candidate. split.
  - destruct (elements found) as [|p [|]] eqn:E; [done| |done]. intros [= <-].
    rewrite <- (list_to_set_elements_L found), E. set_solver.
  - intros ->. by rewrite elements_singleton.
Qed.

Lemma loan_of_body_Ok body loc detail :
  loan_of_body body loc = Ok detail → cd_PrimaryAccount detail ≠ EmptyString ∧
  TrimSpace (cd_PrimaryAccount detail) = cd_PrimaryAccount detail.
Proof.
  unfold loan_of_body. destruct (Unmarshal _ _ _) as [[status result]|]; [|done]. intros H.
  apply bind_Ok in H as ([] & _ & H). apply bind_Ok in H as ([] & Hid & H). apply fail_if_Ok, seqb_neq in Hid.
  unfold mapLoan in H. repeat (apply bind_Ok in H as (? & _ & H)). apply Ok_inj in H as <-.
  cbn [cd_PrimaryAccount]. split; [done|apply TrimSpace_idem].
Qed.

Section Resolving.
Context (config : Config) (upstream : list request → request → res response).

Lemma GetLoan_Ok account loc st detail st' :
  GetLoan config upstream account loc st = (Ok detail, st') →
  ∃ body, answered config upstream defaultJSONLimit (loan_request (TrimSpace account)) body ∧
    loan_of_body body loc = Ok detail.
Proof.
  unfold GetLoan. intros H. apply client_bind_inv in H as [(e & _ & [=])|([] & st1 & _ & H)].
  apply client_bind_inv in H as [(e & _ & [=])|(body & st2 & Hb & H)].
  injection H as H _. exists body. split; [by eapply do_Ok|done].
Qed.

Lemma resolveAlternate_Ok alternate st primary st' :
  resolveAlternate config upstream alternate st = (Ok primary, st') →
  ∃ body, answered config upstream defaultJSONLimit (search_request alternate) body ∧
    alternate_of_body alternate body = Ok primary.
Proof.
  unfold resolveAlternate. intros H. apply client_bind_inv in H as [(e & _ & [=])|(body & st2 & Hb & H)].
  injection H as H _. exists body. split; [by eapply do_Ok|done].
Qed.
End Resolving.

Lemma alternate_of_body_Ok alternate body primary :
  alternate_of_body alternate body = Ok primary →
  ∃ rows, search_rows body = Some ("ok"%string, rows) ∧ (∃ row, row ∈ rows ∧ candidate alternate row = Some primary) ∧
    (∀ row p, row ∈ rows → candidate alternate row = Some p → p = primary).
Proof.
  unfold alternate_of_body. destruct (search_rows body) as [[status rows]|]; [|done]. intros H.
  apply bind_Ok in H as ([] & Hs & H). apply fail_if_Ok, negb_false_iff, seqb_eq in Hs as ->.
  apply only_candidate_Ok in H. exists rows. split_and!; [done| |].
  - apply elem_of_candidates. rewrite H. set_solver.
  - intros row p Hrow Hp. assert (p ∈ candidates alternate rows) as Hin by (apply elem_of_candidates; eauto).
    rewrite H in Hin. set_solver.
Qed.

(** ** Mapping a loan *)

(** The amount that a field of the response stands for *)
Definition amount (s : scalar) (m : Money) : Prop :=
  if blank s then m = MoneyZero else NormalizeDecimal (value s) ≫= ParseMoney = Ok m.

Lemma parseMoney_Ok raw m : parseMoney raw = Ok m ↔ NormalizeDecimal raw ≫= ParseMoney = Ok m.
Proof. unfold parseMoney, or_unavailable. destruct (NormalizeDecimal raw ≫= ParseMoney); [done|]. by split. Qed.
Lemma requiredMoney_Ok s m : requiredMoney s = Ok m → blank s = false ∧ amount s m.
Proof. unfold requiredMoney, amount. destruct (blank s); [done|]. by intros ?%parseMoney_Ok. Qed.
Lemma optionalMoney_Ok s m : optionalMoney s = Ok m → amount s m.
Proof. unfold optionalMoney, amount. destruct (blank s); [by intros [= <-]|]. by intros ?%parseMoney_Ok. Qed.

(** Repayment [r] is what row [row] at position [index] says. *)
Definition repayment_of (loc : option Location) (index : nat) (row : repaymentDTO) (r : Repayment) : Prop :=
  rp_SourceOrder r = Z.of_nat index ∧ parseDate (rd_Date row) loc = Ok (rp_Date r) ∧
  rp_JournalNumber r = TrimSpace (rd_JournalNumber row) ∧
  (amount (rd_Principal row) (rp_PrincipalComponent r) ∧ blank (rd_Principal row) = false) ∧
  (amount (rd_Interest row) (rp_InterestComponent r) ∧ blank (rd_Interest row) = false) ∧
  (amount (rd_Total row) (rp_TotalPayment r) ∧ blank (rd_Total row) = false) ∧
  amount (rd_Penalty row) (rp_PenaltyComponent r) ∧
  amount (rd_EarlyPenalty row) (rp_EarlyPenaltyComponent r) ∧ amount (rd_DWP row) (rp_DWPComponent r).

Lemma map_repayment_Ok loc index row r : map_repayment loc index row = Ok r → repayment_of loc index row r.
Proof.
  unfold map_repayment. intros H. apply bind_Ok in H as (date & Hdate & H).
  apply bind_Ok in H as (p & [Hp1 Hp2]%requiredMoney_Ok & H). apply bind_Ok in H as (i & [Hi1 Hi2]%requiredMoney_Ok & H).
  apply bind_Ok in H as (t & [Ht1 Ht2]%requiredMoney_Ok & H). apply bind_Ok in H as (pen & Hpen%optionalMoney_Ok & H).
  apply bind_Ok in H as (ep & Hep%optionalMoney_Ok & H). apply bind_Ok in H as (dwp & Hdwp%optionalMoney_Ok & H).
  apply Ok_inj in H as <-. unfold repayment_of.
  cbn [rp_SourceOrder rp_Date rp_JournalNumber rp_PrincipalComponent rp_InterestComponent rp_TotalPayment
    rp_PenaltyComponent rp_EarlyPenaltyComponent rp_DWPComponent].
  split_and!; try done. destruct (parseDate _ _); [|done]. exact Hdate.
Qed.

Lemma map_repayments_Ok loc index rows l :
  map_repayments loc index rows = Ok l →
  length l = length rows ∧
  ∀ k row r, rows !! k = Some row → l !! k = Some r → repayment_of loc (index + k) row r.
Proof.
  revert index l. induction rows as [|row rows IH]; intros index l H; cbn [map_repayments] in H.
  { apply Ok_inj in H as <-. done. }
  apply bind_Ok in H as (r & Hr & H). apply bind_Ok in H as (rest & Hrest & H). apply Ok_inj in H as <-.
  apply IH in Hrest as [Hlen Hrest]. split; [simpl; by rewrite Hlen|]. intros [|k] row' r' Hrow Hr'.
  - injection Hrow as <-. injection Hr' as <-. rewrite Nat.add_0_r. by apply map_repayment_Ok.
  - rewrite Nat.add_succ_r. by apply Hrest.
Qed.

(** ** Properties of the request loop *)

(** C40: a call of Fincloud, for one caller at a time.  It makes at most two attempts,
    each with a non-empty session and the request built for it, and every answer is
    that of Fincloud to the request as it was sent.  There is a second attempt only
    after an answer that refuses the session (401, 403 or a message that says so), and
    it is made with a session signed in anew.  The caller is told what the last answer
    says ([told]): the body of a 2xx answer, whose session is then the current one;
    "not found" for 404 or such a message; "unavailable" for any other status and for
    an answer that is lost, cut off or too long.  After two refusals it is told so and
    no session is kept.  Otherwise nothing could be sent: the sign-in failed
    ([sign_in_told]), or the request could not be built. *)
Theorem do_contract config upstream limit build st r st' :
  (∀ id q, build id = Ok q → access_path q = false) →
  do config upstream limit build st = (r, st') →
  ∃ sent tries, exchanges st' = exchanges st ++ sent ∧ data_requests sent = at_request <$> tries ∧
    (length tries ≤ 2)%nat ∧ Forall (attempted upstream build (exchanges st')) tries ∧
    (∀ t1 t2, tries = [t1; t2] → was_refused config limit t1 ∧ signs_in config upstream (Ok (at_session t2))) ∧
    match r with
    | Ok body => ∃ t, last tries = Some t ∧ told config limit (at_answer t) (Ok body) ∧ session st' = at_session t
    | Fail e =>
        (∃ t, last tries = Some t ∧ told config limit (at_answer t) (Fail e)) ∨
        (∃ t1 t2, tries = [t1; t2] ∧ was_refused config limit t2 ∧ e = Sentinel ErrFincloudSession ∧ session st' = EmptyString) ∨
        ((tries = [] ∨ ∃ t, tries = [t] ∧ was_refused config limit t) ∧ unsent config upstream build e)
    end.
Proof.
  intros Hpath H. unfold do in H.
  apply attempt_inv in H as [(sent & e & Hx & Hd & -> & He)|(sent & t & st1 & Hx & Hd & Ht & _ & H)]; [..|done].
  { exists sent, []. split_and!; try done; [cbn; lia|]. right. right. split; [by left|done]. }
  destruct H as [(-> & Htold & Hs)|(Href & Hs & H)].
  { exists sent, [t]. split_and!; try done; [cbn; lia|by apply Forall_singleton|]. destruct r; [by exists t|left; by exists t]. }
  change (0 =? 0)%nat with true in H. cbv iota in H.
  apply attempt_inv in H as [(sent' & e & Hx' & Hd' & -> & He)|(sent' & t' & st2 & Hx' & Hd' & Ht' & Hin & H)]; [..|done].
  { exists (sent ++ sent'), [t]. rewrite data_requests_app, Hd, Hd', Hx', Hx, app_assoc.
    split_and!; try done; [cbn; lia| |].
    - apply Forall_singleton. rewrite <- Hx. by apply attempted_more.
    - right. right. split; [right; by exists t|done]. }
  exists (sent ++ sent'), [t; t']. rewrite data_requests_app, Hd, Hd'.
  assert (st' = st2) as <-.
  { destruct H as [(-> & _)|(_ & _ & H)]; [done|]. change (1 =? 0)%nat with false in H. by injection H. }
  rewrite Hx', Hx, app_assoc. split_and!; try done; [| |].
  - apply Forall_cons; split; [|apply Forall_singleton; by rewrite <- Hx, <- Hx']. rewrite <- Hx. by apply attempted_more.
  - intros ? ? [= <- <-]. split; [done|by apply Hin].
  - destruct H as [(_ & Htold & Hs')|(Href' & Hs' & H)]; [destruct r; [by exists t'|left; by exists t']|].
    change (1 =? 0)%nat with false in H. injection H as <-. right. left. by exists t, t'.
Qed.

(** What an account resolves to is what Fincloud answered for it: the loan of
    the account itself or, when there is none, the loan of the one primary account
    that the search gives for it as an alternate number (blank alternates
    included), under its own number.  A blank account is refused before any
    request is sent. *)
Theorem ResolveLoan_resolves config upstream account loc st r st' :
  ResolveLoan config upstream account loc st = (r, st') →
  (TrimSpace account = EmptyString → st' = st ∧ ∃ e, r = Fail e ∧ Is e ErrInvalidInput = true) ∧
  ∀ detail, r = Ok detail →
    cd_PrimaryAccount detail ≠ EmptyString ∧
    ((∃ body, answered config upstream defaultJSONLimit (loan_request (TrimSpace account)) body ∧
        loan_of_body body loc = Ok detail) ∨
     (∃ body search rows, let primary := cd_PrimaryAccount detail in
        answered config upstream defaultJSONLimit (loan_request primary) body ∧ loan_of_body body loc = Ok detail ∧
        answered config upstream defaultJSONLimit (search_request (TrimSpace account)) search ∧
        search_rows search = Some ("ok"%string, rows) ∧
        (∃ row, row ∈ rows ∧ candidate (TrimSpace account) row = Some primary) ∧
        (∀ row p, row ∈ rows → candidate (TrimSpace account) row = Some p → p = primary))).
Proof.
  unfold ResolveLoan. destruct (empty (TrimSpace account)) eqn:He.
  { apply seqb_eq in He. intros [= <- <-]. split; [|done]. intros _. split; [done|]. by eexists. }
  apply seqb_neq in He. intros H. split; [done|]. intros detail ->.
  destruct (GetLoan config upstream (TrimSpace account) loc st) as [[d|e] st1] eqn:Hg.
  - injection H as -> _. apply GetLoan_Ok in Hg as (body & Hb & Hd). rewrite TrimSpace_idem in Hb.
    apply loan_of_body_Ok in Hd as Hp. split; [apply Hp|]. left. by exists body.
  - destruct (negb _); [done|]. unfold resolve_by_alternate in H.
    apply client_bind_inv in H as [(? & _ & [=])|(primary & st2 & Hr & H)].
    apply client_bind_inv in H as [(? & _ & [=])|(d & st3 & Hg' & H)]. injection H as H _.
    apply bind_Ok in H as ([] & Hsame & H). apply Ok_inj in H as <-.
    apply fail_if_Ok, negb_false_iff, seqb_eq in Hsame as <-.
    apply resolveAlternate_Ok in Hr as (search & Hsearch & Ha). apply alternate_of_body_Ok in Ha as (rows & Hrows & Hc & Hu).
    apply GetLoan_Ok in Hg' as (body & Hb & Hd). apply loan_of_body_Ok in Hd as Hp. destruct Hp as [Hp1 Hp2].
    rewrite Hp2 in Hb. split; [done|]. right. by exists body, search, rows.
Qed.

(** A mapped loan is the loan of the response, nothing lost or made up: every
    repayment row gives one repayment, in its position, with its date and its
    amounts (a blank optional amount is zero, a blank required one is refused);
    the schedule evidence is kept in order; the tenor is a positive number; and
    the close date is the one that the response gives in either of its two
    fields, which agree. *)
Theorem mapLoan_faithful source loc c :
  mapLoan source (Some loc) = Ok c →
  (amount (ld_PlafondLimit source) (cd_PlafondLimit c) ∧ amount (ld_FlatRate source) (cd_FlatRatePercent c) ∧
   amount (ld_PrincipalDue source) (cd_CurrentPrincipalDue c) ∧ amount (ld_InterestDue source) (cd_CurrentInterestDue c) ∧
   amount (ld_PenaltyDue source) (cd_PenaltyDue c)) ∧
  0 < cd_TenorMonths c ∧
  cd_ContractScheduleEvidence c = Some (map_evidence <$> ld_Schedule source) ∧
  length (cd_Repayments c) = length (ld_Repayments source) ∧
  (∀ k row r, ld_Repayments source !! k = Some row → cd_Repayments c !! k = Some r → repayment_of (Some loc) k row r) ∧
  (let object := TrimSpace (ld_CloseDateObject source) in let legacy := TrimSpace (ld_CloseDateLegacy source) in
   (object = EmptyString → legacy = EmptyString → cd_CloseDate c = ZeroDate) ∧
   (object ≠ EmptyString → parseDate object (Some loc) = Ok (cd_CloseDate c) ∧
      ∀ d, legacy ≠ EmptyString → parseDate legacy (Some loc) = Ok d → key d = key (cd_CloseDate c)) ∧
   (object = EmptyString → legacy ≠ EmptyString → parseDate legacy (Some loc) = Ok (cd_CloseDate c))).
Proof.
  unfold mapLoan. intros H. apply bind_Ok in H as ([] & _ & H).
  apply bind_Ok in H as (pl & [_ Hpl]%requiredMoney_Ok & H). apply bind_Ok in H as (fr & [_ Hfr]%requiredMoney_Ok & H).
  apply bind_Ok in H as (rr & _ & H). apply bind_Ok in H as (pd & Hpd%optionalMoney_Ok & H).
  apply bind_Ok in H as (i & Hi%optionalMoney_Ok & H). apply bind_Ok in H as (pen & Hpen%optionalMoney_Ok & H).
  apply bind_Ok in H as (tenor & Ht & H). apply bind_Ok in H as (close & Hclose & H).
  apply bind_Ok in H as (l & [Hlen Hrep]%map_repayments_Ok & H). apply Ok_inj in H as <-.
  cbn [cd_PlafondLimit cd_FlatRatePercent cd_CurrentPrincipalDue cd_CurrentInterestDue cd_PenaltyDue cd_TenorMonths
    cd_ContractScheduleEvidence cd_Repayments cd_CloseDate].
  split_and!; try done.
  - destruct (atoi_bytes _); [|done]. destruct (_ || _) eqn:E; [done|]. injection Ht as <-. to_prop in E. lia.
  - clear -Hclose. unfold close_date in Hclose. cbv zeta. intros Ho Hl. rewrite Ho, Hl in Hclose. by injection Hclose as <-.
  - clear -Hclose. unfold close_date in Hclose. intros Ho. assert (empty (TrimSpace (ld_CloseDateObject source)) = false) as E
      by by apply seqb_neq. rewrite E in Hclose. cbn [negb] in Hclose.
    destruct (parseDate _ _) as [date|]; [|done]. apply bind_Ok in Hclose as ([] & Hagree & Hc). apply Ok_inj in Hc as <-.
    split; [done|]. intros d Hl Hd. apply fail_if_Ok in Hagree. rewrite Hd in Hagree.
    assert (empty (TrimSpace (ld_CloseDateLegacy source)) = false) as El by by apply seqb_neq. rewrite El in Hagree.
    cbn [negb andb] in Hagree. by apply negb_false_iff, Z.eqb_eq in Hagree.
  - clear -Hclose. unfold close_date in Hclose. intros Ho Hl. rewrite Ho in Hclose.
    assert (empty (TrimSpace (ld_CloseDateLegacy source)) = false) as El by by apply seqb_neq. rewrite El in Hclose.
    change (empty EmptyString) with true in Hclose. cbn [negb] in Hclose. destruct (parseDate _ _); [|done]. by injection Hclose as <-.
Qed.

Lemma authenticator_logout_inv fault upstream id st r st' :
  authenticator_logout fault upstream id st = (r, st') →
  (let sign_out := target "POST" "/admin/access/logout" [] [] in
   exchanges st' = exchanges st ++ (if bool_decide (fault sign_out = None) then [with_session sign_out id] else [])) ∧
  session st' = session st ∧ retired st' = retired st.
Proof.
  unfold authenticator_logout, authenticator_request, http_Do, mbind, client_bind, client_lift. cbn.
  destruct (fault _) as [e|]; [rewrite bool_decide_eq_false_2 by done; intros [= _ <-]; by rewrite app_nil_r|].
  rewrite bool_decide_eq_true_2 by done. by destruct (upstream _ _); intros [= _ <-].
Qed.
(** Signing in checks the credentials and leaves nothing behind: the client's
    own session is untouched, the session that Fincloud opened for the check is
    closed again, and credentials are called invalid exactly when Fincloud
    answered in full and refused them. *)
Theorem Authenticate_outcome fault upstream username password locationID roleID st r st' :
  Authenticate fault upstream username password locationID roleID st = (r, st') →
  session st' = session st ∧ retired st' = retired st ∧
  let sign_in := authenticate_request username password locationID roleID in
  let sign_out := target "POST" "/admin/access/logout" [] [] in
  match fault sign_in with
  | Some e => st' = st ∧ r = Fail (Wrap "build Fincloud authentication request: %w" e)
  | None =>
  match upstream (exchanges st) sign_in with
  | Fail _ => exchanges st' = exchanges st ++ [sign_in] ∧ is_ok r = false
  | Ok response =>
      match authenticate_response response with
      | Ok id => r = Ok tt ∧ id ≠ EmptyString ∧ exchanges st' = exchanges st ++ sign_in ::
          (if bool_decide (fault sign_out = None) then [with_session sign_out id] else [])
      | Fail e => r = Fail e ∧ exchanges st' = exchanges st ++ [sign_in] ∧
          (e = Sentinel FincloudErrInvalidCredentials → ∃ body, readBounded (Body response) defaultJSONLimit = Ok body ∧
             (StatusCode response = 400 ∨ StatusCode response = 401 ∨ StatusCode response = 403 ∨
              ∃ status id, Unmarshal (decode_envelope (decode_struct1 "sessionid" decode_string)) (EmptyString, EmptyString) body
                = Some (status, id) ∧ status ≠ "ok"%string))
      end
  end end.
Proof.
  unfold Authenticate, authenticator_request at 1, http_Do. destruct (fault _) as [e|]; [by intros [= <- <-]|].
  destruct (upstream _ _) as [response|e]; [|intros [= <- <-]; done].
  destruct (authenticate_response response) as [id|e] eqn:Ha.
  - intros [= <- <-]. destruct (authenticator_logout fault upstream id _) as [r' st2] eqn:Hlo.
    apply authenticator_logout_inv in Hlo as (Hx & Hs & Hr).
    cbn [snd exchanges session retired] in *. rewrite Hs, Hr, Hx, <- app_assoc. split_and!; try done.
    unfold authenticate_response in Ha. apply bind_Ok in Ha as (body & _ & Ha).
    do 2 (apply bind_Ok in Ha as ([] & _ & Ha)). destruct (Unmarshal _ _ _) as [[status sid]|]; [|done].
    apply bind_Ok in Ha as ([] & _ & Ha). apply bind_Ok in Ha as ([] & Hid & Ha). apply Ok_inj in Ha as <-.
    by apply fail_if_Ok, seqb_neq in Hid.
  - intros [= <- <-]. split_and!; try done. intros ->. unfold authenticate_response in Ha.
    apply bind_Fail in Ha as [Ha|(body & Hb & Ha)]; [by destruct (readBounded _ _)|].
    exists body. split; [by destruct (readBounded _ _)|].
    apply bind_Fail in Ha as [[Hc _]%fail_if_Fail|([] & _ & Ha)]; [to_prop in Hc; lia|].
    apply bind_Fail in Ha as [[_ [=]]%fail_if_Fail|([] & _ & Ha)].
    destruct (Unmarshal _ _ _) as [[status sid]|]; [|done]. do 3 right. exists status, sid. split; [done|].
    apply bind_Fail in Ha as [[Hc _]%fail_if_Fail|([] & _ & Ha)]; [by apply negb_true_iff, seqb_neq in Hc|].
    apply bind_Fail in Ha as [[_ [=]]%fail_if_Fail|([] & _ & Ha)]. done.
Qed.

(** The parameters of a named report reach Fincloud intact: the parameter "p"
    of the request is the JSON text of exactly the list of strings. *)
Theorem named_report_params name params :
  params ≠ [] → Forall utf8_text params →
  ∃ p, ("p"%string, p) ∈ Query (named_report_request name params) ∧
    json_text (bytes p) = Some (JArray (JString <$> params)).
Proof.
  intros Hne Hs. exists (of_bytes (marshal_strings params)). split.
  - cbn [named_report_request newRequest Query]. right. left.
  - rewrite bytes_of_bytes. by apply marshalled_strings.
Qed.

(** ** A concrete Fincloud *)

(** Text with apostrophes for quotation marks *)
Definition quoted (s : string) : list ascii := (fun c => if beq c "'" then chr 34 else c) <$> bytes s.
Definition ex_answer (status : Z) (text : string) : res response :=
  Ok {| StatusCode := status; Body := {| content := quoted text; read_fault := None |}; close_fault := None |}.
Definition ex_loan_text : string :=
  "{'status':'ok','data':{'result':{'id':' 1001 ','noalt':'A1','plafondlimit':'1.200,50','jangkawaktu':'12 bulan','bungaflat':12.5,'tgl_tutup':{'date':'2026-01-02 00:00:00'},'tgltutup':'2026-01-02','jadwalangsuran':[{'tanggal':'2025-03-01','angsuranke':1}],'historybayar':[{'tglbayar':'2025-02-01 10:00','bayar_pokok':'100','bayar_bunga':5,'totalbayar':105}]}}}".
Definition ex_upstream (log : list request) (r : request) : res response :=
  if seqb (Path r) "/admin/access/login" then ex_answer 200 "{'status':'ok','data':{'result':{'sessionid':' S1 '}}}"
  else if seqb (Path r) "/admin/access/logout" then ex_answer 200 ""
  else if negb (bool_decide (sessionid r = Some "S1"%string)) then ex_answer 401 ""
  else if seqb (Path r) "/pinjaman/inquiry/rekening/cari"
  then ex_answer 200 "{'status':'ok','data':{'result':[{'id':'1001 ','noalt':null},{'id':'7','noalt':'B'},{'id':'1001','noalt':'A1'}]}}"
  else if bool_decide (Query r = [("id", "1001")]%string) then ex_answer 200 ex_loan_text
  else ex_answer 200 "{'status':'error','description':' data NOT found'}".
Definition ex_config : Config :=
  {| locationID := "01"; roleID := "2"; username := "sys"; password := "pw"; maxReportSize := defaultReportLimit;
     unicode_lower := fun s => s; request_fault := fun _ => None |}.
Definition ex_state : client_state := {| exchanges := []; session := "stale"; retired := EmptyString |}.

Lemma do_contract_witness :
  let '(r, st) := do ex_config ex_upstream defaultJSONLimit (fun _ => Ok (loan_request "1001")) ex_state in
  is_ok r = true ∧ session st = "S1"%string ∧
  ∃ sent tries, exchanges st = exchanges ex_state ++ sent ∧ data_requests sent = at_request <$> tries ∧ (length tries ≤ 2)%nat.
Proof.
  destruct (do ex_config ex_upstream defaultJSONLimit (fun _ => Ok (loan_request "1001")) ex_state) as [r st] eqn:E.
  assert (is_ok r = true ∧ session st = "S1"%string) as [H1 H2].
  { split; [change r with (fst (r, st))|change st with (snd (r, st))]; rewrite <- E; vm_compute; reflexivity. }
  split; [exact H1|]. split; [exact H2|].
  destruct (do_contract ex_config ex_upstream defaultJSONLimit (fun _ => Ok (loan_request "1001")) ex_state r st)
    as (sent & tries & Hx & Hd & Hl & _); [intros id q [= <-]; reflexivity|exact E|].
  exists sent, tries. split; [exact Hx|]. split; [exact Hd|exact Hl].
Defined.

Lemma ResolveLoan_resolves_witness :
  let '(r, st) := ResolveLoan ex_config ex_upstream " A1 " (Some (fixed_zone 25200)) ex_state in
  match r with
  | Ok detail => cd_PrimaryAccount detail = "1001"%string ∧ cd_PrimaryAccount detail ≠ EmptyString
  | Fail _ => False
  end.
Proof.
  destruct (ResolveLoan ex_config ex_upstream " A1 " (Some (fixed_zone 25200)) ex_state) as [r st] eqn:E.
  destruct (ResolveLoan_resolves ex_config ex_upstream " A1 " _ _ _ _ E) as [_ H].
  assert (match r with Ok detail => cd_PrimaryAccount detail = "1001"%string | Fail _ => False end) as Hr.
  { change r with (fst (r, st)). rewrite <- E. vm_compute. reflexivity. }
  destruct r as [detail|e]; [|exact Hr]. split; [exact Hr|]. apply (H detail eq_refl).
Defined.

Definition ex_dto : loanDTO :=
  match Unmarshal (decode_envelope decode_loan) (EmptyString, ZeroLoanDTO) (quoted ex_loan_text) with
  | Some (_, dto) => dto
  | None => ZeroLoanDTO
  end.
Lemma mapLoan_faithful_witness :
  match mapLoan ex_dto (Some (fixed_zone 25200)) with
  | Ok c => cd_TenorMonths c = 12 ∧ cd_CloseDate c = MkDate 2026 1 2 ∧ length (cd_Repayments c) = 1%nat ∧ 0 < cd_TenorMonths c
  | Fail _ => False
  end.
Proof.
  destruct (mapLoan ex_dto (Some (fixed_zone 25200))) as [c|e] eqn:E.
  - assert (cd_TenorMonths c = 12 ∧ cd_CloseDate c = MkDate 2026 1 2 ∧ length (cd_Repayments c) = 1%nat) as (H1 & H2 & H3).
    { vm_compute in E. injection E as <-. vm_compute. repeat split. }
    destruct (mapLoan_faithful _ _ _ E) as (_ & H & _). repeat split; assumption.
  - vm_compute in E. discriminate E.
Defined.

Lemma Authenticate_outcome_witness :
  let '(r, st) := Authenticate (fun _ => None) ex_upstream " u " "p" "1" "2" ex_state in
  r = Ok tt ∧ length (exchanges st) = 2%nat ∧ session st = "stale"%string.
Proof.
  destruct (Authenticate (fun _ => None) ex_upstream " u " "p" "1" "2" ex_state) as [r st] eqn:E.
  destruct (Authenticate_outcome _ _ _ _ _ _ _ _ _ E) as (H & _ & _). split; [|split; [|exact H]].
  - change r with (fst (r, st)). rewrite <- E. vm_compute. reflexivity.
  - change st with (snd (r, st)). rewrite <- E. vm_compute. reflexivity.
Defined.

Lemma named_report_params_witness :
  ∃ p, ("p"%string, p) ∈ Query (named_report_request "Standing Order Report csv" ["ALL"; "a<b"]%string) ∧
    json_text (bytes p) = Some (JArray [JString "ALL"; JString "a<b"]).
Proof.
  apply (named_report_params "Standing Order Report csv" ["ALL"; "a<b"]%string); [discriminate|].
  repeat constructor; vm_compute; reflexivity.
Defined.
