(* ===== verification/Sessions.v ===== *)
(** The session manager of the Fincloud client under concurrency,
    [internal/fincloud/session.go].

    A caller of [Session] or of [Close] is a thread; a step is one section of the code under the
    mutex, one receive from a channel, or the end of a sign-in or sign-out, which
    run without the mutex.  The events are the choices of the scheduler, of
    Fincloud and of the callers' contexts, so a run is a list of events, and a
    state is reachable when some list of events leads to it. *)
From stdpp Require Import base list gmap strings.
From Stdlib Require Import ZArith Lia.
From S2P Require Import Prelude GoStrings GoErrors Fincloud.

(** Where a caller of [Session] or [Close] is *)
Inductive place :=
| Start                                  (* at the head of the loop *)
| Waiting (done : nat)                   (* in the select, on that channel *)
| Woken                                  (* received; about to read loginErr *)
| LoggingIn (done : nat)                 (* in login, with its own channel *)
| LoggingOut (session retired : string)  (* in logout of the retired session *)
| Returned (r : res string)
| Closing (session : string)             (* in logout, called by Close *)
| Closed (r : res unit).

Record thread := { at_place : place; context : option err }.   (* ctx.Err() *)

Record manager := {
  sm_session : string;
  sm_retired : string;
  loginEnd : option nat;                 (* the channel of the sign-in in flight *)
  loginErr : option err;
  closed : gset nat;                     (* the channels closed so far *)
  next_channel : nat;
  threads : gmap nat thread;
  issued : list string;                  (* ghost: sessions that sign-ins gave *)
  invalidated : list string;             (* ghost: sessions given up by Invalidate *)
  sign_outs : list (string * option string)
    (* ghost: the calls of logout, the last first: the session, and the one that replaced
       it, if [Session] called and not [Close] *)
}.

Definition place_of (m : manager) (i : nat) : option place := at_place <$> threads m !! i.
Definition set_threads (m : manager) (ts : gmap nat thread) : manager :=
  {| sm_session := sm_session m; sm_retired := sm_retired m; loginEnd := loginEnd m; loginErr := loginErr m;
     closed := closed m; next_channel := next_channel m; threads := ts; issued := issued m;
     invalidated := invalidated m; sign_outs := sign_outs m |}.
Definition sign_out (m : manager) (session : string) (by_ : option string) : manager :=
  {| sm_session := sm_session m; sm_retired := sm_retired m; loginEnd := loginEnd m; loginErr := loginErr m;
     closed := closed m; next_channel := next_channel m; threads := threads m; issued := issued m;
     invalidated := invalidated m; sign_outs := (session, by_) :: sign_outs m |}.
Definition move (m : manager) (i : nat) (t : thread) (p : place) : manager :=
  set_threads m (<[i := {| at_place := p; context := context t |}]> (threads m)).

Inductive event :=
| Call (i : nat)                          (* a new caller *)
| Cancel (i : nat) (e : err)              (* its context ends *)
| Run (i : nat)                           (* its next section, or the receive from the channel *)
| GiveUp (i : nat)                        (* the select takes the end of the context *)
| LoginDone (i : nat) (r : res string)    (* login answers *)
| LogoutDone (i : nat)
| DoInvalidate (session : string)
| DoClose (i : nat)                       (* a caller of Close, up to the end of its section *)
| CloseDone (i : nat) (r : res unit).     (* logout answers it *)

Definition is_cancellation (e : err) : bool := Is e ContextCanceled || Is e ContextDeadlineExceeded.

(** The first section: the session, the channel of the sign-in in flight, or a new sign-in *)
Definition enter (m : manager) (i : nat) (t : thread) : manager :=
  if negb (seqb (sm_session m) EmptyString) then move m i t (Returned (Ok (sm_session m))) else
  match loginEnd m with
  | Some done => move m i t (Waiting done)
  | None =>
      let done := next_channel m in
      move {| sm_session := sm_session m; sm_retired := sm_retired m; loginEnd := Some done; loginErr := None;
              closed := closed m; next_channel := S done; threads := threads m; issued := issued m;
              invalidated := invalidated m; sign_outs := sign_outs m |} i t (LoggingIn done)
  end.

(** After the sign-in: publish the outcome, close the channel *)
Definition finish_login (has_logout : bool) (m : manager) (i : nat) (t : thread) (done : nat) (r : res string) : manager :=
  let r := match r with
           | Ok session => if seqb session EmptyString then Fail (Msg "Fincloud login returned empty session") else Ok session
           | Fail e => Fail e
           end in
  match r with
  | Ok session =>
      let retired := sm_retired m in
      let m := {| sm_session := session; sm_retired := EmptyString; loginEnd := None; loginErr := None;
                  closed := {[done]} ∪ closed m; next_channel := next_channel m; threads := threads m;
                  issued := session :: issued m; invalidated := invalidated m; sign_outs := sign_outs m |} in
      if negb (seqb retired EmptyString) && negb (seqb retired session) && has_logout
      then move (sign_out m retired (Some session)) i t (LoggingOut session retired) else move m i t (Returned (Ok session))
  | Fail e =>
      move {| sm_session := sm_session m; sm_retired := sm_retired m; loginEnd := None; loginErr := Some e;
              closed := {[done]} ∪ closed m; next_channel := next_channel m; threads := threads m;
              issued := issued m; invalidated := invalidated m; sign_outs := sign_outs m |} i t (Returned (Fail e))
  end.

(** Awake: the error of the last sign-in is the caller's own, unless it is another
    caller's cancellation *)
Definition wake (m : manager) (i : nat) (t : thread) : manager :=
  match loginErr m with
  | None => move m i t Start
  | Some e =>
      if is_cancellation e && bool_decide (context t = None) then move m i t Start
      else move m i t (Returned (Fail e))
  end.

Definition run_thread (m : manager) (i : nat) (t : thread) : option manager :=
  match at_place t with
  | Start => Some (enter m i t)
  | Waiting done =>
      if bool_decide (done ∈ closed m) then Some (move m i t Woken) else None
  | Woken => Some (wake m i t)
  | LoggingIn _ | LoggingOut _ _ | Returned _ | Closing _ | Closed _ => None
  end.

Definition invalidate (m : manager) (session : string) : manager :=
  if negb (seqb session EmptyString) && seqb (sm_session m) session then
    {| sm_session := EmptyString; sm_retired := session; loginEnd := loginEnd m; loginErr := loginErr m;
       closed := closed m; next_channel := next_channel m; threads := threads m; issued := issued m;
       invalidated := session :: invalidated m; sign_outs := sign_outs m |}
  else m.
(** [Close]: it takes the session from the manager, and signs it out if there is one. *)
Definition close_manager (has_logout : bool) (m : manager) (i : nat) : manager :=
  let session := sm_session m in
  let t := {| at_place := Start; context := None |} in
  let m := {| sm_session := EmptyString; sm_retired := sm_retired m; loginEnd := loginEnd m; loginErr := loginErr m;
              closed := closed m; next_channel := next_channel m; threads := threads m; issued := issued m;
              invalidated := invalidated m; sign_outs := sign_outs m |} in
  if seqb session EmptyString || negb has_logout then move m i t (Closed (Ok tt))
  else move (sign_out m session None) i t (Closing session).

Definition step (has_logout : bool) (ev : event) (m : manager) : option manager :=
  match ev with
  | Call i =>
      match threads m !! i with
      | None => Some (set_threads m (<[i := {| at_place := Start; context := None |}]> (threads m)))
      | Some _ => None
      end
  | Cancel i e =>
      t ← threads m !! i;
      match context t with
      | None => Some (set_threads m (<[i := {| at_place := at_place t; context := Some e |}]> (threads m)))
      | Some _ => None
      end
  | Run i => t ← threads m !! i; run_thread m i t
  | LoginDone i r =>
      t ← threads m !! i;
      match at_place t with LoggingIn done => Some (finish_login has_logout m i t done r) | _ => None end
  | GiveUp i =>
      t ← threads m !! i;
      match at_place t, context t with
      | Waiting _, Some e => Some (move m i t (Returned (Fail e)))
      | _, _ => None
      end
  | LogoutDone i =>
      t ← threads m !! i;
      match at_place t with LoggingOut session _ => Some (move m i t (Returned (Ok session))) | _ => None end
  | DoInvalidate session => Some (invalidate m session)
  | DoClose i =>
      match threads m !! i with
      | None => Some (close_manager has_logout m i)
      | Some _ => None
      end
  | CloseDone i r =>
      t ← threads m !! i;
      match at_place t with Closing _ => Some (move m i t (Closed r)) | _ => None end
  end.
Fixpoint steps (has_logout : bool) (evs : list event) (m : manager) : option manager :=
  match evs with
  | [] => Some m
  | ev :: rest => m' ← step has_logout ev m; steps has_logout rest m'
  end.

(** [NewSessionManager] *)
Definition new_manager : manager :=
  {| sm_session := EmptyString; sm_retired := EmptyString; loginEnd := None; loginErr := None; closed := ∅;
     next_channel := 0; threads := ∅; issued := []; invalidated := []; sign_outs := [] |}.
Definition reachable (has_logout : bool) (m : manager) : Prop := ∃ evs, steps has_logout evs new_manager = Some m.

(** ** The invariant *)

(** What a place says about the manager *)
Definition place_ok (m : manager) (p : place) : Prop :=
  match p with
  | Start | Woken | Returned (Fail _) | Closed _ => True
  | Waiting done => done ∈ closed m ∨ loginEnd m = Some done
  | LoggingIn done => loginEnd m = Some done
  | LoggingOut session retired => session ∈ issued m ∧ retired ∈ invalidated m ∧ retired ≠ session ∧ (retired, Some session) ∈ sign_outs m
  | Returned (Ok session) => session ∈ issued m
  | Closing session => session ∈ issued m ∧ (session, None) ∈ sign_outs m
  end.

Record inv (m : manager) : Prop := {
  inv_places : ∀ i p, place_of m i = Some p → place_ok m p;
  inv_single : ∀ i j d d', place_of m i = Some (LoggingIn d) → place_of m j = Some (LoggingIn d') → i = j;
  inv_flight : ∀ d, loginEnd m = Some d →
    d < next_channel m ∧ d ∉ closed m ∧ sm_session m = EmptyString ∧ ∃ i, place_of m i = Some (LoggingIn d);
  inv_closed : ∀ d, d ∈ closed m → d < next_channel m;
  inv_session : sm_session m = EmptyString ∨ sm_session m ∈ issued m;
  inv_retired : sm_retired m = EmptyString ∨ sm_retired m ∈ invalidated m;
  inv_issued : EmptyString ∉ issued m;
  inv_invalidated : invalidated m ⊆ issued m
}.

Lemma place_of_thread m i t : threads m !! i = Some t → place_of m i = Some (at_place t).
Proof. intros H. unfold place_of. by rewrite H. Qed.

Lemma place_of_move m i t p j : place_of (move m i t p) j = if decide (i = j) then Some p else place_of m j.
Proof.
  unfold place_of, move, set_threads. cbn [threads]. destruct (decide (i = j)) as [<-|Hne].
  - by rewrite lookup_insert_eq.
  - by rewrite lookup_insert_ne.
Qed.

(** A thread that is not signing in goes to another such place. *)
Definition not_signing_in (m : manager) (i : nat) : Prop := ∀ d, place_of m i ≠ Some (LoggingIn d).
Lemma at_not_signing_in m i t p : threads m !! i = Some t → at_place t = p → (∀ d, p ≠ LoggingIn d) → not_signing_in m i.
Proof. intros Hi <- Hp d. rewrite (place_of_thread m i t Hi). intros [= H]. by destruct (Hp d). Qed.
Lemma new_not_signing_in m i : threads m !! i = None → not_signing_in m i.
Proof. intros Hi d. unfold place_of. by rewrite Hi. Qed.
#[local] Hint Resolve new_not_signing_in : core.

Lemma inv_move m i t p : inv m → not_signing_in m i → (∀ d, p ≠ LoggingIn d) → place_ok m p → inv (move m i t p).
Proof.
  intros [Hp Hs Hf Hc Hse Hr Hi Hv] Ht Hpl Hok. split; try done.
  - intros j q. rewrite place_of_move. destruct (decide (i = j)); [intros [= <-]; exact Hok|apply Hp].
  - intros j k d d'. rewrite !place_of_move. destruct (decide (i = j)); [intros [= E]; by destruct (Hpl d)|].
    destruct (decide (i = k)); [intros _ [= E]; by destruct (Hpl d')|apply Hs].
  - intros d Hd. destruct (Hf d Hd) as (H1 & H2 & H3 & j & Hj). split_and!; try done. exists j.
    rewrite place_of_move. destruct (decide (i = j)) as [->|]; [|done]. by destruct (Ht d).
Qed.

(** Nothing that a place depends on shrinks. *)
Lemma place_ok_mono m m' p :
  closed m ⊆ closed m' → issued m ⊆ issued m' → invalidated m ⊆ invalidated m' → sign_outs m ⊆ sign_outs m' →
  (∀ d, loginEnd m = Some d → loginEnd m' = Some d ∨ d ∈ closed m' ∧ p ≠ LoggingIn d) →
  place_ok m p → place_ok m' p.
Proof.
  intros Hc Hi Hv Ho Hl. destruct p as [|d| |d|s r|[s|e]|s|r]; cbn; try done.
  - intros [Hd|Hd]; [left; by apply Hc|]. destruct (Hl d Hd) as [?|[? _]]; [by right|by left].
  - intros Hd. destruct (Hl d Hd) as [?|[_ ?]]; done.
  - intros (? & ? & ? & ?). split_and!; [by apply Hi|by apply Hv|done|by apply Ho].
  - apply Hi.
  - intros [? ?]. split; [by apply Hi|by apply Ho].
Qed.

Lemma inv_enter m i t :
  inv m → threads m !! i = Some t → at_place t = Start → inv (enter m i t).
Proof.
  intros Hinv Hi Ht. assert (not_signing_in m i) as Hn by (by eapply at_not_signing_in). unfold enter. destruct (seqb (sm_session m) EmptyString) eqn:Hs; cbn [negb].
  2: { apply seqb_neq in Hs. apply inv_move; [done..|]. cbn. by destruct (inv_session m Hinv). }
  apply seqb_eq in Hs. destruct (loginEnd m) as [d|] eqn:Hl.
  { apply inv_move; [done..|]. cbn. by right. }
  destruct Hinv as [Hp Hsi Hf Hc Hse Hr Hiss Hv]. apply place_of_thread in Hi. rewrite Ht in Hi.
  assert (∀ j d, place_of m j = Some (LoggingIn d) → False) as Hnone.
  { intros j d Hj. apply Hp in Hj. cbn in Hj. congruence. }
  set (m' := {| sm_session := sm_session m |}).
  assert (∀ j, place_of m' j = place_of m j) as Hpl by done.
  split; try done.
  - intros j p. rewrite place_of_move. destruct (decide (i = j)) as [|Hne]; [by intros [= <-]|]. rewrite Hpl. intros Hj.
    eapply (place_ok_mono m); [..|by eapply Hp]; try done. intros d Hd. congruence.
  - intros j k d d'. rewrite !place_of_move, !Hpl. destruct (decide (i = j)), (decide (i = k)); [congruence|..];
      intros H1 H2; exfalso; eauto.
  - intros d [= <-]. cbn. split_and!; [lia|intros Hd; apply Hc in Hd; lia|done|]. exists i.
    rewrite place_of_move. by rewrite decide_True.
  - intros d Hd. cbn in *. apply Hc in Hd. lia.
Qed.

Lemma inv_finish_login has_logout m i t done r :
  inv m → threads m !! i = Some t → at_place t = LoggingIn done → inv (finish_login has_logout m i t done r).
Proof.
  intros [Hp Hs Hf Hc Hse Hr Hi Hv] Hi' Ht. apply place_of_thread in Hi'. rewrite Ht in Hi'.
  destruct (Hf done) as (Hlt & Hopen & Hempty & _); [by eapply Hp in Hi'|].
  assert (∀ j d, j ≠ i → place_of m j = Some (LoggingIn d) → False) as Hother by (intros j d Hne Hj; eapply Hne, Hs; eauto).
  assert (∀ m' p, (∀ j, place_of m' j = place_of m j) → loginEnd m' = None → closed m' = {[done]} ∪ closed m →
    next_channel m' = next_channel m → issued m ⊆ issued m' → invalidated m' = invalidated m → sign_outs m ⊆ sign_outs m' →
    (sm_session m' = EmptyString ∨ sm_session m' ∈ issued m') → (sm_retired m' = EmptyString ∨ sm_retired m' ∈ invalidated m) →
    EmptyString ∉ issued m' → (∀ d, p ≠ LoggingIn d) → place_ok m' p → inv (move m' i t p)) as Hgo.
  { intros m' p Hpl Hl Hcl Hn Hsub Hin Hout Hs' Hr' Hi2 Hne Hok. split; cbn [move set_threads sm_session sm_retired issued invalidated closed next_channel loginEnd].
    - intros j q. rewrite place_of_move. destruct (decide (i = j)) as [|Hij]; [intros [= <-]; exact Hok|]. rewrite Hpl. intros Hj.
      assert (place_ok m' q); [|destruct q as [| | | | |[]| |]; done]. eapply (place_ok_mono m); [..|by eapply Hp]; [rewrite Hcl; set_solver|done|by rewrite Hin|done|].
      intros d Hd. right. destruct (Hf d Hd) as (_ & _ & _ & k & Hk). assert (d = done) as ->.
      { assert (k = i) as -> by (by eapply Hs). congruence. }
      split; [rewrite Hcl; set_solver|]. intros ->. by eapply (Hother j).
    - intros j k d d'. rewrite !place_of_move, !Hpl. destruct (decide (i = j)); [intros [= E]; by destruct (Hne d)|].
      destruct (decide (i = k)); [intros _ [= E]; by destruct (Hne d')|apply Hs].
    - rewrite Hl. done.
    - rewrite Hcl, Hn. intros d [->%elem_of_singleton|Hd]%elem_of_union; [done|by apply Hc].
    - done.
    - rewrite Hin. done.
    - done.
    - rewrite Hin. etrans; [exact Hv|exact Hsub]. }
  unfold finish_login. destruct r as [s|e]; [destruct (seqb s EmptyString) eqn:Es|].
  - apply Hgo; done.
  - apply seqb_neq in Es. destruct (_ && _) eqn:Hout.
    + rewrite !andb_true_iff, !negb_true_iff, !seqb_neq in Hout. destruct Hout as [[Hre1 Hre2] _].
      apply Hgo; try done; cbn; [set_solver|set_solver|right; left|by left|set_solver|].
      destruct Hr as [?|Hr]; [done|]. split_and!; [left|done|done|left].
    + apply Hgo; try done; cbn; [set_solver|right; left|by left|set_solver|left].
  - apply Hgo; done.
Qed.

Lemma inv_frame m m' :
  inv m → (∀ i, place_of m' i = place_of m i) → loginEnd m' = loginEnd m → closed m' = closed m →
  next_channel m' = next_channel m → issued m' = issued m → invalidated m ⊆ invalidated m' → sign_outs m ⊆ sign_outs m' → invalidated m' ⊆ issued m →
  (sm_session m' = EmptyString ∨ sm_session m' = sm_session m) →
  (sm_retired m' = EmptyString ∨ sm_retired m' ∈ invalidated m') → inv m'.
Proof.
  intros [Hp Hs Hf Hc Hse Hr Hi Hv] Hpl Hl Hcl Hn Hiss Hv1 Ho Hv2 Hs' Hr'. split; rewrite ?Hl, ?Hcl, ?Hn, ?Hiss; try done.
  - intros i p. rewrite Hpl. intros Hi'. eapply (place_ok_mono m); [..|by eapply Hp]; rewrite ?Hcl, ?Hiss, ?Hl; try done.
    intros d Hd. by left.
  - intros i j d d'. rewrite !Hpl. apply Hs.
  - intros d Hd. destruct (Hf d Hd) as (H1 & H2 & H3 & i & H4). split_and!; [done|done| |exists i; by rewrite Hpl].
    destruct Hs' as [->| ->]; done.
  - destruct Hs' as [->| ->]; [by left|done].
Qed.

Lemma inv_close has_logout m i : inv m → threads m !! i = None → inv (close_manager has_logout m i).
Proof.
  intros Hinv Hi. unfold close_manager. set (m0 := {| sm_session := EmptyString |}).
  assert (inv m0) as H0 by (eapply inv_frame; [exact Hinv|..]; try done; [apply Hinv|by left|apply Hinv]).
  assert (not_signing_in m i) as Hn by auto.
  destruct (seqb (sm_session m) EmptyString) eqn:Es; cbn [orb]; [by apply inv_move|].
  destruct has_logout; cbn [negb]; [|by apply inv_move]. apply seqb_neq in Es.
  apply inv_move; [|done..|].
  - eapply inv_frame; [exact H0|..]; try done; cbn; [set_solver|apply Hinv|by left|apply Hinv].
  - cbn. split; [|left]. by destruct (inv_session m Hinv).
Qed.
Lemma inv_step has_logout ev m m' : inv m → step has_logout ev m = Some m' → inv m'.
Proof.
  intros Hinv. destruct ev as [i|i e|i|i|i r|i|s|i|i r]; cbn [step]; intros H.
  - destruct (threads m !! i) eqn:Hi; [done|]. injection H as <-.
    apply (inv_move m i {| at_place := Start; context := None |} Start); [done|auto|done..].
  - apply bind_Some in H as (t & Hi & H). destruct (context t); [done|]. injection H as <-.
    eapply inv_frame; [exact Hinv|..]; try done; [|apply Hinv|by right|apply Hinv].
    intros j. unfold place_of. cbn. destruct (decide (i = j)) as [<-|Hne]; [by rewrite lookup_insert_eq, Hi|].
    by rewrite lookup_insert_ne.
  - apply bind_Some in H as (t & Hi & H). unfold run_thread in H. destruct (at_place t) as [|d| | | | | |] eqn:Ht; try done.
    + injection H as <-. by apply inv_enter.
    + destruct (bool_decide (d ∈ closed m)); [|done]. injection H as <-. apply inv_move; try done. by eapply at_not_signing_in.
    + injection H as <-. unfold wake. destruct (loginErr m) as [e|]; [destruct (is_cancellation e && _)|];
        (apply inv_move; try done; by eapply at_not_signing_in).
  - apply bind_Some in H as (t & Hi & H). destruct (at_place t) eqn:Ht; try done. destruct (context t); [|done].
    injection H as <-. apply inv_move; try done. by eapply at_not_signing_in.
  - apply bind_Some in H as (t & Hi & H). destruct (at_place t) eqn:Ht; try done. injection H as <-. by apply inv_finish_login.
  - apply bind_Some in H as (t & Hi & H). destruct (at_place t) as [| | | |s r| | |] eqn:Ht; try done. injection H as <-.
    apply inv_move; try done; [by eapply at_not_signing_in|]. apply place_of_thread in Hi. apply (inv_places m Hinv) in Hi. rewrite Ht in Hi. apply Hi.
  - injection H as <-. unfold invalidate. destruct (negb _ && _) eqn:E; [|done].
    rewrite andb_true_iff, negb_true_iff, seqb_neq, seqb_eq in E. destruct E as [Hne Hs].
    eapply inv_frame; [exact Hinv|..]; try done; cbn; [set_solver| |by left|right; left].
    pose proof (inv_invalidated m Hinv). destruct (inv_session m Hinv); [congruence|]. rewrite Hs in *. set_solver.
  - destruct (threads m !! i) eqn:Hi; [done|]. injection H as <-. by apply inv_close.
  - apply bind_Some in H as (t & Hi & H). destruct (at_place t) eqn:Ht; try done. injection H as <-.
    apply inv_move; try done. by eapply at_not_signing_in.
Qed.

(** ** The ledger of the sessions *)

Definition signed_out (m : manager) : list string := (sign_outs m).*1.

(** A session that Fincloud gave is in use, given up until the next one, or signed out;
    and none is signed out twice, unless Fincloud gives one twice. *)
Record ledger (has_logout : bool) (m : manager) : Prop := {
  led_one : sm_session m = EmptyString ∨ sm_retired m = EmptyString;
  led_replaced : ∀ old s, (old, Some s) ∈ sign_outs m → old ∈ invalidated m ∧ s ∈ issued m ∧ old ≠ s;
  led_issued : signed_out m ⊆ issued m;
  led_kept : has_logout = true → ∀ s, s ∈ issued m → s = sm_session m ∨ s = sm_retired m ∨ s ∈ signed_out m;
  led_once : NoDup (issued m) → NoDup (signed_out m) ∧ sm_session m ∉ signed_out m ∧ sm_retired m ∉ signed_out m
}.
Lemma ledger_frame has_logout m m' :
  ledger has_logout m → sm_session m' = sm_session m → sm_retired m' = sm_retired m → sign_outs m' = sign_outs m →
  issued m' = issued m → invalidated m' = invalidated m → ledger has_logout m'.
Proof. intros [] Hs Hr Ho Hi Hv. split; unfold signed_out in *; rewrite ?Hs, ?Hr, ?Ho, ?Hi, ?Hv; done. Qed.

(** What a step does to the ledger *)
Inductive books (has_logout : bool) (m m' : manager) : event → Prop :=
| books_same ev : sm_session m' = sm_session m → sm_retired m' = sm_retired m → issued m' = issued m →
    invalidated m' = invalidated m → sign_outs m' = sign_outs m → books has_logout m m' ev
| books_signed_in i s : s ≠ EmptyString → sm_session m = EmptyString →
    sm_session m' = s → sm_retired m' = EmptyString → issued m' = s :: issued m → invalidated m' = invalidated m →
    sign_outs m' = (if negb (seqb (sm_retired m) EmptyString) && negb (seqb (sm_retired m) s) && has_logout
                    then (sm_retired m, Some s) :: sign_outs m else sign_outs m) →
    books has_logout m m' (LoginDone i (Ok s))
| books_given_up : sm_session m ≠ EmptyString → sm_session m' = EmptyString → sm_retired m' = sm_session m →
    issued m' = issued m → invalidated m' = sm_session m :: invalidated m → sign_outs m' = sign_outs m →
    books has_logout m m' (DoInvalidate (sm_session m))
| books_closed i : sm_session m ≠ EmptyString → sm_session m' = EmptyString → sm_retired m' = sm_retired m →
    issued m' = issued m → invalidated m' = invalidated m →
    sign_outs m' = (if has_logout then (sm_session m, None) :: sign_outs m else sign_outs m) →
    books has_logout m m' (DoClose i).
Lemma step_books has_logout ev m m' : inv m → step has_logout ev m = Some m' → books has_logout m m' ev.
Proof.
  intros Hinv. destruct ev as [i|i e|i|i|i r|i|s|i|i r]; cbn [step]; intros H.
  - destruct (threads m !! i); [done|]. injection H as <-. by apply books_same.
  - apply bind_Some in H as (t & Hi & H). destruct (context t); [done|]. injection H as <-. by apply books_same.
  - apply bind_Some in H as (t & Hi & H). unfold run_thread in H. destruct (at_place t) eqn:Ht; try done.
    + injection H as <-. unfold enter. destruct (negb _); [|destruct (loginEnd m)]; by apply books_same.
    + destruct (bool_decide _); [|done]. injection H as <-. by apply books_same.
    + injection H as <-. unfold wake. destruct (loginErr m); [destruct (_ && _)|]; by apply books_same.
  - apply bind_Some in H as (t & Hi & H). destruct (at_place t); try done. destruct (context t); [|done].
    injection H as <-. by apply books_same.
  - apply bind_Some in H as (t & Hi & H). destruct (at_place t) as [| | |d| | | |] eqn:Ht; try done. injection H as <-.
    apply place_of_thread in Hi. rewrite Ht in Hi. apply (inv_places m Hinv) in Hi. cbn in Hi.
    apply (inv_flight m Hinv) in Hi as (_ & _ & Hs & _).
    unfold finish_login. destruct r as [s|e]; [|by apply books_same]. destruct (seqb s EmptyString) eqn:Es; [by apply books_same|].
    apply seqb_neq in Es. apply books_signed_in; try done; by destruct (_ && _).
  - apply bind_Some in H as (t & Hi & H). destruct (at_place t); try done. injection H as <-. by apply books_same.
  - injection H as <-. unfold invalidate. destruct (negb _ && _) eqn:E; [|by apply books_same].
    rewrite andb_true_iff, negb_true_iff, seqb_neq, seqb_eq in E. destruct E as [Hne <-]. by apply books_given_up.
  - destruct (threads m !! i); [done|]. injection H as <-. unfold close_manager.
    destruct (seqb (sm_session m) EmptyString) eqn:Es; [apply seqb_eq in Es; by apply books_same|].
    apply seqb_neq in Es. by destruct has_logout; apply books_closed.
  - apply bind_Some in H as (t & Hi & H). destruct (at_place t); try done. injection H as <-. by apply books_same.
Qed.
Lemma ledger_step has_logout ev m m' : inv m → books has_logout m m' ev → ledger has_logout m → ledger has_logout m'.
Proof.
  intros Hinv Hb HL. destruct Hb as [ev Hs Hr Hi Hv Ho|i s Hne Hold Hs Hr Hi Hv Ho|Hne Hs Hr Hi Hv Ho|i Hne Hs Hr Hi Hv Ho].
  - by eapply ledger_frame.
  - destruct HL as [H1 H2 H3 H4 H5]. pose proof (inv_issued m Hinv) as H0.
    set (out := negb _ && _ && _) in Ho. assert (Hout : out = true → sm_retired m ≠ EmptyString ∧ sm_retired m ≠ s).
    { unfold out. rewrite !andb_true_iff, !negb_true_iff, !seqb_neq. tauto. }
    assert (Hret : sm_retired m = EmptyString ∨ sm_retired m ∈ invalidated m ∧ sm_retired m ∈ issued m).
    { destruct (inv_retired m Hinv); [by left|right]. split; [done|]. by apply (inv_invalidated m Hinv). }
    unfold signed_out in *. split; unfold signed_out; rewrite ?Hs, ?Hr, ?Hi, ?Hv, ?Ho.
    + by right.
    + intros old s' Hin. destruct out eqn:E; [apply elem_of_cons in Hin as [[= -> ->]|Hin]|].
      * destruct (Hout eq_refl). split_and!; [naive_solver|left|done].
      * destruct (H2 _ _ Hin) as (? & ? & ?). split_and!; [done|by right|done].
      * destruct (H2 _ _ Hin) as (? & ? & ?). split_and!; [done|by right|done].
    + destruct out eqn:E; cbn; [|set_solver]. destruct (Hout eq_refl). set_solver.
    + intros -> s' [->|Hin]%elem_of_cons; [by left|].
      destruct (H4 eq_refl s' Hin) as [->|[->|Hx]]; [by rewrite Hold in Hin| |].
      * destruct (decide (sm_retired m = s)) as [->|Hn]; [by left|]. right. right. assert (out = true) as ->; [|left].
        unfold out. rewrite !andb_true_iff, !negb_true_iff, !seqb_neq. split_and!; [by intros E; rewrite E in Hin|done|done].
      * right. right. destruct out; cbn; [by right|done].
    + intros [Hns Hnd]%NoDup_cons. destruct (H5 Hnd) as (Hd & Hx & Hy).
      assert (s ∉ (sign_outs m).*1) as Hs' by (intros Hin; by apply Hns, H3).
      assert (EmptyString ∉ (sign_outs m).*1) as He by (intros Hin; by apply H0, H3).
      destruct out eqn:E; cbn; [|done]. destruct (Hout eq_refl). split_and!; [by apply NoDup_cons|set_solver|set_solver].
  - destruct HL as [H1 H2 H3 H4 H5]. unfold signed_out in *. assert (sm_retired m = EmptyString) as Hre by naive_solver.
    split; unfold signed_out; rewrite ?Hs, ?Hr, ?Hi, ?Hv, ?Ho.
    + by left.
    + intros old s' Hin. destruct (H2 _ _ Hin) as (? & ? & ?). split_and!; [by right|done|done].
    + done.
    + intros -> s' Hin. destruct (H4 eq_refl s' Hin) as [->|[->|Hx]]; [auto| |auto]. rewrite Hre in Hin. by destruct (inv_issued m Hinv).
    + intros Hnd. destruct (H5 Hnd) as (Hd & Hx & Hy). rewrite Hre in Hy. done.
  - destruct HL as [H1 H2 H3 H4 H5]. unfold signed_out in *. assert (sm_retired m = EmptyString) as Hre by naive_solver.
    assert (sm_session m ∈ issued m) as Hin by (by destruct (inv_session m Hinv)).
    assert (EmptyString ∉ (sign_outs m).*1) as He by (intros Hx; by apply (inv_issued m Hinv), H3).
    split; unfold signed_out; rewrite ?Hs, ?Hr, ?Hi, ?Hv, ?Ho.
    + by left.
    + intros old s'. destruct has_logout; [|apply H2]. intros [[=]|Hx]%elem_of_cons. by apply H2.
    + destruct has_logout; cbn; [set_solver|done].
    + intros -> s' Hs'. cbn. destruct (H4 eq_refl s' Hs') as [->|[->|Hx]]; [right; right; left|auto|right; right; by right].
    + intros Hnd. destruct (H5 Hnd) as (Hd & Hx & Hy). rewrite Hre.
      destruct has_logout; cbn; [|done]. split_and!; [by apply NoDup_cons|set_solver|set_solver].
Qed.

Lemma inv_new : inv new_manager.
Proof. split; try done; try (by left); cbn; set_solver. Qed.

Lemma ledger_new has_logout : ledger has_logout new_manager.
Proof. split; try by left. all: unfold signed_out; cbn; set_solver. Qed.

Lemma steps_inv has_logout evs m m' :
  inv m ∧ ledger has_logout m → steps has_logout evs m = Some m' → inv m' ∧ ledger has_logout m'.
Proof.
  revert m. induction evs as [|ev evs IH]; intros m Hm H; cbn in H; [by injection H as <-|].
  apply bind_Some in H as (m1 & H1 & H). eapply IH; [|exact H]. destruct Hm as [Hm HL].
  split; [by eapply inv_step|]. eapply ledger_step; [exact Hm|by eapply step_books|done].
Qed.

Lemma reachable_ledger has_logout m : reachable has_logout m → inv m ∧ ledger has_logout m.
Proof. intros [evs H]. eapply steps_inv; [split; [apply inv_new|apply ledger_new]|exact H]. Qed.
Lemma reachable_inv has_logout m : reachable has_logout m → inv m.
Proof. intros H. by eapply reachable_ledger. Qed.

(** ** Properties *)

(** What may sign a session out: a sign-in that replaces the session given up before,
    or a [Close] that takes the current one *)
Definition sign_out_cause (m m' : manager) (ev : event) : Prop :=
  (∃ i s, ev = LoginDone i (Ok s) ∧ sm_session m' = s ∧ sm_retired m ≠ s ∧ sm_retired m ∈ invalidated m ∧
          sign_outs m' = (sm_retired m, Some s) :: sign_outs m) ∨
  (∃ i, ev = DoClose i ∧ sm_session m ∈ issued m ∧ sm_session m' = EmptyString ∧
        sign_outs m' = (sm_session m, None) :: sign_outs m).

(** C37: whatever the scheduler, Fincloud and the callers' contexts do, at most one
    sign-in is in flight, and no session is handed out meanwhile; a session that a
    caller gets came from a sign-in; a session is signed out only when a sign-in has
    just replaced it after it was given up, or as the current one by [Close]; every
    session that Fincloud gave is the current one, the one given up and not replaced
    yet, or one that was signed out (when there is a logout function), so none is
    forgotten; and, as long as Fincloud does not give one twice, none is signed out
    twice and the current one is never one that was signed out. *)
Theorem single_flight has_logout m :
  reachable has_logout m →
  (∀ i j d d', place_of m i = Some (LoggingIn d) → place_of m j = Some (LoggingIn d') → i = j ∧ d = d') ∧
  (∀ i d, place_of m i = Some (LoggingIn d) → loginEnd m = Some d ∧ sm_session m = EmptyString) ∧
  (∀ i s, place_of m i = Some (Returned (Ok s)) → s ≠ EmptyString ∧ s ∈ issued m) ∧
  (sm_session m = EmptyString ∨ sm_session m ∈ issued m) ∧
  (∀ i s old, place_of m i = Some (LoggingOut s old) →
     (old, Some s) ∈ sign_outs m ∧ old ∈ invalidated m ∧ old ≠ s ∧ s ∈ issued m) ∧
  (∀ i s, place_of m i = Some (Closing s) → (s, None) ∈ sign_outs m ∧ s ∈ issued m) ∧
  (∀ ev m', step has_logout ev m = Some m' → sign_outs m' = sign_outs m ∨ sign_out_cause m m' ev) ∧
  (has_logout = true → ∀ s, s ∈ issued m → s = sm_session m ∨ s = sm_retired m ∨ s ∈ signed_out m) ∧
  (NoDup (issued m) → NoDup (signed_out m) ∧ sm_session m ∉ signed_out m).
Proof.
  intros H. pose proof (reachable_ledger _ _ H) as [Hinv HL]. pose proof Hinv as [Hp Hs Hf Hc Hse Hr Hi Hv]. split_and!.
  - intros i j d d' H1 H2. split; [by eapply Hs|]. apply Hp in H1, H2. cbn in H1, H2. congruence.
  - intros i d Hd. apply Hp in Hd. cbn in Hd. split; [done|]. by apply Hf in Hd as (_ & _ & ? & _).
  - intros i s Hd. apply Hp in Hd. cbn in Hd. split; [|done]. by intros ->.
  - done.
  - intros i s old Hd. apply Hp in Hd. cbn in Hd. by destruct Hd as (? & ? & ? & ?).
  - intros i s Hd. apply Hp in Hd. cbn in Hd. by destruct Hd.
  - intros ev m' Hst. apply (step_books _ _ _ _ Hinv) in Hst.
    destruct Hst as [| i s Hne Hold Hs' Hr' Hi' Hv' Ho| |i Hne Hs' Hr' Hi' Hv' Ho]; try by left.
    + destruct (_ && _) eqn:E in Ho; [|by left]. rewrite !andb_true_iff, !negb_true_iff, !seqb_neq in E.
      right. left. exists i, s. split_and!; try done; [tauto|naive_solver].
    + destruct has_logout; [|by left]. right. right. exists i. split_and!; [done|naive_solver|done..].
  - apply HL.
  - intros Hd. apply (led_once _ _ HL) in Hd as (? & ? & _). done.
Qed.

(** C38: no caller is stuck.  One that has not returned can take its next step, or
    waits for Fincloud to answer its own request, or waits on the channel of the
    sign-in in flight: whatever the answer to that sign-in is, the caller can go
    on right after it.  No wake-up is lost. *)
Theorem no_lost_wakeup has_logout m i p :
  reachable has_logout m → place_of m i = Some p →
  match p with
  | Returned _ => True
  | Start | Woken => is_Some (step has_logout (Run i) m)
  | LoggingIn _ => ∀ r, is_Some (step has_logout (LoginDone i r) m)
  | LoggingOut _ _ => is_Some (step has_logout (LogoutDone i) m)
  | Closing _ => ∀ r, is_Some (step has_logout (CloseDone i r) m)
  | Closed _ => True
  | Waiting d =>
      is_Some (step has_logout (Run i) m) ∨
      ∃ j, place_of m j = Some (LoggingIn d) ∧
        ∀ r, ∃ m', step has_logout (LoginDone j r) m = Some m' ∧ is_Some (step has_logout (Run i) m')
  end.
Proof.
  intros Hinv%reachable_inv Hi. pose proof (inv_places m Hinv i p Hi) as Hok.
  unfold place_of in Hi. destruct (threads m !! i) as [t|] eqn:Ht; [|done]. cbn in Hi. injection Hi as <-.
  destruct (at_place t) as [|d| | | | | |] eqn:Hpl; cbn [step]; rewrite ?Ht; cbn [mbind option_bind]; unfold run_thread;
    rewrite ?Hpl; try done; try (intros; by eexists).
  destruct (decide (d ∈ closed m)) as [Hd|Hd]; [left; rewrite bool_decide_eq_true_2 by done; by eexists|].
  destruct Hok as [|Hl]; [done|]. right. destruct (inv_flight m Hinv d Hl) as (_ & _ & _ & j & Hj).
  exists j. split; [done|]. intros r. unfold place_of in Hj. destruct (threads m !! j) as [t'|] eqn:Ht'; [|done].
  cbn in Hj. injection Hj as Hj. eexists. split; [cbn; rewrite ?Ht'; cbn; rewrite Hj; reflexivity|].
  assert (i ≠ j) as Hij by (intros ->; congruence).
  assert (threads (finish_login has_logout m j t' d r) !! i = Some t ∧ d ∈ closed (finish_login has_logout m j t' d r))
    as [H1 H2].
  { unfold finish_login. destruct r as [s|e]; [destruct (seqb s EmptyString)|]; [|destruct (_ && _)|];
      cbn; (rewrite lookup_insert_ne by done); (split; [done|set_solver]). }
  rewrite H1. cbn [mbind option_bind]. rewrite Hpl, bool_decide_eq_true_2 by done. by eexists.
Qed.

(** A caller whose own context is alive never fails with the cancellation of
    another caller's sign-in: it tries again. *)
Theorem cancellation_isolated has_logout m ev m' i t e :
  step has_logout ev m = Some m' → threads m !! i = Some t → context t = None →
  (∀ d, at_place t ≠ LoggingIn d) → (∀ r, at_place t ≠ Returned r) →
  place_of m' i = Some (Returned (Fail e)) → is_cancellation e = false.
Proof.
  intros Hstep Ht Hctx Hlog Hret Hend.
  assert (∀ j t' p, place_of (move m j t' p) i = Some (Returned (Fail e)) → i = j ∧ p = Returned (Fail e)) as Hmove.
  { intros j t' p. rewrite place_of_move. destruct (decide (j = i)) as [->|]; [by intros [= ->]|].
    rewrite (place_of_thread m i t Ht). intros [= E]. by destruct (Hret (Fail e)). }
  assert (place_of m i = Some (Returned (Fail e)) → False) as Hnot.
  { rewrite (place_of_thread m i t Ht). intros [= E]. by destruct (Hret (Fail e)). }
  destruct ev as [j|j e'|j|j|j r|j|s|j|j r]; cbn [step] in Hstep.
  - destruct (threads m !! j) eqn:Hj; [done|]. injection Hstep as <-. destruct Hnot. rewrite <- Hend.
    unfold place_of. cbn. rewrite lookup_insert_ne; [done|congruence].
  - apply bind_Some in Hstep as (t' & Hj & Hstep). destruct (context t'); [done|]. injection Hstep as <-. destruct Hnot.
    rewrite <- Hend. unfold place_of. cbn. destruct (decide (j = i)) as [->|]; [by rewrite lookup_insert_eq, Hj|].
    by rewrite lookup_insert_ne.
  - apply bind_Some in Hstep as (t' & Hj & Hstep). unfold run_thread in Hstep. destruct (at_place t') eqn:Hpl; try done.
    + injection Hstep as <-. unfold enter in Hend. destruct (negb _); [|destruct (loginEnd m)].
      * by apply Hmove in Hend as [_ ?].
      * by apply Hmove in Hend as [_ ?].
      * rewrite place_of_move in Hend. destruct (decide (j = i)); [done|]. by destruct Hnot.
    + destruct (bool_decide _); [|done]. injection Hstep as <-. by apply Hmove in Hend as [_ ?].
    + injection Hstep as <-. unfold wake in Hend. destruct (loginErr m) as [e0|]; [|by apply Hmove in Hend as [_ ?]].
      destruct (is_cancellation e0 && bool_decide (context t' = None)) eqn:Ec; apply Hmove in Hend as [-> Hend]; [done|].
      injection Hend as <-. rewrite Ht in Hj. injection Hj as <-. rewrite bool_decide_eq_true_2, andb_true_r in Ec; done.
  - apply bind_Some in Hstep as (t' & Hj & Hstep). destruct (at_place t'); try done. destruct (context t') eqn:Hc; [|done].
    injection Hstep as <-. apply Hmove in Hend as [-> _]. congruence.
  - apply bind_Some in Hstep as (t' & Hj & Hstep). destruct (at_place t') eqn:Hpl; try done. injection Hstep as <-.
    assert (i ≠ j) as Hij by (intros ->; rewrite Ht in Hj; injection Hj as <-; by eapply Hlog).
    destruct Hnot. rewrite <- Hend. unfold finish_login.
    destruct r as [s|e0]; [destruct (seqb s EmptyString)|]; [|destruct (_ && _)|];
      rewrite place_of_move, decide_False by done; done.
  - apply bind_Some in Hstep as (t' & Hj & Hstep). destruct (at_place t'); try done. injection Hstep as <-.
    by apply Hmove in Hend as [_ ?].
  - injection Hstep as <-. unfold invalidate in Hend. destruct (_ && _); by destruct Hnot.
  - destruct (threads m !! j) eqn:Hj; [done|]. injection Hstep as <-. unfold close_manager in Hend.
    destruct (_ || _); by apply Hmove in Hend as [_ ?].
  - apply bind_Some in Hstep as (t' & Hj & Hstep). destruct (at_place t'); try done. injection Hstep as <-.
    by apply Hmove in Hend as [_ ?].
Qed.

(** Events of one caller's run, with the sign-in answered by [r] *)
Definition events_of (i : nat) (r : res string) (ev : event) : Prop :=
  ev = Run i ∨ ev = LoginDone i r ∨ ev = LogoutDone i.

(** For one caller with no sign-in in flight, the manager does what the
    sequential [Session] of the client does: same result, same session and
    retired session afterwards. *)
Theorem Session_refines config upstream st r st' m i c :
  Session config upstream st = (r, st') →
  sm_session m = session st → sm_retired m = retired st → loginEnd m = None →
  threads m !! i = Some {| at_place := Start; context := c |} →
  ∃ evs m', Forall (events_of i (fst (login config upstream st))) evs ∧ steps true evs m = Some m' ∧
    place_of m' i = Some (Returned r) ∧ sm_session m' = session st' ∧ sm_retired m' = retired st' ∧ loginEnd m' = None.
Proof.
  intros H Hs Hr Hl Ht. unfold Session in H. unfold events_of.
  destruct (seqb (session st) EmptyString) eqn:He; cbn [negb] in H.
  2: { injection H as <- <-. eexists [Run i], _. split; [rewrite !Forall_cons, Forall_nil; auto 10|]. cbn. rewrite Ht. cbn.
       unfold run_thread, enter. cbn. rewrite Hs, He. cbn. split; [reflexivity|].
       rewrite place_of_move, decide_True by done. done. }
  destruct (login config upstream st) as [lr st1] eqn:Hlog. apply login_inv in Hlog as (_ & Hs1 & Hr1 & Hid & _).
  assert (∃ m1 d, steps true [Run i] m = Some m1 ∧ threads m1 !! i = Some {| at_place := LoggingIn d; context := c |} ∧
    sm_session m1 = session st ∧ sm_retired m1 = retired st) as (m1 & d & H1 & Ht1 & Hs2 & Hr2).
  { eexists _, _. cbn. rewrite Ht. cbn. unfold run_thread, enter. cbn. rewrite Hs, He, Hl. cbn.
    split; [reflexivity|]. cbn. rewrite lookup_insert_eq. done. }
  cbn in H1. rewrite Ht in H1. cbn in H1. injection H1 as H1.
  assert (∀ evs, steps true (Run i :: evs) m = steps true evs m1) as Hrun.
  { intros evs. cbn. rewrite Ht. cbn. by rewrite H1. }
  destruct lr as [s|e].
  - specialize (Hid s eq_refl). assert (seqb s EmptyString = false) as Hse by by apply seqb_neq. rewrite Hse in H.
    rewrite Hr1 in H. cbn zeta in H. destruct (negb _ && negb _) eqn:Hout.
    + destruct (logout config upstream _ _) as [lo st2] eqn:Hlo. apply logout_inv in Hlo as (_ & Hs3 & Hr3). injection H as <- <-.
      eexists [Run i; LoginDone i (Ok s); LogoutDone i], _. split; [rewrite !Forall_cons, Forall_nil; auto 10|]. rewrite Hrun. cbn. rewrite Ht1. cbn.
      unfold finish_login. rewrite Hse. cbn. rewrite Hr2, Hout. cbn. rewrite lookup_insert_eq. cbn. split; [reflexivity|].
      rewrite place_of_move, decide_True by done. cbn in *. by rewrite Hs3, Hr3.
    + injection H as <- <-. eexists [Run i; LoginDone i (Ok s)], _. split; [rewrite !Forall_cons, Forall_nil; auto 10|]. rewrite Hrun. cbn.
      rewrite Ht1. cbn. unfold finish_login. rewrite Hse. cbn. rewrite Hr2, Hout. cbn. split; [reflexivity|].
      rewrite place_of_move, decide_True by done. done.
  - injection H as <- <-. eexists [Run i; LoginDone i (Fail e)], _. split; [rewrite !Forall_cons, Forall_nil; auto 10|]. rewrite Hrun. cbn.
    rewrite Ht1. cbn. split; [reflexivity|]. rewrite place_of_move, decide_True by done. cbn. by rewrite Hs2, Hr2, Hs1, Hr1.
Qed.

(** ** A concrete run: two callers, one sign-in *)

Definition ex_events : list event :=
  [Call 0; Call 1; Run 0; Run 1; LoginDone 0 (Ok "S1"%string); DoInvalidate "S1"; Call 2; Run 2; Run 1].
Definition ex_manager : manager := default new_manager (steps true ex_events new_manager).

Lemma ex_reachable : reachable true ex_manager.
Proof. exists ex_events. vm_compute. reflexivity. Qed.

Lemma single_flight_witness :
  place_of ex_manager 2 = Some (LoggingIn 1) ∧ sm_session ex_manager = EmptyString ∧
  place_of ex_manager 0 = Some (Returned (Ok "S1"%string)) ∧ "S1"%string ∈ issued ex_manager.
Proof.
  destruct (single_flight true ex_manager ex_reachable) as (_ & H1 & H2 & _).
  split; [vm_compute; reflexivity|]. split; [apply (H1 2 1); vm_compute; reflexivity|].
  split; [vm_compute; reflexivity|]. apply (H2 0). vm_compute. reflexivity.
Defined.

(** [Close] signs the current session out, and a sign-in in flight is not its concern. *)
Example close_signs_out :
  match steps true [Call 0; Run 0; LoginDone 0 (Ok "S1"%string); DoClose 1; Call 2; Run 2; DoClose 3; CloseDone 1 (Ok tt)] new_manager with
  | Some m => sign_outs m = [("S1"%string, None)] ∧ place_of m 1 = Some (Closed (Ok tt)) ∧
              place_of m 2 = Some (LoggingIn 1) ∧ place_of m 3 = Some (Closed (Ok tt))
  | None => False
  end.
Proof. vm_compute. done. Qed.

Lemma no_lost_wakeup_witness :
  place_of ex_manager 1 = Some Woken ∧ is_Some (step true (Run 1) ex_manager).
Proof.
  assert (place_of ex_manager 1 = Some Woken) as H by (vm_compute; reflexivity).
  split; [exact H|]. exact (no_lost_wakeup true ex_manager 1 Woken ex_reachable H).
Defined.

Definition ex_woken : manager :=
  default new_manager (steps true
    [Call 0; Call 1; Run 0; Run 1; LoginDone 0 (Fail (Msg "refused")); Run 1] new_manager).
Lemma cancellation_isolated_witness :
  ∃ m', step true (Run 1) ex_woken = Some m' ∧ place_of m' 1 = Some (Returned (Fail (Msg "refused"))) ∧
    is_cancellation (Msg "refused") = false.
Proof.
  destruct (step true (Run 1) ex_woken) as [m'|] eqn:E; [|vm_compute in E; discriminate E].
  assert (place_of m' 1 = Some (Returned (Fail (Msg "refused")))) as H.
  { vm_compute in E. injection E as <-. vm_compute. reflexivity. }
  exists m'. split; [reflexivity|]. split; [exact H|].
  apply (cancellation_isolated true ex_woken (Run 1) m' 1 {| at_place := Woken; context := None |});
    [exact E|vm_compute; reflexivity|reflexivity|discriminate|discriminate|exact H].
Defined.

Lemma Session_refines_witness :
  ∃ evs m', steps true evs (default new_manager (step true (Call 0) new_manager)) = Some m' ∧
    place_of m' 0 = Some (Returned (Ok "S1"%string)) ∧ sm_session m' = "S1"%string.
Proof.
  set (st := {| exchanges := []; session := EmptyString; retired := EmptyString |}).
  destruct (Session ex_config ex_upstream st) as [r st'] eqn:E.
  assert (r = Ok "S1"%string) as Hr by (change r with (fst (r, st')); rewrite <- E; vm_compute; reflexivity).
  assert (session st' = "S1"%string) as Hs by (change st' with (snd (r, st')); rewrite <- E; vm_compute; reflexivity).
  destruct (Session_refines ex_config ex_upstream st r st' (default new_manager (step true (Call 0) new_manager)) 0 None)
    as (evs & m' & _ & H1 & H2 & H3 & _); [exact E|reflexivity..|].
  exists evs, m'. rewrite Hr in H2. rewrite Hs in H3. split; [exact H1|]. split; [exact H2|exact H3].
Defined.
