(* ===== verification/Calculator.v ===== *)
(** The contractual calculator, [internal/contractual/calculator.go]: the flat
    schedule, the selection of effective repayments, the allocation of a
    repayment to the buckets of a loan, and the calculation that accrues the
    schedule and applies the repayments from the cutoff to the as-of date. *)
From stdpp Require Import base list strings sorting.
From Stdlib Require Import ZArith Lia QArith Qabs Lqa Setoid Morphisms.
From S2P Require Import Prelude GoErrors GoSlices GoTime Dates Money LoanModel.
Local Open Scope Z_scope.

(** [Round] is nil unless a rounding policy is installed. *)
Record Calculator := { Round : option (Money → Money) }.
Definition round (calculator : Calculator) (value : Money) : Money :=
  match Round calculator with None => value | Some f => f value end.

Definition compareDate (left right : Date) : Z :=
  if Before left right then -1 else if After left right then 1 else 0.
(** [cmp.Compare] on integers *)
Definition compare_int (left right : Z) : Z :=
  if left <? right then -1 else if right <? left then 1 else 0.

(** ** Validation *)

Definition validateOpening (opening : OpeningLoanState) : res unit :=
  fail_if (IsNegative (op_PrincipalOutstanding opening) || IsNegative (op_PrincipalDue opening) ||
           IsNegative (op_InterestDue opening) ||
           money_gt (op_PrincipalDue opening) (op_PrincipalOutstanding opening))
          (errorf ErrInvariant "%w: invalid opening balances");;
  fail_if ((op_CollectabilityBI opening <? 1) || (5 <? op_CollectabilityBI opening))
          (errorf ErrInvariant "%w: opening collectability must be 1..5").

(** [previous] is the point before the current one, [None] at index 0. *)
Fixpoint validateTimeline_from (previous : option CollectabilityPoint) (timeline : list CollectabilityPoint)
    : res unit :=
  match timeline with
  | [] => Ok tt
  | point :: rest =>
      fail_if (Date_IsZero (cp_Date point) || (cp_Value point <? 1) || (5 <? cp_Value point))
              (errorf ErrHistoricalEvidence "%w: invalid collectability timeline point");;
      fail_if (match previous with
               | None => false
               | Some p => Equal (cp_Date point) (cp_Date p) && negb (cp_Value point =? cp_Value p)
               end)
              (errorf ErrHistoricalEvidence "%w: conflicting collectability values on %s");;
      validateTimeline_from (Some point) rest
  end.
Definition validateTimeline (timeline : list CollectabilityPoint) : res unit :=
  validateTimeline_from None timeline.

(** The loop of [collectabilityAt]: the last value before the first point after [date] *)
Fixpoint last_value (value : Z) (timeline : list CollectabilityPoint) (date : Date) : Z :=
  match timeline with
  | [] => value
  | point :: rest => if After (cp_Date point) date then value else last_value (cp_Value point) rest date
  end.
Definition collectabilityAt (opening : Z) (timeline : list CollectabilityPoint) (date : Date) : res Z :=
  fail_if ((opening <? 1) || (5 <? opening))
          (errorf ErrHistoricalEvidence "%w: invalid opening collectability");;
  let value := last_value opening timeline date in
  fail_if ((value <? 1) || (5 <? value))
          (JoinErr [Sentinel ErrHistoricalEvidence; Msg "invalid collectability for %s"]);;
  Ok value.

(** ** Schedule *)

Definition by_number (left right : ContractualInstallment) : bool :=
  compare_int (ci_Number left) (ci_Number right) <=? 0.

Fixpoint check_installments (index : Z) (previous : option ContractualInstallment)
    (installments : list ContractualInstallment) : res unit :=
  match installments with
  | [] => Ok tt
  | installment :: rest =>
      fail_if (negb (ci_Number installment =? index + 1) || Date_IsZero (ci_DueDate installment))
              (errorf ErrUnsupportedCalculation "%w: invalid contractual installment numbering");;
      fail_if (match previous with
               | None => false
               | Some p => negb (After (ci_DueDate installment) (ci_DueDate p))
               end)
              (errorf ErrUnsupportedCalculation
                 "%w: contractual installment dates are not strictly chronological");;
      check_installments (index + 1) (Some installment) rest
  end.

Fixpoint build_rows (index tenor : Z) (principalPerPeriod interestPerPeriod balance : Money)
    (installments : list ContractualInstallment) : res (list ContractualScheduleRow) :=
  match installments with
  | [] => Ok []
  | installment :: rest =>
      periodPrincipal ←
        (if index =? tenor - 1 then Ok balance
         else if money_gt principalPerPeriod balance
              then Fail (errorf ErrInvariant "%w: rounding policy exhausts principal before final installment")
              else Ok principalPerPeriod);
      let balance' := Sub balance periodPrincipal in
      rows ← build_rows (index + 1) tenor principalPerPeriod interestPerPeriod balance' rest;
      Ok ({| row_Number := ci_Number installment; row_DueDate := ci_DueDate installment;
             row_Principal := periodPrincipal; row_Interest := interestPerPeriod;
             row_Installment := Add periodPrincipal interestPerPeriod;
             row_ScheduledBalance := balance' |} :: rows)
  end.

(** [BuildSchedule] after its unstable sort: [installments] is the sorted slice. *)
Definition schedule_of_sorted (calculator : Calculator) (principal : Money) (tenor : Z) (flatRate : Money)
    (installments : list ContractualInstallment) : res (list ContractualScheduleRow) :=
  fail_if (negb (Z.of_nat (length installments) =? tenor))
          (errorf ErrUnsupportedCalculation "%w: got %d contractual installments for %d-month tenor");;
  check_installments 0 None installments;;
  match DivInt principal tenor with
  | Fail _ => Fail (errorf ErrInvariant "%w: principal installment: %v")
  | Ok principalPerPeriod =>
      match DivInt (Mul principal flatRate) 1200 with
      | Fail _ => Fail (errorf ErrInvariant "%w: interest installment: %v")
      | Ok interestPerPeriod =>
          let principalPerPeriod := round calculator principalPerPeriod in
          let interestPerPeriod := round calculator interestPerPeriod in
          fail_if (IsNegative principalPerPeriod || IsNegative interestPerPeriod)
                  (errorf ErrInvariant "%w: rounding policy returned negative installment");;
          build_rows 0 tenor principalPerPeriod interestPerPeriod principal installments
      end
  end.

Definition BuildSchedule (calculator : Calculator) (principal : Money) (tenor : Z) (flatRate : Money)
    (source : list ContractualInstallment) : res (list ContractualScheduleRow) :=
  fail_if (IsNegative principal || IsZero principal || (tenor <=? 0) || IsNegative flatRate)
          (errorf ErrInvariant "%w: invalid contract parameters");;
  schedule_of_sorted calculator principal tenor flatRate (SortStableFunc by_number source).

(** ** Repayments *)

Definition zeroRepaymentComponents (payment : Repayment) : bool :=
  IsZero (rp_PrincipalComponent payment) && IsZero (rp_InterestComponent payment) &&
  IsZero (rp_PenaltyComponent payment) && IsZero (rp_EarlyPenaltyComponent payment) &&
  IsZero (rp_DWPComponent payment).

Definition repayment_components (payment : Repayment) : Money :=
  Add (Add (Add (Add (rp_PrincipalComponent payment) (rp_InterestComponent payment))
                (rp_PenaltyComponent payment)) (rp_EarlyPenaltyComponent payment))
      (rp_DWPComponent payment).
Definition repaymentComponentsEqualTotal (payment : Repayment) : bool :=
  match Cmp (repayment_components payment) (rp_TotalPayment payment) with Eq => true | _ => false end.

Definition exactRepaymentInverse (positive negative : Repayment) : bool :=
  IsZero (Add (rp_PrincipalComponent positive) (rp_PrincipalComponent negative)) &&
  IsZero (Add (rp_InterestComponent positive) (rp_InterestComponent negative)) &&
  IsZero (Add (rp_PenaltyComponent positive) (rp_PenaltyComponent negative)) &&
  IsZero (Add (rp_EarlyPenaltyComponent positive) (rp_EarlyPenaltyComponent negative)) &&
  IsZero (Add (rp_DWPComponent positive) (rp_DWPComponent negative)) &&
  IsZero (Add (rp_TotalPayment positive) (rp_TotalPayment negative)).

Definition in_window (cutoff asOf : Date) (payment : Repayment) : bool :=
  After (rp_Date payment) cutoff && negb (After (rp_Date payment) asOf).
Definition by_date_order (left right : Repayment) : bool :=
  (let order := compareDate (rp_Date left) (rp_Date right) in
   if negb (order =? 0) then order else compare_int (rp_SourceOrder left) (rp_SourceOrder right)) <=? 0.

(** The allocable amount of a repayment *)
Definition allocable (payment : Repayment) : Money :=
  Add (rp_PrincipalComponent payment) (rp_InterestComponent payment).

(** The loop over the sorted repayments.  The source appends to a slice that
    shares the array it reads, always behind the read position, so the result
    is a fresh list here. *)
Fixpoint effective_loop (repayments : list Repayment) : res (list Repayment) :=
  match repayments with
  | [] => Ok []
  | payment :: rest =>
      if IsNegative (rp_TotalPayment payment)
      then Fail (errorf ErrUnsupportedRepaymentReversal "%w on %s (source order %d)") else
      if IsZero (rp_TotalPayment payment)
      then fail_if (negb (zeroRepaymentComponents payment))
                   (errorf ErrUnsupportedRepaymentAdjustment "%w on %s (source order %d)");;
           effective_loop rest
      else
      let keep :=
        fail_if (negb (repaymentComponentsEqualTotal payment))
                (errorf ErrHistoricalEvidence "%w: repayment components do not equal total payment on %s");;
        fail_if (IsNegative (allocable payment))
                (errorf ErrUnsupportedCalculation "%w: positive repayment has negative allocable amount on %s");;
        effective ← effective_loop rest;
        Ok (payment :: effective) in
      match rest with
      | next :: rest' =>
          if IsNegative (rp_TotalPayment next)
          then fail_if (negb (Equal (rp_Date payment) (rp_Date next)) || negb (exactRepaymentInverse payment next))
                       (errorf ErrUnsupportedRepaymentReversal "%w on %s (source order %d)");;
               fail_if (negb (repaymentComponentsEqualTotal payment))
                       (errorf ErrHistoricalEvidence "%w: repayment components do not equal total payment on %s");;
               effective_loop rest'
          else keep
      | [] => keep
      end
  end.

Definition effectiveRepayments (source : list Repayment) (cutoff asOf : Date) : res (list Repayment) :=
  effective_loop (SortStableFunc by_date_order (List.filter (in_window cutoff asOf) source)).

(** ** Allocation *)

Record calculationState := {
  principal : Money;
  principalDue : Money;
  interestDue : Money;
  unapplied : Money
}.

(** The pointer [&state.interestDue] is the bucket in and out. *)
Definition payBucket (payment bucket : Money) : Money * Money :=
  let paid := MinMoney payment bucket in (Sub payment paid, Sub bucket paid).

Definition payInterest (state : calculationState) (payment : Money) : calculationState * Money :=
  let '(payment', bucket) := payBucket payment (interestDue state) in
  ({| principal := principal state; principalDue := principalDue state;
      interestDue := bucket; unapplied := unapplied state |}, payment').

Definition payPrincipalDue (state : calculationState) (payment : Money) : calculationState * Money :=
  let paid := MinMoney payment (principalDue state) in
  ({| principal := Sub (principal state) paid; principalDue := Sub (principalDue state) paid;
      interestDue := interestDue state; unapplied := unapplied state |}, Sub payment paid).

Definition payPrincipalAdvance (state : calculationState) (payment : Money) : calculationState * Money :=
  let paid := MinMoney payment (principal state) in
  ({| principal := Sub (principal state) paid; principalDue := principalDue state;
      interestDue := interestDue state; unapplied := unapplied state |}, Sub payment paid).

Definition allocate (state : calculationState) (payment : Money) (collectability : Z) : calculationState :=
  let '(state, payment) :=
    if collectability <=? 2 then
      let '(state, payment) := payInterest state payment in
      let '(state, payment) := payPrincipalDue state payment in
      payPrincipalAdvance state payment
    else
      let '(state, payment) := payPrincipalDue state payment in
      let '(state, payment) := payPrincipalAdvance state payment in
      payInterest state payment in
  {| principal := principal state; principalDue := principalDue state;
     interestDue := interestDue state; unapplied := Add (unapplied state) payment |}.

(** ** Calculation *)

(** The variables that the closure [accrueThrough] updates: the state, the
    trace of the result, and [nextDue], as the rows of the schedule from it on *)
Record run := { run_state : calculationState; run_trace : CalculationTrace; run_pending : list ContractualScheduleRow }.

Definition accrue_row (state : calculationState) (row : ContractualScheduleRow) : calculationState :=
  if IsPositive (principal state) then
    let available := Sub (principal state) (principalDue state) in
    {| principal := principal state;
       principalDue := if IsPositive available
                       then Add (principalDue state) (MinMoney (row_Principal row) available)
                       else principalDue state;
       interestDue := Add (interestDue state) (row_Interest row);
       unapplied := unapplied state |}
  else state.

Definition trace_accrued (trace : CalculationTrace) (due : Date) : CalculationTrace :=
  {| tr_Opening := tr_Opening trace; tr_PeriodsAccrued := tr_PeriodsAccrued trace + 1;
     tr_RepaymentsApplied := tr_RepaymentsApplied trace; tr_LastPaymentDate := tr_LastPaymentDate trace;
     tr_LastDueDateAccrued := due |}.
Definition trace_paid (trace : CalculationTrace) (date : Date) : CalculationTrace :=
  {| tr_Opening := tr_Opening trace; tr_PeriodsAccrued := tr_PeriodsAccrued trace;
     tr_RepaymentsApplied := tr_RepaymentsApplied trace + 1; tr_LastPaymentDate := date;
     tr_LastDueDateAccrued := tr_LastDueDateAccrued trace |}.

Fixpoint accrue_rows (state : calculationState) (trace : CalculationTrace)
    (pending : list ContractualScheduleRow) (date : Date) : run :=
  match pending with
  | row :: rest =>
      if negb (After (row_DueDate row) date)
      then accrue_rows (accrue_row state row) (trace_accrued trace (row_DueDate row)) rest date
      else {| run_state := state; run_trace := trace; run_pending := pending |}
  | [] => {| run_state := state; run_trace := trace; run_pending := [] |}
  end.
Definition accrueThrough (r : run) (date : Date) : run :=
  accrue_rows (run_state r) (run_trace r) (run_pending r) date.

Fixpoint apply_repayments (openingCollectability : Z) (timeline : list CollectabilityPoint)
    (r : run) (repayments : list Repayment) : res run :=
  match repayments with
  | [] => Ok r
  | payment :: rest =>
      let amount := allocable payment in
      let r := accrueThrough r (rp_Date payment) in
      collectability ← collectabilityAt openingCollectability timeline (rp_Date payment);
      if IsZero amount then apply_repayments openingCollectability timeline r rest else
      apply_repayments openingCollectability timeline
        {| run_state := allocate (run_state r) amount collectability;
           run_trace := trace_paid (run_trace r) (rp_Date payment);
           run_pending := run_pending r |} rest
  end.

(** The rows after [nextDue] is moved past the cutoff *)
Fixpoint skip_due (schedule : list ContractualScheduleRow) (cutoff : Date) : list ContractualScheduleRow :=
  match schedule with
  | row :: rest => if negb (After (row_DueDate row) cutoff) then skip_due rest cutoff else schedule
  | [] => []
  end.

Definition finish (asOf : Date) (collectability : Z) (trace : CalculationTrace)
    (schedule : list ContractualScheduleRow) (state : calculationState) : res CalculationResult :=
  fail_if (IsNegative (principal state) || IsNegative (principalDue state) || IsNegative (interestDue state) ||
           IsNegative (unapplied state) || money_gt (principalDue state) (principal state))
          (errorf ErrInvariant "%w: invalid ending state");;
  Ok {| res_AsOf := asOf; res_PrincipalOutstanding := principal state;
        res_PrincipalDue := principalDue state; res_InterestDue := interestDue state;
        res_CollectabilityBI := collectability; res_UnappliedAmount := unapplied state;
        res_Trace := trace; res_ContractualSchedule := schedule |}.

Definition opening_state (opening : OpeningLoanState) : calculationState :=
  {| principal := op_PrincipalOutstanding opening; principalDue := op_PrincipalDue opening;
     interestDue := op_InterestDue opening; unapplied := MoneyZero |}.
Definition opening_trace (opening : OpeningLoanState) : CalculationTrace :=
  {| tr_Opening := opening; tr_PeriodsAccrued := 0; tr_RepaymentsApplied := 0;
     tr_LastPaymentDate := ZeroDate; tr_LastDueDateAccrued := ZeroDate |}.

Definition by_point_date (left right : CollectabilityPoint) : bool :=
  compareDate (cp_Date left) (cp_Date right) <=? 0.

Definition Calculate (calculator : Calculator) (input : CalculationInput) : res CalculationResult :=
  let opening := in_Opening input in
  fail_if (Date_IsZero (in_AsOf input) || Date_IsZero (in_Cutoff input) || Before (in_AsOf input) (in_Cutoff input))
          (errorf ErrInvalidInput "%w: as-of date must be on or after cutoff");;
  validateOpening opening;;
  let state := opening_state opening in
  let trace := opening_trace opening in
  if Equal (in_AsOf input) (in_Cutoff input)
  then finish (in_AsOf input) (op_CollectabilityBI opening) trace [] state else
  fail_if (IsNegative (in_ContractualPrincipal input) || IsZero (in_ContractualPrincipal input) ||
           (in_TenorMonths input <=? 0) || IsNegative (in_FlatRatePercent input))
          (errorf ErrInvariant "%w: invalid contract parameters");;
  schedule ← BuildSchedule calculator (in_ContractualPrincipal input) (in_TenorMonths input)
               (in_FlatRatePercent input) (in_ContractSchedule input);
  let timeline := SortStableFunc by_point_date (in_CollectabilityTimeline input) in
  validateTimeline timeline;;
  repayments ← effectiveRepayments (in_Repayments input) (in_Cutoff input) (in_AsOf input);
  let r := {| run_state := state; run_trace := trace; run_pending := skip_due schedule (in_Cutoff input) |} in
  r ← apply_repayments (op_CollectabilityBI opening) timeline r repayments;
  let r := accrueThrough r (in_AsOf input) in
  collectability ← collectabilityAt (op_CollectabilityBI opening) timeline (in_AsOf input);
  finish (in_AsOf input) collectability (run_trace r) schedule (run_state r).

(** ** Vocabulary of the properties *)

(** The sum of an amount over a list *)
Definition total {A} (f : A → Money) (l : list A) : Q :=
  foldr (λ x acc, (rat (f x) + acc)%Q) 0%Q l.

(** The balances of a calculation in progress *)
Record state_ok (s : calculationState) : Prop := {
  ok_due : (0 <= rat (principalDue s))%Q;
  ok_due_le : (rat (principalDue s) <= rat (principal s))%Q;
  ok_interest : (0 <= rat (interestDue s))%Q;
  ok_unapplied : (0 <= rat (unapplied s))%Q
}.
(** What the borrower owes, less what was paid and found nothing to pay *)
Definition net_debt (s : calculationState) : Q :=
  (rat (principal s) + rat (interestDue s) - rat (unapplied s))%Q.

Definition row_ok (row : ContractualScheduleRow) : Prop :=
  (0 <= rat (row_Principal row))%Q ∧ (0 <= rat (row_Interest row))%Q.

(** Installments 1, 2, ... on strictly later dates *)
Fixpoint chronological (index : Z) (previous : option ContractualInstallment)
    (l : list ContractualInstallment) : Prop :=
  match l with
  | [] => True
  | x :: rest =>
      ci_Number x = index + 1 ∧ Date_IsZero (ci_DueDate x) = false ∧
      match previous with None => True | Some p => key (ci_DueDate p) < key (ci_DueDate x) end ∧
      chronological (index + 1) (Some x) rest
  end.

Definition effective (payment : Repayment) : Prop :=
  (0 < rat (rp_TotalPayment payment))%Q ∧ (0 <= rat (allocable payment))%Q ∧
  money_eq (repayment_components payment) (rp_TotalPayment payment).

(** ** Allocation *)

Ltac min_cases :=
  repeat match goal with
  | |- context [MinMoney ?a ?b] =>
      let E := fresh "Emin" in destruct (MinMoney_spec a b) as [[? E]|[? E]]; rewrite !E in *; clear E
  end.

Lemma allocate_ok s amount c :
  state_ok s → (0 <= rat amount)%Q → state_ok (allocate s amount c).
Proof.
  intros [Hd Hle Hi Hu] Ha. unfold allocate, payInterest, payPrincipalDue, payPrincipalAdvance, payBucket.
  destruct (c <=? 2); simpl; split; simpl; min_cases; money.
Qed.

Lemma allocate_net_debt s amount c :
  (net_debt (allocate s amount c) == net_debt s - rat amount)%Q.
Proof.
  unfold net_debt, allocate, payInterest, payPrincipalDue, payPrincipalAdvance, payBucket.
  destruct (c <=? 2); simpl; min_cases; money.
Qed.

Lemma allocate_principal s amount c :
  state_ok s → (0 <= rat amount)%Q → (rat (principal (allocate s amount c)) <= rat (principal s))%Q.
Proof.
  intros [Hd Hle Hi Hu] Ha. unfold allocate, payInterest, payPrincipalDue, payPrincipalAdvance, payBucket.
  destruct (c <=? 2); simpl; min_cases; money.
Qed.

(** ** Accrual *)

Lemma accrue_row_ok s row : state_ok s → row_ok row → state_ok (accrue_row s row).
Proof.
  intros [Hd Hle Hi Hu] [Hp Hr]. unfold accrue_row.
  destruct (IsPositive (principal s)) eqn:E; [|by split].
  split; simpl; cases_goal; min_cases; money.
Qed.

Lemma accrue_row_net_debt s row :
  row_ok row →
  (net_debt s <= net_debt (accrue_row s row) <= net_debt s + rat (row_Interest row))%Q.
Proof.
  intros [Hp Hr]. unfold accrue_row, net_debt.
  destruct (IsPositive (principal s)); simpl; money.
Qed.

Lemma accrue_rows_split s tr pending date :
  ∃ due rest, pending = due ++ rest ∧
    Forall (λ row, key (row_DueDate row) ≤ key date) due ∧
    run_pending (accrue_rows s tr pending date) = rest ∧
    match rest with [] => True | row :: _ => key date < key (row_DueDate row) end ∧
    run_state (accrue_rows s tr pending date) = foldl accrue_row s due ∧
    tr_PeriodsAccrued (run_trace (accrue_rows s tr pending date)) =
      tr_PeriodsAccrued tr + Z.of_nat (length due).
Proof.
  revert s tr. induction pending as [|row pending IH]; intros s tr; simpl.
  { exists [], []. simpl. split_and!; try done. lia. }
  unfold After. destruct (Z.ltb_spec (key date) (key (row_DueDate row))) as [Hk|Hk]; simpl.
  - exists [], (row :: pending). simpl. split_and!; try done. lia.
  - destruct (IH (accrue_row s row) (trace_accrued tr (row_DueDate row)))
      as (due & rest & -> & Hdue & Hpend & Hrest & Hstate & Hperiods).
    exists (row :: due), rest. split_and!; try done; [by constructor|].
    rewrite Hperiods. simpl. lia.
Qed.

Lemma foldl_accrue_ok s due : state_ok s → Forall row_ok due → state_ok (foldl accrue_row s due).
Proof.
  intros Hs Hdue. revert s Hs. induction Hdue as [|row due Hr _ IH]; intros s Hs; [done|].
  apply IH. by apply accrue_row_ok.
Qed.

Lemma foldl_accrue_principal s due : principal (foldl accrue_row s due) = principal s.
Proof.
  revert s. induction due as [|row due IH]; intros s; [done|]. simpl. rewrite IH.
  unfold accrue_row. by destruct (IsPositive (principal s)).
Qed.

Lemma foldl_accrue_net_debt s due :
  Forall row_ok due →
  (net_debt s <= net_debt (foldl accrue_row s due) <= net_debt s + total row_Interest due)%Q.
Proof.
  intros Hdue. revert s. induction Hdue as [|row due Hr _ IH]; intros s; simpl; [lra|].
  pose proof (accrue_row_net_debt s row Hr). specialize (IH (accrue_row s row)). simpl in IH. lra.
Qed.

(** ** Collectability *)

Definition timeline_ok (timeline : list CollectabilityPoint) : Prop :=
  Forall (λ p, 1 ≤ cp_Value p ≤ 5) timeline.

Lemma validateTimeline_Ok previous timeline :
  validateTimeline_from previous timeline = Ok tt → timeline_ok timeline.
Proof.
  revert previous. induction timeline as [|p timeline IH]; intros previous H; [constructor|].
  simpl in H. inv_ok. to_prop in Hstep. constructor; [lia|by eapply IH].
Qed.

Lemma last_value_range v timeline date :
  1 ≤ v ≤ 5 → timeline_ok timeline → 1 ≤ last_value v timeline date ≤ 5.
Proof.
  intros Hv Ht. revert v Hv. induction Ht as [|p timeline Hp _ IH]; intros v Hv; simpl; [done|].
  destruct (After _ _); auto.
Qed.

Lemma collectabilityAt_total opening timeline date :
  1 ≤ opening ≤ 5 → timeline_ok timeline →
  collectabilityAt opening timeline date = Ok (last_value opening timeline date).
Proof.
  intros Ho Ht. pose proof (last_value_range opening timeline date Ho Ht). unfold collectabilityAt.
  replace ((opening <? 1) || (5 <? opening)) with false by (symmetry; to_prop; lia). simpl.
  by replace ((last_value opening timeline date <? 1) || (5 <? last_value opening timeline date))
    with false by (symmetry; to_prop; lia).
Qed.

(** ** Runs: accrual interleaved with repayments *)

(** [r'] is [r] after accruing the rows [due] and paying [paid]. *)
Record advances (r : run) (due : list ContractualScheduleRow) (paid : Q) (r' : run) : Prop := {
  adv_pending : run_pending r = due ++ run_pending r';
  adv_ok : state_ok (run_state r) → state_ok (run_state r');
  adv_principal : state_ok (run_state r) →
    (rat (principal (run_state r')) <= rat (principal (run_state r)))%Q;
  adv_low : (net_debt (run_state r) - paid <= net_debt (run_state r'))%Q;
  adv_high : (net_debt (run_state r') <= net_debt (run_state r) - paid + total row_Interest due)%Q;
  adv_periods : tr_PeriodsAccrued (run_trace r') = tr_PeriodsAccrued (run_trace r) + Z.of_nat (length due)
}.

Lemma total_cons {A} (f : A → Money) x l : total f (x :: l) = (rat (f x) + total f l)%Q.
Proof. done. Qed.

Lemma total_app {A} (f : A → Money) l1 l2 : (total f (l1 ++ l2) == total f l1 + total f l2)%Q.
Proof. induction l1 as [|x l1 IH]; simpl; [lra|]. rewrite IH. lra. Qed.

Lemma total_nonneg {A} (f : A → Money) l :
  Forall (λ x, (0 <= rat (f x))%Q) l → (0 <= total f l)%Q.
Proof. induction 1; simpl; lra. Qed.

Lemma total_perm {A} (f : A → Money) l1 l2 : l1 ≡ₚ l2 → (total f l1 == total f l2)%Q.
Proof. induction 1; simpl; lra. Qed.

Lemma advances_trans r due paid r' due' paid' r'' :
  advances r due paid r' → advances r' due' paid' r'' →
  advances r (due ++ due') (paid + paid') r''.
Proof.
  intros [P1 O1 D1 L1 H1 T1] [P2 O2 D2 L2 H2 T2]. split.
  - by rewrite P1, P2, app_assoc.
  - auto.
  - intros Hs. specialize (D1 Hs). specialize (D2 (O1 Hs)). lra.
  - lra.
  - rewrite total_app. lra.
  - rewrite T2, T1, length_app. lia.
Qed.

Lemma accrueThrough_advances r date :
  Forall row_ok (run_pending r) →
  ∃ due, advances r due 0 (accrueThrough r date) ∧
    Forall (λ row, key (row_DueDate row) ≤ key date) due ∧
    match run_pending (accrueThrough r date) with
    | [] => True
    | row :: _ => key date < key (row_DueDate row)
    end.
Proof.
  intros Hrows. unfold accrueThrough.
  destruct (accrue_rows_split (run_state r) (run_trace r) (run_pending r) date)
    as (due & rest & Hpend & Hdue & Hrest & Hhead & Hstate & Hperiods).
  exists due. rewrite Hpend, Forall_app in Hrows. destruct Hrows as [Hok _].
  split; [|by rewrite Hrest]. split.
  - by rewrite Hrest.
  - intros Hs. rewrite Hstate. by apply foldl_accrue_ok.
  - intros _. rewrite Hstate, foldl_accrue_principal. apply Qle_refl.
  - rewrite Hstate. pose proof (foldl_accrue_net_debt (run_state r) due Hok). lra.
  - rewrite Hstate. pose proof (foldl_accrue_net_debt (run_state r) due Hok). lra.
  - done.
Qed.

Definition pay (r : run) (payment : Repayment) (collectability : Z) : run :=
  {| run_state := allocate (run_state r) (allocable payment) collectability;
     run_trace := trace_paid (run_trace r) (rp_Date payment); run_pending := run_pending r |}.

Lemma pay_advances r payment c :
  (0 <= rat (allocable payment))%Q → advances r [] (rat (allocable payment)) (pay r payment c).
Proof.
  intros Ha. split; simpl; [done| | | | |lia].
  - intros Hs. by apply allocate_ok.
  - intros Hs. by apply allocate_principal.
  - rewrite allocate_net_debt. lra.
  - rewrite allocate_net_debt. lra.
Qed.

Lemma apply_repayments_spec opening timeline repayments r :
  1 ≤ opening ≤ 5 → timeline_ok timeline →
  Forall row_ok (run_pending r) → Forall (λ p, 0 <= rat (allocable p))%Q repayments →
  ∃ r' due, apply_repayments opening timeline r repayments = Ok r' ∧
    advances r due (total allocable repayments) r' ∧
    Forall (λ row, ∃ p, p ∈ repayments ∧ key (row_DueDate row) ≤ key (rp_Date p)) due.
Proof.
  intros Ho Ht Hrows Hps. revert r Hrows. induction Hps as [|p repayments Hp _ IH]; intros r Hrows.
  { exists r, []. split_and!; [done| |constructor]. split; simpl; [done|done|lra|lra|lra|lia]. }
  simpl apply_repayments. destruct (accrueThrough_advances r (rp_Date p) Hrows) as (due & Hadv & Hdue & _).
  set (r1 := accrueThrough r (rp_Date p)) in *. clearbody r1.
  rewrite collectabilityAt_total by done. cbn [mbind result_bind].
  assert (Forall row_ok (run_pending r1)) as Hrows1.
  { rewrite (adv_pending _ _ _ _ Hadv), Forall_app in Hrows. by destruct Hrows. }
  assert (Forall (λ row, ∃ q, q ∈ p :: repayments ∧ key (row_DueDate row) ≤ key (rp_Date q)) due) as Hdue'.
  { eapply Forall_impl; [exact Hdue|]. intros row Hr. exists p. split; [left|done]. }
  assert (∀ r2, advances r1 [] (rat (allocable p)) r2 →
    ∃ r' due, apply_repayments opening timeline r2 repayments = Ok r' ∧
    advances r due (total allocable (p :: repayments)) r' ∧
    Forall (λ row, ∃ q, q ∈ p :: repayments ∧ key (row_DueDate row) ≤ key (rp_Date q)) due) as Hgo.
  { intros r2 H12. destruct (IH r2) as (r' & due2 & Hr' & Hadv2 & Hdue2).
    { by rewrite (adv_pending _ _ _ _ H12) in Hrows1. }
    exists r', (due ++ due2). split_and!; [done| |].
    - pose proof (advances_trans _ _ _ _ _ _ _ Hadv (advances_trans _ _ _ _ _ _ _ H12 Hadv2)) as [A B C D E F].
      split; [done|done|done| | |done]; simpl in *; lra.
    - apply Forall_app. split; [done|]. eapply Forall_impl; [exact Hdue2|].
      intros row (q & Hq & Hk). exists q. split; [by right|done]. }
  destruct (IsZero (allocable p)) eqn:Hz; apply Hgo.
  - rewrite IsZero_true in Hz. split; simpl; [done|done|lra|lra|lra|lia].
  - by apply pay_advances.
Qed.

(** ** Schedule *)

Lemma Cmp_Eq m n : (match Cmp m n with Eq => true | _ => false end) = true ↔ money_eq m n.
Proof. unfold Cmp, money_eq. rewrite Qeq_alt. by destruct (rat m ?= rat n)%Q. Qed.

Lemma check_installments_Ok index previous l :
  check_installments index previous l = Ok tt ↔ chronological index previous l.
Proof.
  revert index previous. induction l as [|x l IH]; intros index previous; simpl; [done|]. split.
  - intros H. inv_ok. to_prop in Hstep. apply IH in H. destruct Hstep.
    split_and!; [done|done| |done]. destruct previous; [|done]. unfold After in Hstep0. to_prop in Hstep0. done.
  - intros (Hn & Hz & Hp & Hl). rewrite Hz. rewrite Hn, Z.eqb_refl. simpl.
    destruct previous as [p|]; simpl.
    + unfold After. replace (key (ci_DueDate p) <? key (ci_DueDate x)) with true by (symmetry; by to_prop).
      simpl. by apply IH.
    + by apply IH.
Qed.

Lemma chronological_numbers index previous l :
  chronological index previous l → ci_Number <$> l = seqZ (index + 1) (Z.of_nat (length l)).
Proof.
  revert index previous. induction l as [|x l IH]; intros index previous; [done|].
  intros (Hn & _ & _ & Hl). rewrite fmap_cons, Hn. rewrite (IH _ _ Hl). cbn [length].
  rewrite (seqZ_cons (index + 1)) by lia. f_equal. f_equal; lia.
Qed.

Lemma by_number_true x y : by_number x y = true ↔ ci_Number x ≤ ci_Number y.
Proof.
  unfold by_number, compare_int.
  destruct (Z.ltb_spec (ci_Number x) (ci_Number y)); [simpl; lia|].
  destruct (Z.ltb_spec (ci_Number y) (ci_Number x)); simpl; lia.
Qed.

Lemma by_number_sorted source :
  StronglySorted (λ x y, ci_Number x ≤ ci_Number y) (SortStableFunc by_number source).
Proof.
  eapply StronglySorted_ind with (P := StronglySorted _);
    [constructor| |apply (SortStableFunc_sorted by_number)].
  - intros x l _ IH Hx. constructor; [done|]. eapply Forall_impl; [exact Hx|].
    intros y. apply by_number_true.
  - intros x y H. apply not_true_iff_false in H. rewrite by_number_true in *. lia.
  - intros x y z. rewrite !by_number_true. lia.
Qed.

Lemma chronological_sorted index previous l :
  chronological index previous l →
  NoDup (ci_Number <$> l) ∧ StronglySorted (λ x y, ci_Number x ≤ ci_Number y) l ∧
  Forall (λ x, index < ci_Number x) l.
Proof.
  revert index previous. induction l as [|x l IH]; intros index previous; simpl.
  { intros _. split_and!; constructor. }
  intros (Hn & _ & _ & Hl). destruct (IH _ _ Hl) as (Hnd & Hs & Hf). split_and!.
  - constructor; [|done]. intros Hin. apply list_elem_of_fmap in Hin as (y & Hy & Hin).
    rewrite Forall_forall in Hf. specialize (Hf y Hin). lia.
  - constructor; [done|]. eapply Forall_impl; [exact Hf|]. simpl. lia.
  - constructor; [lia|]. eapply Forall_impl; [exact Hf|]. simpl. lia.
Qed.

(** Sorting installments that check gives the one list that checks. *)
Lemma chronological_unique source sorted :
  sorted ≡ₚ source → StronglySorted (λ x y, ci_Number x ≤ ci_Number y) sorted →
  chronological 0 None sorted ∨ chronological 0 None (SortStableFunc by_number source) →
  sorted = SortStableFunc by_number source.
Proof.
  intros Hp Hs [H|H]; apply chronological_sorted in H as (Hnd & _ & _).
  - apply (sorted_permutation_unique ci_Number); [|done|done|apply by_number_sorted].
    by rewrite SortStableFunc_perm.
  - symmetry. apply (sorted_permutation_unique ci_Number); [|done|apply by_number_sorted|done].
    by rewrite SortStableFunc_perm.
Qed.

Lemma schedule_of_sorted_Ok c p t f installments rows :
  schedule_of_sorted c p t f installments = Ok rows →
  Z.of_nat (length installments) = t ∧ chronological 0 None installments ∧
  ∃ ppp ipp, (0 <= rat ppp)%Q ∧ (0 <= rat ipp)%Q ∧ build_rows 0 t ppp ipp p installments = Ok rows.
Proof.
  unfold schedule_of_sorted. intros H. inv_ok. to_prop in Hstep.
  destruct a0. apply check_installments_Ok in Hstep0.
  destruct (DivInt p t) as [ppp|]; [|done]. destruct (DivInt (Mul p f) 1200) as [ipp|]; [|done].
  inv_ok. apply orb_false_iff in Hstep1 as [H1 H2]. rewrite IsNegative_false in H1, H2.
  split_and!; [done|done|]. by exists (round c ppp), (round c ipp).
Qed.

(** The rows against the balance before them: each row's principal is at most
    the balance and is what the balance loses; nothing is left at the end. *)
Fixpoint balances (balance : Q) (rows : list ContractualScheduleRow) : Prop :=
  match rows with
  | [] => (balance == 0)%Q
  | row :: rest =>
      (0 <= rat (row_Principal row) <= balance)%Q ∧
      (rat (row_ScheduledBalance row) == balance - rat (row_Principal row))%Q ∧
      (rat (row_Installment row) == rat (row_Principal row) + rat (row_Interest row))%Q ∧
      balances (rat (row_ScheduledBalance row)) rest
  end.

Lemma build_rows_Ok index t ppp ipp balance installments rows :
  build_rows index t ppp ipp balance installments = Ok rows →
  t - index = Z.of_nat (length installments) → installments ≠ [] →
  (0 <= rat ppp)%Q → (0 <= rat balance)%Q →
  ((λ row, (row_Number row, row_DueDate row)) <$> rows = (λ x, (ci_Number x, ci_DueDate x)) <$> installments) ∧
  Forall (λ row, row_Interest row = ipp) rows ∧ balances (rat balance) rows.
Proof.
  revert index balance rows. induction installments as [|x l IH]; intros index balance rows H Ht Hne Hp Hb; [done|].
  simpl in H. inv_ok. cbn [length] in Ht.
  destruct (Z.eqb_spec index (t - 1)) as [E|E].
  - destruct l; [|simpl in Ht; lia]. inv_ok. simpl in *. inv_ok.
    split_and!; [done|by apply Forall_singleton|..]; cbn [balances]; money.
  - destruct (money_gt ppp balance) eqn:Eg; [done|]. inv_ok. rewrite money_gt_false in Eg.
    destruct (IH (index + 1) (Sub balance a) a0) as (Hmap & Hint & Hbal);
      [done|lia|by intros ->; simpl in *; lia|done|money|].
    rewrite !fmap_cons, Hmap. cbn [balances row_Principal row_ScheduledBalance row_Installment row_Interest]. split_and!; [done|by constructor|done|done|money|money|done].
Qed.

Lemma balances_ok balance rows :
  balances balance rows → Forall (λ row, (0 <= rat (row_Principal row))%Q) rows ∧
  (total row_Principal rows == balance)%Q ∧
  (∀ row, last rows = Some row → (rat (row_ScheduledBalance row) == 0)%Q).
Proof.
  revert balance. induction rows as [|row rows IH]; intros balance; cbn [balances].
  { intros H. split_and!; [done|simpl; lra|done]. }
  intros (Hp & Hb & Hi & H). destruct (IH _ H) as (Hf & Ht & Hl). split_and!.
  - constructor; [apply Hp|done].
  - simpl. rewrite Ht. lra.
  - intros last. destruct rows as [|row' rows]; [intros [= <-]; exact H|apply Hl].
Qed.

Lemma BuildSchedule_Ok c p t f source rows :
  BuildSchedule c p t f source = Ok rows →
  (0 < rat p)%Q ∧ 0 < t ∧ Z.of_nat (length rows) = t ∧ balances (rat p) rows ∧ Forall row_ok rows ∧
  chronological 0 None (SortStableFunc by_number source) ∧
  (λ row, (row_Number row, row_DueDate row)) <$> rows =
    (λ x, (ci_Number x, ci_DueDate x)) <$> SortStableFunc by_number source.
Proof.
  unfold BuildSchedule. intros H. inv_ok. rewrite !orb_false_iff in Hstep.
  destruct Hstep as [[[H1 H2] H3] _]. rewrite IsNegative_false in H1. rewrite IsZero_false in H2. to_prop in H3.
  apply schedule_of_sorted_Ok in H as (Hlen & Hchron & ppp & ipp & Hppp & Hipp & Hrows).
  apply build_rows_Ok in Hrows as (Hmap & Hint & Hbal); [|lia|by intros E; rewrite E in Hlen; simpl in Hlen; lia|done|done].
  destruct (balances_ok _ _ Hbal) as (Hf & _ & _).
  split_and!; [lra|lia| |done| |done|done].
  - apply (f_equal length) in Hmap. rewrite !length_fmap in Hmap. lia.
  - apply Forall_and. split; [done|]. eapply Forall_impl; [exact Hint|]. by intros row ->.
Qed.

(** Without a rounding policy every schedule over good evidence is built. *)
Lemma build_rows_exact index t ppp ipp balance installments :
  t - index = Z.of_nat (length installments) → (0 <= rat ppp)%Q →
  (rat balance == rat ppp * inject_Z (t - index))%Q →
  ∃ rows, build_rows index t ppp ipp balance installments = Ok rows ∧
    Forall (λ row, money_eq (row_Principal row) ppp ∧ row_Interest row = ipp) rows.
Proof.
  revert index balance. induction installments as [|x l IH]; intros index balance Ht Hp Hb.
  { by exists []. }
  cbn [length] in Ht. cbn [build_rows].
  assert (inject_Z (t - index) == inject_Z (t - (index + 1)) + 1)%Q as Hs.
  { replace (t - index) with (t - (index + 1) + 1) by lia. by rewrite inject_Z_plus. }
  rewrite Hs in Hb.
  destruct (Z.eqb_spec index (t - 1)) as [E|E].
  - destruct l; [|simpl in Ht; lia]. eexists. split; [done|]. apply Forall_singleton. split; [|done].
    replace (t - (index + 1)) with 0 in Hb by lia. unfold money_eq. simpl. rewrite Hb. ring.
  - assert (1 <= inject_Z (t - (index + 1)))%Q as Hrest.
    { change 1%Q with (inject_Z 1). rewrite <- Zle_Qle. destruct l; simpl in Ht; lia. }
    assert (money_gt ppp balance = false) as -> by (rewrite money_gt_false; nra).
    cbn [mbind result_bind].
    destruct (IH (index + 1) (Sub balance ppp)) as (rows & -> & Hf); [lia|done| |].
    { rewrite rat_Sub, Hb. ring. }
    eexists. split; [done|]. constructor; [done|exact Hf].
Qed.

(** ** Repayments *)

Lemma effective_keep payment rest e :
  (fail_if (negb (repaymentComponentsEqualTotal payment))
           (errorf ErrHistoricalEvidence "%w: repayment components do not equal total payment on %s");;
   fail_if (IsNegative (allocable payment))
           (errorf ErrUnsupportedCalculation "%w: positive repayment has negative allocable amount on %s");;
   effective ← effective_loop rest;
   Ok (payment :: effective)) = Ok e →
  IsNegative (rp_TotalPayment payment) = false → IsZero (rp_TotalPayment payment) = false →
  ∃ e', effective_loop rest = Ok e' ∧ e = payment :: e' ∧ effective payment.
Proof.
  intros H Hn Hz. inv_ok. apply negb_false_iff, Cmp_Eq in Hstep.
  rewrite IsNegative_false in *. rewrite IsZero_false in Hz.
  exists a1. split_and!; [done|done|]. split_and!; [lra|done|done].
Qed.

Lemma inverse_sums positive negative :
  exactRepaymentInverse positive negative = true →
  (rat (allocable positive) + rat (allocable negative) == 0)%Q ∧
  (rat (rp_TotalPayment positive) + rat (rp_TotalPayment negative) == 0)%Q.
Proof.
  unfold exactRepaymentInverse, allocable. intros H. rewrite !andb_true_iff, !IsZero_true in H. to_rat.
  split; lra.
Qed.

Lemma zero_components_allocable payment :
  zeroRepaymentComponents payment = true → (rat (allocable payment) == 0)%Q.
Proof.
  unfold zeroRepaymentComponents, allocable. intros H. rewrite !andb_true_iff, !IsZero_true in H. money.
Qed.

(** The effective repayments are some of the given ones, in the same order,
    and what is left out cancels. *)
Lemma effective_loop_Ok l e :
  effective_loop l = Ok e →
  sublist e l ∧ Forall effective e ∧
  (total allocable e == total allocable l)%Q ∧ (total rp_TotalPayment e == total rp_TotalPayment l)%Q.
Proof.
  revert e. induction l as [l IH] using (induction_ltof1 (list Repayment) (@length Repayment)). unfold ltof in IH.
  destruct l as [|p rest]; intros e H; cbn [effective_loop] in H.
  { inv_ok. split_and!; [done|constructor|done|done]. }
  destruct (IsNegative (rp_TotalPayment p)) eqn:Hn; [done|].
  destruct (IsZero (rp_TotalPayment p)) eqn:Hz.
  { inv_ok. apply negb_false_iff, zero_components_allocable in Hstep. rewrite IsZero_true in Hz.
    destruct (IH rest ltac:(simpl; lia) _ H) as (Hs & Hf & Ha & Ht).
    split_and!; [by apply sublist_cons|done|rewrite !total_cons; lra|rewrite !total_cons; lra]. }
  assert (∀ e', effective_loop rest = Ok e' → effective p →
    sublist (p :: e') (p :: rest) ∧ Forall effective (p :: e') ∧
    (total allocable (p :: e') == total allocable (p :: rest))%Q ∧
    (total rp_TotalPayment (p :: e') == total rp_TotalPayment (p :: rest))%Q) as Hkeep.
  { intros e' He' Heff. destruct (IH rest ltac:(simpl; lia) _ He') as (Hs & Hf & Ha & Ht).
    split_and!; [by apply sublist_skip|by constructor|rewrite !total_cons; lra..]. }
  destruct rest as [|next rest'].
  { apply effective_keep in H as (e' & He' & -> & Heff); [by apply Hkeep|done..]. }
  destruct (IsNegative (rp_TotalPayment next)) eqn:Hnn.
  - inv_ok. apply orb_false_iff in Hstep as [_ Hinv]. apply negb_false_iff, inverse_sums in Hinv as [Hi Hit].
    destruct (IH rest' ltac:(simpl; lia) _ H) as (Hs & Hf & Ha & Ht).
    split_and!; [by apply sublist_cons, sublist_cons|done|rewrite !total_cons; lra|rewrite !total_cons; lra].
  - apply effective_keep in H as (e' & He' & -> & Heff); [by apply Hkeep|done..].
Qed.

(** ** The calculation *)

Abbreviation due_key row := (key (row_DueDate row)).
Definition ascending (rows : list ContractualScheduleRow) : Prop :=
  StronglySorted (λ a b, due_key a < due_key b) rows.

Lemma chronological_ascending index previous l :
  chronological index previous l →
  StronglySorted (λ x y, key (ci_DueDate x) < key (ci_DueDate y)) l ∧
  match previous with None => True | Some p => Forall (λ x, key (ci_DueDate p) < key (ci_DueDate x)) l end.
Proof.
  revert index previous. induction l as [|x l IH]; intros index previous; simpl.
  { intros _. split; [constructor|by destruct previous]. }
  intros (_ & _ & Hp & Hl). destruct (IH _ _ Hl) as [Hs Hf]. split; [by constructor|].
  destruct previous as [p|]; [|done]. constructor; [done|]. eapply Forall_impl; [exact Hf|]. simpl. lia.
Qed.

Lemma rows_ascending rows l :
  (λ row, (row_Number row, row_DueDate row)) <$> rows = (λ x, (ci_Number x, ci_DueDate x)) <$> l →
  StronglySorted (λ x y, key (ci_DueDate x) < key (ci_DueDate y)) l → ascending rows.
Proof.
  revert rows. induction l as [|x l IH]; intros [|row rows]; [constructor|done|done|].
  rewrite !fmap_cons. intros [= _ Hd Hm] Hs. inversion Hs as [|? ? Hl Hx]; subst.
  constructor; [by apply IH|]. rewrite Hd.
  assert (row_DueDate <$> rows = ci_DueDate <$> l) as E.
  { apply (f_equal (fmap snd)) in Hm. by rewrite <- !list_fmap_compose in Hm. }
  apply Forall_fmap with (f := row_DueDate) (P := λ d, key (ci_DueDate x) < key d).
  rewrite E. by apply Forall_fmap.
Qed.

(** A prefix of an ascending schedule cut at a date *)
Lemma ascending_cut due rest date :
  ascending (due ++ rest) → Forall (λ row, due_key row ≤ key date) due →
  match rest with [] => True | row :: _ => key date < due_key row end →
  List.filter (λ row, due_key row <=? key date) (due ++ rest) = due ∧
  List.filter (λ row, key date <? due_key row) (due ++ rest) = rest.
Proof.
  intros Hs Hd Hr. induction Hd as [|row due Hrow _ IH]; simpl.
  - destruct rest as [|row rest]; [done|]. inversion Hs as [|? ? Hs' Hall]; subst.
    assert (Forall (λ row, key date < due_key row) (row :: rest)) as Hf.
    { constructor; [done|]. eapply Forall_impl; [exact Hall|]. simpl. lia. }
    clear -Hf. induction Hf as [|x l Hx _ [IH1 IH2]]; [done|]. simpl.
    destruct (Z.leb_spec (due_key x) (key date)); [lia|]. destruct (Z.ltb_spec (key date) (due_key x)); [|lia].
    by rewrite IH1, IH2.
  - inversion Hs as [|? ? Hs' Hall]; subst. destruct (IH Hs') as [IH1 IH2].
    destruct (Z.leb_spec (due_key row) (key date)); [|lia].
    destruct (Z.ltb_spec (key date) (due_key row)); [lia|]. by rewrite IH1, IH2.
Qed.

Lemma skip_due_split schedule cutoff :
  ∃ due, schedule = due ++ skip_due schedule cutoff ∧
    Forall (λ row, due_key row ≤ key cutoff) due ∧
    match skip_due schedule cutoff with [] => True | row :: _ => key cutoff < due_key row end.
Proof.
  induction schedule as [|row schedule (due & E & Hd & Hr)]; simpl; [by exists []|].
  unfold After. destruct (Z.ltb_spec (key cutoff) (due_key row)); simpl.
  - exists []. by split_and!.
  - exists (row :: due). split_and!; [by rewrite E at 1|by constructor|done].
Qed.

(** The rows that fall due in the window of a calculation *)
Definition rows_due (cutoff asOf : Date) (rows : list ContractualScheduleRow) : list ContractualScheduleRow :=
  List.filter (λ row, due_key row <=? key asOf) (List.filter (λ row, key cutoff <? due_key row) rows).

Lemma effectiveRepayments_Ok source cutoff asOf e :
  effectiveRepayments source cutoff asOf = Ok e →
  Forall effective e ∧ Forall (λ p, in_window cutoff asOf p = true) e ∧
  e ⊆+ List.filter (in_window cutoff asOf) source ∧
  (total allocable e == total allocable (List.filter (in_window cutoff asOf) source))%Q ∧
  (total rp_TotalPayment e == total rp_TotalPayment (List.filter (in_window cutoff asOf) source))%Q.
Proof.
  unfold effectiveRepayments. intros H. apply effective_loop_Ok in H as (Hs & Hf & Ha & Ht).
  set (window := List.filter (in_window cutoff asOf) source) in *.
  pose proof (SortStableFunc_perm by_date_order window) as Hp.
  assert (e ⊆+ window) as Hsub by (rewrite <- Hp; by apply sublist_submseteq).
  split_and!; [done| |done|by rewrite Ha, (total_perm _ _ _ Hp)|by rewrite Ht, (total_perm _ _ _ Hp)].
  apply Forall_forall. intros p Hin. apply (elem_of_submseteq _ _ _ Hin) in Hsub as Hin'.
  clear Hin. rename Hin' into Hin. subst window. rewrite list_elem_of_In in Hin. by apply List.filter_In in Hin as [_ ?].
Qed.

Lemma Calculate_run opening timeline schedule repayments cutoff asOf r :
  state_ok (run_state r) → 1 ≤ opening ≤ 5 → timeline_ok timeline →
  Forall row_ok schedule → ascending schedule → run_pending r = skip_due schedule cutoff →
  Forall effective repayments → Forall (λ p, in_window cutoff asOf p = true) repayments →
  ∃ r', apply_repayments opening timeline r repayments = Ok r' ∧
    advances r (rows_due cutoff asOf schedule) (total allocable repayments) (accrueThrough r' asOf).
Proof.
  intros Hs Ho Ht Hrows Hasc Hpend Heff Hwin.
  destruct (skip_due_split schedule cutoff) as (skipped & Hsplit & Hskip & Hhead).
  pose proof (eq_refl schedule) as Hcut. rewrite Hsplit in Hcut at 2.
  assert (ascending (skipped ++ skip_due schedule cutoff)) as Hasc1 by (by rewrite <- Hsplit).
  destruct (ascending_cut _ _ _ Hasc1 Hskip Hhead) as [_ Hcut2]. rewrite <- Hsplit in Hcut2.
  assert (Forall row_ok (skip_due schedule cutoff)) as Hrows1.
  { rewrite Hsplit, Forall_app in Hrows. by destruct Hrows. }
  destruct (apply_repayments_spec opening timeline repayments r) as (r' & due & Hr' & Hadv & Hdue);
    [done|done|by rewrite Hpend| |].
  { eapply Forall_impl; [exact Heff|]. by intros p (_ & ? & _). }
  exists r'. split; [done|].
  destruct (accrueThrough_advances r' asOf) as (due2 & Hadv2 & Hdue2 & Hhead2).
  { rewrite <- Hpend, (adv_pending _ _ _ _ Hadv), Forall_app in Hrows1. by destruct Hrows1. }
  pose proof (advances_trans _ _ _ _ _ _ _ Hadv Hadv2) as Hall.
  assert (rows_due cutoff asOf schedule = due ++ due2) as ->.
  { unfold rows_due. rewrite Hcut2, <- Hpend, (adv_pending _ _ _ _ Hall).
    apply ascending_cut; [| |done].
    - rewrite <- (adv_pending _ _ _ _ Hall), Hpend.
      clear -Hasc1. induction skipped as [|x l IH]; [done|]. inversion Hasc1; subst. by apply IH.
    - apply Forall_app. split; [|done]. eapply Forall_impl; [exact Hdue|]. intros row (p & Hp & Hk).
      rewrite Forall_forall in Hwin. specialize (Hwin p Hp). unfold in_window, After in Hwin. to_prop in Hwin. lia. }
  destruct Hall as [A B C D E F]. split; [done|done|done|lra|lra|done].
Qed.

Lemma validateOpening_Ok opening :
  validateOpening opening = Ok tt → state_ok (opening_state opening) ∧ 1 ≤ op_CollectabilityBI opening ≤ 5.
Proof.
  unfold validateOpening. intros H. inv_ok. rewrite !orb_false_iff in *.
  rewrite !IsNegative_false, money_gt_false in Hstep. to_prop in H.
  split; [split; simpl; try tauto; apply Qle_refl|lia].
Qed.

(** What the code asks of an input before it starts to calculate *)
Definition input_accepted (c : Calculator) (input : CalculationInput) : Prop :=
  (Date_IsZero (in_AsOf input) = false ∧ Date_IsZero (in_Cutoff input) = false ∧
   key (in_Cutoff input) ≤ key (in_AsOf input)) ∧
  validateOpening (in_Opening input) = Ok tt ∧
  (key (in_AsOf input) = key (in_Cutoff input) ∨
   is_ok (BuildSchedule c (in_ContractualPrincipal input) (in_TenorMonths input)
            (in_FlatRatePercent input) (in_ContractSchedule input)) = true ∧
   validateTimeline (SortStableFunc by_point_date (in_CollectabilityTimeline input)) = Ok tt ∧
   is_ok (effectiveRepayments (in_Repayments input) (in_Cutoff input) (in_AsOf input)) = true).

(** The balances that a calculation reports *)
Definition result_sound (input : CalculationInput) (result : CalculationResult) : Prop :=
  let rows := rows_due (in_Cutoff input) (in_AsOf input) (res_ContractualSchedule result) in
  let paid := total allocable (List.filter (in_window (in_Cutoff input) (in_AsOf input)) (in_Repayments input)) in
  let opening := net_debt (opening_state (in_Opening input)) in
  let closing := (rat (res_PrincipalOutstanding result) + rat (res_InterestDue result) -
                  rat (res_UnappliedAmount result))%Q in
  (0 <= rat (res_PrincipalDue result) <= rat (res_PrincipalOutstanding result))%Q ∧
  (rat (res_PrincipalOutstanding result) <= rat (op_PrincipalOutstanding (in_Opening input)))%Q ∧
  (0 <= rat (res_InterestDue result))%Q ∧ (0 <= rat (res_UnappliedAmount result))%Q ∧
  1 ≤ res_CollectabilityBI result ≤ 5 ∧
  tr_PeriodsAccrued (res_Trace result) = Z.of_nat (length rows) ∧
  (opening - paid <= closing <= opening - paid + total row_Interest rows)%Q.

Lemma finish_Ok asOf c tr rows s :
  state_ok s →
  finish asOf c tr rows s = Ok {| res_AsOf := asOf; res_PrincipalOutstanding := principal s;
        res_PrincipalDue := principalDue s; res_InterestDue := interestDue s;
        res_CollectabilityBI := c; res_UnappliedAmount := unapplied s;
        res_Trace := tr; res_ContractualSchedule := rows |}.
Proof.
  intros [Hd Hle Hi Hu]. unfold finish.
  assert (IsNegative (principal s) = false) as -> by (rewrite IsNegative_false; lra).
  assert (IsNegative (principalDue s) = false) as -> by (by rewrite IsNegative_false).
  assert (IsNegative (interestDue s) = false) as -> by (by rewrite IsNegative_false).
  assert (IsNegative (unapplied s) = false) as -> by (by rewrite IsNegative_false).
  by assert (money_gt (principalDue s) (principal s) = false) as -> by (by rewrite money_gt_false).
Qed.

Lemma window_empty cutoff asOf source :
  key asOf = key cutoff → List.filter (in_window cutoff asOf) source = [].
Proof.
  intros Hk. induction source as [|p source IH]; [done|]. simpl. unfold in_window, After at 1.
  destruct (Z.ltb_spec (key cutoff) (key (rp_Date p))); simpl; [|done].
  unfold After. by destruct (Z.ltb_spec (key asOf) (key (rp_Date p))); [|lia].
Qed.

Lemma Calculate_accepts c input :
  input_accepted c input → ∃ result, Calculate c input = Ok result ∧ result_sound input result.
Proof.
  intros ((Hz1 & Hz2 & Hle) & Hop & Hrest). apply validateOpening_Ok in Hop as Hs. destruct Hs as [Hs Hc].
  unfold Calculate. rewrite Hz1, Hz2, Hop. unfold Before.
  destruct (Z.ltb_spec (key (in_AsOf input)) (key (in_Cutoff input))); [lia|].
  cbn [orb fail_if mbind result_bind]. unfold Equal.
  destruct (Z.eqb_spec (key (in_AsOf input)) (key (in_Cutoff input))) as [E|E].
  - rewrite finish_Ok by done. eexists. split; [done|]. pose proof Hs as [Hd Hdle Hi Hu].
    unfold result_sound. simpl in *. rewrite window_empty by done. cbn [total foldr].
    unfold net_debt. simpl. split_and!; try done; try lra; try lia; try apply Qle_refl.
  - destruct Hrest as [?|(Hb & Ht & He)]; [done|].
    apply is_ok_true in Hb as [schedule Hb]. apply is_ok_true in He as [repayments He].
    pose proof Hb as Hguard. unfold BuildSchedule in Hguard. apply bind_Ok in Hguard as ([] & Hguard & _).
    rewrite Hguard, Hb, Ht, He. cbn [mbind result_bind].
    apply BuildSchedule_Ok in Hb as (_ & _ & _ & _ & Hrows & Hchron & Hmap).
    apply validateTimeline_Ok in Ht. apply effectiveRepayments_Ok in He as (Heff & Hwin & _ & Htot & _).
    set (r := {| run_state := _; run_trace := _; run_pending := _ |}).
    destruct (Calculate_run (op_CollectabilityBI (in_Opening input))
      (SortStableFunc by_point_date (in_CollectabilityTimeline input)) schedule repayments
      (in_Cutoff input) (in_AsOf input) r) as (r' & -> & Hadv); try done.
    { eapply rows_ascending; [done|]. by apply (chronological_ascending 0 None). }
    cbn [mbind result_bind]. rewrite collectabilityAt_total by done. cbn [mbind result_bind].
    destruct Hadv as [_ Hok Hpr Hlow Hhigh Hper]. specialize (Hok Hs). specialize (Hpr Hs).
    rewrite finish_Ok by done. eexists. split; [done|]. pose proof Hok as [Hd Hdle Hi Hu].
    pose proof (last_value_range (op_CollectabilityBI (in_Opening input)) _ (in_AsOf input) Hc Ht).
    unfold result_sound, net_debt in *. simpl in *.
    split_and!; try done; try lra; lia.
Qed.

Lemma Calculate_Ok_accepted c input result :
  Calculate c input = Ok result → input_accepted c input.
Proof.
  unfold Calculate, Before, Equal. intros H. inv_ok. rewrite !orb_false_iff in Hstep.
  destruct Hstep as [[Hz1 Hz2] Hle]. to_prop in Hle. destruct a0.
  split; [done|]. split; [done|].
  destruct (Z.eqb_spec (key (in_AsOf input)) (key (in_Cutoff input))); [by left|right].
  inv_ok. destruct a2. rewrite Hstep1, Hstep3. done.
Qed.

Abbreviation point_key p := (key (cp_Date p)).

Lemma last_value_latest l v date :
  StronglySorted (λ p q, point_key p ≤ point_key q) l →
  (Forall (λ p, key date < point_key p) l ∧ last_value v l date = v) ∨
  ∃ p, p ∈ l ∧ point_key p ≤ key date ∧ last_value v l date = cp_Value p ∧
    ∀ q, q ∈ l → point_key q ≤ key date → point_key q ≤ point_key p.
Proof.
  intros Hs. revert v. induction Hs as [|p l Hs IH Hp]; intros v; simpl; [by left|].
  unfold After. destruct (Z.ltb_spec (key date) (point_key p)) as [Hk|Hk].
  - left. split; [|done]. constructor; [done|]. eapply Forall_impl; [exact Hp|]. simpl. lia.
  - right. destruct (IH (cp_Value p)) as [[Hf ->]|(p' & Hin & Hk' & -> & Hmax)].
    + exists p. split_and!; [left|done|done|]. intros q Hq Hqd. apply elem_of_cons in Hq as [->|Hq]; [done|].
      rewrite Forall_forall in Hf. specialize (Hf q Hq). simpl in Hf. lia.
    + exists p'. split_and!; [by right|done|done|]. intros q Hq Hqd. apply elem_of_cons in Hq as [->|Hq]; [|auto].
      rewrite Forall_forall in Hp. by apply Hp.
Qed.

Lemma validateTimeline_agree previous l :
  StronglySorted (λ p q, point_key p ≤ point_key q) l → validateTimeline_from previous l = Ok tt →
  ∀ p q, p ∈ l → q ∈ l → point_key p = point_key q → cp_Value p = cp_Value q.
Proof.
  intros Hs. revert previous. induction Hs as [|x l Hs IH Hx]; intros previous H p q Hp Hq Hk.
  { by apply elem_of_nil in Hp. }
  simpl in H. inv_ok.
  assert (∀ q, q ∈ l → point_key x = point_key q → cp_Value x = cp_Value q) as Hhead.
  { intros q' Hq' Hk'. destruct l as [|y l]; [by apply elem_of_nil in Hq'|].
    pose proof H as H'. simpl in H'. apply bind_Ok in H' as ([] & _ & H'). apply bind_Ok in H' as ([] & Hc & _).
    apply fail_if_Ok, andb_false_iff in Hc. unfold Equal in Hc.
    assert (point_key y = point_key x) as Hy.
    { inversion Hx as [|? ? Hxy _]; subst. apply elem_of_cons in Hq' as [->|Hq']; [done|].
      inversion Hs as [|? ? _ Hyl]; subst. rewrite Forall_forall in Hyl. specialize (Hyl q' Hq'). simpl in *. lia. }
    destruct Hc as [Hc|Hc]; to_prop in Hc; [done|]. rewrite <- Hc.
    apply (IH (Some x) H); [left|done|lia]. }
  apply elem_of_cons in Hp as [->|Hp], Hq as [->|Hq]; [done|by apply Hhead|symmetry; by apply Hhead|by eapply IH].
Qed.

Lemma by_point_date_true p q : by_point_date p q = true ↔ point_key p ≤ point_key q.
Proof.
  unfold by_point_date, compareDate, Before, After.
  destruct (Z.ltb_spec (point_key p) (point_key q)); [simpl; lia|].
  destruct (Z.ltb_spec (point_key q) (point_key p)); simpl; lia.
Qed.

Lemma timeline_sorted timeline :
  StronglySorted (λ p q, point_key p ≤ point_key q) (SortStableFunc by_point_date timeline).
Proof.
  eapply StronglySorted_ind with (P := StronglySorted _);
    [constructor| |apply (SortStableFunc_sorted by_point_date)].
  - intros x l _ IH Hx. constructor; [done|]. eapply Forall_impl; [exact Hx|].
    intros y. apply by_point_date_true.
  - intros x y H. apply not_true_iff_false in H. rewrite by_point_date_true in *. lia.
  - intros x y z. rewrite !by_point_date_true. lia.
Qed.

Lemma Calculate_sound c input result :
  Calculate c input = Ok result → result_sound input result.
Proof.
  intros H. destruct (Calculate_accepts c input) as (result' & H' & Hs);
    [by eapply Calculate_Ok_accepted|congruence].
Qed.

Lemma BuildSchedule_exact p tenor rate installments source :
  (0 < rat p)%Q → 0 < tenor → (0 <= rat rate)%Q →
  chronological 0 None installments → Z.of_nat (length installments) = tenor → source ≡ₚ installments →
  ∃ rows, BuildSchedule {| Round := None |} p tenor rate source = Ok rows ∧
    Forall (λ row, (rat (row_Principal row) == rat p / inject_Z tenor)%Q ∧
                   (rat (row_Interest row) == rat p * rat rate / 1200)%Q) rows.
Proof.
  intros Hp Ht Hr Hchron Hlen Hperm. unfold BuildSchedule.
  assert (IsNegative p || IsZero p || (tenor <=? 0) || IsNegative rate = false) as ->.
  { rewrite !orb_false_iff, !IsNegative_false, IsZero_false. to_prop. split_and!; lra || lia. }
  assert (installments = SortStableFunc by_number source) as <-.
  { apply chronological_unique; [done|by eapply chronological_sorted|by left]. }
  assert (0 < inject_Z tenor)%Q as HtQ by (change 0%Q with (inject_Z 0); by rewrite <- Zlt_Qlt).
  set (ppp := of_rat (rat p / inject_Z tenor)). set (ipp := of_rat (rat (Mul p rate) / inject_Z 1200)).
  assert (rat ppp == rat p / inject_Z tenor)%Q as Eppp by apply rat_of_rat.
  assert (rat ipp == rat p * rat rate / 1200)%Q as Eipp.
  { unfold ipp. rewrite rat_of_rat, rat_Mul. done. }
  assert (0 <= rat ppp)%Q as Hppp by (rewrite Eppp; apply Qle_shift_div_l; lra).
  assert (0 <= rat ipp)%Q as Hipp by (rewrite Eipp; apply Qle_shift_div_l; nra).
  destruct (build_rows_exact 0 tenor ppp ipp p installments) as (rows & Hrows & Hf);
    [lia|done|rewrite Eppp, Z.sub_0_r; field; lra|].
  exists rows. split.
  - unfold schedule_of_sorted. rewrite Hlen, Z.eqb_refl. cbn [negb fail_if mbind result_bind].
    rewrite (proj2 (check_installments_Ok 0 None installments)) by done. cbn [mbind result_bind].
    rewrite !DivInt_nonzero by lia. fold ppp ipp. unfold round. simpl Round. cbv iota beta zeta.
    assert (IsNegative ppp || IsNegative ipp = false) as ->; [|exact Hrows].
    by rewrite orb_false_iff, !IsNegative_false.
  - eapply Forall_impl; [exact Hf|]. intros row [Hpr ->]. unfold money_eq in Hpr. by split; [rewrite Hpr|].
Qed.

Lemma BuildSchedule_total p tenor rate source :
  (0 < rat p)%Q → 0 < tenor → (0 <= rat rate)%Q →
  chronological 0 None source → Z.of_nat (length source) = tenor →
  is_ok (BuildSchedule {| Round := None |} p tenor rate source) = true.
Proof.
  intros. destruct (BuildSchedule_exact p tenor rate source source) as (rows & -> & _); done.
Qed.

(** ** Properties *)

(** C1: [Calculate] answers exactly when its input passes the checks of the
    source (dates, opening balances, contract, schedule, timeline, repayments):
    no accepted input ends in the "invalid ending state" or a collectability
    error.  Its answer is sound: principal due is between zero and the
    outstanding principal, which never exceeds the opening principal; interest
    due and unapplied amount are not negative; collectability is 1..5; the
    periods accrued are the schedule rows due after the cutoff up to the as-of
    date; and what is owed less what is unapplied is the opening amount less the
    allocable repayments of the window, plus at most the interest of those rows. *)
Theorem Calculate_correct c input :
  (is_ok (Calculate c input) = true ↔ input_accepted c input) ∧
  (∀ result, Calculate c input = Ok result → result_sound input result).
Proof.
  split; [|apply Calculate_sound]. rewrite is_ok_true. split.
  - intros [result H]. by eapply Calculate_Ok_accepted.
  - intros H. destruct (Calculate_accepts c input H) as (result & ? & _). by exists result.
Qed.

Lemma BuildSchedule_rows c p tenor rate source rows :
  BuildSchedule c p tenor rate source = Ok rows → row_Number <$> rows = seqZ 1 tenor ∧ ascending rows.
Proof.
  intros H. apply BuildSchedule_Ok in H as (_ & _ & Hlen & _ & _ & Hchron & Hmap). split.
  - apply (f_equal (fmap fst)) in Hmap as Hnum. rewrite <- !list_fmap_compose in Hnum.
    transitivity (ci_Number <$> SortStableFunc by_number source); [exact Hnum|].
    rewrite (chronological_numbers 0 None) by done. f_equal.
    apply (f_equal length) in Hmap. rewrite !length_fmap in Hmap. lia.
  - eapply rows_ascending; [exact Hmap|]. by apply (chronological_ascending 0 None).
Qed.

(** C3: a schedule that is built amortises the loan: one row per month with the
    numbers 1..tenor on strictly later dates, no negative principal or interest,
    each balance the previous one less the row's principal and never negative,
    the principals summing to the loan and the last balance zero -- under any
    rounding policy that the code accepts. *)
Theorem BuildSchedule_amortises c p tenor rate source rows :
  BuildSchedule c p tenor rate source = Ok rows →
  Z.of_nat (length rows) = tenor ∧ row_Number <$> rows = seqZ 1 tenor ∧ ascending rows ∧
  Forall row_ok rows ∧ balances (rat p) rows ∧ (total row_Principal rows == rat p)%Q ∧
  (∀ row, last rows = Some row → (rat (row_ScheduledBalance row) == 0)%Q).
Proof.
  intros H. destruct (BuildSchedule_rows _ _ _ _ _ _ H) as [Hn Ha]. apply BuildSchedule_Ok in H as (_ & _ & Hlen & Hbal & Hrows & _).
  destruct (balances_ok _ _ Hbal) as (_ & Htot & Hlast). by split_and!.
Qed.

(** C5: without a rounding policy the schedule over evidence that lists the
    months 1..tenor on strictly later dates, in any order, is always built: every
    row repays the tenor-th part of the principal and carries the flat rate's
    monthly interest. *)
Theorem BuildSchedule_flat p tenor rate installments source :
  (0 < rat p)%Q → 0 < tenor → (0 <= rat rate)%Q →
  chronological 0 None installments → Z.of_nat (length installments) = tenor → source ≡ₚ installments →
  ∃ rows, BuildSchedule {| Round := None |} p tenor rate source = Ok rows ∧
    Forall (λ row, (rat (row_Principal row) == rat p / inject_Z tenor)%Q ∧
                   (rat (row_Interest row) == rat p * rat rate / 1200)%Q) rows.
Proof. apply BuildSchedule_exact. Qed.

(** The sort of [BuildSchedule] need not be stable: any sort by number that
    the code could use gives the schedule of the stable one, or neither gives
    any. *)
Theorem BuildSchedule_sort_independent c p tenor rate source sorted rows :
  sorted ≡ₚ source → StronglySorted (λ x y, ci_Number x ≤ ci_Number y) sorted →
  schedule_of_sorted c p tenor rate sorted = Ok rows ↔
  schedule_of_sorted c p tenor rate (SortStableFunc by_number source) = Ok rows.
Proof.
  intros Hp Hs. split; intros H; pose proof H as H'; apply schedule_of_sorted_Ok in H' as (_ & Hc & _).
  - rewrite <- (chronological_unique source sorted); [done|done|done|by left].
  - rewrite (chronological_unique source sorted); [done|done|done|by right].
Qed.

(** The effective repayments are payments of the window, each of positive
    total equal to the sum of its components and with a non-negative allocable
    amount, and what was dropped -- empty adjustments and reversal pairs --
    cancels: allocable amount and total are those of all repayments in the
    window. *)
Theorem effectiveRepayments_net source cutoff asOf e :
  effectiveRepayments source cutoff asOf = Ok e →
  e ⊆+ List.filter (in_window cutoff asOf) source ∧ Forall effective e ∧
  (total allocable e == total allocable (List.filter (in_window cutoff asOf) source))%Q ∧
  (total rp_TotalPayment e == total rp_TotalPayment (List.filter (in_window cutoff asOf) source))%Q.
Proof. intros H. apply effectiveRepayments_Ok in H. tauto. Qed.

(** C7: the priority of a payment.  It is spent on the debt as far as it goes:
    something is left unapplied only when principal and interest due are paid
    off.  With collectability 1 or 2 interest comes first: principal is touched
    only when no interest is due any more; from 3 on principal comes first:
    interest is touched only when the whole principal is repaid.  The due part
    of the principal is repaid before any principal in advance. *)
Theorem allocate_priority s amount collectability :
  state_ok s → (0 <= rat amount)%Q →
  let s' := allocate s amount collectability in
  state_ok s' ∧ (net_debt s' == net_debt s - rat amount)%Q ∧
  (rat (unapplied s) < rat (unapplied s') → rat (principal s') == 0 ∧ rat (interestDue s') == 0)%Q ∧
  ((collectability ≤ 2)%Z → rat (principal s') < rat (principal s) → rat (interestDue s') == 0)%Q ∧
  ((2 < collectability)%Z → rat (interestDue s') < rat (interestDue s) → rat (principal s') == 0)%Q ∧
  (rat (principal s) - rat (principal s') <= rat (principalDue s) ∨ rat (principalDue s') == 0)%Q.
Proof.
  intros Hs Ha s'. split; [by apply allocate_ok|]. split; [apply allocate_net_debt|].
  destruct Hs as [Hd Hle Hi Hu]. subst s'.
  unfold allocate, payInterest, payPrincipalDue, payPrincipalAdvance, payBucket.
  destruct (Z.leb_spec collectability 2); simpl; split_and!; try (intros; lia);
    min_cases; to_rat; intros; try lra; first [split; lra|left; lra|right; lra].
Qed.

(** The collectability used on a day is the one in force: the opening value
    before the first point of the timeline, afterwards the value that all points
    of the latest day on or before it carry.  A timeline that was checked never
    makes the lookup fail. *)
Theorem collectabilityAt_in_force opening timeline date :
  1 ≤ opening ≤ 5 → validateTimeline (SortStableFunc by_point_date timeline) = Ok tt →
  ∃ v, collectabilityAt opening (SortStableFunc by_point_date timeline) date = Ok v ∧ 1 ≤ v ≤ 5 ∧
    ((Forall (λ p, key date < point_key p) timeline ∧ v = opening) ∨
     ∃ p, p ∈ timeline ∧ point_key p ≤ key date ∧
       (∀ q, q ∈ timeline → point_key q ≤ key date → point_key q ≤ point_key p) ∧
       (∀ q, q ∈ timeline → point_key q = point_key p → cp_Value q = v)).
Proof.
  intros Ho Hv. pose proof (validateTimeline_Ok _ _ Hv) as Hok. pose proof (timeline_sorted timeline) as Hs.
  pose proof (SortStableFunc_perm by_point_date timeline) as Hperm.
  eexists. split; [by apply collectabilityAt_total|]. split; [by apply last_value_range|].
  destruct (last_value_latest _ opening date Hs) as [[Hf ->]|(p & Hin & Hk & -> & Hmax)].
  - left. by rewrite Hperm in Hf.
  - right. exists p. rewrite Hperm in Hin. split_and!; [done|done| |].
    + intros q Hq. apply Hmax. by rewrite Hperm.
    + intros q Hq Hqk. apply (validateTimeline_agree None _ Hs Hv); by rewrite ?Hperm.
Qed.

(** ** A concrete loan: 1200 over three months at 12% a year, one repayment and
    one repayment reversed on the same day *)

Definition ex_installments : list ContractualInstallment :=
  [{| ci_Number := 1; ci_DueDate := MkDate 2025 11 12 |};
   {| ci_Number := 2; ci_DueDate := MkDate 2025 12 12 |};
   {| ci_Number := 3; ci_DueDate := MkDate 2026 1 12 |}].
Definition ex_payment (date : Date) (order principal interest : Z) : Repayment :=
  {| rp_Date := date; rp_PrincipalComponent := MoneyFromInt principal;
     rp_InterestComponent := MoneyFromInt interest; rp_PenaltyComponent := MoneyZero;
     rp_EarlyPenaltyComponent := MoneyZero; rp_DWPComponent := MoneyZero;
     rp_TotalPayment := MoneyFromInt (principal + interest); rp_JournalNumber := EmptyString;
     rp_SourceOrder := order |}.
Definition ex_repayments : list Repayment :=
  [ex_payment (MkDate 2025 12 15) 3 (-100) 0; ex_payment (MkDate 2025 12 15) 2 100 0;
   ex_payment (MkDate 2025 11 20) 1 400 12].
Definition ex_opening : OpeningLoanState :=
  {| op_AccountNumber := EmptyString; op_InterestType := EmptyString;
     op_PrincipalOutstanding := MoneyFromInt 1200; op_PrincipalDue := MoneyZero; op_InterestDue := MoneyZero;
     op_PenaltyDue := MoneyZero; op_CollectabilityBI := 1 |}.
Definition ex_timeline : list CollectabilityPoint :=
  [{| cp_Date := MkDate 2025 12 1; cp_Value := 3 |}; {| cp_Date := MkDate 2025 11 1; cp_Value := 2 |}].
Definition ex_input : CalculationInput :=
  {| in_AsOf := MkDate 2025 12 31; in_Cutoff := MkDate 2025 10 12; in_ContractualPrincipal := MoneyFromInt 1200;
     in_TenorMonths := 3; in_FlatRatePercent := MoneyFromInt 12; in_Opening := ex_opening;
     in_ContractSchedule := reverse ex_installments; in_Repayments := ex_repayments;
     in_CollectabilityTimeline := ex_timeline |}.
Definition exact : Calculator := {| Round := None |}.
Definition ok_or {A} (d : A) (r : res A) : A := match r with Ok a => a | Fail _ => d end.

Lemma Calculate_correct_witness :
  is_ok (Calculate exact ex_input) = true ∧ input_accepted exact ex_input ∧
  (rat <$> (res_PrincipalOutstanding <$> (match Calculate exact ex_input with Ok r => Some r | _ => None end)))
    = Some 800%Q.
Proof.
  split; [vm_compute; reflexivity|]. split; [|vm_compute; reflexivity].
  apply (Calculate_correct exact ex_input). vm_compute. reflexivity.
Defined.

Lemma BuildSchedule_amortises_witness :
  let rows := ok_or [] (BuildSchedule exact (MoneyFromInt 1200) 3 (MoneyFromInt 12) (reverse ex_installments)) in
  Z.of_nat (length rows) = 3 ∧ row_Number <$> rows = seqZ 1 3.
Proof.
  split; apply (BuildSchedule_amortises exact (MoneyFromInt 1200) 3 (MoneyFromInt 12) (reverse ex_installments));
    vm_compute; reflexivity.
Defined.

Lemma BuildSchedule_flat_witness :
  ∃ rows, BuildSchedule exact (MoneyFromInt 1200) 3 (MoneyFromInt 12) (reverse ex_installments) = Ok rows ∧
    Forall (λ row, (rat (row_Principal row) == 1200 / 3)%Q ∧ (rat (row_Interest row) == 1200 * 12 / 1200)%Q) rows.
Proof.
  apply (BuildSchedule_flat (MoneyFromInt 1200) 3 (MoneyFromInt 12) ex_installments (reverse ex_installments)).
  - reflexivity.
  - lia.
  - discriminate.
  - vm_compute. intuition.
  - reflexivity.
  - apply reverse_Permutation.
Defined.

Lemma BuildSchedule_sort_independent_witness :
  schedule_of_sorted exact (MoneyFromInt 1200) 3 (MoneyFromInt 12) ex_installments =
    Ok (ok_or [] (BuildSchedule exact (MoneyFromInt 1200) 3 (MoneyFromInt 12) (reverse ex_installments))) ↔
  schedule_of_sorted exact (MoneyFromInt 1200) 3 (MoneyFromInt 12)
    (SortStableFunc by_number (reverse ex_installments)) =
    Ok (ok_or [] (BuildSchedule exact (MoneyFromInt 1200) 3 (MoneyFromInt 12) (reverse ex_installments))).
Proof.
  apply (BuildSchedule_sort_independent exact (MoneyFromInt 1200) 3 (MoneyFromInt 12) (reverse ex_installments)
           ex_installments).
  - symmetry. apply reverse_Permutation.
  - unfold ex_installments. repeat constructor; simpl; lia.
Defined.

Lemma effectiveRepayments_net_witness :
  let e := ok_or [] (effectiveRepayments ex_repayments (MkDate 2025 10 12) (MkDate 2025 12 31)) in
  length e = 1%nat ∧
  (total allocable e == total allocable
     (List.filter (in_window (MkDate 2025 10 12) (MkDate 2025 12 31)) ex_repayments))%Q.
Proof.
  split; [vm_compute; reflexivity|].
  apply (effectiveRepayments_net ex_repayments (MkDate 2025 10 12) (MkDate 2025 12 31)).
  vm_compute. reflexivity.
Defined.

Lemma allocate_priority_witness :
  let s := {| principal := MoneyFromInt 1200; principalDue := MoneyFromInt 400;
              interestDue := MoneyFromInt 12; unapplied := MoneyZero |} in
  state_ok (allocate s (MoneyFromInt 500) 2).
Proof.
  apply (allocate_priority {| principal := MoneyFromInt 1200; principalDue := MoneyFromInt 400;
              interestDue := MoneyFromInt 12; unapplied := MoneyZero |} (MoneyFromInt 500) 2).
  - split; simpl; discriminate.
  - discriminate.
Defined.

Lemma collectabilityAt_in_force_witness :
  ∃ v, collectabilityAt 1 (SortStableFunc by_point_date ex_timeline) (MkDate 2025 11 20) = Ok v ∧ 1 ≤ v ≤ 5.
Proof.
  destruct (collectabilityAt_in_force 1 ex_timeline (MkDate 2025 11 20)) as (v & Hv & Hr & _);
    [lia|vm_compute; reflexivity|by exists v].
Defined.
