(* ===== verification/Position.v ===== *)
(** The position service, [internal/position/service.go]: which source answers
    for a loan on a date, and the reconstruction of a position from the opening
    state, the contract schedule and the repayments.

    The service's collaborators are Go interfaces; they are the fields of
    [Service], so a request is a function of what they answer.  What the service
    relies on is stated once, as the class [Evidence], and the repositories of
    [Repositories.v], [Snapshots.v] and [Calculator.v] discharge its parts. *)
From stdpp Require Import base list strings sorting gmap.
From Stdlib Require Import ZArith Lia Ascii QArith Lqa.
From S2P Require Import Prelude GoStrings GoErrors GoSlices GoTime Dates Money LoanModel Calculator.
Local Open Scope Z_scope.

Definition FlatInterestType : string := "10".

Record Service := {
  fincloud_ResolveLoan : string → Location → res ContractData;
  mso_HistoricalPosition : string → Date → res LoanPosition;
  mso_OpeningState : string → Date → res OpeningLoanState;
  dwh_ExactPosition : string → Date → res LoanPosition;
  dwh_CollectabilityTimeline : string → Date → Date → res (list CollectabilityPoint);
  snapshot_ExactPosition : string → Date → res LoanPosition;
  calculator_Calculate : CalculationInput → res CalculationResult;
  calculator_BuildSchedule :
    Money → Z → Money → list ContractualInstallment → res (list ContractualScheduleRow);
  location : Location;
  cutoff : Date;
  now : time
}.

(** ** Contract schedules *)

(** The date of a row of evidence: the first ten bytes of the trimmed text *)
Definition installment_date (loc : Location) (row : ContractualInstallmentEvidence) : res Date :=
  let rawDate := bytes (TrimSpace (ev_RawDueDate row)) in
  let rawDate := if (10 <=? length rawDate)%nat then take 10 rawDate else rawDate in
  ParseDate (of_bytes rawDate) (Some loc).
Arguments installment_date : simpl never.

Fixpoint normalize_rows (tenor : Z) (loc : Location) (seen : gset Z)
    (source : list ContractualInstallmentEvidence) : res (list ContractualInstallment) :=
  match source with
  | [] => Ok []
  | row :: rest =>
      fail_if ((ev_Number row <? 0) || (tenor <? ev_Number row))
              (errorf ErrUnsupportedCalculation "%w: installment number %d outside 0..%d");;
      if ev_Number row =? 0 then normalize_rows tenor loc seen rest else
      fail_if (bool_decide (ev_Number row ∈ seen))
              (errorf ErrUnsupportedCalculation "%w: duplicate contractual installment %d");;
      match installment_date loc row with
      | Fail _ => Fail (errorf ErrUnsupportedCalculation "%w: invalid date for contractual installment %d: %v")
      | Ok date =>
          schedule ← normalize_rows tenor loc ({[ev_Number row]} ∪ seen) rest;
          Ok ({| ci_Number := ev_Number row; ci_DueDate := date |} :: schedule)
      end
  end.

Fixpoint check_normalized (index : Z) (previous : option ContractualInstallment)
    (schedule : list ContractualInstallment) : res unit :=
  match schedule with
  | [] => Ok tt
  | installment :: rest =>
      fail_if (negb (ci_Number installment =? index + 1))
              (errorf ErrUnsupportedCalculation "%w: missing contractual installment %d");;
      fail_if (match previous with
               | None => false
               | Some p => negb (After (ci_DueDate installment) (ci_DueDate p))
               end)
              (errorf ErrUnsupportedCalculation
                 "%w: contractual installment dates are not strictly chronological");;
      check_normalized (index + 1) (Some installment) rest
  end.

Definition normalizeContractSchedule (source : list ContractualInstallmentEvidence) (tenor : Z) (loc : Location)
    : res (list ContractualInstallment) :=
  rows ← normalize_rows tenor loc ∅ source;
  let schedule := SortStableFunc by_number rows in
  fail_if (negb (Z.of_nat (length schedule) =? tenor))
          (errorf ErrUnsupportedCalculation "%w: got %d contractual installments for %d-month tenor");;
  check_normalized 0 None schedule;;
  Ok schedule.

Fixpoint valid_from (index : Z) (previous : option ContractualInstallment)
    (schedule : list ContractualInstallment) : bool :=
  match schedule with
  | [] => true
  | installment :: rest =>
      if negb (ci_Number installment =? index + 1) || Date_IsZero (ci_DueDate installment) then false else
      if match previous with None => false | Some p => negb (After (ci_DueDate installment) (ci_DueDate p)) end
      then false else valid_from (index + 1) (Some installment) rest
  end.
Definition validSchedule (contract : ContractData) : bool :=
  if (cd_TenorMonths contract <=? 0) ||
     negb (Z.of_nat (length (cd_ContractSchedule contract)) =? cd_TenorMonths contract)
  then false else valid_from 0 None (cd_ContractSchedule contract).

(** ** Positions *)

(** "ab.cde.fghij": the dotted MSO form of a ten-character account *)
Definition formatFincloudAltNoToMSO (account : string) : string :=
  let account := bytes (TrimSpace account) in
  if negb (length account =? 10)%nat then of_bytes account else
  of_bytes (take 2 account ++ "."%char :: take 3 (drop 2 account) ++ "."%char :: drop 5 account).

Definition exactPosition (service : Service) (account : string) (asOf today : Date) : res LoanPosition :=
  if Equal asOf today then snapshot_ExactPosition service account asOf
  else dwh_ExactPosition service account asOf.

Definition openingPosition (opening : OpeningLoanState) (asOf : Date) : LoanPosition :=
  {| lp_AsOf := asOf; lp_LoanStartDate := ZeroDate; lp_AccountNumber := op_AccountNumber opening;
     lp_PrincipalOutstanding := op_PrincipalOutstanding opening; lp_PrincipalDue := op_PrincipalDue opening;
     lp_InterestDue := op_InterestDue opening; lp_PenaltyDue := op_PenaltyDue opening;
     lp_CollectabilityBI := op_CollectabilityBI opening; lp_UnappliedAmount := MoneyZero;
     lp_Source := Some SourceMSO; lp_Branch := EmptyString; lp_Product := EmptyString; lp_CIF := EmptyString;
     lp_ContractNumber := EmptyString; lp_SourceUpdatedAt := None |}.

(** Field updates of the structs that the service assigns to *)
Definition with_account (position : LoanPosition) (account : string) : LoanPosition :=
  {| lp_AsOf := lp_AsOf position; lp_LoanStartDate := lp_LoanStartDate position; lp_AccountNumber := account;
     lp_PrincipalOutstanding := lp_PrincipalOutstanding position; lp_PrincipalDue := lp_PrincipalDue position;
     lp_InterestDue := lp_InterestDue position; lp_PenaltyDue := lp_PenaltyDue position;
     lp_CollectabilityBI := lp_CollectabilityBI position; lp_UnappliedAmount := lp_UnappliedAmount position;
     lp_Source := lp_Source position; lp_Branch := lp_Branch position; lp_Product := lp_Product position;
     lp_CIF := lp_CIF position; lp_ContractNumber := lp_ContractNumber position;
     lp_SourceUpdatedAt := lp_SourceUpdatedAt position |}.
Definition opening_with_account (opening : OpeningLoanState) (account : string) : OpeningLoanState :=
  {| op_AccountNumber := account; op_InterestType := op_InterestType opening;
     op_PrincipalOutstanding := op_PrincipalOutstanding opening; op_PrincipalDue := op_PrincipalDue opening;
     op_InterestDue := op_InterestDue opening; op_PenaltyDue := op_PenaltyDue opening;
     op_CollectabilityBI := op_CollectabilityBI opening |}.
Definition with_schedule (contract : ContractData) (schedule : list ContractualInstallment) : ContractData :=
  {| cd_PrimaryAccount := cd_PrimaryAccount contract; cd_AlternateAccount := cd_AlternateAccount contract;
     cd_CIF := cd_CIF contract; cd_CustomerName := cd_CustomerName contract; cd_Branch := cd_Branch contract;
     cd_Product := cd_Product contract; cd_PlafondLimit := cd_PlafondLimit contract;
     cd_TenorMonths := cd_TenorMonths contract; cd_FlatRatePercent := cd_FlatRatePercent contract;
     cd_ReferenceRatePercent := cd_ReferenceRatePercent contract;
     cd_CurrentCollectability := cd_CurrentCollectability contract;
     cd_CurrentPrincipalDue := cd_CurrentPrincipalDue contract;
     cd_CurrentInterestDue := cd_CurrentInterestDue contract; cd_PenaltyDue := cd_PenaltyDue contract;
     cd_Status := cd_Status contract; cd_CloseDate := cd_CloseDate contract;
     cd_RawScheduleCount := cd_RawScheduleCount contract;
     cd_ContractScheduleEvidence := cd_ContractScheduleEvidence contract;
     cd_ContractSchedule := schedule; cd_Repayments := cd_Repayments contract |}.
Definition with_rows (resolved : ResolvedPosition) (rows : list ContractualScheduleRow) : ResolvedPosition :=
  {| rv_Loan := rv_Loan resolved; rv_Position := rv_Position resolved;
     rv_ActualPosition := rv_ActualPosition resolved; rv_Trace := rv_Trace resolved;
     rv_ContractualSchedule := rows |}.
Definition resolved_as (contract : ContractData) (position : LoanPosition) : ResolvedPosition :=
  {| rv_Loan := contract; rv_Position := position; rv_ActualPosition := position;
     rv_Trace := ZeroTrace; rv_ContractualSchedule := [] |}.

Definition closedPosition (contract : ContractData) (asOf : Date) (primary : string) : LoanPosition :=
  {| lp_AsOf := asOf; lp_LoanStartDate := ZeroDate; lp_AccountNumber := primary;
     lp_PrincipalOutstanding := MoneyZero; lp_PrincipalDue := MoneyZero; lp_InterestDue := MoneyZero;
     lp_PenaltyDue := MoneyZero; lp_CollectabilityBI := cd_CurrentCollectability contract;
     lp_UnappliedAmount := MoneyZero; lp_Source := Some SourceClosed; lp_Branch := EmptyString;
     lp_Product := EmptyString; lp_CIF := EmptyString; lp_ContractNumber := EmptyString;
     lp_SourceUpdatedAt := None |}.

Definition reconstructedPosition (asOf start : Date) (primary : string) (calculation : CalculationResult)
    : LoanPosition :=
  {| lp_AsOf := asOf; lp_LoanStartDate := start; lp_AccountNumber := primary;
     lp_PrincipalOutstanding := res_PrincipalOutstanding calculation;
     lp_PrincipalDue := res_PrincipalDue calculation; lp_InterestDue := res_InterestDue calculation;
     lp_PenaltyDue := MoneyZero; lp_CollectabilityBI := res_CollectabilityBI calculation;
     lp_UnappliedAmount := res_UnappliedAmount calculation; lp_Source := Some SourceReconstructed;
     lp_Branch := EmptyString; lp_Product := EmptyString; lp_CIF := EmptyString;
     lp_ContractNumber := EmptyString; lp_SourceUpdatedAt := None |}.

(** The exact position of a date after the cutoff, with the checks on it; at or
    before the cutoff the variable [exact] keeps its zero value. *)
Definition exact_after_cutoff (service : Service) (primary : string) (asOf today : Date) : res LoanPosition :=
  if After asOf (cutoff service) then
    match exactPosition service primary asOf today with
    | Fail e => if Equal asOf today && Is e ErrNotFound
                then Fail (JoinErr [Sentinel ErrCurrentSnapshot; e]) else Fail e
    | Ok exact =>
        fail_if (Date_IsZero (lp_LoanStartDate exact) || After (lp_LoanStartDate exact) asOf)
                (errorf ErrHistoricalEvidence "%w: exact position has invalid loan start date");;
        Ok exact
    end
  else Ok ZeroPosition.

(** The tail of [resolvePosition], for a flat loan that MSO opened *)
Definition reconstruct (service : Service) (contract : ContractData) (primary : string)
    (asOf today : Date) (opening : OpeningLoanState) (exact : LoanPosition) : res ResolvedPosition :=
  contract ← match cd_ContractScheduleEvidence contract with
             | None => Ok contract
             | Some evidence =>
                 schedule ← normalizeContractSchedule evidence (cd_TenorMonths contract) (location service);
                 Ok (with_schedule contract schedule)
             end;
  fail_if (negb (validSchedule contract))
          (errorf ErrUnsupportedCalculation "%w: invalid contractual installment schedule");;
  let loc := Some (location service) in
  let timelineEnd := if Equal asOf today then AddDays today (-1) loc else asOf in
  timeline ← dwh_CollectabilityTimeline service primary (AddDays (cutoff service) 1 loc) timelineEnd;
  let timeline := if Equal asOf today
                  then timeline ++ [{| cp_Date := today; cp_Value := lp_CollectabilityBI exact |}]
                  else timeline in
  calculation ← calculator_Calculate service
    {| in_AsOf := asOf; in_Cutoff := cutoff service; in_ContractualPrincipal := cd_PlafondLimit contract;
       in_TenorMonths := cd_TenorMonths contract; in_FlatRatePercent := cd_FlatRatePercent contract;
       in_Opening := opening; in_ContractSchedule := cd_ContractSchedule contract;
       in_Repayments := cd_Repayments contract; in_CollectabilityTimeline := timeline |};
  Ok {| rv_Loan := contract;
        rv_Position := reconstructedPosition asOf (lp_LoanStartDate exact) primary calculation;
        rv_ActualPosition := exact; rv_Trace := res_Trace calculation;
        rv_ContractualSchedule := res_ContractualSchedule calculation |}.

(** Go returns the contract together with an MSO error before the cutoff; the
    callers of the service look at the error first, so it is a plain failure. *)
Definition resolvePosition (service : Service) (account : string) (asOf : Date) : res ResolvedPosition :=
  let account := TrimSpace account in
  fail_if (empty account || Date_IsZero asOf)
          (errorf ErrInvalidInput "%w: account and as-of date are required");;
  let today := NewDate (now service) (Some (location service)) in
  fail_if (After asOf today)
          (errorf ErrInvalidInput "%w: future as-of dates are not supported");;
  contract ← fincloud_ResolveLoan service account (location service);
  let primary := TrimSpace (cd_PrimaryAccount contract) in
  fail_if (empty primary) (errorf ErrInvariant "%w: resolved primary account is empty");;
  if negb (Date_IsZero (cd_CloseDate contract)) && negb (After (cd_CloseDate contract) asOf)
  then Ok (resolved_as contract (closedPosition contract asOf primary)) else
  exact ← exact_after_cutoff service primary asOf today;
  if After asOf (cutoff service) && After (lp_LoanStartDate exact) (cutoff service)
  then Ok (resolved_as contract exact) else
  let alternate := TrimSpace (cd_AlternateAccount contract) in
  fail_if (empty alternate) (errorf ErrHistoricalEvidence "%w: resolved alternate MSO account is empty");;
  let msoAccount := formatFincloudAltNoToMSO alternate in
  if Before asOf (cutoff service) then
    position ← mso_HistoricalPosition service msoAccount asOf;
    Ok (resolved_as contract (with_account position primary))
  else
  opening ← mso_OpeningState service msoAccount (cutoff service);
  let opening := opening_with_account opening primary in
  if Equal asOf (cutoff service) then Ok (resolved_as contract (openingPosition opening asOf)) else
  if negb (seqb (op_InterestType opening) FlatInterestType) then Ok (resolved_as contract exact) else
  reconstruct service contract primary asOf today opening exact.

(** The schedule shown for a position that was not reconstructed: none if it
    cannot be built. *)
Definition displaySchedule (service : Service) (contract : ContractData) : list ContractualScheduleRow :=
  match cd_ContractScheduleEvidence contract with
  | None | Some [] => []
  | Some evidence =>
      match normalizeContractSchedule evidence (cd_TenorMonths contract) (location service) with
      | Fail _ => []
      | Ok installments =>
          match calculator_BuildSchedule service (cd_PlafondLimit contract) (cd_TenorMonths contract)
                  (cd_FlatRatePercent contract) installments with
          | Fail _ => []
          | Ok rows => rows
          end
      end
  end.

Definition GetLoanPosition (service : Service) (account : string) (asOf : Date) : res ResolvedPosition :=
  resolved ← resolvePosition service account asOf;
  if negb (bool_decide (lp_Source (rv_Position resolved) = Some SourceReconstructed))
  then Ok (with_rows resolved (displaySchedule service (rv_Loan resolved)))
  else Ok resolved.

(** ** What the service relies on *)

Record position_ok (p : LoanPosition) : Prop := {
  pos_due : (0 <= rat (lp_PrincipalDue p) <= rat (lp_PrincipalOutstanding p))%Q;
  pos_interest : (0 <= rat (lp_InterestDue p))%Q;
  pos_penalty : (0 <= rat (lp_PenaltyDue p))%Q;
  pos_unapplied : (0 <= rat (lp_UnappliedAmount p))%Q;
  pos_collectability : 1 ≤ lp_CollectabilityBI p ≤ 5
}.

(** A repository answers with well-formed positions of the date asked for and
    names itself as their source. *)
Definition answers (source : PositionSource) (query : string → Date → res LoanPosition) : Prop :=
  ∀ account asOf p, date_ok asOf → query account asOf = Ok p →
    position_ok p ∧ lp_AsOf p = asOf ∧ lp_Source p = Some source.

Definition opening_ok (o : OpeningLoanState) : Prop :=
  validateOpening o = Ok tt ∧ (0 <= rat (op_PenaltyDue o))%Q.

Class Evidence (service : Service) : Prop := {
  dwh_answers : answers SourceDWH (dwh_ExactPosition service);
  snapshot_answers : answers SourceTodaySnapshot (snapshot_ExactPosition service);
  mso_answers : answers SourceMSO (mso_HistoricalPosition service);
  mso_opens : ∀ account date o, mso_OpeningState service account date = Ok o → opening_ok o;
  calculates : ∀ input result, calculator_Calculate service input = Ok result → result_sound input result
}.

Definition closed_by (contract : ContractData) (asOf : Date) : Prop :=
  Date_IsZero (cd_CloseDate contract) = false ∧ key (cd_CloseDate contract) ≤ key asOf.
Definition opened_flat (service : Service) (contract : ContractData) (flat : bool) : Prop :=
  ∃ opening, mso_OpeningState service
      (formatFincloudAltNoToMSO (TrimSpace (cd_AlternateAccount contract))) (cutoff service) = Ok opening ∧
    seqb (op_InterestType opening) FlatInterestType = flat.

(** ** Lemmas *)

Section Resolution.
Context (service : Service) `{!Evidence service}.

Lemma exact_after_cutoff_Ok primary asOf today p :
  date_ok asOf → exact_after_cutoff service primary asOf today = Ok p →
  key (cutoff service) < key asOf →
  position_ok p ∧ lp_AsOf p = asOf ∧
  lp_Source p = Some (if Equal asOf today then SourceTodaySnapshot else SourceDWH) ∧
  key (lp_LoanStartDate p) ≤ key asOf.
Proof.
  unfold exact_after_cutoff, After at 1. intros Hdate H Hlt.
  destruct (Z.ltb_spec (key (cutoff service)) (key asOf)); [|lia].
  destruct (exactPosition service primary asOf today) as [exact|e] eqn:E; [|by destruct (_ && _)].
  inv_ok. apply orb_false_iff in Hstep as [_ Hstart]. unfold After in Hstart. to_prop in Hstart.
  unfold exactPosition in E. destruct (Equal asOf today).
  - destruct (snapshot_answers _ _ _ Hdate E) as (? & ? & ?). by split_and!.
  - destruct (dwh_answers _ _ _ Hdate E) as (? & ? & ?). by split_and!.
Qed.

(** The routes to a position: the source of a resolved position decides what
    it was made of. *)
Definition lineage (contract : ContractData) (asOf today : Date) (r : ResolvedPosition) : Prop :=
  let p := rv_Position r in
  match lp_Source p with
  | Some SourceClosed => closed_by contract asOf ∧ p = closedPosition contract asOf (TrimSpace (cd_PrimaryAccount contract))
  | Some SourceMSO =>
      ~ closed_by contract asOf ∧ key asOf ≤ key (cutoff service) ∧
      lp_AccountNumber p = TrimSpace (cd_PrimaryAccount contract)
  | Some SourceDWH =>
      ~ closed_by contract asOf ∧ key (cutoff service) < key asOf ∧ key asOf ≠ key today ∧
      (key (cutoff service) < key (lp_LoanStartDate p) ∨ opened_flat service contract false)
  | Some SourceTodaySnapshot =>
      ~ closed_by contract asOf ∧ key (cutoff service) < key asOf ∧ key asOf = key today ∧
      (key (cutoff service) < key (lp_LoanStartDate p) ∨ opened_flat service contract false)
  | Some SourceReconstructed =>
      ~ closed_by contract asOf ∧ key (cutoff service) < key asOf ∧
      key (lp_LoanStartDate p) ≤ key (cutoff service) ∧ opened_flat service contract true ∧
      lp_AccountNumber p = TrimSpace (cd_PrimaryAccount contract) ∧
      lp_Source (rv_ActualPosition r) =
        Some (if Equal asOf today then SourceTodaySnapshot else SourceDWH)
  | None => False
  end.

Definition sound_position (asOf : Date) (p : LoanPosition) : Prop :=
  lp_AsOf p = asOf ∧ (lp_Source p ≠ Some SourceClosed → position_ok p).

Lemma opening_position_ok opening asOf :
  opening_ok opening → position_ok (openingPosition opening asOf).
Proof.
  intros [Hv Hp]. apply validateOpening_Ok in Hv as [[Hd Hle Hi _] Hc].
  split; simpl in *; first [done|apply Qle_refl].
Qed.

Lemma opening_ok_account opening account : opening_ok opening → opening_ok (opening_with_account opening account).
Proof. done. Qed.

Lemma reconstruct_sound contract primary asOf today opening exact r :
  reconstruct service contract primary asOf today opening exact = Ok r →
  sound_position asOf (rv_Position r) ∧ lp_Source (rv_Position r) = Some SourceReconstructed ∧
  lp_LoanStartDate (rv_Position r) = lp_LoanStartDate exact ∧
  lp_AccountNumber (rv_Position r) = primary ∧ rv_ActualPosition r = exact.
Proof.
  unfold reconstruct. intros H. inv_ok. cbn [rv_Position reconstructedPosition lp_Source lp_LoanStartDate
    lp_AccountNumber rv_ActualPosition].
  split_and!; try done. split; [done|]. intros _.
  match goal with Hc : calculator_Calculate _ _ = Ok _ |- _ =>
    destruct (calculates _ _ Hc) as (Hd & _ & Hi & Hu & Hcoll & _) end.
  split; simpl; first [done|apply Qle_refl].
Qed.

Lemma closed_test contract asOf :
  negb (Date_IsZero (cd_CloseDate contract)) && negb (After (cd_CloseDate contract) asOf) = true ↔
  closed_by contract asOf.
Proof. unfold closed_by, After. rewrite andb_true_iff, !negb_true_iff, Z.ltb_ge. done. Qed.

Lemma lineage_exact contract asOf today exact :
  ~ closed_by contract asOf → key (cutoff service) < key asOf →
  lp_Source exact = Some (if Equal asOf today then SourceTodaySnapshot else SourceDWH) →
  key (cutoff service) < key (lp_LoanStartDate exact) ∨ opened_flat service contract false →
  lineage contract asOf today (resolved_as contract exact).
Proof.
  intros Hopen Hlt Hsrc Hwhy. unfold lineage. simpl. rewrite Hsrc. unfold Equal.
  destruct (Z.eqb_spec (key asOf) (key today)); by split_and!.
Qed.

Lemma resolvePosition_Ok account asOf r :
  date_ok asOf → resolvePosition service account asOf = Ok r →
  let today := NewDate (now service) (Some (location service)) in
  key asOf ≤ key today ∧ Date_IsZero asOf = false ∧
  ∃ contract, fincloud_ResolveLoan service (TrimSpace account) (location service) = Ok contract ∧
    lineage contract asOf today r ∧ sound_position asOf (rv_Position r).
Proof.
  unfold resolvePosition. remember (NewDate (now service) (Some (location service))) as today eqn:Et. clear Et.
  intros Hdate H. inv_ok. apply orb_false_iff in Hstep as [_ Hz]. unfold After in Hstep0. to_prop in Hstep0.
  split; [done|]. split; [done|]. rename a1 into contract. exists contract. split; [done|].
  destruct (negb (Date_IsZero _) && _) eqn:Hclosed.
  { apply closed_test in Hclosed. inv_ok. unfold lineage, sound_position. by simpl. }
  assert (~ closed_by contract asOf) as Hopen by (rewrite <- closed_test; congruence).
  apply bind_Ok in H as (exact & Hexact & H).
  destruct (After asOf (cutoff service) && After (lp_LoanStartDate exact) (cutoff service)) eqn:Hnative.
  { inv_ok. unfold After in Hnative. to_prop in Hnative. destruct Hnative as [Hlt Hstart].
    destruct (exact_after_cutoff_Ok _ _ _ _ Hdate Hexact Hlt) as (Hok & Has & Hsrc & _).
    split; [|by split]. by apply lineage_exact; [..|left]. }
  apply bind_Ok in H as ([] & _ & H). unfold Before in H.
  destruct (Z.ltb_spec (key asOf) (key (cutoff service))) as [Hbefore|Hafter].
  { inv_ok. destruct (mso_answers _ _ _ Hdate Hstep) as (Hok & Has & Hsrc). unfold lineage, sound_position. simpl.
    rewrite Hsrc. split; [split_and!; [done|lia|done]|]. split; [done|]. intros _. by destruct Hok. }
  apply bind_Ok in H as (opening & Hopening & H). unfold Equal at 1 in H.
  destruct (Z.eqb_spec (key asOf) (key (cutoff service))) as [Hat|Hne].
  { inv_ok. apply mso_opens, opening_ok_account with (account := TrimSpace (cd_PrimaryAccount contract)) in Hopening.
    unfold lineage, sound_position. simpl. split; [split_and!; [done|lia|done]|]. split; [done|]. intros _.
    by apply opening_position_ok. }
  assert (key (cutoff service) < key asOf) as Hlt by lia.
  destruct (exact_after_cutoff_Ok _ _ _ _ Hdate Hexact Hlt) as (Hok & Has & Hsrc & _).
  unfold After in Hnative. replace (key (cutoff service) <? key asOf) with true in Hnative by (symmetry; by to_prop).
  simpl in Hnative. to_prop in Hnative. cbn [opening_with_account op_InterestType] in H.
  destruct (seqb (op_InterestType opening) FlatInterestType) eqn:Hflat; simpl in H.
  - apply reconstruct_sound in H as (Hsound & Hs & Hstart & Hacc & Hact). split; [|done].
    unfold lineage. rewrite Hs, Hstart, Hacc, Hact. split_and!; try done. by exists opening.
  - inv_ok. split; [|by split]. apply lineage_exact; try done. right. by exists opening.
Qed.

Lemma GetLoanPosition_Ok account asOf r :
  GetLoanPosition service account asOf = Ok r →
  ∃ r', resolvePosition service account asOf = Ok r' ∧
    rv_Position r = rv_Position r' ∧ rv_ActualPosition r = rv_ActualPosition r' ∧ rv_Loan r = rv_Loan r' ∧
    rv_Trace r = rv_Trace r'.
Proof.
  unfold GetLoanPosition. intros H. apply bind_Ok in H as (r' & Hr & H). exists r'.
  destruct (negb _); inv_ok; by split_and!.
Qed.

Lemma lineage_same contract asOf today r r' :
  rv_Position r = rv_Position r' → rv_ActualPosition r = rv_ActualPosition r' →
  lineage contract asOf today r' → lineage contract asOf today r.
Proof. unfold lineage. by intros -> ->. Qed.
End Resolution.

(** ** Normalized schedules *)

(** The installment that a row of evidence stands for: none for number zero *)
Definition row_installment (loc : Location) (row : ContractualInstallmentEvidence) : option ContractualInstallment :=
  if ev_Number row =? 0 then None else
  match installment_date loc row with
  | Fail _ => None
  | Ok date => Some {| ci_Number := ev_Number row; ci_DueDate := date |}
  end.
Definition row_readable (tenor : Z) (loc : Location) (row : ContractualInstallmentEvidence) : Prop :=
  0 ≤ ev_Number row ≤ tenor ∧ (ev_Number row = 0 ∨ is_Some (row_installment loc row)).

Lemma row_installment_number loc row x : row_installment loc row = Some x → ci_Number x = ev_Number row.
Proof.
  unfold row_installment. destruct (ev_Number row =? 0); [done|].
  destruct (installment_date _ _); [|done]. by intros [= <-].
Qed.

Lemma normalize_rows_Ok tenor loc seen source rows :
  normalize_rows tenor loc seen source = Ok rows ↔
  Forall (row_readable tenor loc) source ∧ rows = omap (row_installment loc) source ∧
  NoDup (ci_Number <$> rows) ∧ Forall (λ x, ci_Number x ∉ seen) rows.
Proof.
  revert seen rows. induction source as [|row source IH]; intros seen rows; simpl.
  { split; [intros [= <-]; split_and!; constructor|by intros (_ & -> & _)]. }
  rewrite Forall_cons. unfold row_readable at 1.
  destruct ((ev_Number row <? 0) || (tenor <? ev_Number row)) eqn:Hr; to_prop in Hr.
  { split; [done|intros ([[Hb _] _] & _); lia]. }
  cbn [fail_if mbind result_bind].
  unfold row_installment at 1 2.
  destruct (Z.eqb_spec (ev_Number row) 0) as [Hz|Hnz].
  { rewrite IH. split; [intros (? & ? & ? & ?)|intros ([_ ?] & ? & ? & ?)]; split_and!; try done; try lia; by left. }
  destruct (decide (ev_Number row ∈ seen)) as [Hin|Hnin].
  { rewrite bool_decide_eq_true_2 by done. split; [done|].
    destruct (installment_date _ _) as [d|]; [|by intros ([[_ [?|[? ?]]] _] & _)].
    intros (_ & -> & _ & Hf). apply Forall_cons in Hf as [Hf _]. by destruct Hf. }
  rewrite bool_decide_eq_false_2 by done. cbn [fail_if mbind result_bind].
  destruct (installment_date _ _) as [d|]; [|split; [done|by intros ([[_ [?|[? ?]]] _] & _)]].
  set (x := {| ci_Number := ev_Number row; ci_DueDate := d |}).
  split.
  - intros H. inv_ok. apply IH in Hstep as (Hread & -> & Hnd & Hfr).
    split_and!; [lia|lia|right; by eexists|done|done| |].
    + simpl. apply NoDup_cons. split; [|done]. intros Hin. apply list_elem_of_fmap in Hin as (y & Hy & Hin).
      rewrite Forall_forall in Hfr. specialize (Hfr y Hin). set_solver.
    + constructor; [done|]. eapply Forall_impl; [exact Hfr|]. simpl. set_solver.
  - intros ([_ Hread] & -> & Hnd & Hf). simpl in Hnd. apply NoDup_cons in Hnd as [Hx Hnd].
    apply Forall_cons in Hf as [_ Hf].
    assert (normalize_rows tenor loc ({[ev_Number row]} ∪ seen) source = Ok (omap (row_installment loc) source)) as ->; [|done].
    apply IH. split_and!; [done|done|done|]. apply Forall_forall. intros y Hy.
    rewrite Forall_forall in Hf. specialize (Hf y Hy).
    assert (ci_Number y ≠ ev_Number row) by (intros E; apply Hx; simpl; rewrite <- E; by apply list_elem_of_fmap_2).
    set_solver.
Qed.

(** The numbers 1, 2, ... on strictly later dates *)
Fixpoint numbered (index : Z) (previous : option ContractualInstallment) (l : list ContractualInstallment) : Prop :=
  match l with
  | [] => True
  | x :: rest =>
      ci_Number x = index + 1 ∧
      match previous with None => True | Some p => key (ci_DueDate p) < key (ci_DueDate x) end ∧
      numbered (index + 1) (Some x) rest
  end.

Lemma check_normalized_Ok index previous l : check_normalized index previous l = Ok tt ↔ numbered index previous l.
Proof.
  revert index previous. induction l as [|x l IH]; intros index previous; simpl; [done|].
  unfold After. destruct (Z.eqb_spec (ci_Number x) (index + 1)) as [E|E]; cbn [negb fail_if mbind result_bind];
    [|by split; [|intros [? _]]].
  destruct previous as [p|]; cbn [fail_if mbind result_bind].
  - destruct (Z.ltb_spec (key (ci_DueDate p)) (key (ci_DueDate x))); cbn [negb fail_if mbind result_bind].
    + rewrite IH. tauto.
    + split; [done|]. intros (_ & ? & _). lia.
  - rewrite IH. tauto.
Qed.

Lemma numbered_chronological index previous l :
  numbered index previous l → Forall (λ x, Date_IsZero (ci_DueDate x) = false) l → chronological index previous l.
Proof.
  revert index previous. induction l as [|x l IH]; intros index previous; simpl; [done|].
  rewrite Forall_cons. intros (Hn & Hp & Hl) [Hz Hf]. split_and!; [done|done|done|by apply IH].
Qed.

Lemma valid_from_true index previous l : valid_from index previous l = true ↔ chronological index previous l.
Proof.
  rewrite <- check_installments_Ok. revert index previous. induction l as [|x l IH]; intros index previous; simpl; [done|].
  destruct (negb (ci_Number x =? index + 1) || Date_IsZero (ci_DueDate x)); [done|]. cbn [fail_if mbind result_bind].
  destruct previous as [p|]; cbn [fail_if mbind result_bind]; [|apply IH].
  destruct (negb _); cbn [fail_if mbind result_bind]; [done|apply IH].
Qed.

Lemma numbered_numbers index previous l :
  numbered index previous l → ci_Number <$> l = seqZ (index + 1) (Z.of_nat (length l)).
Proof.
  revert index previous. induction l as [|x l IH]; intros index previous; [done|].
  intros (Hn & _ & Hl). rewrite fmap_cons, Hn, (IH _ _ Hl). cbn [length].
  rewrite (seqZ_cons (index + 1)) by lia. f_equal. f_equal; lia.
Qed.

Lemma normalizeContractSchedule_Ok source tenor loc schedule :
  normalizeContractSchedule source tenor loc = Ok schedule ↔
  Forall (row_readable tenor loc) source ∧ NoDup (ci_Number <$> omap (row_installment loc) source) ∧
  schedule = SortStableFunc by_number (omap (row_installment loc) source) ∧
  Z.of_nat (length schedule) = tenor ∧ numbered 0 None schedule.
Proof.
  unfold normalizeContractSchedule. split.
  - intros H. inv_ok. apply normalize_rows_Ok in Hstep as (Hr & -> & Hnd & _).
    apply negb_false_iff, Z.eqb_eq in Hstep0. destruct a1. apply check_normalized_Ok in Hstep1. done.
  - intros (Hr & Hnd & -> & Hlen & Hnum).
    rewrite (proj2 (normalize_rows_Ok tenor loc ∅ source _)) by
      (split_and!; [done|done|done|apply Forall_forall; set_solver]).
    cbn [mbind result_bind]. rewrite Hlen, Z.eqb_refl. cbn [negb fail_if mbind result_bind].
    by rewrite (proj2 (check_normalized_Ok 0 None _)).
Qed.

Lemma omap_perm {A B} (f : A → option B) l1 l2 : l1 ≡ₚ l2 → omap f l1 ≡ₚ omap f l2.
Proof. intros H. by rewrite H. Qed.

(** ** Properties *)

(** C23: the source of a position is the one the dates and the loan ask for.  A
    position is only given for a date up to today.  A loan closed by the date has
    a closed position with nothing outstanding; up to the cutoff MSO answers, for
    the primary account; after it the exact position of the date answers (today's
    snapshot for today, DWH for the past) if the loan started after the cutoff or
    was not opened flat, and otherwise the position is reconstructed from the flat
    opening state, with the exact one kept beside it. *)
Theorem GetLoanPosition_lineage service account asOf r :
  Evidence service → date_ok asOf → GetLoanPosition service account asOf = Ok r →
  let today := NewDate (now service) (Some (location service)) in
  key asOf ≤ key today ∧ Date_IsZero asOf = false ∧
  ∃ contract, fincloud_ResolveLoan service (TrimSpace account) (location service) = Ok contract ∧
    lineage service contract asOf today r.
Proof.
  intros Hev Hdate H. apply GetLoanPosition_Ok in H as (r' & Hr' & Hp & Ha & _).
  apply resolvePosition_Ok in Hr' as (Hle & Hz & contract & Hc & Hl & _); [|done..].
  split; [done|]. split; [done|]. exists contract. split; [done|]. by eapply lineage_same.
Qed.

(** C24: every position that the service answers with is for the date asked for
    and well formed (principal due between zero and the outstanding principal, no
    negative amount, collectability 1..5), whatever its source; a closed one has
    no amounts at all. *)
Theorem GetLoanPosition_well_formed service account asOf r :
  Evidence service → date_ok asOf → GetLoanPosition service account asOf = Ok r →
  lp_AsOf (rv_Position r) = asOf ∧
  (position_ok (rv_Position r) ∨
   lp_Source (rv_Position r) = Some SourceClosed ∧ lp_PrincipalOutstanding (rv_Position r) = MoneyZero ∧
   lp_PrincipalDue (rv_Position r) = MoneyZero ∧ lp_InterestDue (rv_Position r) = MoneyZero ∧
   lp_PenaltyDue (rv_Position r) = MoneyZero ∧ lp_UnappliedAmount (rv_Position r) = MoneyZero).
Proof.
  intros Hev Hdate H. apply GetLoanPosition_Ok in H as (r' & Hr' & -> & _).
  apply resolvePosition_Ok in Hr' as (_ & _ & contract & _ & Hl & Has & Hok); [|done..].
  split; [done|]. destruct (decide (lp_Source (rv_Position r') = Some SourceClosed)) as [E|E]; [right|left; by apply Hok].
  unfold lineage in Hl. rewrite E in Hl. destruct Hl as [_ ->]. by split_and!.
Qed.

(** A normalized contract schedule has one installment per month of the
    tenor, numbered 1..tenor on strictly later dates, taken from the evidence rows
    with a number other than zero, and does not depend on the order in which the
    upstream lists them.  With dates after year zero it passes the service's own
    check, and the calculator builds a schedule over it for every loan with
    positive principal and no negative rate. *)
Theorem normalizeContractSchedule_correct source source' tenor loc schedule principal rate :
  normalizeContractSchedule source tenor loc = Ok schedule →
  ci_Number <$> schedule = seqZ 1 tenor ∧ numbered 0 None schedule ∧
  schedule ≡ₚ omap (row_installment loc) source ∧
  (source' ≡ₚ source → normalizeContractSchedule source' tenor loc = Ok schedule) ∧
  (Forall (λ x, Date_IsZero (ci_DueDate x) = false) schedule →
   valid_from 0 None schedule = true ∧
   ((0 < rat principal)%Q → 0 < tenor → (0 <= rat rate)%Q →
    is_ok (BuildSchedule {| Round := None |} principal tenor rate schedule) = true)).
Proof.
  rewrite normalizeContractSchedule_Ok. intros (Hr & Hnd & Hs & Hlen & Hnum).
  assert (schedule ≡ₚ omap (row_installment loc) source) as Hperm by (rewrite Hs; apply SortStableFunc_perm).
  split_and!; [by rewrite (numbered_numbers 0 None), Hlen|done|done| |].
  - intros Hp. apply normalizeContractSchedule_Ok.
    pose proof (omap_perm (row_installment loc) _ _ Hp) as Hp'.
    split_and!; [by rewrite Hp|by rewrite Hp'| |done|done].
    apply (sorted_permutation_unique ci_Number).
    + by rewrite SortStableFunc_perm, Hp'.
    + by rewrite Hperm.
    + rewrite Hs. apply by_number_sorted.
    + apply by_number_sorted.
  - intros Hz. apply (numbered_chronological _ _ _ Hnum) in Hz. split; [by apply valid_from_true|].
    intros Hp Ht Hrate. by apply (BuildSchedule_total principal tenor rate schedule).
Qed.

(** The dotted MSO account is the ten-character account with a dot after
    the second and the fifth character: dropping the dots gives the account back,
    so two accounts never collide; other lengths are passed through. *)
Theorem formatFincloudAltNoToMSO_faithful account :
  (slen (TrimSpace account) = 10 → mem_byte "." (bytes (TrimSpace account)) = false →
   ReplaceAll (formatFincloudAltNoToMSO account) "." EmptyString = TrimSpace account ∧
   slen (formatFincloudAltNoToMSO account) = 12) ∧
  (slen (TrimSpace account) ≠ 10 → formatFincloudAltNoToMSO account = TrimSpace account).
Proof.
  unfold formatFincloudAltNoToMSO, slen. remember (bytes (TrimSpace account)) as l eqn:El.
  assert (TrimSpace account = of_bytes l) as -> by (by rewrite El, of_bytes_bytes). clear El account.
  split; intros Hlen.
  - intros Hdot. destruct (Nat.eqb_spec (length l) 10); [|lia]. cbn [negb]. unfold ReplaceAll.
    rewrite !bytes_of_bytes. split.
    + f_equal. rewrite replace_byte_app, (replace_byte_cons_eq "."), replace_byte_app, (replace_byte_cons_eq ".").
      change (bytes EmptyString) with (@nil ascii). simpl app.
      rewrite <- (take_drop 2 l) in Hdot at 1. rewrite <- (take_drop 3 (drop 2 l)), drop_drop in Hdot.
      rewrite !mem_byte_app in Hdot. to_prop in Hdot. destruct Hdot as (H1 & H2 & H3).
      rewrite !replace_byte_absent by done. rewrite app_assoc, <- app_assoc.
      change 5%nat with (2 + 3)%nat. by rewrite <- drop_drop, take_drop, take_drop.
    + rewrite length_app. cbn [length]. rewrite length_app. cbn [length].
      rewrite !length_take, !length_drop. lia.
  - destruct (Nat.eqb_spec (length l) 10); [lia|done].
Qed.

(** When the snapshot of today has no row for the loan, the caller can tell:
    the error is both "current snapshot unavailable" and "not found".  Errors of
    past dates are passed on unchanged. *)
Theorem missing_exact_position service account asOf contract e :
  let today := NewDate (now service) (Some (location service)) in
  empty (TrimSpace account) = false → Date_IsZero asOf = false → key asOf ≤ key today →
  fincloud_ResolveLoan service (TrimSpace account) (location service) = Ok contract →
  empty (TrimSpace (cd_PrimaryAccount contract)) = false → ~ closed_by contract asOf →
  key (cutoff service) < key asOf →
  exactPosition service (TrimSpace (cd_PrimaryAccount contract)) asOf today = Fail e →
  ∃ e', GetLoanPosition service account asOf = Fail e' ∧
    (key asOf ≠ key today → e' = e) ∧
    (key asOf = key today → Is e ErrNotFound = true → Is e' ErrCurrentSnapshot = true ∧ Is e' ErrNotFound = true).
Proof.
  intros today Ha Hz Hle Hc Hp Hopen Hlt He. subst today.
  remember (NewDate (now service) (Some (location service))) as today eqn:Et.
  assert (After asOf today = false) as Haf by (unfold After; by apply Z.ltb_ge).
  assert (After asOf (cutoff service) = true) as Hac by (unfold After; by apply Z.ltb_lt).
  unfold GetLoanPosition, resolvePosition, exact_after_cutoff. rewrite <- Et, Ha, Hz, Haf, Hc, Hac.
  cbn [orb fail_if mbind result_bind]. rewrite Hp. cbn [fail_if mbind result_bind].
  destruct (negb (Date_IsZero _) && _) eqn:Hclosed; [by apply closed_test in Hclosed|].
  rewrite He. destruct (Equal asOf today) eqn:E; cbn [andb].
  - destruct (Is e ErrNotFound) eqn:Hnf; cbn [mbind result_bind]; eexists; (split; [reflexivity|]).
    + split; [intros Hne; by apply Z.eqb_eq in E|]. intros _ _. simpl. by rewrite Hnf.
    + split; [done|]. by intros _ ?.
  - exists e. cbn [mbind result_bind]. split_and!; [done|done|]. intros Heq. by apply Z.eqb_neq in E.
Qed.

(** ** A concrete service over the loan of [Calculator.v] *)

Definition ex_position (source : PositionSource) (account : string) (asOf : Date) : res LoanPosition :=
  Ok {| lp_AsOf := asOf; lp_LoanStartDate := MkDate 2025 9 12; lp_AccountNumber := account;
        lp_PrincipalOutstanding := MoneyFromInt 900; lp_PrincipalDue := MoneyFromInt 100;
        lp_InterestDue := MoneyZero; lp_PenaltyDue := MoneyZero; lp_CollectabilityBI := 2;
        lp_UnappliedAmount := MoneyZero; lp_Source := Some source; lp_Branch := EmptyString;
        lp_Product := EmptyString; lp_CIF := EmptyString; lp_ContractNumber := EmptyString;
        lp_SourceUpdatedAt := None |}.
Definition ex_evidence : list ContractualInstallmentEvidence :=
  [{| ev_Number := 2; ev_RawDueDate := "2025-12-12 00:00:00"; ev_RawPaymentStatus := EmptyString |};
   {| ev_Number := 0; ev_RawDueDate := EmptyString; ev_RawPaymentStatus := EmptyString |};
   {| ev_Number := 1; ev_RawDueDate := " 2025-11-12"; ev_RawPaymentStatus := EmptyString |};
   {| ev_Number := 3; ev_RawDueDate := "2026-01-12"; ev_RawPaymentStatus := EmptyString |}].
Definition ex_contract : ContractData :=
  {| cd_PrimaryAccount := "primary"; cd_AlternateAccount := "0123456789"; cd_CIF := EmptyString;
     cd_CustomerName := EmptyString; cd_Branch := EmptyString; cd_Product := EmptyString;
     cd_PlafondLimit := MoneyFromInt 1200; cd_TenorMonths := 3; cd_FlatRatePercent := MoneyFromInt 12;
     cd_ReferenceRatePercent := MoneyZero; cd_CurrentCollectability := 1; cd_CurrentPrincipalDue := MoneyZero;
     cd_CurrentInterestDue := MoneyZero; cd_PenaltyDue := MoneyZero; cd_Status := EmptyString;
     cd_CloseDate := ZeroDate; cd_RawScheduleCount := 4; cd_ContractScheduleEvidence := Some ex_evidence;
     cd_ContractSchedule := []; cd_Repayments := ex_repayments |}.
Definition ex_service (interest_type : string) : Service :=
  {| fincloud_ResolveLoan := fun _ _ => Ok ex_contract;
     mso_HistoricalPosition := ex_position SourceMSO;
     mso_OpeningState := fun account _ =>
       Ok {| op_AccountNumber := account; op_InterestType := interest_type;
             op_PrincipalOutstanding := MoneyFromInt 1200; op_PrincipalDue := MoneyZero;
             op_InterestDue := MoneyZero; op_PenaltyDue := MoneyZero; op_CollectabilityBI := 1 |};
     dwh_ExactPosition := ex_position SourceDWH;
     dwh_CollectabilityTimeline := fun _ _ _ => Ok ex_timeline;
     snapshot_ExactPosition := fun account asOf =>
       if seqb account "primary" then Fail (Sentinel ErrNotFound) else ex_position SourceTodaySnapshot account asOf;
     calculator_Calculate := Calculate exact;
     calculator_BuildSchedule := BuildSchedule exact;
     location := fixed_zone 25200;
     cutoff := MkDate 2025 10 12;
     now := time_date 2025 12 31 36000 (fixed_zone 25200) |}.

Lemma ex_position_ok source account asOf p :
  ex_position source account asOf = Ok p → position_ok p ∧ lp_AsOf p = asOf ∧ lp_Source p = Some source.
Proof. intros [= <-]. split_and!; [by split|done|done]. Qed.

#[export] Instance ex_service_evidence interest_type : Evidence (ex_service interest_type).
Proof.
  split; simpl; try (intros account asOf p _ H; by apply (ex_position_ok _ account)).
  - intros account asOf p _ H. destruct (seqb account "primary"); [done|]. by apply (ex_position_ok _ account).
  - intros account date o [= <-]. by split.
  - apply Calculate_sound.
Qed.

Lemma GetLoanPosition_lineage_witness :
  let r := GetLoanPosition (ex_service "10") " account " (MkDate 2025 12 30) in
  is_ok r = true ∧
  ∃ contract, fincloud_ResolveLoan (ex_service "10") "account" (fixed_zone 25200) = Ok contract ∧
    ∀ r', r = Ok r' → lineage (ex_service "10") contract (MkDate 2025 12 30)
      (NewDate (now (ex_service "10")) (Some (fixed_zone 25200))) r'.
Proof.
  split; [vm_compute; reflexivity|]. exists ex_contract. split; [reflexivity|]. intros r' H.
  destruct (GetLoanPosition_lineage (ex_service "10") " account " (MkDate 2025 12 30) r' _ ltac:(vm_compute; intuition discriminate) H)
    as (_ & _ & contract & Hc & Hl).
  injection Hc as <-. exact Hl.
Defined.

Lemma GetLoanPosition_well_formed_witness :
  match GetLoanPosition (ex_service "20") "account" (MkDate 2025 12 30) with
  | Ok r => lp_AsOf (rv_Position r) = MkDate 2025 12 30
  | Fail _ => False
  end.
Proof.
  destruct (GetLoanPosition (ex_service "20") "account" (MkDate 2025 12 30)) as [r|e] eqn:E.
  - apply (GetLoanPosition_well_formed (ex_service "20") "account" (MkDate 2025 12 30) r _ ltac:(vm_compute; intuition discriminate) E).
  - vm_compute in E. discriminate E.
Defined.

Lemma normalizeContractSchedule_correct_witness :
  normalizeContractSchedule (reverse ex_evidence) 3 (fixed_zone 25200) = Ok ex_installments ∧
  is_ok (BuildSchedule {| Round := None |} (MoneyFromInt 1200) 3 (MoneyFromInt 12) ex_installments) = true.
Proof.
  assert (normalizeContractSchedule ex_evidence 3 (fixed_zone 25200) = Ok ex_installments) as H
    by (vm_compute; reflexivity).
  destruct (normalizeContractSchedule_correct ex_evidence (reverse ex_evidence) 3 (fixed_zone 25200)
    ex_installments (MoneyFromInt 1200) (MoneyFromInt 12) H) as (_ & _ & _ & Hp & Hz).
  split.
  - apply Hp, reverse_Permutation.
  - apply Hz; [repeat constructor|reflexivity|lia|discriminate].
Defined.

Lemma formatFincloudAltNoToMSO_faithful_witness :
  formatFincloudAltNoToMSO " 0123456789" = "01.234.56789"%string ∧
  ReplaceAll (formatFincloudAltNoToMSO " 0123456789") "." EmptyString = "0123456789"%string.
Proof.
  split; [vm_compute; reflexivity|].
  apply (formatFincloudAltNoToMSO_faithful " 0123456789"); vm_compute; reflexivity.
Defined.

Lemma missing_exact_position_witness :
  ∃ e', GetLoanPosition (ex_service "10") "account" (MkDate 2025 12 31) = Fail e' ∧
    Is e' ErrCurrentSnapshot = true ∧ Is e' ErrNotFound = true.
Proof.
  destruct (missing_exact_position (ex_service "10") "account" (MkDate 2025 12 31) ex_contract
    (Sentinel ErrNotFound)) as (e' & He & _ & Ht);
    [reflexivity|reflexivity|vm_compute; discriminate|reflexivity|reflexivity|
     intros [H _]; discriminate H|reflexivity|vm_compute; reflexivity|].
  exists e'. split; [exact He|]. apply Ht; vm_compute; reflexivity.
Defined.
