(* ===== verification/Repositories.v ===== *)
(** The two evidence repositories, [internal/dwh/repository.go] and
    [internal/mso/repository.go]: what they make of the rows that the warehouse
    and the MSO database answer with.

    The databases are fields of a record: a query is a function of its arguments
    that gives a row, [sql.ErrNoRows] or another error.  The class
    [WarehouseLaws] states the two clauses of the SQL that the code relies on. *)
From stdpp Require Import base list strings sorting.
From Stdlib Require Import ZArith Lia Ascii QArith Lqa.
From S2P Require Import Prelude GoStrings GoErrors GoSlices GoTime Dates Money LoanModel Calculator Position.
Local Open Scope Z_scope.

Inductive query_error := NoRows | QueryFailed (e : err).

(** ** DWH *)

Record positionRow := {
  pr_AsOf : time;
  pr_AccountNumber : string;
  pr_PeriodStart : option string;  (* sql.NullString *)
  pr_PrincipalOutstanding : Money;
  pr_CollectabilityBI : Z;
  pr_PrincipalDue : Money;
  pr_InterestDue : Money;
  pr_PenaltyDue : Money
}.
Record collectabilityRow := { cr_Date : time; cr_Value : Z }.

Record Warehouse := {
  (* WHERE no_rekening = ? AND as_of_date = ? LIMIT 1 *)
  dwh_position : string → string → result query_error positionRow;
  (* WHERE no_rekening = ? AND as_of_date >= ? AND as_of_date <= ? ORDER BY as_of_date ASC *)
  dwh_timeline : string → string → string → result err (list collectabilityRow);
  dwh_location : Location
}.

Definition validateBalances (principal principalDue interestDue penaltyDue : Money) (collectability : Z) : res unit :=
  fail_if (IsNegative principal || IsNegative principalDue || IsNegative interestDue || IsNegative penaltyDue ||
           money_gt principalDue principal || (collectability <? 1) || (5 <? collectability))
          (errorf ErrHistoricalEvidence "%w: invalid DWH loan position").

Definition dwh_ExactPosition (db : Warehouse) (account : string) (asOf : Date) : res LoanPosition :=
  match dwh_position db (TrimSpace account) (Date_String asOf) with
  | Fail NoRows => Fail (JoinErr [Sentinel ErrNotFound; Sentinel ErrHistoricalEvidence])
  | Fail (QueryFailed e) => Fail (JoinErr [Sentinel ErrDWHUnavailable; e])
  | Ok row =>
      validateBalances (pr_PrincipalOutstanding row) (pr_PrincipalDue row) (pr_InterestDue row)
        (pr_PenaltyDue row) (pr_CollectabilityBI row);;
      let loc := dwh_location db in
      let periodStart := TrimSpace (match pr_PeriodStart row with Some s => s | None => EmptyString end) in
      let invalid := Fail (errorf ErrHistoricalEvidence "%w: invalid DWH periode_mulai") in
      match pr_PeriodStart row, parse_time layout_slash periodStart loc with
      | None, _ | _, None => invalid
      | Some _, Some parsedStart =>
          if negb (seqb (format_time layout_slash parsedStart loc) periodStart) then invalid else
          Ok {| lp_AsOf := NewDate (pr_AsOf row) (Some loc);
                lp_LoanStartDate := NewDate parsedStart (Some loc);
                lp_AccountNumber := TrimSpace (pr_AccountNumber row);
                lp_PrincipalOutstanding := pr_PrincipalOutstanding row;
                lp_PrincipalDue := pr_PrincipalDue row; lp_InterestDue := pr_InterestDue row;
                lp_PenaltyDue := pr_PenaltyDue row; lp_CollectabilityBI := pr_CollectabilityBI row;
                lp_UnappliedAmount := MoneyZero; lp_Source := Some SourceDWH; lp_Branch := EmptyString;
                lp_Product := EmptyString; lp_CIF := EmptyString; lp_ContractNumber := EmptyString;
                lp_SourceUpdatedAt := None |}
      end
  end.

(** The loop over the rows; [previous] is the last point appended. *)
Fixpoint timeline_points (loc : Location) (previous : option CollectabilityPoint)
    (rows : list collectabilityRow) : res (list CollectabilityPoint) :=
  match rows with
  | [] => Ok []
  | row :: rest =>
      fail_if ((cr_Value row <? 1) || (5 <? cr_Value row))
              (errorf ErrHistoricalEvidence "%w: DWH collectability outside 1..5");;
      let point := {| cp_Date := NewDate (cr_Date row) (Some loc); cp_Value := cr_Value row |} in
      let append := (points ← timeline_points loc (Some point) rest; Ok (point :: points)) in
      match previous with
      | Some p =>
          if Equal (cp_Date p) (cp_Date point)
          then fail_if (negb (cp_Value p =? cp_Value point))
                       (errorf ErrHistoricalEvidence "%w: conflicting DWH collectability on %s");;
               timeline_points loc previous rest
          else append
      | None => append
      end
  end.

Definition CollectabilityTimeline (db : Warehouse) (account : string) (from to : Date)
    : res (list CollectabilityPoint) :=
  if Before to from then Ok [] else
  match dwh_timeline db (TrimSpace account) (Date_String from) (Date_String to) with
  | Fail e => Fail (JoinErr [Sentinel ErrDWHUnavailable; e])
  | Ok rows => timeline_points (dwh_location db) None rows
  end.

(** ** MSO *)

Record rawStateRow := {
  sr_PrincipalOutstanding : Money;
  sr_PrincipalDue : Money;
  sr_InterestDue : Money;
  sr_PenaltyDue : Money;
  sr_CollectabilityCode : string
}.
Record stateRow := { st_row : rawStateRow; st_CollectabilityBI : Z }.

Record MSODatabase := {
  mso_state : string → string → result query_error rawStateRow;
  mso_interest_type : string → result query_error string;
  mso_debtor_type : string → result query_error string;
  mso_upper : string → string  (* Unicode upper case outside ASCII *)
}.

Definition DebtorTypeByAlternateCIF (db : MSODatabase) (cif : string) : res string :=
  match mso_debtor_type db cif with
  | Fail NoRows => Fail (Sentinel ErrNotFound)
  | Fail (QueryFailed e) => Fail (JoinErr [Sentinel ErrMSOUnavailable; e])
  | Ok debtorType => Ok debtorType
  end.

Definition parseCollectabilityBI (upper : string → string) (value : string) : res Z :=
  let v := to_upper_with upper (TrimSpace value) in
  let among := fun codes => existsb (seqb v) codes in
  if among ["1"; "L"]%string then Ok 1 else
  if among ["2"; "DPK"; "DP"]%string then Ok 2 else
  if among ["3"; "KL"]%string then Ok 3 else
  if among ["4"; "D"]%string then Ok 4 else
  if among ["5"; "M"]%string then Ok 5 else
  Fail (errorf ErrHistoricalEvidence "%w: invalid MSO collectability %q").

Definition state (db : MSODatabase) (account : string) (asOf : Date) : res stateRow :=
  match mso_state db (TrimSpace account) (Date_String asOf) with
  | Fail NoRows => Fail (JoinErr [Sentinel ErrNotFound; Sentinel ErrHistoricalEvidence])
  | Fail (QueryFailed e) => Fail (JoinErr [Sentinel ErrMSOUnavailable; e])
  | Ok row =>
      collectability ← parseCollectabilityBI (mso_upper db) (sr_CollectabilityCode row);
      fail_if (IsNegative (sr_PrincipalOutstanding row) || IsNegative (sr_PrincipalDue row) ||
               IsNegative (sr_InterestDue row) || IsNegative (sr_PenaltyDue row) ||
               money_gt (sr_PrincipalDue row) (sr_PrincipalOutstanding row) ||
               (collectability <? 1) || (5 <? collectability))
              (errorf ErrHistoricalEvidence "%w: invalid MSO loan position");;
      Ok {| st_row := row; st_CollectabilityBI := collectability |}
  end.

Definition HistoricalPosition (db : MSODatabase) (account : string) (asOf : Date) : res LoanPosition :=
  row ← state db account asOf;
  Ok {| lp_AsOf := asOf; lp_LoanStartDate := ZeroDate; lp_AccountNumber := TrimSpace account;
        lp_PrincipalOutstanding := sr_PrincipalOutstanding (st_row row);
        lp_PrincipalDue := sr_PrincipalDue (st_row row); lp_InterestDue := sr_InterestDue (st_row row);
        lp_PenaltyDue := sr_PenaltyDue (st_row row); lp_CollectabilityBI := st_CollectabilityBI row;
        lp_UnappliedAmount := MoneyZero; lp_Source := Some SourceMSO; lp_Branch := EmptyString;
        lp_Product := EmptyString; lp_CIF := EmptyString; lp_ContractNumber := EmptyString;
        lp_SourceUpdatedAt := None |}.

Definition OpeningState (db : MSODatabase) (account : string) (cutoff : Date) : res OpeningLoanState :=
  row ← state db account cutoff;
  match mso_interest_type db (TrimSpace account) with
  | Fail NoRows => Fail (JoinErr [Sentinel ErrNotFound; Sentinel ErrHistoricalEvidence])
  | Fail (QueryFailed e) => Fail (JoinErr [Sentinel ErrMSOUnavailable; Wrap "read interest type: %w" e])
  | Ok interestType =>
      Ok {| op_AccountNumber := TrimSpace account; op_InterestType := TrimSpace interestType;
            op_PrincipalOutstanding := sr_PrincipalOutstanding (st_row row);
            op_PrincipalDue := sr_PrincipalDue (st_row row); op_InterestDue := sr_InterestDue (st_row row);
            op_PenaltyDue := sr_PenaltyDue (st_row row); op_CollectabilityBI := st_CollectabilityBI row |}
  end.

(** ** What the SQL promises *)

Class WarehouseLaws (db : Warehouse) : Prop := {
  (* as_of_date = ? *)
  dwh_where : ∀ account asOf row, dwh_position db account asOf = Ok row →
    Date_String (NewDate (pr_AsOf row) (Some (dwh_location db))) = asOf;
  (* ORDER BY as_of_date ASC *)
  dwh_ordered : ∀ account from to rows, dwh_timeline db account from to = Ok rows →
    StronglySorted (λ a b, key (NewDate (cr_Date a) (Some (dwh_location db))) ≤
                           key (NewDate (cr_Date b) (Some (dwh_location db)))) rows
}.

(** ** Lemmas *)

Lemma validateBalances_Ok p pd i pen c :
  validateBalances p pd i pen c = Ok tt →
  (0 <= rat pd <= rat p)%Q ∧ (0 <= rat i)%Q ∧ (0 <= rat pen)%Q ∧ 1 ≤ c ≤ 5.
Proof.
  unfold validateBalances. intros H. inv_ok. rewrite !orb_false_iff in H.
  destruct H as [[[[[[_ H2] H3] H4] H5] H6] H7].
  rewrite !IsNegative_false in *. rewrite money_gt_false in H5. to_prop in H6. to_prop in H7.
  split_and!; try done; lia.
Qed.

Lemma dwh_ExactPosition_Ok db account asOf p :
  WarehouseLaws db → date_ok asOf → dwh_ExactPosition db account asOf = Ok p →
  position_ok p ∧ lp_AsOf p = asOf ∧ lp_Source p = Some SourceDWH.
Proof.
  intros Hlaw Hdate H. unfold dwh_ExactPosition in H.
  destruct (dwh_position db _ _) as [row|[|]] eqn:Hrow; [|done..].
  apply bind_Ok in H as ([] & Hb & H). apply validateBalances_Ok in Hb as (Hd & Hi & Hp & Hc).
  destruct (pr_PeriodStart row); [|done]. destruct (parse_time _ _ _); [|done].
  destruct (negb _); [done|]. inv_ok. cbn [lp_AsOf lp_Source]. split_and!; [|apply date_text_inj; [done|apply NewDate_valid|by eapply dwh_where]|done].
  split; simpl; first [done|apply Qle_refl].
Qed.

Lemma state_Ok db account asOf row :
  state db account asOf = Ok row →
  let r := st_row row in
  (0 <= rat (sr_PrincipalDue r) <= rat (sr_PrincipalOutstanding r))%Q ∧ (0 <= rat (sr_InterestDue r))%Q ∧
  (0 <= rat (sr_PenaltyDue r))%Q ∧ 1 ≤ st_CollectabilityBI row ≤ 5.
Proof.
  unfold state. destruct (mso_state db _ _) as [raw|[|]]; [|done..]. intros H.
  apply bind_Ok in H as (c & _ & H). apply bind_Ok in H as ([] & Hb & [= <-]). simpl.
  eapply validateBalances_Ok. unfold validateBalances. apply fail_if_Ok in Hb. by rewrite Hb.
Qed.

(** The timeline that the warehouse returns is one value per day, in order. *)
Definition covered (loc : Location) (previous : option CollectabilityPoint)
    (points : list CollectabilityPoint) (row : collectabilityRow) : Prop :=
  ∃ q, (previous = Some q ∨ q ∈ points) ∧ point_key q = key (NewDate (cr_Date row) (Some loc)) ∧
    cp_Value q = cr_Value row.

Lemma timeline_points_Ok loc previous rows points :
  timeline_points loc previous rows = Ok points →
  StronglySorted (λ a b, key (NewDate (cr_Date a) (Some loc)) ≤ key (NewDate (cr_Date b) (Some loc))) rows →
  (∀ p, previous = Some p → Forall (λ r, point_key p ≤ key (NewDate (cr_Date r) (Some loc))) rows) →
  StronglySorted (λ p q, point_key p < point_key q) points ∧ timeline_ok points ∧
  (∀ p, previous = Some p → Forall (λ q, point_key p < point_key q) points) ∧
  Forall (covered loc previous points) rows.
Proof.
  revert previous points. induction rows as [|row rows IH]; intros previous points H Hs Hprev; cbn [timeline_points] in H.
  { inv_ok. split_and!; constructor. }
  apply bind_Ok in H as ([] & Hv & H). apply fail_if_Ok in Hv. to_prop in Hv.
  inversion Hs as [|? ? Hs' Hrow]; subst. set (k := key (NewDate (cr_Date row) (Some loc))) in *.
  set (point := {| cp_Date := NewDate (cr_Date row) (Some loc); cp_Value := cr_Value row |}) in *.
  assert (∀ points', timeline_points loc (Some point) rows = Ok points' →
    (∀ p, previous = Some p → point_key p < k) →
    StronglySorted (λ p q, point_key p < point_key q) (point :: points') ∧ timeline_ok (point :: points') ∧
    (∀ p, previous = Some p → Forall (λ q, point_key p < point_key q) (point :: points')) ∧
    Forall (covered loc previous (point :: points')) (row :: rows)) as Happend.
  { intros points' H' Hlt. destruct (IH (Some point) points' H' Hs') as (Hsorted & Hok & Hgt & Hin).
    { intros p [= <-]. exact Hrow. }
    specialize (Hgt point eq_refl). split_and!.
    - by constructor.
    - constructor; [simpl; lia|done].
    - intros p Hp. specialize (Hlt p Hp). constructor; [done|]. eapply Forall_impl; [exact Hgt|].
      intros q Hq. cbn beta in *. change (point_key point) with k in Hq. lia.
    - constructor; [exists point; split_and!; [right; left|done|done]|].
      eapply Forall_impl; [exact Hin|]. intros row' (q & [[= <-]|Hq] & Hk & Hval);
        [exists point|exists q]; (split_and!; [right|done|done]); [left|by right]. }
  destruct previous as [p|].
  - specialize (Hprev p eq_refl). apply Forall_cons in Hprev as [Hpk Hprev]. unfold Equal in H.
    destruct (Z.eqb_spec (key (cp_Date p)) (key (cp_Date point))) as [E|E].
    + apply bind_Ok in H as ([] & Hval & H). apply fail_if_Ok, negb_false_iff, Z.eqb_eq in Hval.
      destruct (IH (Some p) points H Hs') as (Hsorted & Hok & Hgt & Hin); [by intros ? [= <-]|].
      split_and!; [done|done|done|]. constructor; [|done]. exists p. split_and!; [by left|done|done].
    + apply bind_Ok in H as (points' & H' & [= <-]). apply Happend; [done|].
      intros ? [= <-]. change (key (cp_Date point)) with k in E. simpl in Hpk. lia.
  - apply bind_Ok in H as (points' & H' & [= <-]). by apply Happend.
Qed.

Lemma OpeningState_Ok db account date o : OpeningState db account date = Ok o → opening_ok o.
Proof.
  unfold OpeningState. intros H. apply bind_Ok in H as (row & Hs & H).
  apply state_Ok in Hs as (Hd & Hi & Hp & Hc). destruct (mso_interest_type db _) as [t|[|]]; [|done..].
  injection H as <-. split; [|done]. unfold validateOpening. simpl.
  assert (IsNegative (sr_PrincipalOutstanding (st_row row)) = false) as -> by (rewrite IsNegative_false; lra).
  assert (IsNegative (sr_PrincipalDue (st_row row)) = false) as -> by (rewrite IsNegative_false; lra).
  assert (IsNegative (sr_InterestDue (st_row row)) = false) as -> by (by rewrite IsNegative_false).
  assert (money_gt (sr_PrincipalDue (st_row row)) (sr_PrincipalOutstanding (st_row row)) = false) as ->
    by (rewrite money_gt_false; lra). simpl.
  by replace ((st_CollectabilityBI row <? 1) || (5 <? st_CollectabilityBI row)) with false by (symmetry; to_prop; lia).
Qed.

Lemma HistoricalPosition_Ok db account asOf p :
  HistoricalPosition db account asOf = Ok p → position_ok p ∧ lp_AsOf p = asOf ∧ lp_Source p = Some SourceMSO.
Proof.
  unfold HistoricalPosition. intros H. apply bind_Ok in H as (row & Hs & [= <-]).
  apply state_Ok in Hs as (Hd & Hi & Hp & Hc). split_and!; [|done|done].
  split; simpl; first [done|apply Qle_refl].
Qed.

Lemma validateTimeline_strict previous l :
  StronglySorted (λ p q, point_key p < point_key q) l → timeline_ok l →
  Forall (λ p, Date_IsZero (cp_Date p) = false) l →
  (∀ p, previous = Some p → Forall (λ q, point_key p < point_key q) l) →
  validateTimeline_from previous l = Ok tt.
Proof.
  intros Hs. revert previous. induction Hs as [|x l Hs IH Hx]; intros previous Hok Hz Hp; [done|]. cbn [validateTimeline_from].
  apply Forall_cons in Hok as [Hv Hok]. apply Forall_cons in Hz as [Hxz Hz]. rewrite Hxz, <- orb_assoc, orb_false_l.
  replace ((cp_Value x <? 1) || (5 <? cp_Value x)) with false by (symmetry; to_prop; lia).
  cbn [fail_if mbind result_bind].
  destruct previous as [p|].
  - specialize (Hp p eq_refl). apply Forall_cons in Hp as [Hpx _]. unfold Equal.
    destruct (Z.eqb_spec (point_key x) (point_key p)); [lia|]. cbn [andb fail_if mbind result_bind]. apply IH; try done. by intros ? [= <-].
  - cbn [fail_if mbind result_bind]. apply IH; try done. by intros ? [= <-].
Qed.

(** ** Properties *)

(** C29: the warehouse and MSO repositories keep the promises the position service
    relies on: every position they answer with is well formed (malformed rows are
    refused), is for the date asked for and names its source; every opening state
    passes the calculator's check. *)
Theorem repositories_answer db mso :
  WarehouseLaws db →
  answers SourceDWH (dwh_ExactPosition db) ∧ answers SourceMSO (HistoricalPosition mso) ∧
  (∀ account date o, OpeningState mso account date = Ok o → opening_ok o).
Proof.
  intros Hlaw. split_and!.
  - intros account asOf p Hd H. by eapply dwh_ExactPosition_Ok.
  - intros account asOf p _ H. by eapply HistoricalPosition_Ok.
  - apply OpeningState_Ok.
Qed.

(** The collectability timeline of the warehouse has one point per day, in
    strictly increasing order, with values 1..5, and every row of the query is
    one of them: duplicates agree.  Sorting it changes nothing and the
    calculator's check accepts it (dates after year zero). *)
Theorem CollectabilityTimeline_valid db account from to rows points :
  WarehouseLaws db → key from ≤ key to →
  dwh_timeline db (TrimSpace account) (Date_String from) (Date_String to) = Ok rows →
  CollectabilityTimeline db account from to = Ok points →
  StronglySorted (λ p q, point_key p < point_key q) points ∧ timeline_ok points ∧
  Forall (covered (dwh_location db) None points) rows ∧
  SortStableFunc by_point_date points = points ∧
  (Forall (λ p, Date_IsZero (cp_Date p) = false) points → validateTimeline points = Ok tt).
Proof.
  intros Hlaw Hle Hrows H. unfold CollectabilityTimeline, Before in H.
  destruct (Z.ltb_spec (key to) (key from)); [lia|]. rewrite Hrows in H.
  destruct (timeline_points_Ok _ _ _ _ H) as (Hs & Hok & _ & Hcov); [by eapply dwh_ordered|done|].
  split_and!; [done|done|done| |].
  - apply SortStableFunc_id. clear -Hs. induction Hs as [|p l Hs IH Hp]; constructor; [done|].
    eapply Forall_impl; [exact Hp|]. intros q Hq. apply by_point_date_true. cbn beta in Hq. lia.
  - intros Hz. by apply validateTimeline_strict.
Qed.

(** ** A concrete warehouse *)

Definition ex_instant (y m d : Z) : time := time_date y m d 0 (fixed_zone 25200).
Definition ex_warehouse : Warehouse :=
  {| dwh_position := fun _ asOf =>
       if seqb asOf "2025-12-30" then
         Ok {| pr_AsOf := ex_instant 2025 12 30; pr_AccountNumber := " 1 "; pr_PeriodStart := Some "12/09/2025"%string;
               pr_PrincipalOutstanding := MoneyFromInt 800; pr_CollectabilityBI := 2;
               pr_PrincipalDue := MoneyZero; pr_InterestDue := MoneyZero; pr_PenaltyDue := MoneyZero |}
       else Fail NoRows;
     dwh_timeline := fun _ _ _ =>
       Ok [{| cr_Date := ex_instant 2025 11 1; cr_Value := 1 |}; {| cr_Date := ex_instant 2025 11 1; cr_Value := 1 |};
           {| cr_Date := ex_instant 2025 11 2; cr_Value := 2 |}];
     dwh_location := fixed_zone 25200 |}.
Definition ex_mso : MSODatabase :=
  {| mso_state := fun _ _ => Ok {| sr_PrincipalOutstanding := MoneyFromInt 1200; sr_PrincipalDue := MoneyZero;
       sr_InterestDue := MoneyZero; sr_PenaltyDue := MoneyZero; sr_CollectabilityCode := " dpk " |};
     mso_interest_type := fun _ => Ok "10 "%string; mso_debtor_type := fun _ => Fail NoRows;
     mso_upper := fun s => s |}.

#[export] Instance ex_warehouse_laws : WarehouseLaws ex_warehouse.
Proof.
  split.
  - intros account asOf row. cbn [ex_warehouse dwh_position]. unfold seqb.
    case_bool_decide as E; [|done]. intros [= <-]. rewrite E. vm_compute. reflexivity.
  - intros account from to rows [= <-]. repeat constructor; vm_compute; discriminate.
Qed.

Lemma repositories_answer_witness :
  is_ok (dwh_ExactPosition ex_warehouse "1" (MkDate 2025 12 30)) = true ∧
  is_ok (OpeningState ex_mso "1" (MkDate 2025 10 12)) = true ∧
  answers SourceDWH (dwh_ExactPosition ex_warehouse).
Proof.
  split; [vm_compute; reflexivity|]. split; [vm_compute; reflexivity|].
  apply (repositories_answer ex_warehouse ex_mso ex_warehouse_laws).
Defined.

Lemma CollectabilityTimeline_valid_witness :
  match CollectabilityTimeline ex_warehouse "1" (MkDate 2025 10 13) (MkDate 2025 12 30) with
  | Ok points => length points = 2%nat ∧ timeline_ok points
  | Fail _ => False
  end.
Proof.
  destruct (CollectabilityTimeline ex_warehouse "1" (MkDate 2025 10 13) (MkDate 2025 12 30)) as [points|e] eqn:E.
  - split; [vm_compute in E; injection E as <-; reflexivity|].
    eapply (CollectabilityTimeline_valid ex_warehouse "1" (MkDate 2025 10 13) (MkDate 2025 12 30) _ points
      ex_warehouse_laws); [vm_compute; discriminate|reflexivity|exact E].
  - vm_compute in E. discriminate E.
Defined.
