(* ===== verification/Snapshots.v ===== *)
(** The current loan snapshot, [internal/snapshot]: parsing the report of the
    day, validating it, replacing the stored snapshot in one transaction under a
    named lock, and answering for a position of today. *)
From stdpp Require Import base list strings gmap sorting.
From Stdlib Require Import ZArith Lia Ascii QArith Lqa.
From S2P Require Import Prelude GoStrings GoErrors Database GoTime GoCSV Dates Money LoanModel Decimal Calculator Position Repositories.
Local Open Scope Z_scope.

(** ** Parsing the report, [source.go] *)

Definition canonicalHeader (lower : string → string) (value : string) : string :=
  Join (Fields (ReplaceAll (to_lower_with lower (TrimSpace value)) "_" " ")) " ".

Abbreviation columns := (gmap string nat).

Fixpoint header_columns (lower : string → string) (index : nat) (header : list string) (acc : columns) : columns :=
  match header with
  | [] => acc
  | name :: rest => header_columns lower (S index) rest (<[canonicalHeader lower name := index]> acc)
  end.

Definition required_columns : list string :=
  ["date params"; "loan account no"; "loan outstanding"; "bi collectability"; "principal arrears";
   "interest arrears"; "penalty arrears"].

Definition cell (record : list string) (cols : columns) (name : string) : string :=
  match cols !! name with
  | None => EmptyString
  | Some index => match record !! index with Some value => value | None => EmptyString end
  end.

Definition blankRecord (record : list string) : bool := forallb (fun value => empty (TrimSpace value)) record.

Definition parseSourceMoney (raw : string) : res Money := NormalizeDecimal raw ≫= ParseMoney.

Fixpoint first_date (layouts : list (list layout_item)) (exact : bool) (raw : string) (loc : Location) : option Date :=
  match layouts with
  | [] => None
  | layout :: rest =>
      match parse_time layout raw loc with
      | Some value =>
          if exact && negb (seqb (format_time layout value loc) raw) then first_date rest exact raw loc
          else Some (NewDate value (Some loc))
      | None => first_date rest exact raw loc
      end
  end.
Definition parseSourceDate (raw : string) (loc : Location) : res Date :=
  of_option (first_date [layout_iso; layout_compact; layout_slash] false (TrimSpace raw) loc)
            (Msg "invalid date %q").
Definition parseLoanStartDate (raw : string) (loc : Location) : res Date :=
  of_option (first_date [layout_iso; layout_slash] true (TrimSpace raw) loc)
            (Msg "invalid loan start date %q").

Definition money_same (left right : Money) : bool := match Cmp left right with Eq => true | _ => false end.
Definition samePosition (left right : LoanPosition) : bool :=
  Equal (lp_AsOf left) (lp_AsOf right) && Equal (lp_LoanStartDate left) (lp_LoanStartDate right) &&
  money_same (lp_PrincipalOutstanding left) (lp_PrincipalOutstanding right) &&
  money_same (lp_PrincipalDue left) (lp_PrincipalDue right) &&
  money_same (lp_InterestDue left) (lp_InterestDue right) &&
  money_same (lp_PenaltyDue left) (lp_PenaltyDue right) &&
  (lp_CollectabilityBI left =? lp_CollectabilityBI right) && seqb (lp_Branch left) (lp_Branch right) &&
  seqb (lp_Product left) (lp_Product right) && seqb (lp_CIF left) (lp_CIF right) &&
  seqb (lp_ContractNumber left) (lp_ContractNumber right).

(** One data line; the position built from it *)
Definition parse_line (loc : Location) (businessDate : Date) (cols : columns) (startColumn : string)
    (record : list string) : res LoanPosition :=
  let get := cell record cols in
  let account := TrimSpace (get "loan account no"%string) in
  fail_if (empty account) (Msg "current snapshot line %d has empty account");;
  asOf ← match parseSourceDate (get "date params"%string) loc with
         | Ok asOf => if negb (Equal asOf businessDate)
                      then Fail (Msg "current snapshot line %d has invalid business date") else Ok asOf
         | Fail _ => Fail (Msg "current snapshot line %d has invalid business date")
         end;
  start ← match parseLoanStartDate (get startColumn) loc with
          | Ok start => if After start asOf
                        then Fail (Msg "current snapshot line %d has invalid loan start date") else Ok start
          | Fail _ => Fail (Msg "current snapshot line %d has invalid loan start date")
          end;
  let money := fun column message =>
    match parseSourceMoney (get column) with Ok m => Ok m | Fail e => Fail (Wrap message e) end in
  principal ← money "loan outstanding"%string "current snapshot line %d loan outstanding: %w"%string;
  principalDue ← money "principal arrears"%string "current snapshot line %d principal arrears: %w"%string;
  interestDue ← money "interest arrears"%string "current snapshot line %d interest arrears: %w"%string;
  penaltyDue ← money "penalty arrears"%string "current snapshot line %d penalty arrears: %w"%string;
  collectability ← match Atoi (TrimSpace (get "bi collectability"%string)) with
                   | Some c => if (c <? 1) || (5 <? c)
                               then Fail (Msg "current snapshot line %d has invalid collectability") else Ok c
                   | None => Fail (Msg "current snapshot line %d has invalid collectability")
                   end;
  fail_if (IsNegative principal || IsNegative principalDue || IsNegative interestDue || IsNegative penaltyDue ||
           money_gt principalDue principal)
          (Msg "current snapshot line %d has invalid balances");;
  let branch := bytes (TrimSpace (get "branch code"%string)) in
  let branch := let '(before, _, found) := cut_byte "-" branch in if (found : bool) then before else branch in
  Ok {| lp_AsOf := asOf; lp_LoanStartDate := start; lp_AccountNumber := account;
        lp_PrincipalOutstanding := principal; lp_PrincipalDue := principalDue; lp_InterestDue := interestDue;
        lp_PenaltyDue := penaltyDue; lp_CollectabilityBI := collectability; lp_UnappliedAmount := MoneyZero;
        lp_Source := Some SourceTodaySnapshot; lp_Branch := TrimSpace (of_bytes branch);
        lp_Product := TrimSpace (get "product id"%string); lp_CIF := TrimSpace (get "cif no"%string);
        lp_ContractNumber := TrimSpace (get "loan agreement no"%string); lp_SourceUpdatedAt := None |}.

Fixpoint parse_lines (loc : Location) (businessDate : Date) (cols : columns) (startColumn : string)
    (seen : gmap string LoanPosition) (records : list (res (list string))) : res (list LoanPosition) :=
  match records with
  | [] => Ok []
  | Fail e :: _ => Fail (Wrap "parse current snapshot line %d: %w" e)
  | Ok record :: rest =>
      if blankRecord record then parse_lines loc businessDate cols startColumn seen rest else
      row ← parse_line loc businessDate cols startColumn record;
      match seen !! lp_AccountNumber row with
      | Some previous =>
          fail_if (negb (samePosition previous row))
                  (Msg "current snapshot contains conflicting duplicate account %q");;
          parse_lines loc businessDate cols startColumn seen rest
      | None =>
          rows ← parse_lines loc businessDate cols startColumn (<[lp_AccountNumber row := row]> seen) rest;
          Ok (row :: rows)
      end
  end.

Definition strip_bom (body : list ascii) : list ascii :=
  let bom := [chr 239; chr 187; chr 191] in
  if has_prefix_bytes body bom then drop 3 body else body.

Definition parse (lower : string → string) (loc : Location) (body : list ascii) (businessDate : Date)
    : res (list LoanPosition) :=
  match csv_records "|" (strip_bom body) with
  | [] => Fail (Wrap "read current snapshot header: %w" (Msg "EOF"))
  | Fail e :: _ => Fail (Wrap "read current snapshot header: %w" e)
  | Ok header :: records =>
      let cols := header_columns lower 0 header ∅ in
      fail_if (negb (forallb (fun name => bool_decide (is_Some (cols !! name))) required_columns))
              (Msg "current snapshot report missing column %q");;
      startColumn ←
        (if bool_decide (is_Some (cols !! "start date"%string)) then Ok "start date"%string
         else if bool_decide (is_Some (cols !! "periode mulai"%string)) then Ok "periode mulai"%string
         else Fail (Msg "current snapshot report missing loan start date column"));
      rows ← parse_lines loc businessDate cols startColumn ∅ records;
      fail_if (bool_decide (rows = [])) (Msg "current snapshot report contains no data rows");;
      Ok rows
  end.

(** [download] is what the report service answers for the named report. *)
Definition FetchCurrentLoanPositions (lower : string → string) (loc : Location)
    (download : string → list string → res (list ascii)) (businessDate : Date) : res (list LoanPosition) :=
  body ← download "Loan Outstanding Details Report Today"%string [EmptyString];
  parse lower loc body businessDate.

(** ** The stored snapshot, [repository.go] *)

Record stored_row := {
  sto_AsOf : Date;
  sto_LoanStartDate : option Date;
  sto_PrincipalOutstanding : Money;
  sto_CollectabilityBI : Z;
  sto_PrincipalDue : Money;
  sto_InterestDue : Money;
  sto_PenaltyDue : Money;
  sto_Branch : string;   (* NULL is read back as the empty string *)
  sto_Product : string;
  sto_CIF : string;
  sto_ContractNumber : string;
  sto_SourceUpdatedAt : option time;
  sto_RefreshedAt : time
}.

Record Status := {
  LastAttemptedAt : option time;
  LastSuccessfulAt : option time;
  LastStatus : string;
  LastRowCount : Z;
  LastErrorSummary : option string
}.

(** The tables of the component: the snapshot by account number (its primary
    key), the single row of the refresh state, whether the named lock is held,
    and the audit events. *)
Inductive Trigger := TriggerStartup | TriggerScheduled | TriggerManual.
Inductive refresh_event :=
| RefreshStarted (trigger : Trigger)
| RefreshFailed (trigger : Trigger) (summary : string)
| RefreshSucceeded (trigger : Trigger) (rows : Z).

Record snapshot_tables := {
  snap_rows : gmap string stored_row;
  snap_state : Status;
  lock_held : bool;
  audit_log : list refresh_event
}.
Definition set_rows (s : snapshot_tables) (rows : gmap string stored_row) : snapshot_tables :=
  {| snap_rows := rows; snap_state := snap_state s; lock_held := lock_held s; audit_log := audit_log s |}.
Definition set_state (s : snapshot_tables) (state : Status) : snapshot_tables :=
  {| snap_rows := snap_rows s; snap_state := state; lock_held := lock_held s; audit_log := audit_log s |}.
Definition set_lock (s : snapshot_tables) (held : bool) : snapshot_tables :=
  {| snap_rows := snap_rows s; snap_state := snap_state s; lock_held := held; audit_log := audit_log s |}.
Definition add_event (s : snapshot_tables) (e : refresh_event) : snapshot_tables :=
  {| snap_rows := snap_rows s; snap_state := snap_state s; lock_held := lock_held s; audit_log := audit_log s ++ [e] |}.

(** A DECIMAL(30,10) column: the text of [Value], read back *)
Definition decimal_column (m : Money) : Money :=
  match ParseMoney (Value m) with Ok v => v | Fail _ => MoneyZero end.

Definition stored (row : LoanPosition) (refreshedAt : time) : stored_row :=
  {| sto_AsOf := lp_AsOf row; sto_LoanStartDate := Some (lp_LoanStartDate row);
     sto_PrincipalOutstanding := decimal_column (lp_PrincipalOutstanding row);
     sto_CollectabilityBI := lp_CollectabilityBI row;
     sto_PrincipalDue := decimal_column (lp_PrincipalDue row);
     sto_InterestDue := decimal_column (lp_InterestDue row);
     sto_PenaltyDue := decimal_column (lp_PenaltyDue row);
     sto_Branch := lp_Branch row; sto_Product := lp_Product row; sto_CIF := lp_CIF row;
     sto_ContractNumber := lp_ContractNumber row; sto_SourceUpdatedAt := lp_SourceUpdatedAt row;
     sto_RefreshedAt := refreshedAt |}.

(** INSERT ... VALUES (...), (...): a duplicate key fails the statement *)
Fixpoint insert_values (refreshedAt : time) (rows : list LoanPosition) (m : gmap string stored_row)
    : res (gmap string stored_row) :=
  match rows with
  | [] => Ok m
  | row :: rest =>
      match m !! lp_AccountNumber row with
      | Some _ => Fail (Msg "Duplicate entry")
      | None => insert_values refreshedAt rest (<[lp_AccountNumber row := stored row refreshedAt]> m)
      end
  end.

Fixpoint check_insertable (rows : list LoanPosition) : res unit :=
  match rows with
  | [] => Ok tt
  | row :: rest =>
      fail_if (Date_IsZero (lp_LoanStartDate row) || After (lp_LoanStartDate row) (lp_AsOf row))
              (errorf ErrHistoricalEvidence "%w: invalid snapshot loan start date");;
      fail_if (IsNegative (lp_PenaltyDue row))
              (errorf ErrCurrentSnapshot "%w: invalid snapshot penalty arrears");;
      check_insertable rest
  end.

Abbreviation sdb := (db snapshot_tables).

Definition insertRows (rows : list LoanPosition) (refreshedAt : time) : sdb unit :=
  lift (check_insertable rows);;
  wrapped "insert snapshot rows: %w"
    (statement (fun s => m ← insert_values refreshedAt rows (snap_rows s); Ok (tt, set_rows s m))).

Definition chunkSize : nat := 200.
(** The loop over chunks; [fuel] bounds the number of chunks *)
Fixpoint insert_chunks (fuel : nat) (rows : list LoanPosition) (refreshedAt : time) : sdb unit :=
  match fuel, rows with
  | O, _ | _, [] => mret tt
  | S fuel', _ =>
      insertRows (take chunkSize rows) refreshedAt;;
      insert_chunks fuel' (drop chunkSize rows) refreshedAt
  end.

Definition ReplaceAll (rows : list LoanPosition) (refreshedAt : time) : sdb unit :=
  transaction (Wrap "begin snapshot replacement: %w") (Wrap "commit snapshot replacement: %w") (
    wrapped "clear current snapshot: %w" (exec (fun s => set_rows s ∅));;
    insert_chunks (length rows) rows refreshedAt;;
    wrapped "record snapshot success: %w" (exec (fun s => set_state s
      {| LastAttemptedAt := LastAttemptedAt (snap_state s); LastSuccessfulAt := Some refreshedAt;
         LastStatus := "succeeded"; LastRowCount := Z.of_nat (length rows); LastErrorSummary := None |}))).

Definition get_Status : sdb Status := wrapped "read snapshot status: %w" (query snap_state).

Definition MarkAttempt (now : time) : sdb unit :=
  exec (fun s => set_state s
    {| LastAttemptedAt := Some now; LastSuccessfulAt := LastSuccessfulAt (snap_state s);
       LastStatus := "running"; LastRowCount := LastRowCount (snap_state s); LastErrorSummary := None |}).

Definition MarkFailure (now : time) (summary : string) : sdb unit :=
  exec (fun s => set_state s
    {| LastAttemptedAt := LastAttemptedAt (snap_state s); LastSuccessfulAt := LastSuccessfulAt (snap_state s);
       LastStatus := "failed"; LastRowCount := LastRowCount (snap_state s); LastErrorSummary := Some summary |}).

(** [GET_LOCK(name, 0)]: the lock, or no lock if somebody holds it *)
Definition AcquireRefreshLock : sdb bool :=
  wrapped "open snapshot lock connection: %w" (query (fun _ => tt));;
  wrapped "acquire snapshot lock: %w"
    (statement (fun s => if lock_held s then Ok (false, s) else Ok (true, set_lock s true))).
Definition release : sdb unit := exec (fun s => set_lock s false).

(** A call whose error is dropped *)
Definition best_effort {S} (c : db S unit) : db S unit := fun w => (Ok tt, snd (c w)).

(** The driver gives a DATE column as midnight UTC ([driverConfig.Loc]). *)
Definition date_column (date : Date) : time := Date_Time date None.

(** The position of a stored row, with its checks *)
Definition stored_position (loc : Location) (account : string) (asOf : Date) (row : stored_row) : res LoanPosition :=
  fail_if ((sto_CollectabilityBI row <? 1) || (5 <? sto_CollectabilityBI row) ||
           IsNegative (sto_PrincipalOutstanding row) || IsNegative (sto_PrincipalDue row) ||
           IsNegative (sto_InterestDue row) || IsNegative (sto_PenaltyDue row) ||
           money_gt (sto_PrincipalDue row) (sto_PrincipalOutstanding row))
          (errorf ErrCurrentSnapshot "%w: invalid stored position");;
  let missing := JoinErr [Sentinel ErrCurrentSnapshot; Sentinel ErrHistoricalEvidence;
                          Msg "snapshot loan start date is missing"] in
  let invalid := JoinErr [Sentinel ErrCurrentSnapshot; Sentinel ErrHistoricalEvidence;
                          Msg "invalid snapshot loan start date"] in
  start ← of_option (sto_LoanStartDate row) missing;
  fail_if (date_column start =? 0) missing;;
  loanStartDate ← match ParseDate (format_time layout_iso (date_column start) UTC) (Some loc) with
                  | Ok date => Ok date
                  | Fail _ => Fail invalid
                  end;
  fail_if (After loanStartDate asOf) invalid;;
  Ok {| lp_AsOf := NewDate (date_column (sto_AsOf row)) (Some loc);
        lp_LoanStartDate := loanStartDate; lp_AccountNumber := TrimSpace account;
        lp_PrincipalOutstanding := sto_PrincipalOutstanding row;
        lp_PrincipalDue := sto_PrincipalDue row; lp_InterestDue := sto_InterestDue row;
        lp_PenaltyDue := sto_PenaltyDue row; lp_CollectabilityBI := sto_CollectabilityBI row;
        lp_UnappliedAmount := MoneyZero; lp_Source := Some SourceTodaySnapshot;
        lp_Branch := sto_Branch row; lp_Product := sto_Product row; lp_CIF := sto_CIF row;
        lp_ContractNumber := sto_ContractNumber row;
        lp_SourceUpdatedAt := sto_SourceUpdatedAt row |}.

(** SELECT ... WHERE account_number=? AND as_of_date=? *)
Definition select_row (account : string) (asOf : Date) (s : snapshot_tables) : option stored_row :=
  row ← snap_rows s !! TrimSpace account;
  if seqb (Date_String (sto_AsOf row)) (Date_String asOf) then Some row else None.

Definition snapshot_ExactPosition (loc : Location) (account : string) (asOf : Date) : sdb LoanPosition := fun w =>
  match query (select_row account asOf) w with
  | (Fail e, w') => (Fail (JoinErr [Sentinel ErrCurrentSnapshot; e]), w')
  | (Ok None, w') => (Fail (JoinErr [Sentinel ErrNotFound; Sentinel ErrCurrentSnapshot]), w')
  | (Ok (Some row), w') => (stored_position loc account asOf row, w')
  end.

(** ** Refreshing, [service.go] *)

Fixpoint validate_rows (date : Date) (seen : gset string) (rows : list LoanPosition) : res unit :=
  match rows with
  | [] => Ok tt
  | row :: rest =>
      let account := TrimSpace (lp_AccountNumber row) in
      fail_if (empty account || negb (Equal (lp_AsOf row) date) || Date_IsZero (lp_LoanStartDate row) ||
               After (lp_LoanStartDate row) date || IsNegative (lp_PrincipalOutstanding row) ||
               IsNegative (lp_PrincipalDue row) || IsNegative (lp_InterestDue row) ||
               IsNegative (lp_PenaltyDue row) ||
               money_gt (lp_PrincipalDue row) (lp_PrincipalOutstanding row) ||
               (lp_CollectabilityBI row <? 1) || (5 <? lp_CollectabilityBI row))
              (Msg "invalid snapshot row for account %q");;
      fail_if (bool_decide (account ∈ seen)) (Msg "duplicate snapshot account %q");;
      validate_rows date ({[account]} ∪ seen) rest
  end.
Definition validateRows (rows : list LoanPosition) (date : Date) : res unit :=
  fail_if (bool_decide (rows = [])) (Msg "snapshot source returned no rows");;
  validate_rows date ∅ rows.

(** [safeSummary] of an error whose text is given *)
Definition safeSummary (text : string) : string :=
  let summary := bytes (Join (Fields text) " ") in
  if (500 <? length summary)%nat then of_bytes (take 500 summary) else of_bytes summary.

Definition IsUnavailable (e : err) : bool := Is e ErrCurrentSnapshot.

Record refresh_environment := {
  rf_location : Location;
  rf_fetch : Date → res (list LoanPosition);   (* FetchCurrentLoanPositions *)
  rf_error_text : err → string;                (* err.Error() *)
  rf_now : time; rf_now_replace : time; rf_now_end : time  (* the readings of the clock, in order *)
}.

(** Fetching, validating and replacing *)
Definition refresh_attempt (env : refresh_environment) : sdb Z :=
  let businessDate := NewDate (rf_now env) (Some (rf_location env)) in
  rows ← lift (rf_fetch env businessDate);
  lift (validateRows rows businessDate);;
  ReplaceAll rows (rf_now_replace env);;
  mret (Z.of_nat (length rows)).

(** Recording how the attempt ended; what fails here is dropped *)
Definition finish_refresh (env : refresh_environment) (trigger : Trigger) (r : res Z) : sdb Z :=
  match r with
  | Fail e =>
      let summary := safeSummary (rf_error_text env e) in
      best_effort (MarkFailure (rf_now_end env) summary);;
      best_effort (exec (fun s => add_event s (RefreshFailed trigger summary)));;
      db_fail e
  | Ok n =>
      best_effort (exec (fun s => add_event s (RefreshSucceeded trigger n)));;
      mret n
  end.

Definition refresh_body (env : refresh_environment) (trigger : Trigger) : sdb Z := fun w =>
  let '(r, w1) := refresh_attempt env w in finish_refresh env trigger r w1.

(** The part of [Refresh] that runs with the lock held *)
Definition refresh_locked (env : refresh_environment) (trigger : Trigger) : sdb Z :=
  wrapped "record snapshot attempt: %w" (MarkAttempt (rf_now env));;
  best_effort (exec (fun s => add_event s (RefreshStarted trigger)));;
  refresh_body env trigger.

(** [defer release()] *)
Definition releasing {A} (c : sdb A) : sdb A := fun w => let '(r, w1) := c w in (r, snd (release w1)).

Definition Refresh (env : refresh_environment) (trigger : Trigger) : sdb Z :=
  acquired ← AcquireRefreshLock;
  if negb acquired then db_fail (Sentinel ErrRefreshInProgress) else releasing (refresh_locked env trigger).

(** ** Calls that leave a part of the tables alone *)

Lemma keeps_best_effort {S A} (f : S → A) (c : db S unit) : keeps f c → keeps f (best_effort c).
Proof. intros Hc w r w' [= <- <-]. destruct (c w) as [r w1] eqn:E. by eapply Hc. Qed.
#[export] Hint Resolve keeps_best_effort : thor.

(** ** Replacing *)

Definition snapshot_of (rows : list LoanPosition) (t : time) : gmap string stored_row :=
  list_to_map ((λ row, (lp_AccountNumber row, stored row t)) <$> rows).

Lemma insert_values_Ok t rows m m' :
  insert_values t rows m = Ok m' ↔
  m' = snapshot_of rows t ∪ m ∧ NoDup (lp_AccountNumber <$> rows) ∧
  Forall (λ row, m !! lp_AccountNumber row = None) rows.
Proof.
  revert m. induction rows as [|row rows IH]; intros m; simpl.
  { unfold snapshot_of. simpl. rewrite map_empty_union.
    split; [intros [= <-]; split_and!; constructor|by intros (-> & _)]. }
  unfold snapshot_of. cbn [fmap list_fmap list_to_map]. fold (snapshot_of rows t).
  rewrite NoDup_cons, Forall_cons. destruct (m !! lp_AccountNumber row) as [x|] eqn:Hm.
  { split; [done|]. by intros (_ & _ & ? & _). }
  rewrite IH. cbn [list_to_map fst snd foldr]. rewrite <- insert_union_l. split.
  - intros (-> & Hnd & Hf). rewrite Forall_forall in Hf.
    assert (lp_AccountNumber row ∉ lp_AccountNumber <$> rows) as Hnin.
    { intros Hin. apply list_elem_of_fmap in Hin as (y & Hy & Hin). specialize (Hf y Hin). simpl in Hf.
      by rewrite <- Hy, lookup_insert_eq in Hf. }
    split_and!; try done.
    + rewrite insert_union_r; [done|]. apply not_elem_of_list_to_map_1. by rewrite <- list_fmap_compose.
    + apply Forall_forall. intros y Hy. specialize (Hf y Hy). simpl in Hf.
      by apply lookup_insert_None in Hf as [? _].
  - intros (-> & [Hnin Hnd] & _ & Hf). split_and!; try done.
    + rewrite insert_union_r; [done|]. apply not_elem_of_list_to_map_1. by rewrite <- list_fmap_compose.
    + rewrite Forall_forall in *. intros y Hy. rewrite lookup_insert_ne; [by apply Hf|].
      intros E. apply Hnin. rewrite E. by apply list_elem_of_fmap_2.
Qed.

Lemma insertRows_Ok rows t w u w' :
  insertRows rows t w = (Ok u, w') →
  snap_rows (tables w') = snapshot_of rows t ∪ snap_rows (tables w) ∧
  snap_state (tables w') = snap_state (tables w) ∧ NoDup (lp_AccountNumber <$> rows) ∧
  Forall (λ row, snap_rows (tables w) !! lp_AccountNumber row = None) rows.
Proof.
  unfold insertRows. intros H. apply db_bind_Ok in H as (u1 & w1 & H1 & H).
  injection H1 as _ <-. apply wrapped_Ok, statement_effect in H as (s & H & ->).
  destruct (insert_values t rows (snap_rows (tables w))) as [m|e] eqn:E; [|done]. injection H as <- <-.
  apply insert_values_Ok in E as (-> & ? & ?). done.
Qed.

Lemma snapshot_of_app rows1 rows2 t : snapshot_of (rows1 ++ rows2) t = snapshot_of rows1 t ∪ snapshot_of rows2 t.
Proof. unfold snapshot_of. by rewrite fmap_app, list_to_map_app. Qed.

Lemma snapshot_of_fresh rows t m :
  Forall (λ row, m !! lp_AccountNumber row = None) rows → snapshot_of rows t ##ₘ m.
Proof.
  intros Hf. apply map_disjoint_spec. intros a x y Hx Hy.
  unfold snapshot_of in Hx. apply elem_of_list_to_map_2 in Hx.
  apply list_elem_of_fmap in Hx as (row & [= -> ->] & Hin). rewrite Forall_forall in Hf.
  specialize (Hf row Hin). simpl in Hf. congruence.
Qed.

Lemma snapshot_of_nil_union t m : m = snapshot_of [] t ∪ m.
Proof. change (snapshot_of [] t) with (∅ : gmap string stored_row). by rewrite map_empty_union. Qed.

Lemma insert_chunks_Ok fuel rows t w u w' :
  (length rows ≤ fuel)%nat → insert_chunks fuel rows t w = (Ok u, w') →
  snap_rows (tables w') = snapshot_of rows t ∪ snap_rows (tables w) ∧
  snap_state (tables w') = snap_state (tables w) ∧
  Forall (λ row, snap_rows (tables w) !! lp_AccountNumber row = None) rows.
Proof.
  revert rows w u. induction fuel as [|fuel IH]; intros rows w u Hlen H.
  { destruct rows; [|simpl in Hlen; lia]. injection H as <- <-.
    split_and!; [apply snapshot_of_nil_union|done|constructor]. }
  destruct rows as [|row rows].
  { injection H as <- <-. split_and!; [apply snapshot_of_nil_union|done|constructor]. }
  change (insert_chunks (S fuel) (row :: rows) t) with
    (insertRows (take chunkSize (row :: rows)) t;; insert_chunks fuel (drop chunkSize (row :: rows)) t) in H.
  remember (row :: rows) as all eqn:Eall. apply db_bind_Ok in H as (u1 & w1 & H1 & H2).
  apply insertRows_Ok in H1 as (Hr1 & Hs1 & _ & Hfresh1).
  assert (length (drop chunkSize all) ≤ fuel)%nat as Hl.
  { rewrite length_drop. unfold chunkSize. subst all. simpl in *. lia. }
  destruct (IH _ _ _ Hl H2) as (Hr2 & Hs2 & Hfresh2).
  assert (Forall (λ row, snap_rows (tables w) !! lp_AccountNumber row = None) (drop chunkSize all)) as Hfresh3.
  { eapply Forall_impl; [exact Hfresh2|]. intros x Hx. simpl in Hx. rewrite Hr1 in Hx.
    by apply lookup_union_None in Hx as [_ ?]. }
  rewrite Hs2, Hs1, Hr2, Hr1. split_and!; [|done|].
  - assert (snapshot_of all t = snapshot_of (take chunkSize all) t ∪ snapshot_of (drop chunkSize all) t) as ->
      by (by rewrite <- snapshot_of_app, take_drop).
    rewrite (map_union_comm (snapshot_of (drop chunkSize all) t)) by (rewrite <- Hr1; by apply snapshot_of_fresh).
    rewrite <- !(assoc_L (∪)). f_equal. apply map_union_comm. symmetry. by apply snapshot_of_fresh.
  - rewrite <- (take_drop chunkSize all). apply Forall_app. by split.
Qed.

(** The tables after a successful replacement *)
Definition replaced (rows : list LoanPosition) (t : time) (s : snapshot_tables) : Prop :=
  snap_rows s = snapshot_of rows t ∧ LastStatus (snap_state s) = "succeeded"%string ∧
  LastRowCount (snap_state s) = Z.of_nat (length rows) ∧ LastSuccessfulAt (snap_state s) = Some t.

Lemma ReplaceAll_outcome rows t w r w' :
  ReplaceAll rows t w = (r, w') →
  match r with
  | Ok _ => replaced rows t (tables w')
  | Fail _ => tables w' = tables w ∨ replaced rows t (tables w')
  end.
Proof.
  unfold ReplaceAll. intros H. apply transaction_atomic in H.
  assert (∀ rest (u : unit) w1, (wrapped "clear current snapshot: %w" (exec (fun s => set_rows s ∅));;
    insert_chunks (length rows) rows t;;
    wrapped "record snapshot success: %w" (exec (fun s => set_state s
      {| LastAttemptedAt := LastAttemptedAt (snap_state s); LastSuccessfulAt := Some t;
         LastStatus := "succeeded"; LastRowCount := Z.of_nat (length rows); LastErrorSummary := None |})))
    (World (tables w) rest) = (Ok u, w1) → replaced rows t (tables w1)) as Hbody.
  { intros rest u w1 Hb. apply db_bind_Ok in Hb as (u1 & w2 & H1 & Hb). apply wrapped_Ok, exec_Ok in H1.
    apply db_bind_Ok in Hb as (u2 & w3 & H2 & Hb). apply wrapped_Ok, exec_Ok in Hb.
    apply insert_chunks_Ok in H2 as (Hr & Hs & _); [|done]. unfold replaced. rewrite Hb. simpl.
    rewrite Hr, H1. simpl. by rewrite map_union_empty. }
  destruct r as [u|e].
  - destruct H as (rest & w1 & Hb & ->). by eapply Hbody.
  - destruct H as [H|(u & rest & w1 & Hb & ->)]; [by left|right]. by eapply Hbody.
Qed.

(** ** Refreshing *)

Lemma release_keeps : keeps snap_rows release ∧ keeps snap_state release.
Proof. split; by apply keeps_exec. Qed.

Lemma AcquireRefreshLock_Ok w b w' :
  AcquireRefreshLock w = (Ok b, w') → b = negb (lock_held (tables w)) ∧
  snap_rows (tables w') = snap_rows (tables w) ∧ snap_state (tables w') = snap_state (tables w) ∧
  audit_log (tables w') = audit_log (tables w) ∧ lock_held (tables w') = true.
Proof.
  unfold AcquireRefreshLock. intros H. apply db_bind_Ok in H as (u & w1 & H1 & H).
  apply wrapped_Ok, query_Ok in H1 as [_ H1]. apply wrapped_Ok, statement_effect in H as (s & H & ->).
  rewrite H1 in H. destruct (lock_held (tables w)) eqn:E; injection H as <- <-; by rewrite ?H1.
Qed.

Lemma AcquireRefreshLock_keeps {A} (f : snapshot_tables → A) :
  (∀ s held, f (set_lock s held) = f s) → keeps f AcquireRefreshLock.
Proof.
  intros Hf. apply keeps_bind; [|intros _]; apply keeps_wrapped.
  - intros w r w' H. by rewrite (query_same _ _ _ _ H).
  - intros w r w' H. apply statement_effect in H. destruct r as [b|e].
    + destruct H as (s & H & ->). destruct (lock_held (tables w)); injection H as <- <-; [done|apply Hf].
    + destruct H as [->|(b & s & H & ->)]; [done|].
      destruct (lock_held (tables w)); injection H as <- <-; [done|apply Hf].
Qed.

(** What a refresh may have done to the stored snapshot *)
Definition refreshed (env : refresh_environment) (s : snapshot_tables) : Prop :=
  let date := NewDate (rf_now env) (Some (rf_location env)) in
  ∃ rows, rf_fetch env date = Ok rows ∧ validateRows rows date = Ok tt ∧
    snap_rows s = snapshot_of rows (rf_now_replace env).

Lemma refresh_attempt_outcome env w r w' :
  refresh_attempt env w = (r, w') →
  match r with
  | Ok n => ∃ rows, let date := NewDate (rf_now env) (Some (rf_location env)) in
      rf_fetch env date = Ok rows ∧ validateRows rows date = Ok tt ∧ n = Z.of_nat (length rows) ∧
      replaced rows (rf_now_replace env) (tables w')
  | Fail _ => tables w' = tables w ∨ refreshed env (tables w')
  end.
Proof.
  unfold refresh_attempt, refreshed. set (date := NewDate _ _). unfold mbind, db_bind, lift.
  destruct (rf_fetch env date) as [rows|e] eqn:Hf; [|intros [= <- <-]; by left].
  destruct (validateRows rows date) as [[]|e] eqn:Hv; [|intros [= <- <-]; by left].
  destruct (ReplaceAll rows (rf_now_replace env) w) as [[u|e] w1] eqn:Hr; intros [= <- <-];
    apply ReplaceAll_outcome in Hr.
  - by exists rows.
  - destruct Hr as [Hr|(Hr & _)]; [by left|right]. by exists rows.
Qed.

Lemma finish_refresh_keeps env trigger r :
  keeps snap_rows (finish_refresh env trigger r) ∧
  (is_ok r = true → keeps snap_state (finish_refresh env trigger r)).
Proof.
  destruct r as [n|e]; simpl; split; try done; intros;
    repeat first [apply keeps_bind; [|intros _]|apply keeps_best_effort|apply keeps_ret|apply keeps_fail|by apply keeps_exec].
Qed.

Lemma finish_refresh_result env trigger r w r' w' :
  finish_refresh env trigger r w = (r', w') → r' = r.
Proof.
  destruct r as [n|e]; simpl; unfold mbind, db_bind, best_effort; simpl; by intros [= <- _].
Qed.

Lemma refresh_locked_outcome env trigger w r w' :
  refresh_locked env trigger w = (r, w') →
  (snap_rows (tables w') = snap_rows (tables w) ∨ refreshed env (tables w')) ∧
  (∀ n, r = Ok n → refreshed env (tables w') ∧ LastStatus (snap_state (tables w')) = "succeeded"%string ∧
     LastRowCount (snap_state (tables w')) = n).
Proof.
  unfold refresh_locked. intros H.
  assert (∀ w1, snap_rows (tables w1) = snap_rows (tables w) → refresh_body env trigger w1 = (r, w') →
    (snap_rows (tables w') = snap_rows (tables w) ∨ refreshed env (tables w')) ∧
    (∀ n, r = Ok n → refreshed env (tables w') ∧ LastStatus (snap_state (tables w')) = "succeeded"%string ∧
       LastRowCount (snap_state (tables w')) = n)) as Hgo.
  { intros w1 Hsame Hb. unfold refresh_body in Hb. destruct (refresh_attempt env w1) as [r1 w2] eqn:Ha.
    pose proof (finish_refresh_result _ _ _ _ _ _ Hb) as ->. apply refresh_attempt_outcome in Ha.
    destruct (finish_refresh_keeps env trigger r1) as [Hk1 Hk2].
    pose proof (Hk1 _ _ _ Hb) as Hrows. destruct r1 as [n|e].
    - pose proof (Hk2 eq_refl _ _ _ Hb) as Hst. destruct Ha as (rows & Hf & Hv & -> & Hr & Hs & Hc & _).
      assert (refreshed env (tables w')) as Hre by (exists rows; by rewrite Hrows).
      split; [by right|]. intros n [= <-]. by rewrite Hst.
    - split; [|done]. destruct Ha as [Ha|(rows & Hf & Hv & Hr)].
      + left. by rewrite Hrows, Ha.
      + right. exists rows. by rewrite Hrows. }
  unfold mbind, db_bind in H. destruct (wrapped _ _ w) as [[u|e] w1] eqn:Hm.
  - assert (keeps snap_rows (wrapped "record snapshot attempt: %w" (MarkAttempt (rf_now env)))) as Hk
      by (by apply keeps_wrapped, keeps_exec).
    destruct (best_effort _ w1) as [[u2|e2] w2] eqn:Hbe; [|done]. apply (Hgo w2); [|done].
    assert (keeps snap_rows (best_effort (exec (fun s => add_event s (RefreshStarted trigger))))) as Hk2
      by (by apply keeps_best_effort, keeps_exec).
    by rewrite (Hk2 _ _ _ Hbe), (Hk _ _ _ Hm).
  - injection H as <- <-. split; [|done]. left.
    assert (keeps snap_rows (wrapped "record snapshot attempt: %w" (MarkAttempt (rf_now env)))) as Hk
      by (by apply keeps_wrapped, keeps_exec). by apply Hk in Hm.
Qed.

(** ** The columns *)

Lemma decimal_column_nonneg m :
  (0 <= rat m)%Q → (rat (decimal_column m) == rounded 10 (rat m) # 10000000000)%Q.
Proof.
  intros Hm. unfold decimal_column, Value. destruct (Format_parses m 10) as (r & -> & Hr); [lia|].
  rewrite Hr. assert ((Qnum (rat m) <? 0) = false) as -> by (apply Z.ltb_ge; unfold Qle in Hm; simpl in Hm; lia).
  done.
Qed.

Lemma decimal_column_pos m : (0 <= rat m)%Q → (0 <= rat (decimal_column m))%Q.
Proof.
  intros Hm. rewrite decimal_column_nonneg by done. pose proof (rounded_nonneg 10 (rat m)).
  unfold Qle. simpl. lia.
Qed.

Lemma decimal_column_le m n :
  (0 <= rat m)%Q → (rat m <= rat n)%Q → (rat (decimal_column m) <= rat (decimal_column n))%Q.
Proof.
  intros Hm Hmn. rewrite !decimal_column_nonneg by lra. pose proof (rounded_mono 10 _ _ Hm Hmn).
  unfold Qle. simpl. lia.
Qed.

(** ** Parsed rows are valid rows *)

Lemma of_bytes_nonempty s : empty s = false → s ≠ EmptyString.
Proof. unfold empty, seqb. by rewrite bool_decide_eq_false. Qed.

Lemma parse_line_Ok loc date cols startColumn record row :
  parse_line loc date cols startColumn record = Ok row →
  TrimSpace (lp_AccountNumber row) = lp_AccountNumber row ∧ empty (lp_AccountNumber row) = false ∧
  key (lp_AsOf row) = key date ∧ key (lp_LoanStartDate row) ≤ key (lp_AsOf row) ∧
  position_ok row ∧ lp_Source row = Some SourceTodaySnapshot.
Proof.
  unfold parse_line. intros H.
  apply bind_Ok in H as ([] & He & H). apply fail_if_Ok in He.
  apply bind_Ok in H as (asOf & Has & H). apply bind_Ok in H as (start & Hst & H).
  apply bind_Ok in H as (p & _ & H). apply bind_Ok in H as (pd & _ & H).
  apply bind_Ok in H as (i & _ & H). apply bind_Ok in H as (pen & _ & H).
  apply bind_Ok in H as (c & Hc & H). apply bind_Ok in H as ([] & Hb & H).
  apply Ok_inj in H as <-. cbn [lp_AccountNumber lp_AsOf lp_LoanStartDate lp_Source].
  apply fail_if_Ok in Hb. rewrite !orb_false_iff, !IsNegative_false, money_gt_false in Hb.
  destruct Hb as [[[[Hp Hpd] Hi] Hpen] Hle].
  assert (key asOf = key date) as Hkey.
  { destruct (parseSourceDate _ _) as [d|]; [|done]. unfold Equal in Has.
    destruct (Z.eqb_spec (key d) (key date)); [|done]. by injection Has as <-. }
  assert (key start ≤ key asOf) as Hstart.
  { destruct (parseLoanStartDate _ _) as [d|]; [|done]. unfold After in Hst.
    destruct (Z.ltb_spec (key asOf) (key d)); [done|]. by injection Hst as <-. }
  assert (1 ≤ c ≤ 5) as Hcoll.
  { destruct (Atoi _) as [v|]; [|done]. destruct ((v <? 1) || (5 <? v)) eqn:E; [done|].
    injection Hc as <-. to_prop in E. lia. }
  split_and!; [apply TrimSpace_idem|done|done|done| |done].
  split; simpl; first [done|apply Qle_refl|by split].
Qed.

Lemma parse_lines_Ok loc date cols startColumn seen records rows :
  parse_lines loc date cols startColumn seen records = Ok rows →
  Forall (λ row, ∃ record, parse_line loc date cols startColumn record = Ok row) rows ∧
  NoDup (lp_AccountNumber <$> rows) ∧ Forall (λ row, seen !! lp_AccountNumber row = None) rows.
Proof.
  revert seen rows. induction records as [|[record|e] records IH]; intros seen rows H; [|simpl in H..].
  { injection H as <-. split_and!; constructor. }
  - destruct (blankRecord record); [by apply IH|]. apply bind_Ok in H as (row & Hrow & H).
    destruct (seen !! lp_AccountNumber row) as [previous|] eqn:Hseen.
    { apply bind_Ok in H as ([] & _ & H). by apply IH. }
    apply bind_Ok in H as (rest & Hrest & [= <-]). apply IH in Hrest as (Hf & Hnd & Hfresh).
    rewrite Forall_forall in Hfresh. split_and!.
    + constructor; [by exists record|done].
    + simpl. apply NoDup_cons. split; [|done]. intros Hin. apply list_elem_of_fmap in Hin as (y & Hy & Hin).
      specialize (Hfresh y Hin). simpl in Hfresh. by rewrite Hy, lookup_insert_eq in Hfresh.
    + constructor; [done|]. apply Forall_forall. intros y Hy. specialize (Hfresh y Hy). simpl in Hfresh.
      by apply lookup_insert_None in Hfresh as [? _].
  - done.
Qed.

Lemma validate_rows_Ok date seen rows :
  validate_rows date seen rows = Ok tt ↔
  Forall (λ row, empty (TrimSpace (lp_AccountNumber row)) = false ∧ key (lp_AsOf row) = key date ∧
    Date_IsZero (lp_LoanStartDate row) = false ∧ key (lp_LoanStartDate row) ≤ key date ∧
    (0 <= rat (lp_PrincipalDue row) <= rat (lp_PrincipalOutstanding row))%Q ∧
    (0 <= rat (lp_InterestDue row))%Q ∧ (0 <= rat (lp_PenaltyDue row))%Q ∧
    1 ≤ lp_CollectabilityBI row ≤ 5) rows ∧
  NoDup ((λ row, TrimSpace (lp_AccountNumber row)) <$> rows) ∧
  Forall (λ row, TrimSpace (lp_AccountNumber row) ∉ seen) rows.
Proof.
  revert seen. induction rows as [|row rows IH]; intros seen; cbn [validate_rows].
  { split; [intros _; split_and!; constructor|done]. }
  rewrite fmap_cons, NoDup_cons, !Forall_cons.
  set (account := TrimSpace (lp_AccountNumber row)).
  match goal with |- context [fail_if ?b (Msg "invalid snapshot row for account %q")] => destruct b eqn:Hb end.
  { split; [done|]. intros [[(H1 & H2 & H3 & H4 & H5 & H6 & H7 & H8) _] _].
    rewrite !orb_true_iff, !IsNegative_true, money_gt_true, negb_true_iff in Hb. unfold Equal, After in Hb. to_prop in Hb.
    exfalso. assert (Qlt (rat (lp_PrincipalOutstanding row)) 0 → False) by lra.
    destruct Hb as [[[[[[[[[[Hb|Hb]|Hb]|Hb]|Hb]|Hb]|Hb]|Hb]|Hb]|Hb]|Hb]; try lra; try lia; congruence. }
  cbn [fail_if mbind result_bind].
  rewrite !orb_false_iff, !IsNegative_false, money_gt_false, negb_false_iff in Hb. unfold Equal, After in Hb.
  to_prop in Hb. destruct Hb as [[[[[[[[[[H1 H2] H3] H4] H5] H6] H7] H8] H9] H10] H11].
  destruct (decide (account ∈ seen)) as [Hin|Hnin].
  { rewrite bool_decide_eq_true_2 by done. split; [done|]. intros (_ & _ & ? & _). done. }
  rewrite bool_decide_eq_false_2 by done. cbn [fail_if mbind result_bind]. rewrite IH. split.
  - intros (Hf & Hnd & Hfresh). rewrite Forall_forall in Hfresh. split_and!; try done; try lia.
    + intros Hin. apply list_elem_of_fmap in Hin as (y & Hy & Hin). specialize (Hfresh y Hin). set_solver.
    + apply Forall_forall. intros y Hy. specialize (Hfresh y Hy). set_solver.
  - intros ([_ Hf] & [Hx Hnd] & _ & Hfresh). split_and!; try done.
    apply Forall_forall. intros y Hy. rewrite Forall_forall in Hfresh. specialize (Hfresh y Hy). simpl in Hfresh.
    assert (TrimSpace (lp_AccountNumber y) ≠ account); [|set_solver].
    intros E. apply Hx. rewrite <- E. by apply (list_elem_of_fmap_2 (λ row, TrimSpace (lp_AccountNumber row))).
Qed.

Lemma parse_Ok lower loc body date rows :
  parse lower loc body date = Ok rows →
  rows ≠ [] ∧ Forall (λ row, TrimSpace (lp_AccountNumber row) = lp_AccountNumber row ∧
    empty (lp_AccountNumber row) = false ∧ key (lp_AsOf row) = key date ∧
    key (lp_LoanStartDate row) ≤ key (lp_AsOf row) ∧ position_ok row ∧
    lp_Source row = Some SourceTodaySnapshot) rows ∧ NoDup (lp_AccountNumber <$> rows).
Proof.
  unfold parse. destruct (csv_records _ _) as [|[header|e] records]; [done| |done]. intros H.
  apply bind_Ok in H as ([] & _ & H). apply bind_Ok in H as (start & _ & H).
  apply bind_Ok in H as (rows' & Hr & H). apply bind_Ok in H as ([] & Hne & [= <-]).
  apply fail_if_Ok, bool_decide_eq_false in Hne.
  apply parse_lines_Ok in Hr as (Hf & Hnd & _). split_and!; [done| |done].
  eapply Forall_impl; [exact Hf|]. intros row (record & Hrow). by eapply parse_line_Ok.
Qed.

Lemma fmap_ext_in {A B} (f g : A → B) l : Forall (λ x, f x = g x) l → f <$> l = g <$> l.
Proof. induction 1 as [|x l Hx _ IH]; [done|]. by rewrite !fmap_cons, Hx, IH. Qed.

(** ** Reading a position back *)

(** Midnight UTC is on the same calendar day in the location. *)
Definition utc_days (loc : Location) : Prop :=
  ∀ date, valid date → NewDate (date_column date) (Some loc) = date.

Lemma fixed_zone_utc_days off : 0 ≤ off < 86400 → utc_days (fixed_zone off).
Proof.
  intros Hoff date Hv. unfold NewDate, date_column, Date_Time, or_utc, time_civil.
  assert (local_seconds (time_date (date_year date) (date_month date) (date_day date) 0 UTC) (fixed_zone off) / 86400 =
          day_number date) as ->; [|by apply of_civil_days].
  unfold time_date, local_seconds, day_number, UTC, fixed_zone. cbn [zone_lookup zone_offset zone_start zone_end].
  change (0 =? 0) with true. cbv iota. rewrite Z.div_mul by done. symmetry. apply (Z.div_unique _ _ _ off); lia.
Qed.

Lemma NewDate_zero : NewDate 0 (Some (fixed_zone 0)) = MkDate 1 1 1.
Proof. vm_compute. reflexivity. Qed.

Lemma UTC_format date :
  valid date → format_time layout_iso (date_column date) UTC =
  of_bytes (format_civil layout_iso (date_year date) (date_month date) (date_day date)).
Proof.
  intros Hv. unfold format_time, date_column, Date_Time, or_utc.
  destruct (UTC_midnights (date_year date) (date_month date) (date_day date)) as [-> _]; [apply Hv|].
  by rewrite civil_days_inverse.
Qed.

Lemma date_column_text date :
  date_ok date → format_time layout_iso (date_column date) UTC = Date_String date.
Proof.
  intros [Hv Hy]. rewrite UTC_format by done. unfold Date_String, Date_IsZero.
  destruct (Z.eqb_spec (date_year date) 0); [lia|]. f_equal.
  pose proof (valid_day_31 _ _ _ Hv). pose proof (proj1 Hv).
  unfold format_civil, layout_iso, format_item, itoa, sprintf_0d. simpl.
  destruct (Z.ltb_spec (date_year date) 0); [lia|]. destruct (Z.ltb_spec (date_month date) 0); [lia|].
  destruct (Z.ltb_spec (date_day date) 0); [lia|]. by rewrite app_nil_r.
Qed.

Definition stored_dates_ok (s : snapshot_tables) : Prop :=
  ∀ account row, snap_rows s !! account = Some row → valid (sto_AsOf row).

Lemma select_row_Some account asOf s row :
  select_row account asOf s = Some row ↔
  snap_rows s !! TrimSpace account = Some row ∧ Date_String (sto_AsOf row) = Date_String asOf.
Proof.
  unfold select_row. rewrite bind_Some. unfold seqb. split.
  - intros (x & Hx & H). destruct (bool_decide _) eqn:E; [|done]. injection H as ->. by apply bool_decide_eq_true in E.
  - intros [Hx E]. exists row. by rewrite bool_decide_eq_true_2.
Qed.

Lemma stored_position_Ok loc account asOf row p :
  utc_days loc → valid (sto_AsOf row) →
  stored_position loc account asOf row = Ok p →
  position_ok p ∧ lp_AsOf p = sto_AsOf row ∧ lp_Source p = Some SourceTodaySnapshot.
Proof.
  intros Hutc Hv H. unfold stored_position in H.
  apply bind_Ok in H as ([] & Hb & H). apply bind_Ok in H as (start & _ & H). apply bind_Ok in H as ([] & _ & H).
  apply bind_Ok in H as (d & _ & H). apply bind_Ok in H as ([] & _ & H). apply Ok_inj in H as <-.
  apply fail_if_Ok in Hb. rewrite !orb_false_iff, !IsNegative_false, money_gt_false in Hb.
  destruct Hb as [[[[[[H1 H2] H3] H4] H5] H6] H7]. to_prop in H1. to_prop in H2.
  cbn [lp_AsOf lp_Source]. split_and!; [|by apply Hutc|done].
  split; cbn; first [assumption|apply Qle_refl|by split|lia].
Qed.

Lemma snapshot_ExactPosition_Ok loc account asOf w p w' :
  utc_days loc → stored_dates_ok (tables w) → date_ok asOf →
  snapshot_ExactPosition loc account asOf w = (Ok p, w') →
  position_ok p ∧ lp_AsOf p = asOf ∧ lp_Source p = Some SourceTodaySnapshot.
Proof.
  intros Hutc Hdates Hdate. unfold snapshot_ExactPosition.
  destruct (query (select_row account asOf) w) as [[[row|]|e] w1] eqn:Hq; cbv iota beta; intros H;
    apply pair_equal_spec in H as [H _]; [|discriminate H..].
  apply query_Ok in Hq as [Hq _]. symmetry in Hq. apply select_row_Some in Hq as [Hrow Htext].
  apply Hdates in Hrow. assert (sto_AsOf row = asOf) as <- by (apply date_text_inj; assumption || apply Hdate).
  by eapply stored_position_Ok.
Qed.

(* Keep the conversion test from computing with instants. *)
#[local] Opaque date_column format_time ParseDate NewDate decimal_column rounded.

Lemma stored_row_position loc row t :
  midnights loc → utc_days loc → date_ok (lp_AsOf row) → date_ok (lp_LoanStartDate row) →
  lp_LoanStartDate row ≠ MkDate 1 1 1 → key (lp_LoanStartDate row) ≤ key (lp_AsOf row) →
  (0 <= rat (lp_PrincipalDue row) <= rat (lp_PrincipalOutstanding row))%Q →
  (0 <= rat (lp_InterestDue row))%Q → (0 <= rat (lp_PenaltyDue row))%Q → 1 ≤ lp_CollectabilityBI row ≤ 5 →
  stored_position loc (lp_AccountNumber row) (lp_AsOf row) (stored row t) = Ok
    {| lp_AsOf := lp_AsOf row; lp_LoanStartDate := lp_LoanStartDate row;
       lp_AccountNumber := TrimSpace (lp_AccountNumber row);
       lp_PrincipalOutstanding := decimal_column (lp_PrincipalOutstanding row);
       lp_PrincipalDue := decimal_column (lp_PrincipalDue row);
       lp_InterestDue := decimal_column (lp_InterestDue row); lp_PenaltyDue := decimal_column (lp_PenaltyDue row);
       lp_CollectabilityBI := lp_CollectabilityBI row; lp_UnappliedAmount := MoneyZero;
       lp_Source := Some SourceTodaySnapshot; lp_Branch := lp_Branch row; lp_Product := lp_Product row;
       lp_CIF := lp_CIF row; lp_ContractNumber := lp_ContractNumber row;
       lp_SourceUpdatedAt := lp_SourceUpdatedAt row |}.
Proof.
  intros Hmid Hutc Hdate Hstart Hne Hle Hpd Hi Hpen Hc. unfold stored_position.
  assert (∀ m, (0 <= rat m)%Q → IsNegative (decimal_column m) = false) as Hneg
    by (intros m Hm; by apply IsNegative_false, decimal_column_pos).
  apply bind_Ok. exists tt. split.
  { apply fail_if_Ok. cbn [stored sto_PrincipalOutstanding sto_CollectabilityBI sto_PrincipalDue sto_InterestDue sto_PenaltyDue].
    rewrite !Hneg by lra. rewrite !orb_false_iff, money_gt_false.
    split_and!; [apply Z.ltb_ge; lia|apply Z.ltb_ge; lia|done..|apply decimal_column_le; lra]. }
  apply bind_Ok. exists (lp_LoanStartDate row). split; [reflexivity|].
  apply bind_Ok. exists tt. split.
  { apply fail_if_Ok, Z.eqb_neq. intros E. apply Hne.
    pose proof (fixed_zone_utc_days 0 ltac:(lia) _ (proj1 Hstart)) as Hd. rewrite E in Hd.
    rewrite <- Hd. exact NewDate_zero. }
  apply bind_Ok. exists (lp_LoanStartDate row). split.
  { rewrite date_column_text, ParseDate_String by done. reflexivity. }
  apply bind_Ok. exists tt. split; [by apply fail_if_Ok, Z.ltb_ge|].
  cbn [stored sto_AsOf sto_PrincipalOutstanding sto_CollectabilityBI sto_PrincipalDue sto_InterestDue
    sto_PenaltyDue sto_Branch sto_Product sto_CIF sto_ContractNumber sto_SourceUpdatedAt].
  by rewrite (Hutc _ (proj1 Hdate)).
Qed.

Lemma snapshot_of_lookup rows t row :
  NoDup (lp_AccountNumber <$> rows) → row ∈ rows → snapshot_of rows t !! lp_AccountNumber row = Some (stored row t).
Proof.
  intros Hnd Hin. apply elem_of_list_to_map_1.
  - by rewrite <- list_fmap_compose.
  - by apply (list_elem_of_fmap_2 (λ row, (lp_AccountNumber row, stored row t))).
Qed.

Lemma query_healthy {S A} (f : S → A) w : healthy w → ∃ w', query f w = (Ok (f (tables w)), w') ∧ tables w' = tables w.
Proof.
  intros Hw. destruct (healthy_next w Hw) as (rest & Hn & _). unfold query, statement. rewrite Hn.
  by eexists.
Qed.

(** The snapshot keeps the promise the position service relies on. *)
Lemma snapshot_answers_today loc w :
  utc_days loc → stored_dates_ok (tables w) →
  answers SourceTodaySnapshot (λ account asOf, fst (snapshot_ExactPosition loc account asOf w)).
Proof.
  intros Hutc Hdates account asOf p Hdate H.
  destruct (snapshot_ExactPosition loc account asOf w) as [r w'] eqn:E. cbn [fst] in H. subst r.
  by eapply snapshot_ExactPosition_Ok.
Qed.

Lemma snapshot_of_dates rows t date account row :
  Forall (λ row, lp_AsOf row = date) rows → snapshot_of rows t !! account = Some row → sto_AsOf row = date.
Proof.
  intros Hf H. apply elem_of_list_to_map_2, list_elem_of_fmap in H as (x & [= _ ->] & Hin).
  rewrite Forall_forall in Hf. by apply Hf.
Qed.

(** A refresh that finds the lock held does nothing. *)
Lemma Refresh_refused env trigger w r w' :
  Refresh env trigger w = (r, w') → lock_held (tables w) = true →
  is_ok r = false ∧ snap_rows (tables w') = snap_rows (tables w) ∧ snap_state (tables w') = snap_state (tables w).
Proof.
  unfold Refresh, mbind, db_bind. intros H Hl. destruct (AcquireRefreshLock w) as [[b|e] w1] eqn:Ha.
  - apply AcquireRefreshLock_Ok in Ha as (-> & Hr & Hs & _ & _). rewrite Hl in H. injection H as <- <-. by rewrite Hr, Hs.
  - injection H as <- <-. split; [done|]. split; by eapply AcquireRefreshLock_keeps.
Qed.
(** Another one keeps the rows or stores those that were fetched. *)
Lemma Refresh_rows env trigger w r w' :
  Refresh env trigger w = (r, w') →
  (snap_rows (tables w') = snap_rows (tables w) ∨ refreshed env (tables w')) ∧
  (∀ n, r = Ok n → refreshed env (tables w') ∧ LastStatus (snap_state (tables w')) = "succeeded"%string ∧
     LastRowCount (snap_state (tables w')) = n).
Proof.
  unfold Refresh, mbind, db_bind. intros H. destruct (AcquireRefreshLock w) as [[b|e] w1] eqn:Ha.
  2: { injection H as <- <-. split; [left; by eapply AcquireRefreshLock_keeps|done]. }
  apply AcquireRefreshLock_Ok in Ha as (_ & Hr & _ & _ & _). destruct b; cbn [negb] in H; [|injection H as <- <-; by split; [left|]].
  unfold releasing in H. destruct (refresh_locked env trigger w1) as [r1 w2] eqn:Hb.
  injection H as -> <-. apply refresh_locked_outcome in Hb as [Ho Hok].
  destruct (release w2) as [r2 w3] eqn:Hrel. destruct release_keeps as [Hk1 Hk2].
  apply Hk1 in Hrel as Hrel1. apply Hk2 in Hrel as Hrel2. simpl. unfold refreshed in *.
  rewrite Hrel1, Hrel2, <- Hr. done.
Qed.

(** ** Properties *)

(** C35: a refresh is all or nothing, under every schedule of database failures.
    When another refresh holds the lock it does nothing.  Otherwise the stored
    rows are afterwards the old ones, or exactly the validated rows of the source;
    a reported success means the latter, with the status "succeeded" and the
    number of rows. *)
Theorem Refresh_atomic env trigger w r w' :
  Refresh env trigger w = (r, w') →
  (lock_held (tables w) = true → is_ok r = false ∧ snap_rows (tables w') = snap_rows (tables w) ∧
     snap_state (tables w') = snap_state (tables w)) ∧
  (snap_rows (tables w') = snap_rows (tables w) ∨ refreshed env (tables w')) ∧
  (∀ n, r = Ok n → refreshed env (tables w') ∧ LastStatus (snap_state (tables w')) = "succeeded"%string ∧
     LastRowCount (snap_state (tables w')) = n).
Proof.
  intros H. split; [by eapply Refresh_refused|by eapply Refresh_rows].
Qed.

(** Whatever bytes the report has, the rows parsed from it are accepted by the
    service's validation (start dates after year zero): one row per trimmed,
    non-empty account, of the business date, started by then, with sound balances
    and collectability. *)
Theorem parse_validates lower loc body date rows :
  parse lower loc body date = Ok rows →
  Forall (λ row, Date_IsZero (lp_LoanStartDate row) = false) rows →
  validateRows rows date = Ok tt ∧ Forall position_ok rows ∧ NoDup (lp_AccountNumber <$> rows).
Proof.
  intros H Hz. apply parse_Ok in H as (Hne & Hf & Hnd). split_and!; [|by eapply Forall_impl; [exact Hf|]; intros ? (_ & _ & _ & _ & ? & _)|done].
  unfold validateRows. rewrite bool_decide_eq_false_2 by done. cbn [fail_if mbind result_bind].
  apply validate_rows_Ok. split_and!.
  - rewrite Forall_forall in Hf, Hz |- *. intros row Hrow. specialize (Hz row Hrow).
    destruct (Hf row Hrow) as (Ht & He & Hk & Hs & [Hd Hi Hp Hu Hc] & _). rewrite Ht, He, Hk, Hz.
    split_and!; solve [done|lia|apply Hd|apply Hc].
  - rewrite (fmap_ext_in _ lp_AccountNumber); [done|]. eapply Forall_impl; [exact Hf|]. by intros row (? & _).
  - apply Forall_forall. set_solver.
Qed.

(** What a refresh stored is what an inquiry of today reads: for every row of
    the report the stored position is found under its account, well formed, with
    the row's start date, collectability, branch and product, and its amounts
    rounded to the ten digits of the columns. *)
Theorem snapshot_reads_refresh loc rows t row date w :
  utc_days loc → midnights loc → healthy w → snap_rows (tables w) = snapshot_of rows t →
  validateRows rows date = Ok tt → date_ok date → Forall (λ row, lp_AsOf row = date) rows →
  NoDup (lp_AccountNumber <$> rows) → row ∈ rows →
  TrimSpace (lp_AccountNumber row) = lp_AccountNumber row →
  date_ok (lp_LoanStartDate row) → lp_LoanStartDate row ≠ MkDate 1 1 1 →
  ∃ p w', snapshot_ExactPosition loc (lp_AccountNumber row) date w = (Ok p, w') ∧
    position_ok p ∧ lp_AsOf p = date ∧ lp_AccountNumber p = lp_AccountNumber row ∧
    lp_LoanStartDate p = lp_LoanStartDate row ∧ lp_CollectabilityBI p = lp_CollectabilityBI row ∧
    (rat (lp_PrincipalOutstanding p) == rounded 10 (rat (lp_PrincipalOutstanding row)) # 10000000000)%Q ∧
    (rat (lp_PrincipalDue p) == rounded 10 (rat (lp_PrincipalDue row)) # 10000000000)%Q ∧
    lp_Branch p = lp_Branch row ∧ lp_Product p = lp_Product row.
Proof.
  intros Hutc Hmid Hw Hsnap Hval Hdate Has Hnd Hin Htrim Hstart Hne.
  unfold validateRows in Hval. apply bind_Ok in Hval as ([] & _ & Hval).
  apply validate_rows_Ok in Hval as (Hf & _ & _). rewrite Forall_forall in Hf.
  destruct (Hf row Hin) as (_ & Hk & _ & Hle & Hpd & Hi & Hpen & Hc).
  rewrite Forall_forall in Has. pose proof (Has row Hin) as Hdrow. cbv beta in Hdrow.
  assert (select_row (lp_AccountNumber row) date (tables w) = Some (stored row t)) as Hsel.
  { apply select_row_Some. rewrite Htrim, Hsnap. split; [by apply snapshot_of_lookup|by rewrite <- Hdrow]. }
  destruct (query_healthy (select_row (lp_AccountNumber row) date) w Hw) as (w' & Hq & _). rewrite Hsel in Hq.
  rewrite <- Hdrow in Hdate, Hle. pose proof (stored_row_position loc row t Hmid Hutc Hdate Hstart Hne Hle Hpd Hi Hpen Hc) as Hp.
  eexists _, w'. unfold snapshot_ExactPosition. rewrite Hq. cbv iota beta. rewrite <- Hdrow at 1. rewrite Hp.
  split; [reflexivity|]. split; [|cbn; rewrite !decimal_column_nonneg by lra; by split_and!].
  apply (stored_position_Ok loc (lp_AccountNumber row) (lp_AsOf row) (stored row t)); [done|apply Hdate|exact Hp].
Qed.

(** ** A concrete report *)

Definition ex_date : Date := MkDate 2026 1 5.
Definition ex_line (fields : list string) : string := Join fields "|" ++ String (chr 10) EmptyString.
Definition ex_report : list ascii := bytes (
  ex_line ["Date_Params"; "Loan Account No"; "Start Date"; "Loan Outstanding"; "BI Collectability";
           "Principal Arrears"; "Interest Arrears"; "Penalty Arrears"; "Branch Code"] ++
  ex_line ["05/01/2026"; " 1001 "; "2025-02-01"; "1.500.000"; "2"; "250.000"; "1.234,5"; "0"; "01-Main"])%string.
Definition ex_rows : list LoanPosition :=
  match parse (fun s => s) (fixed_zone 25200) ex_report ex_date with Ok rows => rows | Fail _ => [] end.
Definition ex_environment : refresh_environment :=
  {| rf_location := fixed_zone 25200;
     rf_fetch := FetchCurrentLoanPositions (fun s => s) (fixed_zone 25200) (fun _ _ => Ok ex_report);
     rf_error_text := fun _ => "error"%string;
     rf_now := time_date 2026 1 5 3600 (fixed_zone 25200);
     rf_now_replace := time_date 2026 1 5 3610 (fixed_zone 25200);
     rf_now_end := time_date 2026 1 5 3620 (fixed_zone 25200) |}.
Definition ex_tables : snapshot_tables :=
  {| snap_rows := ∅; lock_held := false; audit_log := [];
     snap_state := {| LastAttemptedAt := None; LastSuccessfulAt := None; LastStatus := "never";
                      LastRowCount := 0; LastErrorSummary := None |} |}.

Lemma ex_report_parses : parse (fun s => s) (fixed_zone 25200) ex_report ex_date = Ok ex_rows.
Proof. vm_compute. reflexivity. Qed.

Lemma Refresh_atomic_witness :
  let '(r, w') := Refresh ex_environment TriggerManual (World ex_tables []) in
  r = Ok 1 ∧ refreshed ex_environment (tables w') ∧ LastRowCount (snap_state (tables w')) = 1.
Proof.
  destruct (Refresh ex_environment TriggerManual (World ex_tables [])) as [r w'] eqn:E.
  assert (r = Ok 1) as Hr.
  { change r with (fst (r, w')). rewrite <- E. vm_compute. reflexivity. }
  split; [exact Hr|]. destruct (Refresh_atomic _ _ _ _ _ E) as (_ & _ & H).
  destruct (H 1 Hr) as (H1 & _ & H2). split; assumption.
Defined.

Lemma parse_validates_witness :
  length ex_rows = 1%nat ∧ validateRows ex_rows ex_date = Ok tt ∧ NoDup (lp_AccountNumber <$> ex_rows).
Proof.
  split; [vm_compute; reflexivity|].
  destruct (parse_validates _ _ _ _ _ ex_report_parses) as (H1 & _ & H2); [|split; assumption].
  vm_compute. repeat constructor.
Defined.

Lemma snapshot_reads_refresh_witness :
  ∃ row p w', ex_rows = [row] ∧
    snapshot_ExactPosition (fixed_zone 25200) "1001" ex_date
      (World (set_rows ex_tables (snapshot_of ex_rows 0)) []) = (Ok p, w') ∧
    lp_LoanStartDate p = MkDate 2025 2 1 ∧ lp_CollectabilityBI p = 2.
Proof.
  destruct ex_rows as [|row [|]] eqn:E; [vm_compute in E; discriminate E| |vm_compute in E; discriminate E].
  assert (lp_AsOf row = ex_date ∧ lp_AccountNumber row = "1001"%string ∧ lp_LoanStartDate row = MkDate 2025 2 1 ∧
    lp_CollectabilityBI row = 2 ∧ validateRows [row] ex_date = Ok tt) as (H1 & H2 & H3 & H4 & H5).
  { vm_compute in E. injection E as <-. vm_compute. repeat split. }
  destruct (snapshot_reads_refresh (fixed_zone 25200) [row] 0 row ex_date
    (World (set_rows ex_tables (snapshot_of [row] 0)) [])) as (p & w' & Hp & _ & _ & _ & Hs & Hc & _).
  - apply fixed_zone_utc_days. lia.
  - apply fixed_zone_midnights.
  - constructor.
  - reflexivity.
  - exact H5.
  - vm_compute. intuition discriminate.
  - repeat constructor. exact H1.
  - apply NoDup_singleton.
  - left.
  - rewrite H2. reflexivity.
  - rewrite H3. vm_compute. intuition discriminate.
  - rewrite H3. discriminate.
  - exists row, p, w'. rewrite H2 in Hp. rewrite H3 in Hs. rewrite H4 in Hc. split_and!; [reflexivity|exact Hp|exact Hs|exact Hc].
Defined.
