(* ===== verification/GoPath.v ===== *)
(** Go's [path] package, and the escapes of [net/url]: names with slashes. *)
From stdpp Require Import base list strings.
From Stdlib Require Import ZArith Lia Ascii.
From S2P Require Import Prelude GoStrings GoJSON.
Local Open Scope Z_scope.

Definition slash : ascii := "/".
Definition dot_part : list ascii := ["."%char].
Definition dotdot_part : list ascii := ["."%char; "."%char].

(** [path.Clean]: the elements kept so far, the last one first *)
Fixpoint clean_parts (rooted : bool) (kept : list (list ascii)) (parts : list (list ascii)) : list (list ascii) :=
  match parts with
  | [] => kept
  | p :: rest =>
      if bool_decide (p = []) || bool_decide (p = dot_part) then clean_parts rooted kept rest else
      if bool_decide (p = dotdot_part) then
        match kept with
        | k :: kept' =>
            if bool_decide (k = dotdot_part) then clean_parts rooted (p :: kept) rest
            else clean_parts rooted kept' rest
        | [] => clean_parts rooted (if rooted then [] else [p]) rest
        end
      else clean_parts rooted (p :: kept) rest
  end.
Definition clean_bytes (l : list ascii) : list ascii :=
  let rooted := has_prefix_bytes l [slash] in
  let kept := rev (clean_parts rooted [] (split_byte slash l)) in
  if rooted then slash :: join_bytes [slash] kept else
  match kept with [] => dot_part | _ => join_bytes [slash] kept end.
Definition Clean (s : string) : string := of_bytes (clean_bytes (bytes s)).

(** [path.Join], [path.Dir] and [path.Ext] *)
Definition path_Join (elements : list string) : string :=
  match List.filter (fun e => negb (empty e)) elements with
  | [] => EmptyString
  | l => Clean (Join l "/")
  end.
Definition path_Dir (s : string) : string :=
  Clean (of_bytes (take (Z.to_nat (last_index slash (bytes s) + 1)) (bytes s))).
Definition path_Ext (s : string) : string :=
  let name := drop (Z.to_nat (last_index slash (bytes s) + 1)) (bytes s) in
  if mem_byte "." name then of_bytes (drop (Z.to_nat (last_index "." name)) name) else EmptyString.

(** [path.Base], which [filepath.Base] is too *)
Definition Base (path : string) : string :=
  if empty path then "." else
  let l := trim_right_byte "/" (bytes path) in
  match l with
  | [] => "/"
  | _ => of_bytes (List.last (split_byte "/" l) [])
  end.

(** [url.PathUnescape] *)
Fixpoint unescape_bytes (l : list ascii) : option (list ascii) :=
  match l with
  | [] => Some []
  | c :: l1 =>
      if beq c "%" then
        match l1 with
        | a :: b :: l2 =>
            a' ← hex_digit a; b' ← hex_digit b; rest ← unescape_bytes l2;
            Some (chr (16 * a' + b') :: rest)
        | _ => None
        end
      else rest ← unescape_bytes l1; Some (c :: rest)
  end.
Definition PathUnescape (s : string) : option string := of_bytes <$> unescape_bytes (bytes s).

(** The bytes that [url.Parse] refuses *)
Definition control_byte (c : ascii) : bool := (code c <? 32) || (code c =? 127).

(** [strings.ContainsAny] for a set of bytes *)
Definition contains_any (s : string) (set : list ascii) : bool := existsb (fun c => mem_byte c (bytes s)) set.

(** ** What [Clean] leaves *)

Definition normal_part (p : list ascii) : Prop := p ≠ [] ∧ p ≠ dot_part ∧ p ≠ dotdot_part ∧ mem_byte slash p = false.

(** Elements to go up first, then plain names; none to go up from the root *)
Definition normal_parts (rooted : bool) (l : list (list ascii)) : Prop :=
  ∃ up names, l = names ++ up ∧ Forall normal_part names ∧ Forall (eq dotdot_part) up ∧ (rooted = true → up = []).

Lemma clean_parts_normal rooted kept parts :
  normal_parts rooted kept → Forall (λ p, mem_byte slash p = false) parts → normal_parts rooted (clean_parts rooted kept parts).
Proof.
  intros Hk Hp. revert kept Hk. induction Hp as [|p parts Hs _ IH]; intros kept Hk; [done|]. cbn [clean_parts].
  destruct (bool_decide (p = [])) eqn:E1; [by apply IH|]. destruct (bool_decide (p = dot_part)) eqn:E2; [by apply IH|].
  cbn [orb]. apply bool_decide_eq_false in E1, E2. case_bool_decide as E3.
  - subst p. destruct Hk as (up & names & -> & Hn & Hu & Hr). destruct names as [|n names].
    + destruct up as [|u up]; cbn [app].
      * apply IH. destruct rooted; [by exists [], []|]. exists [dotdot_part], []. by repeat constructor.
      * apply Forall_cons in Hu as [<- Hu]. rewrite bool_decide_eq_true_2 by done. apply IH.
        exists (dotdot_part :: dotdot_part :: up), []. split_and!; [done|done|by repeat constructor|].
        intros Hroot. by specialize (Hr Hroot).
    + apply Forall_cons in Hn as [(? & ? & Hne & ?) Hn]. cbn [app]. rewrite bool_decide_eq_false_2 by done.
      apply IH. by exists up, names.
  - apply IH. destruct Hk as (up & names & -> & Hn & Hu & Hr). exists up, (p :: names). split_and!; try done.
    by constructor.
Qed.

Lemma split_aux_parts sep cur l :
  mem_byte sep (rev cur) = false → Forall (λ p, mem_byte sep p = false) (split_aux sep cur l).
Proof.
  revert cur. induction l as [|a l IH]; intros cur Hc; cbn [split_aux]; [by constructor|].
  destruct (beq a sep) eqn:E; [constructor; [done|by apply IH]|]. apply IH. cbn [rev].
  rewrite mem_byte_app, Hc, mem_byte_cons. cbn. by rewrite beq_sym, E.
Qed.
Lemma split_byte_parts sep l : Forall (λ p, mem_byte sep p = false) (split_byte sep l).
Proof. by apply split_aux_parts. Qed.

(** A cleaned relative name that does not begin by going up never goes up. *)
Lemma clean_no_dotdot l :
  clean_bytes l = l → has_prefix_bytes l [slash] = false → l ≠ dotdot_part → has_prefix_bytes l (dotdot_part ++ [slash]) = false →
  dotdot_part ∉ split_byte slash l.
Proof.
  intros Hc Hroot Hne Hpre. unfold clean_bytes in Hc. rewrite Hroot in Hc.
  destruct (clean_parts_normal false [] (split_byte slash l)) as (up & names & E & Hn & Hu & _);
    [by exists [], []|apply split_byte_parts|].
  rewrite E, rev_app_distr in Hc. destruct (rev up ++ rev names) as [|p kept] eqn:Ek.
  - rewrite <- Hc. vm_compute. intros H. apply elem_of_cons in H as [H|H]; [done|by apply not_elem_of_nil in H].
  - assert (Forall (λ p, mem_byte slash p = false) (p :: kept)) as Hparts.
    { rewrite <- Ek. apply Forall_app. split; apply List.Forall_rev.
      - eapply Forall_impl; [exact Hu|]. by intros q <-.
      - eapply Forall_impl; [exact Hn|]. by intros q (_ & _ & _ & ?). }
    intros Hin. rewrite <- Hc, split_join in Hin by done. rewrite <- Ek in Hin.
    destruct (rev up) as [|u up'] eqn:Eu.
    + assert (Forall (λ p, p ≠ dotdot_part) (rev names)) as Hnames.
      { apply List.Forall_rev. eapply Forall_impl; [exact Hn|]. by intros q (_ & _ & ? & _). }
      rewrite Forall_forall in Hnames. by apply Hnames in Hin.
    + assert (u = dotdot_part) as ->.
      { assert (Forall (eq dotdot_part) (rev up)) as Hup by (by apply List.Forall_rev).
        rewrite Eu in Hup. by apply Forall_cons in Hup as [<- _]. }
      cbn [app] in Ek. injection Ek as <- <-. destruct (up' ++ rev names) as [|q kept]; [by apply Hne|].
      rewrite <- Hc in Hpre. cbn in Hpre. match type of Hpre with has_prefix_bytes ?x [] = _ => by destruct x end.
Qed.

(** [url.QueryEscape] and [url.QueryUnescape] *)
Definition unreserved (c : ascii) : bool :=
  is_digit c || ((65 <=? code c) && (code c <=? 90)) || ((97 <=? code c) && (code c <=? 122)) ||
  beq c "-" || beq c "_" || beq c "." || beq c "~".
Definition upper_hex (d : Z) : ascii := if d <? 10 then chr (48 + d) else chr (55 + d).
Definition query_escape_byte (c : ascii) : list ascii :=
  if unreserved c then [c] else if beq c " " then ["+"%char] else ["%"%char; upper_hex (code c / 16); upper_hex (code c mod 16)].
Definition QueryEscape (s : string) : string := of_bytes (List.concat (query_escape_byte <$> bytes s)).
Definition QueryUnescape (s : string) : option string :=
  of_bytes <$> unescape_bytes ((fun c => if beq c "+" then " "%char else c) <$> bytes s).

Lemma query_unescape_byte c tail :
  unescape_bytes (((fun c => if beq c "+" then " "%char else c) <$> query_escape_byte c) ++ tail) =
    rest ← unescape_bytes tail; Some (c :: rest).
Proof. destruct c as [[] [] [] [] [] [] [] []]; reflexivity. Qed.
Lemma QueryUnescape_escape s : QueryUnescape (QueryEscape s) = Some s.
Proof.
  unfold QueryUnescape, QueryEscape. rewrite bytes_of_bytes.
  assert (H : ∀ l, unescape_bytes ((fun c => if beq c "+" then " "%char else c) <$> List.concat (query_escape_byte <$> l)) = Some l).
  { induction l as [|c l IH]; [reflexivity|]. rewrite fmap_cons. cbn [List.concat].
    rewrite fmap_app, query_unescape_byte, IH. reflexivity. }
  rewrite H. cbn. by rewrite of_bytes_bytes.
Qed.

(** [url.ParseQuery], whose errors [URL.Query] drops: the pairs in their order *)
Definition query_pair (part : list ascii) : option (string * string) :=
  if mem_byte ";" part || bool_decide (part = []) then None else
  let '(key, value, _) := cut_byte "=" part in
  key ← QueryUnescape (of_bytes key); value ← QueryUnescape (of_bytes value); Some (key, value).
Definition ParseQuery (query : string) : list (string * string) := omap query_pair (split_byte "&" (bytes query)).
(** [values[key]] *)
Definition query_values (key : string) (pairs : list (string * string)) : list string :=
  snd <$> List.filter (fun pair => seqb (fst pair) key) pairs.

Definition query_text (pair : string * string) : list ascii := bytes (QueryEscape (fst pair)) ++ "="%char :: bytes (QueryEscape (snd pair)).
(** A byte that no escaped text holds *)
Lemma escaped_without sep s : existsb (beq sep) ["&"; "="; ";"]%char = true → mem_byte sep (bytes (QueryEscape s)) = false.
Proof.
  intros Hsep. unfold QueryEscape. rewrite bytes_of_bytes. induction (bytes s) as [|c l IH]; [done|].
  rewrite fmap_cons. cbn [List.concat]. rewrite mem_byte_app, IH, orb_false_r.
  cbn [existsb] in Hsep. rewrite orb_false_r, !orb_true_iff in Hsep.
  destruct Hsep as [->%beq_eq|[->%beq_eq| ->%beq_eq]]; destruct c as [[] [] [] [] [] [] [] []]; reflexivity.
Qed.
Lemma query_pair_text pair : query_pair (query_text pair) = Some pair.
Proof.
  destruct pair as [key value]. unfold query_pair, query_text. cbn [fst snd].
  rewrite mem_byte_app, mem_byte_cons, !(escaped_without ";") by reflexivity. cbn [orb].
  rewrite bool_decide_eq_false_2 by (by destruct (bytes (QueryEscape key))). change (beq ";" "=") with false. cbn [orb].
  rewrite cut_byte_found by (by apply escaped_without). rewrite !of_bytes_bytes, !QueryUnescape_escape. done.
Qed.
Lemma ParseQuery_text pairs : pairs ≠ [] → ParseQuery (of_bytes (join_bytes ["&"%char] (query_text <$> pairs))) = pairs.
Proof.
  intros Hne. unfold ParseQuery. rewrite bytes_of_bytes, split_join.
  - clear Hne. induction pairs as [|pair pairs IH]; [done|]. rewrite fmap_cons. cbn [omap list_omap]. by rewrite query_pair_text, IH.
  - by destruct pairs.
  - apply Forall_fmap, Forall_true. intros pair. unfold compose, query_text. rewrite mem_byte_app, mem_byte_cons.
    by rewrite !(escaped_without "&") by reflexivity.
Qed.
