(* ===== verification/Lps.v ===== *)
(** The LPS archive, [internal/lps]: customers (DN), deposits (DSN) and loans (DK)
    in the form of the deposit insurer, from the reports of Fincloud.

    The gateways are the fields of a record.  The pool of workers that looks up the
    customers missing from the report is a step machine, whose events are the
    choices of the scheduler and the cancellation of the request. *)
From stdpp Require Import base list strings gmap sorting.
From Stdlib Require Import ZArith Lia Ascii.
From S2P Require Import Prelude GoStrings GoErrors GoSlices GoTime GoCSV GoFloat GoJSON GoPath.
Local Open Scope Z_scope.

(** ** The code lists, [codes.go] *)

Definition codeSet (values : string) : gset string := list_to_set (Fields values).
Definition has_code (codes : gset string) (value : string) : bool := bool_decide (value ∈ codes).
Definition validGolonganDebitur : gset string := codeSet
  "0010 0020 0030 0040 0050 0060 0070 0080 0999 1010 1020 1030 2010 2020 2090 4111 4112 4113 4114 4115 4116 4119
   4120 4130 4140 4151 4152 4153 4154 4155 4159 4171 4172 4173 4179 4501 4502 4503 4504 4505 4506 4507 4508 4509
   4510 4511 4512 4513 4514 4515 4516 4599 5110 5120 5130 5140 5151 5152 5153 5154 5159 5199 5501 5502 5599 7110
   7120 7130 7140 7151 7152 7153 7154 7159 7172 7173 7174 7190 7210 7220 7230 7240 7251 7252 7253 7254 7259 7272
   7273 7290 7310 7320 7330 7340 7351 7352 7353 7354 7359 7372 7379 7390 8111 8112 8113 8114 8115 8116 8117 8118
   8139 8141 8149 8151 8152 8159 8411 8412 8413 8414 8415 8416 8417 8418 8449 8451 8452 8469 8480 8611 8612 8613
   8614 8615 8616 8617 8618 8619 8651 8652 8659 8670 8900 9001 9002 0600 0601 0700 0701 0901 9100 9200 9300 9400
   9501 9502 9519 9611 9612 9613 9629 9690 9700".
Definition validDati2 : gset string := codeSet
  "0000 0100 0102 0103 0106 0108 0109 0110 0111 0112 0113 0114 0115 0116 0117 0118 0119 0121 0122 0123 0180 0191
   0192 0193 0194 0195 0196 0197 0198 0200 0201 0202 0203 0204 0291 0292 0293 0294 0300 0391 0392 0393 0394 0395
   0396 0500 0501 0502 0503 0504 0591 0900 0901 0902 0903 0904 0905 0906 0907 0908 0909 0910 0911 0912 0913 0914
   0915 0916 0917 0918 0919 0920 0921 0922 0923 0924 0925 0926 0927 0928 0929 0991 0992 0993 0994 0995 0996 1200
   1201 1202 1203 1204 1205 1206 1207 1208 1209 1211 1212 1213 1214 1215 1216 1217 1218 1219 1220 1221 1222 1223
   1224 1225 1226 1227 1228 1229 1230 1271 1291 1292 1293 1294 1295 1296 1297 1298 2300 2301 2302 2303 2304 2305
   2306 2307 2308 2309 2391 3100 3101 3104 3105 3106 3107 3108 3109 3111 3112 3191 3192 3200 3201 3202 3203 3204
   3205 3206 3207 3208 3209 3210 3211 3212 3213 3214 3215 3216 3217 3218 3219 3291 3292 3293 3294 3300 3301 3302
   3303 3304 3305 3306 3307 3308 3309 3310 3311 3313 3314 3315 3316 3317 3318 3319 3321 3322 3323 3324 3325 3326
   3327 3391 3392 3393 3394 3395 3396 3397 3399 3400 3401 3402 3403 3404 3405 3406 3407 3408 3409 3410 3411 3412
   3491 3492 3493 3494 3495 3496 3497 3500 3501 3502 3504 3505 3508 3509 3510 3511 3512 3513 3591 3592 3600 3606
   3607 3608 3609 3610 3611 3613 3614 3615 3616 3617 3618 3619 3691 3693 3694 3697 3700 3701 3702 3703 3704 3705
   3706 3707 3791 3800 3801 3802 3803 3804 3805 3891 3892 3900 3901 3902 3903 3904 3905 3906 3907 3908 3909 3910
   3911 3912 3913 3991 3992 5100 5101 5102 5103 5104 5105 5106 5107 5108 5109 5110 5111 5191 5192 5300 5301 5302
   5303 5304 5305 5306 5307 5308 5309 5310 5311 5312 5391 5392 5400 5401 5402 5403 5404 5405 5406 5409 5410 5411
   5412 5413 5491 5492 5493 5494 5500 5800 5801 5802 5803 5804 5805 5806 5807 5808 5809 5810 5811 5812 5813 5892
   6000 6001 6002 6003 6004 6005 6006 6007 6008 6009 6010 6011 6012 6091 6100 6101 6102 6103 6105 6106 6107 6109
   6110 6111 6112 6113 6114 6115 6116 6117 6118 6119 6121 6122 6124 6125 6191 6192 6193 6200 6202 6203 6204 6205
   6206 6207 6209 6210 6211 6212 6213 6291 6292 6293 6294 6300 6301 6302 6303 6304 6305 6391 6400 6401 6402 6403
   6404 6405 6406 6491 6900 6901 6903 6904 6905 6906 6907 6908 6909 6910 6911 6912 6913 6914 6915 6916 6990 6991
   7100 7101 7102 7103 7104 7105 7106 7107 7108 7191 7192 7200 7201 7202 7203 7204 7205 7206 7207 7208 7291 7400
   7401 7402 7403 7404 7405 7406 7407 7408 7409 7410 7411 7412 7413 7414 7415 7416 7417 7418 7419 7420 7421 7491
   8100 8101 8102 8103 8104 8105 8106 8107 8108 8109 8191 8192 8200 8201 8202 8210 8211 8212 8213 8214 8215 8216
   8217 8218 8221 8222 8223 8224 8226 8227 8228 8231 8232 8233 8234 8235 8236 8237 8238 8239 8240 8291 8300 8302
   8303 8304 8305 8306 8307 8308 8309 8390 8391 8400 8401 8402 8403 8404 8405 8406 8407 8408 8409 8410 8411 8412
   8491 9999".
Definition isValidGolonganDebitur (value : string) : bool := has_code validGolonganDebitur value.
Definition isValidDati2 (value : string) : bool := has_code validDati2 value.

(** ** Tables *)

Record table := { header : list string; rows : list (list string) }.
Definition comma : ascii := "|".
Definition parseTable (body : list ascii) : res table :=
  match lazy_records comma body with
  | [] => Fail (Msg "empty CSV file")
  | h :: rs => Ok {| header := h; rows := rs |}
  end.
(** The first column with a name, if any *)
Fixpoint index_from (i : nat) (name : string) (h : list string) : option nat :=
  match h with
  | [] => None
  | x :: rest => if seqb (TrimSpace x) name then Some i else index_from (S i) name rest
  end.
Definition index (t : table) (name : string) : option nat := index_from 0 name (header t).
Fixpoint require (t : table) (columns : list string) : res unit :=
  match columns with
  | [] => Ok tt
  | c :: rest => fail_if (negb (bool_decide (is_Some (index t c)))) (Msg "missing column in CSV: ");; require t rest
  end.
Definition valueAt (row : list string) (i : option nat) : string := default EmptyString (i ≫= fun i => row !! i).
(** The value of a row in a column of the table *)
Definition column (t : table) (row : list string) (name : string) : string := valueAt row (index t name).

Definition transposed : Type := gmap string (gmap string string).
Definition add_row (h : list string) (key : nat) (m : transposed) (row : list string) : transposed :=
  let k := valueAt row (Some key) in
  <[k := fold_left (fun inner p => <[p.2 := valueAt row (Some p.1)]> inner) (imap pair h) (default ∅ (m !! k))]> m.
Definition transposeTable (body : list ascii) (keyColumn : string) : res transposed :=
  t ← parseTable body;
  key ← of_option (index t keyColumn) (Msg "missing column in CSV: ");
  Ok (fold_left (add_row (header t) key) (rows t) ∅).
(** [m[key][name]] *)
Definition cell (m : transposed) (key name : string) : string := default EmptyString ((m !! key) ≫= fun inner => inner !! name).

(** ** Texts *)

Definition valueIf (condition : bool) (ifTrue ifFalse : string) : string := if condition then ifTrue else ifFalse.
Definition zeros16 : string := "0000000000000000".

(** The characters that [disallowedAddress] leaves *)
Definition allowed_byte (c : ascii) : bool :=
  is_digit c || ((65 <=? code c) && (code c <=? 90)) || ((97 <=? code c) && (code c <=? 122)) ||
  mem_byte c (bytes ".,_'/()& -").
Fixpoint single_spaces (l : list ascii) : list ascii :=
  match l with
  | [] => []
  | c :: rest =>
      if beq c " " then match rest with
                        | d :: _ => if beq d " " then single_spaces rest else c :: single_spaces rest
                        | [] => [c]
                        end
      else c :: single_spaces rest
  end.
Definition cleanAlamat (value : string) : string :=
  TrimSpace (of_bytes (single_spaces (List.filter allowed_byte (bytes value)))).

Definition normalizeDati2 (value : string) : string :=
  let value := if slen value =? 3 then ("0" +:+ value)%string else value in
  if isValidDati2 value then value else "0000".

Definition digits (value : string) (length : Z) : bool := (slen value =? length) && forallb is_digit (bytes value).

Definition row_text (fields : list string) : string := Join fields "|".
Definition no_dash (s : string) : string := ReplaceAll s "-" EmptyString.

(** ** Customers: DN *)

Definition dnColumns : list string :=
  ["cif_no"; "cif_alternate_no"; "customer_type"; "customer_name"; "idtype"; "identity_number";
   "mother_maiden_name"; "birth_date"; "tax_id"; "management_name"; "management_identity"; "address1";
   "citydati2"; "phone_no"; "debtor_type"]%string.
Record customer := {
  CIF : string; AlternateCIF : string; CustomerType : string; CustomerName : string; IdentityType : string;
  IdentityNumber : string; MotherName : string; BirthDate : string; TaxID : string; ManagementName : string;
  ManagementIdentity : string; Address : string; Dati2 : string; Phone : string; DebtorType : string
}.
Definition customer_of (t : table) (cif : string) (row : list string) : customer :=
  let value := column t row in
  {| CIF := cif; AlternateCIF := value "cif_alternate_no"%string; CustomerType := value "customer_type"%string;
     CustomerName := value "customer_name"%string; IdentityType := value "idtype"%string;
     IdentityNumber := value "identity_number"%string; MotherName := value "mother_maiden_name"%string;
     BirthDate := value "birth_date"%string; TaxID := value "tax_id"%string; ManagementName := value "management_name"%string;
     ManagementIdentity := value "management_identity"%string; Address := value "address1"%string;
     Dati2 := value "citydati2"%string; Phone := value "phone_no"%string; DebtorType := value "debtor_type"%string |}.
Fixpoint customer_rows (t : table) (seen : gset string) (rs : list (list string)) : list customer * gset string :=
  match rs with
  | [] => ([], seen)
  | row :: rest =>
      let cif := TrimSpace (column t row "cif_no") in
      if empty cif || bool_decide (cif ∈ seen) then customer_rows t seen rest else
      let '(cs, seen) := customer_rows t ({[cif]} ∪ seen) rest in
      (customer_of t cif row :: cs, seen)
  end.
Definition parseCustomers (body : list ascii) : res (list customer * gset string) :=
  t ← parseTable body;
  require t dnColumns;;
  Ok (customer_rows t ∅ (rows t)).

Definition managementDebtorTypes : list string := ["8139"; "0070"; "2090"; "7174"; "4120"; "4599"]%string.
Definition needs_management (debtorType : string) : bool := existsb (seqb debtorType) managementDebtorTypes.
Definition known_identity (identityType : string) : bool := existsb (seqb identityType) ["KTP"; "PAS"; "KTS"]%string.

Section Debtors.
(** [DebtorTypeByAlternateCIF] of the MSO repository *)
Variable debtors : string → res string.

(** The type of a company: its own if it is a code, else what MSO has *)
Definition company_debtor (own alternate : string) : string :=
  if isValidGolonganDebitur own then own else
  match debtors alternate with
  | Ok fallback => if empty fallback || seqb fallback "0002" then "4599" else fallback
  | Fail _ => "4599"
  end.

Definition dn_row (value : customer) : string :=
  let individual := seqb (TrimSpace (CustomerType value)) "Perorangan" in
  let debtorType := if individual then "9002"%string else company_debtor (TrimSpace (DebtorType value)) (AlternateCIF value) in
  let managementIdentity := cleanAlamat (ManagementIdentity value) in
  let managementIdentity := if negb individual && empty managementIdentity then zeros16 else managementIdentity in
  let dati2 := normalizeDati2 (Dati2 value) in
  let identityNumber := TrimSpace (IdentityNumber value) in
  let identityNumber := if individual && empty identityNumber then zeros16 else identityNumber in
  let identityNumber := ReplaceAll identityNumber " " EmptyString in
  let '(identityNumber, managementIdentity) :=
    if needs_management debtorType
    then (EmptyString, if empty managementIdentity then zeros16 else managementIdentity)
    else (identityNumber, managementIdentity) in
  let mother := cleanAlamat (TrimSpace (MotherName value)) in
  let mother := if individual && empty mother then "IBU KANDUNG"%string else mother in
  let identityType := TrimSpace (IdentityType value) in
  let identityType := if known_identity identityType then identityType else "LN"%string in
  let identityType := if individual then identityType else EmptyString in
  let birthDate := if individual then no_dash (BirthDate value) else EmptyString in
  let managementName := TrimSpace (ManagementName value) in
  let managementName := if negb individual && empty managementName then "BAPAK"%string else managementName in
  row_text ["D"%string; CIF value; cleanAlamat (CustomerName value); identityType; identityNumber; mother; birthDate;
    valueIf individual (TaxID value) EmptyString; managementName; valueIf individual EmptyString "LN"; managementIdentity;
    cleanAlamat (Address value); valueIf (empty dati2) "0000" dati2; valueIf individual "WNI" EmptyString;
    cleanAlamat (Phone value); "1"%string; "N"%string; "20"%string; debtorType].
Definition buildDN (customers : list customer) : list string := dn_row <$> customers.

(** *** From the data of a CIF inquiry *)

Definition any_members (members : list (string * json)) : gmap string json :=
  fold_left (fun m kv => <[kv.1 := kv.2]> m) members ∅.
(** [fmt.Sprint] of a decoded value *)
Definition sprint_map (members : list (string * list ascii)) : list ascii :=
  let m : gmap string (list ascii) := fold_left (fun m kv => <[kv.1 := kv.2]> m) members ∅ in
  bytes "map[" ++
  join_bytes [" "%char] ((fun k => bytes k ++ ":"%char :: default [] (m !! k)) <$> SortStableFunc string_leb (map_to_list m).*1) ++
  ["]"%char].
Fixpoint sprint (j : json) : list ascii :=
  match j with
  | JNull => bytes "<nil>"
  | JBool b => bytes (if b then "true" else "false")
  | JNumber literal => bytes (format_shortest (default NaN (ParseFloat literal)))
  | JString s => bytes s
  | JArray elements =>
      "["%char :: join_bytes [" "%char] ((fix go l := match l with [] => [] | x :: rest => sprint x :: go rest end) elements) ++ ["]"%char]
  | JObject members =>
      sprint_map ((fix go l := match l with [] => [] | (k, x) :: rest => (k, sprint x) :: go rest end) members)
  end.
Definition stringValue (value : option json) : string :=
  match value with None | Some JNull => EmptyString | Some (JString s) => s | Some j => of_bytes (sprint j) end.
Definition objectString (value : option json) (key : string) : string :=
  match value with Some (JObject members) => stringValue (any_members members !! key) | _ => EmptyString end.
Definition firstObject (value : option json) : option (gmap string json) :=
  match value with
  | Some (JArray (x :: _)) => Some (match x with JObject members => any_members members | _ => ∅ end)
  | _ => None
  end.

Definition buildLiveDN (data : gmap string json) : string :=
  let text := fun key => stringValue (data !! key) in
  let individual := seqb (text "jenisnasabah"%string) "Perorangan" in
  let identityType := if individual
    then let t := text "jenisidentitas"%string in if known_identity t then t else "LN"%string
    else EmptyString in
  let debtorType := if individual then "9002"%string
    else company_debtor (text "datauntuksid_golongandebitur"%string) (text "noalt"%string) in
  let identityNumber := text "perorangan_noktp"%string in
  let identityNumber := if individual && empty identityNumber then zeros16 else identityNumber in
  let mother := cleanAlamat (text "perorangan_namaibukandung"%string) in
  let mother := if individual && empty mother then "IBU KANDUNG"%string else mother in
  let birthDate := of_bytes (fst (fst (cut_byte " " (bytes (objectString (data !! "dataktp_tgllahir"%string) "date"))))) in
  let birthDate := if individual then no_dash birthDate else EmptyString in
  let '(managementName, managementIdentity) :=
    if individual then (EmptyString, EmptyString) else
    match firstObject (data !! "datapengurusperusahaan"%string) with
    | Some management =>
        let identity := cleanAlamat (stringValue (management !! "noktp"%string)) in
        (cleanAlamat (stringValue (management !! "nama"%string)), if empty identity then zeros16 else identity)
    | None => ("BAPAK"%string, EmptyString)
    end in
  let '(identityNumber, managementIdentity) :=
    if needs_management debtorType
    then (EmptyString, if empty managementIdentity then zeros16 else managementIdentity)
    else (identityNumber, managementIdentity) in
  let dati2 := normalizeDati2 (text "datauntuksid_dati2debitur"%string) in
  row_text ["D"%string; text "id"%string; text "namanasabah"%string; identityType; identityNumber; mother; birthDate;
    valueIf individual (text "profilresiko_identitasnasabah"%string) EmptyString; managementName;
    valueIf individual EmptyString "LN"; managementIdentity; cleanAlamat (text "dataalamat_ktp_alamat1"%string); dati2;
    valueIf individual "WNI" EmptyString; cleanAlamat (text "dataalamat_rumah_nohp"%string);
    "1"%string; "N"%string; "20"%string; debtorType].
End Debtors.

(** ** Rates, [rates.go] *)

Record RateEntry := { rate_Date : time; BPR : float64 }.

(** The digits of an hour may be one or two. *)
Definition hour_digits (l : list ascii) : option (Z * list ascii) :=
  match take_digits 2 l with Some r => Some r | None => take_digits 1 l end.
Definition skip_char (c : ascii) (l : list ascii) : option (list ascii) :=
  match l with a :: rest => if beq a c then Some rest else None | [] => None end.
(** A fraction of a second, which the layout does not ask for *)
Fixpoint skip_digits (l : list ascii) : list ascii :=
  match l with c :: rest => if is_digit c then skip_digits rest else l | [] => [] end.
Definition skip_fraction (l : list ascii) : list ascii :=
  match l with
  | p :: d :: rest => if (beq p "." || beq p ",") && is_digit d then skip_digits rest else l
  | _ => l
  end.
(** "T15:04:05" *)
Definition clock_part (l : list ascii) : option (list ascii) :=
  l ← skip_char "T" l; '(h, l) ← hour_digits l;
  if negb (h <? 24) then None else
  l ← skip_char ":" l; '(m, l) ← take_digits 2 l;
  if negb (m <? 60) then None else
  l ← skip_char ":" l; '(s, l) ← take_digits 2 l;
  if negb (s <? 60) then None else Some (skip_fraction l).
(** "Z07:00" *)
Definition zone_part (l : list ascii) : option (list ascii) :=
  match l with
  | c :: rest =>
      if beq c "Z" then Some rest else
      if beq c "+" || beq c "-" then
        '(h, l) ← take_digits 2 rest; l ← skip_char ":" l; '(m, l) ← take_digits 2 l;
        if (h <=? 24) && (m <=? 60) then Some l else None
      else None
  | [] => None
  end.
(** The date of a text in the layouts with a time of the day *)
Definition date_with_clock (zone : bool) (value : string) : option (Z * Z * Z) :=
  let l := bytes value in
  '(y, m, d) ← parse_civil layout_iso (of_bytes (take 10 l));
  l ← clock_part (drop 10 l);
  l ← (if zone then zone_part l else Some l);
  if bool_decide (l = []) then Some (y, m, d) else None.
Definition parseLPSRateDate (value : string) : res time :=
  if empty value then Fail (Msg "date is empty") else
  let first := fun a b : option (Z * Z * Z) => match a with Some _ => a | None => b end in
  match first (date_with_clock false value) (first (date_with_clock true value)
          (first (parse_civil layout_iso value) (parse_civil layout_compact value))) with
  | Some (y, m, d) => Ok (time_date y m d 0 UTC)
  | None => Fail (Msg "invalid date format")
  end.

Definition rate_form (asOf : time) (location : Location) : string :=
  let quoted := fun s => ([chr 34] ++ bytes s ++ [chr 34])%list in
  let sort := bytes "[{" ++ quoted "selector" ++ bytes ":" ++ quoted "startDate" ++ bytes "," ++ quoted "desc" ++ bytes ":true}]" in
  let filter := bytes "[" ++ quoted "startDate" ++ bytes "," ++ quoted "<=" ++ bytes "," ++
                quoted (format_time layout_iso asOf location) ++ bytes "]" in
  ("filter=" +:+ QueryEscape (of_bytes filter) +:+ "&sort=" +:+ QueryEscape (of_bytes sort))%string.

Record rate_row := { StartDate : string; RateBPR : float64 }.
Definition decode_float : decoder float64 := fun current j =>
  match j with JNull => Some current | JNumber n => ParseFloat n | _ => None end.
Definition decode_rate_row : decoder rate_row := fun current j =>
  members ← members_of j;
  let names := ["startDate"; "rateBPR"]%string in
  start ← decode_field names "startDate" decode_string (StartDate current) members;
  bpr ← decode_field names "rateBPR" decode_float (RateBPR current) members;
  Some {| StartDate := start; RateBPR := bpr |}.
(** [json.Decoder.Decode]: what follows the first value is not read *)
Definition decode_first {T} (dec : decoder T) (zero : T) (body : list ascii) : option T :=
  '(j, _) ← json_value (S (2 * length body)) 0 body; dec zero j.
Fixpoint rate_entries (data : list rate_row) : res (list RateEntry) :=
  match data with
  | [] => Ok []
  | row :: rest =>
      let startDate := TrimSpace (StartDate row) in
      if empty startDate then rate_entries rest else
      match parseLPSRateDate startDate with
      | Fail _ => Fail (Msg "row %d: invalid startDate")
      | Ok date => entries ← rate_entries rest; Ok ({| rate_Date := date; BPR := RateBPR row |} :: entries)
      end
  end.
(** [Rates]: [http] sends the form and gives the status and the body of the answer *)
Definition Rates (http : string → res (Z * list ascii)) (asOf : time) (location : Location) : res (list RateEntry) :=
  match http (rate_form asOf location) with
  | Fail e => Fail (Wrap "LPS rate request: %w" e)
  | Ok (status, body) =>
      fail_if ((status <? 200) || (300 <=? status)) (Msg "LPS rate request failed: %s");;
      match decode_first (decode_struct1 "data" (decode_slice decode_rate_row {| StartDate := ""; RateBPR := float_zero |})) [] body with
      | None => Fail (Wrap "decode LPS rate response: %w" (Msg "json"))
      | Some data =>
          entries ← rate_entries data;
          fail_if (bool_decide (entries = [])) (Msg "no LPS rate rows found from LPS website");;
          Ok entries
      end
  end.

(** ** Deposits and loans, [accounts.go] *)

Definition stringToFloat (value : string) : float64 := default float_zero (ParseFloat (ReplaceAll value "," EmptyString)).
Definition float_one : float64 := nearest false 1 1.
Definition float_hundred : float64 := nearest false 100 1.
Definition parsePercentage (value : string) : res float64 :=
  let raw := TrimSpace value in
  if empty raw then Fail (Msg "empty percentage") else
  let hasPercent := HasSuffix raw "%" in
  let raw := if hasPercent then TrimSpace (TrimSuffix raw "%") else raw in
  match ParseFloat (ReplaceAll raw "," ".") with
  | None => Fail (Msg "strconv.ParseFloat: parsing %q")
  | Some parsed =>
      Ok (if negb hasPercent && float_lt float_zero parsed && float_lt parsed float_one
          then float_mul parsed float_hundred else parsed)
  end.

Definition dsnColumns : list string :=
  ["cif_no"; "acc_no"; "product"; "start_date"; "interest_rate"; "nominal"; "blocked_nominal"; "end_date"]%string.
Definition same_columns (savings deposits : table) : list string → res unit :=
  fix go columns :=
    match columns with
    | [] => Ok tt
    | c :: rest =>
        s ← of_option (index savings c) (Msg "missing column in savings CSV: ");
        d ← of_option (index deposits c) (Msg "missing column in time deposit CSV: ");
        fail_if (negb (s =? d)%nat) (Msg "column index mismatch between savings and time deposit CSV for column: ");;
        go rest
    end.
Definition rate_table (rates : list RateEntry) : gmap string float64 :=
  fold_left (fun m entry => <[format_time layout_iso (rate_Date entry) UTC := BPR entry]> m) rates ∅.
Definition rate_at (rates : list RateEntry) (key : string) : float64 := default float_zero (rate_table rates !! key).
Definition reporting_rate_key (reportingDate : string) : string :=
  match parseLPSRateDate reportingDate with Ok t => format_time layout_iso t UTC | Fail _ => reportingDate end.
Definition blocked_products : list string := ["103"; "114"; "115"; "116"; "117"; "118"]%string.

(** What the rows of a report give: the lines, and the customers they name *)
Fixpoint account_rows (cif_of account_of : list string → string) (line : list string → string → string → res string)
    (rs : list (list string)) : res (list string * gset string) :=
  match rs with
  | [] => Ok ([], ∅)
  | row :: rest =>
      let cif := TrimSpace (cif_of row) in
      if empty cif then account_rows cif_of account_of line rest else
      let account := TrimSpace (account_of row) in
      if empty account
      then '(lines, cifs) ← account_rows cif_of account_of line rest; Ok (lines, {[cif]} ∪ cifs)
      else text ← line row cif account;
           '(lines, cifs) ← account_rows cif_of account_of line rest;
           Ok (text :: lines, {[cif]} ∪ cifs)
  end.

Section Accounts.
(** [int] of a float64 that is no [int]: the language leaves it to the machine *)
Variable unrepresentable : float64 → Z.
Definition whole (f : float64) : string := Itoa (float_int unrepresentable f).

Definition rate_of (raw : string) : res float64 :=
  match parsePercentage raw with Ok f => Ok f | Fail e => Fail (Wrap "invalid interest rate %q for account %s: %w" e) end.

Definition savings_line (savings : table) (standing : transposed) (reportingDate : string) (rates : list RateEntry)
    (row : list string) (cif account : string) : res string :=
  let value := column savings row in
  let fundStatus := if existsb (HasPrefix (value "product"%string)) blocked_products then "B"%string else "S"%string in
  let endDate := if seqb fundStatus "B"
                 then let e := cell standing account "End Date" in if empty e then reportingDate else e
                 else reportingDate in
  let blocked := stringToFloat (value "blocked_nominal"%string) in
  let blockReason := valueIf (float_lt float_zero blocked) "99" EmptyString in
  interestRate ← rate_of (value "interest_rate"%string);
  let nominal := stringToFloat (value "nominal"%string) in
  Ok (row_text ["D"%string; "R"%string; EmptyString; cif; "TAB"%string; value "acc_no"%string; fundStatus;
    no_dash reportingDate; "1"%string; format_fixed2 interestRate; "0"%string;
    format_fixed2 (rate_at rates (reporting_rate_key reportingDate)); "1"%string; whole nominal; whole blocked; blockReason;
    "0"%string; EmptyString; no_dash endDate]).
Definition deposit_line (savings : table) (balances : transposed) (reportingDate : string) (rates : list RateEntry)
    (row : list string) (cif account : string) : res string :=
  let value := column savings row in
  let startDate := TrimSpace (value "start_date"%string) in
  let lpsRate := rate_at rates startDate in
  interestRate ← rate_of (value "interest_rate"%string);
  let nominal := stringToFloat (value "nominal"%string) in
  let accrued := stringToFloat (cell balances account "Accrued Interest") in
  let lastAccrual := valueIf (float_lt float_zero accrued) reportingDate EmptyString in
  let category := valueIf (float_lt lpsRate interestRate) "2.B" "1" in
  Ok (row_text ["D"%string; "R"%string; EmptyString; cif; "DEP"%string; account; "B"%string; no_dash startDate; "1"%string;
    format_fixed2 interestRate; "0"%string; format_fixed2 lpsRate; category; whole nominal; "0"%string; EmptyString;
    whole accrued; lastAccrual; no_dash (value "end_date"%string)]).

Definition buildDSN (savingsBody depositBody balanceBody standingBody : list ascii) (reportingDate : string)
    (rates : list RateEntry) : res (list string * gset string) :=
  savings ← wrap_err "parse savings: %w" (parseTable savingsBody);
  deposits ← wrap_err "parse deposits: %w" (parseTable depositBody);
  same_columns savings deposits dsnColumns;;
  balances ← wrap_err "parse deposit balances: %w" (transposeTable balanceBody "Account No");
  standing ← wrap_err "parse Standing Order source: %w" (transposeTable standingBody "Destination Account Number");
  let cif_of := fun row => column savings row "cif_no" in
  let account_of := fun row => column savings row "acc_no" in
  '(lines1, cifs1) ← account_rows cif_of account_of (savings_line savings standing reportingDate rates) (rows savings);
  '(lines2, cifs2) ← account_rows cif_of account_of (deposit_line savings balances reportingDate rates) (rows deposits);
  Ok (lines1 ++ lines2, cifs1 ∪ cifs2).

Definition dkColumns : list string :=
  ["cifno"; "loan_no"; "collectibility"; "credit_limit_effective"; "outstanding"; "principal_arrears"; "start_date"; "mature_date"]%string.
Definition loan_line (loans : table) (details : transposed) (row : list string) (cif account : string) : res string :=
  let value := column loans row in
  Ok (row_text ["D"%string; cif; account; "03"%string; value "collectibility"%string;
    whole (stringToFloat (value "credit_limit_effective"%string)); whole (stringToFloat (value "outstanding"%string));
    whole (stringToFloat (value "principal_arrears"%string)); whole (stringToFloat (cell details account "tunggakan_bunga"));
    "300"%string; no_dash (value "start_date"%string); no_dash (value "mature_date"%string); "4"%string]).
Definition buildDK (body detailBody : list ascii) : res (list string * gset string) :=
  loans ← wrap_err "parse loans: %w" (parseTable body);
  require loans dkColumns;;
  details ← wrap_err "parse loan details: %w" (transposeTable detailBody "no_rekening");
  account_rows (fun row => column loans row "cifno") (fun row => column loans row "loan_no") (loan_line loans details) (rows loans).
End Accounts.

(** ** Customers that the report lacks: the pool of [completeMissingDN] *)

(** [waiting] are still to be sent over the channel [work]; [results] is in the order
    in which the workers were done; [stopped] is the error of the context. *)
Record pool := {
  waiting : list string; working : list string; results : list (string * res string); stopped : option err
}.
Inductive pool_event :=
| Take                                  (* a free worker receives the next CIF *)
| Finish (worker : nat) (cut : bool)    (* a worker sends its result; [cut] when the context ended its call *)
| Cancel (e : err)                      (* the context ends *)
| StopFeeding.                          (* the feeder sees that it has *)
Definition pool_size (missing : list string) : nat := Nat.min 5 (length missing).
Definition new_pool (missing : list string) : pool := {| waiting := missing; working := []; results := []; stopped := None |}.

Section Pool.
Variable lookup : string → res string.
Variable workers : nat.

(** [None] when the event cannot happen *)
Definition pool_step (e : pool_event) (p : pool) : option pool :=
  match e with
  | Take =>
      match waiting p with
      | cif :: rest =>
          if (length (working p) <? workers)%nat
          then Some {| waiting := rest; working := working p ++ [cif]; results := results p; stopped := stopped p |}
          else None
      | [] => None
      end
  | Finish i cut =>
      cif ← working p !! i;
      r ← (if (cut : bool) then Fail <$> stopped p else Some (lookup cif));
      Some {| waiting := waiting p; working := delete i (working p); results := results p ++ [(cif, r)]; stopped := stopped p |}
  | Cancel e =>
      match stopped p with
      | None => Some {| waiting := waiting p; working := working p; results := results p; stopped := Some e |}
      | Some _ => None
      end
  | StopFeeding =>
      match stopped p with
      | Some _ => Some {| waiting := []; working := working p; results := results p; stopped := stopped p |}
      | None => None
      end
  end.
Fixpoint run_pool (events : list pool_event) (p : pool) : option pool :=
  match events with
  | [] => Some p
  | e :: rest => p ← pool_step e p; run_pool rest p
  end.
Definition pool_idle (p : pool) : bool := bool_decide (waiting p = []) && bool_decide (working p = []).
(** The loop over the channel of results *)
Definition first_error (rs : list (string * res string)) : option err :=
  head (omap (fun r => match r.2 with Fail e => Some e | Ok _ => None end) rs).
Definition lines_of (rs : list (string * res string)) : list string :=
  omap (fun r => match r.2 with Ok line => Some line | Fail _ => None end) rs.
Definition collect (p : pool) : res (list string) :=
  match first_error (results p) with
  | Some e => Fail (Wrap "complete missing CIF %s: %w" e)
  | None => match stopped p with Some e => Fail e | None => Ok (lines_of (results p)) end
  end.
End Pool.

(** [order] is the order in which the range over the map of needed customers meets the
    missing ones.  [None] when the events are no complete run of the pool. *)
Definition completeMissingDN (lookup : string → res string) (seen needed : gset string) (order : list string)
    (events : list pool_event) : option (res (list string)) :=
  if negb (bool_decide (list_to_set order = needed ∖ seen) && bool_decide (NoDup order)) then None else
  if bool_decide (order = []) then Some (Ok []) else
  p ← run_pool lookup (pool_size order) events (new_pool order);
  if pool_idle p then Some (collect p) else None.

(** ** The generator, [generator.go] *)

Record Gateways := {
  report : string → string → res (list ascii);          (* DownloadMaintenanceReport, file and path *)
  named_report : string → list string → res (list ascii);
  inquiry : string → res (gmap string json);            (* GetCIF *)
  debtor_type : string → res string;                    (* DebtorTypeByAlternateCIF *)
  current_rates : res (list RateEntry)
}.
Record Input := { ParticipantCode : string; ReportingDate : string; Period : string; Version : string }.
Record Result := { Filename : string; DNRows : Z; DSNRows : Z; DKRows : Z; DSJRows : Z }.

Section Generator.
(** [unicode.IsLetter] or [unicode.IsDigit] of a rune outside ASCII *)
Variable unicode_word : list ascii → bool.
Variable unrepresentable : float64 → Z.
Variable gateways : Gateways.
Variable location : Location.

Definition token_byte (c : ascii) : bool :=
  is_digit c || ((65 <=? code c) && (code c <=? 90)) || ((97 <=? code c) && (code c <=? 122)) || beq c "-" || beq c "_".
Definition token_rune (r : option (list ascii)) : bool :=
  match r with None => false | Some [c] => token_byte c | Some r => unicode_word r end.
Definition safeToken (value : string) : bool :=
  negb (empty value || (32 <? slen value)) && forallb token_rune (utf8_runes (bytes value)).
Definition validate (input : Input) : res time :=
  fail_if (negb (digits (ParticipantCode input) 8) || negb (digits (ReportingDate input) 8) ||
           negb (safeToken (Period input)) || negb (safeToken (Version input)))
          (errorf ErrInvalidInput "%w: invalid LPS input");;
  of_option (parse_time layout_compact (ReportingDate input) location) (errorf ErrInvalidInput "%w: invalid reporting date").

Definition part_name (number : Z) : string :=
  ("DetailOutstandingRekeningPinjaman_" +:+ of_bytes (pad_left "0" 3 (utoa number)) +:+ ".csv")%string.
Definition after_newline (part : list ascii) : list ascii :=
  match cut_byte newline part with (_, rest, true) => rest | _ => [] end.
(** The parts from the [number]th on, after the text and the header of those before *)
Fixpoint detail_parts (path : string) (numbers : list Z) (combined : list ascii) (headers : list string) : res (list ascii) :=
  match numbers with
  | [] => Ok combined
  | number :: rest =>
      part ← wrap_err "download loan detail part %03d: %w" (report gateways (part_name number) path);
      head ← of_option (lazy_record comma (normalize_newlines part)) (Wrap "read loan detail part %03d header: %w" (Msg "EOF"));
      let header := head.1 in
      if number =? 1
      then detail_parts path rest (combined ++ bytes (row_text header) ++ [newline] ++ after_newline part) header
      else
        let known : gset string := list_to_set headers in
        fail_if (negb (length header =? size known)%nat || negb (forallb (fun h => bool_decide (h ∈ known)) header))
                (Msg "loan detail part %03d has inconsistent header");;
        detail_parts path rest (combined ++ after_newline part) headers
  end.
Definition part_numbers : list Z := [1; 2; 3; 4; 5; 6; 7; 8].
Definition downloadLoanDetails (path : string) : res (list ascii) :=
  match report gateways "DetailOutstandingRekeningPinjaman.csv" path with
  | Ok body => Ok body
  | Fail _ => detail_parts path part_numbers [] []
  end.

Definition rowsBody (rows : list string) : string :=
  if bool_decide (rows = []) then EmptyString else (Join rows (of_bytes [newline]) +:+ of_bytes [newline])%string.
Definition count_lines (body : string) : Z := Z.of_nat (count_byte newline (bytes body)).
Definition file_header (input : Input) (count : Z) : string :=
  row_text ["H"%string; ParticipantCode input; ReportingDate input; Period input; Version input; Itoa count].
Definition buildFileContent (input : Input) (count : Z) (body : string) : string :=
  (file_header input count +:+ of_bytes [newline] +:+ body)%string.
Definition file_name (kind : string) (input : Input) : string :=
  (Join [kind; ParticipantCode input; ReportingDate input; Period input; Version input] "_" +:+ ".txt")%string.

(** What the reports give: the lines of each file, the customers of the report and
    the customers that the other files name *)
Record gathered := {
  dn_lines : list string; dsn_lines : list string; dk_lines : list string; known : gset string; needed : gset string
}.
Definition gather (input : Input) : res gathered :=
  date ← validate input;
  rates ← wrap_err "fetch LPS rates: %w" (current_rates gateways);
  let datePath := format_time layout_compact date location in
  let cbrPath := ("/app/report/cbr/" +:+ datePath)%string in
  let dailyPath := ("/app/report/daily/" +:+ datePath)%string in
  customerBody ← wrap_err "download DN source: %w" (report gateways "cbrcustomer.csv" cbrPath);
  savingsBody ← wrap_err "download savings source: %w" (report gateways "cbrsavings.csv" cbrPath);
  depositBody ← wrap_err "download deposit source: %w" (report gateways "cbrtimedeposit.csv" cbrPath);
  balanceBody ← wrap_err "download deposit balance source: %w" (report gateways "Time Deposit Account Balance Details.csv" dailyPath);
  standingBody ← wrap_err "download Standing Order source: %w"
    (named_report gateways "Standing Order Report csv" ["ALL"%string; EmptyString; EmptyString; EmptyString; EmptyString; EmptyString; EmptyString]);
  loanBody ← wrap_err "download DK source: %w" (report gateways "cbrloan.csv" cbrPath);
  detailBody ← downloadLoanDetails dailyPath;
  '(customers, seenCIF) ← wrap_err "parse DN source: %w" (parseCustomers customerBody);
  '(dsnRows, dsnCIF) ← buildDSN unrepresentable savingsBody depositBody balanceBody standingBody (ReportingDate input) rates;
  '(dkRows, dkCIF) ← buildDK unrepresentable loanBody detailBody;
  Ok {| dn_lines := buildDN (debtor_type gateways) customers; dsn_lines := dsnRows; dk_lines := dkRows; known := seenCIF;
        needed := dsnCIF ∪ dkCIF |}.

Definition live_row (cif : string) : res string :=
  data ← inquiry gateways cif; Ok (buildLiveDN (debtor_type gateways) data).

(** The entries of the archive, in the order of their names *)
Definition archive_of (input : Input) (g : gathered) (additional : list string) : Result * list (string * string) :=
  let dnBody := rowsBody (dn_lines g) in
  let dnCount := count_lines dnBody in
  let '(dnBody, dnCount) := if bool_decide (additional = []) then (dnBody, dnCount)
    else ((dnBody +:+ Join additional (of_bytes [newline]))%string, dnCount + Z.of_nat (length additional)) in
  let dsnBody := rowsBody (dsn_lines g) in
  let dkBody := rowsBody (dk_lines g) in
  let result := {| Filename := ("LPS_" +:+ ParticipantCode input +:+ "_" +:+ ReportingDate input +:+ ".zip")%string;
                   DNRows := dnCount; DSNRows := count_lines dsnBody; DKRows := count_lines dkBody; DSJRows := 0 |} in
  let files : gmap string (Z * string) :=
    <[file_name "DN" input := (DNRows result, dnBody)]> (<[file_name "DSN" input := (DSNRows result, dsnBody)]>
    (<[file_name "DK" input := (DKRows result, dkBody)]> (<[file_name "DSJ" input := (0, EmptyString)]> ∅))) in
  (result, omap (fun name => '(count, body) ← files !! name; Some (name, buildFileContent input count body))
             (SortStableFunc string_leb (map_to_list files).*1)).
(** [sink] is whether the archive can be written.  [None] when [order] and [events] are
    no complete run of the pool. *)
Definition Generate (input : Input) (order : list string) (events : list pool_event) (sink : res unit)
    : option (res (Result * list (string * string))) :=
  match gather input with
  | Fail e => Some (Fail e)
  | Ok g =>
      completed ← completeMissingDN live_row (known g) (needed g) order events;
      Some (additional ← completed; sink;; Ok (archive_of input g additional))
  end.
End Generator.
