(* ===== verification/LpsFacts.v ===== *)
(** What the LPS archive guarantees: the lookups of missing customers end and lose
    nothing, every account has its customer, the counts in the headers are right,
    and amounts keep their digits. *)
From stdpp Require Import base list strings gmap sorting.
From Stdlib Require Import ZArith Lia Ascii.
From S2P Require Import Prelude GoStrings GoErrors GoSlices GoTime GoCSV GoFloat GoJSON GoPath Lps.
Local Open Scope Z_scope.

(** ** The pool *)

Section Pool.
Variable lookup : string → res string.
Variable workers : nat.

(** What holds of the pool after [events], from the missing customers [order] *)
Record sound_pool (order : list string) (events : list pool_event) (p : pool) : Prop := {
  sp_known : ∀ r, r ∈ results p → r.1 ∈ order;
  sp_working : ∀ cif, cif ∈ waiting p ++ working p → cif ∈ order;
  sp_answer : ∀ r, r ∈ results p → r.2 = lookup r.1 ∨ ∃ e, stopped p = Some e ∧ r.2 = Fail e;
  sp_stopped : ∀ e, stopped p = Some e → Cancel e ∈ events;
  sp_all : stopped p = None → order ≡ₚ waiting p ++ working p ++ (results p).*1
}.

Lemma sound_pool_more order events events' p :
  sound_pool order events p → (∀ e, e ∈ events → e ∈ events') → sound_pool order events' p.
Proof. intros [] H. constructor; eauto. Qed.
Lemma sound_new order : sound_pool order [] (new_pool order).
Proof. constructor; cbn; try set_solver. intros _. by rewrite !app_nil_r. Qed.
Lemma sound_step order events e p p' :
  sound_pool order events p → pool_step lookup workers e p = Some p' → sound_pool order (events ++ [e]) p'.
Proof.
  intros [H1 H2 H3 H4 H5]. destruct e as [|i cut|e|]; cbn.
  - destruct (waiting p) as [|cif rest]; [done|]. case_match; [|done]. intros [= <-].
    constructor; cbn; try set_solver. intros Hs. rewrite (H5 Hs). solve_Permutation.
  - intros H. apply bind_Some in H as (cif & Hi & H). apply bind_Some in H as (r & Hr & [= <-]).
    assert (Hw : working p ≡ₚ cif :: delete i (working p)) by (by apply delete_Permutation).
    assert (Hc : cif ∈ order) by (apply H2, elem_of_app; right; rewrite Hw; by left).
    constructor; cbn.
    + intros x [Hx| ->%list_elem_of_singleton]%elem_of_app; [by apply H1|done].
    + intros x [Hx|Hx]%elem_of_app; apply H2, elem_of_app; [by left|right]. rewrite Hw. by right.
    + intros x [Hx| ->%list_elem_of_singleton]%elem_of_app; [by apply H3|]. destruct cut; cbn; [|left; congruence].
      right. destruct (stopped p) as [e|]; [|done]. injection Hr as <-. by exists e.
    + intros e He. apply elem_of_app. left. by apply H4.
    + intros Hs. rewrite (H5 Hs), fmap_app. cbn. rewrite Hw at 1. solve_Permutation.
  - destruct (stopped p) eqn:Es; [done|]. intros [= <-]. constructor; cbn; try done; [|set_solver].
    intros x Hx. destruct (H3 x Hx) as [?|(? & ? & ?)]; [by left|done].
  - destruct (stopped p) eqn:Es; [|done]. intros [= <-]. constructor; cbn; try done; set_solver.
Qed.
Lemma sound_run order events events' p p' :
  sound_pool order events p → run_pool lookup workers events' p = Some p' → sound_pool order (events ++ events') p'.
Proof.
  revert events p. induction events' as [|e rest IH]; intros events p Hp H; cbn in H.
  { injection H as <-. by rewrite app_nil_r. }
  apply bind_Some in H as (p1 & H1 & H). apply (sound_step _ _ _ _ _ Hp) in H1. apply (IH _ _ H1) in H. by rewrite <- app_assoc in H.
Qed.

(** From any state the pool can be brought to rest. *)
Lemma pool_finishes p :
  (0 < workers)%nat → ∃ events p', Forall (λ e, e = Take ∨ ∃ i, e = Finish i false) events ∧
    (length events = 2 * length (waiting p) + length (working p))%nat ∧
    run_pool lookup workers events p = Some p' ∧ pool_idle p' = true.
Proof.
  intros Hw. remember (2 * length (waiting p) + length (working p))%nat as n eqn:Hn. revert p Hn.
  induction n as [|n IH]; intros p Hn.
  { exists [], p. split_and!; [constructor|done|done|]. unfold pool_idle. destruct (waiting p), (working p); cbn in Hn; (lia || reflexivity). }
  assert (∃ e p1, (e = Take ∨ ∃ i, e = Finish i false) ∧ pool_step lookup workers e p = Some p1 ∧
            (2 * length (waiting p1) + length (working p1) = n)%nat) as (e & p1 & He & Hs & Hm).
  { destruct (working p) as [|cif ws] eqn:Ew.
    - destruct (waiting p) as [|cif rest] eqn:Ea; [done|]. exists Take. eexists. split; [by left|]. unfold pool_step. rewrite Ea, Ew.
      rewrite (proj2 (Nat.ltb_lt _ _)) by done. split; [done|]. cbn in Hn |- *. lia.
    - exists (Finish 0 false). eexists. split; [right; by eexists|]. cbn. rewrite Ew. cbn. split; [done|]. cbn in Hn |- *. lia. }
  destruct (IH p1) as (events & p' & Hf & Hlen & Hr & Hi); [done|]. exists (e :: events), p'.
  split_and!; [by constructor|by cbn; rewrite Hlen|cbn; by rewrite Hs|done].
Qed.
End Pool.

Lemma first_error_Some rs e : first_error rs = Some e → ∃ r, r ∈ rs ∧ r.2 = Fail e.
Proof.
  unfold first_error. induction rs as [|r rs IH]; [done|]. cbn. destruct (r.2) as [line|e'] eqn:Er.
  - intros H. destruct (IH H) as (r' & ? & ?). exists r'. split; [by right|done].
  - intros [= ->]. exists r. split; [by left|done].
Qed.
Lemma answered_lines lookup rs :
  (∀ r, r ∈ rs → r.2 = lookup r.1) → first_error rs = None → Forall2 (λ cif line, lookup cif = Ok line) rs.*1 (lines_of rs).
Proof.
  unfold first_error, lines_of. induction rs as [|r rs IH]; [constructor|]. intros Ha. pose proof (Ha r ltac:(by left)) as Hr. cbn.
  destruct (r.2) as [line|e'] eqn:Er; [|done]. intros H. constructor; [congruence|]. apply IH; [|done]. intros r' Hr'. apply Ha. by right.
Qed.

(** What an outcome of the pool is *)
Definition pool_answer (lookup : string → res string) (missing : gset string) (events : list pool_event) (r : res (list string)) : Prop :=
  match r with
  | Ok lines => ∃ cifs, cifs ≡ₚ elements missing ∧ Forall2 (λ cif line, lookup cif = Ok line) cifs lines
  | Fail e =>
      (∃ cif cause, cif ∈ missing ∧ lookup cif = Fail cause ∧ e = Wrap "complete missing CIF %s: %w" cause) ∨
      (∃ cause, Cancel cause ∈ events ∧ (e = cause ∨ e = Wrap "complete missing CIF %s: %w" cause))
  end.
Lemma completeMissingDN_answer lookup seen needed order events r :
  completeMissingDN lookup seen needed order events = Some r → pool_answer lookup (needed ∖ seen) events r.
Proof.
  unfold completeMissingDN. case_bool_decide as Hset; [|done]. case_bool_decide as Hnd; [|done]. cbn [andb negb].
  assert (order ≡ₚ elements (needed ∖ seen)) as Hperm by (by rewrite <- Hset, elements_list_to_set).
  case_bool_decide as Hne.
  { intros [= <-]. subst order. exists []. split; [done|constructor]. }
  intros H. apply bind_Some in H as (p & Hr & H). destruct (pool_idle p) eqn:Hi; [|done]. injection H as <-.
  apply (sound_run _ _ order []) in Hr; [|apply sound_new]. destruct Hr as [H1 _ H3 H4 H5]. cbn in H4.
  unfold collect. destruct (first_error (results p)) as [e|] eqn:He.
  - apply first_error_Some in He as (x & Hx & Ex). destruct (H3 x Hx) as [Hl|(c & Hc & Hl)].
    + left. exists x.1, e. split_and!; [|congruence|done]. rewrite <- Hset. apply elem_of_list_to_set, H1, Hx.
    + right. exists c. split; [by apply H4|right]. congruence.
  - destruct (stopped p) as [c|] eqn:Hc; [right; exists c; split; [by apply H4|by left]|].
    unfold pool_idle in Hi. apply andb_true_iff in Hi as [Hi1%bool_decide_eq_true Hi2%bool_decide_eq_true].
    specialize (H5 eq_refl). rewrite Hi1, Hi2 in H5. cbn in H5. exists (results p).*1. split; [by rewrite <- H5|].
    apply answered_lines; [|done]. intros x Hx. destruct (H3 x Hx) as [?|(? & ? & ?)]; done.
Qed.

(** C32: looking up the customers that the report lacks can always be brought to an
    end, in twice as many turns of the workers as there are customers, and the
    outcome does not depend on who does what when: either every missing customer
    has exactly one line, that of its own data, or the error is that of a missing
    customer or of the canceled request. *)
Theorem completeMissingDN_outcome lookup seen needed :
  (∀ order, NoDup order → list_to_set order = needed ∖ seen →
     ∃ events r, (length events ≤ 2 * length order)%nat ∧ Forall (λ e, e = Take ∨ ∃ i, e = Finish i false) events ∧
       completeMissingDN lookup seen needed order events = Some r) ∧
  (∀ order events r, completeMissingDN lookup seen needed order events = Some r →
     pool_answer lookup (needed ∖ seen) events r).
Proof.
  split; [|apply completeMissingDN_answer].
  intros order Hnd Hset. unfold completeMissingDN. rewrite !bool_decide_eq_true_2 by done. cbn [andb negb].
  destruct (bool_decide_reflect (order = [])) as [->|Hne]; [by exists [], (Ok [])|].
  assert (0 < pool_size order)%nat as Hsize by (unfold pool_size; destruct order; [done|cbn; lia]).
  destruct (pool_finishes lookup (pool_size order) (new_pool order) Hsize) as (events & p' & He & Hlen & Hr & Hi).
  exists events. rewrite Hr. cbn. rewrite Hi. eexists. split; [|done]. cbn in Hlen. lia.
Qed.

(** ** The entries of the archive *)

Lemma sorted_keys_unique {A} (m : gmap string A) (names : list string) :
  (map_to_list m).*1 ≡ₚ names → StronglySorted (λ a b, string_leb a b = true) names →
  SortStableFunc string_leb (map_to_list m).*1 = names.
Proof.
  intros Hp Hs. eapply (StronglySorted_unique_strong (λ a b, string_leb a b = true)); [| |done|by rewrite SortStableFunc_perm].
  - intros x y _ _ H1 H2. unfold string_leb in *. apply negb_true_iff in H1, H2. by apply string_ltb_total.
  - apply (SortStableFunc_sorted string_leb); [apply string_leb_total|apply string_leb_trans].
Qed.

Section Archive.
Variable input : Input.
Variable g : gathered.
Variable additional : list string.
Definition dn_body : string :=
  if bool_decide (additional = []) then rowsBody (dn_lines g)
  else (rowsBody (dn_lines g) +:+ Join additional (of_bytes [newline]))%string.
Definition dn_count : Z :=
  count_lines (rowsBody (dn_lines g)) + Z.of_nat (length additional).

Lemma names_sorted :
  let names := [file_name "DK" input; file_name "DN" input; file_name "DSJ" input; file_name "DSN" input] in
  StronglySorted (λ a b, string_leb a b = true) names ∧ NoDup names.
Proof.
  cbn zeta. split; [repeat constructor|].
  repeat (apply NoDup_cons; split; [rewrite ?elem_of_cons, elem_of_nil; intros H; decompose [or] H; done|]). constructor.
Qed.
Lemma archive_entries :
  archive_of input g additional =
    ({| Filename := ("LPS_" +:+ ParticipantCode input +:+ "_" +:+ ReportingDate input +:+ ".zip")%string; DNRows := dn_count;
        DSNRows := count_lines (rowsBody (dsn_lines g)); DKRows := count_lines (rowsBody (dk_lines g)); DSJRows := 0 |},
     [(file_name "DK" input, buildFileContent input (count_lines (rowsBody (dk_lines g))) (rowsBody (dk_lines g)));
      (file_name "DN" input, buildFileContent input dn_count dn_body);
      (file_name "DSJ" input, buildFileContent input 0 EmptyString);
      (file_name "DSN" input, buildFileContent input (count_lines (rowsBody (dsn_lines g))) (rowsBody (dsn_lines g)))]).
Proof.
  destruct names_sorted as [Hs Hnd]. unfold archive_of.
  assert (E : (if bool_decide (additional = []) then (rowsBody (dn_lines g), count_lines (rowsBody (dn_lines g)))
    else ((rowsBody (dn_lines g) +:+ Join additional (of_bytes [newline]))%string,
          count_lines (rowsBody (dn_lines g)) + Z.of_nat (length additional))) = (dn_body, dn_count)).
  { unfold dn_body, dn_count. case_bool_decide as Ha; [|done]. by rewrite Ha, Z.add_0_r. }
  rewrite E. cbn [DNRows DSNRows DKRows]. f_equal.
  set (dk := file_name "DK" input) in *. set (dn := file_name "DN" input) in *.
  set (dsj := file_name "DSJ" input) in *. set (dsn := file_name "DSN" input) in *. clearbody dk dn dsj dsn.
  assert (dn ≠ dsn ∧ dn ≠ dk ∧ dn ≠ dsj ∧ dsn ≠ dk ∧ dsn ≠ dsj ∧ dk ≠ dsj) as (N1 & N2 & N3 & N4 & N5 & N6)
    by (rewrite !NoDup_cons, !elem_of_cons in Hnd; split_and!; intros ->; naive_solver).
  rewrite (sorted_keys_unique _ [dk; dn; dsj; dsn]).
  - cbn [omap list_omap]. rewrite ?lookup_insert_eq, ?(lookup_insert_ne _ _ _ _ N2), ?lookup_insert_ne, ?lookup_insert_eq by done.
    repeat (first [rewrite lookup_insert_eq | rewrite lookup_insert_ne by done]). done.
  - rewrite !map_to_list_insert by (by simplify_map_eq). rewrite map_to_list_empty. cbn. solve_Permutation.
  - exact Hs.
Qed.
End Archive.

(** ** Clean texts *)

Definition no_double_space (l : list ascii) : Prop := ∀ a b, l ≠ a ++ " "%char :: " "%char :: b.
Lemma no_double_space_infix a l b : no_double_space (a ++ l ++ b) → no_double_space l.
Proof. intros H c d ->. apply (H (a ++ c) (d ++ b)). by rewrite <- !app_assoc. Qed.
Lemma single_spaces_no_double l : no_double_space (single_spaces l).
Proof.
  assert (∀ l, no_double_space (single_spaces l) ∧ (∀ c t, l = c :: t → ∃ t', single_spaces l = c :: t')) as H; [|apply H].
  clear. induction l as [|c l [IH1 IH2]]; [split; [by intros [|? []] ? ?|done]|]. cbn [single_spaces].
  destruct (beq c " ") eqn:Ec.
  - apply beq_eq in Ec as ->. destruct l as [|d l]; [split; [by intros [|? [|? ?]] ? ?|intros ? ? [= <- <-]; by eexists]|].
    destruct (beq d " ") eqn:Ed.
    + apply beq_eq in Ed as ->. split; [done|]. intros ? ? [= <- <-]. by apply (IH2 _ _ eq_refl).
    + split; [|intros ? ? [= <- <-]; by eexists]. destruct (IH2 _ _ eq_refl) as (t' & Hs). intros [|x a] b H; rewrite Hs in H.
      * injection H as -> _. by vm_compute in Ed.
      * injection H as _ H. rewrite <- Hs in H; by apply (IH1 a b).
  - split; [|intros ? ? [= <- <-]; by eexists]. intros [|x a] b H; [injection H as -> _; by vm_compute in Ec|].
    injection H as _ H. by apply (IH1 a b).
Qed.
Lemma single_spaces_id l : no_double_space l → single_spaces l = l.
Proof.
  induction l as [|c l IH]; [done|]. intros H. assert (no_double_space l) as Hl by (intros a b ->; by apply (H (c :: a) b)).
  cbn. rewrite IH by done. destruct (beq c " ") eqn:Ec; [|done]. apply beq_eq in Ec as ->. destruct l as [|d l]; [done|].
  destruct (beq d " ") eqn:Ed; [|done]. apply beq_eq in Ed as ->. by destruct (H [] l).
Qed.
Lemma single_spaces_forallb p l : forallb p l = true → forallb p (single_spaces l) = true.
Proof.
  induction l as [|c l IH]; [done|]. cbn. intros [Hc Hl]%andb_true_iff. specialize (IH Hl).
  destruct (beq c " "); [|cbn; by rewrite Hc]. destruct l as [|d l]; [cbn; by rewrite Hc|].
  destruct (beq d " "); [done|]. cbn [forallb]. by rewrite Hc.
Qed.
Lemma trim_bytes_infix l : ∃ a b, l = a ++ trim_bytes l ++ b.
Proof.
  destruct (trim_left_suffix l) as (a & Ha). destruct (trim_left_rev_suffix (rev (trim_left l))) as (b & Hb).
  exists a, (rev b). unfold trim_bytes. rewrite <- rev_app_distr, <- Hb, rev_involutive. exact Ha.
Qed.
Lemma forallb_infix {A} (p : A → bool) a l b : forallb p (a ++ l ++ b) = true → forallb p l = true.
Proof. rewrite !forallb_app, !andb_true_iff. tauto. Qed.
Lemma filter_forallb {A} (p : A → bool) l : forallb p (List.filter p l) = true.
Proof. apply forallb_forall. by intros x [_ ?]%filter_In. Qed.
Lemma filter_id {A} (p : A → bool) l : forallb p l = true → List.filter p l = l.
Proof. induction l as [|x l IH]; [done|]. cbn. intros [-> H]%andb_true_iff. by rewrite IH. Qed.

Lemma cleanAlamat_spec value (l := bytes (cleanAlamat value)) :
  forallb allowed_byte l = true ∧ no_double_space l ∧ trim_bytes l = l.
Proof.
  unfold l, cleanAlamat, TrimSpace. rewrite !bytes_of_bytes. set (m := single_spaces _).
  destruct (trim_bytes_infix m) as (a & b & Hm). split_and!.
  - apply (forallb_infix _ a _ b). rewrite <- Hm. apply single_spaces_forallb, filter_forallb.
  - apply (no_double_space_infix a _ b). rewrite <- Hm. apply single_spaces_no_double.
  - apply trim_bytes_idem.
Qed.
(** A cleaned text has only the characters that the insurer accepts, single spaces
    inside and none around, and is left alone by cleaning it again. *)
Lemma cleanAlamat_idem value : cleanAlamat (cleanAlamat value) = cleanAlamat value.
Proof.
  destruct (cleanAlamat_spec value) as (H1 & H2 & H3). unfold cleanAlamat at 1, TrimSpace. rewrite bytes_of_bytes.
  by rewrite (filter_id _ _ H1), (single_spaces_id _ H2), H3, of_bytes_bytes.
Qed.

(** ** Counts *)

Definition one_line (s : string) : Prop := mem_byte newline (bytes s) = false.
(** The lines of a body: one for each newline, and what follows the last one *)
Definition lines_in (body : string) : Z :=
  count_lines body + match last (bytes body) with Some c => if beq c newline then 0 else 1 | None => 0 end.

Lemma join_last sep parts p : join_bytes sep (parts ++ [p]) = (if bool_decide (parts = []) then [] else join_bytes sep parts ++ sep) ++ p.
Proof.
  induction parts as [|q parts IH]; [done|]. rewrite bool_decide_eq_false_2 by done. destruct parts as [|r parts].
  - cbn. by rewrite <- app_assoc.
  - change (join_bytes sep ((q :: r :: parts) ++ [p])) with (q ++ sep ++ join_bytes sep ((r :: parts) ++ [p])).
    rewrite IH, bool_decide_eq_false_2 by done. change (join_bytes sep (q :: r :: parts)) with (q ++ sep ++ join_bytes sep (r :: parts)).
    by rewrite <- !app_assoc.
Qed.
Lemma join_count sep parts :
  Forall (λ p, mem_byte sep p = false) parts → parts ≠ [] → S (count_byte sep (join_bytes [sep] parts)) = length parts.
Proof.
  induction 1 as [|p parts Hp _ IH]; [done|]. intros _. destruct parts as [|q parts]; [change (join_bytes [sep] [p]) with p; by rewrite count_byte_absent|].
  change (join_bytes [sep] (p :: q :: parts)) with (p ++ [sep] ++ join_bytes [sep] (q :: parts)).
  rewrite !count_byte_app, count_byte_absent by done. change (count_byte sep [sep]) with (length (List.filter (beq sep) [sep])).
  cbn [List.filter]. rewrite beq_refl. cbn [length Nat.add]. by rewrite IH.
Qed.
Lemma rowsBody_lines rows : lines_in (rowsBody rows) = count_lines (rowsBody rows).
Proof.
  unfold lines_in, rowsBody. case_bool_decide; [done|]. rewrite bytes_app, bytes_of_bytes, last_snoc, beq_refl. lia.
Qed.
Lemma dn_body_lines g additional :
  Forall (λ line, one_line line ∧ line ≠ EmptyString) additional → lines_in (dn_body g additional) = dn_count g additional.
Proof.
  intros Ha. unfold dn_body, dn_count. case_bool_decide as Hne; [subst; rewrite rowsBody_lines; cbn; lia|].
  assert (Hl : Forall (λ p, mem_byte newline p = false) (bytes <$> additional)) by (apply Forall_fmap; eapply Forall_impl; [exact Ha|]; by intros ? []).
  destruct (exists_last Hne) as (front & line & E). unfold lines_in, count_lines.
  rewrite bytes_app, bytes_Join, bytes_of_bytes, count_byte_app. pose proof (join_count newline (bytes <$> additional) Hl) as Hc.
  rewrite length_fmap in Hc. specialize (Hc ltac:(by destruct additional)).
  assert (last (bytes (rowsBody (dn_lines g)) ++ join_bytes [newline] (bytes <$> additional)) = last (bytes line) ∧ one_line line ∧ line ≠ EmptyString) as (-> & Hline & Hnl).
  { rewrite E in Ha |- *. rewrite fmap_app. cbn [fmap list_fmap]. rewrite join_last, app_assoc.
    apply Forall_app in Ha as [_ Ha]. apply Forall_singleton in Ha as [Hone Hnl]. split; [|done].
    rewrite last_app. destruct (last (bytes line)) eqn:El; [done|]. apply last_None in El. by destruct line. }
  destruct (last (bytes line)) as [c|] eqn:El; [|apply last_None in El; by destruct line].
  assert (beq c newline = false) as ->; [|lia].
  apply last_Some in El as (front' & El). unfold one_line in Hline. rewrite El, mem_byte_app in Hline.
  apply orb_false_iff in Hline as [_ Hc']. cbn in Hc'. rewrite orb_false_r in Hc'. by rewrite beq_sym.
Qed.

(** What the LPS report promises of its data: no text of a customer has a line end *)
Record plain_gateways (g : Gateways) : Prop := {
  plain_inquiry : ∀ cif data key, inquiry g cif = Ok data → one_line (stringValue (data !! key));
  plain_birth : ∀ cif data, inquiry g cif = Ok data → one_line (objectString (data !! "dataktp_tgllahir"%string) "date");
  plain_debtor : ∀ alternate d, debtor_type g alternate = Ok d → one_line d
}.

Lemma one_line_clean value : one_line (cleanAlamat value).
Proof.
  destruct (cleanAlamat_spec value) as (H & _). unfold one_line. induction (bytes (cleanAlamat value)) as [|c l IH]; [done|].
  cbn in H. apply andb_true_iff in H as [Hc H]. rewrite mem_byte_cons, IH by done. rewrite orb_false_r. apply beq_neq. intros <-. discriminate Hc.
Qed.
Lemma one_line_if (b : bool) s t : one_line s → one_line t → one_line (if b then s else t).
Proof. by destruct b. Qed.
Lemma one_line_valueIf b s t : one_line s → one_line t → one_line (valueIf b s t).
Proof. apply one_line_if. Qed.
Lemma one_line_row fields : Forall one_line fields → one_line (row_text fields).
Proof. intros H. unfold one_line, row_text. rewrite bytes_Join. apply mem_byte_join; [done|]. by apply Forall_fmap. Qed.
Lemma one_line_no_dash s : one_line s → one_line (no_dash s).
Proof.
  unfold one_line, no_dash, ReplaceAll, replace_byte. rewrite bytes_of_bytes. induction (bytes s) as [|c l IH]; [done|].
  rewrite mem_byte_cons. intros [Hc Hl]%orb_false_iff. cbn [flat_map]. rewrite mem_byte_app, IH by done. rewrite orb_false_r.
  destruct (beq c "-"); [done|]. by rewrite mem_byte_cons, Hc.
Qed.
Lemma one_line_cut sep s : one_line s → one_line (of_bytes (fst (fst (cut_byte sep (bytes s))))).
Proof.
  unfold one_line. rewrite bytes_of_bytes. induction (bytes s) as [|c l IH]; [done|]. rewrite mem_byte_cons. intros [Hc Hl]%orb_false_iff.
  cbn [cut_byte]. destruct (beq c sep); [done|]. destruct (cut_byte sep l) as [[a b] f] eqn:E. cbn [fst] in IH |- *. by rewrite mem_byte_cons, Hc, IH.
Qed.
Lemma one_line_dati2 s : one_line s → one_line (normalizeDati2 s).
Proof. intros H. unfold normalizeDati2. destruct (slen s =? 3); apply one_line_if; done. Qed.
Lemma one_line_debtor debtors own alternate :
  (∀ a d, debtors a = Ok d → one_line d) → one_line own → one_line (company_debtor debtors own alternate).
Proof.
  intros Hd Ho. unfold company_debtor. apply one_line_if; [done|]. destruct (debtors alternate) as [d|] eqn:E; [|done].
  apply one_line_if; [done|]. by eapply Hd.
Qed.
Ltac solve_one_line :=
  lazymatch goal with
  | |- one_line (cleanAlamat _) => apply one_line_clean
  | |- one_line (normalizeDati2 _) => apply one_line_dati2; solve_one_line
  | |- one_line (no_dash _) => apply one_line_no_dash; solve_one_line
  | |- one_line (of_bytes (fst (fst (cut_byte _ (bytes _))))) => apply one_line_cut; solve_one_line
  | |- one_line (valueIf _ _ _) => apply one_line_valueIf; solve_one_line
  | |- one_line (company_debtor _ _ _) => apply one_line_debtor; [assumption|solve_one_line]
  | |- one_line (if _ then _ else _) => apply one_line_if; solve_one_line
  | H : ∀ key, one_line (stringValue (?d !! key)) |- one_line (stringValue (?d !! _)) => apply H
  | |- Forall one_line (_ :: _) => apply Forall_cons; split; solve_one_line
  | |- Forall one_line [] => constructor
  | |- _ => first [assumption | reflexivity]
  end.

Lemma live_row_one_line g cif line :
  plain_gateways g → live_row g cif = Ok line → one_line line ∧ line ≠ EmptyString.
Proof.
  intros [Hi Hb Hd] H. unfold live_row in H. apply bind_Ok in H as (data & Hdata & [= <-]).
  assert (Ht : ∀ key, one_line (stringValue (data !! key))) by (intros key; by eapply Hi). specialize (Hb _ _ Hdata).
  split.
  - unfold buildLiveDN. set (individual := seqb _ "Perorangan").
    assert (Hm : ∀ r : string * string, r = (if individual then (EmptyString, EmptyString) else
      match firstObject (data !! "datapengurusperusahaan"%string) with
      | Some management =>
          (cleanAlamat (stringValue (management !! "nama"%string)),
           if empty (cleanAlamat (stringValue (management !! "noktp"%string))) then zeros16 else cleanAlamat (stringValue (management !! "noktp"%string)))
      | None => ("BAPAK"%string, EmptyString)
      end) → one_line r.1 ∧ one_line r.2).
    { intros r ->. destruct individual; [done|]. destruct (firstObject _); [|done]. cbn [fst snd]. split; solve_one_line. }
    cbv zeta. destruct (if individual then _ else _) as [name identity] eqn:E in |- *. destruct (Hm (name, identity)) as [Hn Hid]; [by rewrite <- E|].
    cbn in Hn, Hid. clear Hm E.
    match goal with |- context [if needs_management ?d then _ else _] => set (debtor := d) in * end.
    assert (one_line debtor) by (unfold debtor; solve_one_line).
    destruct (needs_management debtor); apply one_line_row; solve_one_line.
  - unfold buildLiveDN. cbv zeta. destruct (if seqb _ _ then (EmptyString, EmptyString) else _) as [? ?].
    destruct (if needs_management _ then _ else _) as [? ?]. done.
Qed.

(** ** Customers *)

(** A line of customer [cif], after the fields of [prefix] *)
Definition names_customer (prefix cif line : string) : Prop := ∃ rest, bytes line = bytes prefix ++ bytes cif ++ "|"%char :: rest.


Lemma customer_rows_spec t seen rs cs seen' :
  customer_rows t seen rs = (cs, seen') →
  NoDup (CIF <$> cs) ∧ (∀ c, c ∈ cs → CIF c ∉ seen) ∧ seen' = seen ∪ list_to_set (CIF <$> cs).
Proof.
  revert seen cs seen'. induction rs as [|row rs IH]; intros seen cs seen'; cbn [customer_rows].
  { intros [= <- <-]. split_and!; [constructor|set_solver|]. cbn. set_solver. }
  set (cif := TrimSpace _). destruct (empty cif || bool_decide (cif ∈ seen)) eqn:Eb; [apply IH|].
  apply orb_false_iff in Eb as [_ Hns%bool_decide_eq_false].
  destruct (customer_rows t ({[cif]} ∪ seen) rs) as [cs1 seen1] eqn:E. intros [= <- <-].
  destruct (IH _ _ _ E) as (Hnd & Hn & ->). cbn [fmap list_fmap list_to_set]. change (CIF (customer_of t cif row)) with cif. split_and!.
  - apply NoDup_cons. split; [|done]. intros (c & -> & Hc)%list_elem_of_fmap. specialize (Hn c Hc). set_solver.
  - intros c [->|Hc]%elem_of_cons; [done|]. specialize (Hn c Hc). set_solver.
  - set_solver.
Qed.
Lemma account_rows_spec cif_of account_of line rs lines cifs :
  account_rows cif_of account_of line rs = Ok (lines, cifs) →
  ∀ text, text ∈ lines → ∃ row cif account, cif ∈ cifs ∧ line row cif account = Ok text.
Proof.
  revert lines cifs. induction rs as [|row rs IH]; intros lines cifs H text Ht; cbn [account_rows] in H.
  { injection H as <- <-. by apply not_elem_of_nil in Ht. }
  destruct (empty (TrimSpace (cif_of row))); [by eapply IH|]. destruct (empty (TrimSpace (account_of row))).
  - apply bind_Ok in H as ([lines1 cifs1] & H1 & [= <- <-]). destruct (IH _ _ H1 text Ht) as (r & c & a & Hc & Hl).
    exists r, c, a. split; [set_solver|done].
  - apply bind_Ok in H as (text1 & Hl1 & H). apply bind_Ok in H as ([lines1 cifs1] & H1 & [= <- <-]).
    apply elem_of_cons in Ht as [->|Ht]; [by exists row, (TrimSpace (cif_of row)), (TrimSpace (account_of row)); split; [set_solver|]|].
    destruct (IH _ _ H1 text Ht) as (r & c & a & Hc & Hl). exists r, c, a. split; [set_solver|done].
Qed.

(** The row of the report that a customer is taken from: the first with its CIF *)
Definition row_cif (t : table) (row : list string) : string := TrimSpace (column t row "cif_no").
Definition first_row (t : table) (rs : list (list string)) (c : customer) : Prop :=
  ∃ i row, rs !! i = Some row ∧ row_cif t row ≠ EmptyString ∧ c = customer_of t (row_cif t row) row ∧
    ∀ j row', (j < i)%nat → rs !! j = Some row' → row_cif t row' ≠ row_cif t row.
Lemma customer_rows_first t seen rs :
  ∀ c, c ∈ (customer_rows t seen rs).1 ↔ first_row t rs c ∧ CIF c ∉ seen.
Proof.
  revert seen. induction rs as [|row rs IH]; intros seen c; cbn [customer_rows].
  { split; [by intros ?%not_elem_of_nil|]. by intros [(i & row & [=] & _) _]. }
  fold (row_cif t row). destruct (empty (row_cif t row) || bool_decide (row_cif t row ∈ seen)) eqn:Eb.
  - rewrite IH. split; intros [(i & row1 & Hi & Hne & -> & Hfirst) Hs]; (split; [|done]).
    + exists (S i), row1. split_and!; [done..|]. intros [|j] row' Hj Hrow; [|by apply (Hfirst j); [lia|]]. injection Hrow as <-.
      intros E. apply orb_true_iff in Eb as [Ee%seqb_eq|Hin%bool_decide_eq_true]; [congruence|]. apply Hs. cbn. by rewrite <- E.
    + destruct i as [|i].
      { injection Hi as ->. apply orb_true_iff in Eb as [Ee%seqb_eq|Hin%bool_decide_eq_true]; [done|by destruct Hs]. }
      exists i, row1. split_and!; [done..|]. intros j row' Hj Hrow. apply (Hfirst (S j)); [lia|done].
  - apply orb_false_iff in Eb as [He%seqb_neq Hns%bool_decide_eq_false].
    specialize (IH ({[row_cif t row]} ∪ seen)). destruct (customer_rows _ _ _) as [cs seen']. cbn [fst] in *.
    rewrite elem_of_cons, IH. split.
    + intros [->|[(i & row1 & Hi & Hne & -> & Hfirst) Hs]].
      * split; [|done]. exists 0%nat, row. split_and!; [done..|]. intros j row' Hj. lia.
      * cbn in Hs. split; [|cbn; set_solver]. exists (S i), row1. split_and!; [done..|].
        intros [|j] row' Hj Hrow; [injection Hrow as <-; set_solver|apply (Hfirst j); [lia|done]].
    + intros [([|i] & row1 & Hi & Hne & -> & Hfirst) Hs]; [left; by injection Hi as ->|right].
      split; [exists i, row1; split_and!; [done..|intros j row' Hj Hrow; apply (Hfirst (S j)); [lia|done]]|].
      cbn in *. specialize (Hfirst 0%nat row ltac:(lia) eq_refl). set_solver.
Qed.

Lemma savings_line_names u t standing date rates row cif account line :
  savings_line u t standing date rates row cif account = Ok line → names_customer "D|R||" cif line.
Proof.
  unfold savings_line. cbv zeta. intros H. apply bind_Ok in H as (rate & _ & [= <-]). eexists. unfold row_text. rewrite bytes_Join. reflexivity.
Qed.
Lemma deposit_line_names u t balances date rates row cif account line :
  deposit_line u t balances date rates row cif account = Ok line → names_customer "D|R||" cif line.
Proof.
  unfold deposit_line. cbv zeta. intros H. apply bind_Ok in H as (rate & _ & [= <-]). eexists. unfold row_text. rewrite bytes_Join. reflexivity.
Qed.
Lemma loan_line_names u t details row cif account line :
  loan_line u t details row cif account = Ok line → names_customer "D|" cif line.
Proof. unfold loan_line. cbv zeta. intros [= <-]. eexists. unfold row_text. rewrite bytes_Join. reflexivity. Qed.

Lemma buildDSN_names u a b c d date rates lines cifs :
  buildDSN u a b c d date rates = Ok (lines, cifs) → ∀ line, line ∈ lines → ∃ cif, cif ∈ cifs ∧ names_customer "D|R||" cif line.
Proof.
  unfold buildDSN. cbv zeta. intros H line Hline. apply bind_Ok in H as (savings & _ & H). apply bind_Ok in H as (deposits & _ & H).
  apply bind_Ok in H as (? & _ & H). apply bind_Ok in H as (balances & _ & H). apply bind_Ok in H as (standing & _ & H).
  apply bind_Ok in H as ([lines1 cifs1] & H1 & H). apply bind_Ok in H as ([lines2 cifs2] & H2 & [= <- <-]).
  apply elem_of_app in Hline as [Hl|Hl].
  - destruct (account_rows_spec _ _ _ _ _ _ H1 line Hl) as (r & cif & acc & Hc & Hr). exists cif. split; [set_solver|]. by eapply savings_line_names.
  - destruct (account_rows_spec _ _ _ _ _ _ H2 line Hl) as (r & cif & acc & Hc & Hr). exists cif. split; [set_solver|]. by eapply deposit_line_names.
Qed.
Lemma buildDK_names u a b lines cifs :
  buildDK u a b = Ok (lines, cifs) → ∀ line, line ∈ lines → ∃ cif, cif ∈ cifs ∧ names_customer "D|" cif line.
Proof.
  unfold buildDK. intros H line Hline. apply bind_Ok in H as (loans & _ & H). apply bind_Ok in H as (? & _ & H). apply bind_Ok in H as (details & _ & H).
  destruct (account_rows_spec _ _ _ _ _ _ H line Hline) as (r & cif & acc & Hc & Hr). exists cif. split; [done|]. by eapply loan_line_names.
Qed.

(** The customers of the report: one for each CIF, from its first row *)
Definition report_customers (uw : list ascii → bool) (gw : Gateways) (loc : Location) (input : Input) (customers : list customer) : Prop :=
  ∃ date body t, validate uw loc input = Ok date ∧
    report gw "cbrcustomer.csv" ("/app/report/cbr/" +:+ format_time layout_compact date loc)%string = Ok body ∧
    parseTable body = Ok t ∧ NoDup (CIF <$> customers) ∧ ∀ c, c ∈ customers ↔ first_row t (rows t) c.
(** What [gather] has found *)
Record gathered_well uw (gw : Gateways) loc input (g : gathered) : Prop := {
  gw_customers : ∃ customers, report_customers uw gw loc input customers ∧ dn_lines g = dn_row (debtor_type gw) <$> customers ∧
    known g = list_to_set (CIF <$> customers);
  gw_dsn : ∀ line, line ∈ dsn_lines g → ∃ cif, cif ∈ needed g ∧ names_customer "D|R||" cif line;
  gw_dk : ∀ line, line ∈ dk_lines g → ∃ cif, cif ∈ needed g ∧ names_customer "D|" cif line
}.
Lemma parseCustomers_spec body customers seen :
  parseCustomers body = Ok (customers, seen) →
  ∃ t, parseTable body = Ok t ∧ NoDup (CIF <$> customers) ∧ seen = list_to_set (CIF <$> customers) ∧
    ∀ c, c ∈ customers ↔ first_row t (rows t) c.
Proof.
  unfold parseCustomers. intros H. apply bind_Ok in H as (t & Ht & H). apply bind_Ok in H as ([] & _ & [= H]).
  exists t. pose proof (customer_rows_first t ∅ (rows t)) as Hf. rewrite H in Hf. cbn [fst] in Hf.
  apply customer_rows_spec in H as (Hnd & _ & ->). split_and!; [done|done|set_solver|].
  intros c. rewrite Hf. set_solver.
Qed.
Lemma gather_well uw u gw loc input g : gather uw u gw loc input = Ok g → gathered_well uw gw loc input g.
Proof.
  unfold gather. cbv zeta. intros H. inv_ok.
  repeat match goal with H : (let '(_, _) := ?x in _) = Ok _ |- _ => destruct x; inv_ok end.
  repeat match goal with H : wrap_err _ _ = Ok _ |- _ => apply wrap_err_Ok in H end.
  match goal with H : parseCustomers _ = Ok _ |- _ => apply parseCustomers_spec in H as (t & Ht & Hnd & -> & Hc) end.
  constructor; cbn [dn_lines dsn_lines dk_lines known needed].
  - eexists. split; [|split; [reflexivity|done]]. eexists _, _, t. by split_and!.
  - intros line Hl. match goal with H : buildDSN _ _ _ _ _ _ _ = Ok _ |- _ => destruct (buildDSN_names _ _ _ _ _ _ _ _ _ H line Hl) as (cif & ? & ?) end.
    exists cif. split; [set_solver|done].
  - intros line Hl. match goal with H : buildDK _ _ _ = Ok _ |- _ => destruct (buildDK_names _ _ _ _ _ H line Hl) as (cif & ? & ?) end.
    exists cif. split; [set_solver|done].
Qed.

Lemma Generate_Ok uw u gw loc input order events sink answer :
  Generate uw u gw loc input order events sink = Some (Ok answer) →
  ∃ g cifs additional, gather uw u gw loc input = Ok g ∧ gathered_well uw gw loc input g ∧ cifs ≡ₚ elements (needed g ∖ known g) ∧
    Forall2 (λ cif line, live_row gw cif = Ok line) cifs additional ∧ answer = archive_of input g additional.
Proof.
  unfold Generate. destruct (gather uw u gw loc input) as [g|e] eqn:Hg; [|done]. intros H.
  apply bind_Some in H as (completed & Hc & H). injection H as H. apply bind_Ok in H as (additional & -> & H).
  apply bind_Ok in H as (? & _ & [= <-]). destruct (completeMissingDN_answer _ _ _ _ _ _ Hc) as (cifs & Hp & Hf). exists g, cifs, additional.
  split_and!; [done|by eapply gather_well|done..].
Qed.

(** The archive has the four files of the report in the order of their names, and
    each one starts with a header that says how many lines follow, as the result of
    the generator does, provided the data of the customers has no line ends. *)
Theorem Generate_counts uw u gw loc input order events sink result files :
  plain_gateways gw →
  Generate uw u gw loc input order events sink = Some (Ok (result, files)) →
  files.*1 = [file_name "DK" input; file_name "DN" input; file_name "DSJ" input; file_name "DSN" input] ∧
  Forall2 (λ file count, ∃ body, file.2 = buildFileContent input count body ∧ lines_in body = count)
    files [DKRows result; DNRows result; DSJRows result; DSNRows result].
Proof.
  intros Hp H. destruct (Generate_Ok _ _ _ _ _ _ _ _ _ H) as (g & cifs & additional & _ & _ & _ & Hf & E).
  rewrite archive_entries in E. injection E as -> ->. split; [done|]. cbn [DKRows DNRows DSJRows DSNRows].
  assert (Ha : Forall (λ line, one_line line ∧ line ≠ EmptyString) additional).
  { clear -Hp Hf. induction Hf as [|cif line cifs additional Hl _ IH]; constructor; [by eapply live_row_one_line|done]. }
  repeat (apply Forall2_cons; split); try apply Forall2_nil; try done; eexists; (split; [reflexivity|]);
    [apply rowsBody_lines|by apply dn_body_lines|done|apply rowsBody_lines].
Qed.


(** ** Amounts *)

(** A rate as the reports write it, with a point or a comma *)
Definition rate_text (separator : ascii) (whole fraction : list ascii) : list ascii :=
  whole ++ (if bool_decide (fraction = []) then [] else separator :: fraction) ++ ["%"%char].

Lemma replace_digits c new l : is_digit c = false → forallb is_digit l = true → replace_byte c new l = l.
Proof. intros Hc Hl. apply replace_byte_absent. by apply mem_byte_digits. Qed.
Lemma rate_text_parse separator w f :
  separator ∈ ["."%char; ","%char] → w ≠ [] → forallb is_digit w = true → forallb is_digit f = true →
  parsePercentage (of_bytes (rate_text separator w f)) =
    match ParseFloat (of_bytes (plain_decimal w f)) with
    | Some x => Ok x | None => Fail (Msg "strconv.ParseFloat: parsing %q") end.
Proof.
  intros Hs Hne Hw Hf. unfold rate_text. set (body := w ++ (if bool_decide (f = []) then [] else separator :: f)).
  assert (Hplain : forallb plain body = true).
  { unfold body. rewrite forallb_app, forallb_digit_plain by done. case_bool_decide; [done|]. cbn. rewrite forallb_digit_plain by done.
    rewrite !elem_of_cons in Hs. destruct Hs as [->|[->|Hs]]; [done|done|by apply not_elem_of_nil in Hs]. }
  rewrite app_assoc. fold body. unfold parsePercentage, TrimSpace. rewrite bytes_of_bytes, trim_bytes_plain by (by rewrite forallb_app, Hplain).
  assert (empty (of_bytes (body ++ ["%"%char])) = false) as ->.
  { unfold empty. apply seqb_neq. intros H. apply (f_equal bytes) in H. rewrite bytes_of_bytes in H. by destruct body. }
  assert (HasSuffix (of_bytes (body ++ ["%"%char])) "%" = true) as Hsuffix.
  { unfold HasSuffix. rewrite bytes_of_bytes, rev_unit. cbn. by destruct (rev body). }
  assert (bytes (TrimSuffix (of_bytes (body ++ ["%"%char])) "%") = body) as ->.
  { unfold TrimSuffix. rewrite Hsuffix.
    rewrite !bytes_of_bytes, length_app. cbn [length bytes String.list_ascii_of_string]. rewrite Nat.add_sub. by rewrite take_app_length. }
  rewrite Hsuffix, trim_bytes_plain by done. cbn [negb andb].
  assert (ReplaceAll (of_bytes body) "," "." = of_bytes (plain_decimal w f)) as ->; [|done].
  unfold ReplaceAll. f_equal. rewrite bytes_of_bytes. unfold body, plain_decimal. rewrite replace_byte_app, replace_digits by done.
  case_bool_decide; [done|]. f_equal. change (separator :: f) with ([separator] ++ f). rewrite replace_byte_app, (replace_digits "," _ f) by done.
  rewrite !elem_of_cons in Hs. destruct Hs as [->|[->|Hs]]; [done|done|by apply not_elem_of_nil in Hs].
Qed.

(** Amounts and rates keep their digits although they go through binary floating
    point: an amount below 2^46 with at most two digits after the point, thousands
    separated by commas or not, is printed as its integer part, and a percentage,
    with a point or a comma, is printed with its two digits. *)
Theorem amounts_keep_digits unrepresentable w f separator text :
  w ≠ [] → forallb is_digit w = true → forallb is_digit f = true → (length f ≤ 2)%nat → digits_value w < 2 ^ 46 - 1 →
  separator ∈ ["."%char; ","%char] → replace_byte "," [] (bytes text) = plain_decimal w f →
  whole unrepresentable (stringToFloat text) = Itoa (digits_value w) ∧
  ∃ rate, parsePercentage (of_bytes (rate_text separator w f)) = Ok rate ∧
    format_fixed2 rate = of_bytes (hundredths (digits_value (w ++ f ++ replicate (2 - length f) "0"%char))).
Proof.
  intros Hne Hw Hf Hlen Hlt Hs Htext. destruct (plain_amount w f Hne Hw Hf Hlen Hlt) as (x & Hx & Hint & Hfix). split.
  - unfold whole, stringToFloat, ReplaceAll. change (bytes EmptyString) with (@nil ascii). rewrite Htext, Hx. cbn [default from_option]. by rewrite Hint.
  - exists x. rewrite rate_text_parse, Hx by done. by split.
Qed.

(** ** The reports and the files of the parity test of the repository
    ([internal/lps/testdata/parity]) *)

Definition text_of (lines : list string) : list ascii := bytes (rowsBody lines).
Definition customers_csv : list ascii :=
  text_of ["cif_no|cif_alternate_no|customer_type|customer_name|idtype|identity_number|mother_maiden_name|birth_date|tax_id|management_name|management_identity|address1|citydati2|phone_no|debtor_type";
    "C1|ALT1|Perorangan|Alice_(One)#|OTHER|12 34|Mom_(One)#|1980-01-02|NPWP#1|||Jl. A_(1)#|9998|08_(1)#|4111";
    "C1|DUPLICATE|Perorangan|Duplicate|||Mother|1990-01-01||||Elsewhere|0100||9002";
    "C2|ALT2|Badan Usaha|Corp & Co|KTP|9999|Company Mother|2000-01-01||||Office (A)_#|0100|021_(2)#|1234";
    "C3|ALT3|Badan Usaha|Third Corp|PAS|8888||2001-02-03||||Third Address|0102|022|4111";
    ""]%string.
Definition savings_csv : list ascii :=
  text_of ["cif_no|acc_no|product|start_date|interest_rate|nominal|blocked_nominal|end_date";
    "C1|S1|101A|2020-01-01|0.045|1,000.99|0|2030-01-01";
    "C1|S2|103A|2020-02-01|4.5|2,000.99|10.75|2030-02-01";
    "C3|S3|114A|2020-03-01|4.5|3000|0|2030-03-01";
    "C4|S4|101B|2020-04-01|4.5|4000.50|0|2030-04-01";
    ""]%string.
Definition deposits_csv : list ascii :=
  text_of ["cif_no|acc_no|product|start_date|interest_rate|nominal|blocked_nominal|end_date";
    "C2|D1|201A|2026-01-01|7|2,000.99|0|2026-12-31";
    "C3|D2|201B|2026-02-01|0.04|1,000|0|2027-02-01";
    ""]%string.
Definition balances_csv : list ascii :=
  text_of ["Account No|Accrued Interest";
    "D1|25.99";
    ""]%string.
Definition standing_csv : list ascii :=
  text_of ["Destination Account Number|End Date";
    "S2|2026-12-31";
    ""]%string.
Definition loans_csv : list ascii :=
  text_of ["cifno|loan_no|collectibility|credit_limit_effective|outstanding|principal_arrears|start_date|mature_date";
    "C5|L1|9|5,000.99|4,000.99|100.99|2025-01-01|2027-01-01";
    "C2|L2|X|900.75|800.50|bad|2025-02-01|2027-02-01";
    ""]%string.
Definition details_csv : list ascii :=
  text_of ["no_rekening|tunggakan_bunga";
    "L1|50.99";
    ""]%string.
Definition cif_c4 : gmap string json := list_to_map [
  ("id", JString "C4");
  ("namanasabah", JString "Live# Name");
  ("jenisnasabah", JString "Perorangan");
  ("jenisidentitas", JString "OTHER");
  ("perorangan_noktp", JString "");
  ("perorangan_namaibukandung", JString "");
  ("dataktp_tgllahir", JObject [("date", JString "1985-06-07 00:00:00")]);
  ("datauntuksid_golongandebitur", JString "4111");
  ("datauntuksid_dati2debitur", JString "123");
  ("dataalamat_ktp_alamat1", JString "Live_(Home)#");
  ("dataalamat_rumah_nohp", JString "081_(4)#");
  ("profilresiko_identitasnasabah", JString "PROFILE#TAX");
  ("noalt", JString "ALT4");
  ("datapengurusperusahaan", JArray [])]%string.
Definition cif_c5 : gmap string json := list_to_map [
  ("id", JString "C5");
  ("namanasabah", JString "Live Corp#");
  ("jenisnasabah", JString "Badan Usaha");
  ("jenisidentitas", JString "KTP");
  ("perorangan_noktp", JString "1234");
  ("perorangan_namaibukandung", JString "");
  ("dataktp_tgllahir", JObject [("date", JString "1999-01-01 00:00:00")]);
  ("datauntuksid_golongandebitur", JString "8888");
  ("datauntuksid_dati2debitur", JString "8888");
  ("dataalamat_ktp_alamat1", JString "Company_(HQ)#");
  ("dataalamat_rumah_nohp", JString "021_(5)#");
  ("profilresiko_identitasnasabah", JString "WRONG");
  ("noalt", JString "ALT5");
  ("datapengurusperusahaan", JArray [JObject [("nama", JString "Boss_(One)#"); ("noktp", JString "")]])]%string.
Definition expected_dn : list string :=
  ["H|31300082|20260914|01|1|5";
   "D|C1|Alice_(One)|LN|1234|Mom_(One)|19800102|NPWP#1||||Jl. A_(1)|0000|WNI|08_(1)|1|N|20|9002";
   "D|C2|Corp & Co||9999|Company Mother|||BAPAK|LN|0000000000000000|Office (A)_|0100||021_(2)|1|N|20|7777";
   "D|C3|Third Corp||8888||||BAPAK|LN|0000000000000000|Third Address|0102||022|1|N|20|4111";
   "D|C4|Live# Name|LN|0000000000000000|IBU KANDUNG|19850607|PROFILE#TAX||||Live_(Home)|0123|WNI|081_(4)|1|N|20|9002";
   "D|C5|Live Corp#||||||Boss_(One)|LN|0000000000000000|Company_(HQ)|0000||021_(5)|1|N|20|4599"]%string.
Definition expected_dsn : list string :=
  ["H|31300082|20260914|01|1|6";
   "D|R||C1|TAB|S1|S|20260914|1|4.50|0|6.25|1|1000|0||0||20260914";
   "D|R||C1|TAB|S2|B|20260914|1|4.50|0|6.25|1|2000|10|99|0||20261231";
   "D|R||C3|TAB|S3|B|20260914|1|4.50|0|6.25|1|3000|0||0||20260914";
   "D|R||C4|TAB|S4|S|20260914|1|4.50|0|6.25|1|4000|0||0||20260914";
   "D|R||C2|DEP|D1|B|20260101|1|7.00|0|6.50|2.B|2000|0||25|20260914|20261231";
   "D|R||C3|DEP|D2|B|20260201|1|4.00|0|4.50|1|1000|0||0||20270201"]%string.
Definition expected_dk : list string :=
  ["H|31300082|20260914|01|1|2";
   "D|C5|L1|03|9|5000|4000|100|50|300|20250101|20270101|4";
   "D|C2|L2|03|X|900|800|0|0|300|20250201|20270201|4"]%string.
Definition expected_dsj : list string :=
  ["H|31300082|20260914|01|1|0"]%string.

Definition sample_reports : gmap string (list ascii) := list_to_map [
  ("/app/report/cbr/20260914/cbrcustomer.csv", customers_csv); ("/app/report/cbr/20260914/cbrsavings.csv", savings_csv);
  ("/app/report/cbr/20260914/cbrtimedeposit.csv", deposits_csv);
  ("/app/report/daily/20260914/Time Deposit Account Balance Details.csv", balances_csv);
  ("/app/report/cbr/20260914/cbrloan.csv", loans_csv);
  ("/app/report/daily/20260914/DetailOutstandingRekeningPinjaman.csv", details_csv)]%string.
Definition sample_rate (y m d : Z) (bpr : string) : RateEntry :=
  {| rate_Date := time_date y m d 0 UTC; BPR := default NaN (ParseFloat bpr) |}.
Definition sample_gateways : Gateways := {|
  report := fun file path => of_option (sample_reports !! (path +:+ "/" +:+ file)%string) (Sentinel ErrNotFound);
  named_report := fun _ _ => Ok standing_csv;
  inquiry := fun cif => if seqb cif "C4" then Ok cif_c4 else if seqb cif "C5" then Ok cif_c5 else Fail (Sentinel ErrNotFound);
  debtor_type := fun alternate => if seqb alternate "ALT2" then Ok "7777"%string else Fail (Msg "MSO lookup failed");
  current_rates := Ok [sample_rate 2026 9 14 "6.25"; sample_rate 2026 1 1 "6.5"; sample_rate 2026 2 1 "4.5"]
|}.
Definition sample_input : Input := {| ParticipantCode := "31300082"; ReportingDate := "20260914"; Period := "01"; Version := "1" |}.
(** Two workers look up C4 and C5, and the second one is done first. *)
Definition sample_run : option (res (Result * list (string * string))) :=
  Generate (fun _ => false) (fun _ => 0) sample_gateways (fixed_zone 25200) sample_input ["C5"; "C4"]%string
    [Take; Take; Finish 1 false; Finish 0 false] (Ok tt).
Definition sample_result : Result :=
  {| Filename := "LPS_31300082_20260914.zip"; DNRows := 5; DSNRows := 6; DKRows := 2; DSJRows := 0 |}.
Definition sample_files : list (string * string) := [
  ("DK_31300082_20260914_01_1.txt", of_bytes (text_of expected_dk));
  ("DN_31300082_20260914_01_1.txt", Join expected_dn (of_bytes [newline]));
  ("DSJ_31300082_20260914_01_1.txt", of_bytes (text_of expected_dsj));
  ("DSN_31300082_20260914_01_1.txt", of_bytes (text_of expected_dsn))]%string.
Lemma sample_golden : sample_run = Some (Ok (sample_result, sample_files)).
Proof. vm_compute. reflexivity. Qed.

Lemma sample_inquiry cif data :
  inquiry sample_gateways cif = Ok data → (cif = "C4"%string ∧ data = cif_c4) ∨ (cif = "C5"%string ∧ data = cif_c5).
Proof.
  cbn [inquiry sample_gateways]. destruct (seqb cif "C4") eqn:E4; [apply seqb_eq in E4; intros [= <-]; by left|].
  destruct (seqb cif "C5") eqn:E5; [apply seqb_eq in E5; intros [= <-]; by right|done].
Qed.
(** The texts of a customer's data, decided *)
Definition one_line_map (data : gmap string json) : bool :=
  forallb (fun kv => negb (mem_byte newline (bytes (stringValue (Some kv.2))))) (map_to_list data).
Lemma one_line_map_spec data key : one_line_map data = true → one_line (stringValue (data !! key)).
Proof.
  intros H. destruct (data !! key) as [j|] eqn:E; [|done]. unfold one_line_map in H. rewrite forallb_forall in H.
  apply elem_of_map_to_list in E. apply list_elem_of_In in E. specialize (H _ E). by apply negb_true_iff in H.
Qed.
Lemma sample_plain : plain_gateways sample_gateways.
Proof.
  constructor.
  - intros cif data key H. apply one_line_map_spec. destruct (sample_inquiry _ _ H) as [[_ ->]|[_ ->]]; vm_compute; reflexivity.
  - intros cif data H. destruct (sample_inquiry _ _ H) as [[_ ->]|[_ ->]]; vm_compute; reflexivity.
  - intros alternate d. cbn [debtor_type sample_gateways]. destruct (seqb alternate "ALT2"); [intros [= <-]; reflexivity|done].
Qed.

Lemma Generate_counts_witness :
  Forall2 (λ file count, ∃ body, file.2 = buildFileContent sample_input count body ∧ lines_in body = count) sample_files [2; 5; 0; 6].
Proof.
  exact (proj2 (Generate_counts _ _ _ _ _ _ _ _ _ _ sample_plain sample_golden)).
Defined.
Lemma amounts_keep_digits_witness :
  whole (fun _ => 0) (stringToFloat "1,234,567.89") = "1234567"%string ∧
  ∃ rate, parsePercentage "1234567,89%" = Ok rate ∧ format_fixed2 rate = "1234567.89"%string.
Proof.
  refine (amounts_keep_digits (fun _ => 0) (bytes "1234567") (bytes "89") "," "1,234,567.89" _ _ _ _ _ _ _);
    [discriminate|vm_compute; reflexivity|vm_compute; reflexivity|vm_compute; lia|vm_compute; reflexivity| |vm_compute; reflexivity].
  set_solver.
Defined.

(** ** Loan details in eight parts *)

(** Part [n] has the account [An]; [order] is how its columns are ordered, [ends]
    whether its last line is terminated. *)
Definition part_text (n : Z) (order : list string) (row : list string) (ends : bool) : list ascii :=
  bytes (row_text order) ++ [newline] ++ bytes (row_text row) ++ (if ends then [newline] else []).
Definition parts_report (part : Z → list ascii) : Gateways := {|
  report := fun file _ => match find (fun n => seqb file (part_name n)) part_numbers with
                          | Some n => Ok (part n) | None => Fail (Sentinel ErrNotFound) end;
  named_report := named_report sample_gateways; inquiry := inquiry sample_gateways;
  debtor_type := debtor_type sample_gateways; current_rates := current_rates sample_gateways |}.
Definition details_of (part : Z → list ascii) : res transposed :=
  body ← downloadLoanDetails (parts_report part) "/app/report/daily/20260914"; transposeTable body "no_rekening".
Definition account_n (n : Z) : string := ("A" +:+ Itoa n)%string.
Definition good_part (n : Z) : list ascii :=
  part_text n ["no_rekening"; "tunggakan_bunga"]%string [account_n n; Itoa (n * 100)] true.
(** The parts after the first one have their columns in the other order. *)
Definition permuted_part (n : Z) : list ascii :=
  if n =? 1 then good_part 1
  else part_text n ["tunggakan_bunga"; "no_rekening"]%string [Itoa (n * 100); account_n n] true.
(** No part ends its last line. *)
Definition unterminated_part (n : Z) : list ascii :=
  part_text n ["no_rekening"; "tunggakan_bunga"]%string [account_n n; Itoa (n * 100)] false.
(** Every part has the same columns, one of them twice. *)
Definition repeated_part (n : Z) : list ascii :=
  part_text n ["no_rekening"; "tunggakan_bunga"; "tunggakan_bunga"]%string [account_n n; Itoa (n * 100); "0"%string] true.

Definition interest_arrears (details : res transposed) (n : Z) : option string :=
  match details with Ok m => Some (cell m (account_n n) "tunggakan_bunga") | Fail _ => None end.
Lemma good_parts_read :
  interest_arrears (details_of good_part) <$> part_numbers = (λ n, Some (Itoa (n * 100))) <$> part_numbers.
Proof. vm_compute. reflexivity. Qed.
(** The header of a part is compared as a set, its rows are read by the columns of
    the first part: the accounts of the other parts have no arrears. *)
Lemma permuted_parts_misread :
  interest_arrears (details_of permuted_part) <$> part_numbers = Some "100"%string :: replicate 7 (Some EmptyString).
Proof. vm_compute. reflexivity. Qed.
(** The last row of a part without a final newline runs into the next part. *)
Lemma unterminated_parts_glued :
  interest_arrears (details_of unterminated_part) <$> part_numbers = Some "100A2"%string :: replicate 7 (Some EmptyString).
Proof. vm_compute. reflexivity. Qed.
(** A column that occurs twice makes identical headers inconsistent. *)
Lemma repeated_columns_inconsistent :
  details_of repeated_part = Fail (Msg "loan detail part %03d has inconsistent header").
Proof. vm_compute. reflexivity. Qed.
