(* ===== verification/Directory.v ===== *)
(** The tables of people: users, permissions, grants, browser sessions and the
    audit trail, with the repositories of [internal/user], [internal/auth],
    [internal/access] and the append of [internal/audit].

    [dir] is the content of the tables.  Outside a transaction, other requests get
    their turn before every statement: [others] lists what they do to the tables.
    A transaction that changes these tables starts by locking the row of the
    permission "access.manage" (and the user it is about), so nothing of the kind
    happens in between.  Statements can fail (Database.v). *)
From stdpp Require Import base list strings gmap.
From Stdlib Require Import ZArith Lia Ascii.
From S2P Require Import Prelude GoStrings GoErrors Database GoSlices GoTime GoEncoding GoJSON.
Local Open Scope Z_scope.

(** ** The rows *)

Record User := {
  user_ID : Z; Username : string; Name : string; IsActive : bool; LastLoginAt : option time;
  user_CreatedAt : time; user_UpdatedAt : time
}.
Record Permission := { p_Key : string; p_Name : string; p_Group : string; p_Description : string;
                       p_CreatedAt : time; p_UpdatedAt : time }.
Record Session := {
  session_ID : Z; UserID : Z; TokenHash : list ascii; RememberMe : bool; ExpiresAt : time; LastSeenAt : time;
  session_CreatedAt : time; session_UpdatedAt : time
}.
Record audit_row := {
  actor_user_id : option Z; actor_username : option string; effective_user_id : option Z;
  effective_username : option string; action : string; resource_type : option string; resource_id : option Z;
  metadata : option (list ascii); created_at : time
}.

Record directory := {
  users : gmap Z User; permissions : gmap Z Permission; grants : gset (Z * Z);   (* (user_id, permission_id) *)
  sessions : gmap Z Session; audit_logs : list audit_row;
  next_user : Z; next_permission : Z; next_session : Z                           (* AUTO_INCREMENT *)
}.
Definition set_users (d : directory) (m : gmap Z User) (next : Z) : directory :=
  {| users := m; permissions := permissions d; grants := grants d; sessions := sessions d; audit_logs := audit_logs d;
     next_user := next; next_permission := next_permission d; next_session := next_session d |}.
Definition set_permissions (d : directory) (m : gmap Z Permission) (next : Z) : directory :=
  {| users := users d; permissions := m; grants := grants d; sessions := sessions d; audit_logs := audit_logs d;
     next_user := next_user d; next_permission := next; next_session := next_session d |}.
Definition set_grants (d : directory) (g : gset (Z * Z)) : directory :=
  {| users := users d; permissions := permissions d; grants := g; sessions := sessions d; audit_logs := audit_logs d;
     next_user := next_user d; next_permission := next_permission d; next_session := next_session d |}.
Definition set_sessions (d : directory) (m : gmap Z Session) (next : Z) : directory :=
  {| users := users d; permissions := permissions d; grants := grants d; sessions := m; audit_logs := audit_logs d;
     next_user := next_user d; next_permission := next_permission d; next_session := next |}.
Definition set_audit_logs (d : directory) (l : list audit_row) : directory :=
  {| users := users d; permissions := permissions d; grants := grants d; sessions := sessions d; audit_logs := l;
     next_user := next_user d; next_permission := next_permission d; next_session := next_session d |}.

(** A time in a DATETIME(6) column, or compared with one, is rounded to microseconds. *)
Definition datetime6 (t : time) : time := (t + 500) / 1000 * 1000.

(** ** Access to the tables *)

Record access_db := { dir : directory; others : list (directory → directory) }.

(** The turn of the other requests *)
Definition settle (s : access_db) : access_db :=
  match others s with
  | [] => s
  | f :: rest => {| dir := f (dir s); others := rest |}
  end.
Definition inside {A} (f : directory → res (A * directory)) : db access_db A :=
  statement (fun s => '(a, d) ← f (dir s); Ok (a, {| dir := d; others := others s |})).
Definition interfere : db access_db unit := fun w => (Ok tt, World (settle (tables w)) (faults w)).
Definition on_tables {A} (f : directory → res (A * directory)) : db access_db A := interfere;; inside f.
Definition select {A} (f : directory → A) : directory → res (A * directory) := fun d => Ok (f d, d).
Definition change (f : directory → directory) : directory → res (unit * directory) := fun d => Ok (tt, f d).
(** [BeginTxx], the body and [Commit], after which nothing of the body is lost *)
Definition exclusively {A} (on_begin on_commit : string) (body : db access_db A) : db access_db A :=
  interfere;; transaction (Wrap on_begin) (Wrap on_commit) body.

Definition duplicate_entry : string := "Error 1062 (23000): Duplicate entry".
Definition foreign_key : string := "Error 1452 (23000): a foreign key constraint fails".
(** [errors.As(err, &mysqlError) && mysqlError.Number == 1062] *)
Fixpoint is_duplicate (e : err) : bool :=
  match e with Msg m => seqb m duplicate_entry | Wrap _ e' => is_duplicate e' | _ => false end.

(** ** The statements *)

Definition find_user (d : directory) (p : User → bool) : option User :=
  snd <$> head (map_to_list (filter (fun kv => p (kv.2) = true) (users d))).
Definition user_named (d : directory) (name : string) : option User := find_user d (fun u => seqb (Username u) name).
Definition insert_user (name display : string) (active : bool) (now : time) (d : directory) : res (Z * directory) :=
  match user_named d name with
  | Some _ => Fail (Msg duplicate_entry)
  | None =>
      let id := next_user d in
      Ok (id, set_users d (<[id := {| user_ID := id; Username := name; Name := display; IsActive := active;
                                      LastLoginAt := None; user_CreatedAt := datetime6 now;
                                      user_UpdatedAt := datetime6 now |}]> (users d)) (id + 1))
  end.
Definition update_user (id : Z) (f : User → User) (d : directory) : directory :=
  match users d !! id with
  | Some u => set_users d (<[id := f u]> (users d)) (next_user d)
  | None => d
  end.
Definition logged_in (now : time) (u : User) : User :=
  {| user_ID := user_ID u; Username := Username u; Name := Name u; IsActive := IsActive u;
     LastLoginAt := Some (datetime6 now); user_CreatedAt := user_CreatedAt u; user_UpdatedAt := datetime6 now |}.
Definition activated (active : bool) (now : time) (u : User) : User :=
  {| user_ID := user_ID u; Username := Username u; Name := Name u; IsActive := active;
     LastLoginAt := LastLoginAt u; user_CreatedAt := user_CreatedAt u; user_UpdatedAt := datetime6 now |}.

Definition permission_id (d : directory) (key : string) : option Z :=
  fst <$> head (map_to_list (filter (fun kv => p_Key (kv.2) = key) (permissions d))).
Definition granted_to (d : directory) (user : Z) : gset Z :=
  set_map snd (filter (fun g => fst g = user) (grants d)).
(** SELECT p.key FROM user_permissions up JOIN permissions p ... WHERE up.user_id = ?: in some order *)
Definition granted_keys (d : directory) (user : Z) : list string :=
  omap (fun id => p_Key <$> permissions d !! id) (elements (granted_to d user)).
Definition managers (d : directory) (permission : Z) : list Z :=
  List.filter (fun id => match users d !! id with Some u => IsActive u | None => false end)
    (fst <$> elements (filter (fun g => snd g = permission) (grants d))).
Definition insert_grant (user permission : Z) (d : directory) : res (unit * directory) :=
  if bool_decide ((user, permission) ∈ grants d) then Fail (Msg duplicate_entry) else
  if bool_decide (is_Some (users d !! user)) && bool_decide (is_Some (permissions d !! permission))
  then Ok (tt, set_grants d ({[(user, permission)]} ∪ grants d)) else Fail (Msg foreign_key).
(** INSERT IGNORE: an error becomes a warning. *)
Definition insert_ignore_grant (user permission : Z) (d : directory) : res (unit * directory) :=
  match insert_grant user permission d with Ok r => Ok r | Fail _ => Ok (tt, d) end.
Definition delete_grants (user : Z) (ids : list Z) (d : directory) : directory :=
  set_grants d (filter (fun g => ¬ (fst g = user ∧ snd g ∈ ids)) (grants d)).
Definition same_text (p : Permission) (name group description : string) : bool :=
  seqb (p_Name p) name && seqb (p_Group p) group && seqb (p_Description p) description.
Definition upsert_permission (key name group description : string) (now : time) (d : directory) : directory :=
  match permission_id d key with
  | Some id =>
      match permissions d !! id with
      | Some p => set_permissions d (<[id := {| p_Key := key; p_Name := name; p_Group := group;
                     p_Description := description; p_CreatedAt := p_CreatedAt p;
                     p_UpdatedAt := if same_text p name group description then p_UpdatedAt p else datetime6 now |}]>
                     (permissions d)) (next_permission d)
      | None => d
      end
  | None =>
      let id := next_permission d in
      set_permissions d (<[id := {| p_Key := key; p_Name := name; p_Group := group; p_Description := description;
                                    p_CreatedAt := datetime6 now; p_UpdatedAt := datetime6 now |}]> (permissions d)) (id + 1)
  end.

Definition session_with (d : directory) (hash : list ascii) : option Session :=
  snd <$> head (map_to_list (filter (fun kv => TokenHash (kv.2) = hash) (sessions d))).
Definition delete_sessions (gone : Session → bool) (d : directory) : directory :=
  set_sessions d (filter (fun kv => gone (kv.2) = false) (sessions d)) (next_session d).
Definition insert_session (user : Z) (hash : list ascii) (remember : bool) (expires seen now : time)
    (d : directory) : res (Z * directory) :=
  match session_with d hash with
  | Some _ => Fail (Msg duplicate_entry)
  | None =>
      if bool_decide (is_Some (users d !! user)) then
        let id := next_session d in
        Ok (id, set_sessions d (<[id := {| session_ID := id; UserID := user; TokenHash := hash; RememberMe := remember;
                    ExpiresAt := datetime6 expires; LastSeenAt := datetime6 seen; session_CreatedAt := datetime6 now;
                    session_UpdatedAt := datetime6 now |}]> (sessions d)) (id + 1))
      else Fail (Msg foreign_key)
  end.
Definition touched (now : time) (s : Session) : Session :=
  {| session_ID := session_ID s; UserID := UserID s; TokenHash := TokenHash s; RememberMe := RememberMe s;
     ExpiresAt := ExpiresAt s; LastSeenAt := datetime6 now; session_CreatedAt := session_CreatedAt s;
     session_UpdatedAt := datetime6 now |}.
Definition update_session (id : Z) (f : Session → Session) (d : directory) : directory :=
  match sessions d !! id with
  | Some s => set_sessions d (<[id := f s]> (sessions d)) (next_session d)
  | None => d
  end.
Definition insert_audit (row : audit_row) (d : directory) : res (unit * directory) :=
  let known := fun o => match o with Some id => bool_decide (is_Some (users d !! id)) | None => true end in
  if known (actor_user_id row) && known (effective_user_id row)
  then Ok (tt, set_audit_logs d (audit_logs d ++ [row])) else Fail (Msg foreign_key).

(** ** [internal/user] *)

Definition MaxUsernameLength : nat := 191.
Definition MaxNameLength : nat := 191.
Definition NormalizeUsername (username : string) : string := TrimSpace username.
Definition ValidateUsername (username : string) : res unit :=
  let username := NormalizeUsername username in
  fail_if (empty username) (Msg "username must not be empty");;
  fail_if (negb (valid_utf8 (bytes username))) (Msg "username must be valid UTF-8");;
  fail_if (MaxUsernameLength <? rune_count (bytes username))%nat (Msg "username must be at most %d characters").
Definition ValidateName (name : string) : res unit :=
  let name := TrimSpace name in
  fail_if (empty name) (Msg "name must not be empty");;
  fail_if (negb (valid_utf8 (bytes name))) (Msg "name must be valid UTF-8");;
  fail_if (MaxNameLength <? rune_count (bytes name))%nat (Msg "name must be at most %d characters").

(** A row, or the error for [sql.ErrNoRows] *)
Definition found {A} (none : sentinel) (message : string) (q : db access_db (option A)) : db access_db A :=
  row ← wrapped message q;
  match row with Some a => mret a | None => db_fail (Sentinel none) end.
Definition taken (id : db access_db Z) : db access_db Z :=
  recover id (fun e => db_fail (if is_duplicate e then Sentinel ErrUsernameTaken else Wrap "create user: %w" e)).

Definition user_Create (username name : string) (active : bool) (now : time) : db access_db User :=
  let username := NormalizeUsername username in
  let name := TrimSpace name in
  lift (ValidateUsername username);;
  lift (ValidateName name);;
  id ← taken (on_tables (insert_user username name active now));
  mret {| user_ID := id; Username := username; Name := name; IsActive := active; LastLoginAt := None;
          user_CreatedAt := now; user_UpdatedAt := now |}.
Definition FindByID (id : Z) : db access_db User :=
  found UserErrNotFound "find user: %w" (on_tables (select (fun d => users d !! id))).
Definition FindByUsername (username : string) : db access_db User :=
  let username := NormalizeUsername username in
  lift (ValidateUsername username);;
  found UserErrNotFound "find user: %w" (on_tables (select (fun d => user_named d username))).
Definition FindOrCreateFromAuthenticatedUsername (username : string) (now : time) : db access_db (User * bool) :=
  let username := NormalizeUsername username in
  lift (ValidateUsername username);;
  recover (u ← FindByUsername username; mret (u, false)) (fun e =>
    if negb (Is e UserErrNotFound) then db_fail e else
    recover (u ← user_Create username username true now; mret (u, true)) (fun e =>
      if negb (Is e ErrUsernameTaken) then db_fail e else
      u ← FindByUsername username; mret (u, false))).
Definition UpdateLastLoginAt (id : Z) (now : time) : db access_db unit :=
  wrapped "update user last login: %w" (on_tables (change (update_user id (logged_in now)))).

(** ** [internal/auth] *)

Definition TokenBytes : nat := 32.
(** The token of 32 random bytes, and what is stored of it *)
Definition GenerateToken (random : list ascii) : string := of_bytes (base64_encode random).
Definition HashToken (token : string) : list ascii := Sum256 (bytes token).
Definition no_hash : list ascii := replicate 32 (chr 0).   (* [32]byte{} *)
Definition CreateSession (user : Z) (hash : list ascii) (remember : bool) (expires seen now : time) : db access_db Session :=
  lift (fail_if (user =? 0) (Msg "user ID must not be zero"));;
  lift (fail_if (bool_decide (hash = no_hash)) (Msg "token hash must not be empty"));;
  lift (fail_if (seen =? 0) (Msg "session last seen time must not be zero"));;
  lift (fail_if (negb (now <? expires)) (Msg "session expiry must be after creation time"));;
  id ← wrapped "create session: %w" (on_tables (insert_session user hash remember expires seen now));
  mret {| session_ID := id; UserID := user; TokenHash := hash; RememberMe := remember; ExpiresAt := expires;
          LastSeenAt := seen; session_CreatedAt := now; session_UpdatedAt := now |}.
(** SELECT ... WHERE token_hash = ? AND expires_at > ? *)
Definition valid_session (hash : list ascii) (now : time) (d : directory) : option Session :=
  match session_with d hash with
  | Some s => if datetime6 now <? ExpiresAt s then Some s else None
  | None => None
  end.
Definition row_session (row : Session) : res Session :=
  fail_if (negb (length (TokenHash row) =? 32)%nat) (Msg "find valid session: token hash has length %d");; Ok row.
Definition FindValidByTokenHash (hash : list ascii) (now : time) : db access_db Session :=
  row ← found ErrSessionNotFound "find valid session: %w" (on_tables (select (valid_session hash now)));
  lift (row_session row).
Definition UpdateLastSeenAt (id : Z) (now : time) : db access_db unit :=
  wrapped "update session last seen: %w" (on_tables (change (update_session id (touched now)))).
Definition Revoke (hash : list ascii) : db access_db unit :=
  wrapped "revoke session: %w" (on_tables (change (delete_sessions (fun s => bool_decide (TokenHash s = hash))))).
Definition RevokeAllForUser (user : Z) : db access_db unit :=
  wrapped "revoke user sessions: %w" (on_tables (change (delete_sessions (fun s => UserID s =? user)))).
Definition expired (now : time) (s : Session) : bool := ExpiresAt s <=? datetime6 now.
Definition DeleteExpired (now : time) : db access_db Z :=
  wrapped "delete expired sessions: %w"
    (on_tables (fun d => Ok (Z.of_nat (size (filter (fun kv => expired now (kv.2) = true) (sessions d))),
                             delete_sessions (expired now) d))).

(** ** [internal/access]: the repository *)

Definition ListPermissionKeysForUser (user : Z) : db access_db (list string) :=
  wrapped "list permissions for user %d: %w"
    (on_tables (select (fun d => SortStableFunc string_leb (granted_keys d user)))).
Definition UserHasPermission (user : Z) (key : string) : db access_db bool :=
  wrapped "check user permission: %w"
    (on_tables (select (fun d => existsb (fun k => seqb k key) (granted_keys d user)))).

(** ** [internal/audit] *)

Record Identity := { identity_UserID : Z; identity_Username : string }.
Record Attribution := { Actor : option Identity; Effective : option Identity; SystemActor : string }.
Inductive Metadata :=
| RoleChangeMetadata (FromRole ToRole : string)
| StatusChangeMetadata (From To : string)
| PermissionsUpdatedMetadata (Added Removed : list string)
| ImpersonationStartedMetadata (TargetRole : string)
| LoginFailedMetadata (Username : string)
| LoanInquiryMetadata (AccountNumber AsOf Source : string)
| APILoanLookupMetadata (RequestedAccount PrimaryAccount AsOf Outcome RequestID : string)
| ReportingMetadata (AsOf : string) (RowCount FailedCount : Z)
| LPSMetadata (ParticipantCode ReportingDate : string) (RowCount : Z)
| SnapshotRefreshMetadata (Trigger : string) (RowCount : Z) (Error : string).
Record Event := {
  ev_Attribution : Attribution; ev_Action : string; ev_Resource : string; ev_ResourceID : Z;
  ev_Metadata : option Metadata; ev_CreatedAt : time
}.

(** The members of the JSON object; [text] and [number] drop an "omitempty" zero value. *)
Definition text (omit : bool) (name value : string) : list (string * list ascii) :=
  if omit && empty value then [] else [(name, marshal_string value)].
Definition number (omit : bool) (name : string) (value : Z) : list (string * list ascii) :=
  if omit && (value =? 0) then [] else [(name, itoa value)].
Definition metadata_members (m : Metadata) : list (string * list ascii) :=
  match m with
  | RoleChangeMetadata f t => text false "from_role" f ++ text false "to_role" t
  | StatusChangeMetadata f t => text false "from" f ++ text false "to" t
  | PermissionsUpdatedMetadata a r => [("added", marshal_strings a); ("removed", marshal_strings r)]%string
  | ImpersonationStartedMetadata t => text false "target_role" t
  | LoginFailedMetadata u => text false "username" u
  | LoanInquiryMetadata n a s => text false "account_number" n ++ text false "as_of" a ++ text true "source" s
  | APILoanLookupMetadata r p a o i =>
      text false "requested_account" r ++ text true "primary_account" p ++ text false "as_of" a ++
      text false "outcome" o ++ text true "request_id" i
  | ReportingMetadata a n f => text false "as_of" a ++ number false "row_count" n ++ number false "failed" f
  | LPSMetadata p d n => text false "participant_code" p ++ text false "reporting_date" d ++ number false "row_count" n
  | SnapshotRefreshMetadata t n e => text false "trigger" t ++ number true "row_count" n ++ text true "error" e
  end.
Definition marshal_metadata (m : Metadata) : list ascii :=
  ["{"%char] ++ join_bytes [","%char]
    ((fun kv => marshal_string (fst kv) ++ [":"%char] ++ snd kv) <$> metadata_members m) ++ ["}"%char].

Definition MaxMetadataBytes : Z := 65536.
Definition known_actions : list string :=
  ["auth.login.success"; "auth.login.failed"; "auth.logout"; "auth.registration"; "impersonation.started";
   "impersonation.stopped"; "user.created"; "user.profile_updated"; "user.role_changed"; "user.activated";
   "user.deactivated"; "user.auto_provisioned"; "user.permissions_updated"; "access.bootstrap"; "user.password_reset";
   "role.created"; "role.updated"; "role.deleted"; "role.permissions_updated"; "admin.bootstrap"; "loan.inquiry";
   "api.loan_lookup"; "reporting.generate"; "lps.generate"; "snapshot.refresh.started"; "snapshot.refresh.succeeded";
   "snapshot.refresh.failed"]%string.
Definition knownAction (a : string) : bool := existsb (seqb a) known_actions.
Definition ResourceUser : string := "user".
Definition ResourceRole : string := "role".
Definition validateIdentity (i : option Identity) : res unit :=
  match i with
  | None => Ok tt
  | Some i => fail_if ((identity_UserID i =? 0) || empty (TrimSpace (identity_Username i)))
                      (Msg "audit %s identity must have user ID and username")
  end.

(** The checks of [Append] and the row it inserts *)
Definition audit_entry (e : Event) : res audit_row :=
  let a := ev_Attribution e in
  fail_if (negb (knownAction (ev_Action e))) (Msg "unknown audit action %q");;
  validateIdentity (Actor a);;
  validateIdentity (Effective a);;
  fail_if (negb (empty (SystemActor a)) &&
           (negb (HasPrefix (SystemActor a) "system:") || bool_decide (is_Some (Actor a)) ||
            bool_decide (is_Some (Effective a))))
          (Msg "system actor must use system: prefix without user identities");;
  fail_if (negb (Bool.eqb (empty (ev_Resource e)) (ev_ResourceID e =? 0)))
          (Msg "audit resource type and ID must be set together");;
  fail_if (negb (empty (ev_Resource e)) && negb (seqb (ev_Resource e) ResourceUser) &&
           negb (seqb (ev_Resource e) ResourceRole)) (Msg "unknown audit resource type %q");;
  fail_if (ev_CreatedAt e =? 0) (Msg "audit creation time must not be zero");;
  let encoded := marshal_metadata <$> ev_Metadata e in
  fail_if (match encoded with Some l => MaxMetadataBytes <? Z.of_nat (length l) | None => false end)
          (Msg "audit metadata exceeds %d bytes");;
  Ok {| actor_user_id := identity_UserID <$> Actor a;
        actor_username := if empty (SystemActor a) then identity_Username <$> Actor a else Some (SystemActor a);
        effective_user_id := identity_UserID <$> Effective a; effective_username := identity_Username <$> Effective a;
        action := ev_Action e;
        resource_type := if empty (ev_Resource e) then None else Some (ev_Resource e);
        resource_id := if empty (ev_Resource e) then None else Some (ev_ResourceID e);
        metadata := encoded; created_at := datetime6 (ev_CreatedAt e) |}.
(** [audit.Append] in a transaction, and on its own *)
Definition Append (e : Event) : db access_db unit :=
  row ← lift (audit_entry e); wrapped "append audit event %q: %w" (inside (insert_audit row)).
Definition AppendAlone (e : Event) : db access_db unit := interfere;; Append e.
