(* ===== verification/Api.v ===== *)
(** The JSON API, [internal/api/handler.go]: the key of a request, the lookup of a
    position, the answer with its amounts and repayments, and the audit event.

    The position service is a parameter, as it is an interface in the code.  A
    request is what the handler reads of it: the values of the Authorization header,
    the account in the path, the values of "as_of" and the request id. *)
From stdpp Require Import base list sorting strings.
From Stdlib Require Import ZArith Lia Ascii QArith Qround.
From S2P Require Import Prelude GoStrings GoErrors GoSlices GoTime GoEncoding GoJSON GoMarshal GoPath Dates Money LoanModel Directory Position.
Local Open Scope Z_scope.

(** ** HTTP *)

Record http_response := { status : Z; content_type : string; response_body : list ascii }.
Definition StatusOK : Z := 200.
Definition StatusBadRequest : Z := 400.
Definition StatusUnauthorized : Z := 401.
Definition StatusNotFound : Z := 404.
Definition StatusConflict : Z := 409.
Definition StatusUnprocessableEntity : Z := 422.
Definition StatusInternalServerError : Z := 500.
Definition StatusServiceUnavailable : Z := 503.

Definition writeJSON (status : Z) (value : json) : http_response :=
  {| status := status; content_type := "application/json; charset=utf-8"; response_body := encode_value value |}.
Definition error_json (code : string) : json := JObject [("error"%string, JString code)].
Definition writeError (status : Z) (code : string) : http_response := writeJSON status (error_json code).

(** ** The answer *)

Definition moneyNumber (value : Money) : json := JNumber (Format value 2).
Definition repaymentResponse (payment : Repayment) : json := JObject [
  ("payment_date", JString (Date_String (rp_Date payment)));
  ("principal", moneyNumber (rp_PrincipalComponent payment));
  ("interest", moneyNumber (rp_InterestComponent payment));
  ("penalty", moneyNumber (rp_PenaltyComponent payment));
  ("early_termination_penalty", moneyNumber (rp_EarlyPenaltyComponent payment));
  ("dwp", moneyNumber (rp_DWPComponent payment));
  ("total_payment", moneyNumber (rp_TotalPayment payment));
  ("journal_number", JString (rp_JournalNumber payment))]%string.
Definition source_name (source : option PositionSource) : string :=
  match source with Some s => source_text s | None => EmptyString end.
(** "compare(left, right) <= 0" of the comparison that sorts the repayments *)
Definition repayment_leb (left right : Repayment) : bool :=
  if Before (rp_Date left) (rp_Date right) then true else
  if After (rp_Date left) (rp_Date right) then false else rp_SourceOrder left <=? rp_SourceOrder right.
Definition contractualResponse (account : string) (asOf : Date) (resolved : ResolvedPosition) : json := JObject [
  ("requested_account", JString account);
  ("primary_account", JString (cd_PrimaryAccount (rv_Loan resolved)));
  ("as_of", JString (Date_String asOf));
  ("contract_rate", moneyNumber (cd_FlatRatePercent (rv_Loan resolved)));
  ("contractual_outstanding", moneyNumber (lp_PrincipalOutstanding (rv_Position resolved)));
  ("position_source", JString (source_name (lp_Source (rv_Position resolved))));
  ("repayment_history", JArray (repaymentResponse <$> SortStableFunc repayment_leb (cd_Repayments (rv_Loan resolved))))]%string.

(** ** Errors *)

Definition unavailable : list sentinel :=
  [ErrHistoricalEvidence; ErrCurrentSnapshot; ErrFincloudCredentials; ErrFincloudSession; ErrFincloudUnavailable;
   ErrDWHUnavailable; ErrMSOUnavailable].
Definition positionError (e : err) : Z * string :=
  if Is e ErrInvalidInput then (StatusBadRequest, "bad_request"%string) else
  if Is e ErrAmbiguousAccountResolution then (StatusConflict, "ambiguous_account"%string) else
  if Is e ErrUnsupportedCalculation then (StatusUnprocessableEntity, "unsupported_calculation"%string) else
  if existsb (Is e) unavailable then (StatusServiceUnavailable, "service_unavailable"%string) else
  if Is e ErrNotFound then (StatusNotFound, "not_found"%string) else
  (StatusInternalServerError, "internal_error"%string).

(** ** The handler *)

Record api_request := {
  authorization : list string; account_param : string; as_of_values : list string; request_id : string
}.

(** [strings.EqualFold(scheme, "Bearer")]: no letter of it folds outside ASCII *)
Definition is_bearer (scheme : list ascii) : bool := bool_decide (lower_byte <$> scheme = bytes "bearer").
Definition key_hash (key : string) : list ascii := Sum256 (bytes key).
Definition blank_chars : list ascii := [" "%char; chr 9; chr 13; chr 10].

Section Handler.
Variable positions : string → Date → res ResolvedPosition.
Variable location : Location.
Variable keyHash : list ascii.
Variable now : time.

(** [true] when the request goes on to the handler *)
Definition authenticate (request : api_request) : bool :=
  match authorization request with
  | [value] =>
      let '(scheme, key, found) := cut_byte " " (bytes value) in
      if negb found || negb (is_bearer scheme) || bool_decide (key = []) ||
         contains_any (of_bytes key) blank_chars
      then false
      else bool_decide (key_hash (of_bytes key) = keyHash)
  | _ => false
  end.

Definition audit_event (request : api_request) (account primary : string) (asOf : Date) (outcome : string) : Event := {|
  ev_Attribution := {| Actor := None; Effective := None; SystemActor := "system:api" |};
  ev_Action := "api.loan_lookup"; ev_Resource := EmptyString; ev_ResourceID := 0;
  ev_Metadata := Some (APILoanLookupMetadata account primary (Date_String asOf) outcome (request_id request));
  ev_CreatedAt := now |}.

(** The response and the event of the deferred [audit] *)
Definition contractual (request : api_request) : http_response * Event :=
  let account := TrimSpace (account_param request) in
  let bad := fun asOf => (writeError StatusBadRequest "bad_request", audit_event request account EmptyString asOf "bad_request") in
  match as_of_values request with
  | [raw] =>
      if empty account then bad ZeroDate else
      match ParseDate raw (Some location) with
      | Fail _ => bad ZeroDate
      | Ok parsed =>
          if negb (seqb (Date_String parsed) raw) || negb (slen raw =? 10) then bad ZeroDate else
          if After parsed (NewDate now (Some location)) then bad parsed else
          match positions account parsed with
          | Fail e =>
              let '(status, code) := positionError e in
              (writeError status code, audit_event request account EmptyString parsed code)
          | Ok resolved =>
              (writeJSON StatusOK (contractualResponse account parsed resolved),
               audit_event request account (cd_PrimaryAccount (rv_Loan resolved)) parsed "success")
          end
      end
  | _ => bad ZeroDate
  end.

(** [appendAudit] is called for every request that has the key. *)
Definition serve (request : api_request) : http_response * option Event :=
  if authenticate request
  then let '(response, event) := contractual request in (response, Some event)
  else (writeError StatusUnauthorized "unauthorized", None).
End Handler.

(** ** What is written *)

Lemma utoa_head n : 0 ≤ n → head (utoa n) = Some "0"%char → utoa n = ["0"%char].
Proof.
  intros Hn H. pose proof (utoa_digits n Hn) as Hd. pose proof (utoa_value n Hn) as Hv.
  destruct (utoa n) as [|c [|c' l]] eqn:E; [done|by injection H as ->|]. injection H as ->.
  assert (n = digits_value (c' :: l)) as Hn'.
  { rewrite <- Hv at 1. rewrite digits_value_cons. change (digit_value "0") with 0. lia. }
  cbn [forallb] in Hd. apply andb_true_iff in Hd as [_ Hd].
  pose proof (digits_value_range (c' :: l)) as Hr. cbn [forallb] in Hr.
  assert (length (utoa n) ≤ S (length l))%nat as Hlen.
  { apply utoa_length. rewrite Hn' at 1 2. change (S (length l)) with (length (c' :: l)). apply Hr, Hd. }
  rewrite E in Hlen. simpl in Hlen. lia.
Qed.
Lemma money_token m : number_token (Format m 2).
Proof.
  unfold Format. change (Z.to_nat (if 2 <? 0 then 0 else 2)) with 2%nat.
  destruct (float_string_shape 2 (rat m)) as (q & r & Hq & Hr & _ & ->).
  rewrite bool_decide_eq_false_2 by done. apply decimal_token.
  - by apply utoa_nonempty.
  - by apply utoa_digits.
  - by apply utoa_head.
  - intros E. pose proof (length_pad 2 (utoa r)) as Hl. rewrite E in Hl. simpl in Hl. lia.
  - apply pad_digits, utoa_digits. lia.
Qed.
#[export] Hint Resolve money_token : thor.

Lemma repayment_writable payment : writable 1 (repaymentResponse payment).
Proof. cbn. repeat (apply Forall_cons; split); try done; cbn; auto with thor. Qed.
Lemma response_writable account asOf resolved : writable 3 (contractualResponse account asOf resolved).
Proof.
  cbn. repeat (apply Forall_cons; split); try done; cbn; auto with thor.
  apply Forall_fmap. apply Forall_true. intros payment. apply (repayment_writable payment).
Qed.
Lemma writeJSON_read status value d :
  writable d value → Z.of_nat d ≤ max_depth → json_text (response_body (writeJSON status value)) = Some (read_back value).
Proof. apply encode_read. Qed.

Lemma repayment_leb_total x y : repayment_leb x y = false → repayment_leb y x = true.
Proof. unfold repayment_leb, Before, After. repeat case_match; to_prop; try done; lia. Qed.
Lemma repayment_leb_trans x y z : repayment_leb x y = true → repayment_leb y z = true → repayment_leb x z = true.
Proof. unfold repayment_leb, Before, After. repeat case_match; to_prop; try done; lia. Qed.
Lemma repayments_chronological payments :
  StronglySorted (λ a b, key (rp_Date a) < key (rp_Date b) ∨
                         key (rp_Date a) = key (rp_Date b) ∧ rp_SourceOrder a ≤ rp_SourceOrder b)
    (SortStableFunc repayment_leb payments).
Proof.
  pose proof (SortStableFunc_sorted repayment_leb repayment_leb_total repayment_leb_trans payments) as H.
  induction H as [|a l _ IH Ha]; constructor; [done|]. eapply Forall_impl; [exact Ha|]. cbn. intros b.
  unfold repayment_leb, Before, After. repeat case_match; to_prop; try done; lia.
Qed.

(** ** The key *)

Definition carries_key (keyHash : list ascii) (request : api_request) : Prop :=
  ∃ scheme key, authorization request = [(of_bytes scheme +:+ " " +:+ key)%string] ∧ is_bearer scheme = true ∧
    key ≠ EmptyString ∧ contains_any key blank_chars = false ∧ key_hash key = keyHash.

Lemma lower_space l : mem_byte " " l = true → mem_byte " " (lower_byte <$> l) = true.
Proof.
  induction l as [|c l IH]; [done|]. rewrite fmap_cons, !mem_byte_cons. intros [H|H]%orb_true_iff.
  - apply beq_eq in H as <-. reflexivity.
  - by rewrite (IH H), orb_true_r.
Qed.
Lemma bearer_no_space scheme : is_bearer scheme = true → mem_byte " " scheme = false.
Proof.
  unfold is_bearer. intros H%bool_decide_eq_true. destruct (mem_byte " " scheme) eqn:E; [|done].
  apply lower_space in E. rewrite H in E. discriminate E.
Qed.
Lemma cut_byte_true sep l a b : cut_byte sep l = (a, b, true) → l = a ++ sep :: b.
Proof.
  revert a. induction l as [|c l IH]; intros a; [done|]. cbn. destruct (beq c sep) eqn:E.
  - apply beq_eq in E as ->. by intros [= <- <-].
  - destruct (cut_byte sep l) as [[x y] f]. intros [= <- <- ->]. by rewrite (IH x).
Qed.
Lemma authenticate_iff keyHash request : authenticate keyHash request = true ↔ carries_key keyHash request.
Proof.
  unfold authenticate, carries_key. split.
  - destruct (authorization request) as [|value [|]]; [done| |done].
    destruct (cut_byte " " (bytes value)) as [[scheme key] found] eqn:E. destruct found; [|done]. apply cut_byte_true in E.
    cbn [negb orb]. destruct (is_bearer scheme) eqn:Es; [|done]. cbn [negb orb]. case_bool_decide as Hne; [done|]. cbn [orb].
    destruct (contains_any (of_bytes key) blank_chars) eqn:Eb; [done|]. intros H%bool_decide_eq_true.
    assert (of_bytes key ≠ EmptyString) as Hk.
    { intros Hk%(f_equal bytes). by rewrite bytes_of_bytes in Hk. }
    exists scheme, (of_bytes key). split; [|repeat (split; [done|]); done].
    f_equal. apply bytes_inj. rewrite E, !bytes_app, !bytes_of_bytes. done.
  - intros (scheme & key & -> & Hs & Hne & Hb & Hk). rewrite !bytes_app, bytes_of_bytes. change (bytes " ") with [" "%char].
    cbn [app]. rewrite cut_byte_found by by apply bearer_no_space. rewrite Hs, of_bytes_bytes, Hb, bool_decide_eq_false_2.
    + cbn. by apply bool_decide_eq_true.
    + intros H. apply Hne. by apply bytes_inj.
Qed.

(** ** A lookup that is accepted *)

Lemma Date_String_length date : date_ok date → slen (Date_String date) = 10.
Proof.
  intros [Hv Hy]. pose proof (valid_day_31 _ _ _ Hv). unfold Date_String, Date_IsZero.
  destruct (Z.eqb_spec (date_year date) 0); [lia|]. unfold slen. rewrite bytes_of_bytes.
  rewrite length_app. cbn [length]. rewrite length_app. cbn [length].
  destruct Hv as (Hm & Hd & _). rewrite !length_sprintf by (lia || (cbn; lia)). done.
Qed.

Section Lookup.
Variable positions : string → Date → res ResolvedPosition.
Variable location : Location.
Variable now : time.
Abbreviation today := (NewDate now (Some location)).
Abbreviation lookup := (contractual positions location now).

(** What a lookup that is not refused for its form does *)
Definition looked_up (request : api_request) (asOf : Date) (answer : http_response * Event) : Prop :=
  let account := TrimSpace (account_param request) in
  match positions account asOf with
  | Ok resolved =>
      answer = (writeJSON StatusOK (contractualResponse account asOf resolved),
                audit_event now request account (cd_PrimaryAccount (rv_Loan resolved)) asOf "success")
  | Fail e =>
      answer = (writeError (positionError e).1 (positionError e).2,
                audit_event now request account EmptyString asOf (positionError e).2)
  end.
Definition asks_for (request : api_request) (asOf : Date) : Prop :=
  TrimSpace (account_param request) ≠ EmptyString ∧ as_of_values request = [Date_String asOf] ∧
  slen (Date_String asOf) = 10 ∧ ParseDate (Date_String asOf) (Some location) = Ok asOf ∧ key asOf ≤ key today.
Definition refused_for (asOf : Date) (request : api_request) : http_response * Event :=
  (writeError StatusBadRequest "bad_request",
   audit_event now request (TrimSpace (account_param request)) EmptyString asOf "bad_request").

Lemma lookup_accepted request asOf : asks_for request asOf → looked_up request asOf (lookup request).
Proof.
  intros (Ha & Hv & Hl & Hp & Hk). unfold contractual, looked_up. rewrite Hv.
  assert (empty (TrimSpace (account_param request)) = false) as -> by by apply seqb_neq.
  rewrite Hp, (proj2 (seqb_eq _ _) eq_refl), Hl. cbn [negb orb Z.eqb].
  change (10 =? 10) with true. cbn [negb].
  assert (After asOf today = false) as -> by (apply Z.ltb_ge; exact Hk).
  destruct (positions _ _) as [resolved|e]; [done|]. by destruct (positionError e).
Qed.
Lemma lookup_cases request :
  (∃ asOf, asks_for request asOf ∧ looked_up request asOf (lookup request)) ∨
  ((~ ∃ asOf, asks_for request asOf) ∧
   ∃ asOf, (asOf = ZeroDate ∨ slen (Date_String asOf) = 10) ∧ lookup request = refused_for asOf request).
Proof.
  unfold contractual. destruct (as_of_values request) as [|raw [|]] eqn:Ev.
  1,3: right; split; [intros (d & _ & Hd & _); by rewrite Ev in Hd|exists ZeroDate; by split; [left|]].
  assert (Hx : ∀ d, asks_for request d → raw = Date_String d) by (intros d (_ & Hd & _); rewrite Ev in Hd; by injection Hd).
  destruct (empty (TrimSpace (account_param request))) eqn:Ee.
  { right. split; [|exists ZeroDate; by split; [left|]]. intros (d & Hd & _). by apply seqb_eq in Ee. }
  destruct (ParseDate raw (Some location)) as [parsed|e] eqn:Ep.
  2: { right. split; [|exists ZeroDate; by split; [left|]]. intros (d & Hd). rewrite (Hx d Hd) in Ep.
       destruct Hd as (_ & _ & _ & Hd & _). by rewrite Ep in Hd. }
  assert (Hsame : ∀ d, asks_for request d → parsed = d).
  { intros d Hd. rewrite (Hx d Hd) in Ep. destruct Hd as (_ & _ & _ & Hd & _). rewrite Ep in Hd. by injection Hd. }
  destruct (negb (seqb (Date_String parsed) raw) || negb (slen raw =? 10)) eqn:Et.
  { right. split; [|exists ZeroDate; by split; [left|]]. intros (d & Hd). pose proof (Hx d Hd) as ->. rewrite (Hsame d Hd) in Et.
    destruct Hd as (_ & _ & Hd & _). rewrite Hd, (proj2 (seqb_eq _ _) eq_refl) in Et. discriminate Et. }
  apply orb_false_iff in Et as [E1%negb_false_iff%seqb_eq E2%negb_false_iff%Z.eqb_eq]. subst raw.
  destruct (After parsed today) eqn:Ea.
  { right. split; [|exists parsed; split; [by right|done]]. intros (d & Hd). rewrite (Hsame d Hd) in Ea.
    destruct Hd as (_ & _ & _ & _ & Hd). apply Z.ltb_lt in Ea. unfold key in *. lia. }
  left. exists parsed. assert (asks_for request parsed) as Hask.
  { apply seqb_neq in Ee. apply Z.ltb_ge in Ea. by split_and!. }
  split; [done|]. apply lookup_accepted in Hask. unfold contractual in Hask. rewrite Ev, Ee, Ep in Hask.
  rewrite (proj2 (seqb_eq _ _) eq_refl), E2, Ea in Hask. exact Hask.
Qed.
End Lookup.

(** ** The audit event *)

Lemma length_escape l : (length (escape_text l) ≤ 6 * length l)%nat.
Proof.
  revert l. apply utf8_any_ind; [done|..].
  - intros r l Hr IH. unfold escape_text in *. rewrite utf8_runes_app, fmap_cons by done. cbn [List.concat].
    rewrite !length_app. enough (length (escape_rune (Some r)) ≤ 6 * length r)%nat by lia. destruct Hr; cbn -[Nat.mul];
      try (repeat case_bool_decide; vm_compute; lia). unfold escape_byte. repeat case_match; cbn; lia.
  - intros c l E IH. unfold escape_text in *. rewrite E, fmap_cons. cbn [List.concat]. rewrite length_app.
    change (length (escape_rune None)) with 6%nat. cbn [length]. lia.
Qed.
Lemma length_marshal s : Z.of_nat (length (marshal_string s)) ≤ 6 * slen s + 2.
Proof. unfold marshal_string, slen. rewrite !length_app. cbn [length]. pose proof (length_escape (bytes s)). lia. Qed.
(** The size of members with their punctuation *)
Definition member_size (member : string * list ascii) : nat := length (marshal_string (fst member)) + length (snd member) + 2.
Definition weight (members : list (string * list ascii)) : Z := Z.of_nat (sum_list_with member_size members).
Lemma weight_app a b : weight (a ++ b) = weight a + weight b.
Proof. unfold weight. rewrite sum_list_with_app. lia. Qed.
Lemma weight_text omit name value : weight (text omit name value) ≤ 6 * slen name + 6 * slen value + 6.
Proof.
  unfold weight, text, member_size. pose proof (length_marshal name). pose proof (length_marshal value).
  assert (0 ≤ slen name ∧ 0 ≤ slen value) as [] by (unfold slen; lia). destruct (_ && _); cbn [sum_list_with fst snd]; lia.
Qed.
Lemma length_metadata m : Z.of_nat (length (marshal_metadata m)) ≤ weight (metadata_members m) + 2.
Proof.
  unfold marshal_metadata, weight. rewrite !length_app. cbn [length].
  enough (length (join_bytes [","%char] ((fun kv => marshal_string (fst kv) ++ [":"%char] ++ snd kv) <$> metadata_members m)) ≤
          sum_list_with member_size (metadata_members m))%nat by lia.
  induction (metadata_members m) as [|kv members IH]; [done|]. rewrite fmap_cons. unfold member_size in *. destruct members as [|kv' members].
  - cbn. rewrite !length_app. cbn [length]. lia.
  - rewrite fmap_cons in *. cbn [join_bytes sum_list_with] in *. rewrite ?length_app in *. cbn [length] in *. lia.
Qed.

Lemma positionError_length e : slen (positionError e).2 ≤ 23.
Proof. unfold positionError. repeat case_match; vm_compute; discriminate. Qed.
(** The event of a lookup is one that the audit trail takes. *)
Lemma audit_event_recorded now request account primary asOf outcome :
  now ≠ 0 → slen account + slen primary + slen (request_id request) ≤ 10000 → slen (Date_String asOf) ≤ 10 → slen outcome ≤ 23 →
  is_ok (audit_entry (audit_event now request account primary asOf outcome)) = true.
Proof.
  intros Hn Hl Hd Ho. unfold audit_entry, audit_event. cbn [ev_Attribution ev_Action ev_Resource ev_ResourceID ev_Metadata ev_CreatedAt Actor Effective SystemActor].
  assert (knownAction "api.loan_lookup" = true) as -> by by vm_compute. cbn [negb fail_if mbind result_bind validateIdentity].
  assert (empty "system:api" = false) as -> by by vm_compute. assert (HasPrefix "system:api" "system:" = true) as -> by by vm_compute.
  change (empty EmptyString) with true. rewrite (proj2 (Z.eqb_neq now 0)) by done. cbn -[marshal_metadata Z.ltb].
  set (m := APILoanLookupMetadata _ _ _ _ _).
  assert (Z.of_nat (length (marshal_metadata m)) ≤ MaxMetadataBytes) as Hm.
  { pose proof (length_metadata m) as H. subst m. cbn [metadata_members] in H. rewrite !weight_app in H.
    pose proof (weight_text false "requested_account" account). pose proof (weight_text true "primary_account" primary).
    pose proof (weight_text false "as_of" (Date_String asOf)). pose proof (weight_text false "outcome" outcome).
    pose proof (weight_text true "request_id" (request_id request)).
    change (slen "requested_account") with 17 in *. change (slen "primary_account") with 15 in *. change (slen "as_of") with 5 in *.
    change (slen "outcome") with 7 in *. change (slen "request_id") with 10 in *. unfold MaxMetadataBytes. lia. }
  destruct (Z.ltb_spec MaxMetadataBytes (Z.of_nat (length (marshal_metadata m)))); [lia|]. done.
Qed.

(** ** Texts *)

Lemma ascii_utf8 l : all_ascii l = true → valid_utf8 l = true.
Proof.
  unfold all_ascii, valid_utf8. induction l as [|c l IH]; [done|]. cbn [forallb utf8_runes]. intros [Hc Hl]%andb_true_iff.
  rewrite Hc. cbn. by apply IH.
Qed.
Lemma digits_ascii l : forallb is_digit l = true → all_ascii l = true.
Proof.
  unfold all_ascii. induction l as [|c l IH]; [done|]. cbn. intros [Hc Hl]%andb_true_iff. rewrite (IH Hl), andb_true_r.
  unfold is_digit in Hc. to_prop. lia.
Qed.
Lemma sprintf_ascii w n : all_ascii (sprintf_0d w n) = true.
Proof.
  unfold sprintf_0d. destruct (Z.ltb_spec n 0).
  - change (all_ascii (pad_left "0" (w - 1) (utoa (- n))) = true). apply digits_ascii, pad_digits, utoa_digits. lia.
  - by apply digits_ascii, pad_digits, utoa_digits.
Qed.
Lemma all_ascii_app l l' : all_ascii (l ++ l') = all_ascii l && all_ascii l'.
Proof. apply forallb_app. Qed.
Lemma valid_date_text date : valid_text (Date_String date) = Date_String date.
Proof.
  unfold valid_text. rewrite to_valid_id; [by rewrite of_bytes_bytes|]. apply ascii_utf8. unfold Date_String.
  destruct (Date_IsZero date); [done|]. rewrite bytes_of_bytes, all_ascii_app, sprintf_ascii.
  change (all_ascii (sprintf_0d 2 (date_month date) ++ "-"%char :: sprintf_0d 2 (date_day date)) = true).
  rewrite all_ascii_app, sprintf_ascii. apply sprintf_ascii.
Qed.

(** ** Properties *)

Definition error_table : list (Z * string) := [
  (StatusBadRequest, "bad_request"); (StatusConflict, "ambiguous_account"); (StatusUnprocessableEntity, "unsupported_calculation");
  (StatusServiceUnavailable, "service_unavailable"); (StatusNotFound, "not_found"); (StatusInternalServerError, "internal_error")]%string.
Lemma positionError_table e : positionError e ∈ error_table.
Proof. unfold positionError, error_table. apply list_elem_of_In. repeat case_match; cbn; tauto. Qed.

(** C25: every request is accounted for.  Without the key it gets 401, nothing is
    looked up and nothing recorded.  With the key it leaves exactly one event, which
    the audit trail accepts, and the event tells what the client was told: "success"
    with 200 only when the service answered for the account and the date asked for,
    written out and not in the future, and otherwise the very code of the error in
    the body, with the status that belongs to it. *)
Theorem serve_accountable positions location keyHash now request :
  let '(response, event) := serve positions location keyHash now request in
  (event = None ↔ ~ carries_key keyHash request) ∧
  (event = None → response = writeError StatusUnauthorized "unauthorized") ∧
  ∀ e, event = Some e → ∃ primary asOf outcome (account := TrimSpace (account_param request)),
    e = audit_event now request account primary asOf outcome ∧
    (now ≠ 0 → slen account + slen primary + slen (request_id request) ≤ 10000 → is_ok (audit_entry e) = true) ∧
    (outcome = "success"%string ∧ status response = StatusOK ∧ asks_for location now request asOf ∧
     (∃ resolved, positions account asOf = Ok resolved ∧ primary = cd_PrimaryAccount (rv_Loan resolved)) ∨
     primary = EmptyString ∧ (status response, outcome) ∈ error_table ∧ response = writeError (status response) outcome ∧
     (asks_for location now request asOf → ∃ cause, positions account asOf = Fail cause ∧
        positionError cause = (status response, outcome))).
Proof.
  unfold serve. destruct (authenticate keyHash request) eqn:Ea.
  2: { split; [|by split]. rewrite <- authenticate_iff, Ea. by split. }
  destruct (contractual positions location now request) as [response event] eqn:Ec.
  split; [rewrite <- authenticate_iff, Ea; by split|]. split; [done|]. intros e [= <-].
  destruct (lookup_cases positions location now request) as [(asOf & Hask & Hl)|(Hno & asOf & Hd & Hl)]; rewrite Ec in Hl.
  - unfold looked_up in Hl. assert (slen (Date_String asOf) = 10) as Hlen by apply Hask.
    destruct (positions _ asOf) as [resolved|cause] eqn:Ep; injection Hl as -> ->.
    + eexists _, asOf, _. split; [reflexivity|]. split; [intros; apply audit_event_recorded; [done..|lia|by vm_compute]|].
      left. split_and!; try done. by exists resolved.
    + eexists _, asOf, _. split; [reflexivity|].
      split; [intros; apply audit_event_recorded; [done..|lia|apply positionError_length]|].
      right. split; [done|]. pose proof (positionError_table cause) as Ht. destruct (positionError cause) as [st code] eqn:Ee.
      split; [exact Ht|]. split; [done|]. intros _. by exists cause.
  - injection Hl as -> ->. eexists _, asOf, _. split; [reflexivity|].
    split; [intros; apply audit_event_recorded; [done..|destruct Hd as [->|Hd]; [by vm_compute|lia]|by vm_compute]|].
    right. split_and!; [done|apply list_elem_of_In; cbn; tauto|done|]. intros Hask. destruct Hno. by exists asOf.
Qed.

(** What the client is to read of one repayment *)
Definition payment_object (payment : Repayment) : json :=
  JObject [
    ("payment_date", JString (Date_String (rp_Date payment)));
    ("principal", JNumber (Format (rp_PrincipalComponent payment) 2));
    ("interest", JNumber (Format (rp_InterestComponent payment) 2));
    ("penalty", JNumber (Format (rp_PenaltyComponent payment) 2));
    ("early_termination_penalty", JNumber (Format (rp_EarlyPenaltyComponent payment) 2));
    ("dwp", JNumber (Format (rp_DWPComponent payment) 2));
    ("total_payment", JNumber (Format (rp_TotalPayment payment) 2));
    ("journal_number", JString (valid_text (rp_JournalNumber payment)))]%string.
Lemma repayment_read payment : read_back (repaymentResponse payment) = payment_object payment.
Proof. unfold repaymentResponse, payment_object. cbn [read_back List.map fst snd]. by rewrite valid_date_text. Qed.

(** C26: the answer of the API is JSON that says what the service found: the accounts,
    the date asked for, the rate, the source, the outstanding principal to half a
    unit of its last digit, and every repayment of the loan once, in the order of
    the payments, each under its own names: its date, principal, interest, penalty,
    penalty of early termination, DWP and total to two decimals, and its journal
    number. *)
Theorem answer_faithful positions location keyHash now request asOf resolved :
  carries_key keyHash request → asks_for location now request asOf →
  positions (TrimSpace (account_param request)) asOf = Ok resolved →
  let response := (serve positions location keyHash now request).1 in
  let loan := rv_Loan resolved in let position := rv_Position resolved in
  status response = StatusOK ∧
  ∃ history outstanding,
    json_text (response_body response) = Some (JObject [
      ("requested_account", JString (valid_text (TrimSpace (account_param request))));
      ("primary_account", JString (valid_text (cd_PrimaryAccount loan)));
      ("as_of", JString (Date_String asOf));
      ("contract_rate", JNumber (Format (cd_FlatRatePercent loan) 2));
      ("contractual_outstanding", JNumber (Format (lp_PrincipalOutstanding position) 2));
      ("position_source", JString (source_name (lp_Source position)));
      ("repayment_history", JArray (payment_object <$> history))]%string) ∧
    history ≡ₚ cd_Repayments loan ∧
    StronglySorted (λ a b, key (rp_Date a) < key (rp_Date b) ∨
                           key (rp_Date a) = key (rp_Date b) ∧ rp_SourceOrder a ≤ rp_SourceOrder b) history ∧
    ParseMoney (Format (lp_PrincipalOutstanding position) 2) = Ok outstanding ∧
    (Qabs.Qabs (rat outstanding - rat (lp_PrincipalOutstanding position)) <= 1 # 200)%Q.
Proof.
  intros Hkey Hask Hp. unfold serve. rewrite (proj2 (authenticate_iff _ _) Hkey).
  pose proof (lookup_accepted positions location now request asOf Hask) as Hl. unfold looked_up in Hl. rewrite Hp in Hl. rewrite Hl.
  cbn [fst]. split; [done|]. destruct (Format_roundtrip (lp_PrincipalOutstanding (rv_Position resolved)) 2) as (r & Hr & Hnear); [lia|].
  exists (SortStableFunc repayment_leb (cd_Repayments (rv_Loan resolved))), r.
  split_and!; [|apply SortStableFunc_perm| |done|exact Hnear].
  - rewrite (writeJSON_read _ _ 3) by (apply response_writable || done). unfold contractualResponse. cbn [read_back List.map fst snd].
    rewrite valid_date_text. assert (valid_text (source_name (lp_Source (rv_Position resolved))) = source_name (lp_Source (rv_Position resolved))) as ->.
    { destruct (lp_Source _) as [[]|]; reflexivity. }
    change (List.map ?f ?l) with (f <$> l). rewrite <- list_fmap_compose.
    rewrite (list_fmap_ext (read_back ∘ repaymentResponse) payment_object) by (intros ? payment _; apply repayment_read).
    reflexivity.
  - apply repayments_chronological.
Qed.

(** ** A lookup over the services of [Position] *)

Definition ex_request : api_request := {|
  authorization := ["bEARER s3cret"]%string; account_param := "account"; as_of_values := ["2025-12-30"]%string; request_id := "r1" |}.
Definition ex_day : Date := MkDate 2025 12 30.
Definition ex_now : time := time_date 2025 12 31 36000 (fixed_zone 25200).
Definition ex_lookup : string → Date → res ResolvedPosition := GetLoanPosition (ex_service "20").
Definition ex_answer : http_response * option Event :=
  serve ex_lookup (fixed_zone 25200) (key_hash "s3cret") ex_now ex_request.

Lemma ex_key : carries_key (key_hash "s3cret") ex_request.
Proof. apply authenticate_iff. vm_compute. reflexivity. Qed.
Lemma ex_asks : asks_for (fixed_zone 25200) ex_now ex_request ex_day.
Proof. split_and!; [intros H; vm_compute in H; discriminate H|vm_compute; reflexivity..|vm_compute; discriminate]. Qed.
(** Without the key, and with a date that is still to come *)
Lemma ex_refused :
  (serve ex_lookup (fixed_zone 25200) (key_hash "other") ex_now ex_request).1 = writeError 401 "unauthorized" ∧
  (serve ex_lookup (fixed_zone 25200) (key_hash "s3cret") ex_now
     {| authorization := authorization ex_request; account_param := "account"; as_of_values := ["2026-01-01"]%string;
        request_id := "r2" |}).1 = writeError 400 "bad_request".
Proof. split; vm_compute; reflexivity. Qed.

Lemma answer_faithful_witness :
  status ex_answer.1 = 200 ∧
  match ex_lookup "account" ex_day with
  | Ok resolved =>
      ∃ history, history ≡ₚ cd_Repayments (rv_Loan resolved) ∧ length history = 3%nat
  | Fail _ => False
  end.
Proof.
  destruct (ex_lookup "account" ex_day) as [resolved|e] eqn:E; [|vm_compute in E; discriminate E].
  destruct (answer_faithful ex_lookup (fixed_zone 25200) (key_hash "s3cret") ex_now ex_request ex_day resolved ex_key ex_asks E)
    as (Hs & history & outstanding & _ & Hh & _).
  split; [exact Hs|]. exists history. split; [exact Hh|]. rewrite Hh. vm_compute in E. injection E as <-. reflexivity.
Defined.
