(* ===== verification/Access.v ===== *)
(** Who may do what: the permissions and their registry ([internal/access],
    the permission lists of [internal/features] and [internal/app]), pages of a
    list ([internal/platform/pagination]), and the administration of users and
    permissions ([internal/features/users]). *)
From stdpp Require Import base list strings gmap.
From Stdlib Require Import ZArith Lia Ascii.
From S2P Require Import Prelude GoStrings GoErrors Database GoSlices GoTime GoJSON Directory.
Local Open Scope Z_scope.

(** ** [internal/access] *)

Definition PermissionLoanInquiry : string := "loan.inquiry".
Definition PermissionManage : string := "access.manage".
Record PermissionDefinition := { pd_Key : string; pd_Name : string; pd_Group : string; pd_Description : string }.

Definition lower_letter (c : ascii) : bool := (97 <=? code c) && (code c <=? 122).
(** A letter, then letters, digits and underscores *)
Definition key_part (l : list ascii) : bool :=
  match l with
  | [] => false
  | c :: rest => lower_letter c && forallb (fun c => lower_letter c || is_digit c || beq c "_") rest
  end.
(** The regular expression of the source: two or more such parts between dots *)
Definition permissionKeyPattern (key : string) : bool :=
  let parts := split_byte "." (bytes key) in
  (2 <=? length parts)%nat && forallb key_part parts.

Fixpoint validate_registry (seen : gset string) (definitions : list PermissionDefinition) : res unit :=
  match definitions with
  | [] => Ok tt
  | d :: rest =>
      fail_if (negb (permissionKeyPattern (pd_Key d))) (Msg "permission %d has invalid key %q");;
      fail_if (bool_decide (pd_Key d ∈ seen)) (Msg "duplicate permission key %q");;
      fail_if (empty (TrimSpace (pd_Name d))) (Msg "permission %q has empty name");;
      fail_if (empty (TrimSpace (pd_Group d))) (Msg "permission %q has empty group");;
      validate_registry ({[pd_Key d]} ∪ seen) rest
  end.
Definition ValidateRegistry (definitions : list PermissionDefinition) : res unit := validate_registry ∅ definitions.

Definition PermissionSet : Type := gset string.
Definition NewPermissionSet (keys : list string) : PermissionSet := list_to_set keys.
Definition Has (set : PermissionSet) (key : string) : bool := bool_decide (key ∈ set).

(** [internal/securityctx] *)
Record Requester := { req_UserID : Z; req_Username : string; req_Permissions : PermissionSet }.
Definition Requester_Can (r : Requester) (permission : string) : bool := Has (req_Permissions r) permission.

(** The registry of the application, [app.PermissionDefinitions] *)
Definition define (key name group description : string) : PermissionDefinition :=
  {| pd_Key := key; pd_Name := name; pd_Group := group; pd_Description := description |}.
Definition dashboard_permissions : list PermissionDefinition :=
  [define "dashboard.view" "View Dashboard" "Dashboard" "Allow viewing the admin dashboard"].
Definition users_permissions : list PermissionDefinition :=
  [define PermissionManage "Manage Access" "Access" "Manage THOR user activation and per-user permissions."].
Definition auditlogs_permissions : list PermissionDefinition :=
  [define "audit.view" "View Audit Logs" "Audit" "View application audit history."].
Definition loaninquiry_permissions : list PermissionDefinition :=
  [define "loan.inquiry" "Loan Inquiry" "Loans" "Allow contractual loan inquiry"].
Definition slik_permissions : list PermissionDefinition :=
  [define "reporting.generate" "Generate SLIK Workbooks" "Reporting" "Allow SLIK XLSX generation";
   define "reporting.view_all" "View All Reporting Jobs" "Reporting" "View SLIK history and output owned by other users."].
Definition lps_permissions : list PermissionDefinition :=
  [define "lps.generate" "Generate LPS Reports" "Reporting" "Allow LPS archive generation"].
Definition snapshots_permissions : list PermissionDefinition :=
  [define "snapshot.view" "View Snapshot" "Snapshot" "Allow viewing current snapshot status";
   define "snapshot.refresh" "Refresh Snapshot" "Snapshot" "Allow manual current snapshot refresh"].
Definition PermissionDefinitions : list PermissionDefinition :=
  dashboard_permissions ++ users_permissions ++ auditlogs_permissions ++ loaninquiry_permissions ++
  slik_permissions ++ lps_permissions ++ snapshots_permissions.

Definition no_rows : err := Msg "sql: no rows in result set".
(** [SELECT id FROM permissions WHERE key = ? FOR UPDATE] and [SELECT COUNT( * ) ...] in a transaction *)
Definition lockManagePermission : db access_db Z :=
  wrapped "lock access management permission: %w"
    (id ← inside (select (fun d => permission_id d PermissionManage)); lift (of_option id no_rows)).
Definition count_managers (permission : Z) : db access_db Z :=
  wrapped "count active access managers: %w" (inside (select (fun d => Z.of_nat (length (managers d permission))))).

Fixpoint bootstrap_names (seen : gset string) (raws : list string) : res (list string) :=
  match raws with
  | [] => Ok []
  | raw :: rest =>
      let username := NormalizeUsername raw in
      if empty username then bootstrap_names seen rest else
      match ValidateUsername username with
      | Fail e => Fail (Wrap "invalid THOR_BOOTSTRAP_ACCESS_MANAGERS username %q: %w" e)
      | Ok _ =>
          if bool_decide (username ∈ seen) then bootstrap_names seen rest else
          names ← bootstrap_names ({[username]} ∪ seen) rest; Ok (username :: names)
      end
  end.
Definition bootstrapUsernames (value : string) : res (list string) :=
  names ← bootstrap_names ∅ (of_bytes <$> split_byte "," (bytes value));
  fail_if (bool_decide (names = []))
    (Msg "THOR_BOOTSTRAP_ACCESS_MANAGERS must contain at least one username while no active access manager exists");;
  Ok names.

Definition syncPermission (d : PermissionDefinition) (now : time) : db access_db unit :=
  wrapped "sync permission %q: %w"
    (inside (change (upsert_permission (pd_Key d) (pd_Name d) (pd_Group d) (pd_Description d) now))).
Fixpoint each {A} (f : A → db access_db unit) (l : list A) : db access_db unit :=
  match l with [] => mret tt | a :: rest => f a;; each f rest end.

(** Make one configured user an active access manager *)
Definition bootstrap_user (permission : Z) (now : time) (username : string) : db access_db unit :=
  found_user ← wrapped "find bootstrap user %q: %w" (inside (select (fun d => user_named d username)));
  id ← match found_user with
       | None => wrapped "create bootstrap user %q: %w" (inside (insert_user username username true now))
       | Some u =>
           wrapped "activate bootstrap user %q: %w" (inside (change (update_user (user_ID u) (activated true now))));;
           mret (user_ID u)
       end;
  wrapped "grant bootstrap access to %q: %w" (inside (insert_ignore_grant id permission));;
  Append {| ev_Attribution := {| Actor := None; Effective := None; SystemActor := "system:access-bootstrap" |};
            ev_Action := "access.bootstrap"; ev_Resource := ResourceUser; ev_ResourceID := id; ev_Metadata := None;
            ev_CreatedAt := now |}.
Definition establish_access (definitions : list PermissionDefinition) (configuredManagers : string) (now : time)
    : db access_db unit :=
  each (fun d => syncPermission d now) definitions;;
  permission ← lockManagePermission;
  count ← count_managers permission;
  if count =? 0 then
    usernames ← lift (bootstrapUsernames configuredManagers);
    each (bootstrap_user permission now) usernames
  else mret tt.
Definition Bootstrap (definitions : list PermissionDefinition) (configuredManagers : string) (now : time) : db access_db unit :=
  wrapped "validate permission registry: %w" (lift (ValidateRegistry definitions));;
  exclusively "begin access bootstrap: %w" "commit access bootstrap: %w"
    (establish_access definitions configuredManagers now).

(** ** [internal/platform/pagination] *)

Record Page := { pg_Page : Z; PerPage : Z; Total : Z; TotalPages : Z; Previous : Z; Next : Z }.
Definition New (page perPage total : Z) : Page :=
  let perPage := if perPage <? 1 then 1 else perPage in
  let totalPages := Z.max (Z.quot (total + perPage - 1) perPage) 1 in
  let page := if page <? 1 then 1 else page in
  let page := if totalPages <? page then totalPages else page in
  {| pg_Page := page; PerPage := perPage; Total := total; TotalPages := totalPages;
     Previous := if 1 <? page then page - 1 else 0; Next := if page <? totalPages then page + 1 else 0 |}.
Definition Offset (p : Page) : Z := (pg_Page p - 1) * PerPage p.

(** ** [internal/features/users]: the repository *)

Section Users.
(** How the collation utf8mb4_unicode_ci of [users.name] compares two characters *)
Variable same_character : list ascii → list ascii → bool.

(** The characters of a text *)
Definition characters (s : string) : list (list ascii) := default [] <$> utf8_runes (bytes s).

(** [LIKE ? ESCAPE '!'] over characters, with the comparison of the collation *)
Fixpoint like (same : list ascii → list ascii → bool) (pattern text : list (list ascii)) : bool :=
  match pattern with
  | [] => match text with [] => true | _ => false end
  | c :: rest =>
      if bool_decide (c = ["%"%char]) then
        (fix any (text : list (list ascii)) : bool :=
           like same rest text || match text with [] => false | _ :: text' => any text' end) text
      else if bool_decide (c = ["_"%char]) then
        match text with [] => false | _ :: text' => like same rest text' end
      else if bool_decide (c = ["!"%char]) then
        match rest, text with
        | e :: rest', x :: text' => same e x && like same rest' text'
        | [], [x] => same c x
        | _, _ => false
        end
      else match text with [] => false | x :: text' => same c x && like same rest text' end
  end.
(** utf8mb4_bin *)
Definition identical (a b : list ascii) : bool := bool_decide (a = b).

Definition escape_like_byte (c : ascii) : list ascii :=
  if beq c "!" || beq c "%" || beq c "_" then ["!"%char; c] else [c].
Definition escapeLike (value : string) : string := of_bytes (List.concat (escape_like_byte <$> bytes value)).
Definition searchPatterns (query : string) : string * string :=
  ("%" +:+ escapeLike (NormalizeUsername query) +:+ "%", "%" +:+ escapeLike (TrimSpace query) +:+ "%")%string.

(** The rows of [WHERE username LIKE ? ESCAPE '!' OR name LIKE ? ESCAPE '!'], or all *)
Definition matches_search (query : string) (u : User) : bool :=
  empty query ||
  let '(username, name) := searchPatterns query in
  like identical (characters username) (characters (Username u)) ||
  like same_character (characters name) (characters (Name u)).
Definition user_leb (u v : User) : bool :=
  string_ltb (Username u) (Username v) || (seqb (Username u) (Username v) && (user_ID u <=? user_ID v)).
Definition matching_users (query : string) (d : directory) : list User :=
  SortStableFunc user_leb (List.filter (matches_search query) (snd <$> map_to_list (users d))).

Definition CountUsers (query : string) : db access_db Z :=
  wrapped "count users: %w" (on_tables (select (fun d => Z.of_nat (length (matching_users query d))))).
(** ... ORDER BY username, id LIMIT ? OFFSET ? *)
Definition ListUsers (query : string) (limit offset : Z) : db access_db (list User) :=
  wrapped "list users: %w"
    (on_tables (select (fun d => take (Z.to_nat limit) (drop (Z.to_nat offset) (matching_users query d))))).
Definition FindUserByID (id : Z) : db access_db User :=
  found UsersErrNotFound "find user: %w" (on_tables (select (fun d => users d !! id))).
Definition ListPermissionKeys (user : Z) : db access_db (list string) :=
  wrapped "list user permissions: %w"
    (on_tables (select (fun d => SortStableFunc string_leb (granted_keys d user)))).
(** [findUser] with FOR UPDATE *)
Definition lock_user (id : Z) : db access_db User :=
  found UsersErrNotFound "find user: %w" (inside (select (fun d => users d !! id))).

Definition requireActiveManager (permission : Z) : db access_db unit :=
  count ← count_managers permission;
  if count =? 0 then db_fail (Sentinel ErrLastAccessManager) else mret tt.

Definition empty_in : err := Msg "empty slice passed to 'in' query".
Definition permissionIDs (keys : list string) : db access_db (gmap string Z) :=
  lift (fail_if (bool_decide (keys = [])) empty_in);;
  wrapped "resolve permission IDs: %w"
    (inside (select (fun d => list_to_map
       (omap (fun kv => if bool_decide (p_Key (kv.2) ∈ keys) then Some (p_Key (kv.2), kv.1) else None)
             (map_to_list (permissions d)))))).
Definition assignedPermissions (user : Z) (keys : list string) : db access_db (list string) :=
  lift (fail_if (bool_decide (keys = [])) empty_in);;
  wrapped "list assigned permissions: %w"
    (inside (select (fun d => List.filter (fun k => bool_decide (k ∈ keys)) (granted_keys d user)))).

Definition permissionChanges (existing selected : list string) : list string * list string :=
  let old : gset string := list_to_set existing in
  let next : gset string := list_to_set selected in
  (SortStableFunc string_leb (elements (next ∖ old)), SortStableFunc string_leb (elements (old ∖ next))).
Definition attribution (r : Requester) : Attribution :=
  let identity := Some {| identity_UserID := req_UserID r; identity_Username := req_Username r |} in
  {| Actor := identity; Effective := identity; SystemActor := EmptyString |}.
Definition status (active : bool) : string := if active then "active" else "inactive".
Definition user_event (r : Requester) (act : string) (user : Z) (m : Metadata) (now : time) : Event :=
  {| ev_Attribution := attribution r; ev_Action := act; ev_Resource := ResourceUser; ev_ResourceID := user;
     ev_Metadata := Some m; ev_CreatedAt := now |}.

(** [ids[key]], zero for a key that is not in the map *)
Definition id_of (ids : gmap string Z) (key : string) : Z := default 0 (ids !! key).

Definition replacement (requester : Requester) (user : Z) (canonical selected : list string) (now : time)
    : db access_db unit :=
  manageID ← lockManagePermission;
  target ← lock_user user;
  ids ← permissionIDs canonical;
  lift (fail_if (negb (Z.of_nat (size ids) =? Z.of_nat (length canonical))) (Sentinel ErrUnknownPermission));;
  existing ← assignedPermissions user canonical;
  lift (fail_if (bool_decide (canonical = [])) empty_in);;
  wrapped "delete user permissions: %w" (inside (change (delete_grants user (id_of ids <$> canonical))));;
  each (fun key => wrapped "grant user permission %q: %w" (inside (insert_grant user (id_of ids key)))) selected;;
  (if IsActive target then requireActiveManager manageID else mret tt);;
  (let '(added, removed) := permissionChanges existing selected in
   Append (user_event requester "user.permissions_updated" user (PermissionsUpdatedMetadata added removed) now)).
Definition store_ReplacePermissions (requester : Requester) (user : Z) (canonical selected : list string) (now : time)
    : db access_db unit :=
  exclusively "begin user permission replacement: %w" "commit user permission replacement: %w"
    (replacement requester user canonical selected now).

Definition status_update (requester : Requester) (user : Z) (active : bool) (now : time) : db access_db unit :=
  manageID ← lockManagePermission;
  target ← lock_user user;
  wrapped "update user status: %w" (inside (change (update_user user (activated active now))));;
  (if active then mret tt else
     wrapped "revoke deactivated user sessions: %w" (inside (change (delete_sessions (fun s => UserID s =? user))));;
     requireActiveManager manageID);;
  Append (user_event requester (if active then "user.activated" else "user.deactivated") user
            (StatusChangeMetadata (status (IsActive target)) (status active)) now).
Definition store_SetUserActive (requester : Requester) (user : Z) (active : bool) (now : time) : db access_db unit :=
  exclusively "begin user status update: %w" "commit user status update: %w" (status_update requester user active now).

(** ** [internal/features/users]: the service *)

Variable definitions : list PermissionDefinition.

Definition UserPageSize : Z := 20.
Record UserPage := { page_Users : list User; page_Query : string; page_Pagination : Page }.
Definition ListPage (query : string) (page : Z) : db access_db UserPage :=
  let query := TrimSpace query in
  total ← wrapped "count access users: %w" (CountUsers query);
  let info := New page UserPageSize total in
  rows ← wrapped "list access users: %w" (ListUsers query (PerPage info) (Offset info));
  mret {| page_Users := rows; page_Query := query; page_Pagination := info |}.

Record PermissionOption := { op_Key : string; op_Name : string; op_Description : string; Selected : bool; Inherited : bool }.
Record PermissionGroup := { group_Name : string; group_Permissions : list PermissionOption }.
Definition permission_option (keys : list string) (d : PermissionDefinition) : PermissionOption :=
  let inherited := seqb (pd_Key d) PermissionLoanInquiry in
  {| op_Key := pd_Key d; op_Name := pd_Name d; op_Description := pd_Description d;
     Selected := bool_decide (pd_Key d ∈ keys) || inherited; Inherited := inherited |}.
(** Append an option to the group of its name, which is new when there is none *)
Fixpoint add_to_group (name : string) (o : PermissionOption) (gs : list PermissionGroup) : list PermissionGroup :=
  match gs with
  | [] => [{| group_Name := name; group_Permissions := [o] |}]
  | g :: rest =>
      if seqb (group_Name g) name
      then {| group_Name := group_Name g; group_Permissions := group_Permissions g ++ [o] |} :: rest
      else g :: add_to_group name o rest
  end.
Definition groups (keys : list string) : list PermissionGroup :=
  fold_left (fun gs d => add_to_group (pd_Group d) (permission_option keys d) gs) definitions [].
Record Detail := { detail_User : User; PermissionGroups : list PermissionGroup }.
Definition Find (id : Z) : db access_db Detail :=
  lift (fail_if (id =? 0) (Sentinel UsersErrNotFound));;
  found_user ← wrapped "find access user: %w" (FindUserByID id);
  keys ← wrapped "list access user permissions: %w" (ListPermissionKeys id);
  mret {| detail_User := found_user; PermissionGroups := groups keys |}.

(** The keys that can be granted, and the submitted ones without duplicates *)
Definition canonical_keys : list string :=
  List.filter (fun k => negb (seqb k PermissionLoanInquiry)) (pd_Key <$> definitions).
Fixpoint select_keys (seen : gset string) (submitted : list string) : res (list string) :=
  match submitted with
  | [] => Ok []
  | key :: rest =>
      fail_if (seqb key PermissionLoanInquiry) (Sentinel ErrBaselinePermission);;
      fail_if (negb (bool_decide (key ∈ canonical_keys))) (errorf ErrUnknownPermission "%w: %q");;
      if bool_decide (key ∈ seen) then select_keys seen rest else
      keys ← select_keys ({[key]} ∪ seen) rest; Ok (key :: keys)
  end.
Definition ReplacePermissions (requester : Requester) (user : Z) (submitted : list string) (now : time) : db access_db unit :=
  selected ← lift (select_keys ∅ submitted);
  store_ReplacePermissions requester user canonical_keys selected now.
Definition SetActive (requester : Requester) (user : Z) (active : bool) (now : time) : db access_db unit :=
  lift (fail_if (user =? 0) (Sentinel UsersErrNotFound));;
  store_SetUserActive requester user active now.
End Users.
