(* ===== verification/Navigation.v ===== *)
(** The menu, [internal/platform/navigation]: the registry of groups and entries
    with its checks, and what a user sees of it, with the entries of the
    application ([internal/features], [internal/app]). *)
From stdpp Require Import base list strings gmap sets.
From Stdlib Require Import ZArith Lia Ascii.
From S2P Require Import Prelude GoStrings GoErrors GoPath Access.
Local Open Scope Z_scope.

(** ** Data *)

Definition MatchExact : string := "exact".
Definition MatchPrefix : string := "prefix".

Record ItemFields := {
  item_Key : string; item_Label : string; item_Icon : string; item_Path : string; item_Permission : string;
  AnyPermissions : list string; Match : string
}.
Inductive Item := MkItem (fields : ItemFields) (children : list Item).
Definition fields_of (item : Item) : ItemFields := let 'MkItem f _ := item in f.
Definition Children (item : Item) : list Item := let 'MkItem _ cs := item in cs.
Record Group := { group_Key : string; group_Label : string; Items : list Item }.

Record ViewFields := {
  view_Key : string; view_Label : string; view_Icon : string; view_Path : string; Depth : Z; Active : bool; Open : bool
}.
Inductive ItemView := MkItemView (fields : ViewFields) (children : list ItemView).
Definition view_of (view : ItemView) : ViewFields := let 'MkItemView f _ := view in f.
Definition view_children (view : ItemView) : list ItemView := let 'MkItemView _ cs := view in cs.
Record GroupView := { gv_Key : string; gv_Label : string; gv_Items : list ItemView }.

Definition Registry : Type := list Group.

(** ** Checks *)

(** [url.ParseRequestURI] of a text that begins with one slash: the path and the raw
    query.  There is no fragment; a final question mark alone is no query. *)
Definition request_path (path : string) : option (string * string) :=
  let l := bytes path in
  if existsb control_byte l then None else
  let '(rest, query) :=
    if bool_decide (last l = Some "?"%char) && (count_byte "?" l =? 1)%nat then (removelast l, [])
    else let '(rest, query, _) := cut_byte "?" l in (rest, query) in
  p ← unescape_bytes rest; Some (of_bytes p, of_bytes query).
Definition valid_path (path : string) : bool :=
  match request_path path with
  | None => false
  | Some (_, query) => HasPrefix path "/" && negb (HasPrefix path "//") && empty query
  end.

Definition check_permission (known : gset string) (permission : string) : res unit :=
  fail_if (negb (bool_decide (permission ∈ known))) (Msg "navigation item %q has unknown permission %q").
Fixpoint check_permissions (known : gset string) (permissions : list string) : res unit :=
  match permissions with
  | [] => Ok tt
  | p :: rest => check_permission known p;; check_permissions known rest
  end.
(** What holds of every item; the keys met so far are threaded through. *)
Definition check_fields (known : gset string) (depth : Z) (keys : gset string) (f : ItemFields) : res (gset string) :=
  fail_if (3 <? depth) (Msg "navigation item %q exceeds maximum depth 3");;
  fail_if (empty (TrimSpace (item_Key f))) (Msg "navigation item at depth %d has empty key");;
  fail_if (bool_decide (item_Key f ∈ keys)) (Msg "duplicate navigation item key %q");;
  fail_if (empty (TrimSpace (item_Label f))) (Msg "navigation item %q has empty label");;
  fail_if (negb (empty (item_Permission f)) && negb (bool_decide (AnyPermissions f = [])))
          (Msg "navigation item %q cannot combine permission modes");;
  (if empty (item_Permission f) then Ok tt else check_permission known (item_Permission f));;
  check_permissions known (AnyPermissions f);;
  Ok ({[item_Key f]} ∪ keys).
Definition check_leaf (f : ItemFields) : res unit :=
  fail_if (empty (item_Path f)) (Msg "navigation leaf %q has empty path");;
  fail_if (empty (item_Permission f) && bool_decide (AnyPermissions f = [])) (Msg "navigation leaf %q has empty permission");;
  fail_if (negb (seqb (Match f) MatchExact) && negb (seqb (Match f) MatchPrefix)) (Msg "navigation leaf %q has invalid match mode %q");;
  fail_if (negb (valid_path (item_Path f))) (Msg "navigation leaf %q has invalid path %q").
Definition check_container (f : ItemFields) : res unit :=
  fail_if (negb (empty (item_Path f)) || negb (empty (Match f))) (Msg "navigation container %q cannot have path or match mode").

(** A loop that validates items one by one *)
Definition each_item (validate : gset string → Item → res (gset string)) : gset string → list Item → res (gset string) :=
  fix go keys items :=
    match items with
    | [] => Ok keys
    | item :: rest => keys ← validate keys item; go keys rest
    end.
Fixpoint validateItem (known : gset string) (depth : Z) (keys : gset string) (item : Item) : res (gset string) :=
  let 'MkItem f children := item in
  keys ← check_fields known depth keys f;
  if bool_decide (length children = 0%nat) then check_leaf f;; Ok keys
  else check_container f;; each_item (fun keys child => validateItem known (depth + 1) keys child) keys children.
Definition validate_items (known : gset string) (depth : Z) : gset string → list Item → res (gset string) :=
  each_item (validateItem known depth).
Fixpoint validate_groups (known groupKeys itemKeys : gset string) (groups : list Group) : res unit :=
  match groups with
  | [] => Ok tt
  | group :: rest =>
      fail_if (empty (TrimSpace (group_Key group))) (Msg "navigation group %d has empty key");;
      fail_if (empty (TrimSpace (group_Label group))) (Msg "navigation group %q has empty label");;
      fail_if (bool_decide (group_Key group ∈ groupKeys)) (Msg "duplicate navigation group key %q");;
      itemKeys ← validate_items known 1 itemKeys (Items group);
      validate_groups known ({[group_Key group]} ∪ groupKeys) itemKeys rest
  end.

Fixpoint cloneItem (item : Item) : Item :=
  let 'MkItem f children := item in
  MkItem {| item_Key := item_Key f; item_Label := item_Label f; item_Icon := item_Icon f; item_Path := item_Path f;
            item_Permission := item_Permission f; AnyPermissions := [] ++ AnyPermissions f; Match := Match f |}
         (List.map cloneItem children).
Definition cloneItems (items : list Item) : list Item := List.map cloneItem items.
Definition cloneGroups (groups : list Group) : list Group :=
  List.map (fun g => {| group_Key := group_Key g; group_Label := group_Label g; Items := cloneItems (Items g) |}) groups.
Definition NewRegistry (groups : list Group) (permissions : list PermissionDefinition) : res Registry :=
  validate_groups (list_to_set (pd_Key <$> permissions)) ∅ ∅ groups;;
  Ok (cloneGroups groups).

(** ** What a user sees *)

Definition matches (f : ItemFields) (currentPath : string) : bool :=
  if seqb (Match f) MatchExact || seqb (item_Path f) "/" then seqb currentPath (item_Path f) else
  let base := TrimSuffix (item_Path f) "/" in
  seqb currentPath base || HasPrefix currentPath (base +:+ "/").

Section Prepare.
Variable currentPath : string.
Variable can : string → bool.

Definition allowed (f : ItemFields) : bool :=
  (empty (item_Permission f) || can (item_Permission f)) &&
  (bool_decide (AnyPermissions f = []) || existsb can (AnyPermissions f)).
Definition view_fields (f : ItemFields) (depth : Z) (active opened : bool) : ViewFields :=
  {| view_Key := item_Key f; view_Label := item_Label f; view_Icon := item_Icon f; view_Path := item_Path f; Depth := depth;
     Active := active; Open := opened |}.
(** [None] when the item is not visible *)
Fixpoint prepareItem (depth : Z) (item : Item) : option ItemView :=
  let 'MkItem f children := item in
  if negb (allowed f) then None else
  match children with
  | [] => Some (MkItemView (view_fields f depth (matches f currentPath) false) [])
  | _ =>
      let views := omap (prepareItem (depth + 1)) children in
      if bool_decide (length views = 0%nat) then None else
      let active := existsb (fun v => Active (view_of v)) views in
      Some (MkItemView (view_fields f depth active active) views)
  end.
Definition prepare_items (items : list Item) : list ItemView := omap (prepareItem 1) items.
Definition Prepare (registry : Registry) : list GroupView :=
  omap (fun group =>
    let items := prepare_items (Items group) in
    if bool_decide (length items = 0%nat) then None
    else Some {| gv_Key := group_Key group; gv_Label := group_Label group; gv_Items := items |}) registry.
End Prepare.

(** ** Trees *)

Section ItemInd.
Variable P : Item → Prop.
Hypothesis HP : ∀ f children, Forall P children → P (MkItem f children).
Fixpoint item_tree_ind (item : Item) : P item :=
  let 'MkItem f children := item in
  HP f children ((fix go (items : list Item) : Forall P items :=
    match items with
    | [] => Forall_nil_2 P
    | child :: rest => Forall_cons_2 P child rest (item_tree_ind child) (go rest)
    end) children).
End ItemInd.

(** The ways from a root to its leaves *)
Fixpoint item_paths (item : Item) : list (list ItemFields) :=
  let 'MkItem f children := item in
  match children with [] => [[f]] | _ => cons f <$> (children ≫= item_paths) end.
Fixpoint view_paths (view : ItemView) : list (list ViewFields) :=
  let 'MkItemView f children := view in
  match children with [] => [[f]] | _ => cons f <$> (children ≫= view_paths) end.
Fixpoint item_keys (item : Item) : list string :=
  let 'MkItem f children := item in item_Key f :: (children ≫= item_keys).
(** A container that is shown has something to show, and is open and active when a
    leaf below it is. *)
Fixpoint view_ok (view : ItemView) : Prop :=
  let 'MkItemView f children := view in
  (Open f = bool_decide (length children ≠ 0%nat) && Active f) ∧
  (children ≠ [] → Active f = existsb (fun v => Active (view_of v)) children) ∧
  (fix go (views : list ItemView) : Prop := match views with [] => True | v :: rest => view_ok v ∧ go rest end) children.
Lemma view_ok_node f children :
  view_ok (MkItemView f children) ↔
  Open f = bool_decide (length children ≠ 0%nat) && Active f ∧
  (children ≠ [] → Active f = existsb (fun v => Active (view_of v)) children) ∧ Forall view_ok children.
Proof.
  cbn. assert ((fix go (views : list ItemView) : Prop := match views with [] => True | v :: rest => view_ok v ∧ go rest end) children
    ↔ Forall view_ok children) as ->.
  { induction children as [|v rest IH]; [by split; [constructor|]|]. rewrite Forall_cons, IH. done. }
  done.
Qed.

Section Shown.
Variable currentPath : string.
Variable can : string → bool.

Definition describe_item (path : list ItemFields) : list string * option (string * bool) :=
  (item_Key <$> path, (fun f => (item_Path f, matches f currentPath)) <$> last path).
Definition describe_view (path : list ViewFields) : list string * option (string * bool) :=
  (view_Key <$> path, (fun v => (view_Path v, Active v)) <$> last path).
Definition permitted (path : list ItemFields) : bool := forallb (allowed can) path.
Abbreviation shown item := (describe_item <$> List.filter permitted (item_paths item)).
Definition view_shown (view : option ItemView) : list (list string * option (string * bool)) :=
  match view with Some v => describe_view <$> view_paths v | None => [] end.


Definition below (key : string) (d : list string * option (string * bool)) : list string * option (string * bool) := (key :: d.1, d.2).
Lemma describe_item_cons f p : p ≠ [] → describe_item (f :: p) = below (item_Key f) (describe_item p).
Proof. by destruct p. Qed.
Lemma describe_view_cons f p : p ≠ [] → describe_view (f :: p) = below (view_Key f) (describe_view p).
Proof. by destruct p. Qed.
Lemma paths_ne {A} (f : A) (l : list (list A)) : Forall (λ p, p ≠ []) (cons f <$> l).
Proof. by apply Forall_fmap, Forall_true. Qed.
Lemma item_paths_ne item : Forall (λ p, p ≠ []) (item_paths item).
Proof. destruct item as [f [|c cs]]; [by repeat constructor|apply paths_ne]. Qed.
Lemma view_paths_ne view : Forall (λ p, p ≠ []) (view_paths view).
Proof. destruct view as [f [|c cs]]; [by repeat constructor|apply paths_ne]. Qed.
Lemma bind_ne {A B} (g : A → list (list B)) l : (∀ a, Forall (λ p, p ≠ []) (g a)) → Forall (λ p, p ≠ []) (l ≫= g).
Proof. intros H. induction l as [|a l IH]; [constructor|]. cbn. apply Forall_app. by split. Qed.
Lemma describe_items_below f l :
  Forall (λ p, p ≠ []) l → describe_item <$> (cons f <$> l) = below (item_Key f) <$> (describe_item <$> l).
Proof. induction 1 as [|p l Hp _ IH]; [done|]. by rewrite !fmap_cons, IH, describe_item_cons. Qed.
Lemma describe_views_below f l :
  Forall (λ p, p ≠ []) l → describe_view <$> (cons f <$> l) = below (view_Key f) <$> (describe_view <$> l).
Proof. induction 1 as [|p l Hp _ IH]; [done|]. by rewrite !fmap_cons, IH, describe_view_cons. Qed.
Lemma filter_cons_paths f l :
  List.filter permitted (cons f <$> l) = if allowed can f then cons f <$> List.filter permitted l else [].
Proof.
  induction l as [|p l IH]; [by destruct (allowed can f)|]. rewrite fmap_cons. cbn [List.filter permitted forallb]. rewrite IH.
  unfold permitted. by destruct (allowed can f), (forallb (allowed can) p).
Qed.
Lemma List_filter_Forall {A} (P : A → Prop) q (l : list A) : Forall P l → Forall P (List.filter q l).
Proof. induction 1 as [|a l Ha _ IH]; [constructor|]. cbn. destruct (q a); [by constructor|done]. Qed.
Lemma filter_bind {A B} (g : A → list B) q (l : list A) : List.filter q (l ≫= g) = l ≫= λ a, List.filter q (g a).
Proof. induction l as [|a l IH]; [done|]. cbn. by rewrite List.filter_app, <- IH. Qed.
Lemma fmap_bind {A B C} (h : B → C) (g : A → list B) (l : list A) : h <$> (l ≫= g) = l ≫= λ a, h <$> g a.
Proof. induction l as [|a l IH]; [done|]. cbn. by rewrite fmap_app, <- IH. Qed.
Lemma bind_omap {A B C} (g : A → option B) (h : B → list C) (k : A → list C) l :
  Forall (λ a, match g a with Some b => h b | None => [] end = k a) l → omap g l ≫= h = l ≫= k.
Proof. induction 1 as [|a l Ha _ IH]; [done|]. cbn. rewrite <- Ha. destruct (g a); cbn; by rewrite IH. Qed.

Lemma prepareItem_shown item : ∀ depth, view_shown (prepareItem currentPath can depth item) = shown item.
Proof.
  induction item as [f children IH] using item_tree_ind. intros depth. cbn [prepareItem item_paths].
  destruct children as [|c cs].
  { cbn. unfold permitted. cbn. destruct (allowed can f); reflexivity. }
  rewrite filter_cons_paths. destruct (allowed can f); [cbn [negb]|done].
  remember (c :: cs) as children eqn:Hc. clear Hc c cs.
  rewrite describe_items_below by (apply List_filter_Forall, bind_ne, item_paths_ne).
  rewrite filter_bind, fmap_bind, <- (bind_omap (prepareItem currentPath can (depth + 1)) (λ v, describe_view <$> view_paths v)).
  - destruct (omap _ children) as [|v vs]; [done|]. cbn [length view_shown view_paths]. rewrite bool_decide_eq_false_2 by done.
    cbn [view_shown view_paths]. rewrite describe_views_below by (apply bind_ne, view_paths_ne). by rewrite fmap_bind.
  - eapply Forall_impl; [exact IH|]. cbn. intros item H. by rewrite <- (H (depth + 1)).
Qed.
End Shown.

Lemma omap_all {A B} (g : A → option B) (P : B → Prop) l : Forall (λ a, ∀ b, g a = Some b → P b) l → Forall P (omap g l).
Proof. induction 1 as [|a l Ha _ IH]; [constructor|]. cbn. destruct (g a) eqn:E; [|done]. constructor; [by apply Ha|done]. Qed.
Lemma prepareItem_ok currentPath can item : ∀ depth v, prepareItem currentPath can depth item = Some v → view_ok v.
Proof.
  induction item as [f children IH] using item_tree_ind. intros depth v. cbn [prepareItem].
  destruct (allowed can f); [cbn [negb]|done]. destruct children as [|c cs].
  { intros [= <-]. apply view_ok_node. split; [done|]. split; [done|constructor]. }
  remember (c :: cs) as children eqn:Hc. clear Hc. case_bool_decide as He; [done|]. intros [= <-]. apply view_ok_node.
  cbn [view_fields Open Active]. rewrite bool_decide_eq_true_2 by done. split; [done|]. split; [done|].
  apply omap_all. eapply Forall_impl; [exact IH|]. cbn. intros item Hi view. apply Hi.
Qed.
Lemma prepareItem_paths currentPath can item : ∀ depth v, prepareItem currentPath can depth item = Some v → view_paths v ≠ [].
Proof.
  induction item as [f children IH] using item_tree_ind. intros depth v. cbn [prepareItem].
  destruct (allowed can f); [cbn [negb]|done]. destruct children as [|c cs]; [by intros [= <-]|].
  remember (c :: cs) as children eqn:Hc. clear Hc. case_bool_decide as He; [done|]. intros [= <-].
  assert (Forall (λ v, view_paths v ≠ []) (omap (prepareItem currentPath can (depth + 1)) children)) as Hv.
  { apply omap_all. eapply Forall_impl; [exact IH|]. cbn. intros item Hi view. apply Hi. }
  cbn [view_paths]. destruct (omap _ children) as [|v vs]; [done|]. apply Forall_cons in Hv as [Hv _]. cbn.
  by destruct (view_paths v).
Qed.
Definition group_shown currentPath can (group : Group) : list (list string * option (string * bool)) :=
  describe_item currentPath <$> List.filter (permitted can) (Items group ≫= item_paths).
Definition group_view_shown (group : GroupView) : list (list string * option (string * bool)) :=
  describe_view <$> (gv_Items group ≫= view_paths).
Lemma prepare_items_shown currentPath can items :
  describe_view <$> (prepare_items currentPath can items ≫= view_paths) =
  describe_item currentPath <$> List.filter (permitted can) (items ≫= item_paths).
Proof.
  rewrite filter_bind, !fmap_bind. apply bind_omap. apply Forall_true. intros item.
  rewrite <- (prepareItem_shown currentPath can item 1). by destruct (prepareItem _ _ _ _).
Qed.
Lemma group_hidden currentPath can group :
  group_shown currentPath can group = [] ↔ length (prepare_items currentPath can (Items group)) = 0%nat.
Proof.
  unfold group_shown. rewrite <- prepare_items_shown. split; [|by intros ->%nil_length_inv].
  destruct (prepare_items currentPath can (Items group)) as [|v vs] eqn:Ev; [done|].
  assert (Hv : view_paths v ≠ []).
  { assert (Forall (λ v, view_paths v ≠ []) (v :: vs)) as Hall; [rewrite <- Ev|by apply Forall_cons in Hall as []].
    apply omap_all, Forall_true. intros item w. apply prepareItem_paths. }
  cbn. by destruct (view_paths v).
Qed.

(** ** What an accepted registry is *)

Definition item_good (known : gset string) (f : ItemFields) : Prop :=
  TrimSpace (item_Key f) ≠ EmptyString ∧ TrimSpace (item_Label f) ≠ EmptyString ∧
  (item_Permission f = EmptyString ∨ item_Permission f ∈ known ∧ AnyPermissions f = []) ∧
  Forall (λ p, p ∈ known) (AnyPermissions f).
Definition leaf_good (f : ItemFields) : Prop :=
  valid_path (item_Path f) = true ∧ (item_Permission f ≠ EmptyString ∨ AnyPermissions f ≠ []) ∧
  (Match f = MatchExact ∨ Match f = MatchPrefix).
Definition path_good (known : gset string) (depth : Z) (path : list ItemFields) : Prop :=
  Forall (item_good known) path ∧ depth + Z.of_nat (length path) ≤ 4 ∧ ∃ f, last path = Some f ∧ leaf_good f.

Lemma check_permission_Ok known p u : check_permission known p = Ok u → p ∈ known.
Proof. unfold check_permission. intros H. inv_ok. by to_prop in H. Qed.
Lemma check_permissions_Ok known ps u : check_permissions known ps = Ok u → Forall (λ p, p ∈ known) ps.
Proof.
  revert u. induction ps as [|p ps IH]; [constructor|]. cbn. intros u H. inv_ok.
  constructor; [by eapply check_permission_Ok|by eapply IH].
Qed.
Lemma check_fields_Ok known depth keys f keys' : check_fields known depth keys f = Ok keys' →
  item_good known f ∧ depth ≤ 3 ∧ item_Key f ∉ keys ∧ keys' = {[item_Key f]} ∪ keys.
Proof.
  unfold check_fields. intros H. inv_ok. match goal with H : check_permissions _ _ = Ok _ |- _ => apply check_permissions_Ok in H end.
  assert (item_Permission f = EmptyString ∨ item_Permission f ∈ known) as Hp.
  { destruct (empty (item_Permission f)) eqn:E; [left; by apply seqb_eq in E|right; by eapply check_permission_Ok]. }
  unfold empty in *. to_prop. unfold item_good. split_and!; try done; try lia.
  destruct (decide (AnyPermissions f = [])); intuition.
Qed.
Lemma check_leaf_Ok f u : check_leaf f = Ok u → leaf_good f.
Proof.
  unfold check_leaf. intros H. inv_ok. unfold leaf_good, empty in *. to_prop. split_and!; [done|tauto|].
  destruct (decide (Match f = MatchExact)); [by left|]. destruct (decide (Match f = MatchPrefix)); [by right|]. tauto.
Qed.

(** The items below [items] are good, and their keys are new. *)
Definition items_good (known : gset string) (depth : Z) (keys : gset string) (items : list Item) (keys' : gset string) : Prop :=
  Forall (path_good known depth) (items ≫= item_paths) ∧ NoDup (items ≫= item_keys) ∧
  (∀ k, k ∈ items ≫= item_keys → k ∉ keys) ∧ (∀ k, k ∈ keys' ↔ k ∈ items ≫= item_keys ∨ k ∈ keys).
Lemma items_good_cons known depth keys item items keys1 keys2 :
  items_good known depth keys [item] keys1 → items_good known depth keys1 items keys2 → items_good known depth keys (item :: items) keys2.
Proof.
  unfold items_good. cbn. rewrite !app_nil_r. intros (Hp & Hn & Hd & E) (Hp' & Hn' & Hd' & E').
  split; [by apply Forall_app|]. setoid_rewrite elem_of_app. split_and!.
  - apply NoDup_app. split; [done|]. split; [|done]. intros x Hx Hx'. apply (Hd' x Hx'), E. by left.
  - intros k [Hk|Hk]; [by apply Hd|]. intros Hk'. apply (Hd' k Hk), E. by right.
  - intros k. rewrite E', E. tauto.
Qed.
Lemma items_good_nil known depth keys : items_good known depth keys [] keys.
Proof. unfold items_good. cbn. setoid_rewrite elem_of_nil. split_and!; [constructor..|done|tauto]. Qed.
Lemma path_good_cons known depth f p : item_good known f → p ≠ [] → path_good known (depth + 1) p → path_good known depth (f :: p).
Proof.
  intros Hf Hp (Ha & Hl & Hlast). split; [by constructor|]. cbn [length]. split; [lia|]. by destruct p.
Qed.
Lemma items_good_node known depth keys f children keys1 keys2 :
  item_good known f → item_Key f ∉ keys → keys1 = {[item_Key f]} ∪ keys → children ≠ [] →
  items_good known (depth + 1) keys1 children keys2 → items_good known depth keys [MkItem f children] keys2.
Proof.
  intros Hf Hk -> Hne (Hp & Hn & Hd & E). unfold items_good. cbn [mbind list_bind app]. rewrite !app_nil_r. cbn [item_paths item_keys].
  split_and!.
  - destruct children as [|c cs]; [done|]. clear Hne. remember (c :: cs) as children eqn:Hc. clear Hc.
    pose proof (bind_ne item_paths children item_paths_ne) as Hne. revert Hp Hne. generalize (children ≫= item_paths). intros l.
    induction 1 as [|p l Hp _ IH]; intros Hne; [constructor|]. inversion Hne as [|? ? Hpne Hl]; subst. cbn.
    constructor; [by apply path_good_cons|by apply IH].
  - constructor; [|done]. intros Hx. apply (Hd _ Hx). set_solver.
  - intros k. rewrite elem_of_cons. intros [->|Hx]; [done|]. specialize (Hd _ Hx). set_solver.
  - intros k. rewrite E, elem_of_cons. set_solver.
Qed.
Lemma items_good_leaf known depth keys f :
  item_good known f → depth ≤ 3 → item_Key f ∉ keys → leaf_good f → items_good known depth keys [MkItem f []] ({[item_Key f]} ∪ keys).
Proof.
  intros Hf Hd Hk Hl. unfold items_good. cbn. split_and!.
  - constructor; [|constructor]. split; [by constructor|]. cbn. split; [lia|]. by exists f.
  - apply NoDup_singleton.
  - intros k ->%list_elem_of_singleton. done.
  - intros k. rewrite list_elem_of_singleton. set_solver.
Qed.

Definition item_accepted (known : gset string) (item : Item) : Prop :=
  ∀ depth keys keys', validateItem known depth keys item = Ok keys' → items_good known depth keys [item] keys'.
Lemma validate_items_good known items : Forall (item_accepted known) items → ∀ depth keys keys',
  validate_items known depth keys items = Ok keys' → items_good known depth keys items keys'.
Proof.
  induction 1 as [|item items Hi _ IH]; intros depth keys keys' H; cbn in H; [injection H as <-; apply items_good_nil|].
  apply bind_Ok in H as (keys2 & Hstep & H). eapply items_good_cons; [by apply Hi|by apply IH].
Qed.
Lemma validateItem_good known item : item_accepted known item.
Proof.
  induction item as [f children IH] using item_tree_ind. intros depth keys keys' H. cbn [validateItem] in H.
  apply bind_Ok in H as (keys1 & Hc & H). apply check_fields_Ok in Hc as (Hf & Hd & Hk & ->).
  case_bool_decide as He; inv_ok.
  - apply nil_length_inv in He as ->. apply items_good_leaf; [done..|by eapply check_leaf_Ok].
  - eapply items_good_node; [done|done|reflexivity|by intros ->|by eapply validate_items_good].
Qed.
Lemma validate_items_app known depth keys a b : validate_items known depth keys (a ++ b) =
  (keys ← validate_items known depth keys a; validate_items known depth keys b).
Proof.
  revert keys. induction a as [|item a IH]; intros keys; [done|]. cbn. destruct (validateItem _ _ _ item); [|done]. cbn. apply IH.
Qed.
Lemma validate_groups_Ok known groups : ∀ groupKeys itemKeys u,
  validate_groups known groupKeys itemKeys groups = Ok u →
  NoDup (group_Key <$> groups) ∧ (∀ k, k ∈ group_Key <$> groups → k ∉ groupKeys) ∧
  ∃ keys', validate_items known 1 itemKeys (groups ≫= Items) = Ok keys'.
Proof.
  induction groups as [|g groups IH]; intros gk ik u H; cbn in H.
  { cbn. setoid_rewrite elem_of_nil. split_and!; [constructor|done|]. by exists ik. }
  inv_ok. apply IH in H as (Hn & Hd & keys' & Hg). to_prop. rewrite fmap_cons. split_and!.
  - constructor; [|done]. intros Hx. apply (Hd _ Hx). set_solver.
  - intros k. rewrite elem_of_cons. intros [->|Hx]; [done|]. specialize (Hd _ Hx). set_solver.
  - exists keys'. cbn. rewrite validate_items_app. match goal with H : validate_items _ _ _ _ = Ok _ |- _ => rewrite H end. done.
Qed.

Lemma cloneItem_id item : cloneItem item = item.
Proof.
  induction item as [f children IH] using item_tree_ind. cbn. f_equal; [by destruct f|].
  induction IH as [|c cs Hc _ IHc]; [done|]. cbn. by rewrite Hc, IHc.
Qed.
Lemma cloneGroups_id groups : cloneGroups groups = groups.
Proof.
  unfold cloneGroups. induction groups as [|[k l items] groups IH]; [done|]. cbn. rewrite IH. do 2 f_equal.
  unfold cloneItems. induction items as [|item items IHi]; [done|]. cbn. by rewrite cloneItem_id, IHi.
Qed.

Lemma leaf_refused path known depth : path_good known depth path → permitted (λ _, false) path = false.
Proof.
  intros (_ & _ & f & Hl & _ & Hf & _). unfold permitted. apply not_true_iff_false. rewrite forallb_forall. intros H.
  assert (allowed (λ _, false) f = true) as Ha by (apply H, list_elem_of_In; by apply last_Some_elem_of).
  unfold allowed, empty in Ha. to_prop. assert (existsb (λ _ : string, false) (AnyPermissions f) = false) as E.
  { clear. by induction (AnyPermissions f). }
  rewrite E in Ha. destruct Hf as [Hf|Hf]; intuition discriminate.
Qed.
Lemma nothing_shown known groups currentPath :
  Forall (path_good known 1) ((groups ≫= Items) ≫= item_paths) → Prepare currentPath (λ _, false) groups = [].
Proof.
  unfold Prepare. induction groups as [|g groups IH]; [done|]. cbn [mbind list_bind]. rewrite bind_app, Forall_app.
  intros [Hg Hp]. cbn [omap list_omap]. rewrite bool_decide_eq_true_2; [by apply IH|]. apply group_hidden. unfold group_shown.
  induction Hg as [|path paths H _ IHp]; [done|]. cbn [List.filter]. by rewrite (leaf_refused _ _ _ H).
Qed.

(** ** Properties *)

Lemma Prepare_shown currentPath can registry :
  Prepare currentPath can registry ≫= group_view_shown = registry ≫= group_shown currentPath can.
Proof.
  unfold Prepare. apply bind_omap. apply Forall_true. intros g. case_bool_decide as E; [by apply group_hidden in E|].
  apply prepare_items_shown.
Qed.

(** C20: the menu shows a user exactly what is permitted: the leaves whose own
    permissions and those of all their containers the user has, in the order of the
    registry, each with its place in the tree, its address and whether it is the
    current page; a group or container without any such leaf is left out, and a
    container is open exactly when the current page is below it. *)
Theorem Prepare_exact currentPath can registry :
  Prepare currentPath can registry ≫= group_view_shown = registry ≫= group_shown currentPath can ∧
  (gv_Key <$> Prepare currentPath can registry) =
    group_Key <$> List.filter (λ g, negb (bool_decide (group_shown currentPath can g = []))) registry ∧
  Forall (λ g, gv_Items g ≠ [] ∧ Forall view_ok (gv_Items g)) (Prepare currentPath can registry).
Proof.
  split; [apply Prepare_shown|]. unfold Prepare. split.
  - induction registry as [|g registry IH]; [done|]. cbn [List.filter].
    rewrite (bool_decide_ext _ _ (group_hidden currentPath can g)). cbn [omap list_omap]. case_bool_decide; cbn; by rewrite IH.
  - apply omap_all, Forall_true. intros g view. case_bool_decide as E; [done|]. intros [= <-]. cbn. split; [by intros Hn; rewrite Hn in E|].
    apply omap_all, Forall_true. intros item v. apply prepareItem_ok.
Qed.

(** A registry that is accepted is the one given, every key in it is new, no
    entry is deeper than the third level, every entry has an address on the site
    and a registered permission, and so nobody without permissions sees any. *)
Theorem NewRegistry_guarded groups permissions registry :
  NewRegistry groups permissions = Ok registry →
  registry = groups ∧ NoDup (group_Key <$> groups) ∧ NoDup ((groups ≫= Items) ≫= item_keys) ∧
  Forall (λ path, Forall (item_good (list_to_set (pd_Key <$> permissions))) path ∧ (length path ≤ 3)%nat ∧
                  ∃ leaf, last path = Some leaf ∧ leaf_good leaf) ((groups ≫= Items) ≫= item_paths) ∧
  ∀ currentPath, Prepare currentPath (λ _, false) registry = [].
Proof.
  intros H. unfold NewRegistry in H. inv_ok. match goal with H : validate_groups _ _ _ _ = Ok _ |- _ => apply validate_groups_Ok in H as (Hn & _ & keys & Hv) end.
  apply validate_items_good in Hv as (Hp & Hk & _); [|apply Forall_true, validateItem_good]. rewrite cloneGroups_id.
  split_and!; [done..| |].
  - eapply Forall_impl; [exact Hp|]. intros path (Ha & Hl & Hleaf). split_and!; [done|lia|done].
  - intros currentPath. by eapply nothing_shown.
Qed.

(** ** A registry of two levels *)

Definition ex_entry (key path permission : string) (any : list string) : Item :=
  MkItem {| item_Key := key; item_Label := "Label"; item_Icon := "icon"; item_Path := path; item_Permission := permission;
            AnyPermissions := any; Match := MatchPrefix |} [].
Definition ex_groups : list Group := [
  {| group_Key := "g"; group_Label := "Group"; Items := [
       MkItem {| item_Key := "c"; item_Label := "Container"; item_Icon := EmptyString; item_Path := EmptyString;
                 item_Permission := EmptyString; AnyPermissions := ["x.a"; "x.b"]%string; Match := EmptyString |}
         [ex_entry "a" "/a/" "x.a" []; ex_entry "b" "/b?" EmptyString ["x.a"; "x.b"]%string]] |}].
Definition ex_permissions : list PermissionDefinition := [define "x.a" "A" "X" "a"; define "x.b" "B" "X" "b"].
(** On the page "/b/1" a user with "x.b" sees the container open over its second entry. *)
Lemma ex_menu :
  Prepare "/b?/1" (seqb "x.b") ex_groups ≫= group_view_shown = [(["c"; "b"]%string, Some ("/b?"%string, true))] ∧
  NewRegistry [{| group_Key := "g"; group_Label := "Group"; Items := [ex_entry "a" "//a" "x.a" []] |}] ex_permissions =
    Fail (Msg "navigation leaf %q has invalid path %q").
Proof. split; vm_compute; reflexivity. Qed.
Lemma NewRegistry_guarded_witness :
  NewRegistry ex_groups ex_permissions = Ok ex_groups ∧ ∀ currentPath, Prepare currentPath (λ _, false) ex_groups = [].
Proof.
  assert (NewRegistry ex_groups ex_permissions = Ok ex_groups) as H by (vm_compute; reflexivity). split; [exact H|].
  apply (NewRegistry_guarded ex_groups ex_permissions ex_groups H).
Defined.
