(* ===== verification/AccessFacts.v ===== *)
(** What the tables of people guarantee, whatever fails and whatever other
    requests do: the rows stay consistent, an active access manager remains, and
    an administration call changes what it is asked to change and nothing else. *)
From stdpp Require Import base list strings gmap sorting.
From Stdlib Require Import ZArith Lia Ascii.
From S2P Require Import Prelude GoStrings GoErrors Database GoSlices GoTime GoJSON Directory Access.
Local Open Scope Z_scope.

(** ** Lookups by a column *)

Lemma head_filter_Some {A} (P : Z * A → Prop) `{∀ x, Decision (P x)} (m : gmap Z A) kv :
  head (map_to_list (filter P m)) = Some kv → m !! kv.1 = Some kv.2 ∧ P kv.
Proof.
  intros H1. assert (kv ∈ map_to_list (filter P m)) as Hin.
  { destruct (map_to_list (filter P m)); [done|]. injection H1 as ->. by left. }
  destruct kv as [k v]. apply elem_of_map_to_list in Hin. by apply map_lookup_filter_Some in Hin.
Qed.
Lemma head_filter_None {A} (P : Z * A → Prop) `{∀ x, Decision (P x)} (m : gmap Z A) k v :
  head (map_to_list (filter P m)) = None → m !! k = Some v → ¬ P (k, v).
Proof.
  intros H1 Hk HP. assert ((k, v) ∈ map_to_list (filter P m)) as Hin.
  { apply elem_of_map_to_list. by apply map_lookup_filter_Some. }
  destruct (map_to_list (filter P m)); [by apply not_elem_of_nil in Hin|done].
Qed.

Lemma user_named_Some d name u :
  user_named d name = Some u → ∃ id, users d !! id = Some u ∧ Username u = name.
Proof.
  unfold user_named, find_user. intros H. apply fmap_Some in H as ([id u'] & H & ->).
  apply head_filter_Some in H as [H Hn]. exists id. split; [done|]. by apply seqb_eq.
Qed.
Lemma user_named_None d name id u : user_named d name = None → users d !! id = Some u → Username u ≠ name.
Proof.
  unfold user_named, find_user. intros H Hu Hn. apply fmap_None in H.
  apply (head_filter_None _ _ _ _ H Hu). by apply seqb_eq.
Qed.
Lemma permission_id_Some d key id :
  permission_id d key = Some id → ∃ p, permissions d !! id = Some p ∧ p_Key p = key.
Proof.
  unfold permission_id. intros H. apply fmap_Some in H as ([i p] & H & ->).
  apply head_filter_Some in H as [H Hn]. by exists p.
Qed.
Lemma permission_id_None d key id p : permission_id d key = None → permissions d !! id = Some p → p_Key p ≠ key.
Proof.
  unfold permission_id. intros H Hp Hn. apply fmap_None in H. by apply (head_filter_None _ _ _ _ H Hp).
Qed.
Lemma session_with_Some d hash s :
  session_with d hash = Some s → ∃ id, sessions d !! id = Some s ∧ TokenHash s = hash.
Proof.
  unfold session_with. intros H. apply fmap_Some in H as ([i s'] & H & ->).
  apply head_filter_Some in H as [H Hn]. by exists i.
Qed.
Lemma session_with_None d hash id s : session_with d hash = None → sessions d !! id = Some s → TokenHash s ≠ hash.
Proof.
  unfold session_with. intros H Hs Hn. apply fmap_None in H. by apply (head_filter_None _ _ _ _ H Hs).
Qed.

Lemma elem_of_managers d p u :
  u ∈ managers d p ↔ (u, p) ∈ grants d ∧ ∃ row, users d !! u = Some row ∧ IsActive row = true.
Proof.
  unfold managers. rewrite list_elem_of_In, filter_In, <- list_elem_of_In, list_elem_of_fmap. split.
  - intros [([u' p'] & -> & Hin) Ha]. apply elem_of_elements, elem_of_filter in Hin as [Hp Hin]. simpl in *.
    subst p'. split; [done|]. destruct (users d !! u') as [row|]; [by exists row|done].
  - intros [Hin (row & Hu & Ha)]. split.
    + exists (u, p). split; [done|]. apply elem_of_elements, elem_of_filter. done.
    + by rewrite Hu.
Qed.
Lemma elem_of_granted_keys d u key :
  key ∈ granted_keys d u ↔ ∃ id p, (u, id) ∈ grants d ∧ permissions d !! id = Some p ∧ p_Key p = key.
Proof.
  unfold granted_keys, granted_to. rewrite list_elem_of_omap. split.
  - intros (id & Hin & Hk). apply elem_of_elements, elem_of_map in Hin as ([u' id'] & -> & Hin).
    apply elem_of_filter in Hin as [Hu Hin]. simpl in *. subst u'.
    destruct (permissions d !! id') as [p|] eqn:Hp; [|done]. injection Hk as <-. by exists id', p.
  - intros (id & p & Hin & Hp & Hk). exists id. split; [|by rewrite Hp; simpl; f_equal].
    apply elem_of_elements, elem_of_map. exists (u, id). split; [done|]. by apply elem_of_filter.
Qed.

(** ** Consistent tables *)

(** Primary and unique keys, foreign keys, and what the code adds: user names are
    normalized and valid, and a token hash has 32 bytes. *)
Record well_formed (d : directory) : Prop := {
  wf_users : ∀ id u, users d !! id = Some u →
    user_ID u = id ∧ 0 < id < next_user d ∧ NormalizeUsername (Username u) = Username u ∧
    ValidateUsername (Username u) = Ok tt;
  wf_usernames : ∀ i j u v, users d !! i = Some u → users d !! j = Some v → Username u = Username v → i = j;
  wf_permissions : ∀ id p, permissions d !! id = Some p → 0 < id < next_permission d;
  wf_keys : ∀ i j p q, permissions d !! i = Some p → permissions d !! j = Some q → p_Key p = p_Key q → i = j;
  wf_grants : ∀ u p, (u, p) ∈ grants d → is_Some (users d !! u) ∧ is_Some (permissions d !! p);
  wf_sessions : ∀ id s, sessions d !! id = Some s →
    session_ID s = id ∧ 0 < id < next_session d ∧ is_Some (users d !! UserID s) ∧
    length (TokenHash s) = 32%nat ∧ session_CreatedAt s ≤ ExpiresAt s;
  wf_hashes : ∀ i j s t, sessions d !! i = Some s → sessions d !! j = Some t → TokenHash s = TokenHash t → i = j;
  wf_next : 0 < next_user d ∧ 0 < next_permission d ∧ 0 < next_session d
}.

(** Someone can manage access. *)
Definition managed (d : directory) : Prop :=
  ∃ u p row perm, (u, p) ∈ grants d ∧ users d !! u = Some row ∧ IsActive row = true ∧
    permissions d !! p = Some perm ∧ p_Key perm = PermissionManage.

Lemma managed_count d p :
  well_formed d → permission_id d PermissionManage = Some p → managed d ↔ managers d p ≠ [].
Proof.
  intros Hwf Hp. apply permission_id_Some in Hp as (perm & Hp & Hk). split.
  - intros (u & p' & row & perm' & Hg & Hu & Ha & Hp' & Hk') H.
    assert (p' = p) as -> by (eapply (wf_keys d Hwf); eauto; congruence).
    assert (u ∈ managers d p) as Hin by (apply elem_of_managers; eauto).
    rewrite H in Hin. by apply not_elem_of_nil in Hin.
  - intros Hne. destruct (managers d p) as [|u l] eqn:E; [done|].
    assert (u ∈ managers d p) as Hin by (rewrite E; by left). apply elem_of_managers in Hin as (Hg & row & Hu & Ha).
    by exists u, p, row, perm.
Qed.

(** What never changes: a user keeps the name, a session that was there before
    keeps its user, its token and its expiry, and a session that is gone never
    comes back, because a new one has a new number. *)
Record persistent (d d' : directory) : Prop := {
  users_persist : ∀ id u, users d !! id = Some u → ∃ u', users d' !! id = Some u' ∧ Username u' = Username u;
  sessions_persist : ∀ id s', sessions d' !! id = Some s' →
    next_session d ≤ id ∨ ∃ s, sessions d !! id = Some s ∧ UserID s' = UserID s ∧ TokenHash s' = TokenHash s ∧
                              ExpiresAt s' = ExpiresAt s;
  next_persist : next_session d ≤ next_session d'
}.
#[export] Instance persistent_preorder : PreOrder persistent.
Proof.
  split.
  - intros d. constructor; [by eauto| |done]. intros id s H. right. by exists s.
  - intros d1 d2 d3 [U1 S1 N1] [U2 S2 N2]. constructor; [| |lia].
    + intros id u H. destruct (U1 _ _ H) as (u2 & H2 & E2). destruct (U2 _ _ H2) as (u3 & H3 & E3).
      exists u3. split; [done|congruence].
    + intros id s3 H3. destruct (S2 _ _ H3) as [?|(s2 & H2 & E1 & E2 & E3)]; [left; lia|].
      destruct (S1 _ _ H2) as [?|(s1 & H1 & F1 & F2 & F3)]; [by left|]. right. exists s1. by rewrite E1, E2, E3.
Qed.

Definition consistent (d d' : directory) : Prop := well_formed d → well_formed d' ∧ persistent d d'.
#[export] Instance consistent_preorder : PreOrder consistent.
Proof.
  split.
  - intros d H. by split.
  - intros d1 d2 d3 H1 H2 H. destruct (H1 H) as [W1 P1]. destruct (H2 W1) as [W2 P2]. split; [done|by etrans].
Qed.

Lemma insert_user_consistent name display active now d id d' :
  NormalizeUsername name = name → ValidateUsername name = Ok tt →
  insert_user name display active now d = Ok (id, d') → consistent d d'.
Proof.
  unfold insert_user. destruct (user_named d name) eqn:Hn; [done|]. intros N V [= <- <-] [U NU P K G S H X].
  assert (Hfresh : users d !! next_user d = None).
  { apply eq_None_not_Some. intros [u Hu]. apply U in Hu as (_ & ? & _). lia. }
  split.
  - constructor; cbn; try done.
    + intros i u [[<- <-]|[_ Hu]]%lookup_insert_Some; [split_and!; by (done || lia)|].
      apply U in Hu as (? & ? & ? & ?). split_and!; by (done || lia).
    + intros i j u v [[<- <-]|[Hi Hu]]%lookup_insert_Some [[<- <-]|[Hj Hv]]%lookup_insert_Some E; [done|..].
      * cbn in E. by destruct (user_named_None _ _ _ _ Hn Hv).
      * cbn in E. by destruct (user_named_None _ _ _ _ Hn Hu).
      * by eapply NU.
    + intros u p Hg. apply G in Hg as [? ?]. split; [|done]. apply lookup_insert_is_Some'. by right.
    + intros i s Hs. apply S in Hs as (? & ? & ? & ? & ?). split; [done|]. split; [done|]. split; [|done].
      apply lookup_insert_is_Some'. by right.
    + lia.
  - constructor; cbn; [|by intros i s Hs; right; exists s|done].
    intros i u Hu. exists u. split; [|done]. rewrite lookup_insert_ne; [done|]. intros <-. congruence.
Qed.
Lemma update_user_consistent id f d :
  (∀ u, user_ID (f u) = user_ID u ∧ Username (f u) = Username u) → consistent d (update_user id f d).
Proof.
  intros Hf. unfold update_user. destruct (users d !! id) as [u0|] eqn:Hu0; [|done]. intros [U NU P K G S H X].
  assert (Hl : ∀ i u, <[id := f u0]> (users d) !! i = Some u →
            ∃ u', users d !! i = Some u' ∧ user_ID u = user_ID u' ∧ Username u = Username u').
  { intros i u [[<- <-]|[_ Hu]]%lookup_insert_Some; [|by exists u]. exists u0. destruct (Hf u0). by split_and!. }
  assert (Hs : ∀ i, is_Some (users d !! i) → is_Some (<[id := f u0]> (users d) !! i)).
  { intros i Hi. apply lookup_insert_is_Some'. by right. }
  split.
  - constructor; cbn; try done.
    + intros i u (u' & Hu & -> & ->)%Hl. by apply U.
    + intros i j u v (u' & Hu & _ & ->)%Hl (v' & Hv & _ & ->)%Hl. by eapply NU.
    + intros u p Hg. apply G in Hg as [? ?]. by eauto.
    + intros i s Hs'. apply S in Hs' as (? & ? & ? & ? & ?). split; [done|]. split; [done|]. split; [by apply Hs|done].
  - constructor; cbn; [|by intros i s Hs'; right; exists s|done].
    intros i u Hu. destruct (Hs i) as [u' Hu']; [by eauto|]. exists u'. split; [done|].
    apply Hl in Hu' as (u'' & Hu'' & _ & ->). congruence.
Qed.

(** Effects that leave users and sessions alone, or only remove sessions *)
Lemma users_sessions_persist d d' :
  users d' = users d → sessions d' ⊆ sessions d → next_session d' = next_session d → persistent d d'.
Proof.
  intros Hu Hs Hn. constructor; [|..].
  - intros id u H. exists u. by rewrite Hu.
  - intros id s H. right. exists s. split; [|done]. by eapply lookup_weaken.
  - lia.
Qed.
Lemma set_grants_consistent d g :
  (∀ u p, (u, p) ∈ g → is_Some (users d !! u) ∧ is_Some (permissions d !! p)) → consistent d (set_grants d g).
Proof.
  intros Hg [U NU P K G S H X]. split; [by constructor|]. by apply users_sessions_persist.
Qed.
Lemma insert_grant_consistent u p d a d' : insert_grant u p d = Ok (a, d') → consistent d d'.
Proof.
  unfold insert_grant. case_bool_decide; [done|]. destruct (_ && _) eqn:E; [|done]. intros [= <- <-].
  intros Hwf. revert Hwf. to_prop in E. destruct E as [E1 E2]. intros Hwf. apply set_grants_consistent; [|done].
  intros u' p' [[= -> ->]%elem_of_singleton|Hin]%elem_of_union; [done|]. by apply (wf_grants d Hwf).
Qed.
Lemma insert_ignore_grant_consistent u p d a d' : insert_ignore_grant u p d = Ok (a, d') → consistent d d'.
Proof.
  unfold insert_ignore_grant. destruct (insert_grant u p d) as [[b d1]|] eqn:E; intros [= <- <-]; [|done].
  by eapply insert_grant_consistent.
Qed.
Lemma delete_grants_consistent u ids d : consistent d (delete_grants u ids d).
Proof.
  intros Hwf. apply set_grants_consistent; [|done]. intros u' p' [_ Hin]%elem_of_filter. by apply (wf_grants d Hwf).
Qed.
Lemma set_sessions_consistent d m next :
  (well_formed d → ∀ id s, m !! id = Some s →
     session_ID s = id ∧ 0 < id < next ∧ is_Some (users d !! UserID s) ∧ length (TokenHash s) = 32%nat ∧
     session_CreatedAt s ≤ ExpiresAt s) →
  (well_formed d → ∀ i j s t, m !! i = Some s → m !! j = Some t → TokenHash s = TokenHash t → i = j) →
  next_session d ≤ next →
  (∀ id s', m !! id = Some s' → next_session d ≤ id ∨ ∃ s, sessions d !! id = Some s ∧ UserID s' = UserID s ∧
     TokenHash s' = TokenHash s ∧ ExpiresAt s' = ExpiresAt s) →
  consistent d (set_sessions d m next).
Proof.
  intros Hs Hh Hn Hp Hwf. pose proof Hwf as [U NU P K G S H X]. split.
  - constructor; cbn; try done; [by apply Hs|by apply Hh|lia].
  - constructor; cbn; [by eauto|done|done].
Qed.
Lemma delete_sessions_consistent gone d : consistent d (delete_sessions gone d).
Proof.
  assert (Hsub : ∀ id s, filter (λ kv : Z * Session, gone (kv.2) = false) (sessions d) !! id = Some s → sessions d !! id = Some s)
    by (by intros id s [? _]%map_lookup_filter_Some).
  apply set_sessions_consistent; [| |done|].
  - intros Hwf id s Hs%Hsub. by apply (wf_sessions d Hwf).
  - intros Hwf i j s t Hs%Hsub Ht%Hsub. by eapply (wf_hashes d Hwf).
  - intros id s Hs%Hsub. right. by exists s.
Qed.
Lemma datetime6_le t t' : t ≤ t' → datetime6 t ≤ datetime6 t'.
Proof. unfold datetime6. intros H. apply Z.mul_le_mono_nonneg_r; [lia|]. apply Z.div_le_mono; lia. Qed.
Lemma insert_session_consistent user hash remember expires seen now d id d' :
  length hash = 32%nat → now < expires →
  insert_session user hash remember expires seen now d = Ok (id, d') → consistent d d'.
Proof.
  intros Hlen Hexp. unfold insert_session. destruct (session_with d hash) eqn:Hh; [done|].
  case_bool_decide as Hu; [|done]. intros [= <- <-]. apply set_sessions_consistent; [| |lia|].
  - intros Hwf i s [[<- <-]|[_ Hs]]%lookup_insert_Some; cbn.
    + pose proof (wf_next d Hwf). split_and!; try by (done || lia). apply datetime6_le. lia.
    + apply (wf_sessions d Hwf) in Hs as (? & ? & ? & ? & ?). split_and!; by (done || lia).
  - intros Hwf i j s t [[<- <-]|[Hi Hs]]%lookup_insert_Some [[<- <-]|[Hj Ht]]%lookup_insert_Some E; [done|..]; cbn in E.
    + by destruct (session_with_None _ _ _ _ Hh Ht).
    + by destruct (session_with_None _ _ _ _ Hh Hs).
    + by eapply (wf_hashes d Hwf).
  - intros i s [[<- <-]|[_ Hs]]%lookup_insert_Some; [by left|]. right. by exists s.
Qed.
Lemma touched_consistent id now d : consistent d (update_session id (touched now) d).
Proof.
  unfold update_session. destruct (sessions d !! id) as [s0|] eqn:Hs0; [|done].
  assert (Hl : ∀ i s, <[id := touched now s0]> (sessions d) !! i = Some s → ∃ s', sessions d !! i = Some s' ∧
            session_ID s = session_ID s' ∧ UserID s = UserID s' ∧ TokenHash s = TokenHash s' ∧
            ExpiresAt s = ExpiresAt s' ∧ session_CreatedAt s = session_CreatedAt s').
  { intros i s [[<- <-]|[_ Hs]]%lookup_insert_Some; [by exists s0|by exists s]. }
  apply set_sessions_consistent; [| |done|].
  - intros Hwf i s (s' & Hs & -> & -> & -> & -> & ->)%Hl. by apply (wf_sessions d Hwf).
  - intros Hwf i j s t (s' & Hs & _ & _ & -> & _)%Hl (t' & Ht & _ & _ & -> & _)%Hl. by eapply (wf_hashes d Hwf).
  - intros i s (s' & Hs & _ & ? & ? & ? & _)%Hl. right. by exists s'.
Qed.
Lemma upsert_permission_consistent key name group description now d :
  consistent d (upsert_permission key name group description now d).
Proof.
  unfold upsert_permission. destruct (permission_id d key) as [id|] eqn:Hid.
  - destruct (permissions d !! id) as [p0|] eqn:Hp0; [|done]. set (p' := {| p_Key := key |}).
    apply permission_id_Some in Hid as (p & Hp & Hk). intros [U NU P K G S H X].
    assert (Hl : ∀ i q, <[id := p']> (permissions d) !! i = Some q → ∃ q', permissions d !! i = Some q' ∧ p_Key q = p_Key q').
    { intros i q [[<- <-]|[_ Hq]]%lookup_insert_Some; [by exists p|by exists q]. }
    split; [|by apply users_sessions_persist]. constructor; cbn; try done.
    + intros i q (q' & Hq & _)%Hl. by eapply P.
    + intros i j q r (q' & Hq & ->)%Hl (r' & Hr & ->)%Hl. by eapply K.
    + intros u i Hg. apply G in Hg as [? ?]. split; [done|]. apply lookup_insert_is_Some'. by right.
  - intros [U NU P K G S H X]. split; [|by apply users_sessions_persist]. constructor; cbn; try done.
    + intros i q [[<- <-]|[_ Hq]]%lookup_insert_Some; [lia|]. apply P in Hq. lia.
    + intros i j q r [[<- <-]|[Hi Hq]]%lookup_insert_Some [[<- <-]|[Hj Hr]]%lookup_insert_Some E; [done|..]; cbn in E.
      * by destruct (permission_id_None _ _ _ _ Hid Hr).
      * by destruct (permission_id_None _ _ _ _ Hid Hq).
      * by eapply K.
    + intros u i Hg. apply G in Hg as [? ?]. split; [done|]. apply lookup_insert_is_Some'. by right.
    + lia.
Qed.
Lemma insert_audit_consistent row d a d' : insert_audit row d = Ok (a, d') → consistent d d'.
Proof.
  unfold insert_audit. cbv zeta. destruct (_ && _); [|done]. intros [= <- <-] [U NU P K G S H X].
  split; [by constructor|]. by apply users_sessions_persist.
Qed.

(** ** Calls between other requests *)

(** A call relates the tables by [R] as long as the other requests do. *)
Definition respects (R : directory → directory → Prop) (f : directory → directory) : Prop := ∀ d, R d (f d).
Definition guarded (R : directory → directory → Prop) (s s' : access_db) : Prop :=
  Forall (respects R) (others s) → R (dir s) (dir s') ∧ Forall (respects R) (others s').

Create HintDb access.

Section Guarded.
Context (R : directory → directory → Prop) `{!PreOrder R}.

#[export] Instance guarded_preorder : PreOrder (guarded R).
Proof.
  split.
  - intros s H. by split.
  - intros s1 s2 s3 H1 H2 H. destruct (H1 H) as [R1 O1]. destruct (H2 O1) as [R2 O2]. split; [by etrans|done].
Qed.
Lemma evolves_inside {A} (f : directory → res (A * directory)) :
  (∀ d a d', f d = Ok (a, d') → R d d') → evolves (guarded R) (inside f).
Proof.
  intros Hf. apply evolves_statement; [apply _|]. intros s a s' Hs Ho.
  apply bind_Ok in Hs as ([b d] & Hd & [= <- <-]). split; [by eapply Hf|done].
Qed.
Lemma evolves_interfere : evolves (guarded R) interfere.
Proof.
  intros w r w' [= <- <-] Ho. cbn. unfold settle. destruct (others (tables w)) as [|f l] eqn:E; [by rewrite E|].
  inversion Ho as [|? ? Hf Hl]; subst. split; [apply Hf|done].
Qed.
Lemma evolves_on_tables {A} (f : directory → res (A * directory)) :
  (∀ d a d', f d = Ok (a, d') → R d d') → evolves (guarded R) (on_tables f).
Proof. intros Hf. apply evolves_bind; [apply _|apply evolves_interfere|intros _; by apply evolves_inside]. Qed.
Lemma evolves_exclusively {A} b c (body : db access_db A) :
  (∀ w a w', body w = (Ok a, w') → guarded R (tables w) (tables w')) → evolves (guarded R) (exclusively b c body).
Proof.
  intros Hb. apply evolves_bind; [apply _|apply evolves_interfere|]. intros _. by apply evolves_transaction; [apply _|].
Qed.
Lemma evolves_select {A} (f : directory → A) : evolves (guarded R) (inside (select f)).
Proof. apply evolves_inside. by intros d a d' [= <- <-]. Qed.
Lemma evolves_on_select {A} (f : directory → A) : evolves (guarded R) (on_tables (select f)).
Proof. apply evolves_on_tables. by intros d a d' [= <- <-]. Qed.
Lemma evolves_found {A} none m (q : db access_db (option A)) :
  evolves (guarded R) q → evolves (guarded R) (found none m q).
Proof.
  intros Hq. apply evolves_bind; [apply _|by apply evolves_wrapped|]. intros [a|]; [by apply evolves_ret, _|].
  by apply evolves_fail, _.
Qed.
Lemma evolves_each {A} (f : A → db access_db unit) l :
  (∀ a, a ∈ l → evolves (guarded R) (f a)) → evolves (guarded R) (each f l).
Proof.
  induction l as [|a l IH]; intros Hf; cbn [each]; [by apply evolves_ret, _|].
  apply evolves_bind; [apply _|apply Hf; by left|]. intros _. apply IH. intros b Hb. apply Hf. by right.
Qed.
End Guarded.

(** The calls of the repositories, effect by effect *)
Ltac call_step :=
  first [ apply evolves_on_select | apply evolves_select | apply evolves_wrapped | apply evolves_found | apply evolves_ret
        | apply evolves_fail | apply evolves_lift | apply evolves_interfere ]; try typeclasses eauto.

Lemma lift_Ok {S A} (r : res A) (w : world S) a w' : lift r w = (Ok a, w') ↔ r = Ok a ∧ w' = w.
Proof. unfold lift. split; [by intros [= -> ->]|by intros [-> ->]]. Qed.
Lemma inside_Ok {A} (f : directory → res (A * directory)) w a w' :
  inside f w = (Ok a, w') →
  ∃ d, f (dir (tables w)) = Ok (a, d) ∧ tables w' = {| dir := d; others := others (tables w) |}.
Proof.
  intros H. apply statement_effect in H as (s & H & ->). apply bind_Ok in H as ([b d] & Hd & [= <- <-]).
  by exists d.
Qed.
Lemma select_Ok {A} (f : directory → A) w a w' :
  inside (select f) w = (Ok a, w') → a = f (dir (tables w)) ∧ tables w' = tables w.
Proof. intros H. apply inside_Ok in H as (d & [= <- <-] & ->). by destruct (tables w). Qed.
Lemma change_Ok (f : directory → directory) w u w' :
  inside (change f) w = (Ok u, w') → tables w' = {| dir := f (dir (tables w)); others := others (tables w) |}.
Proof. intros H. by apply inside_Ok in H as (d & [= <- <-] & ->). Qed.

Ltac inv_access :=
  repeat first [progress inv_db | match goal with
  | H : lift _ _ = (Ok _, _) |- _ => apply lift_Ok in H as [H ->]
  | H : inside (select _) _ = (Ok _, _) |- _ => apply select_Ok in H as [-> H]
  | H : inside (change _) _ = (Ok _, _) |- _ => apply change_Ok in H
  | H : inside _ _ = (Ok _, _) |- _ =>
      let d := fresh "d" in let Hf := fresh "Heffect" in apply inside_Ok in H as (d & Hf & H)
  end].

(** ** Effects after which the managers are still there *)

Definition safe (d d' : directory) : Prop := consistent d d' ∧ (well_formed d → managed d → managed d').
#[export] Instance safe_preorder : PreOrder safe.
Proof.
  split.
  - intros d. by split.
  - intros d1 d2 d3 [C1 M1] [C2 M2]. split; [by etrans|]. intros Hwf Hm. destruct (C1 Hwf) as [Hwf2 _]. by eauto.
Qed.
Lemma safe_intro d d' :
  consistent d d' →
  (well_formed d → ∀ g, g ∈ grants d → g ∈ grants d') →
  (well_formed d → ∀ id u, users d !! id = Some u → IsActive u = true → ∃ u', users d' !! id = Some u' ∧ IsActive u' = true) →
  (well_formed d → ∀ id p, permissions d !! id = Some p → ∃ p', permissions d' !! id = Some p' ∧ p_Key p' = p_Key p) →
  safe d d'.
Proof.
  intros HC Hg Hu Hp. split; [done|]. intros Hwf (u & p & row & perm & H1 & H2 & H3 & H4 & H5).
  destruct (Hu Hwf _ _ H2 H3) as (row' & ? & ?). destruct (Hp Hwf _ _ H4) as (perm' & ? & ?).
  exists u, p, row', perm'. rewrite <- H5. by eauto 10.
Qed.
Lemma safe_frame d d' :
  consistent d d' → users d' = users d → permissions d' = permissions d → grants d' = grants d → safe d d'.
Proof. intros HC Hu Hp Hg. apply safe_intro; [done|rewrite Hg|rewrite Hu|rewrite Hp]; by eauto. Qed.

Lemma insert_user_safe name display active now d id d' :
  NormalizeUsername name = name → ValidateUsername name = Ok tt →
  insert_user name display active now d = Ok (id, d') → safe d d'.
Proof.
  intros N V H. apply safe_intro; [by eapply insert_user_consistent|..]; revert H; unfold insert_user;
    destruct (user_named d name); try done; intros [= <- <-] Hwf; [done| |by eauto].
  intros i u Hu Ha. exists u. split; [|done]. cbn. rewrite lookup_insert_ne; [done|].
  intros <-. apply (wf_users d Hwf) in Hu. lia.
Qed.
Lemma update_user_safe id f d :
  (∀ u, user_ID (f u) = user_ID u ∧ Username (f u) = Username u ∧ (IsActive u = true → IsActive (f u) = true)) →
  safe d (update_user id f d).
Proof.
  intros Hf. apply safe_intro; [apply update_user_consistent; intros u; split; apply (Hf u)|..];
    unfold update_user; destruct (users d !! id) as [u0|] eqn:Hu0; try by eauto.
  intros _ i u Hu Ha. cbn. destruct (decide (id = i)) as [<-|Hne].
  - exists (f u0). rewrite lookup_insert_eq. split; [done|]. apply Hf. congruence.
  - exists u. by rewrite lookup_insert_ne.
Qed.
Lemma insert_ignore_grant_safe u p d a d' : insert_ignore_grant u p d = Ok (a, d') → safe d d'.
Proof.
  intros H. apply safe_intro; [by eapply insert_ignore_grant_consistent|..]; revert H; unfold insert_ignore_grant, insert_grant;
    repeat case_bool_decide; intros [= <- <-] Hwf; try by eauto. intros g Hg. cbn. set_solver.
Qed.
Lemma upsert_permission_safe key name group description now d : safe d (upsert_permission key name group description now d).
Proof.
  apply safe_intro; [apply upsert_permission_consistent|..]; unfold upsert_permission;
    destruct (permission_id d key) as [id|] eqn:Hid; try destruct (permissions d !! id) as [p0|] eqn:Hp0; try by eauto.
  - intros Hwf i p Hp. apply permission_id_Some in Hid as (p1 & Hp1 & Hk). cbn. destruct (decide (id = i)) as [<-|Hne].
    + rewrite lookup_insert_eq. eexists. split; [done|]. cbn. congruence.
    + exists p. by rewrite lookup_insert_ne.
  - intros Hwf i p Hp. exists p. split; [|done]. cbn. rewrite lookup_insert_ne; [done|].
    intros <-. apply (wf_permissions d Hwf) in Hp. lia.
Qed.
Lemma insert_session_safe user hash remember expires seen now d id d' :
  length hash = 32%nat → now < expires → insert_session user hash remember expires seen now d = Ok (id, d') → safe d d'.
Proof.
  intros Hl He H. apply safe_frame; [by eapply insert_session_consistent|..]; revert H; unfold insert_session;
    destruct (session_with d hash); try done; case_bool_decide; by intros [= <- <-].
Qed.
Lemma touched_safe id now d : safe d (update_session id (touched now) d).
Proof. apply safe_frame; [apply touched_consistent|..]; unfold update_session; by destruct (sessions d !! id). Qed.
Lemma delete_sessions_safe gone d : safe d (delete_sessions gone d).
Proof. by apply safe_frame; [apply delete_sessions_consistent|..]. Qed.
Lemma insert_audit_safe row d a d' : insert_audit row d = Ok (a, d') → safe d d'.
Proof.
  intros H. apply safe_frame; [by eapply insert_audit_consistent|..]; revert H; unfold insert_audit; cbv zeta;
    destruct (_ && _); by intros [= <- <-].
Qed.

(** ** The calls keep the tables safe *)

Abbreviation preserves := (evolves (guarded safe)).

Lemma valid_normalized name : NormalizeUsername (NormalizeUsername name) = NormalizeUsername name.
Proof. apply TrimSpace_idem. Qed.
Lemma ValidateUsername_normalized name : ValidateUsername (NormalizeUsername name) = ValidateUsername name.
Proof. unfold ValidateUsername. by rewrite valid_normalized. Qed.

(** A check first: what follows runs only when it succeeds. *)
Lemma evolves_check {A} (R : access_db → access_db → Prop) `{!PreOrder R} (r : res unit) (k : db access_db A) :
  (r = Ok tt → evolves R k) → evolves R (lift r;; k).
Proof. intros Hk w x w'. unfold mbind, db_bind, lift. destruct r as [[]|e]; [by apply Hk|by intros [= <- <-]]. Qed.

Lemma user_Create_preserves username name active now : preserves (user_Create username name active now).
Proof.
  unfold user_Create. cbv zeta. apply evolves_check; [apply _|]. intros Hv. apply evolves_check; [apply _|]. intros _.
  apply evolves_bind; [apply _| |by intros id; apply evolves_ret, _].
  apply evolves_recover; [apply _| |by intros e; apply evolves_fail, _].
  apply evolves_on_tables; [apply _|]. intros d a d' H. eapply insert_user_safe; [| |done]; [apply valid_normalized|done].
Qed.
Lemma FindByID_preserves id : preserves (FindByID id).
Proof. unfold FindByID. repeat call_step. Qed.
Lemma FindByUsername_preserves name : preserves (FindByUsername name).
Proof. unfold FindByUsername. cbv zeta. apply evolves_check; [apply _|]. intros _. repeat call_step. Qed.
Lemma FindOrCreate_preserves name now : preserves (FindOrCreateFromAuthenticatedUsername name now).
Proof.
  assert (Hfind : ∀ b : bool, preserves (FindByUsername (NormalizeUsername name) ≫= λ u, mret (u, b))).
  { intros b. apply evolves_bind; [apply _|apply FindByUsername_preserves|]. intros u. repeat call_step. }
  unfold FindOrCreateFromAuthenticatedUsername. cbv zeta. apply evolves_check; [apply _|]. intros _.
  apply evolves_recover; [apply _|apply Hfind|]. intros e. destruct (negb _); [repeat call_step|].
  apply evolves_recover; [apply _| |].
  - apply evolves_bind; [apply _|apply user_Create_preserves|]. intros u. repeat call_step.
  - intros e'. destruct (negb _); [repeat call_step|apply Hfind].
Qed.
Lemma UpdateLastLoginAt_preserves id now : preserves (UpdateLastLoginAt id now).
Proof. unfold UpdateLastLoginAt. call_step. apply evolves_on_tables; [apply _|]. intros d a d' [= <- <-]. by apply update_user_safe. Qed.
Lemma CreateSession_preserves user hash remember expires seen now :
  length hash = 32%nat → preserves (CreateSession user hash remember expires seen now).
Proof.
  intros Hl. unfold CreateSession. do 4 (apply evolves_check; [apply _|]; intros ?H).
  apply evolves_bind; [apply _| |intros id; repeat call_step]. call_step. apply evolves_on_tables; [apply _|].
  intros d a d' H'. eapply insert_session_safe; [done| |done].
  match goal with H : fail_if (negb (now <? expires)) _ = _ |- _ => apply fail_if_Ok in H; to_prop in H; lia end.
Qed.
Lemma FindValid_preserves hash now : preserves (FindValidByTokenHash hash now).
Proof. unfold FindValidByTokenHash. apply evolves_bind; [apply _|repeat call_step|]. intros row. repeat call_step. Qed.
Lemma change_preserves m f : (∀ d, safe d (f d)) → preserves (wrapped m (on_tables (change f))).
Proof. intros Hf. call_step. apply evolves_on_tables; [apply _|]. by intros d a d' [= <- <-]. Qed.
Lemma DeleteExpired_preserves now : preserves (DeleteExpired now).
Proof. unfold DeleteExpired. call_step. apply evolves_on_tables; [apply _|]. intros d a d' [= <- <-]. apply delete_sessions_safe. Qed.
Lemma Append_preserves e : preserves (Append e).
Proof.
  unfold Append. apply evolves_bind; [apply _|repeat call_step|]. intros row. call_step.
  apply evolves_inside; [apply _|]. intros d a d'. apply insert_audit_safe.
Qed.

(** ** Administration *)

(** What the statements of a transaction do, one after the other *)
Definition stays_inside {A} (c : db access_db A) : Prop := ∀ w a w', c w = (Ok a, w') →
  others (tables w') = others (tables w) ∧ consistent (dir (tables w)) (dir (tables w')).
Lemma stays_bind {A B} (c : db access_db A) (k : A → db access_db B) :
  stays_inside c → (∀ a, stays_inside (k a)) → stays_inside (c ≫= k).
Proof.
  intros Hc Hk w b w' H. apply db_bind_Ok in H as (a & w1 & H1 & H2).
  destruct (Hc _ _ _ H1) as [O1 C1]. destruct (Hk _ _ _ _ H2) as [O2 C2]. split; [congruence|by etrans].
Qed.
Lemma stays_wrapped {A} m (c : db access_db A) : stays_inside c → stays_inside (wrapped m c).
Proof. intros Hc w a w' H. apply wrapped_Ok in H. exact (Hc w a w' H). Qed.
Lemma stays_effect {A} (f : directory → res (A * directory)) :
  (∀ d a d', f d = Ok (a, d') → consistent d d') → stays_inside (inside f).
Proof. intros Hf w a w' H. apply inside_Ok in H as (d & Hd & ->). split; [done|]. by eapply Hf. Qed.
Lemma stays_select {A} (f : directory → A) : stays_inside (inside (select f)).
Proof. apply stays_effect. by intros d a d' [= <- <-]. Qed.
Lemma stays_lift {A} (r : res A) : stays_inside (lift r).
Proof. intros w a w' H. apply lift_Ok in H as [_ ->]. by split. Qed.
Lemma stays_ret {A} (a : A) : stays_inside (mret a).
Proof. apply (stays_lift (Ok a)). Qed.
Lemma stays_fail {A} e : stays_inside (db_fail e : db access_db A).
Proof. apply (stays_lift (Fail e)). Qed.
Lemma stays_found {A} none m (q : db access_db (option A)) : stays_inside q → stays_inside (found none m q).
Proof. intros Hq. apply stays_bind; [by apply stays_wrapped|]. intros [a|]; [apply stays_ret|apply stays_fail]. Qed.
Lemma stays_each {A} (f : A → db access_db unit) l : (∀ a, stays_inside (f a)) → stays_inside (each f l).
Proof. intros Hf. induction l as [|a l IH]; cbn [each]; [apply stays_ret|]. by apply stays_bind. Qed.
Lemma stays_Append e : stays_inside (Append e).
Proof. apply stays_bind; [apply stays_lift|]. intros row. apply stays_wrapped, stays_effect. intros d a d'. apply insert_audit_consistent. Qed.
Lemma stays_lock : stays_inside lockManagePermission.
Proof. apply stays_wrapped, stays_bind; [apply stays_select|]. intros o. apply stays_lift. Qed.
Lemma stays_count p : stays_inside (count_managers p).
Proof. apply stays_wrapped, stays_select. Qed.
Lemma stays_lock_user u : stays_inside (lock_user u).
Proof. apply stays_found, stays_select. Qed.

(** A transaction is safe when its body, having succeeded, leaves a manager. *)
Lemma transaction_preserves {A} b c (body : db access_db A) :
  stays_inside body →
  (∀ w a w', body w = (Ok a, w') → well_formed (dir (tables w)) → managed (dir (tables w)) → managed (dir (tables w'))) →
  preserves (exclusively b c body).
Proof.
  intros Hs Hm. apply evolves_exclusively; [apply _|]. intros w a w' H Ho. destruct (Hs _ _ _ H) as [HO HC].
  split; [split; [done|by eauto]|by rewrite HO].
Qed.

Lemma lockManagePermission_Ok w p w' :
  lockManagePermission w = (Ok p, w') →
  permission_id (dir (tables w)) PermissionManage = Some p ∧ tables w' = tables w.
Proof. unfold lockManagePermission. intros H. inv_access. apply of_option_Ok in H. done. Qed.
Lemma count_managers_Ok p w n w' :
  count_managers p w = (Ok n, w') → n = Z.of_nat (length (managers (dir (tables w)) p)) ∧ tables w' = tables w.
Proof. unfold count_managers. intros H. by inv_access. Qed.
Lemma requireActiveManager_Ok p w u w' :
  requireActiveManager p w = (Ok u, w') → managers (dir (tables w)) p ≠ [] ∧ tables w' = tables w.
Proof.
  unfold requireActiveManager. intros H. apply db_bind_Ok in H as (n & w1 & H1%count_managers_Ok & H).
  destruct H1 as [-> E]. case_match eqn:En; [done|]. injection H as H <-. rewrite E. split; [|done].
  intros Hnil. rewrite Hnil in En. done.
Qed.
Lemma lock_user_Ok id w u w' :
  lock_user id w = (Ok u, w') → users (dir (tables w)) !! id = Some u ∧ tables w' = tables w.
Proof.
  unfold lock_user, found. intros H. inv_access. destruct (users _ !! id) as [u'|] eqn:E; [|done].
  by injection H as <- <-.
Qed.
Lemma Append_Ok e w u w' :
  Append e w = (Ok u, w') →
  ∃ row, audit_entry e = Ok row ∧
    tables w' = {| dir := set_audit_logs (dir (tables w)) (audit_logs (dir (tables w)) ++ [row]); others := others (tables w) |}.
Proof.
  unfold Append. intros H. inv_access. match goal with H : audit_entry _ = Ok ?r |- _ => exists r; split; [done|] end.
  unfold insert_audit in *. cbv zeta in *. destruct (_ && _); [|done]. by inv_ok.
Qed.

Lemma managed_frame d d' :
  users d' = users d → permissions d' = permissions d → grants d' = grants d → managed d → managed d'.
Proof. intros Hu Hp Hg (u & p & row & perm & H). exists u, p, row, perm. by rewrite Hu, Hp, Hg. Qed.

Lemma permission_id_frame d d' key : permissions d' = permissions d → permission_id d' key = permission_id d key.
Proof. unfold permission_id. by intros ->. Qed.

Lemma SetUserActive_preserves r user active now : preserves (store_SetUserActive r user active now).
Proof.
  apply transaction_preserves.
  - apply stays_bind; [apply stays_lock|]. intros p. apply stays_bind; [apply stays_lock_user|]. intros t.
    apply stays_bind; [apply stays_wrapped, stays_effect; intros d a d' [= <- <-]; by apply update_user_consistent|]. intros _.
    apply stays_bind; [|intros _; apply stays_Append]. destruct active; [apply stays_ret|].
    apply stays_bind; [apply stays_wrapped, stays_effect; intros d a d' [= <- <-]; apply delete_sessions_consistent|].
    intros _. apply stays_bind; [apply stays_count|]. intros n. destruct (n =? 0); [apply stays_fail|apply stays_ret].
  - intros w u w' H Hwf Hm. apply db_bind_Ok in H as (p & w1 & H1%lockManagePermission_Ok & H). destruct H1 as [Hp E1].
    apply db_bind_Ok in H as (t & w2 & H2%lock_user_Ok & H). destruct H2 as [Ht E2]. rewrite E1 in Ht, E2.
    apply db_bind_Ok in H as (? & w3 & H3 & H). apply wrapped_Ok, change_Ok in H3. rewrite E2 in H3.
    apply db_bind_Ok in H as (? & w4 & H4 & H). apply Append_Ok in H as (row & _ & ->).
    cut (managed (dir (tables w4))); [by apply managed_frame|].
    destruct active.
    + injection H4 as _ <-. rewrite H3. by apply update_user_safe.
    + apply db_bind_Ok in H4 as (? & w5 & H5 & H4). apply wrapped_Ok, change_Ok in H5.
      apply requireActiveManager_Ok in H4 as [Hne ->]. revert Hne. rewrite H5, H3. cbn [dir]. intros Hne.
      eapply managed_count; [|rewrite <- Hp|done].
      * apply delete_sessions_consistent. by apply update_user_consistent.
      * apply permission_id_frame. unfold update_user. by destruct (users _ !! user).
Qed.

(** The identifiers that a transaction looks up for the keys *)
Lemma permissionIDs_Ok keys w ids w' :
  permissionIDs keys w = (Ok ids, w') →
  keys ≠ [] ∧ tables w' = tables w ∧
  ∀ key id, ids !! key = Some id →
    key ∈ keys ∧ ∃ p, permissions (dir (tables w)) !! id = Some p ∧ p_Key p = key.
Proof.
  unfold permissionIDs. intros H. inv_access. match goal with H : fail_if _ _ = _ |- _ => apply fail_if_Ok, bool_decide_eq_false in H end.
  split_and!; [done..|]. intros key id Hk. apply elem_of_list_to_map_2, list_elem_of_omap in Hk as ([i p] & Hin & Hk).
  apply elem_of_map_to_list in Hin. simpl in Hk. case_bool_decide; [|done]. injection Hk as <- <-. eauto.
Qed.
Lemma ids_cover (keys : list string) (ids : gmap string Z) :
  NoDup keys → (∀ key id, ids !! key = Some id → key ∈ keys) → size ids = length keys →
  ∀ key, key ∈ keys → ids !! key = Some (id_of ids key).
Proof.
  intros Hnd Hin Hsize key Hk. assert (dom ids = list_to_set keys) as Hdom.
  { apply set_eq. apply set_subseteq_size_equiv.
    - intros k [id Hid]%elem_of_dom. apply elem_of_list_to_set. by eapply Hin.
    - by rewrite size_list_to_set, <- Hsize, <- size_dom by done. }
  assert (key ∈ dom ids) as [id Hid]%elem_of_dom by (rewrite Hdom; by apply elem_of_list_to_set).
  unfold id_of. by rewrite Hid.
Qed.

Definition grant_all (user : Z) (ids : list Z) (d : directory) : directory :=
  set_grants d (list_to_set (pair user <$> ids) ∪ grants d).
Lemma each_insert_Ok user (f : string → Z) keys w u w' :
  each (λ key, wrapped "grant user permission %q: %w" (inside (insert_grant user (f key)))) keys w = (Ok u, w') →
  tables w' = {| dir := grant_all user (f <$> keys) (dir (tables w)); others := others (tables w) |}.
Proof.
  unfold grant_all. revert w. induction keys as [|key keys IH]; intros w H; cbn [each] in H.
  - injection H as _ <-. destruct (tables w) as [[] o]. cbn. unfold set_grants. cbn. do 2 f_equal.
    apply set_eq. intros g. rewrite elem_of_union, elem_of_empty. tauto.
  - inv_access. apply IH in H. rewrite H. unfold insert_grant in *. case_bool_decide; [done|].
    destruct (_ && _); [|done]. inv_ok. rewrite Hcall. rewrite !fmap_cons. cbn [dir others grants set_grants list_to_set].
    unfold set_grants. cbn. do 2 f_equal. apply set_eq. intros g. rewrite !elem_of_union. tauto.
Qed.

Lemma granted_frame d d' user key :
  permissions d' = permissions d → (∀ p, (user, p) ∈ grants d' ↔ (user, p) ∈ grants d) →
  key ∈ granted_keys d' user ↔ key ∈ granted_keys d user.
Proof. intros Hp Hg. rewrite !elem_of_granted_keys, Hp. by setoid_rewrite Hg. Qed.

(** What a replacement of permissions means, in terms of keys: exactly the
    submitted keys among those that can be granted, everything else as before,
    and the difference in the audit trail. *)
Definition replaced (canonical selected : list string) (r : Requester) (user : Z) (now : time) (d d' : directory) : Prop :=
  (∀ key, key ∈ granted_keys d' user ↔ if bool_decide (key ∈ canonical) then key ∈ selected else key ∈ granted_keys d user) ∧
  (∀ other key, other ≠ user → key ∈ granted_keys d' other ↔ key ∈ granted_keys d other) ∧
  users d' = users d ∧ permissions d' = permissions d ∧ sessions d' = sessions d ∧
  ∃ added removed row, audit_logs d' = audit_logs d ++ [row] ∧
    audit_entry (user_event r "user.permissions_updated" user (PermissionsUpdatedMetadata added removed) now) = Ok row ∧
    (∀ key, key ∈ added ↔ key ∈ granted_keys d' user ∧ key ∉ granted_keys d user) ∧
    (∀ key, key ∈ removed ↔ key ∈ granted_keys d user ∧ key ∉ granted_keys d' user).

(** The tables between the grants and the audit entry *)
Lemma regranted_keys canonical selected ids user d (d' := grant_all user (id_of ids <$> selected) (delete_grants user (id_of ids <$> canonical) d)) :
  well_formed d → selected ⊆ canonical →
  (∀ key, key ∈ canonical → ∃ p, permissions d !! id_of ids key = Some p ∧ p_Key p = key) →
  (∀ key, key ∈ granted_keys d' user ↔ if bool_decide (key ∈ canonical) then key ∈ selected else key ∈ granted_keys d user) ∧
  (∀ other key, other ≠ user → key ∈ granted_keys d' other ↔ key ∈ granted_keys d other).
Proof.
  intros Hwf Hsel Hids.
  assert (Hg : ∀ u id, (u, id) ∈ grants d' ↔
            (u = user ∧ id ∈ id_of ids <$> selected) ∨ ((u, id) ∈ grants d ∧ ¬ (u = user ∧ id ∈ id_of ids <$> canonical))).
  { intros u id. unfold d', grant_all, delete_grants. cbn. rewrite elem_of_union, elem_of_list_to_set, elem_of_filter, list_elem_of_fmap.
    cbn. naive_solver. }
  split.
  - intros key. rewrite !elem_of_granted_keys. setoid_rewrite Hg. change (permissions d') with (permissions d).
    case_bool_decide as Hc; split.
    + intros (id & p & [[_ Hin]|[_ Hn]] & Hp & Hk).
      * apply list_elem_of_fmap in Hin as (key' & -> & Hin). destruct (Hids key') as (p' & Hp' & Hk'); [by apply Hsel|].
        by assert (key' = key) as <- by congruence.
      * destruct Hn. split; [done|]. destruct (Hids key Hc) as (p' & Hp' & Hk').
        apply list_elem_of_fmap. exists key. split; [|done]. eapply (wf_keys d Hwf); eauto. congruence.
    + intros Hin. destruct (Hids key Hc) as (p & Hp & Hk). exists (id_of ids key), p. split; [|done].
      left. split; [done|]. apply list_elem_of_fmap. by exists key.
    + intros (id & p & [[_ Hin]|[Hin _]] & Hp & Hk); [|apply elem_of_granted_keys; by exists id, p].
      apply list_elem_of_fmap in Hin as (key' & -> & Hin). destruct (Hids key') as (p' & Hp' & Hk'); [by apply Hsel|].
      assert (key' = key) as <- by congruence. by destruct Hc; apply Hsel.
    + intros (id & p & Hin & Hp & Hk)%elem_of_granted_keys. exists id, p. split; [|done]. right. split; [done|]. intros [_ Hn].
      apply list_elem_of_fmap in Hn as (key' & -> & Hn). destruct (Hids key' Hn) as (p' & Hp' & Hk').
      assert (key' = key) as <- by congruence. done.
  - intros other key Hne. apply granted_frame; [done|]. intros p. rewrite Hg. naive_solver.
Qed.

Lemma elem_of_sorted (s : gset string) key : key ∈ SortStableFunc string_leb (elements s) ↔ key ∈ s.
Proof. by rewrite (SortStableFunc_perm string_leb), elem_of_elements. Qed.
Lemma permissionChanges_exact existing selected added removed :
  permissionChanges existing selected = (added, removed) →
  (∀ key, key ∈ added ↔ key ∈ selected ∧ key ∉ existing) ∧ (∀ key, key ∈ removed ↔ key ∈ existing ∧ key ∉ selected).
Proof. intros [= <- <-]. split; intros key; rewrite elem_of_sorted; set_solver. Qed.

Lemma assignedPermissions_Ok user keys w l w' :
  assignedPermissions user keys w = (Ok l, w') →
  tables w' = tables w ∧ ∀ key, key ∈ l ↔ key ∈ granted_keys (dir (tables w)) user ∧ key ∈ keys.
Proof.
  unfold assignedPermissions. intros H. inv_access. split; [done|]. intros key.
  by rewrite list_elem_of_In, filter_In, <- list_elem_of_In, bool_decide_eq_true.
Qed.

(** A successful replacement *)
Lemma replacement_Ok r user canonical selected now w u w' :
  well_formed (dir (tables w)) → NoDup canonical → selected ⊆ canonical →
  replacement r user canonical selected now w = (Ok u, w') →
  replaced canonical selected r user now (dir (tables w)) (dir (tables w')) ∧
  (managed (dir (tables w)) → managed (dir (tables w'))).
Proof.
  intros Hwf Hnd Hsel H. unfold replacement in H.
  apply db_bind_Ok in H as (p & w1 & H1%lockManagePermission_Ok & H). destruct H1 as [Hp E1].
  apply db_bind_Ok in H as (t & w2 & H2%lock_user_Ok & H). destruct H2 as [Ht E2]. rewrite E1 in Ht, E2.
  apply db_bind_Ok in H as (ids & w3 & H3%permissionIDs_Ok & H). destruct H3 as (Hne & E3 & Hids). rewrite E2 in E3, Hids.
  apply db_bind_Ok in H as (? & w4 & H4 & H). apply lift_Ok in H4 as [Hsize ->]. apply fail_if_Ok in Hsize.
  apply db_bind_Ok in H as (existing & w5 & H5%assignedPermissions_Ok & H). destruct H5 as [E5 Hex]. rewrite E3 in E5, Hex.
  apply db_bind_Ok in H as (? & w6 & H6 & H). apply lift_Ok in H6 as [_ ->].
  apply db_bind_Ok in H as (? & w7 & H7 & H). apply wrapped_Ok, change_Ok in H7. rewrite E5 in H7.
  apply db_bind_Ok in H as (? & w8 & H8%each_insert_Ok & H). rewrite H7 in H8. cbn [dir others] in H8.
  apply db_bind_Ok in H as (? & w9 & H9 & H). destruct (permissionChanges existing selected) as [added removed] eqn:Hpc.
  apply Append_Ok in H as (row & Hrow & ->). cbn [dir].
  assert (Hcover : ∀ key, key ∈ canonical → ∃ q, permissions (dir (tables w)) !! id_of ids key = Some q ∧ p_Key q = key).
  { intros key Hk. assert (ids !! key = Some (id_of ids key)) as Hid.
    { apply (ids_cover canonical); [done| |to_prop in Hsize; lia|done]. intros k i Hi. by eapply Hids. }
    by apply Hids in Hid as [_ ?]. }
  destruct (regranted_keys canonical selected ids user (dir (tables w)) Hwf Hsel Hcover) as [Hkeys Hothers].
  set (d2 := grant_all _ _ _) in *.
  assert (E9 : tables w9 = tables w8).
  { destruct (IsActive t); [by apply requireActiveManager_Ok in H9 as [_ ->]|by injection H9 as _ <-]. }
  assert (Hmgr : IsActive t = true → managers d2 p ≠ []).
  { intros Ha. rewrite Ha in H9. apply requireActiveManager_Ok in H9 as [Hm _]. by rewrite H8 in Hm. }
  rewrite E9, H8. cbn [dir]. split.
  - destruct (permissionChanges_exact _ _ _ _ Hpc) as [Hadd Hrem].
    split_and!; [exact Hkeys|exact Hothers|done..|]. exists added, removed, row. split_and!; [done..| |]; intros key.
    + rewrite Hadd, Hex. change (granted_keys (set_audit_logs d2 _)) with (granted_keys d2). rewrite Hkeys.
      case_bool_decide; [naive_solver|]. split; [|naive_solver]. intros [Hs _]. by apply Hsel in Hs.
    + rewrite Hrem, Hex. change (granted_keys (set_audit_logs d2 _)) with (granted_keys d2). rewrite Hkeys.
      case_bool_decide; naive_solver.
  - intros (v & q & vrow & perm & Hg & Hv & Ha & Hq & Hk).
    assert (Hwf2 : well_formed d2 → managers d2 p ≠ [] → managed (set_audit_logs d2 (audit_logs d2 ++ [row]))).
    { intros Hw2 Hm2. apply (managed_frame d2); [done..|]. by apply (managed_count d2 p). }
    destruct (IsActive t) eqn:Ht'.
    + apply (managed_frame d2); [done..|]. specialize (Hmgr eq_refl). destruct (managers d2 p) as [|m l] eqn:Em; [done|].
      assert (m ∈ managers d2 p) as Hm by (rewrite Em; by left). apply elem_of_managers in Hm as (Hmg & mrow & Hmu & Hma).
      apply permission_id_Some in Hp as (pp & Hpp & Hpk). by exists m, p, mrow, pp.
    + assert (v ≠ user) as Hne' by (intros ->; congruence). exists v, q, vrow, perm. split_and!; [|done..].
      unfold d2, grant_all, delete_grants. cbn. apply elem_of_union. right. apply elem_of_filter. split; [|done].
      intros [? _]. by apply Hne'.
Qed.

Lemma validate_registry_NoDup seen definitions :
  validate_registry seen definitions = Ok tt →
  NoDup (pd_Key <$> definitions) ∧ ∀ key, key ∈ pd_Key <$> definitions → key ∉ seen.
Proof.
  revert seen. induction definitions as [|d rest IH]; intros seen H; cbn [validate_registry] in H.
  - split; [constructor|]. intros key Hk. by apply not_elem_of_nil in Hk.
  - inv_ok. apply IH in H as [Hnd Hnin].
    match goal with H : bool_decide (_ ∈ _) = false |- _ => apply bool_decide_eq_false in H end.
    rewrite fmap_cons. split.
    + apply NoDup_cons. split; [|done]. intros Hin. apply Hnin in Hin. set_solver.
    + intros key [->|Hin]%elem_of_cons; [done|]. apply Hnin in Hin. set_solver.
Qed.
Lemma canonical_NoDup definitions : ValidateRegistry definitions = Ok tt → NoDup (canonical_keys definitions).
Proof. intros [Hnd _]%validate_registry_NoDup. unfold canonical_keys. apply NoDup_ListNoDup, List.NoDup_filter. by apply NoDup_ListNoDup. Qed.
Lemma select_keys_Ok definitions seen submitted selected :
  select_keys definitions seen submitted = Ok selected →
  selected ⊆ canonical_keys definitions ∧ (∀ key, key ∈ selected → key ∈ submitted) ∧
  (∀ key, key ∈ submitted → key ∈ selected ∨ key ∈ seen).
Proof.
  revert seen selected. induction submitted as [|key rest IH]; intros seen selected H; cbn [select_keys] in H.
  - inv_ok. split_and!; [set_solver..|]. intros key Hk. by apply not_elem_of_nil in Hk.
  - inv_ok. match goal with H : negb _ = false |- _ => apply negb_false_iff, bool_decide_eq_true in H end.
    case_bool_decide as Hseen; inv_ok.
    + apply IH in H as (H1 & H2 & H3). split_and!; [done|set_solver|]. intros k [->|Hk]%elem_of_cons; [by right|by apply H3].
    + match goal with H : select_keys _ _ _ = Ok _ |- _ => apply IH in H as (H1 & H2 & H3) end.
      split_and!; [set_solver|set_solver|]. intros k [->|Hk]%elem_of_cons; [left; by left|].
      destruct (H3 k Hk) as [?|[->%elem_of_singleton|?]%elem_of_union]; [left; by right|left; by left|by right].
Qed.
