(* ===== verification/AuditLogs.v ===== *)
(** The audit log viewer, [internal/features/auditlogs] with [internal/platform/webutil]:
    counting, listing and finding events, the pages, and how an event is shown.

    The table is that of [Directory], in the order of its inserts.  AUTO_INCREMENT gives
    increasing ids, possibly with gaps: [ids]; what MySQL makes of a text in a JSON
    column is [json_column]. *)
From stdpp Require Import base list sorting strings gmap.
From Stdlib Require Import ZArith Lia Ascii.
From S2P Require Import Prelude GoStrings GoErrors Database GoSlices GoTime GoJSON GoMarshal GoPath Directory Access AccessFacts.
Local Open Scope Z_scope.

(** ** Data *)

Definition AuditPageSize : Z := 50.
Record audit_record := {
  rec_ID : Z; rec_ActorUserID : option Z; rec_ActorUsername : string; rec_EffectiveUserID : option Z;
  rec_EffectiveUsername : string; rec_Action : string; rec_ResourceType : string; rec_ResourceID : option Z;
  rec_Metadata : list ascii; rec_CreatedAt : time
}.
Record audit_page := { ap_Rows : list audit_record; ap_Action : string; ap_Pagination : Page }.

Section Viewer.
Variable ids : nat → Z.
Variable json_column : list ascii → list ascii.

(** ** [repository.go] *)

Definition nullable (s : option string) : string := default EmptyString s.
Definition record (numbered : Z * audit_row) : audit_record :=
  let '(id, row) := numbered in
  {| rec_ID := id; rec_ActorUserID := actor_user_id row; rec_ActorUsername := nullable (actor_username row);
     rec_EffectiveUserID := effective_user_id row; rec_EffectiveUsername := nullable (effective_username row);
     rec_Action := action row; rec_ResourceType := nullable (resource_type row); rec_ResourceID := resource_id row;
     rec_Metadata := default [] (json_column <$> metadata row); rec_CreatedAt := created_at row |}.
Definition numbered (d : directory) : list (Z * audit_row) := imap (fun i row => (ids i, row)) (audit_logs d).
Definition of_action (wanted : string) (r : audit_record) : bool := empty wanted || seqb (rec_Action r) wanted.
(** ORDER BY created_at DESC, id DESC *)
Definition newest_first (a b : audit_record) : bool :=
  (rec_CreatedAt b <? rec_CreatedAt a) || ((rec_CreatedAt a =? rec_CreatedAt b) && (rec_ID b <=? rec_ID a)).
(** The rows of the query without LIMIT *)
Definition history (wanted : string) (d : directory) : list audit_record :=
  SortStableFunc newest_first (List.filter (of_action wanted) (record <$> numbered d)).

Definition audit_Count (wanted : string) : db access_db Z :=
  wrapped "count audit logs: %w" (on_tables (select (fun d =>
    Z.of_nat (length (List.filter (of_action wanted) (record <$> numbered d)))))).
Definition audit_List (wanted : string) (limit offset : Z) : db access_db (list audit_record) :=
  wrapped "list audit logs: %w" (on_tables (select (fun d => take (Z.to_nat limit) (drop (Z.to_nat offset) (history wanted d))))).
Definition audit_Find (id : Z) : db access_db audit_record :=
  found AuditErrNotFound "find audit log: %w"
    (on_tables (select (fun d => find (fun r => rec_ID r =? id) (record <$> numbered d)))).

(** ** [service.go] *)

Definition service_List (wanted : string) (page : Z) : db access_db audit_page :=
  let wanted := TrimSpace wanted in
  total ← wrapped "count audit history: %w" (audit_Count wanted);
  let info := New page AuditPageSize total in
  rows ← wrapped "list audit history: %w" (audit_List wanted (PerPage info) (Offset info));
  mret {| ap_Rows := rows; ap_Action := wanted; ap_Pagination := info |}.
Definition service_Find (id : Z) : db access_db audit_record :=
  if id =? 0 then db_fail (Sentinel AuditErrNotFound) else audit_Find id.

(** ** How an event is shown, [model.go] *)

Record IdentityView := { iv_Label : string; iv_UserID : option Z; iv_Username : string }.
Definition dash : string := "—".
Definition identityView (action : string) (actor : bool) (id : option Z) (username : string) : IdentityView :=
  if negb (empty username) then {| iv_Label := ("@" +:+ username)%string; iv_UserID := id; iv_Username := username |} else
  if actor && seqb action "auth.registration" then {| iv_Label := "Public"; iv_UserID := None; iv_Username := EmptyString |} else
  if actor && seqb action "admin.bootstrap" then {| iv_Label := "System"; iv_UserID := None; iv_Username := EmptyString |} else
  {| iv_Label := dash; iv_UserID := id; iv_Username := EmptyString |}.
Definition record_Actor (r : audit_record) : IdentityView :=
  identityView (rec_Action r) true (rec_ActorUserID r) (rec_ActorUsername r).
Definition record_Effective (r : audit_record) : IdentityView :=
  identityView (rec_Action r) false (rec_EffectiveUserID r) (rec_EffectiveUsername r).
Definition ResourceLabel (r : audit_record) : string :=
  match rec_ResourceID r with
  | Some id => if empty (rec_ResourceType r) then dash else (rec_ResourceType r +:+ " #" +:+ Itoa id)%string
  | None => dash
  end.
Definition MetadataText (r : audit_record) : list ascii :=
  if bool_decide (rec_Metadata r = []) then bytes dash else default (rec_Metadata r) (Indent (rec_Metadata r)).

(** ** The handler, [handler.go], and [webutil] *)

(** [strconv.ParseUint] to 64 bits *)
Definition ParseUint (s : string) : option Z :=
  let l := bytes s in
  if bool_decide (l = []) || negb (forallb is_digit l) then None else
  if digits_value l <? 2 ^ 64 then Some (digits_value l) else None.
Definition RouteID (param : string) : option Z := id ← ParseUint param; if id =? 0 then None else Some id.
Definition webutil_Page (param : string) : Z :=
  match Atoi param with Some page => if page <? 1 then 1 else page | None => 1 end.
Definition pageURL (action : string) (page : Z) : string :=
  if page =? 0 then EmptyString else
  ("/audit-logs?" +:+ (if empty action then EmptyString else "action=" +:+ QueryEscape action +:+ "&") +:+
   "page=" +:+ QueryEscape (Itoa page))%string.

Record ListData := { ld_Page : audit_page; PreviousURL : string; NextURL : string }.
(** A page of the application, or one of its error pages *)
Inductive page_reply (A : Type) := Shown (data : A) | NotFoundPage | InternalPage (e : err).
Definition list_events (action_param page_param : string) (w : world access_db) : page_reply ListData * world access_db :=
  match service_List action_param (webutil_Page page_param) w with
  | (Fail e, w) => (InternalPage _ e, w)
  | (Ok page, w) =>
      (Shown _ {| ld_Page := page; PreviousURL := pageURL (ap_Action page) (Previous (ap_Pagination page));
                  NextURL := pageURL (ap_Action page) (Next (ap_Pagination page)) |}, w)
  end.
Definition show_event (id_param : string) (w : world access_db) : page_reply audit_record * world access_db :=
  match RouteID id_param with
  | None => (NotFoundPage _, w)
  | Some id =>
      match service_Find id w with
      | (Ok record, w) => (Shown _ record, w)
      | (Fail e, w) => (if Is e AuditErrNotFound then NotFoundPage _ else InternalPage _ e, w)
      end
  end.
End Viewer.

(** ** Pages *)

Lemma pages_concat {A} (k n : nat) (l : list A) : (0 < k)%nat → (length l ≤ n * k)%nat →
  List.concat ((λ i, take k (drop (i * k) l)) <$> seq 0 n) = l.
Proof.
  intros Hk. revert l. induction n as [|n IH]; intros l Hl; [destruct l; [done|simpl in Hl; lia]|].
  cbn [seq]. rewrite fmap_cons, <- seq_shift. cbn [List.concat Nat.mul drop].
  transitivity (take k l ++ drop k l); [|apply take_drop]. f_equal.
  etransitivity; [|apply (IH (drop k l)); rewrite length_drop; lia].
  f_equal. change (List.map S (seq 0 n)) with (S <$> seq 0 n). rewrite <- list_fmap_compose. apply list_fmap_ext.
  intros _ i _. cbn. by rewrite drop_drop.
Qed.

Lemma newest_total a b : newest_first a b = false → newest_first b a = true.
Proof. unfold newest_first. to_prop. lia. Qed.
Lemma newest_trans a b c : newest_first a b = true → newest_first b c = true → newest_first a c = true.
Proof. unfold newest_first. to_prop. lia. Qed.

Definition quiet (d : directory) : world access_db := World {| dir := d; others := [] |} [].
Lemma page_numbers page total : 0 ≤ total →
  let info := New page AuditPageSize total in
  1 ≤ pg_Page info ≤ TotalPages info ∧ PerPage info = 50 ∧ TotalPages info = Z.max ((total + 49) / 50) 1 ∧
  (1 ≤ page ≤ TotalPages info → pg_Page info = page) ∧
  Next info = (if pg_Page info <? TotalPages info then pg_Page info + 1 else 0).
Proof.
  intros Ht. unfold New, AuditPageSize. cbn [pg_Page PerPage TotalPages Next]. change (50 <? 1) with false. cbv iota.
  rewrite Z.quot_div_nonneg by lia. replace (total + 50 - 1) with (total + 49) by lia.
  set (n := Z.max _ 1). assert (1 ≤ n) by lia.
  destruct (Z.ltb_spec page 1); [destruct (Z.ltb_spec n 1)|destruct (Z.ltb_spec n page)]; split_and!; try lia; done.
Qed.

Lemma read_quiet {A} m m' (f : directory → A) d : wrapped m (wrapped m' (on_tables (select f))) (quiet d) = (Ok (f d), quiet d).
Proof. reflexivity. Qed.
Lemma then_quiet {A B} (c : db access_db A) (k : A → db access_db B) w a w' : c w = (Ok a, w') → (c ≫= k) w = k a w'.
Proof. intros H. unfold mbind, db_bind. by rewrite H. Qed.

Section Facts.
Variable ids : nat → Z.
Variable json_column : list ascii → list ascii.
Abbreviation hist := (history ids json_column).

Lemma service_List_quiet wanted n d :
  let all := hist (TrimSpace wanted) d in
  let info := New n AuditPageSize (Z.of_nat (length all)) in
  service_List ids json_column wanted n (quiet d) =
    (Ok {| ap_Rows := take (Z.to_nat (PerPage info)) (drop (Z.to_nat (Offset info)) all); ap_Action := TrimSpace wanted;
           ap_Pagination := info |}, quiet d).
Proof.
  intros all info. assert (length (List.filter (of_action (TrimSpace wanted)) (record json_column <$> numbered ids d)) = length all) as E.
  { apply Permutation_length. symmetry. apply SortStableFunc_perm. }
  unfold service_List, audit_Count, audit_List. rewrite (then_quiet _ _ _ _ _ (read_quiet _ _ _ d)), E. fold all info.
  by rewrite (then_quiet _ _ _ _ _ (read_quiet _ _ _ d)).
Qed.

(** ** An event that was appended *)

Lemma AppendAlone_Ok e w w' : AppendAlone e w = (Ok tt, w') →
  ∃ row d, audit_entry e = Ok row ∧ dir (tables w') = set_audit_logs d (audit_logs d ++ [row]).
Proof.
  unfold AppendAlone. intros H. apply db_bind_Ok in H as (? & w1 & _ & H). apply Append_Ok in H as (row & Hrow & ->).
  exists row, (dir (tables w1)). by split.
Qed.
Lemma numbered_last d row :
  numbered ids (set_audit_logs d (audit_logs d ++ [row])) = numbered ids d ++ [(ids (length (audit_logs d)), row)].
Proof. unfold numbered. cbn. rewrite imap_app. cbn. by rewrite Nat.add_0_r. Qed.
Lemma find_app {A} (p : A → bool) l x : find p l = None → p x = true → find p (l ++ [x]) = Some x.
Proof. induction l as [|a l IH]; cbn; [by intros _ ->|]. destruct (p a); [done|apply IH]. Qed.
Lemma sorted_head {A} (leb : A → A → bool) x l :
  (∀ a b c, leb a b = true → leb b c = true → leb a c = true) → (∀ a b, leb a b = false → leb b a = true) →
  Forall (λ a, leb a x = false) l → head (SortStableFunc leb (l ++ [x])) = Some x.
Proof.
  intros Ht Htot H. assert (Hs : StronglySorted (λ a b, leb a b = true) (SortStableFunc leb (l ++ [x]))) by (by apply SortStableFunc_sorted).
  assert (Hp : SortStableFunc leb (l ++ [x]) ≡ₚ l ++ [x]) by apply SortStableFunc_perm.
  destruct (SortStableFunc leb (l ++ [x])) as [|y rest] eqn:E.
  { apply Permutation_nil in Hp. by destruct l. }
  cbn. f_equal. assert (Hy : y ∈ l ++ [x]) by (rewrite <- Hp; left). apply elem_of_app in Hy as [Hy|Hy%list_elem_of_singleton]; [|done].
  assert (Hx : x ∈ y :: rest) by (rewrite Hp; apply elem_of_app; right; by left).
  apply elem_of_cons in Hx as [Hx|Hx]; [done|]. inversion Hs as [|? ? _ Hall]; subst. rewrite Forall_forall in Hall, H.
  specialize (Hall x Hx). rewrite (H y Hy) in Hall. discriminate Hall.
Qed.
Lemma RouteID_Itoa n : 0 < n < 2 ^ 64 → RouteID (Itoa n) = Some n.
Proof.
  intros Hn. unfold RouteID, ParseUint, Itoa, itoa. destruct (Z.ltb_spec n 0); [lia|]. rewrite bytes_of_bytes.
  rewrite bool_decide_eq_false_2 by (apply utoa_nonempty; lia). rewrite utoa_digits, utoa_value by lia. cbn [negb orb].
  destruct (Z.ltb_spec n (2 ^ 64)); [|lia]. cbn [mbind option_bind]. destruct (Z.eqb_spec n 0); [lia|done].
Qed.
Lemma found_event id r d : id ≠ 0 → find (λ r, rec_ID r =? id) (record json_column <$> numbered ids d) = Some r →
  service_Find ids json_column id (quiet d) = (Ok r, quiet d).
Proof.
  intros Hid Hf. unfold service_Find. destruct (Z.eqb_spec id 0); [done|]. unfold audit_Find, found, mbind at 1, db_bind at 1.
  change (wrapped _ (on_tables (select ?f)) (quiet d)) with (@Ok err _ (f d), quiet d). cbv iota beta. by rewrite Hf.
Qed.
Lemma newest_shown d d0 row : audit_logs d = audit_logs d0 ++ [row] →
  (∀ i j, (i < j <= length (audit_logs d0))%nat → ids i < ids j) → 0 < ids 0%nat → ids (length (audit_logs d0)) < 2 ^ 64 →
  let r := record json_column (ids (length (audit_logs d0)), row) in
  show_event ids json_column (Itoa (rec_ID r)) (quiet d) = (Shown _ r, quiet d).
Proof.
  intros Hl Hids H0 Hmax r. set (n := length (audit_logs d0)) in *.
  assert (Hpos : 0 < ids n) by (destruct (decide (n = 0%nat)) as [->|]; [done|pose proof (Hids 0%nat n); lia]).
  change (rec_ID r) with (ids n). unfold show_event. rewrite RouteID_Itoa by lia.
  rewrite (found_event (ids n) r); [done|lia|]. unfold numbered. rewrite Hl, imap_app, fmap_app. cbn. rewrite Nat.add_0_r. fold n.
  apply find_app; [|unfold r; cbn; by rewrite Z.eqb_refl].
  destruct (find _ _) as [r'|] eqn:E; [|done]. apply find_some in E as [Hin E]. exfalso.
  apply list_elem_of_In, list_elem_of_fmap in Hin as ([id row'] & -> & Hin). apply elem_of_lookup_imap in Hin as (i & x & [= -> ->] & Hi).
  cbn in E. apply Z.eqb_eq in E. apply lookup_lt_Some in Hi. pose proof (Hids i n). fold n in Hi. lia.
Qed.
Lemma newest_heads d d0 row : audit_logs d = audit_logs d0 ++ [row] →
  Forall (λ old, created_at old < created_at row) (audit_logs d0) →
  head (hist EmptyString d) = Some (record json_column (ids (length (audit_logs d0)), row)).
Proof.
  intros Hl Hold. unfold history, numbered. rewrite Hl, imap_app, fmap_app. cbn [imap fmap list_fmap]. rewrite Nat.add_0_r.
  assert (∀ l, List.filter (of_action EmptyString) l = l) as -> by (induction l as [|r l IH]; cbn; [done|by rewrite IH]).
  apply sorted_head; [apply newest_trans|apply newest_total|]. rewrite Forall_fmap, Forall_forall. intros [id row'] Hin.
  apply elem_of_lookup_imap in Hin as (i & x & [= -> ->] & Hi). rewrite Forall_forall in Hold.
  match goal with H : _ !! i = Some ?x |- _ => pose proof (Hold x ltac:(by eapply list_elem_of_lookup_2)); cbn; unfold newest_first; cbn;
    destruct (Z.ltb_spec (created_at row) (created_at x)); [lia|]; destruct (Z.eqb_spec (created_at x) (created_at row)); try done; lia end.
Qed.

(** What an event is as a record of the viewer, and as the two identities of its page *)
Definition identity_name (i : option Identity) : string := match i with Some i => identity_Username i | None => EmptyString end.
Definition event_record (id : Z) (e : Event) : audit_record :=
  let a := ev_Attribution e in {|
    rec_ID := id;
    rec_ActorUserID := identity_UserID <$> Actor a;
    rec_ActorUsername := (match Actor a with Some i => identity_Username i | None => SystemActor a end);
    rec_EffectiveUserID := identity_UserID <$> Effective a;
    rec_EffectiveUsername := identity_name (Effective a);
    rec_Action := ev_Action e;
    rec_ResourceType := ev_Resource e;
    rec_ResourceID := (if empty (ev_Resource e) then None else Some (ev_ResourceID e));
    rec_Metadata := (match ev_Metadata e with Some m => json_column (marshal_metadata m) | None => [] end);
    rec_CreatedAt := datetime6 (ev_CreatedAt e) |}.
Definition person (i : Identity) : IdentityView :=
  {| iv_Label := ("@" +:+ identity_Username i)%string; iv_UserID := Some (identity_UserID i); iv_Username := identity_Username i |}.
Definition nobody (label : string) : IdentityView := {| iv_Label := label; iv_UserID := None; iv_Username := EmptyString |}.
Definition actor_shown (e : Event) : IdentityView :=
  let a := ev_Attribution e in
  match Actor a with
  | Some i => person i
  | None =>
      if negb (empty (SystemActor a))
      then {| iv_Label := ("@" +:+ SystemActor a)%string; iv_UserID := None; iv_Username := SystemActor a |} else
      nobody (if seqb (ev_Action e) "auth.registration" then "Public"%string else
              if seqb (ev_Action e) "admin.bootstrap" then "System"%string else dash)
  end.
Definition effective_shown (e : Event) : IdentityView :=
  match Effective (ev_Attribution e) with Some i => person i | None => nobody dash end.

Lemma identity_named i u : validateIdentity (Some i) = Ok u → empty (identity_Username i) = false.
Proof.
  cbn. destruct (empty (identity_Username i)) eqn:E; [|done]. apply seqb_eq in E. rewrite E.
  change (empty (TrimSpace EmptyString)) with true. rewrite orb_true_r. discriminate.
Qed.
Lemma entry_record e row id : audit_entry e = Ok row → record json_column (id, row) = event_record id e.
Proof.
  intros H. unfold audit_entry in H. cbv zeta in H. inv_ok. unfold record, event_record. cbn.
  f_equal; try (destruct (empty (ev_Resource e)) eqn:Er; cbn; [by apply seqb_eq in Er|done]); try by destruct (ev_Metadata e).
  - destruct (empty (SystemActor (ev_Attribution e))) eqn:Es; cbn.
    + apply seqb_eq in Es. rewrite Es. by destruct (Actor (ev_Attribution e)).
    + destruct (Actor (ev_Attribution e)) as [i|]; [|done].
      match goal with H : context [bool_decide (is_Some (Some i))] |- _ => cbn in H; rewrite orb_true_r in H; discriminate H end.
  - by destruct (Effective (ev_Attribution e)).
Qed.
(** The checks of [Append] leave names for the views to show. *)
Lemma entry_views e row id : audit_entry e = Ok row →
  record_Actor (event_record id e) = actor_shown e ∧ record_Effective (event_record id e) = effective_shown e ∧
  ResourceLabel (event_record id e) =
    (if empty (ev_Resource e) then dash else ev_Resource e +:+ " #" +:+ Itoa (ev_ResourceID e))%string.
Proof.
  intros H. unfold audit_entry in H. cbv zeta in H. inv_ok.
  unfold record_Actor, record_Effective, actor_shown, effective_shown, identityView, event_record, ResourceLabel. cbn.
  split_and!.
  - destruct (Actor (ev_Attribution e)) as [i|] eqn:Ei.
    + match goal with H : validateIdentity (Some i) = _ |- _ => by rewrite (identity_named i _ H) end.
    + cbn. destruct (empty (SystemActor _)) eqn:Es; cbn [negb]; [|done]. cbn [andb].
      destruct (seqb _ "auth.registration"); [done|]. by destruct (seqb _ "admin.bootstrap").
  - destruct (Effective (ev_Attribution e)) as [i|] eqn:Ei; [|done]. cbn. match goal with H : validateIdentity (Some i) = _ |- _ => by rewrite (identity_named i _ H) end.
  - destruct (empty (ev_Resource e)) eqn:Er; [done|]. done.
Qed.
Lemma metadata_shown r body : rec_Metadata r = body → body ≠ [] →
  compact_bytes false false (MetadataText r) = compact_bytes false false body.
Proof.
  intros <- Hne. unfold MetadataText. rewrite bool_decide_eq_false_2 by done.
  destruct (Indent (rec_Metadata r)) as [text|] eqn:E; [by apply Indent_compact|done].
Qed.
End Facts.

(** ** Properties *)

(** The pages of the history are the history.  Whatever number is asked for, a
    page of the history is shown, of at most fifty events; its links lead to its
    neighbours; and the pages one after the other are all the events of the action,
    each once, the newest first. *)
Theorem history_pages ids json_column wanted d :
  let all := history ids json_column (TrimSpace wanted) d in
  let count := Z.max ((Z.of_nat (length all) + 49) / 50) 1 in
  let rows n := match (service_List ids json_column wanted n (quiet d)).1 with Ok page => ap_Rows page | Fail _ => [] end in
  all ≡ₚ List.filter (of_action (TrimSpace wanted)) (record json_column <$> numbered ids d) ∧
  StronglySorted (λ a b, rec_CreatedAt b < rec_CreatedAt a ∨ rec_CreatedAt a = rec_CreatedAt b ∧ rec_ID b ≤ rec_ID a) all ∧
  (∀ n, ∃ page, (service_List ids json_column wanted n (quiet d)).1 = Ok page ∧ (length (ap_Rows page) ≤ 50)%nat ∧
     let info := ap_Pagination page in
     1 ≤ pg_Page info ≤ count ∧ (1 ≤ n ≤ count → pg_Page info = n) ∧
     Next info = (if pg_Page info <? count then pg_Page info + 1 else 0) ∧
     Previous info = (if 1 <? pg_Page info then pg_Page info - 1 else 0)) ∧
  List.concat (rows <$> ((λ i, Z.of_nat i + 1) <$> seq 0 (Z.to_nat count))) = all.
Proof.
  intros all count rows.
  assert (Hs : StronglySorted (λ a b, newest_first a b = true) all) by (apply SortStableFunc_sorted; [apply newest_total|apply newest_trans]).
  split; [apply SortStableFunc_perm|]. split; [|split].
  - induction Hs as [|a l _ IH Ha]; constructor; [done|]. eapply Forall_impl; [exact Ha|]. cbn. intros b. unfold newest_first. rewrite orb_true_iff, andb_true_iff, Z.ltb_lt, Z.eqb_eq, Z.leb_le. lia.
  - intros n. rewrite service_List_quiet. fold all. cbn [fst].
    destruct (page_numbers n (Z.of_nat (length all)) ltac:(lia)) as (H1 & H2 & H3 & H4 & H5). rewrite H3 in *.
    eexists. split; [reflexivity|]. cbn [ap_Rows ap_Pagination]. rewrite H2. split; [rewrite length_take; lia|].
    cbv zeta. fold count in H1, H4, H5. split_and!; [exact (proj1 H1)|exact (proj2 H1)|exact H4|exact H5|reflexivity].
  - etransitivity; [|apply (pages_concat 50 (Z.to_nat count) all); [lia|]].
    + f_equal. rewrite <- list_fmap_compose. apply list_fmap_ext. intros k i Hi.
      apply lookup_seq in Hi as [-> Hi]. cbn [compose]. unfold rows. rewrite service_List_quiet. fold all. cbn [fst ap_Rows].
      destruct (page_numbers (Z.of_nat (0 + k) + 1) (Z.of_nat (length all)) ltac:(lia)) as (H1 & H2 & H3 & H4 & H5).
      unfold Offset. rewrite H2, H4 by (fold count; lia). f_equal. f_equal. lia.
    + unfold count. pose proof (Z.div_mod (Z.of_nat (length all) + 49) 50 ltac:(lia)). pose proof (Z.mod_pos_bound (Z.of_nat (length all) + 49) 50 ltac:(lia)).
      lia.
Qed.

(** C27: an event that was appended can be read back whole.  Its page shows, under the
    number the table gave it, a record whose every field is that of the event: its
    action, its moment to the microsecond, the user and name of its actor and of the
    effective user, its resource, and its metadata as the column holds it.  The page
    names the actor and the effective user by those (a system actor by its name, the
    public or the system where the event has no actor), prints the metadata with
    nothing but white space between tokens changed, and the event heads the history
    unless another is as late. *)
Theorem event_shown ids json_column e w w' :
  AppendAlone e w = (Ok tt, w') →
  let d := dir (tables w') in
  let last := pred (length (audit_logs d)) in
  (∀ i j, (i < j <= last)%nat → ids i < ids j) → 0 < ids 0%nat → ids last < 2 ^ 64 →
  ∃ r, show_event ids json_column (Itoa (ids last)) (quiet d) = (Shown _ r, quiet d) ∧
    (let a := ev_Attribution e in
     rec_ID r = ids last ∧ rec_Action r = ev_Action e ∧ rec_CreatedAt r = datetime6 (ev_CreatedAt e) ∧
     rec_ActorUserID r = (identity_UserID <$> Actor a) ∧
     rec_ActorUsername r = (match Actor a with Some i => identity_Username i | None => SystemActor a end) ∧
     rec_EffectiveUserID r = (identity_UserID <$> Effective a) ∧
     rec_EffectiveUsername r = identity_name (Effective a) ∧
     rec_ResourceType r = ev_Resource e ∧
     rec_ResourceID r = (if empty (ev_Resource e) then None else Some (ev_ResourceID e)) ∧
     rec_Metadata r = (match ev_Metadata e with Some m => json_column (marshal_metadata m) | None => [] end)) ∧
    record_Actor r = actor_shown e ∧ record_Effective r = effective_shown e ∧
    ResourceLabel r = (if empty (ev_Resource e) then dash else ev_Resource e +:+ " #" +:+ Itoa (ev_ResourceID e))%string ∧
    (∀ m, ev_Metadata e = Some m → json_column (marshal_metadata m) ≠ [] →
       compact_bytes false false (MetadataText r) = compact_bytes false false (json_column (marshal_metadata m))) ∧
    (Forall (λ old, created_at old < datetime6 (ev_CreatedAt e)) (removelast (audit_logs d)) →
       head (history ids json_column EmptyString d) = Some r).
Proof.
  intros H d last Hids H0 Hlast. apply AppendAlone_Ok in H as (row & d0 & Hrow & Hd). fold d in Hd.
  assert (Hl : audit_logs d = audit_logs d0 ++ [row]) by (by rewrite Hd).
  assert (Hn : last = length (audit_logs d0)) by (unfold last; rewrite Hl, length_app; cbn; lia).
  rewrite Hn in Hids, Hlast |- *. set (n := ids (length (audit_logs d0))).
  pose proof (entry_record json_column e row n Hrow) as Hr.
  assert (Hc : created_at row = datetime6 (ev_CreatedAt e)) by exact (f_equal rec_CreatedAt Hr).
  destruct (entry_views json_column e row n Hrow) as (Ha & He & Hres).
  exists (event_record json_column n e). split; [rewrite <- Hr; by eapply newest_shown|]. split; [by split_and!|].
  split; [exact Ha|]. split; [exact He|]. split; [exact Hres|].
  split; [|intros Hold; rewrite <- Hr; apply newest_heads; [done|]; rewrite Hc; by rewrite Hl, removelast_last in Hold].
  intros m Em Hne. apply metadata_shown; [|done]. unfold event_record. cbn. by rewrite Em.
Qed.

Definition example_event : Event :=
  {| ev_Attribution := {| Actor := None; Effective := None; SystemActor := "system:snapshot" |};
     ev_Action := "snapshot.refresh.succeeded"; ev_Resource := EmptyString; ev_ResourceID := 0;
     ev_Metadata := Some (SnapshotRefreshMetadata "scheduled" 1250 EmptyString); ev_CreatedAt := 63900000000 * 10 ^ 9 |}.
Definition example_tables : directory :=
  {| users := ∅; permissions := ∅; grants := ∅; sessions := ∅; audit_logs := []; next_user := 1; next_permission := 1;
     next_session := 1 |}.
Lemma event_shown_witness :
  let ids := fun i => 7 + 2 * Z.of_nat i in
  let w' := (AppendAlone example_event (quiet example_tables)).2 in
  ∃ r, show_event ids (fun l => l) "7" (quiet (dir (tables w'))) = (Shown _ r, quiet (dir (tables w'))) ∧
    iv_Label (record_Actor r) = "@system:snapshot"%string ∧ rec_Action r = "snapshot.refresh.succeeded"%string ∧
    iv_Label (record_Effective r) = "—"%string.
Proof.
  intros ids w'. destruct (event_shown ids (fun l => l) example_event (quiet example_tables) w') as (r & Hs & Hr & Ha & He & _).
  - vm_compute. reflexivity.
  - intros i j H. unfold ids. lia.
  - unfold ids. lia.
  - vm_compute. reflexivity.
  - exists r. split; [exact Hs|]. split; [by rewrite Ha|]. split; [by rewrite (proj1 (proj2 Hr))|]. by rewrite He.
Defined.
