(* ===== verification/AccessGuarantees.v ===== *)
(** The guarantees of access control: an active access manager always remains,
    permissions are replaced exactly, and a deactivated user is signed out. *)
From stdpp Require Import base list strings gmap sorting.
From Stdlib Require Import ZArith Lia Ascii.
From S2P Require Import Prelude GoStrings GoErrors Database GoSlices GoTime GoEncoding GoJSON Directory Access AccessFacts.
Local Open Scope Z_scope.

(** ** The start of the application *)

Lemma bootstrap_names_valid seen raws names :
  bootstrap_names seen raws = Ok names →
  Forall (λ n, NormalizeUsername n = n ∧ ValidateUsername n = Ok tt) names.
Proof.
  revert seen names. induction raws as [|raw rest IH]; intros seen names H; cbn [bootstrap_names] in H.
  - inv_ok. constructor.
  - cbv zeta in H. destruct (empty _); [by eapply IH|]. destruct (ValidateUsername _) as [[]|] eqn:Hv; [|done].
    case_bool_decide; [by eapply IH|]. inv_ok. constructor; [|by eapply IH].
    split; [apply valid_normalized|done].
Qed.

Lemma bootstrap_user_preserves p now name :
  NormalizeUsername name = name → ValidateUsername name = Ok tt → preserves (bootstrap_user p now name).
Proof.
  intros N V. unfold bootstrap_user. apply evolves_bind; [apply _|repeat call_step|]. intros o.
  apply evolves_bind; [apply _| |].
  - destruct o as [u|].
    + apply evolves_bind; [apply _| |intros; repeat call_step]. call_step. apply evolves_inside; [apply _|].
      intros d a d' [= <- <-]. by apply update_user_safe.
    + call_step. apply evolves_inside; [apply _|]. intros d a d'. by apply insert_user_safe.
  - intros id. apply evolves_bind; [apply _| |intros _; apply Append_preserves]. call_step.
    apply evolves_inside; [apply _|]. intros d a d'. apply insert_ignore_grant_safe.
Qed.
Lemma lift_bind {A B} (r : res A) (k : A → db access_db B) R `{!PreOrder R} :
  (∀ a, r = Ok a → evolves R (k a)) → evolves R (lift r ≫= k).
Proof. intros Hk w x w'. unfold mbind, db_bind, lift. destruct r as [a|e]; [by apply (Hk a)|by intros [= <- <-]]. Qed.
Lemma lock_preserves : preserves lockManagePermission.
Proof. unfold lockManagePermission. call_step. apply evolves_bind; [apply _|repeat call_step|]. intros o. repeat call_step. Qed.
Lemma sync_preserves d now : preserves (syncPermission d now).
Proof.
  unfold syncPermission. call_step. apply evolves_inside; [apply _|]. intros d0 a d' [= <- <-].
  apply upsert_permission_safe.
Qed.

Lemma establish_access_preserves definitions configured now : preserves (establish_access definitions configured now).
Proof.
  unfold establish_access. apply evolves_bind; [apply _|apply evolves_each; [apply _|intros; apply sync_preserves]|]. intros _.
  apply evolves_bind; [apply _|apply lock_preserves|]. intros p.
  apply evolves_bind; [apply _|unfold count_managers; repeat call_step|]. intros n.
  destruct (n =? 0); [|repeat call_step]. apply lift_bind; [apply _|]. intros names Hn.
  apply evolves_each; [apply _|]. intros name Hin. unfold bootstrapUsernames in Hn. inv_ok.
  match goal with H : bootstrap_names _ _ = _ |- _ => apply bootstrap_names_valid in H; rewrite Forall_forall in H;
    apply H in Hin as [] end. by apply bootstrap_user_preserves.
Qed.
Lemma Bootstrap_preserves definitions configured now : preserves (Bootstrap definitions configured now).
Proof.
  unfold Bootstrap. apply evolves_bind; [apply _|repeat call_step|]. intros _.
  apply evolves_exclusively; [apply _|]. intros w a w'. apply (establish_access_preserves definitions configured now).
Qed.

(** Granting one configured user the permission makes a manager. *)
Lemma bootstrap_user_manages p now name w u w' :
  NormalizeUsername name = name → ValidateUsername name = Ok tt → well_formed (dir (tables w)) →
  permission_id (dir (tables w)) PermissionManage = Some p →
  bootstrap_user p now name w = (Ok u, w') → managed (dir (tables w')).
Proof.
  intros N V Hwf Hp H. unfold bootstrap_user in H.
  apply db_bind_Ok in H as (o & w1 & H1 & H). apply wrapped_Ok, select_Ok in H1 as [-> E1].
  apply db_bind_Ok in H as (id & w2 & H2 & H).
  apply db_bind_Ok in H as (? & w3 & H3 & H). apply wrapped_Ok, inside_Ok in H3 as (d3 & H3 & E3).
  apply Append_Ok in H as (row & _ & ->). rewrite E3. apply (managed_frame d3); [done..|].
  assert (∃ row, users (dir (tables w2)) !! id = Some row ∧ IsActive row = true ∧
            permissions (dir (tables w2)) = permissions (dir (tables w))) as (row2 & Hu & Ha & Hperm).
  { destruct (user_named (dir (tables w)) name) as [v|] eqn:Hv.
    - apply user_named_Some in Hv as (i & Hi & _). apply db_bind_Ok in H2 as (? & w4 & H4 & H2).
      apply wrapped_Ok, change_Ok in H4. injection H2 as <- <-. rewrite H4, E1. cbn [dir].
      destruct (wf_users _ Hwf _ _ Hi) as [-> _]. unfold update_user. rewrite Hi. cbn. rewrite lookup_insert_eq. by eexists.
    - apply wrapped_Ok, inside_Ok in H2 as (d2 & H2 & ->). rewrite E1 in H2. unfold insert_user in H2. rewrite Hv in H2.
      injection H2 as <- <-. cbn. rewrite lookup_insert_eq. by eexists. }
  rewrite <- (permission_id_frame _ (dir (tables w2))) in Hp by done.
  apply permission_id_Some in Hp as (perm & Hpp & Hk).
  unfold insert_ignore_grant, insert_grant in H3. case_bool_decide as Hg.
  - injection H3 as _ <-. by exists id, p, row2, perm.
  - rewrite !bool_decide_eq_true_2 in H3 by (by eexists). injection H3 as _ <-.
    exists id, p, row2, perm. split_and!; [|done..]. cbn. set_solver.
Qed.

Lemma evolves_safe_inside {A} (c : db access_db A) w a w' :
  preserves c → Forall (respects safe) (others (tables w)) → c w = (Ok a, w') →
  safe (dir (tables w)) (dir (tables w')) ∧ Forall (respects safe) (others (tables w')).
Proof. intros Hc Ho H. by apply (Hc w (Ok a) w'). Qed.

Lemma establish_access_manages definitions configured now w u w' :
  well_formed (dir (tables w)) → Forall (respects safe) (others (tables w)) →
  establish_access definitions configured now w = (Ok u, w') → managed (dir (tables w')).
Proof.
  intros Hwf Ho H. unfold establish_access in H.
  apply db_bind_Ok in H as (? & w4 & H4 & H).
  destruct (evolves_safe_inside _ _ _ _ (evolves_each safe _ _ (λ d _, sync_preserves d now)) Ho H4) as [[Hc4 _] Ho4].
  destruct (Hc4 Hwf) as [Hwf4 _].
  apply db_bind_Ok in H as (p & w5 & H5%lockManagePermission_Ok & H). destruct H5 as [Hp E5].
  apply db_bind_Ok in H as (n & w6 & H6%count_managers_Ok & H). destruct H6 as [-> E6]. rewrite E5 in E6, H.
  destruct (managers (dir (tables w4)) p) as [|m l] eqn:Em; cbn [length] in H.
  - change (Z.of_nat 0 =? 0) with true in H. cbv iota in H.
    apply db_bind_Ok in H as (names & w7 & H7 & H). apply lift_Ok in H7 as [Hn ->]. unfold bootstrapUsernames in Hn. inv_ok.
    match goal with H : bool_decide _ = false |- _ => apply bool_decide_eq_false in H; rename H into Hne end.
    match goal with H : bootstrap_names _ _ = _ |- _ => apply bootstrap_names_valid in H; rename H into Hvalid end.
    destruct names as [|name names]; [done|]. inversion Hvalid as [|? ? [N V] Hvalid']; subst. cbn [each] in H.
    apply db_bind_Ok in H as (? & w8 & H8 & H). rewrite <- E6 in Hp, Hwf4, Ho4.
    destruct (evolves_safe_inside _ _ _ _ (bootstrap_user_preserves p now name N V) Ho4 H8) as [[Hc8 _] Ho8].
    destruct (Hc8 Hwf4) as [Hwf8 _]. apply bootstrap_user_manages in H8; [|done..].
    assert (Hrest : preserves (each (bootstrap_user p now) names)).
    { apply evolves_each; [apply _|]. intros n Hin. rewrite Forall_forall in Hvalid'. apply Hvalid' in Hin as [].
      by apply bootstrap_user_preserves. }
    destruct (evolves_safe_inside _ _ _ _ Hrest Ho8 H) as [[_ Hm] _]. by apply Hm.
  - replace (Z.of_nat _ =? 0) with false in H by (symmetry; apply Z.eqb_neq; lia). injection H as _ <-. rewrite E6.
    apply (managed_count _ p); [done..|]. by rewrite Em.
Qed.

(** Once the application has started, someone can manage access. *)
Lemma Bootstrap_manages definitions configured now w u w' :
  well_formed (dir (tables w)) → Forall (respects safe) (others (tables w)) →
  Bootstrap definitions configured now w = (Ok u, w') →
  well_formed (dir (tables w')) ∧ managed (dir (tables w')) ∧ Forall (respects safe) (others (tables w')).
Proof.
  intros Hwf Ho H. pose proof (Bootstrap_preserves _ _ _ _ _ _ H Ho) as [[Hc _] Ho'].
  destruct (Hc Hwf) as [Hwf' _]. split_and!; [done| |done]. unfold Bootstrap in H.
  apply db_bind_Ok in H as (? & w1 & H1 & H). apply wrapped_Ok, lift_Ok in H1 as [_ ->].
  apply db_bind_Ok in H as (? & w2 & H2 & H). pose proof (evolves_interfere safe _ _ _ H2 Ho) as [[Hc2 _] Ho2].
  destruct (Hc2 Hwf) as [Hwf2 _]. apply transaction_atomic in H as (rest & w3 & H & E3). rewrite E3.
  by eapply establish_access_manages; [..|exact H].
Qed.

(** ** The calls of the application on these tables *)

Lemma stays_replacement r user canonical selected now : stays_inside (replacement r user canonical selected now).
Proof.
  apply stays_bind; [apply stays_lock|]. intros p. apply stays_bind; [apply stays_lock_user|]. intros t.
  apply stays_bind; [apply stays_bind; [apply stays_lift|intros _; apply stays_wrapped, stays_select]|]. intros ids.
  apply stays_bind; [apply stays_lift|]. intros _.
  apply stays_bind; [apply stays_bind; [apply stays_lift|intros _; apply stays_wrapped, stays_select]|]. intros existing.
  apply stays_bind; [apply stays_lift|]. intros _.
  apply stays_bind; [apply stays_wrapped, stays_effect; intros d a d' [= <- <-]; apply delete_grants_consistent|]. intros _.
  apply stays_bind; [apply stays_each; intros key; apply stays_wrapped, stays_effect; intros d a d'; apply insert_grant_consistent|].
  intros _. apply stays_bind; [|intros _; destruct (permissionChanges _ _); apply stays_Append].
  destruct (IsActive t); [|apply stays_ret]. apply stays_bind; [apply stays_count|]. intros n.
  destruct (n =? 0); [apply stays_fail|apply stays_ret].
Qed.
Lemma ReplacePermissions_preserves definitions r user submitted now :
  ValidateRegistry definitions = Ok tt → preserves (ReplacePermissions definitions r user submitted now).
Proof.
  intros Hreg. unfold ReplacePermissions. apply lift_bind; [apply _|]. intros selected Hs.
  apply select_keys_Ok in Hs as (Hsel & _). unfold store_ReplacePermissions.
  apply evolves_exclusively; [apply _|]. intros w u w' H Ho. destruct (stays_replacement _ _ _ _ _ _ _ _ H) as [HO HC].
  split; [split; [done|]|by rewrite HO]. intros Hwf Hm. eapply replacement_Ok; [exact Hwf|by apply canonical_NoDup|exact Hsel|exact H|done].
Qed.
Lemma SetActive_preserves r user active now : preserves (SetActive r user active now).
Proof. unfold SetActive. apply evolves_check; [apply _|]. intros _. apply SetUserActive_preserves. Qed.

Inductive people_call :=
| Provision (username : string) (now : time)
| RecordLogin (id : Z) (now : time)
| OpenSession (user : Z) (token : string) (remember : bool) (expires seen now : time)
| TouchSession (id : Z) (now : time)
| EndSession (token : string)
| EndSessions (user : Z)
| Cleanup (now : time)
| Regrant (r : Requester) (user : Z) (submitted : list string) (now : time)
| Activation (r : Requester) (user : Z) (active : bool) (now : time)
| Note (e : Event)
| StartAgain (configuredManagers : string) (now : time).

Section Calls.
Variable definitions : list PermissionDefinition.

Definition discard {A} (c : db access_db A) (w : world access_db) : world access_db := snd (c w).
Definition perform (c : people_call) : world access_db → world access_db :=
  match c with
  | Provision username now => discard (FindOrCreateFromAuthenticatedUsername username now)
  | RecordLogin id now => discard (UpdateLastLoginAt id now)
  | OpenSession user token remember expires seen now => discard (CreateSession user (HashToken token) remember expires seen now)
  | TouchSession id now => discard (UpdateLastSeenAt id now)
  | EndSession token => discard (Revoke (HashToken token))
  | EndSessions user => discard (RevokeAllForUser user)
  | Cleanup now => discard (DeleteExpired now)
  | Regrant r user submitted now => discard (ReplacePermissions definitions r user submitted now)
  | Activation r user active now => discard (SetActive r user active now)
  | Note e => discard (AppendAlone e)
  | StartAgain configured now => discard (Bootstrap definitions configured now)
  end.
Definition run (calls : list people_call) (w : world access_db) : world access_db := fold_left (λ w c, perform c w) calls w.

Lemma discard_safe {A} (c : db access_db A) w :
  preserves c → Forall (respects safe) (others (tables w)) →
  safe (dir (tables w)) (dir (tables (discard c w))) ∧ Forall (respects safe) (others (tables (discard c w))).
Proof. intros Hc Ho. unfold discard. destruct (c w) as [r w'] eqn:E. by apply (Hc w r w'). Qed.

Hypothesis registry : ValidateRegistry definitions = Ok tt.

(** Every call is safe, whatever fails: this is what every call relies on from the others. *)
Lemma perform_safe c w :
  Forall (respects safe) (others (tables w)) →
  safe (dir (tables w)) (dir (tables (perform c w))) ∧ Forall (respects safe) (others (tables (perform c w))).
Proof.
  intros Ho. destruct c; apply discard_safe; try done.
  - apply FindOrCreate_preserves.
  - apply UpdateLastLoginAt_preserves.
  - exact (CreateSession_preserves _ _ _ _ _ _ (length_Sum256 (bytes token))).
  - apply change_preserves. intros d. apply touched_safe.
  - apply change_preserves. intros d. apply delete_sessions_safe.
  - apply change_preserves. intros d. apply delete_sessions_safe.
  - apply DeleteExpired_preserves.
  - by apply ReplacePermissions_preserves.
  - apply SetActive_preserves.
  - unfold AppendAlone. apply evolves_bind; [apply _|call_step|intros _; apply Append_preserves].
  - apply Bootstrap_preserves.
Qed.
Lemma run_safe calls w :
  Forall (respects safe) (others (tables w)) →
  safe (dir (tables w)) (dir (tables (run calls w))) ∧ Forall (respects safe) (others (tables (run calls w))).
Proof.
  revert w. induction calls as [|c calls IH]; intros w Ho; [by split|]. cbn.
  destruct (perform_safe c w Ho) as [S1 O1]. destruct (IH _ O1) as [S2 O2]. split; [by etrans|done].
Qed.
End Calls.

(** C2: once the application has started ([Bootstrap] succeeded), whatever calls
    follow, whatever fails in them and whatever other requests do between their
    statements, there is an active user who can manage access.  The tables stay
    consistent, users keep their names, and a session that has ended stays ended. *)
Theorem managers_remain definitions configured now calls w u w1 :
  well_formed (dir (tables w)) → Forall (respects safe) (others (tables w)) →
  ValidateRegistry definitions = Ok tt →
  Bootstrap definitions configured now w = (Ok u, w1) →
  let d := dir (tables (run definitions calls w1)) in
  well_formed d ∧ persistent (dir (tables w1)) d ∧
  ∃ id user, users d !! id = Some user ∧ IsActive user = true ∧ PermissionManage ∈ granted_keys d id.
Proof.
  intros Hwf Ho Hreg H d. apply Bootstrap_manages in H as (Hwf1 & Hm1 & Ho1); [|done..].
  destruct (run_safe definitions Hreg calls w1 Ho1) as [[HC HM] _]. fold d in HC, HM.
  destruct (HC Hwf1) as [Hwfd Hp]. split_and!; [done..|].
  destruct (HM Hwf1 Hm1) as (id & p & row & perm & Hg & Hu & Ha & Hpp & Hk). exists id, row. split_and!; [done..|].
  apply elem_of_granted_keys. by exists p, perm.
Qed.

(** C17: replacing the permissions of a user gives exactly the submitted ones among
    those that can be granted, leaves every other grant, user and session alone and
    records the difference; a call that fails changed nothing, or did all of this in
    a commit whose answer was lost. *)
Theorem ReplacePermissions_exact definitions r user submitted now w res w' :
  let d := dir (settle (tables w)) in
  well_formed d → ValidateRegistry definitions = Ok tt →
  ReplacePermissions definitions r user submitted now w = (res, w') →
  let d' := dir (tables w') in
  match res with
  | Ok _ => replaced (canonical_keys definitions) submitted r user now d d' ∧ ∀ key, key ∈ submitted → key ∈ canonical_keys definitions
  | Fail _ => d' = d ∨ d' = dir (tables w) ∨ replaced (canonical_keys definitions) submitted r user now d d'
  end.
Proof.
  intros d Hwf Hreg H d'. unfold ReplacePermissions in H.
  destruct (select_keys definitions ∅ submitted) as [selected|e] eqn:Hs.
  2: { assert (res = Fail e ∧ w' = w) as [-> ->] by (by injection H as <- <-). right. by left. }
  apply select_keys_Ok in Hs as (Hsel & H1 & H2).
  assert (Heq : ∀ key, key ∈ selected ↔ key ∈ submitted).
  { intros key. split; [apply H1|]. intros Hk. destruct (H2 key Hk) as [?|?]; [done|set_solver]. }
  assert (Hbody : ∀ rest u w1, replacement r user (canonical_keys definitions) selected now (World (settle (tables w)) rest) = (Ok u, w1) →
            tables w' = tables w1 → replaced (canonical_keys definitions) submitted r user now d d').
  { intros rest u w1 Hb E. apply replacement_Ok in Hb as [(Hr & Hrest) _]; [|done|by apply canonical_NoDup|done].
    unfold d'. rewrite E. split; [|done]. intros key. rewrite Hr. cbn. case_bool_decide; [apply Heq|done]. }
  change (transaction (Wrap "begin user permission replacement: %w") (Wrap "commit user permission replacement: %w")
            (replacement r user (canonical_keys definitions) selected now) (World (settle (tables w)) (faults w)) = (res, w')) in H.
  apply transaction_atomic in H. destruct res as [u|e].
  - destruct H as (rest & w1 & Hb & E). split; [by eapply Hbody|]. intros key Hk. by apply Hsel, Heq.
  - destruct H as [E|(u & rest & w1 & Hb & E)]; [left; unfold d'; by rewrite E|]. right. right. by eapply Hbody.
Qed.

(** ** Examples *)

Definition empty_directory : directory :=
  {| users := ∅; permissions := ∅; grants := ∅; sessions := ∅; audit_logs := []; next_user := 1; next_permission := 1;
     next_session := 1 |}.
Lemma empty_well_formed : well_formed empty_directory.
Proof. by constructor. Qed.
Definition start : world access_db := World {| dir := empty_directory; others := [] |} [].
Definition after_bootstrap : world access_db := snd (Bootstrap PermissionDefinitions "alice, bob" 1000000 start).
Definition alice : Requester :=
  {| req_UserID := 1; req_Username := "alice"; req_Permissions := NewPermissionSet [PermissionManage] |}.
Lemma after_bootstrap_Ok : Bootstrap PermissionDefinitions "alice, bob" 1000000 start = (Ok tt, after_bootstrap).
Proof. vm_compute. reflexivity. Qed.
Lemma registry_valid : ValidateRegistry PermissionDefinitions = Ok tt.
Proof. vm_compute. reflexivity. Qed.
Lemma after_bootstrap_settled : settle (tables after_bootstrap) = tables after_bootstrap.
Proof. vm_compute. reflexivity. Qed.
(** Both managers try to leave; the second one cannot. *)
Definition resignations : list people_call :=
  [Provision "carol" 2000000; Activation alice 1 false 3000000; Activation alice 2 false 4000000;
   Regrant alice 2 [] 5000000].

Lemma managers_remain_witness :
  let d := dir (tables (run PermissionDefinitions resignations after_bootstrap)) in
  (∃ id user, users d !! id = Some user ∧ IsActive user = true ∧ PermissionManage ∈ granted_keys d id) ∧
  fst (SetActive alice 2 false 4000000 (run PermissionDefinitions resignations after_bootstrap)) =
    Fail (Sentinel ErrLastAccessManager).
Proof.
  split; [|vm_compute; reflexivity].
  eapply (managers_remain PermissionDefinitions "alice, bob" 1000000 resignations start);
    [apply empty_well_formed|constructor|apply registry_valid|apply after_bootstrap_Ok].
Defined.

Lemma ReplacePermissions_exact_witness :
  let '(res, w') := ReplacePermissions PermissionDefinitions alice 2 ["lps.generate"; "access.manage"; "lps.generate"]%string 6000000 after_bootstrap in
  res = Ok tt ∧ replaced (canonical_keys PermissionDefinitions) ["lps.generate"; "access.manage"; "lps.generate"]%string alice 2 6000000
    (dir (settle (tables after_bootstrap))) (dir (tables w')).
Proof.
  pose proof (ReplacePermissions_exact PermissionDefinitions alice 2 ["lps.generate"; "access.manage"; "lps.generate"]%string
    6000000 after_bootstrap) as H.
  destruct (ReplacePermissions PermissionDefinitions alice 2 _ 6000000 after_bootstrap) as [res w'] eqn:E.
  assert (res = Ok tt) as ->.
  { change res with (fst (res, w')). rewrite <- E. vm_compute. reflexivity. }
  split; [reflexivity|].
  refine (proj1 (H (Ok tt) w' _ _ eq_refl)).
  - destruct (Bootstrap_manages PermissionDefinitions "alice, bob" 1000000 start tt after_bootstrap) as (Hwf & _);
      [apply empty_well_formed|constructor|apply after_bootstrap_Ok|].
    rewrite (after_bootstrap_settled). exact Hwf.
  - apply registry_valid.
Defined.
