(* ===== verification/BrowserAuth.v ===== *)
(** Signing in to the web interface, [internal/browserauth]: the lockout after
    failed logins, the login against Fincloud, sessions and their cookies, and the
    middleware that lets a request through.

    Fincloud is a parameter: [authenticate] answers a login attempt, and may depend
    on the attempts before.  The state of the process is the table of failed
    logins; [asked] records the attempts that reached Fincloud and when.  The 32
    random bytes of a token are an argument of [Login]. *)
From stdpp Require Import base list strings gmap.
From Stdlib Require Import ZArith Lia Ascii.
From S2P Require Import Prelude GoStrings GoErrors Database GoSlices GoTime GoEncoding GoJSON GoPath Directory Access.
Local Open Scope Z_scope.

(** ** Failed logins, [security.go] *)

(** [Time.Sub], which saturates *)
Definition Sub_time (t u : time) : Z := Z.max min_int64 (Z.min max_int64 (t - u)).

Record LockoutConfig := { Window : Z; MaxFailures : Z; Lockout : Z }.
Definition validate_lockout (c : LockoutConfig) : res unit :=
  fail_if ((Window c <=? 0) || (MaxFailures c <=? 0) || (Lockout c <=? 0)) (Msg "login lockout bounds must be positive").
Definition maxLoginFailureEntries : Z := 10000.

Record loginFailure := { count : Z; first : time; lockedUntil : time }.
Definition no_failure : loginFailure := {| count := 0; first := 0; lockedUntil := 0 |}.
Record loginFailures := { entries : gmap string loginFailure; window : Z; lockout : Z; max : Z; lastCleanup : time }.
Definition newLoginFailures (c : LockoutConfig) : loginFailures :=
  {| entries := ∅; window := Window c; lockout := Lockout c; max := MaxFailures c; lastCleanup := 0 |}.
Definition set_entries (f : loginFailures) (m : gmap string loginFailure) (cleaned : time) : loginFailures :=
  {| entries := m; window := window f; lockout := lockout f; max := max f; lastCleanup := cleaned |}.

(** An entry that [cleanup] deletes *)
Definition stale (f : loginFailures) (now : time) (e : loginFailure) : bool :=
  if negb (lockedUntil e =? 0) then negb (now <? lockedUntil e) else negb (now <? first e + window f).
Definition cleanup (now : time) (f : loginFailures) : loginFailures :=
  if Sub_time now (lastCleanup f) <? Z.min Minute (Z.min (window f) (lockout f)) then f else
  set_entries f (filter (fun kv => stale f now (kv.2) = false) (entries f)) now.
Definition blocked (username : string) (now : time) (f : loginFailures) : bool * loginFailures :=
  let f := cleanup now f in
  let entry := default no_failure (entries f !! username) in
  let f := if negb (lockedUntil entry =? 0) && negb (now <? lockedUntil entry)
           then set_entries f (delete username (entries f)) (lastCleanup f) else f in
  (now <? lockedUntil entry, f).
Definition fail (username : string) (now : time) (f : loginFailures) : loginFailures :=
  let f := cleanup now f in
  let entry := default no_failure (entries f !! username) in
  if now <? lockedUntil entry then f else
  let entry := if (first entry =? 0) || negb (now <? first entry + window f) || negb (lockedUntil entry =? 0)
               then {| count := 0; first := now; lockedUntil := 0 |} else entry in
  if negb (bool_decide (is_Some (entries f !! username))) && (maxLoginFailureEntries <=? Z.of_nat (size (entries f)))
  then f else
  let count := count entry + 1 in
  set_entries f (<[username := {| count := count; first := first entry;
                                  lockedUntil := if max f <=? count then now + lockout f else lockedUntil entry |}]>
                  (entries f)) (lastCleanup f).
Definition clear (username : string) (f : loginFailures) : loginFailures :=
  set_entries f (delete username (entries f)) (lastCleanup f).

(** ** The service, [service.go] *)

Definition LastSeenTouchInterval : Z := 5 * Minute.
Definition maxPasswordBytes : Z := 1024.

Record LoginInput := { li_Username : string; Password : string; LocationID : string; RoleID : string; li_RememberMe : bool }.
Record LoginResult := { RawToken : string; lr_Session : Session; lr_User : User; Provisioned : bool }.
Record Principal := {
  pr_UserID : Z; pr_Username : string; pr_Name : string; Permissions : PermissionSet; SessionID : Z; pr_RememberMe : bool
}.
Definition Can (p : Principal) (permission : string) : bool := Has (Permissions p) permission.
Definition SecurityContext (p : Principal) : Requester :=
  {| req_UserID := pr_UserID p; req_Username := pr_Username p; req_Permissions := Permissions p |}.

(** A password sent to Fincloud *)
Record attempt := { at_Username : string; at_Password : string; at_LocationID : string; at_RoleID : string; at_time : time }.
Record web := { failures : loginFailures; asked : list attempt }.

Section Service.
Variable unicode_lower : string → string.
Variable authenticate : list attempt → attempt → res unit.
Variables lifetime rememberLifetime : Z.

Definition NewService (lockout : LockoutConfig) : res web :=
  fail_if ((lifetime <=? 0) || (rememberLifetime <=? 0)) (Msg "session lifetimes must be positive");;
  validate_lockout lockout;;
  Ok {| failures := newLoginFailures lockout; asked := [] |}.

Definition throttleKey (username : string) : string := to_lower_with unicode_lower (NormalizeUsername (TrimSpace username)).

(** What follows a confirmed password *)
Definition sign_in (canonical : string) (remember : bool) (random : list ascii) (now : time) : db access_db LoginResult :=
  wrapped "authenticated Fincloud username is not a valid THOR identity: %w" (lift (ValidateUsername canonical));;
  '(u, provisioned) ← wrapped "find or provision authenticated user: %w"
                        (FindOrCreateFromAuthenticatedUsername canonical now);
  lift (fail_if (negb (IsActive u)) (Sentinel ErrInactiveUser));;
  let rawToken := GenerateToken random in
  let expires := now + (if remember then rememberLifetime else lifetime) in
  s ← wrapped "create browser session: %w" (CreateSession (user_ID u) (HashToken rawToken) remember expires now now);
  recover (UpdateLastLoginAt (user_ID u) now) (fun _ => mret tt);;   (* logged *)
  mret {| RawToken := rawToken; lr_Session := s; lr_User := u; Provisioned := provisioned |}.

Definition unusable (input : LoginInput) : bool :=
  empty (TrimSpace (li_Username input)) || empty (Password input) || (maxPasswordBytes <? slen (Password input)) ||
  empty (TrimSpace (LocationID input)) || empty (TrimSpace (RoleID input)).
Definition attempt_of (input : LoginInput) (now : time) : attempt :=
  {| at_Username := TrimSpace (li_Username input); at_Password := Password input; at_LocationID := LocationID input;
     at_RoleID := RoleID input; at_time := now |}.

Definition Login (input : LoginInput) (random : list ascii) (now : time) (s : web) (w : world access_db)
    : res LoginResult * web * world access_db :=
  if unusable input then (Fail (Sentinel ErrInvalidCredentials), s, w) else
  let canonical := NormalizeUsername (TrimSpace (li_Username input)) in
  let key := throttleKey (li_Username input) in
  let '(is_blocked, f) := blocked key now (failures s) in
  if is_blocked then (Fail (Sentinel ErrLoginThrottled), {| failures := f; asked := asked s |}, w) else
  let a := attempt_of input now in
  let log := asked s ++ [a] in
  match authenticate (asked s) a with
  | Fail e =>
      if Is e FincloudErrInvalidCredentials
      then (Fail (Sentinel ErrInvalidCredentials), {| failures := fail key now f; asked := log |}, w)
      else (Fail (Wrap "authenticate with Fincloud: %w" e), {| failures := f; asked := log |}, w)
  | Ok _ =>
      let '(r, w) := sign_in canonical (li_RememberMe input) random now w in
      (r, {| failures := clear key f; asked := log |}, w)
  end.
End Service.

Definition revokeUnauthenticated {A} (hash : list ascii) : db access_db A :=
  wrapped "revoke unusable session: %w" (Revoke hash);; db_fail (Sentinel ErrUnauthenticated).
(** The user of a session, or [None] when there is none any more *)
Definition session_user (id : Z) : db access_db (option User) :=
  recover (u ← FindByID id; mret (Some u))
    (fun e => if Is e UserErrNotFound then mret None else db_fail (Wrap "find session user: %w" e)).
Definition ResolveSession (hash : list ascii) (now : time) : db access_db Principal :=
  s ← recover (FindValidByTokenHash hash now)
        (fun e => db_fail (if Is e ErrSessionNotFound then Sentinel ErrUnauthenticated
                           else Wrap "find browser session: %w" e));
  o ← session_user (UserID s);
  match o with
  | Some u =>
      if negb (IsActive u) then revokeUnauthenticated hash else
      keys ← wrapped "list session user permissions: %w" (ListPermissionKeysForUser (user_ID u));
      (if LastSeenTouchInterval <=? Sub_time now (LastSeenAt s)
       then recover (UpdateLastSeenAt (session_ID s) now) (fun _ => mret tt)   (* logged *)
       else mret tt);;
      mret {| pr_UserID := user_ID u; pr_Username := Username u; pr_Name := Name u;
              Permissions := NewPermissionSet (keys ++ [PermissionLoanInquiry]); SessionID := session_ID s;
              pr_RememberMe := RememberMe s |}
  | None => revokeUnauthenticated hash
  end.
Definition Logout (hash : list ascii) : db access_db unit := wrapped "revoke browser session: %w" (Revoke hash).

(** ** Cookies, [cookie.go] *)

Inductive SameSite := Lax.
Record Cookie := {
  ck_Name : string; Value : string; ck_Path : string; HttpOnly : bool; Secure : bool; ck_SameSite : SameSite;
  Expires : option time; MaxAge : Z
}.
Record CookieManager := { cm_name : string; cm_secure : bool; cm_rememberLifetime : Z }.
Definition cookie (c : CookieManager) (value : string) (expires : option time) (age : Z) : Cookie :=
  {| ck_Name := cm_name c; Value := value; ck_Path := "/"; HttpOnly := true; Secure := cm_secure c; ck_SameSite := Lax;
     Expires := expires; MaxAge := age |}.
Definition Set_cookie (c : CookieManager) (rawToken : string) (remember : bool) (now : time) : Cookie :=
  if remember then cookie c rawToken (Some (now + cm_rememberLifetime c)) (Z.quot (cm_rememberLifetime c) Second)
  else cookie c rawToken None 0.
Definition SetForSession (c : CookieManager) (rawToken : string) (s : Session) (now : time) : Cookie :=
  if RememberMe s then cookie c rawToken (Some (ExpiresAt s)) (Z.max 1 (Z.quot (Sub_time (ExpiresAt s) now) Second))
  else cookie c rawToken None 0.
Definition Clear_cookie (c : CookieManager) : Cookie := cookie c "" (Some (unix_epoch * Second + Second)) (-1).

(** ** The middleware, [middleware.go] *)

Definition validToken (token : string) : bool :=
  (slen token =? base64_encoded_len (Z.of_nat TokenBytes)) &&
  match base64_decode (bytes token) with
  | Some decoded => (length decoded =? TokenBytes)%nat
  | None => false
  end.

(** [url.Parse] of a text that begins with one slash: there is no scheme and no
    host; the decoded path and fragment *)
Definition parse_rooted (target : list ascii) : option (list ascii * list ascii) :=
  let '(u, fragment, _) := cut_byte "#" target in
  if existsb control_byte u then None else
  let '(rest, _, _) := cut_byte "?" u in
  path ← unescape_bytes rest;
  fragment ← unescape_bytes fragment;
  Some (path, fragment).
Definition default_page : string := "/loans/inquiry".
Definition backslash : ascii := "\".
Definition SafeRedirect (target : string) : string :=
  let t := bytes target in
  if negb (has_prefix_bytes t (bytes "/")) || has_prefix_bytes t (bytes "//") || mem_byte backslash t then default_page else
  match parse_rooted t with
  | None => default_page
  | Some (path, fragment) =>
      if has_prefix_bytes path (bytes "//") || mem_byte backslash path || negb (bool_decide (fragment = []))
      then default_page else target
  end.

(** What the middleware knows of a request: the value of the session cookie, the
    request URI and whether it comes from htmx *)
Record http_request := { rq_cookie : option string; RequestURI : string; HX_Request : bool }.
Inductive reply (A : Type) :=
| Serve (a : A)                                        (* the next handler *)
| RedirectTo (location : string) (status : Z)
| HXRedirect (location : string)                       (* 401 with HX-Redirect *)
| Forbidden
| InternalError (e : err).
Arguments Serve {A} a.
Arguments RedirectTo {A} location status.
Arguments HXRedirect {A} location.
Arguments Forbidden {A}.
Arguments InternalError {A} e.

(** The principal of the request, and whether the cookie is cleared *)
Definition LoadPrincipal (r : http_request) (now : time) (w : world access_db)
    : reply (option Principal) * bool * world access_db :=
  match rq_cookie r with
  | None => (Serve None, false, w)
  | Some rawToken =>
      if negb (validToken rawToken) then (Serve None, true, w) else
      match ResolveSession (HashToken rawToken) now w with
      | (Ok p, w) => (Serve (Some p), false, w)
      | (Fail e, w) => if Is e ErrUnauthenticated then (Serve None, true, w) else (InternalError e, false, w)
      end
  end.
Definition login_location (r : http_request) : string :=
  ("/login?next=" +:+ QueryEscape (SafeRedirect (RequestURI r)))%string.
Definition RequireAuth (r : http_request) (p : option Principal) : reply Principal :=
  match p with
  | Some p => Serve p
  | None => if HX_Request r then HXRedirect (login_location r) else RedirectTo (login_location r) 303
  end.
Definition RequireGuest (p : option Principal) : reply unit :=
  match p with Some _ => RedirectTo default_page 303 | None => Serve tt end.
(** [internal/platform/adminshell] *)
Definition RequireAnyPermission (permissions : list string) (p : Principal) : reply Principal :=
  if existsb (Can p) permissions then Serve p else Forbidden.
Definition RequirePermission (permission : string) (p : Principal) : reply Principal := RequireAnyPermission [permission] p.

Definition then_reply {A B} (r : reply A) (k : A → reply B) : reply B :=
  match r with
  | Serve a => k a
  | RedirectTo l s => RedirectTo l s
  | HXRedirect l => HXRedirect l
  | Forbidden => Forbidden
  | InternalError e => InternalError e
  end.
(** The chain of [internal/server/router.go] before the handler of a route *)
Definition guarded_route (permission : string) (r : http_request) (now : time) (w : world access_db)
    : reply Principal * bool * world access_db :=
  let '(loaded, cleared, w) := LoadPrincipal r now w in
  (then_reply (then_reply loaded (RequireAuth r)) (RequirePermission permission), cleared, w).

(** ** The login page, [handler.go] *)

Inductive form_error := TooLarge | Malformed.
(** What [ParseForm] makes of a body of at most [maxFormBody] bytes *)
Definition form : Type := result form_error (string → string).
Record LoginForm := {
  form_Username : string; SelectedLocation : string; SelectedRole : string; form_RememberMe : bool; form_Next : string;
  Errors : gmap string string
}.
Inductive login_reply :=
| BadForm (status : Z)
| LoginPage_reply (status : Z) (f : LoginForm)
| SignedIn (location : string) (c : Cookie)
| SignedOut (location : string) (c : Cookie)
| LoginFailure (operation : string) (e : err).

Definition parseForm (f : form) : result login_reply (string → string) :=
  match f with
  | Ok values => Ok values
  | Fail TooLarge => Fail (BadForm 413)
  | Fail Malformed => Fail (BadForm 400)
  end.
Definition read_form (values : string → string) : LoginForm :=
  let username := TrimSpace (values "username"%string) in
  let location := TrimSpace (values "locationid"%string) in
  let role := TrimSpace (values "roleid"%string) in
  let password := values "password"%string in
  let missing := fun (c : bool) (field message : string) (m : gmap string string) => if c then <[field := message]> m else m in
  {| form_Username := username; SelectedLocation := location; SelectedRole := role;
     form_RememberMe := negb (empty (values "remember_me"%string)); form_Next := SafeRedirect (values "next"%string);
     Errors :=
       missing (empty role) "roleid"%string "select a Fincloud role"%string (
       missing (empty location) "locationid"%string "select a Fincloud location"%string (
       missing (negb (empty password) && (maxPasswordBytes <? slen password)) "password"%string "password is too long"%string (
       missing (empty password) "password"%string "password must not be empty"%string (
       missing (empty username) "username"%string "username must not be empty"%string ∅)))) |}.
Definition with_error (f : LoginForm) (field message : string) : LoginForm :=
  {| form_Username := form_Username f; SelectedLocation := SelectedLocation f; SelectedRole := SelectedRole f;
     form_RememberMe := form_RememberMe f; form_Next := form_Next f; Errors := <[field := message]> (Errors f) |}.

(** [loadLabels] and [renderLogin]: [labels] is what Fincloud answers *)
Definition login_page {L} (labels : res L) (status : Z) (f : LoginForm) : login_reply :=
  match labels with Ok _ => LoginPage_reply status f | Fail e => LoginFailure "load Fincloud login options" e end.
Definition LoginPage {L} (labels : res L) (next : string) : login_reply :=
  login_page labels 200
    {| form_Username := ""; SelectedLocation := ""; SelectedRole := ""; form_RememberMe := false;
       form_Next := SafeRedirect next; Errors := ∅ |}.

Definition appendBestEffortAudit (e : Event) : db access_db unit := recover (AppendAlone e) (fun _ => mret tt).
Definition no_attribution : Attribution := {| Actor := None; Effective := None; SystemActor := "" |}.
Definition self_attribution (id : Z) (username : string) : Attribution :=
  let identity := Some {| identity_UserID := id; identity_Username := username |} in
  {| Actor := identity; Effective := identity; SystemActor := "" |}.
Definition auth_event (a : Attribution) (act resource : string) (id : Z) (m : option Metadata) (now : time) : Event :=
  {| ev_Attribution := a; ev_Action := act; ev_Resource := resource; ev_ResourceID := id; ev_Metadata := m;
     ev_CreatedAt := now |}.
Definition login_refused (e : err) : bool := Is e ErrInvalidCredentials || Is e ErrInactiveUser || Is e ErrLoginThrottled.

Section Handler.
Variable unicode_lower : string → string.
Variable authenticate : list attempt → attempt → res unit.
Variables lifetime rememberLifetime : Z.
Variable cookies : CookieManager.

Definition handle_Login {L} (labels : res L) (f : form) (random : list ascii) (now : time) (s : web) (w : world access_db)
    : login_reply * web * world access_db :=
  match parseForm f with
  | Fail reply => (reply, s, w)
  | Ok values =>
      let page := read_form values in
      if negb (bool_decide (Errors page = ∅)) then (login_page labels 422 page, s, w) else
      let input := {| li_Username := form_Username page; Password := values "password"%string;
                      LocationID := SelectedLocation page; RoleID := SelectedRole page;
                      li_RememberMe := form_RememberMe page |} in
      match Login unicode_lower authenticate lifetime rememberLifetime input random now s w with
      | (Fail e, s, w) =>
          if login_refused e then
            let w := if Is e ErrLoginThrottled then w else
              snd (appendBestEffortAudit (auth_event no_attribution "auth.login.failed" "" 0
                     (Some (LoginFailedMetadata (form_Username page))) now) w) in
            (login_page labels 422 (with_error page "credentials"
               "Authentication failed. Check your Fincloud credentials, location, role, and THOR access."), s, w)
          else (LoginFailure "Fincloud login" e, s, w)
      | (Ok result, s, w) =>
          let u := lr_User result in
          let w := if Provisioned result then
              snd (appendBestEffortAudit (auth_event {| Actor := None; Effective := None; SystemActor := "system:fincloud-auth" |}
                     "user.auto_provisioned" ResourceUser (user_ID u) None now) w) else w in
          let w := snd (appendBestEffortAudit
                     (auth_event (self_attribution (user_ID u) (Username u)) "auth.login.success" ResourceUser (user_ID u) None now) w) in
          (SignedIn (form_Next page)
             (Set_cookie cookies (RawToken result) (RememberMe (lr_Session result)) (session_CreatedAt (lr_Session result))), s, w)
      end
  end.

Definition handle_Logout (raw : option string) (principal : option Principal) (now : time) (w : world access_db)
    : login_reply * world access_db :=
  match raw with
  | Some rawToken =>
      if negb (validToken rawToken) then (SignedOut "/login" (Clear_cookie cookies), w) else
      match Logout (HashToken rawToken) w with
      | (Fail e, w) => (LoginFailure "logout" e, w)
      | (Ok _, w) =>
          let w := match principal with
                   | Some p => snd (appendBestEffortAudit (auth_event (self_attribution (pr_UserID p) (pr_Username p))
                                      "auth.logout" ResourceUser (pr_UserID p) None now) w)
                   | None => w
                   end in
          (SignedOut "/login" (Clear_cookie cookies), w)
      end
  | None => (SignedOut "/login" (Clear_cookie cookies), w)
  end.
End Handler.
