(* ===== verification/LoanInquiry.v ===== *)
(** The pages of the loan inquiry, [internal/features/loaninquiry]: how a position is
    shown, the form and its errors, the event in the audit trail, the printed version.

    The position service is a parameter, as it is an interface in the code.  So are
    the text of an error with its arguments ([Error], which [err] does not keep) and
    the document that is made of a view ([render], see [LoanPDF]). *)
From stdpp Require Import base list strings gmap.
From Stdlib Require Import ZArith Lia Lqa Ascii QArith Qabs.
From S2P Require Import Prelude GoStrings GoErrors GoTime GoJSON GoPath Dates Money LoanModel Directory Calculator Position Api BrowserAuth.
Local Open Scope Z_scope.

(** ** Texts *)

Definition months : list string :=
  ["Jan"; "Feb"; "Mar"; "Apr"; "May"; "Jun"; "Jul"; "Aug"; "Sep"; "Oct"; "Nov"; "Dec"]%string.
(** [Time.Format] with "02 Jan 2006", for years 0 to 9999 *)
Definition day_month_year (y m d : Z) : string :=
  of_bytes (pad_left "0" 2 (itoa d) ++ " "%char :: bytes (nth (Z.to_nat (m - 1)) months EmptyString) ++
            " "%char :: pad_left "0" 4 (itoa y)).
Definition formatDate (date : Date) : string :=
  if Date_IsZero date then "-"%string else
  let '(y, m, d) := time_civil (Date_Time date (Some UTC)) UTC in day_month_year y m d.

(** The loop of [formatCurrency]; every round is three bytes nearer to the front *)
Fixpoint thousands (fuel : nat) (index : Z) (integer : list ascii) : list ascii :=
  match fuel with
  | O => integer
  | S fuel =>
      if 0 <? index
      then thousands fuel (index - 3) (take (Z.to_nat index) integer ++ ","%char :: drop (Z.to_nat index) integer)
      else integer
  end.
Definition formatCurrency (value : Money) : string :=
  let '(integer, decimal, _) := cut_byte "." (bytes (Format value 2)) in
  let negative := has_prefix_bytes integer ["-"%char] in
  let sign := if negative then ["-"%char] else [] in
  let integer := if negative then drop 1 integer else integer in
  of_bytes (bytes "Rp " ++ sign ++ thousands (length integer) (Z.of_nat (length integer) - 3) integer ++ "."%char :: decimal).
Definition formatRate (value : Money) : string := (Format value 2 +:+ "%")%string.
Definition displayText (value : string) : string :=
  let value := TrimSpace value in if empty value then "-"%string else value.
Fixpoint firstNonEmpty (values : list string) : string :=
  match values with
  | [] => EmptyString
  | value :: rest => if empty (TrimSpace value) then firstNonEmpty rest else value
  end.

(** ** The view of a position *)

Record ScheduleRowView := {
  sr_Number : Z; sr_Date : string; sr_Installment : string; sr_Principal : string; sr_Interest : string;
  sr_Outstanding : string; sr_Status : string
}.
Record ResultView := {
  ReportingDate : string; PeriodLabel : string; CustomerName : string; view_PrimaryAccount : string;
  view_AlternateAccount : string; view_Branch : string; view_Product : string; LoanPeriod : string;
  InstallmentSummary : string; view_PrincipalOutstanding : string; view_PrincipalDue : string; view_InterestDue : string;
  view_PenaltyDue : string; ContractPrincipal : string; ReferenceRate : string; FlatRate : string;
  Collectability : string; EarlyTerminationEstimate : string; IsReconstructed : bool; PrintURL : string;
  ScheduleRows : list ScheduleRowView
}.

Definition evidence (resolved : ResolvedPosition) : list ContractualInstallmentEvidence :=
  default [] (cd_ContractScheduleEvidence (rv_Loan resolved)).
(** The date of the first row of evidence with number 0 that has one *)
Fixpoint disbursement (rows : list ContractualInstallmentEvidence) : Date :=
  match rows with
  | [] => ZeroDate
  | row :: rest =>
      if negb (ev_Number row =? 0) then disbursement rest else
      let raw := TrimSpace (ev_RawDueDate row) in
      let raw := if 10 <=? slen raw then of_bytes (take 10 (bytes raw)) else raw in
      match ParseDate raw (Some UTC) with Ok date => date | Fail _ => disbursement rest end
  end.
Definition loanStartDate (resolved : ResolvedPosition) : Date :=
  if negb (Date_IsZero (lp_LoanStartDate (rv_Position resolved))) then lp_LoanStartDate (rv_Position resolved)
  else disbursement (evidence resolved).
Definition contractualDueDates (resolved : ResolvedPosition) : list Date :=
  match rv_ContractualSchedule resolved with
  | [] => ci_DueDate <$> cd_ContractSchedule (rv_Loan resolved)
  | rows => row_DueDate <$> rows
  end.

(** The monthly principal and interest *)
Definition perPeriod (resolved : ResolvedPosition) : res (Money * Money) :=
  let loan := rv_Loan resolved in
  if bool_decide (lp_Source (rv_Position resolved) = Some SourceReconstructed) then
    match rv_ContractualSchedule resolved with
    | [] => Fail (errorf ErrInvariant "%w: reconstructed contractual schedule is empty")
    | row :: _ => Ok (row_Principal row, row_Interest row)
    end
  else
    principal ← DivInt (cd_PlafondLimit loan) (cd_TenorMonths loan);
    interest ← DivInt (Mul (cd_PlafondLimit loan) (cd_FlatRatePercent loan)) 1200;
    Ok (principal, interest).
Definition payment_statuses (rows : list ContractualInstallmentEvidence) : gmap Z string :=
  foldl (fun statuses row => <[ev_Number row := ev_RawPaymentStatus row]> statuses) ∅ rows.
Definition disbursedRow (plafond : Money) (startDate : Date) : ScheduleRowView :=
  {| sr_Number := 0; sr_Date := formatDate startDate; sr_Installment := formatCurrency MoneyZero;
     sr_Principal := formatCurrency MoneyZero; sr_Interest := formatCurrency MoneyZero;
     sr_Outstanding := formatCurrency plafond; sr_Status := "DISBURSED" |}.
Definition scheduleRow (statuses : gmap Z string) (row : ContractualScheduleRow) : ScheduleRowView :=
  {| sr_Number := row_Number row; sr_Date := formatDate (row_DueDate row); sr_Installment := formatCurrency (row_Installment row);
     sr_Principal := formatCurrency (row_Principal row); sr_Interest := formatCurrency (row_Interest row);
     sr_Outstanding := formatCurrency (row_ScheduledBalance row);
     sr_Status := displayText (default EmptyString (statuses !! row_Number row)) |}.
Definition scheduleRows (resolved : ResolvedPosition) : list ScheduleRowView :=
  let startDate := loanStartDate resolved in
  (if negb (Date_IsZero startDate) then [disbursedRow (cd_PlafondLimit (rv_Loan resolved)) startDate] else []) ++
  (scheduleRow (payment_statuses (evidence resolved)) <$> rv_ContractualSchedule resolved).
Definition installmentSummary (resolved : ResolvedPosition) (asOf : Date) : string :=
  let dueDates := contractualDueDates resolved in
  if bool_decide (dueDates = []) then "-"%string else
  (Itoa (Z.of_nat (length (List.filter (fun dueDate => negb (After dueDate asOf)) dueDates))) +:+ " dari " +:+
   Itoa (Z.of_nat (length dueDates)))%string.
Definition loanPeriod (resolved : ResolvedPosition) : string :=
  let startDate := loanStartDate resolved in
  match last (contractualDueDates resolved) with
  | Some final =>
      if negb (Date_IsZero startDate) && (0 <? cd_TenorMonths (rv_Loan resolved))
      then (formatDate startDate +:+ " | " +:+ Itoa (cd_TenorMonths (rv_Loan resolved)) +:+ " bln | " +:+ formatDate final)%string
      else "-"%string
  | None => "-"%string
  end.
(** [url.Values.Encode] of the two parameters, which sorts their names *)
Definition printURL (requestedAccount : string) (asOf : Date) : string :=
  ("/loans/inquiry/pdf?account=" +:+ QueryEscape requestedAccount +:+ "&as_of=" +:+ QueryEscape (Date_String asOf))%string.

Definition newResultView (resolved : ResolvedPosition) (requestedAccount : string) (asOf : Date) : res ResultView :=
  '(principalPerPeriod, interestPerPeriod) ← perPeriod resolved;
  let early := Mul (Add principalPerPeriod interestPerPeriod) (MoneyFromInt 6) in
  let loan := rv_Loan resolved in let position := rv_Position resolved in let actual := rv_ActualPosition resolved in
  Ok {| ReportingDate := Date_String asOf; PeriodLabel := "Periode " +:+ formatDate asOf;
        CustomerName := displayText (cd_CustomerName loan);
        view_PrimaryAccount := displayText (firstNonEmpty [cd_PrimaryAccount loan; lp_AccountNumber position]);
        view_AlternateAccount := displayText (cd_AlternateAccount loan);
        view_Branch := displayText (firstNonEmpty [cd_Branch loan; lp_Branch position]);
        view_Product := displayText (firstNonEmpty [cd_Product loan; lp_Product position]);
        LoanPeriod := loanPeriod resolved; InstallmentSummary := installmentSummary resolved asOf;
        view_PrincipalOutstanding := formatCurrency (lp_PrincipalOutstanding position);
        view_PrincipalDue := formatCurrency (lp_PrincipalDue actual); view_InterestDue := formatCurrency (lp_InterestDue actual);
        view_PenaltyDue := formatCurrency (lp_PenaltyDue actual); ContractPrincipal := formatCurrency (cd_PlafondLimit loan);
        ReferenceRate := formatRate (cd_ReferenceRatePercent loan); FlatRate := formatRate (cd_FlatRatePercent loan);
        Collectability := Itoa (lp_CollectabilityBI position); EarlyTerminationEstimate := formatCurrency early;
        IsReconstructed := bool_decide (lp_Source position = Some SourceReconstructed);
        PrintURL := printURL requestedAccount asOf; ScheduleRows := scheduleRows resolved |}%string.

(** ** The handlers *)

Record PageData := { pd_Account : string; pd_AsOf : string; pd_Error : string; pd_Result : option ResultView }.
Inductive inquiry_reply :=
| PlainError (status : Z) (message : string)
| InquiryPage (status : Z) (data : PageData)
| PDFDocument (filename : string) (document : list ascii).

Definition banking_services : list sentinel :=
  [ErrFincloudCredentials; ErrFincloudSession; ErrFincloudUnavailable; ErrDWHUnavailable; ErrMSOUnavailable].

(** [safeFilenamePart]: the bytes written so far, the last one first *)
Definition filename_byte (c : ascii) : bool :=
  ((97 <=? code c) && (code c <=? 122)) || ((65 <=? code c) && (code c <=? 90)) || is_digit c || beq c "-" || beq c "_".
Fixpoint filename_runes (written : list ascii) (runes : list (option (list ascii))) : list ascii :=
  match runes with
  | [] => rev written
  | rune :: rest =>
      let other := match written with
                   | [] => written
                   | c :: _ => if beq c "-" then written else "-"%char :: written
                   end in
      match rune with
      | Some [c] => filename_runes (if filename_byte c then c :: written else other) rest
      | _ => filename_runes other rest
      end
  end.
Definition safeFilenamePart (value : string) : string :=
  let result := trim_right_byte "-" (rev (trim_right_byte "-" (rev (filename_runes [] (utf8_runes (bytes (TrimSpace value))))))) in
  if bool_decide (result = []) then "account"%string else of_bytes result.

Section Handler.
Variable Error : err → string.
Variable positions : string → Date → res ResolvedPosition.
Variable render : ResultView → time → res (list ascii).
Variable location : Location.

Definition inquiryError (e : err) : Z * string :=
  if Is e ErrInvalidInput then (StatusUnprocessableEntity, Error e) else
  if Is e ErrUnsupportedCalculation then
    (StatusUnprocessableEntity, "Contractual reconstruction is not supported for this account."%string) else
  if Is e ErrAmbiguousAccountResolution then (StatusConflict, "Alternate account resolves to multiple primary accounts."%string) else
  if Is e ErrCurrentSnapshot then (StatusServiceUnavailable, "Current-day snapshot is unavailable."%string) else
  if Is e ErrHistoricalEvidence then (StatusServiceUnavailable, "Required historical evidence is unavailable."%string) else
  if existsb (Is e) banking_services then (StatusServiceUnavailable, "Required banking service is unavailable."%string) else
  if Is e ErrNotFound then (StatusNotFound, "Loan account was not found."%string) else
  (StatusInternalServerError, "Loan inquiry failed."%string).

Definition resolveResult (account : string) (asOf : Date) : res (ResolvedPosition * ResultView) :=
  resolved ← positions account asOf;
  view ← newResultView resolved account asOf;
  Ok (resolved, view).

(** The event for the user of the request, whose append is only logged when it fails *)
Definition auditInquiry (principal : option Principal) (now : time) (resolved : ResolvedPosition) (asOf : Date) : option Event :=
  principal ← principal;
  let identity := {| identity_UserID := pr_UserID principal; identity_Username := pr_Username principal |} in
  Some {| ev_Attribution := {| Actor := Some identity; Effective := Some identity; SystemActor := EmptyString |};
          ev_Action := "loan.inquiry"; ev_Resource := EmptyString; ev_ResourceID := 0;
          ev_Metadata := Some (LoanInquiryMetadata (lp_AccountNumber (rv_Position resolved)) (Date_String asOf)
                                 (source_name (lp_Source (rv_Position resolved))));
          ev_CreatedAt := now |}.

Definition Index (now : time) : inquiry_reply :=
  InquiryPage StatusOK {| pd_Account := EmptyString; pd_AsOf := Date_String (NewDate now (Some location));
                          pd_Error := EmptyString; pd_Result := None |}.

Definition Inquiry (principal : option Principal) (now : time) (f : form) : inquiry_reply * option Event :=
  match f with
  | Fail _ => (PlainError StatusBadRequest "Bad Request", None)
  | Ok values =>
      let account := TrimSpace (values "account_number"%string) in
      let as_of := TrimSpace (values "as_of"%string) in
      let page := fun message result => {| pd_Account := account; pd_AsOf := as_of; pd_Error := message; pd_Result := result |} in
      match ParseDate as_of (Some location) with
      | Ok asOf =>
          if empty account
          then (InquiryPage StatusUnprocessableEntity (page "Enter an account number and valid reporting date."%string None), None) else
          match resolveResult account asOf with
          | Fail e =>
              let '(status, message) := inquiryError e in
              (InquiryPage status (page (message +:+ " " +:+ Error e)%string None), None)
          | Ok (resolved, view) =>
              (InquiryPage StatusOK (page EmptyString (Some view)), auditInquiry principal now resolved asOf)
          end
      | Fail _ => (InquiryPage StatusUnprocessableEntity (page "Enter an account number and valid reporting date."%string None), None)
      end
  end.

(** [query] is the raw query of the address. *)
Definition PDF (now : time) (query : string) : inquiry_reply :=
  let required := PlainError StatusUnprocessableEntity "Account and reporting date are required." in
  match query_values "account" (ParseQuery query), query_values "as_of" (ParseQuery query) with
  | [account], [as_of] =>
      let account := TrimSpace account in
      match ParseDate (TrimSpace as_of) (Some location) with
      | Ok asOf =>
          if empty account then required else
          match resolveResult account asOf with
          | Fail e => let '(status, message) := inquiryError e in PlainError status message
          | Ok (_, view) =>
              match render view now with
              | Fail _ => PlainError StatusInternalServerError "Internal Server Error"
              | Ok document =>
                  PDFDocument ("jadwal-pembayaran-" +:+ safeFilenamePart account +:+ "-" +:+ Date_String asOf +:+ ".pdf")%string document
              end
          end
      | Fail _ => required
      end
  | _, _ => required
  end.
End Handler.

(** ** What the PDF shows, [pdf.go] *)

Definition formatPDFReportingDate (view : ResultView) : string :=
  if HasPrefix (PeriodLabel view) "Periode " then TrimPrefix (PeriodLabel view) "Periode " else ReportingDate view.
(** The cells of a row of the table *)
Definition pdf_cells (row : ScheduleRowView) : list string :=
  [Itoa (sr_Number row); sr_Date row; sr_Installment row; sr_Principal row; sr_Interest row; sr_Outstanding row; sr_Status row].

(** ** Amounts *)

Lemma join_snoc sep head groups last : join_bytes [sep] (head :: groups ++ [last]) = join_bytes [sep] (head :: groups) ++ sep :: last.
Proof.
  revert head. induction groups as [|g groups IH]; intros head; [done|].
  change (join_bytes [sep] (head :: (g :: groups) ++ [last])) with (head ++ sep :: join_bytes [sep] (g :: groups ++ [last])).
  rewrite IH. change (join_bytes [sep] (head :: g :: groups)) with (head ++ sep :: join_bytes [sep] (g :: groups)). by rewrite <- app_assoc.
Qed.
Definition grouping (l head : list ascii) (groups : list (list ascii)) : Prop :=
  l = head ++ List.concat groups ∧ (1 <= length head <= 3)%nat ∧ Forall (λ g, length g = 3%nat) groups.
Lemma thousands_groups fuel l tail : l ≠ [] → (length l ≤ fuel)%nat →
  ∃ head groups, grouping l head groups ∧
    thousands fuel (Z.of_nat (length l) - 3) (l ++ tail) = join_bytes [","%char] (head :: groups) ++ tail.
Proof.
  revert l tail. induction fuel as [|fuel IH]; intros l tail Hne Hl; [destruct l; [done|cbn in Hl; lia]|]. cbn [thousands].
  destruct (Z.ltb_spec 0 (Z.of_nat (length l) - 3)) as [Hlt|Hge].
  - set (n := Z.to_nat (Z.of_nat (length l) - 3)). assert (n = length l - 3)%nat as Hn by lia.
    destruct (IH (take n l) (","%char :: drop n l ++ tail)) as (head & groups & (Hd & Hh & Hg) & E).
    { intros H. apply (f_equal length) in H. rewrite length_take in H. cbn in H. lia. }
    { rewrite length_take. lia. }
    exists head, (groups ++ [drop n l]). split.
    + split; [|split; [done|]].
      * rewrite concat_app. cbn [List.concat]. by rewrite app_nil_r, app_assoc, <- Hd, take_drop.
      * apply Forall_app. split; [done|]. constructor; [|done]. rewrite length_drop. lia.
    + rewrite take_app_le, drop_app_le by lia. rewrite join_snoc, <- app_assoc. cbn [app]. rewrite <- E. f_equal. rewrite length_take. lia.
  - exists l, []. split; [|done]. split; [by rewrite app_nil_r|]. split; [|done]. destruct l; [done|]. cbn in *. lia.
Qed.

Definition no_comma (c : ascii) : bool := negb (beq c ",").
Lemma digits_no_comma l : forallb is_digit l = true → List.filter no_comma l = l.
Proof.
  induction l as [|c l IH]; [done|]. cbn [forallb List.filter]. intros [Hc Hl]%andb_true_iff. rewrite (IH Hl).
  unfold no_comma. destruct (beq c ",") eqn:E; [by apply beq_eq in E as ->|done].
Qed.
Lemma filter_join groups : List.filter no_comma (join_bytes [","%char] groups) = List.concat (List.filter no_comma <$> groups).
Proof.
  induction groups as [|g groups IH]; [done|]. destruct groups as [|g' groups]; [cbn; by rewrite app_nil_r|].
  change (join_bytes [","%char] (g :: g' :: groups)) with (g ++ [","%char] ++ join_bytes [","%char] (g' :: groups)).
  rewrite !List.filter_app, IH. done.
Qed.
Lemma digits_groups l head groups : grouping l head groups → forallb is_digit l = true →
  List.concat (List.filter no_comma <$> head :: groups) = l.
Proof.
  intros (-> & _ & _). rewrite forallb_app, fmap_cons. intros [Hh Hg]%andb_true_iff. cbn [List.concat]. rewrite digits_no_comma by done.
  f_equal. induction groups as [|g groups IH]; [done|]. cbn [List.concat] in Hg. rewrite forallb_app in Hg. apply andb_true_iff in Hg as [Hg1 Hg2].
  rewrite fmap_cons. cbn [List.concat]. by rewrite digits_no_comma, IH.
Qed.

Lemma Format_parts m : ∃ negative whole cents,
  bytes (Format m 2) = sign_bytes negative ++ whole ++ "."%char :: cents ∧ whole ≠ [] ∧ length cents = 2%nat ∧
  forallb is_digit whole = true ∧ forallb is_digit cents = true.
Proof.
  destruct (float_string_shape 2 (rat m)) as (q & r & Hq & Hr & _ & E). exists (Qnum (rat m) <? 0), (utoa q), (pad_left "0" 2 (utoa r)).
  unfold Format. rewrite bytes_of_bytes. change (Z.to_nat (if 2 <? 0 then 0 else 2)) with 2%nat. rewrite E. split; [done|].
  split; [by apply utoa_nonempty|]. split.
  - rewrite length_pad. pose proof (utoa_length r 1 Hr). lia.
  - split; [by apply utoa_digits|]. apply pad_digits, utoa_digits. lia.
Qed.
Lemma formatCurrency_parts m : ∃ negative whole cents head groups,
  bytes (Format m 2) = sign_bytes negative ++ whole ++ "."%char :: cents ∧ length cents = 2%nat ∧
  forallb is_digit whole = true ∧ forallb is_digit cents = true ∧ grouping whole head groups ∧
  bytes (formatCurrency m) = bytes "Rp " ++ sign_bytes negative ++ join_bytes [","%char] (head :: groups) ++ "."%char :: cents.
Proof.
  destruct (Format_parts m) as (negative & whole & cents & E & Hne & Hlen & Hw & Hc).
  destruct (thousands_groups (length whole) whole [] Hne ltac:(lia)) as (head & groups & Hg & Ht). rewrite !app_nil_r in Ht.
  exists negative, whole, cents, head, groups. split_and!; try done. unfold formatCurrency. rewrite E, app_assoc, cut_byte_found.
  2: { rewrite mem_byte_app. rewrite (mem_byte_digits "." whole); [by destruct negative|reflexivity|done]. }
  rewrite bytes_of_bytes. destruct negative; cbn [sign_bytes app].
  - change (has_prefix_bytes ("-"%char :: whole) ["-"%char]) with (has_prefix_bytes whole []). replace (has_prefix_bytes whole []) with true by by destruct whole.
    cbv iota. cbn [drop]. rewrite drop_0, Ht. done.
  - assert (has_prefix_bytes whole ["-"%char] = false) as ->; [|cbv iota; by rewrite Ht].
    destruct whole as [|c rest]; [done|]. cbn [has_prefix_bytes forallb] in Hw |- *. destruct (beq c "-") eqn:Eb; [|reflexivity].
    apply beq_eq in Eb as ->. by vm_compute in Hw.
Qed.

Lemma formatCurrency_zero m : (rat m == 0)%Q → formatCurrency m = "Rp 0.00"%string.
Proof.
  intros Hm. assert (Qnum (rat m) = 0) as Hn by (unfold Qeq in Hm; cbn in Hm; lia).
  assert (Format m 2 = "0.00"%string) as E; [|unfold formatCurrency; by rewrite E].
  unfold Format. change (Z.to_nat (if 2 <? 0 then 0 else 2)) with 2%nat. unfold float_string. rewrite Hn. cbv zeta. change (Z.abs 0) with 0.
  destruct (Z.eqb_spec (Z.pos (Qden (rat m))) 1) as [E|E]; [reflexivity|].
  rewrite ?Z.div_0_l, ?Z.mod_0_l, ?Z.mul_0_l, ?Z.div_0_l, ?Z.mod_0_l by lia. change (2 * 0) with 0.
  destruct (Z.leb_spec (Z.pos (Qden (rat m))) 0); [lia|reflexivity].
Qed.

(** ** The schedule of a resolved position *)

Section Schedule.
Context (service : Service) `{!Evidence service} (c : Calculator).
Hypothesis calculates_with : calculator_Calculate service = Calculate c.
Hypothesis builds_with : calculator_BuildSchedule service = BuildSchedule c.

Lemma resolved_reconstructed account asOf r : date_ok asOf → resolvePosition service account asOf = Ok r →
  lp_Source (rv_Position r) = Some SourceReconstructed →
  ∃ contract primary today opening exact,
    reconstruct service contract primary asOf today opening exact = Ok r ∧ Equal asOf (cutoff service) = false.
Proof.
  unfold resolvePosition. remember (NewDate (now service) (Some (Position.location service))) as today eqn:Et. clear Et.
  intros Hdate H Hsrc. inv_ok. destruct (negb (Date_IsZero _) && _); [inv_ok; discriminate Hsrc|].
  apply bind_Ok in H as (exact & Hexact & H).
  assert (key (cutoff service) < key asOf → lp_Source exact ≠ Some SourceReconstructed) as Hex.
  { intros Hlt. destruct (exact_after_cutoff_Ok _ _ _ _ _ Hdate Hexact Hlt) as (_ & _ & -> & _). by destruct (Equal asOf today). }
  destruct (After asOf (cutoff service) && After (lp_LoanStartDate exact) (cutoff service)) eqn:Hnative.
  { inv_ok. unfold After in Hnative. to_prop in Hnative. destruct Hnative as [Hlt _]. by apply Hex in Hsrc. }
  apply bind_Ok in H as ([] & _ & H). unfold Before in H.
  destruct (Z.ltb_spec (key asOf) (key (cutoff service))) as [Hbefore|Hafter].
  { inv_ok. cbn in Hsrc. match goal with Hm : mso_HistoricalPosition _ _ _ = Ok _ |- _ => destruct (mso_answers _ _ _ Hdate Hm) as (_ & _ & Hm') end.
    by rewrite Hm' in Hsrc. }
  apply bind_Ok in H as (opening & Hopening & H). unfold Equal at 1 in H.
  destruct (Z.eqb_spec (key asOf) (key (cutoff service))) as [Hat|Hne]; [inv_ok; discriminate Hsrc|].
  destruct (negb _) eqn:Hflat; [inv_ok; by apply Hex in Hsrc; [|lia]|].
  eexists _, _, _, _, exact. split; [exact H|]. unfold Equal. by apply Z.eqb_neq.
Qed.

Lemma Calculate_schedule input result : Calculate c input = Ok result → Equal (in_AsOf input) (in_Cutoff input) = false →
  BuildSchedule c (in_ContractualPrincipal input) (in_TenorMonths input) (in_FlatRatePercent input) (in_ContractSchedule input) =
    Ok (res_ContractualSchedule result).
Proof. unfold Calculate. intros H E. rewrite E in H. unfold finish in H. inv_ok. assumption. Qed.

Lemma shown_schedule account asOf r : date_ok asOf → GetLoanPosition service account asOf = Ok r →
  (rv_ContractualSchedule r = [] ∧ lp_Source (rv_Position r) ≠ Some SourceReconstructed) ∨
  ∃ source, BuildSchedule c (cd_PlafondLimit (rv_Loan r)) (cd_TenorMonths (rv_Loan r)) (cd_FlatRatePercent (rv_Loan r)) source =
    Ok (rv_ContractualSchedule r).
Proof.
  intros Hdate H. unfold GetLoanPosition in H. apply bind_Ok in H as (r' & Hr & H).
  case_bool_decide as Hsrc; cbn [negb] in H.
  - inv_ok. right. apply resolved_reconstructed in Hr as (contract & primary & today & opening & exact & Hr & Hne); [|done..].
    unfold reconstruct in Hr. inv_ok. cbn [rv_Loan rv_ContractualSchedule] in *. rewrite calculates_with in *.
    match goal with Hc : Calculate c ?input = Ok _ |- _ => exists (in_ContractSchedule input); apply Calculate_schedule in Hc; [exact Hc|done] end.
  - inv_ok. cbn [with_rows rv_Loan rv_Position rv_ContractualSchedule]. unfold displaySchedule. rewrite builds_with.
    destruct (cd_ContractScheduleEvidence _) as [[|row rest]|]; [by left| |by left].
    destruct (normalizeContractSchedule _ _ _) as [installments|]; [|by left].
    destruct (BuildSchedule _ _ _ _ _) as [rows|] eqn:E; [right; by exists installments|by left].
Qed.
End Schedule.

(** In a chronological schedule the installments due are the first ones. *)
Lemma due_first (rows : list ContractualScheduleRow) asOf start : ascending rows → row_Number <$> rows = seqZ (start + 1) (Z.of_nat (length rows)) →
  let k := Z.of_nat (length (List.filter (λ dueDate, negb (After dueDate asOf)) (row_DueDate <$> rows))) in
  ∀ row, row ∈ rows → row_Number row ≤ start + k ↔ key (row_DueDate row) ≤ key asOf.
Proof.
  cbv zeta. intros Ha. revert start. induction Ha as [|a rows Ha IH Hall]; intros start Hn row Hin; [by apply not_elem_of_nil in Hin|].
  cbn [length] in Hn. rewrite Nat2Z.inj_succ, seqZ_cons in Hn by lia. rewrite fmap_cons, Z.pred_succ in Hn. injection Hn as Hna Hn.
  rewrite fmap_cons. cbn [List.filter]. unfold After at 1. destruct (Z.ltb_spec (key asOf) (key (row_DueDate a))) as [Hlt|Hle]; cbn [negb].
  - rewrite Forall_forall in Hall. assert (∀ x, x ∈ rows → key asOf < key (row_DueDate x)) as Hlate by (intros x Hx; specialize (Hall x Hx); lia).
    assert (List.filter (λ dueDate, negb (After dueDate asOf)) (row_DueDate <$> rows) = []) as ->.
    { clear -Hlate. induction rows as [|x rows IH]; [done|]. rewrite fmap_cons. cbn [List.filter]. unfold After at 1.
      rewrite (proj2 (Z.ltb_lt _ _)) by (apply Hlate; left). cbn [negb]. apply IH. intros y Hy. apply Hlate. by right. }
    assert (start < row_Number row ∧ key asOf < key (row_DueDate row)); [|cbn; lia].
    apply elem_of_cons in Hin as [->|Hin]; [lia|]. split; [|by apply Hlate].
    assert (row_Number row ∈ seqZ (Z.succ (start + 1)) (Z.of_nat (length rows))) as Hr%elem_of_seqZ; [|lia].
    rewrite <- Hn. by apply list_elem_of_fmap_2.
  - cbn [length]. rewrite Nat2Z.inj_succ. apply elem_of_cons in Hin as [->|Hin]; [lia|].
    rewrite <- (IH (start + 1)); [lia| |done]. by rewrite Hn, <- Z.add_1_r.
Qed.

Lemma perPeriod_Ok r : cd_TenorMonths (rv_Loan r) ≠ 0 →
  (lp_Source (rv_Position r) = Some SourceReconstructed → rv_ContractualSchedule r ≠ []) → ∃ amounts, perPeriod r = Ok amounts.
Proof.
  intros Ht Hr. unfold perPeriod. case_bool_decide as Hs.
  - destruct (rv_ContractualSchedule r); [by destruct Hr|by eexists].
  - rewrite !DivInt_nonzero by done. by eexists.
Qed.
Lemma summary_first c r asOf source :
  BuildSchedule c (cd_PlafondLimit (rv_Loan r)) (cd_TenorMonths (rv_Loan r)) (cd_FlatRatePercent (rv_Loan r)) source =
    Ok (rv_ContractualSchedule r) →
  ∃ k, installmentSummary r asOf = (Itoa k +:+ " dari " +:+ Itoa (cd_TenorMonths (rv_Loan r)))%string ∧
    ∀ row, row ∈ rv_ContractualSchedule r → row_Number row ≤ k ↔ key (row_DueDate row) ≤ key asOf.
Proof.
  intros H. pose proof H as (_ & Ht & Hlen & _)%BuildSchedule_Ok. pose proof (BuildSchedule_rows _ _ _ _ _ _ H) as (Hn & Ha).
  unfold installmentSummary, contractualDueDates. set (rows := rv_ContractualSchedule r) in *.
  destruct rows as [|row rows'] eqn:E; [cbn in Hlen; lia|]. rewrite <- E in *. rewrite bool_decide_eq_false_2 by (by rewrite E).
  eexists. rewrite length_fmap, Hlen. split; [reflexivity|]. intros row0 Hin.
  pose proof (due_first rows asOf 0 Ha) as Hd. rewrite Hlen in Hd. by rewrite <- (Hd Hn row0 Hin), Z.add_0_l.
Qed.

(** ** The forms and the link between them *)

Lemma ParseDate_again loc raw date : midnights loc → ParseDate raw (Some loc) = Ok date → Date_IsZero date = false →
  ParseDate (TrimSpace (Date_String date)) (Some loc) = Ok date ∧ forallb (λ c, is_digit c || beq c "-") (bytes (Date_String date)) = true.
Proof.
  intros Hm H Hz. destruct (proj2 (Date_roundtrip loc date raw Hm) H Hz) as (_ & Hv & Hy).
  assert (forallb (λ c, is_digit c || beq c "-") (bytes (Date_String date)) = true) as Hb.
  { unfold Date_String. rewrite Hz, bytes_of_bytes. destruct Hv as (Hmo & Hda). pose proof (valid_day_31 _ _ _ (conj Hmo Hda)).
    assert (∀ w n, 0 ≤ n → forallb (λ c, is_digit c || beq c "-") (sprintf_0d w n) = true) as Hd.
    { intros w n Hn. unfold sprintf_0d. destruct (Z.ltb_spec n 0); [lia|]. apply forallb_forall. intros c Hin.
      pose proof (pad_digits w (utoa n) (utoa_digits n Hn)) as Hp. rewrite forallb_forall in Hp. by rewrite (Hp c Hin). }
    rewrite forallb_app, Hd by lia. cbn [forallb]. rewrite forallb_app, Hd by lia. cbn [forallb]. by rewrite Hd by lia. }
  split; [|exact Hb]. assert (TrimSpace (Date_String date) = Date_String date) as ->.
  { unfold TrimSpace. rewrite trim_bytes_plain, of_bytes_bytes; [done|]. apply forallb_forall. intros c Hin.
    rewrite forallb_forall in Hb. specialize (Hb c Hin). apply orb_true_iff in Hb as [Hb|Hb%beq_eq]; [|by subst].
    assert (forallb plain [c] = true) as Hp by (apply forallb_digit_plain; cbn; by rewrite Hb). cbn in Hp. by rewrite andb_true_r in Hp. }
  by apply ParseDate_String.
Qed.

(** What of a form makes an inquiry *)
Definition asks (loc : Location) (f : form) (account : string) (asOf : Date) : Prop :=
  ∃ values, f = Ok values ∧ account = TrimSpace (values "account_number"%string) ∧ account ≠ EmptyString ∧
    ParseDate (TrimSpace (values "as_of"%string)) (Some loc) = Ok asOf.
Definition shown_view (reply : inquiry_reply) : option ResultView :=
  match reply with InquiryPage _ data => pd_Result data | _ => None end.
Definition reply_status (reply : inquiry_reply) : Z :=
  match reply with PlainError status _ | InquiryPage status _ => status | PDFDocument _ _ => StatusOK end.
Lemma Inquiry_shown Error positions loc principal now f reply event view :
  Inquiry Error positions loc principal now f = (reply, event) → shown_view reply = Some view →
  ∃ account asOf resolved, asks loc f account asOf ∧ positions account asOf = Ok resolved ∧
    newResultView resolved account asOf = Ok view ∧ event = auditInquiry principal now resolved asOf ∧ reply_status reply = StatusOK.
Proof.
  unfold Inquiry. intros H Hv. destruct f as [values|]; [|by injection H as <- <-].
  destruct (ParseDate _ _) as [asOf|] eqn:Ed; [|by injection H as <- <-].
  destruct (empty _) eqn:Ea; [by injection H as <- <-|].
  destruct (resolveResult _ _ _) as [[resolved view']|e] eqn:Er.
  - injection H as <- <-. injection Hv as ->. unfold resolveResult in Er. inv_ok. eexists _, asOf, resolved.
    split; [exists values; split_and!; [done|reflexivity| |done]|by split_and!]. intros E. by rewrite E in Ea.
  - destruct (inquiryError Error e). by injection H as <- <-.
Qed.

(** The bytes of the file name *)
Lemma filename_runes_bytes runes written : forallb filename_byte written = true → forallb filename_byte (filename_runes written runes) = true.
Proof.
  revert written. induction runes as [|rune runes IH]; intros written Hw; cbn [filename_runes].
  - apply forallb_forall. intros c Hin%in_rev. rewrite forallb_forall in Hw. by apply Hw.
  - assert (forallb filename_byte (match written with [] => written | c :: _ => if beq c "-" then written else "-"%char :: written end) = true) as Ho
      by (destruct written as [|c w]; [done|]; by destruct (beq c "-")).
    destruct rune as [[|c []]|]; try (by apply IH). apply IH. destruct (filename_byte c) eqn:Ec; [cbn [forallb]; by rewrite Ec|done].
Qed.
Lemma trim_right_bytes (p : ascii → bool) c l : forallb p l = true → forallb p (trim_right_byte c l) = true.
Proof.
  intros H. apply forallb_forall. rewrite forallb_forall in H. intros x Hin. apply H. clear H. revert Hin.
  unfold trim_right_byte. rewrite <- (rev_involutive l) at 2. generalize (rev l) as m. intros m Hin%in_rev. apply in_rev. rewrite rev_involutive.
  induction m as [|a m IH]; [done|]. cbn in Hin. destruct (beq a c); [right; by apply IH|done].
Qed.
Lemma safeFilenamePart_bytes value : forallb filename_byte (bytes (safeFilenamePart value)) = true.
Proof.
  unfold safeFilenamePart. case_bool_decide; [by vm_compute|]. rewrite bytes_of_bytes. apply trim_right_bytes.
  apply forallb_forall. intros c Hin%in_rev. revert c Hin. apply forallb_forall, trim_right_bytes.
  apply forallb_forall. intros c Hin%in_rev. revert c Hin. by apply forallb_forall, filename_runes_bytes.
Qed.

Lemma newResultView_link resolved account asOf view : newResultView resolved account asOf = Ok view → PrintURL view = printURL account asOf.
Proof. unfold newResultView. intros H. apply bind_Ok in H as ([principal interest] & _ & H). by inv_ok. Qed.
Lemma print_query account asOf :
  ParseQuery ("account=" +:+ QueryEscape account +:+ "&as_of=" +:+ QueryEscape (Date_String asOf))%string =
    [("account", account); ("as_of", Date_String asOf)]%string.
Proof.
  rewrite <- (ParseQuery_text [("account", account); ("as_of", Date_String asOf)]%string) by done. f_equal.
  rewrite !fmap_cons, fmap_nil. cbn [join_bytes]. unfold query_text. cbn [fst snd].
  change (bytes (QueryEscape "account")) with (bytes "account"). change (bytes (QueryEscape "as_of")) with (bytes "as_of").
  rewrite <- (of_bytes_bytes ("account=" +:+ _)%string). f_equal. rewrite !bytes_app. rewrite <- !app_assoc. done.
Qed.

(** ** The event and the errors *)

Lemma inquiryError_status Error e : (inquiryError Error e).1 ∈ [404; 409; 422; 500; 503].
Proof. unfold inquiryError. repeat case_match; apply list_elem_of_In; cbn; tauto. Qed.
Lemma Inquiry_refused Error positions loc principal now f reply event :
  Inquiry Error positions loc principal now f = (reply, event) → shown_view reply = None →
  event = None ∧ reply_status reply ∈ [400; 404; 409; 422; 500; 503] ∧
  (∀ account asOf, asks loc f account asOf → ∃ e, resolveResult positions account asOf = Fail e ∧ reply_status reply = (inquiryError Error e).1).
Proof.
  unfold Inquiry. intros H Hv. destruct f as [values|].
  2: { injection H as <- <-. split; [done|]. split; [apply list_elem_of_In; cbn; tauto|]. by intros account asOf (values & ? & _). }
  assert (∀ data, (InquiryPage StatusUnprocessableEntity data, @None Event) = (reply, event) →
    event = None ∧ reply_status reply ∈ [400; 404; 409; 422; 500; 503]) as Hform.
  { intros data [= <- <-]. split; [done|]. apply list_elem_of_In. cbn. tauto. }
  destruct (ParseDate _ _) as [asOf|] eqn:Ed; [destruct (empty _) eqn:Ea|].
  - destruct (Hform _ H) as [-> Hs]. split_and!; [done..|]. intros account asOf' (values' & [= <-] & -> & Hne & _). by apply seqb_eq in Ea.
  - destruct (resolveResult _ _ _) as [[resolved view]|e] eqn:Er; [injection H as <- <-; discriminate Hv|].
    destruct (inquiryError Error e) as [status message] eqn:Ee. injection H as <- <-. split; [done|]. split.
    + pose proof (inquiryError_status Error e) as Hs. rewrite Ee in Hs. cbn [fst] in Hs. cbn [reply_status]. by right.
    + intros account asOf' (values' & [= <-] & -> & _ & Hp). rewrite Ed in Hp. injection Hp as <-. exists e. by rewrite Er, Ee.
  - destruct (Hform _ H) as [-> Hs]. split_and!; [done..|]. intros account asOf' (values' & [= <-] & -> & _ & Hp). by rewrite Ed in Hp.
Qed.
Lemma source_name_length source : slen (source_name source) ≤ 16.
Proof. by destruct source as [[]|]. Qed.
Lemma asked_date_length loc f account asOf : midnights loc → asks loc f account asOf → slen (Date_String asOf) ≤ 10.
Proof.
  intros Hm (values & _ & _ & _ & Hp). unfold Date_String. destruct (Date_IsZero asOf) eqn:Hz; [done|].
  destruct (proj2 (Date_roundtrip loc asOf _ Hm) Hp Hz) as (_ & Hv & Hy). destruct Hv as [Hmo Hd]. pose proof (valid_day_31 _ _ _ (conj Hmo Hd)).
  unfold slen. rewrite bytes_of_bytes, !length_app. cbn [length]. rewrite length_app. cbn [length].
  rewrite (length_sprintf 4), !(length_sprintf 2) by (cbn; lia). done.
Qed.
Lemma inquiry_event_recorded p now resolved asOf :
  pr_UserID p ≠ 0 → TrimSpace (pr_Username p) ≠ EmptyString → now ≠ 0 →
  slen (lp_AccountNumber (rv_Position resolved)) ≤ 10000 → slen (Date_String asOf) ≤ 10 →
  ∃ e, auditInquiry (Some p) now resolved asOf = Some e ∧ is_ok (audit_entry e) = true ∧
    identity_Username <$> Actor (ev_Attribution e) = Some (pr_Username p) ∧
    ev_Metadata e = Some (LoanInquiryMetadata (lp_AccountNumber (rv_Position resolved)) (Date_String asOf)
                            (source_name (lp_Source (rv_Position resolved)))).
Proof.
  intros Hid Hu Hn Hacc Hd. eexists. split; [reflexivity|]. split; [|by split]. unfold audit_entry.
  cbn [ev_Attribution ev_Action ev_Resource ev_ResourceID ev_Metadata ev_CreatedAt Actor Effective SystemActor].
  assert (knownAction "loan.inquiry" = true) as -> by by vm_compute.
  assert (empty (TrimSpace (pr_Username p)) = false) as Hne by (destruct (TrimSpace (pr_Username p)); [done|reflexivity]).
  unfold validateIdentity. cbn [identity_UserID identity_Username]. rewrite Hne, (proj2 (Z.eqb_neq _ _) Hid), (proj2 (Z.eqb_neq now 0)) by done.
  change (empty EmptyString) with true. cbn -[marshal_metadata Z.ltb].
  set (m := LoanInquiryMetadata _ _ _).
  assert (Z.of_nat (length (marshal_metadata m)) ≤ MaxMetadataBytes) as Hm.
  { pose proof (length_metadata m) as H. subst m. cbn [metadata_members] in H. rewrite !weight_app in H.
    pose proof (weight_text false "account_number" (lp_AccountNumber (rv_Position resolved))).
    pose proof (weight_text false "as_of" (Date_String asOf)).
    pose proof (weight_text true "source" (source_name (lp_Source (rv_Position resolved)))).
    pose proof (source_name_length (lp_Source (rv_Position resolved))).
    change (slen "account_number") with 14 in *. change (slen "as_of") with 5 in *. change (slen "source") with 6 in *.
    unfold MaxMetadataBytes. lia. }
  destruct (Z.ltb_spec MaxMetadataBytes (Z.of_nat (length (marshal_metadata m)))); [lia|]. done.
Qed.

(** ** Properties *)

(** C28: whatever the position service answers can be shown, if the loan has a tenor
    (as every loan of Fincloud does).  The table of a schedule lists the installments
    1, 2, ... up to the tenor and ends with nothing outstanding; the summary "k dari n"
    counts the installments that are due, which are the first k; and a reconstructed
    position always has such a table. *)
Theorem inquiry_shows service c account asOf r :
  Evidence service → calculator_Calculate service = Calculate c → calculator_BuildSchedule service = BuildSchedule c →
  date_ok asOf → GetLoanPosition service account asOf = Ok r → cd_TenorMonths (rv_Loan r) ≠ 0 →
  ∃ view, newResultView r account asOf = Ok view ∧ ∃ top body,
    ScheduleRows view = top ++ body ∧ (sr_Number <$> top) = (if Date_IsZero (loanStartDate r) then [] else [0]) ∧
    (body = [] ∧ IsReconstructed view = false ∨
     (sr_Number <$> body) = seqZ 1 (cd_TenorMonths (rv_Loan r)) ∧ (sr_Outstanding <$> last body) = Some "Rp 0.00"%string ∧
     ∃ k, InstallmentSummary view = (Itoa k +:+ " dari " +:+ Itoa (cd_TenorMonths (rv_Loan r)))%string ∧
       ∀ row, row ∈ rv_ContractualSchedule r → row_Number row ≤ k ↔ key (row_DueDate row) ≤ key asOf).
Proof.
  intros Hev Hcalc Hbuild Hdate H Ht. pose proof (shown_schedule service c Hcalc Hbuild account asOf r Hdate H) as Hs.
  destruct (perPeriod_Ok r Ht) as [[principal interest] Hp].
  { intros Hr Hnil. destruct Hs as [[_ Hs]|[source Hs]]; [done|]. apply BuildSchedule_Ok in Hs as (_ & Hpos & Hlen & _).
    rewrite Hnil in Hlen. cbn in Hlen. lia. }
  unfold newResultView. rewrite Hp. eexists. split; [reflexivity|]. cbn [ScheduleRows IsReconstructed InstallmentSummary].
  eexists _, _. split; [reflexivity|]. split; [by destruct (Date_IsZero _)|].
  destruct Hs as [[-> Hs]|[source Hs]]; [left; split; [done|by apply bool_decide_eq_false_2]|right].
  destruct (BuildSchedule_rows _ _ _ _ _ _ Hs) as (Hn & _). split; [by rewrite <- list_fmap_compose|].
  split; [|by eapply summary_first]. rewrite fmap_last, <- option_fmap_compose.
  apply BuildSchedule_Ok in Hs as (_ & Hpos & Hlen & Hbal & _). destruct (balances_ok _ _ Hbal) as (_ & _ & Hlast).
  destruct (last (rv_ContractualSchedule r)) as [row|] eqn:El.
  - cbn. f_equal. apply formatCurrency_zero. by apply Hlast.
  - apply last_None in El. rewrite El in Hlen. cbn in Hlen. lia.
Qed.

(** The text of an amount is its text of two decimals with the thousands set apart:
    groups of three digits after a first group of one to three; without the commas
    it reads back to an amount at most half a cent away. *)
Theorem formatCurrency_reads m :
  (∃ negative head groups cents,
     bytes (formatCurrency m) = bytes "Rp " ++ sign_bytes negative ++ join_bytes [","%char] (head :: groups) ++ "."%char :: cents ∧
     forallb is_digit (head ++ List.concat groups ++ cents) = true ∧
     (1 <= length head <= 3)%nat ∧ Forall (λ g, length g = 3%nat) groups ∧ length cents = 2%nat) ∧
  let text := List.filter no_comma (drop 3 (bytes (formatCurrency m))) in
  of_bytes text = Format m 2 ∧ ∃ r, ParseMoney (of_bytes text) = Ok r ∧ (Qabs (rat r - rat m) <= 1 # 200)%Q.
Proof.
  destruct (formatCurrency_parts m) as (negative & whole & cents & head & groups & E & Hlen & Hw & Hc & Hg & Ef).
  pose proof Hg as (Hwhole & Hh & H3). split.
  { exists negative, head, groups, cents. split_and!; try done; try lia. by rewrite app_assoc, <- Hwhole, forallb_app, Hw. }
  cbv zeta. assert (of_bytes (List.filter no_comma (drop 3 (bytes (formatCurrency m)))) = Format m 2) as ->.
  - rewrite Ef. change (drop 3 (bytes "Rp " ++ ?l)) with l. rewrite !List.filter_app, filter_join, (digits_groups whole) by done.
    cbn [List.filter]. change (no_comma ".") with true. cbv iota. rewrite (digits_no_comma cents) by done.
    assert (List.filter no_comma (sign_bytes negative) = sign_bytes negative) as -> by by destruct negative.
    by rewrite <- E, of_bytes_bytes.
  - split; [done|]. exact (Format_roundtrip m 2 ltac:(lia)).
Qed.

(** The link to the printed version leads to the same view.  When an inquiry shows a
    position, the address it gives for printing asks for the same account and date, so
    that the document is made of that view (as long as the service answers the same),
    under a file name of letters, digits, dashes and underscores. *)
Theorem print_link_answers service Error render loc principal now now' f reply event view :
  midnights loc → Evidence service →
  Inquiry Error (GetLoanPosition service) loc principal now f = (reply, event) → shown_view reply = Some view →
  ∃ query name, PrintURL view = ("/loans/inquiry/pdf?" +:+ query)%string ∧
    PDF Error (GetLoanPosition service) render loc now' query =
      match render view now' with
      | Ok document => PDFDocument (name +:+ ".pdf")%string document
      | Fail _ => PlainError StatusInternalServerError "Internal Server Error"
      end ∧
    forallb filename_byte (bytes name) = true.
Proof.
  intros Hm Hev H Hv. destruct (Inquiry_shown _ _ _ _ _ _ _ _ _ H Hv) as (account & asOf & resolved & Hask & Hp & Hview & _).
  destruct Hask as (values & _ & Hacc & Hne & Hparse).
  assert (Date_IsZero asOf = false) as Hz.
  { apply GetLoanPosition_Ok in Hp as (r & Hr & _). unfold resolvePosition in Hr. inv_ok.
    match goal with Hz : (_ || Date_IsZero asOf) = false |- _ => by apply orb_false_iff in Hz as [_ Hz] end. }
  destruct (ParseDate_again _ _ _ Hm Hparse Hz) as [Hagain Hbytes].
  exists ("account=" +:+ QueryEscape account +:+ "&as_of=" +:+ QueryEscape (Date_String asOf))%string.
  exists ("jadwal-pembayaran-" +:+ safeFilenamePart account +:+ "-" +:+ Date_String asOf)%string.
  split; [by apply newResultView_link in Hview|]. split.
  - unfold PDF. rewrite (print_query account asOf).
    change (query_values "account" _) with [account]. change (query_values "as_of" _) with [Date_String asOf]. cbv iota.
    assert (TrimSpace account = account) as -> by (by rewrite Hacc, TrimSpace_idem). rewrite Hagain.
    assert (empty account = false) as -> by (destruct account; [done|reflexivity]).
    unfold resolveResult. rewrite Hp. cbn [mbind result_bind]. rewrite Hview. cbn [mbind result_bind].
    destruct (render view now'); [|done]. f_equal. apply bytes_inj. by rewrite !bytes_app, <- !app_assoc.
  - rewrite !bytes_app, !forallb_app, safeFilenamePart_bytes. cbn [bytes forallb]. change (forallb filename_byte (bytes "jadwal-pembayaran-")) with true.
    change (forallb filename_byte (bytes "-")) with true. cbn [andb]. apply forallb_forall. intros c Hin. rewrite forallb_forall in Hbytes.
    specialize (Hbytes c Hin). unfold filename_byte. apply orb_true_iff in Hbytes as [->| ->]; by rewrite ?orb_true_r.
Qed.

Lemma inquiry_shows_witness :
  ∃ view, (r ← GetLoanPosition (ex_service "10") "account" (MkDate 2025 12 30); newResultView r "account" (MkDate 2025 12 30)) = Ok view ∧
    InstallmentSummary view = "2 dari 3"%string ∧ (sr_Outstanding <$> last (ScheduleRows view)) = Some "Rp 0.00"%string.
Proof.
  assert (match GetLoanPosition (ex_service "10") "account" (MkDate 2025 12 30) with
          | Ok r => (cd_TenorMonths (rv_Loan r) =? 3) && (match newResultView r "account" (MkDate 2025 12 30) with
              Ok v => seqb (InstallmentSummary v) "2 dari 3" && bool_decide (length (ScheduleRows v) = 4%nat) | Fail _ => false end)
          | Fail _ => false end = true) as Hc by (vm_compute; reflexivity).
  destruct (GetLoanPosition (ex_service "10") "account" (MkDate 2025 12 30)) as [r|e] eqn:E; [|discriminate Hc].
  apply andb_true_iff in Hc as [Ht Hc]. apply Z.eqb_eq in Ht.
  destruct (inquiry_shows (ex_service "10") exact "account" (MkDate 2025 12 30) r _ eq_refl eq_refl
    ltac:(vm_compute; intuition discriminate) E ltac:(rewrite Ht; discriminate)) as (view & Hview & top & body & Hrows & Htop & Hbody).
  exists view. cbn [mbind result_bind]. split; [exact Hview|]. rewrite Hview in Hc. apply andb_true_iff in Hc as [Hs Hl].
  split; [by apply seqb_eq|]. apply bool_decide_eq_true in Hl. destruct Hbody as [[-> _]|(Hn & Hlast & _)].
  - exfalso. rewrite Hrows, app_nil_r in Hl. apply (f_equal length) in Htop. rewrite length_fmap, Hl in Htop. by destruct (Date_IsZero _).
  - rewrite Hrows. destruct body as [|b body] using rev_ind; [discriminate Hlast|].
    rewrite last_snoc in Hlast. by rewrite app_assoc, last_snoc.
Defined.

Definition example_form : form := Ok (fun name => if seqb name "as_of" then "2025-12-30" else " account ")%string.
Lemma print_link_answers_witness :
  ∃ view, shown_view (Inquiry (fun _ => EmptyString) (GetLoanPosition (ex_service "10")) (fixed_zone 25200) None 1 example_form).1 = Some view ∧
    ∃ query, PrintURL view = ("/loans/inquiry/pdf?" +:+ query)%string ∧
      PDF (fun _ => EmptyString) (GetLoanPosition (ex_service "10")) (fun v _ => Ok (bytes (InstallmentSummary v))) (fixed_zone 25200) 2 query =
        PDFDocument "jadwal-pembayaran-account-2025-12-30.pdf" (bytes "2 dari 3").
Proof.
  destruct (Inquiry (fun _ => EmptyString) (GetLoanPosition (ex_service "10")) (fixed_zone 25200) None 1 example_form) as [reply event] eqn:E.
  assert (match shown_view (Inquiry (fun _ => EmptyString) (GetLoanPosition (ex_service "10")) (fixed_zone 25200) None 1 example_form).1 with
          | Some v => seqb (InstallmentSummary v) "2 dari 3" && seqb (PrintURL v) "/loans/inquiry/pdf?account=account&as_of=2025-12-30"
          | None => false end = true) as Hc by (vm_compute; reflexivity).
  rewrite E in Hc. cbn [fst] in Hc |- *. destruct (shown_view reply) as [view|] eqn:Ev; [|discriminate Hc].
  apply andb_true_iff in Hc as [Hs%seqb_eq Hu%seqb_eq]. exists view. split; [done|].
  destruct (print_link_answers (ex_service "10") (fun _ => EmptyString) (fun v _ => Ok (bytes (InstallmentSummary v))) (fixed_zone 25200) None 1 2
    example_form reply event view (fixed_zone_midnights 25200) _ E Ev) as (query & name & Hq & Hp & _).
  exists query. split; [done|]. rewrite Hu in Hq.
  assert (query = "account=account&as_of=2025-12-30"%string) as ->.
  { apply (f_equal bytes) in Hq. rewrite bytes_app in Hq. apply bytes_inj. by apply (app_inv_head (bytes "/loans/inquiry/pdf?")). }
  vm_compute. reflexivity.
Defined.

(** An inquiry is accounted for.  A position is shown only for an account and a date
    that the form gives, with status 200, and then the trail gets the event of the user
    of the request, which it accepts, with the account and source that were shown;
    whatever goes wrong shows no position, leaves no event and says so in the status. *)
Theorem Inquiry_accountable Error positions loc principal now f :
  midnights loc →
  let '(reply, event) := Inquiry Error positions loc principal now f in
  match shown_view reply with
  | Some view => ∃ account asOf resolved, asks loc f account asOf ∧ positions account asOf = Ok resolved ∧
      newResultView resolved account asOf = Ok view ∧ reply_status reply = StatusOK ∧
      ∀ p, principal = Some p → pr_UserID p ≠ 0 → TrimSpace (pr_Username p) ≠ EmptyString → now ≠ 0 →
        slen (lp_AccountNumber (rv_Position resolved)) ≤ 10000 →
        ∃ e, event = Some e ∧ is_ok (audit_entry e) = true ∧ identity_Username <$> Actor (ev_Attribution e) = Some (pr_Username p) ∧
          ev_Metadata e = Some (LoanInquiryMetadata (lp_AccountNumber (rv_Position resolved)) (Date_String asOf)
                                  (source_name (lp_Source (rv_Position resolved))))
  | None => event = None ∧ reply_status reply ∈ [400; 404; 409; 422; 500; 503] ∧
      (∀ account asOf, asks loc f account asOf → ∃ e, resolveResult positions account asOf = Fail e ∧
         reply_status reply = (inquiryError Error e).1)
  end.
Proof.
  intros Hm. destruct (Inquiry Error positions loc principal now f) as [reply event] eqn:E.
  destruct (shown_view reply) as [view|] eqn:Ev; [|by eapply Inquiry_refused].
  destruct (Inquiry_shown _ _ _ _ _ _ _ _ _ E Ev) as (account & asOf & resolved & Hask & Hp & Hview & -> & Hs).
  exists account, asOf, resolved. split_and!; [done..|]. intros p -> Hid Hu Hn Hacc. apply inquiry_event_recorded; try done.
  by eapply asked_date_length.
Qed.

Definition example_principal : Principal :=
  {| pr_UserID := 7; pr_Username := "teller"; pr_Name := "Teller"; Permissions := ∅; SessionID := 1; pr_RememberMe := false |}.
Lemma Inquiry_accountable_witness :
  let answer := Inquiry (fun _ => "not found"%string) (GetLoanPosition (ex_service "10")) (fixed_zone 25200) (Some example_principal) 1 in
  reply_status (answer example_form).1 = StatusOK ∧
  (∃ e, (answer example_form).2 = Some e ∧ is_ok (audit_entry e) = true) ∧
  (answer (Fail Malformed)).2 = None.
Proof.
  intros answer. pose proof (Inquiry_accountable (fun _ => "not found"%string) (GetLoanPosition (ex_service "10")) (fixed_zone 25200)
    (Some example_principal) 1 example_form (fixed_zone_midnights 25200)) as H. fold answer in H.
  destruct (answer example_form) as [reply event] eqn:E.
  assert (match shown_view (answer example_form).1 with Some _ => true | None => false end = true) as Hc by (vm_compute; reflexivity).
  assert (match GetLoanPosition (ex_service "10") "account" (MkDate 2025 12 30) with
          | Ok r => slen (lp_AccountNumber (rv_Position r)) <=? 10000 | Fail _ => false end = true) as Hl by (vm_compute; reflexivity).
  rewrite E in Hc. cbn [fst] in Hc. destruct (shown_view reply); [|discriminate Hc].
  destruct H as (account & asOf & resolved & (values & Hf & -> & _ & Hd) & Hp & _ & Hs & He). injection Hf as <-.
  assert (asOf = MkDate 2025 12 30) as -> by (vm_compute in Hd; by injection Hd).
  match type of Hp with GetLoanPosition _ ?a _ = _ => assert (a = "account"%string) as Ha by (vm_compute; reflexivity); rewrite Ha in Hp end.
  rewrite Hp in Hl. apply Z.leb_le in Hl.
  destruct (He example_principal) as (e & He1 & He2 & _); [reflexivity|discriminate|discriminate|discriminate|exact Hl|].
  split; [exact Hs|]. split; [exists e; exact (conj He1 He2)|].
  pose proof (Inquiry_accountable (fun _ => "not found"%string) (GetLoanPosition (ex_service "10")) (fixed_zone 25200)
    (Some example_principal) 1 (Fail Malformed) (fixed_zone_midnights 25200)) as H'. fold answer in H'.
  exact (proj1 H').
Defined.
