(* ===== verification/Routes.v ===== *)
(** The pages of the application: the routes of [internal/features] with the
    permission of each, as [internal/app/features.go] registers them, and the entries
    of the menu.  The router (chi) is a library: a route is its method and pattern. *)
From stdpp Require Import base list strings gmap sets.
From Stdlib Require Import ZArith Lia Ascii.
From S2P Require Import Prelude GoStrings GoErrors Database GoTime GoPath Directory Access Navigation BrowserAuth.
Local Open Scope Z_scope.

(** ** Routes *)

Record route := { Method : string; Pattern : string; route_Permission : string }.
Definition GET : string := "GET".
Definition POST : string := "POST".
Definition guard (permission method pattern : string) : route :=
  {| Method := method; Pattern := pattern; route_Permission := permission |}.

Definition dashboard_View : string := "dashboard.view".
Definition audit_View : string := "audit.view".
Definition reporting_Generate : string := "reporting.generate".
Definition lps_Generate : string := "lps.generate".
Definition snapshot_View : string := "snapshot.view".
Definition snapshot_Refresh : string := "snapshot.refresh".

Definition dashboard_routes : list route := [guard dashboard_View GET "/"].
Definition users_routes : list route := [
  guard PermissionManage GET "/access"; guard PermissionManage GET "/access/{id}";
  guard PermissionManage POST "/access/{id}/permissions"; guard PermissionManage POST "/access/{id}/activate";
  guard PermissionManage POST "/access/{id}/deactivate"].
Definition auditlogs_routes : list route := [guard audit_View GET "/audit-logs"; guard audit_View GET "/audit-logs/{id}"].
Definition loaninquiry_routes : list route := [
  guard PermissionLoanInquiry GET "/loans"; guard PermissionLoanInquiry GET "/loans/inquiry";
  guard PermissionLoanInquiry GET "/loans/inquiry/pdf"; guard PermissionLoanInquiry POST "/loans/inquiry"].
Definition slik_routes : list route := [
  guard reporting_Generate GET "/slik"; guard reporting_Generate POST "/slik"; guard reporting_Generate GET "/slik/{id}";
  guard reporting_Generate GET "/slik/{id}/status"; guard reporting_Generate GET "/slik/{id}/download";
  guard reporting_Generate POST "/slik/{id}/cancel"].
Definition lps_routes : list route := [guard lps_Generate GET "/lps"; guard lps_Generate POST "/lps"].
Definition snapshots_routes : list route := [guard snapshot_View GET "/snapshot"; guard snapshot_Refresh POST "/snapshot/refresh"].
Definition feature_routes : list route :=
  dashboard_routes ++ users_routes ++ auditlogs_routes ++ loaninquiry_routes ++ slik_routes ++ lps_routes ++ snapshots_routes.

(** ** The menu *)

Definition entry (key label icon path permission mode : string) : Item :=
  MkItem {| item_Key := key; item_Label := label; item_Icon := icon; item_Path := path; item_Permission := permission;
            AnyPermissions := []; Match := mode |} [].
Definition dashboard_Navigation : Item := entry "dashboard" "Dashboard" "layout-dashboard" "/" dashboard_View MatchExact.
Definition users_Navigation : Item := entry "access-management" "Access Management" "shield" "/access" PermissionManage MatchPrefix.
Definition auditlogs_Navigation : Item := entry "audit-logs" "Audit Logs" "scroll-text" "/audit-logs" audit_View MatchPrefix.
Definition loaninquiry_Navigation : Item :=
  entry "loan-inquiry" "Loan Inquiry" "landmark" "/loans/inquiry" PermissionLoanInquiry MatchPrefix.
Definition slik_Navigation : Item := entry "slik" "SLIK Generator" "file-spreadsheet" "/slik" reporting_Generate MatchPrefix.
Definition lps_Navigation : Item := entry "lps" "LPS" "file-archive" "/lps" lps_Generate MatchPrefix.
Definition snapshots_Navigation : Item := entry "snapshot" "Current Snapshot" "database-zap" "/snapshot" snapshot_View MatchPrefix.
Definition navigationGroups : list Group := [
  {| group_Key := "general"; group_Label := "General"; Items := [dashboard_Navigation; loaninquiry_Navigation] |};
  {| group_Key := "reporting"; group_Label := "Reporting"; Items := [slik_Navigation; lps_Navigation] |};
  {| group_Key := "management"; group_Label := "Management"; Items := [users_Navigation] |};
  {| group_Key := "system"; group_Label := "System"; Items := [snapshots_Navigation; auditlogs_Navigation] |}].

(** What [adminshell.PageData] gives the page of a user: the menu for the address *)
Definition page_navigation (p : Principal) (currentPath : string) : list GroupView :=
  Prepare currentPath (Can p) navigationGroups.

(** ** Which entry is the current one *)

(** Addresses of an entry, ended by a slash, begin with this text. *)
Definition area (f : ItemFields) : list ascii :=
  bytes (if seqb (Match f) MatchExact || seqb (item_Path f) "/" then item_Path f else TrimSuffix (item_Path f) "/") ++ ["/"%char].
Lemma matches_area f currentPath : matches f currentPath = true → area f `prefix_of` bytes currentPath ++ ["/"%char].
Proof.
  unfold matches, area. destruct (_ || _); [by intros ->%seqb_eq|]. intros [->%seqb_eq|H]%orb_true_iff; [done|].
  unfold HasPrefix in H. apply has_prefix_prefix in H. rewrite bytes_app in H. by apply prefix_app_r.
Qed.
Definition apart (f g : ItemFields) : bool :=
  negb (has_prefix_bytes (area f) (area g) || has_prefix_bytes (area g) (area f)).
Lemma apart_matches f g currentPath : matches f currentPath = true → matches g currentPath = true → apart f g = false.
Proof.
  intros Hf%matches_area Hg%matches_area. unfold apart. apply negb_false_iff, orb_true_iff. rewrite !has_prefix_prefix.
  destruct (prefix_weak_total _ _ _ Hf Hg); [by right|by left].
Qed.

(** ** The menu and the routes agree *)

Definition menu_items : list ItemFields := fields_of <$> (navigationGroups ≫= Items).
Definition opens (p : Principal) (address : string) : Prop :=
  ∃ r, r ∈ feature_routes ∧ Method r = GET ∧ Pattern r = address ∧ RequirePermission (route_Permission r) p = Serve p.

Lemma menu_shown currentPath can :
  navigationGroups ≫= group_shown currentPath can =
  (λ f, ([item_Key f], Some (item_Path f, matches f currentPath))) <$> List.filter (λ f, can (item_Permission f)) menu_items.
Proof.
  unfold navigationGroups, menu_items, group_shown, permitted, allowed. cbn -[matches].
  repeat match goal with |- context [can ?x] => destruct (can x) end; reflexivity.
Qed.
Lemma menu_routes : Forall (λ f, ∃ r, r ∈ feature_routes ∧ Method r = GET ∧ Pattern r = item_Path f ∧
  route_Permission r = item_Permission f) menu_items.
Proof.
  assert (forallb (λ f, existsb (λ r, seqb (Method r) GET && seqb (Pattern r) (item_Path f) &&
    seqb (route_Permission r) (item_Permission f)) feature_routes) menu_items = true) as H by (vm_compute; reflexivity).
  rewrite forallb_forall in H. apply Forall_forall. intros f Hf. apply list_elem_of_In in Hf. specialize (H f Hf).
  apply existsb_exists in H as (r & Hr & E). unfold seqb in E. to_prop in E. destruct E as [[E1 E2] E3]. exists r.
  split_and!; [by apply list_elem_of_In|done..].
Qed.
Lemma menu_route_unique : ∀ f r, f ∈ menu_items → r ∈ feature_routes → Method r = GET → Pattern r = item_Path f →
  route_Permission r = item_Permission f.
Proof.
  assert (forallb (λ f, forallb (λ r, negb (seqb (Method r) GET && seqb (Pattern r) (item_Path f)) ||
    seqb (route_Permission r) (item_Permission f)) feature_routes) menu_items = true) as H by (vm_compute; reflexivity).
  intros f r Hf Hr Hm Hp. rewrite forallb_forall in H. apply list_elem_of_In in Hf, Hr. specialize (H f Hf).
  rewrite forallb_forall in H. specialize (H r Hr). unfold seqb in H. to_prop in H. destruct H as [[H|H]|H]; [by destruct H..|done].
Qed.
Lemma menu_key_inj f g : f ∈ menu_items → g ∈ menu_items → item_Key f = item_Key g → f = g.
Proof.
  assert (NoDup (item_Key <$> menu_items)) as Hn by (apply (bool_decide_unpack _); vm_compute; reflexivity).
  intros Hf Hg H. induction menu_items as [|x l IH]; [by apply not_elem_of_nil in Hf|].
  rewrite fmap_cons in Hn. inversion Hn as [|? ? Hx Hl]; subst. apply elem_of_cons in Hf as [->|Hf], Hg as [->|Hg]; [done|..|by apply IH];
    destruct Hx; apply list_elem_of_fmap; [by exists g|by exists f].
Qed.
Lemma menu_apart f g : f ∈ menu_items → g ∈ menu_items → f = g ∨ apart f g = true.
Proof.
  assert (forallb (λ f, forallb (λ g, seqb (item_Key f) (item_Key g) || apart f g) menu_items) menu_items = true) as H
    by (vm_compute; reflexivity).
  intros Hf Hg. rewrite forallb_forall in H. specialize (H f ltac:(by apply list_elem_of_In)).
  rewrite forallb_forall in H. specialize (H g ltac:(by apply list_elem_of_In)). apply orb_true_iff in H as [H|H]; [left|by right].
  apply seqb_eq in H. by apply menu_key_inj.
Qed.
Lemma RequirePermission_serves permission p : RequirePermission permission p = Serve p ↔ Can p permission = true.
Proof. unfold RequirePermission, RequireAnyPermission. cbn. rewrite orb_false_r. by destruct (Can p permission). Qed.

(** C19: the menu and the guards of the pages agree.  The registry of the application
    is accepted, and every route asks for a permission that the application knows.  A
    user sees an entry exactly when the page at its address opens for the user, and
    at most one entry is marked as the current page. *)
Theorem menu_opens p currentPath :
  let shown := page_navigation p currentPath ≫= group_view_shown in
  NewRegistry navigationGroups PermissionDefinitions = Ok navigationGroups ∧
  Forall (λ r, route_Permission r ∈ pd_Key <$> PermissionDefinitions) feature_routes ∧
  (∀ f, f ∈ menu_items →
     (([item_Key f], Some (item_Path f, matches f currentPath)) ∈ shown ↔ opens p (item_Path f)) ∧
     (opens p (item_Path f) → ∀ r, r ∈ feature_routes → Method r = GET → Pattern r = item_Path f →
        RequirePermission (route_Permission r) p = Serve p)) ∧
  (∀ keys place, (keys, place) ∈ shown → ∃ f, f ∈ menu_items ∧ keys = [item_Key f] ∧ place = Some (item_Path f, matches f currentPath)) ∧
  (∀ keys keys' address address', (keys, Some (address, true)) ∈ shown → (keys', Some (address', true)) ∈ shown →
     keys = keys' ∧ address = address').
Proof.
  intros shown. assert (Hs : shown = (λ f, ([item_Key f], Some (item_Path f, matches f currentPath))) <$>
    List.filter (λ f, Can p (item_Permission f)) menu_items).
  { unfold shown, page_navigation. by rewrite Prepare_shown, menu_shown. }
  assert (Hin : ∀ keys place, (keys, place) ∈ shown → ∃ f, f ∈ menu_items ∧ Can p (item_Permission f) = true ∧ keys = [item_Key f] ∧
    place = Some (item_Path f, matches f currentPath)).
  { intros keys place. rewrite Hs, list_elem_of_fmap. intros (f & [= -> ->] & Hf). apply list_elem_of_In, filter_In in Hf as [Hf Hc].
    exists f. split_and!; [by apply list_elem_of_In|done..]. }
  split; [vm_compute; reflexivity|]. split; [apply (bool_decide_unpack _); vm_compute; reflexivity|]. split_and!.
  - intros f Hf. pose proof menu_routes as Hr. rewrite Forall_forall in Hr. destruct (Hr f Hf) as (r & Hr1 & Hr2 & Hr3 & Hr4).
    assert (Ho : opens p (item_Path f) ↔ Can p (item_Permission f) = true).
    { split.
      - intros (r' & H1 & H2 & H3 & H4). rewrite (menu_route_unique f r' Hf H1 H2 H3) in H4. by apply RequirePermission_serves.
      - intros Hc. exists r. rewrite Hr4. split_and!; [done..|by apply RequirePermission_serves]. }
    split; [|intros Hc%Ho r' H1 H2 H3; rewrite (menu_route_unique f r' Hf H1 H2 H3); by apply RequirePermission_serves].
    rewrite Ho. split.
    + intros (g & Hg & Hc & [= E] & _)%Hin. by rewrite (menu_key_inj f g Hf Hg E).
    + intros Hc. rewrite Hs. apply list_elem_of_fmap. exists f. split; [done|]. apply list_elem_of_In, filter_In. split; [by apply list_elem_of_In|done].
  - intros keys place (f & Hf & _ & -> & ->)%Hin. by exists f.
  - intros keys keys' a a' (f & Hf & _ & -> & [= -> Hm])%Hin (g & Hg & _ & -> & [= -> Hm'])%Hin.
    destruct (menu_apart f g Hf Hg) as [->|Ha]; [done|]. rewrite (apart_matches f g currentPath) in Ha by done. discriminate Ha.
Qed.
