(* ===== verification/BrowserAuthFacts.v ===== *)
(** What signing in guarantees: redirects stay on the site, a route serves only
    who may use it, and a login opens a session that carries what the user may do
    until it ends. *)
From stdpp Require Import base list strings gmap sorting.
From Stdlib Require Import ZArith Lia Ascii.
From S2P Require Import Prelude GoStrings GoErrors Database GoSlices GoTime GoEncoding GoJSON GoPath Directory Access AccessFacts AccessGuarantees BrowserAuth.
Local Open Scope Z_scope.

(** ** Redirects *)

(** A target that the browser resolves to a page of this site: one slash and no
    second, no backslash or control byte that it would drop or read as a slash,
    also after decoding the path, and no fragment *)
Record local_target (t : list ascii) : Prop := {
  local_slash : ∃ rest, t = "/"%char :: rest ∧ has_prefix_bytes rest (bytes "/") = false;
  local_backslash : mem_byte backslash t = false;
  local_control : existsb control_byte t = false;
  local_path : ∃ path, parse_rooted t = Some (path, []) ∧ has_prefix_bytes path (bytes "//") = false ∧
    mem_byte backslash path = false
}.

Lemma cut_byte_split sep l a b f :
  cut_byte sep l = (a, b, f) → l = if f then a ++ sep :: b else a.
Proof.
  revert a b f. induction l as [|c l IH]; intros a b f H; cbn in H; [by injection H as <- <- <-|].
  destruct (beq c sep) eqn:E.
  - injection H as <- <- <-. apply beq_eq in E as ->. done.
  - destruct (cut_byte sep l) as [[a' b'] f'] eqn:Hc. injection H as <- <- <-. rewrite (IH a' b' f' eq_refl).
    by destruct f'.
Qed.
Lemma cut_byte_absent_right sep l a b : cut_byte sep l = (a, b, false) → b = [].
Proof.
  revert a b. induction l as [|c l IH]; intros a b H; cbn in H; [by injection H as <- <-|].
  destruct (beq c sep); [done|]. destruct (cut_byte sep l) as [[a' b'] []] eqn:Hc; [done|]. injection H as <- <-. by eapply IH.
Qed.
Lemma unescape_nil l : unescape_bytes l = Some [] → l = [].
Proof.
  destruct l as [|c l1]; [done|]. cbn [unescape_bytes]. intros H. exfalso. destruct (beq c "%").
  - destruct l1 as [|a [|b l2]]; try done. destruct (hex_digit a); [|done]. destruct (hex_digit b); [|done].
    cbn in H. by destruct (unescape_bytes l2).
  - by destruct (unescape_bytes l1).
Qed.
Lemma parse_rooted_control t path : parse_rooted t = Some (path, []) → existsb control_byte t = false.
Proof.
  unfold parse_rooted. destruct (cut_byte "#" t) as [[u fragment] f] eqn:Hc. destruct (existsb control_byte u) eqn:Hu; [done|].
  destruct (cut_byte "?" u) as [[rest q] g]. destruct (unescape_bytes rest); [|done]. cbn.
  destruct (unescape_bytes fragment) as [fr|] eqn:Hf; [|done]. intros [= <- ->]. apply unescape_nil in Hf as ->.
  apply cut_byte_split in Hc as ->. destruct f; [|done]. by rewrite existsb_app, Hu.
Qed.

Lemma SafeRedirect_cases target :
  SafeRedirect target = default_page ∨ (SafeRedirect target = target ∧ local_target (bytes target)).
Proof.
  unfold SafeRedirect. set (t := bytes target).
  destruct (has_prefix_bytes t (bytes "/")) eqn:H1; [|by left]. destruct (has_prefix_bytes t (bytes "//")) eqn:H2; [by left|].
  destruct (mem_byte backslash t) eqn:H3; [by left|]. cbn [negb orb].
  destruct (parse_rooted t) as [[path fragment]|] eqn:Hp; [|by left].
  destruct (has_prefix_bytes path _) eqn:H4; [by left|]. destruct (mem_byte backslash path) eqn:H5; [by left|].
  case_bool_decide as H6; [|by left]. right. split; [done|]. subst fragment. constructor; [|done|by eapply parse_rooted_control|by exists path].
  destruct t as [|c rest]; [done|]. cbn in H1. apply andb_true_iff in H1 as [H1%beq_eq _].
  subst c. exists rest. split; [done|exact H2].
Qed.
Lemma default_page_local : local_target (bytes default_page).
Proof. constructor; [by eexists|done|done|]. exists (bytes default_page). vm_compute. done. Qed.
Lemma SafeRedirect_id target : local_target (bytes target) → SafeRedirect target = target.
Proof.
  intros [(rest & Hr & Hn) Hb _ (path & Hp & H1 & H2)]. unfold SafeRedirect. rewrite Hb, Hp, H1, H2, Hr.
  assert (has_prefix_bytes ("/"%char :: rest) (bytes "//") = false) as -> by exact Hn.
  assert (has_prefix_bytes ("/"%char :: rest) (bytes "/") = true) as -> by (by destruct rest). done.
Qed.

(** C39: a redirect never leaves the site, whatever the target asks for; a target
    on the site is kept, and the login page it passes through brings the user back
    to it: the "next" of the login address decodes to the target. *)
Theorem SafeRedirect_local target r :
  local_target (bytes (SafeRedirect target)) ∧
  (local_target (bytes target) → SafeRedirect target = target) ∧
  SafeRedirect (SafeRedirect target) = SafeRedirect target ∧
  ∃ q, login_location r = ("/login?next=" +:+ q)%string ∧ SafeRedirect <$> QueryUnescape q = Some (SafeRedirect (RequestURI r)).
Proof.
  assert (Hl : ∀ t, local_target (bytes (SafeRedirect t))).
  { intros t. destruct (SafeRedirect_cases t) as [->|[-> ?]]; [apply default_page_local|done]. }
  split_and!; [apply Hl|apply SafeRedirect_id|apply SafeRedirect_id, Hl|].
  eexists. split; [reflexivity|]. rewrite QueryUnescape_escape. cbn. f_equal. apply SafeRedirect_id, Hl.
Qed.

(** ** Who gets through *)

Lemma on_select_Ok {A} (f : directory → A) w a w' :
  on_tables (select f) w = (Ok a, w') → a = f (dir (settle (tables w))) ∧ tables w' = settle (tables w).
Proof.
  unfold on_tables. intros H. apply db_bind_Ok in H as (u & w1 & H1 & H). injection H1 as _ <-.
  by apply select_Ok in H.
Qed.
Lemma found_select_Ok {A} none m (f : directory → option A) w a w' :
  found none m (on_tables (select f)) w = (Ok a, w') →
  f (dir (settle (tables w))) = Some a ∧ tables w' = settle (tables w).
Proof.
  unfold found. intros H. apply db_bind_Ok in H as (o & w1 & H1 & H). apply wrapped_Ok, on_select_Ok in H1 as [-> E].
  destruct (f _) as [b|]; [|done]. by injection H as -> <-.
Qed.
Lemma recover_Ok {S A} (c : db S A) k w a w' :
  recover c k w = (Ok a, w') → c w = (Ok a, w') ∨ ∃ e w1, c w = (Fail e, w1) ∧ k e w1 = (Ok a, w').
Proof. unfold recover. destruct (c w) as [[b|e] w1]; [by left|]. right. by exists e, w1. Qed.

Lemma revokeUnauthenticated_Fail {A} hash w (a : A) w' : revokeUnauthenticated hash w ≠ (Ok a, w').
Proof. unfold revokeUnauthenticated. intros H. by apply db_bind_Ok in H as (u & w1 & _ & H). Qed.

Definition resolved (s : Session) (u : User) (keys : list string) : Principal :=
  {| pr_UserID := user_ID u; pr_Username := Username u; pr_Name := Name u;
     Permissions := NewPermissionSet (keys ++ [PermissionLoanInquiry]); SessionID := session_ID s;
     pr_RememberMe := RememberMe s |}.

(** The tables that the three reads of [ResolveSession] see *)
Lemma ResolveSession_Ok hash now w p w' (s1 := settle (tables w)) (s2 := settle s1) (s3 := settle s2) :
  ResolveSession hash now w = (Ok p, w') →
  ∃ s u, valid_session hash now (dir s1) = Some s ∧ users (dir s2) !! UserID s = Some u ∧ IsActive u = true ∧
    p = resolved s u (SortStableFunc string_leb (granted_keys (dir s3) (user_ID u))).
Proof.
  unfold ResolveSession. intros H. apply db_bind_Ok in H as (s & w1 & H1 & H).
  apply recover_Ok in H1 as [H1|(e & w0 & _ & H1)]; [|done]. unfold FindValidByTokenHash in H1.
  apply db_bind_Ok in H1 as (row & w0 & H1%found_select_Ok & H2). destruct H1 as [Hs E1].
  apply lift_Ok in H2 as [Hrow ->]. unfold row_session in Hrow. inv_ok. rename s into row, Hs into Hs'.
  apply db_bind_Ok in H as (o & w2 & H2 & H). unfold session_user in H2.
  apply recover_Ok in H2 as [H2|(e & w3 & _ & H2)].
  2: { destruct (Is e UserErrNotFound); [|done]. injection H2 as <- <-. by apply revokeUnauthenticated_Fail in H. }
  apply db_bind_Ok in H2 as (u & w3 & H2%found_select_Ok & H3). destruct H2 as [Hu E2]. injection H3 as <- <-.
  rewrite E1 in Hu, E2. destruct (IsActive u) eqn:Ha; cbn [negb] in H; [|by apply revokeUnauthenticated_Fail in H].
  apply db_bind_Ok in H as (keys & w4 & H4 & H). apply wrapped_Ok, wrapped_Ok, on_select_Ok in H4 as [-> E4].
  apply db_bind_Ok in H as (? & w5 & _ & H). injection H as <- <-. rewrite E2. by exists row, u.
Qed.

Lemma valid_session_Some hash now d s :
  valid_session hash now d = Some s →
  ∃ id, sessions d !! id = Some s ∧ TokenHash s = hash ∧ datetime6 now < ExpiresAt s.
Proof.
  unfold valid_session. destruct (session_with d hash) as [s'|] eqn:Hs; [|done].
  destruct (_ <? _) eqn:E; [|done]. intros [= ->]. apply session_with_Some in Hs as (id & Hid & Hh).
  exists id. split_and!; [done..|]. by apply Z.ltb_lt.
Qed.
Lemma settle_safe s :
  Forall (respects safe) (others s) → safe (dir s) (dir (settle s)) ∧ Forall (respects safe) (others (settle s)).
Proof. intros Ho. exact (evolves_interfere safe (World s []) _ _ eq_refl Ho). Qed.

Lemma Has_resolved s u keys key : Can (resolved s u keys) key = true ↔ key ∈ keys ∨ key = PermissionLoanInquiry.
Proof.
  unfold Can, Has, resolved, NewPermissionSet. cbn. rewrite bool_decide_eq_true, elem_of_list_to_set, elem_of_app, list_elem_of_singleton.
  done.
Qed.

(** What it takes to be served *)
Lemma guarded_route_Serve permission r now w p cleared w' :
  guarded_route permission r now w = (Serve p, cleared, w') →
  ∃ token, rq_cookie r = Some token ∧ validToken token = true ∧
    ResolveSession (HashToken token) now w = (Ok p, w') ∧ Can p permission = true.
Proof.
  unfold guarded_route, LoadPrincipal. destruct (rq_cookie r) as [token|] eqn:Hc.
  2: { cbn. by destruct (HX_Request r). }
  destruct (validToken token) eqn:Hv; cbn [negb]; [|cbn; by destruct (HX_Request r)].
  destruct (ResolveSession (HashToken token) now w) as [[q|e] w1] eqn:Hr.
  2: { destruct (Is e ErrUnauthenticated); cbn; [by destruct (HX_Request r)|done]. }
  cbn. unfold RequirePermission, RequireAnyPermission. cbn. rewrite orb_false_r. destruct (Can q permission) eqn:Hcan; [|done].
  intros [= -> <- <-]. by exists token.
Qed.

(** ** Sessions from login to logout *)

(** Calls of a moment when no other request interferes *)
Definition quiet (s s' : access_db) : Prop := others s = [] → others s' = [].
#[export] Instance quiet_preorder : PreOrder quiet.
Proof. split; [by intros s H|]. intros s1 s2 s3 H1 H2 H. by apply H2, H1. Qed.
Lemma quiet_on_tables {A} (f : directory → res (A * directory)) : evolves quiet (on_tables f).
Proof.
  apply evolves_bind; [apply _| |].
  - intros w r w' [= <- <-] Ho. cbn. unfold settle. by rewrite Ho.
  - intros _. apply evolves_statement; [apply _|]. intros s a s' H Ho.
    by apply bind_Ok in H as ([b d] & _ & [= <- <-]).
Qed.
Ltac quiet_step :=
  first [ apply quiet_on_tables | apply evolves_wrapped | apply evolves_lift | apply evolves_ret | apply evolves_fail
        | apply evolves_bind; [| |intros ?] | apply evolves_recover; [| |intros ?] ]; try typeclasses eauto.
Lemma quiet_FindByUsername name : evolves quiet (FindByUsername name).
Proof. unfold FindByUsername, found. repeat quiet_step. by case_match; repeat quiet_step. Qed.
Lemma quiet_user_Create username name active now : evolves quiet (user_Create username name active now).
Proof. unfold user_Create, taken. repeat quiet_step. Qed.

Lemma settled s : others s = [] → settle s = s.
Proof. unfold settle. by intros ->. Qed.
Lemma on_tables_Ok {A} (f : directory → res (A * directory)) w a w' :
  others (tables w) = [] → on_tables f w = (Ok a, w') →
  ∃ d, f (dir (tables w)) = Ok (a, d) ∧ tables w' = {| dir := d; others := [] |}.
Proof.
  intros Ho H. unfold on_tables in H. apply db_bind_Ok in H as (u & w1 & H1 & H). injection H1 as _ <-.
  apply inside_Ok in H as (d & Hd & ->). cbn in Hd |- *. rewrite settled in * by done. rewrite Ho. by exists d.
Qed.

(** The row of a user that a call returns *)
Definition row_of (d : directory) (u : User) : Prop :=
  ∃ row, users d !! user_ID u = Some row ∧ user_ID row = user_ID u ∧ Username row = Username u ∧ Name row = Name u ∧ IsActive row = IsActive u.
Lemma FindByUsername_Ok name w u w' :
  well_formed (dir (tables w)) → others (tables w) = [] → FindByUsername name w = (Ok u, w') →
  row_of (dir (tables w')) u ∧ Username u = NormalizeUsername name ∧ tables w' = tables w.
Proof.
  intros Hwf Ho H. unfold FindByUsername in H. apply db_bind_Ok in H as (? & w1 & H1 & H). apply lift_Ok in H1 as [_ ->].
  apply found_select_Ok in H as [Hu E]. rewrite settled in * by done. rewrite E.
  apply user_named_Some in Hu as (id & Hid & Hn). destruct (wf_users _ Hwf _ _ Hid) as [Hu _].
  split_and!; [|done..]. exists u. by rewrite Hu.
Qed.
Lemma user_Create_Ok username name active now w u w' :
  others (tables w) = [] → user_Create username name active now w = (Ok u, w') →
  row_of (dir (tables w')) u ∧ Username u = NormalizeUsername username ∧ others (tables w') = [].
Proof.
  intros Ho H. unfold user_Create in H. apply db_bind_Ok in H as (? & w1 & H1 & H). apply lift_Ok in H1 as [_ ->].
  apply db_bind_Ok in H as (? & w1 & H1 & H). apply lift_Ok in H1 as [_ ->].
  apply db_bind_Ok in H as (id & w1 & H1 & H). apply recover_Ok in H1 as [H1|(e & w2 & _ & H1)]; [|done].
  apply on_tables_Ok in H1 as (d & Hd & E); [|done]. injection H as <- <-. rewrite E. split_and!; [|done..].
  unfold insert_user in Hd. destruct (user_named _ _); [done|]. injection Hd as <- <-.
  eexists. cbn. by rewrite lookup_insert_eq.
Qed.
Lemma quiet_and_safe {A} (c : db access_db A) w r w' :
  preserves c → evolves quiet c → well_formed (dir (tables w)) → others (tables w) = [] → c w = (r, w') →
  well_formed (dir (tables w')) ∧ others (tables w') = [].
Proof.
  intros Hc Hq Hwf Ho Hr. split; [|by apply (Hq _ _ _ Hr)].
  assert (Forall (respects safe) (others (tables w))) as Hf by (by rewrite Ho).
  destruct (Hc _ _ _ Hr Hf) as [[HC _] _]. by apply HC.
Qed.
Lemma FindOrCreate_Ok name now w u b w' :
  well_formed (dir (tables w)) → others (tables w) = [] →
  FindOrCreateFromAuthenticatedUsername name now w = (Ok (u, b), w') →
  row_of (dir (tables w')) u ∧ Username u = NormalizeUsername name ∧ others (tables w') = [].
Proof.
  intros Hwf Ho H. unfold FindOrCreateFromAuthenticatedUsername in H.
  apply db_bind_Ok in H as (? & w1 & H1 & H). apply lift_Ok in H1 as [_ ->].
  assert (Hfind : ∀ w (v : User * bool) w', well_formed (dir (tables w)) → others (tables w) = [] →
            (FindByUsername (NormalizeUsername name) ≫= λ u, mret (u, false)) w = (Ok v, w') →
            row_of (dir (tables w')) v.1 ∧ Username v.1 = NormalizeUsername name ∧ others (tables w') = []).
  { clear. intros w v w' Hwf Ho H. apply db_bind_Ok in H as (u & w1 & H & Hr). injection Hr as <- <-.
    apply FindByUsername_Ok in H as (? & Hn & E); [|done..]. rewrite E. rewrite E in H. rewrite valid_normalized in Hn. done. }
  apply recover_Ok in H as [H|(e & w1 & H1 & H)]; [exact (Hfind _ (u, b) _ Hwf Ho H)|].
  destruct (quiet_and_safe _ _ _ _ (evolves_bind _ _ _ (FindByUsername_preserves _) (λ u, evolves_ret _ (u, false)))
              (evolves_bind _ _ _ (quiet_FindByUsername _) (λ u, evolves_ret _ (u, false))) Hwf Ho H1) as [Hwf1 Ho1].
  destruct (negb _); [done|]. apply recover_Ok in H as [H|(e' & w2 & H2 & H)].
  - apply db_bind_Ok in H as (v & w2 & H & Hr). injection Hr as <- <- <-. apply user_Create_Ok in H as (? & Hn & ?); [|done].
    by rewrite valid_normalized in Hn.
  - destruct (quiet_and_safe _ _ _ _ (evolves_bind _ _ _ (user_Create_preserves _ _ _ _) (λ u, evolves_ret _ (u, true)))
              (evolves_bind _ _ _ (quiet_user_Create _ _ _ _) (λ u, evolves_ret _ (u, true))) Hwf1 Ho1 H2) as [Hwf2 Ho2].
    destruct (negb _); [done|]. exact (Hfind _ (u, b) _ Hwf2 Ho2 H).
Qed.

Lemma CreateSession_Ok user hash remember expires seen now w s w' :
  others (tables w) = [] → CreateSession user hash remember expires seen now w = (Ok s, w') →
  users (dir (tables w')) = users (dir (tables w)) ∧ others (tables w') = [] ∧
  ∃ row, sessions (dir (tables w')) !! session_ID s = Some row ∧ TokenHash row = hash ∧ UserID row = user ∧
    ExpiresAt row = datetime6 expires ∧ RememberMe row = remember.
Proof.
  intros Ho H. unfold CreateSession in H.
  do 4 (apply db_bind_Ok in H as (? & ? & Hl & H); apply lift_Ok in Hl as [_ ->]).
  apply db_bind_Ok in H as (id & w1 & H1 & H). apply wrapped_Ok, on_tables_Ok in H1 as (d & Hd & E); [|done].
  injection H as <- <-. rewrite E. cbn [dir others session_ID]. unfold insert_session in Hd.
  destruct (session_with _ _); [done|]. case_bool_decide; [|done]. injection Hd as <- <-. cbn.
  split_and!; [done..|]. eexists. by rewrite lookup_insert_eq.
Qed.

(** A statement that fails was applied or not. *)
Lemma tried_change (f : directory → directory) m w r w' :
  others (tables w) = [] → recover (wrapped m (on_tables (change f))) (λ _, mret tt) w = (r, w') →
  others (tables w') = [] ∧ (dir (tables w') = dir (tables w) ∨ dir (tables w') = f (dir (tables w))).
Proof.
  intros Ho H. unfold recover, wrapped, on_tables in H. unfold mbind, db_bind, interfere in H.
  rewrite settled in H by done. unfold inside, statement, next_fault in H. destruct (tables w) as [d o]. cbn in Ho, H. subst o.
  cbn. destruct (faults w) as [|[[[] e]|] rest]; cbn in H; injection H as _ <-; cbn; auto.
Qed.

Lemma sign_in_preserves lifetime rememberLifetime canonical remember random now :
  preserves (sign_in lifetime rememberLifetime canonical remember random now).
Proof.
  unfold sign_in. apply evolves_bind; [apply _|repeat call_step|]. intros _.
  apply evolves_bind; [apply _|call_step; apply FindOrCreate_preserves|]. intros [u b].
  apply evolves_check; [apply _|]. intros _.
  apply evolves_bind; [apply _|call_step; apply CreateSession_preserves, length_Sum256|]. intros s.
  apply evolves_bind; [apply _| |intros _; repeat call_step].
  apply evolves_recover; [apply _|apply UpdateLastLoginAt_preserves|]. intros e. repeat call_step.
Qed.
Lemma sign_in_Ok lifetime rememberLifetime canonical remember random now w r w' :
  well_formed (dir (tables w)) → others (tables w) = [] →
  sign_in lifetime rememberLifetime canonical remember random now w = (Ok r, w') →
  let d := dir (tables w') in
  others (tables w') = [] ∧ row_of d (lr_User r) ∧ IsActive (lr_User r) = true ∧
  Username (lr_User r) = NormalizeUsername canonical ∧ RawToken r = GenerateToken random ∧
  ∃ row, sessions d !! session_ID (lr_Session r) = Some row ∧ TokenHash row = HashToken (RawToken r) ∧
    UserID row = user_ID (lr_User r) ∧ ExpiresAt row = datetime6 (now + (if remember then rememberLifetime else lifetime)).
Proof.
  intros Hwf Ho H. unfold sign_in in H. apply db_bind_Ok in H as (? & w1 & H1 & H). apply wrapped_Ok, lift_Ok in H1 as [_ ->].
  apply db_bind_Ok in H as ([u b] & w2 & H2 & H). apply wrapped_Ok, FindOrCreate_Ok in H2 as (Hrow & Hn & Ho2); [|done..].
  apply db_bind_Ok in H as (? & w3 & H3 & H). apply lift_Ok in H3 as [Ha ->]. apply fail_if_Ok, negb_false_iff in Ha.
  apply db_bind_Ok in H as (s & w4 & H4 & H). apply wrapped_Ok, CreateSession_Ok in H4 as (Hu & Ho4 & row & Hs & Hr); [|done].
  apply db_bind_Ok in H as (? & w5 & H5 & H). injection H as <- <-. apply tried_change in H5 as [Ho5 E5]; [|done].
  unfold row_of in *. rewrite <- Hu in Hrow. destruct Hrow as (urow & Hurow & Hid & Hname & Hnm & Hact). cbn.
  split_and!; try done.
  - destruct E5 as [->| ->]; [by exists urow|]. unfold update_user. rewrite Hurow. cbn. rewrite lookup_insert_eq.
    by exists (logged_in now urow).
  - exists row. destruct Hr as (-> & -> & -> & _). split_and!; try done. destruct E5 as [->| ->]; [done|].
    unfold update_user. by rewrite Hurow.
Qed.

(** A request for a session when nothing fails and nobody interferes *)
Definition resolve (d : directory) (hash : list ascii) (now : time) : res Principal :=
  fst (ResolveSession hash now (World {| dir := d; others := [] |} [])).
Lemma run_select {A} (f : directory → A) d :
  on_tables (select f) (World {| dir := d; others := [] |} []) = (Ok (f d), World {| dir := d; others := [] |} []).
Proof. done. Qed.
Lemma resolve_spec d hash now :
  well_formed d →
  resolve d hash now =
    match valid_session hash now d with
    | None => Fail (Sentinel ErrUnauthenticated)
    | Some s => match users d !! UserID s with
                | Some u => if IsActive u then Ok (resolved s u (SortStableFunc string_leb (granted_keys d (user_ID u))))
                            else Fail (Sentinel ErrUnauthenticated)
                | None => Fail (Sentinel ErrUnauthenticated)
                end
    end.
Proof.
  intros Hwf. unfold resolve, ResolveSession, FindValidByTokenHash, session_user, FindByID, ListPermissionKeysForUser, found.
  unfold mbind, db_bind, recover, wrapped. rewrite !run_select.
  destruct (valid_session hash now d) as [s|] eqn:Hs; [|done]. apply valid_session_Some in Hs as (id & Hs & _).
  destruct (wf_sessions _ Hwf _ _ Hs) as (_ & _ & _ & Hlen & _).
  cbn [mret db_ret lift]. unfold row_session. rewrite Hlen. cbn [Nat.eqb negb fail_if mbind result_bind lift].
  rewrite run_select. destruct (users d !! UserID s) as [u|]; [|done]. cbn [mret db_ret].
  destruct (IsActive u); cbn [negb]; [|done]. rewrite run_select.
  destruct (LastSeenTouchInterval <=? _); [|done]. reflexivity.
Qed.

Lemma valid_session_unique d id s hash now :
  well_formed d → sessions d !! id = Some s → TokenHash s = hash →
  valid_session hash now d = if datetime6 now <? ExpiresAt s then Some s else None.
Proof.
  intros Hwf Hs Hh. unfold valid_session. destruct (session_with d hash) as [s'|] eqn:E.
  - apply session_with_Some in E as (id' & Hs' & Hh'). assert (id' = id) as -> by (eapply (wf_hashes d Hwf); eauto; congruence).
    by assert (s' = s) as -> by congruence.
  - by destruct (session_with_None _ _ _ _ E Hs).
Qed.
Lemma quiet_route permission r now d :
  (∃ p, (guarded_route permission r now (World {| dir := d; others := [] |} [])).1.1 = Serve p) ↔
  ∃ p token, rq_cookie r = Some token ∧ validToken token = true ∧ resolve d (HashToken token) now = Ok p ∧ Can p permission = true.
Proof.
  split.
  - intros (p & H). destruct (guarded_route _ _ _ _) as [[reply cleared] w'] eqn:E. cbn in H. subst.
    apply guarded_route_Serve in E as (token & Hc & Hv & Hr & Hcan). exists p, token. unfold resolve. by rewrite Hr.
  - intros (p & token & Hc & Hv & Hr & Hcan). exists p. unfold guarded_route, LoadPrincipal. rewrite Hc, Hv. cbn [negb].
    unfold resolve in Hr. destruct (ResolveSession _ _ _) as [r0 w0]. cbn [fst] in Hr. subst r0.
    cbn. unfold RequirePermission, RequireAnyPermission. cbn. by rewrite Hcan.
Qed.

(** C4: a route serves a request only when its cookie holds a token whose hash is
    that of an unexpired session in the tables at the first read, the session's user
    is active in the tables at the second, and has been granted the permission of the
    route in the tables at the third, or the route needs only the loan inquiry that
    every user has; the tables of the reads are those of the request with the effects
    of whatever other requests came in between, and the principal may do exactly what
    was granted there.  When nothing fails and nobody interferes the converse holds
    too: the route serves exactly those requests. *)
Theorem guarded_route_sound permission r now w :
  well_formed (dir (tables w)) → Forall (respects safe) (others (tables w)) →
  let s1 := settle (tables w) in let s2 := settle s1 in let s3 := settle s2 in
  (∀ p cleared w', guarded_route permission r now w = (Serve p, cleared, w') →
     safe (dir (tables w)) (dir s1) ∧ safe (dir s1) (dir s2) ∧ safe (dir s2) (dir s3) ∧
     ∃ token s u,
       rq_cookie r = Some token ∧ validToken token = true ∧
       sessions (dir s1) !! SessionID p = Some s ∧ TokenHash s = HashToken token ∧ datetime6 now < ExpiresAt s ∧
       UserID s = pr_UserID p ∧ users (dir s2) !! pr_UserID p = Some u ∧ IsActive u = true ∧
       pr_Username p = Username u ∧
       (permission = PermissionLoanInquiry ∨ permission ∈ granted_keys (dir s3) (pr_UserID p)) ∧
       (∀ key, Can p key = true ↔ key = PermissionLoanInquiry ∨ key ∈ granted_keys (dir s3) (pr_UserID p))) ∧
  (∀ d, w = World {| dir := d; others := [] |} [] →
     ((∃ p, (guarded_route permission r now w).1.1 = Serve p) ↔
      ∃ token s u id,
        rq_cookie r = Some token ∧ validToken token = true ∧
        sessions d !! id = Some s ∧ TokenHash s = HashToken token ∧ datetime6 now < ExpiresAt s ∧
        users d !! UserID s = Some u ∧ IsActive u = true ∧
        (permission = PermissionLoanInquiry ∨ permission ∈ granted_keys d (UserID s)))).
Proof.
  intros Hwf Ho s1 s2 s3. split.
  - intros p cleared w'. destruct (settle_safe _ Ho) as [S1 O1]. destruct (settle_safe _ O1) as [S2 O2]. destruct (settle_safe _ O2) as [S3 _].
    fold s1 in S1, S2, S3. fold s2 in S2, S3. fold s3 in S3.
    intros (token & Hc & Hv & Hr & Hcan)%guarded_route_Serve. split_and!; [done..|].
    apply ResolveSession_Ok in Hr as (s & u & Hs & Hu & Ha & ->). fold s1 s2 s3 in Hs, Hu, Hcan |- *.
    assert (W1 : well_formed (dir s1)) by (by apply S1). assert (W2 : well_formed (dir s2)) by (by apply S2).
    apply valid_session_Some in Hs as (id & Hs & Hh & Hx). destruct (wf_sessions _ W1 _ _ Hs) as [Hid _].
    destruct (wf_users _ W2 _ _ Hu) as [Huid _].
    assert (Hkeys : ∀ key, Can (resolved s u (SortStableFunc string_leb (granted_keys (dir s3) (user_ID u)))) key = true ↔
              key = PermissionLoanInquiry ∨ key ∈ granted_keys (dir s3) (user_ID u)).
    { intros key. rewrite Has_resolved, (SortStableFunc_perm string_leb). tauto. }
    exists token, s, u. cbn [pr_UserID SessionID pr_Username resolved]. rewrite Hid, Huid.
    apply Hkeys in Hcan. rewrite Huid in Hkeys, Hcan. split_and!; done.
  - intros d ->. cbn [tables dir] in Hwf. rewrite quiet_route. pose proof (resolve_spec d) as Hres. split.
    + intros (p & token & Hc & Hv & Hr & Hcan). rewrite Hres in Hr by done.
      destruct (valid_session _ _ _) as [s|] eqn:Hs; [|done]. apply valid_session_Some in Hs as (id & Hs & Hh & Hx).
      destruct (users d !! UserID s) as [u|] eqn:Hu; [|done]. destruct (IsActive u) eqn:Ha; [|done]. injection Hr as <-.
      destruct (wf_users _ Hwf _ _ Hu) as [Huid _]. rewrite Has_resolved, (SortStableFunc_perm string_leb), Huid in Hcan.
      exists token, s, u, id. split_and!; try done. tauto.
    + intros (token & s & u & id & Hc & Hv & Hs & Hh & Hx & Hu & Ha & Hp).
      destruct (wf_users _ Hwf _ _ Hu) as [Huid _].
      eexists _, token. split_and!; [done..| |].
      * rewrite Hres, (valid_session_unique _ _ _ _ _ Hwf Hs Hh) by done. apply Z.ltb_lt in Hx. rewrite Hx, Hu, Ha. reflexivity.
      * rewrite Has_resolved, (SortStableFunc_perm string_leb), Huid. tauto.
Qed.

Lemma valid_session_gone d hash now :
  (∀ id s, sessions d !! id = Some s → TokenHash s ≠ hash) → valid_session hash now d = None.
Proof.
  intros Hn. unfold valid_session. destruct (session_with d hash) as [s|] eqn:E; [|done].
  apply session_with_Some in E as (id & Hs & Hh). by destruct (Hn _ _ Hs).
Qed.
Lemma deleted_sessions gone d id s :
  sessions (delete_sessions gone d) !! id = Some s ↔ sessions d !! id = Some s ∧ gone s = false.
Proof. cbn. by rewrite map_lookup_filter_Some. Qed.

Lemma generated_token_valid random : length random = TokenBytes → validToken (GenerateToken random) = true.
Proof.
  intros Hl. unfold validToken, GenerateToken, slen. rewrite bytes_of_bytes, base64_decode_encode, length_base64_encode, Hl.
  vm_compute. reflexivity.
Qed.

Lemma status_update_Ok r user active now w u w' :
  status_update r user active now w = (Ok u, w') →
  ∃ row target, users (dir (tables w)) !! user = Some target ∧
    audit_entry (user_event r (if active then "user.activated" else "user.deactivated") user
      (StatusChangeMetadata (status (IsActive target)) (status active)) now) = Ok row ∧
    let d1 := update_user user (activated active now) (dir (tables w)) in
    let d2 := if active then d1 else delete_sessions (λ s, UserID s =? user) d1 in
    tables w' = {| dir := set_audit_logs d2 (audit_logs d2 ++ [row]); others := others (tables w) |}.
Proof.
  intros H. unfold status_update in H.
  apply db_bind_Ok in H as (p & w1 & H1%lockManagePermission_Ok & H). destruct H1 as [_ E1].
  apply db_bind_Ok in H as (t & w2 & H2%lock_user_Ok & H). destruct H2 as [Ht E2]. rewrite E1 in Ht, E2.
  apply db_bind_Ok in H as (? & w3 & H3 & H). apply wrapped_Ok, change_Ok in H3. rewrite E2 in H3.
  apply db_bind_Ok in H as (? & w4 & H4 & H). apply Append_Ok in H as (row & Hrow & ->). exists row, t. split_and!; [done..|].
  destruct active.
  - injection H4 as _ <-. by rewrite H3.
  - apply db_bind_Ok in H4 as (? & w5 & H5 & H4). apply wrapped_Ok, change_Ok in H5.
    apply requireActiveManager_Ok in H4 as [_ ->]. by rewrite H5, H3.
Qed.
Lemma SetActive_Ok r user active now w u w' :
  others (tables w) = [] → SetActive r user active now w = (Ok u, w') →
  others (tables w') = [] ∧
  (∃ row, users (dir (tables w')) !! user = Some row ∧ IsActive row = active) ∧
  (active = false → ∀ id s, sessions (dir (tables w')) !! id = Some s → UserID s ≠ user) ∧
  sessions (dir (tables w')) ⊆ sessions (dir (tables w)) ∧
  (∀ id s, sessions (dir (tables w)) !! id = Some s → UserID s ≠ user → sessions (dir (tables w')) !! id = Some s).
Proof.
  intros Ho H. unfold SetActive in H. apply db_bind_Ok in H as (? & w1 & H1 & H). apply lift_Ok in H1 as [_ ->].
  unfold store_SetUserActive, exclusively in H. apply db_bind_Ok in H as (? & w1 & H1 & H). injection H1 as _ <-.
  apply transaction_atomic in H as (rest & w2 & H & E). cbn [tables] in H. rewrite settled in H by done.
  apply status_update_Ok in H as (row & target & Ht & _ & E2). cbn [tables] in Ht, E2. rewrite E, E2.
  assert (Hu : update_user user (activated active now) (dir (tables w)) =
            set_users (dir (tables w)) (<[user := activated active now target]> (users (dir (tables w)))) (next_user (dir (tables w))))
    by (unfold update_user; by rewrite Ht).
  rewrite Hu. split_and!; [done| | | |].
  - exists (activated active now target). destruct active; cbn; by rewrite lookup_insert_eq.
  - intros -> id s Hs. cbn in Hs. apply map_lookup_filter_Some in Hs as [_ Hs]. cbn in Hs. by apply Z.eqb_neq in Hs.
  - destruct active; [done|]. apply map_filter_subseteq.
  - intros id s Hs Hne. destruct active; cbn; [done|]. apply map_lookup_filter_Some. split; [done|]. by apply Z.eqb_neq.
Qed.

Lemma Login_well_formed lower authenticate lifetime rememberLifetime input random now s w r s' w' :
  well_formed (dir (tables w)) → others (tables w) = [] →
  Login lower authenticate lifetime rememberLifetime input random now s w = (r, s', w') → well_formed (dir (tables w')).
Proof.
  intros Hwf Ho H. unfold Login in H. destruct (unusable input); [by injection H as _ _ <-|].
  destruct (blocked _ _ _) as [[] f]; [by injection H as _ _ <-|].
  destruct (authenticate _ _) as [[]|e]; [|by destruct (Is e _); injection H as _ _ <-].
  destruct (sign_in _ _ _ _ _ _ _) as [r1 w1] eqn:Hsign. injection H as <- <- <-.
  assert (Forall (respects safe) (others (tables w))) as Hf by (by rewrite Ho).
  destruct (sign_in_preserves _ _ _ _ _ _ _ _ _ Hsign Hf) as [[HC _] _]. by apply HC.
Qed.

(** C6: a login that succeeds was confirmed by Fincloud and opens a session: the
    token in the cookie gets the user's permissions until the session expires and
    nothing afterwards, and never again once the user has logged out or has been
    deactivated. *)
Theorem Login_opens_session lower authenticate lifetime rememberLifetime input random now s w result s' w' :
  well_formed (dir (tables w)) → others (tables w) = [] → length random = TokenBytes →
  Login lower authenticate lifetime rememberLifetime input random now s w = (Ok result, s', w') →
  let d := dir (tables w') in
  let hash := HashToken (RawToken result) in
  let user := user_ID (lr_User result) in
  let expiry := datetime6 (now + (if li_RememberMe input then rememberLifetime else lifetime)) in
  authenticate (asked s) (attempt_of input now) = Ok tt ∧
  Username (lr_User result) = TrimSpace (li_Username input) ∧ validToken (RawToken result) = true ∧
  (∀ t, if datetime6 t <? expiry
        then ∃ p, resolve d hash t = Ok p ∧ pr_UserID p = user ∧ pr_Username p = TrimSpace (li_Username input) ∧
               ∀ key, Can p key = true ↔ key ∈ granted_keys d user ∨ key = PermissionLoanInquiry
        else resolve d hash t = Fail (Sentinel ErrUnauthenticated)) ∧
  (∀ faults u w2, Logout hash (World (tables w') faults) = (Ok u, w2) →
     ∀ t, resolve (dir (tables w2)) hash t = Fail (Sentinel ErrUnauthenticated)) ∧
  (∀ r t0 faults u w2, SetActive r user false t0 (World (tables w') faults) = (Ok u, w2) →
     ∀ t, resolve (dir (tables w2)) hash t = Fail (Sentinel ErrUnauthenticated)).
Proof.
  intros Hwf Ho Hlen H. pose proof (Login_well_formed _ _ _ _ _ _ _ _ _ _ _ _ Hwf Ho H) as Hwfd.
  unfold Login in H. destruct (unusable input); [done|].
  destruct (blocked _ _ _) as [[] f]; [done|]. destruct (authenticate _ _) as [[]|e] eqn:Hauth; [|by destruct (Is _ _)].
  destruct (sign_in _ _ _ _ _ _ _) as [r w1] eqn:Hsign. injection H as -> <- <-. intros d hash user expiry.
  fold d in Hwfd.
  destruct (sign_in_Ok _ _ _ _ _ _ _ _ _ Hwf Ho Hsign) as (Ho1 & (urow & Hu & Hid & Hname & _ & Hact) & Ha & Hn & Htok & row & Hs & Hh & Hsu & Hexp).
  fold d in Hu, Hs. fold user in Hu, Hid, Hsu. fold expiry in Hexp.
  assert (Hwhole : tables w1 = {| dir := d; others := [] |}) by (unfold d; destruct (tables w1); cbn in *; by subst).
  unfold NormalizeUsername in Hn. rewrite !TrimSpace_idem in Hn. split_and!; [done|done|rewrite Htok; by apply generated_token_valid|..].
  - intros t. rewrite resolve_spec, (valid_session_unique _ _ _ _ _ Hwfd Hs Hh), Hexp by done.
    destruct (_ <? _); [|done]. rewrite Hsu, Hu, Hact, Ha. eexists. split; [done|]. cbn.
    rewrite Hid, Hname, Hn. split_and!; [done..|]. intros key. by rewrite Has_resolved, (SortStableFunc_perm string_leb).
  - intros faults u w2 Hl t. unfold Logout in Hl. apply wrapped_Ok, wrapped_Ok, on_tables_Ok in Hl as (d2 & [= <- <-] & E); [|done].
    rewrite E. cbn [dir tables]. fold d. rewrite resolve_spec by (by apply delete_sessions_consistent).
    rewrite valid_session_gone; [done|]. intros id s0 [_ Hg]%deleted_sessions. by apply bool_decide_eq_false in Hg.
  - intros r t0 faults u w2 Hd t. assert (Hf : Forall (respects safe) (others (tables (World (tables w1) faults)))) by (cbn; by rewrite Ho1).
    destruct (SetActive_preserves _ _ _ _ _ _ _ Hd Hf) as [[HC _] _].
    destruct (HC Hwfd) as [Hwf2 _]. apply SetActive_Ok in Hd as (_ & _ & Hgone & Hsub & _); [|done].
    rewrite resolve_spec by done. destruct (valid_session hash t (dir (tables w2))) as [s2|] eqn:Hv; [|done].
    apply valid_session_Some in Hv as (id & Hs2 & Hh2 & _). pose proof (lookup_weaken _ _ _ _ Hs2 Hsub) as Hs1.
    exfalso. apply (Hgone eq_refl _ _ Hs2).
    assert (id = session_ID (lr_Session result)) as -> by (eapply (wf_hashes d Hwfd); [exact Hs1|exact Hs|by rewrite Hh2, Hh]).
    change (sessions d !! session_ID (lr_Session result) = Some s2) in Hs1. rewrite Hs in Hs1. by injection Hs1 as <-.
Qed.

(** ** Alice signs in and calls for a page *)

Definition accept (log : list attempt) (a : attempt) : res unit := Ok tt.
Definition random_bytes : list ascii := replicate TokenBytes "z"%char.
Definition alice_input : LoginInput :=
  {| li_Username := " alice "; Password := "secret"; LocationID := "1"; RoleID := "2"; li_RememberMe := false |}.
Definition no_failures : web :=
  {| failures := newLoginFailures {| Window := 15 * Minute; MaxFailures := 3; Lockout := 15 * Minute |}; asked := [] |}.
Definition signing_in : res LoginResult * web * world access_db :=
  Login id accept (60 * Minute) (600 * Minute) alice_input random_bytes (2000000 * Second) no_failures after_bootstrap.
Definition alice_token : string := GenerateToken random_bytes.
Definition page_request : http_request := {| rq_cookie := Some alice_token; RequestURI := "/users"; HX_Request := false |}.

Lemma signed_in : ∃ result s w, signing_in = (Ok result, s, w) ∧ RawToken result = alice_token.
Proof.
  assert (match signing_in with (Ok result, _, _) => seqb (RawToken result) alice_token | _ => false end = true) as H by (vm_compute; reflexivity).
  destruct signing_in as [[[result|] s] w]; [|discriminate H]. exists result, s, w. split; [reflexivity|]. by apply seqb_eq in H.
Qed.
Lemma bootstrapped : well_formed (dir (tables after_bootstrap)).
Proof.
  destruct (Bootstrap_manages PermissionDefinitions "alice, bob" 1000000 start tt after_bootstrap) as (Hwf & _);
    [apply empty_well_formed|constructor|apply after_bootstrap_Ok|exact Hwf].
Qed.

Lemma Login_opens_session_witness :
  ∃ result s w, signing_in = (Ok result, s, w) ∧ Username (lr_User result) = "alice"%string ∧
    ∀ t, 2000000 * Second + 60 * Minute ≤ t →
      resolve (dir (tables w)) (HashToken alice_token) t = Fail (Sentinel ErrUnauthenticated).
Proof.
  destruct signed_in as (result & s & w & H & Htoken). exists result, s, w. split; [exact H|].
  destruct (Login_opens_session id accept (60 * Minute) (600 * Minute) alice_input random_bytes (2000000 * Second) no_failures
    after_bootstrap result s w bootstrapped ltac:(vm_compute; reflexivity) ltac:(vm_compute; reflexivity) H)
    as (_ & Hname & _ & Hlife & _).
  split; [rewrite Hname; vm_compute; reflexivity|]. intros t Ht. rewrite <- Htoken. specialize (Hlife t).
  assert (E : datetime6 (2000000 * Second + (if li_RememberMe alice_input then 600 * Minute else 60 * Minute)) =
    2000000 * Second + 60 * Minute) by (vm_compute; reflexivity).
  rewrite E in Hlife. destruct (Z.ltb_spec (datetime6 t) (2000000 * Second + 60 * Minute)) as [Hlt|_]; [|exact Hlife].
  apply datetime6_le in Ht.
  assert (F : datetime6 (2000000 * Second + 60 * Minute) = 2000000 * Second + 60 * Minute) by (vm_compute; reflexivity).
  lia.
Defined.

(** The page of the user administration is served to her. *)
Lemma guarded_route_sound_witness :
  ∃ w p, fst (fst (guarded_route "access.manage" page_request (2000001 * Second) w)) = Serve p ∧
    pr_Username p = "alice"%string ∧
    ∃ token, rq_cookie page_request = Some token ∧ validToken token = true ∧ Can p "access.manage" = true.
Proof.
  set (w := snd signing_in).
  assert (match fst (fst (guarded_route "access.manage" page_request (2000001 * Second) w)) with
          | Serve p => seqb (pr_Username p) "alice" && Can p "access.manage" | _ => false end = true) as H by (vm_compute; reflexivity).
  assert (well_formed (dir (tables w)) ∧ Forall (respects safe) (others (tables w))) as [Hwf Ho].
  { split; [|assert (others (tables w) = []) as -> by (vm_compute; reflexivity); constructor].
    destruct signed_in as (result & s & w1 & Hs & _).
    assert (w = w1) as -> by (unfold w; rewrite Hs; reflexivity). eapply Login_well_formed; [..|exact Hs];
      [apply bootstrapped|vm_compute; reflexivity]. }
  destruct (guarded_route "access.manage" page_request (2000001 * Second) w) as [[r cleared] w2] eqn:E. cbn [fst] in H.
  destruct r as [p| | | |]; try discriminate H. apply andb_true_iff in H as [Hn Hc].
  exists w, p. rewrite E. split; [reflexivity|]. split; [by apply seqb_eq in Hn|].
  destruct (guarded_route_sound "access.manage" page_request (2000001 * Second) w Hwf Ho) as [Hserved _].
  destruct (Hserved p cleared w2 E) as (_ & _ & _ & token & s & u & Ht & Hv & _).
  exists token. split; [exact Ht|]. split; [exact Hv|exact Hc].
Defined.
