(* ===== verification/LoginThrottle.v ===== *)
(** The lockout of [security.go] bounds the guesses that reach Fincloud: a guesser
    who waits for each answer and is never right gets fewer than twice the allowed
    failures into any stretch as long as the window and the lockout. *)
From stdpp Require Import base list strings gmap sorting.
From Stdlib Require Import ZArith Lia Ascii.
From S2P Require Import Prelude GoStrings GoErrors Database GoTime Directory AccessGuarantees BrowserAuth.
Local Open Scope Z_scope.

(** How many times of a list lie at or after [a], and in [a, b) *)
Definition since (a : Z) (l : list Z) : Z := Z.of_nat (length (List.filter (λ t, a <=? t) l)).
Definition during (a b : Z) (l : list Z) : Z := Z.of_nat (length (List.filter (λ t, (a <=? t) && (t <? b)) l)).

Lemma since_cons a t l : since a (t :: l) = (if a <=? t then 1 else 0) + since a l.
Proof. unfold since. cbn. destruct (a <=? t); cbn [length]; lia. Qed.
Lemma since_app a l l' : since a (l ++ l') = since a l + since a l'.
Proof. unfold since. rewrite List.filter_app, length_app. lia. Qed.
Lemma since_nonneg a l : 0 ≤ since a l.
Proof. unfold since. lia. Qed.
Lemma since_length a l : since a l ≤ Z.of_nat (length l).
Proof. unfold since. pose proof (List.filter_length_le (λ t, a <=? t) l). lia. Qed.
Lemma since_none a l : Forall (λ t, t < a) l → since a l = 0.
Proof.
  induction 1 as [|t l Ht _ IH]; [done|]. rewrite since_cons, IH. destruct (Z.leb_spec a t); lia.
Qed.
Lemma since_perm a l l' : l ≡ₚ l' → since a l = since a l'.
Proof. induction 1; rewrite ?since_cons; lia. Qed.
Lemma during_cons a b t l : during a b (t :: l) = (if (a <=? t) && (t <? b) then 1 else 0) + during a b l.
Proof. unfold during. cbn. destruct (_ && _); cbn [length]; lia. Qed.
Lemma during_since a b l : during a b l ≤ since a l.
Proof.
  induction l as [|t l IH]; [done|]. rewrite during_cons, since_cons. destruct (a <=? t), (t <? b); cbn; lia.
Qed.

(** ** One key of the table *)

Section Key.
(** The bounds of the configuration *)
Variables W K M : Z.   (* window, lockout, max failures *)
Hypotheses (HW : 0 < W) (HK : 0 < K) (HM : 0 < M).
Abbreviation L := (Z.min W K).

(** [hist] are the times of the failures so far, none after [T]: the entry counts
    those of its epoch, and the ones before it are few in any stretch that reaches
    into it. *)
Inductive tracked (hist : list Z) (T : Z) : option loginFailure → Prop :=
| track_none : (∀ a, T < a + L → since a hist ≤ M - 1) → tracked hist T None
| track_entry e cur old :
    hist ≡ₚ cur ++ old → Z.of_nat (length cur) = count e → 0 < first e ≤ T → 1 ≤ count e →
    Forall (λ t, t ≤ first e) old → (∀ a, first e < a + L → since a old ≤ M - 1) →
    (lockedUntil e = 0 ∧ count e < M ∨
     count e = M ∧ ∃ u, lockedUntil e = u + K ∧ first e ≤ u ≤ T ∧ Forall (λ t, t ≤ u) hist) →
    tracked hist T (Some e).

Definition bounded (hist : list Z) : Prop := ∀ a, during a (a + L) hist ≤ 2 * M - 1.

Lemma tracked_later hist T T' o : tracked hist T o → T ≤ T' → tracked hist T' o.
Proof.
  destruct 1 as [H|e cur old H1 H2 H3 H4 H5 H6 H7]; intros HT; econstructor; eauto; try lia.
  - intros a Ha. apply H. lia.
  - destruct H7 as [?|(? & u & ? & ? & ?)]; [by left|right]. split; [done|]. exists u. split_and!; by (done || lia).
Qed.

(** An entry that no longer counts leaves few failures behind. *)
Definition over (e : loginFailure) (t : Z) : Prop :=
  (lockedUntil e = 0 ∧ first e + W ≤ t) ∨ (lockedUntil e ≠ 0 ∧ lockedUntil e ≤ t).
Lemma tracked_over hist T e t : tracked hist T (Some e) → T ≤ t → over e t → tracked hist t None.
Proof.
  inversion 1 as [|? cur old H1 H2 H3 H4 H5 H6 H7]; subst. intros HT Hover. constructor. intros a Ha.
  destruct H7 as [[Hl Hc]|(Hc & u & Hl & Hu & Hall)].
  - destruct Hover as [[_ Ho]|[? _]]; [|done]. rewrite (since_perm _ _ _ H1), since_app.
    rewrite (since_none a old); [pose proof (since_length a cur); lia|].
    eapply Forall_impl; [exact H5|]. cbn. lia.
  - destruct Hover as [[? _]|[_ Ho]]; [lia|]. rewrite (since_none a hist); [lia|].
    eapply Forall_impl; [exact Hall|]. cbn. lia.
Qed.

(** Recording one more failure at time [t] *)
Definition record (e : loginFailure) (t : Z) : loginFailure :=
  {| count := count e + 1; first := first e;
     lockedUntil := if M <=? count e + 1 then t + K else lockedUntil e |}.
Definition fresh (t : Z) : loginFailure := {| count := 0; first := t; lockedUntil := 0 |}.

Lemma bounded_cons hist t :
  bounded hist → Forall (λ x, x ≤ t) hist → (∀ a, a ≤ t < a + L → since a hist ≤ 2 * M - 2) → bounded (t :: hist).
Proof.
  intros Hb Hall Hs a. rewrite during_cons. destruct ((a <=? t) && (t <? a + L)) eqn:E; [|apply Hb].
  to_prop in E. pose proof (during_since a (a + L) hist). pose proof (Hs a). lia.
Qed.

Lemma record_fresh hist T t :
  tracked hist T None → 0 < t → T ≤ t → Forall (λ x, x ≤ T) hist → bounded hist →
  tracked (t :: hist) t (Some (record (fresh t) t)) ∧ bounded (t :: hist).
Proof.
  inversion 1 as [Hn|]; subst. intros Ht HT Hall Hb. cbn. split.
  - apply (track_entry _ _ _ [t] hist); cbn; try done.
    + eapply Forall_impl; [exact Hall|]. cbn. lia.
    + intros a Ha. apply Hn. lia.
    + destruct (Z.leb_spec M (0 + 1)); [right|left; lia]. split; [lia|]. exists t. split_and!; [lia..|].
      constructor; [lia|]. eapply Forall_impl; [exact Hall|]. cbn. lia.
  - apply bounded_cons; [done|eapply Forall_impl; [exact Hall|]; cbn; lia|].
    intros a Ha. specialize (Hn a). lia.
Qed.
Lemma record_epoch hist T e t :
  tracked hist T (Some e) → lockedUntil e = 0 → t < first e + W → T ≤ t → Forall (λ x, x ≤ T) hist → bounded hist →
  tracked (t :: hist) t (Some (record e t)) ∧ bounded (t :: hist).
Proof.
  inversion 1 as [|? cur old H1 H2 H3 H4 H5 H6 H7]; subst. intros Hl Hlive HT Hall Hb.
  destruct H7 as [[_ Hc]|(_ & u & Hu & ? & _)]; [|lia]. split.
  - apply (track_entry _ _ _ (t :: cur) old); cbn; try done; [by rewrite H1|lia..|].
    destruct (Z.leb_spec M (count e + 1)); [right|left; lia]. split; [lia|]. exists t. split_and!; [lia..|].
    constructor; [lia|]. eapply Forall_impl; [exact Hall|]. cbn. lia.
  - apply bounded_cons; [done|eapply Forall_impl; [exact Hall|]; cbn; lia|].
    intros a Ha. rewrite (since_perm _ _ _ H1), since_app. pose proof (since_length a cur).
    destruct (Z.le_gt_cases a (first e)) as [Hf|Hf].
    + specialize (H6 a). lia.
    + rewrite (since_none a old); [lia|]. eapply Forall_impl; [exact H5|]. cbn. lia.
Qed.
End Key.

(** ** The operations of the table *)

Definition same_bounds (f f' : loginFailures) : Prop := window f' = window f ∧ lockout f' = lockout f ∧ max f' = max f.

Lemma stale_over f t e : stale f t e = true ↔ over (window f) e t.
Proof. unfold stale, over. destruct (Z.eqb_spec (lockedUntil e) 0) as [E|E]; cbn; to_prop; lia. Qed.

Lemma cleanup_spec f t :
  same_bounds f (cleanup t f) ∧ entries (cleanup t f) ⊆ entries f ∧
  ∀ k e, entries f !! k = Some e → entries (cleanup t f) !! k = Some e ∨
    (entries (cleanup t f) !! k = None ∧ over (window f) e t).
Proof.
  unfold cleanup. destruct (_ <? _); [split_and!; by eauto|]. split_and!; [done|apply map_filter_subseteq|].
  intros k e He. cbn. destruct (stale f t e) eqn:Hs.
  - right. split; [|by apply stale_over]. apply map_lookup_filter_None. right. intros e' He' Hf. cbn in Hf. congruence.
  - left. by apply map_lookup_filter_Some.
Qed.

Section Table.
Variables (f : loginFailures) (key : string) (hist : list Z) (T t : Z).
Hypotheses (HW : 0 < window f) (HK : 0 < lockout f) (HM : 0 < max f).
Hypothesis Hlater : T ≤ t.
Abbreviation tracks := (tracked (window f) (lockout f) (max f)).
Abbreviation bounds := (bounded (window f) (lockout f) (max f)).

Lemma cleanup_tracked : tracks hist T (entries f !! key) → tracks hist t (entries (cleanup t f) !! key).
Proof.
  destruct (cleanup_spec f t) as (_ & Hsub & Hc). destruct (entries f !! key) as [e|] eqn:E.
  - intros Htr. destruct (Hc _ _ E) as [->|[-> Ho]]; [by eapply tracked_later|by eapply tracked_over].
  - intros Htr. replace (entries (cleanup t f) !! key) with (@None loginFailure); [by eapply tracked_later|].
    symmetry. by eapply lookup_weaken_None.
Qed.

Lemma blocked_spec b f' :
  blocked key t f = (b, f') → tracks hist T (entries f !! key) →
  same_bounds f f' ∧ entries f' ⊆ entries f ∧ tracks hist t (entries f' !! key) ∧
  (b = false → ∀ e, entries f' !! key = Some e → lockedUntil e = 0).
Proof.
  intros H Htr. apply cleanup_tracked in Htr. unfold blocked in H. destruct (cleanup_spec f t) as (Hb & Hsub & _).
  remember (cleanup t f) as g eqn:Hg; clear Hg. destruct (entries g !! key) as [e|] eqn:E; cbn [default from_option id] in H.
  2: { unfold no_failure in H. cbn in H. injection H as <- <-. rewrite E. by split_and!. }
  destruct (Z.eqb_spec (lockedUntil e) 0) as [E0|E0]; cbn [negb andb] in H.
  - injection H as <- <-. rewrite E. split_and!; [done..|]. intros _ e' [= <-]. done.
  - destruct (Z.ltb_spec t (lockedUntil e)) as [Hlt|Hge]; cbn [negb] in H; injection H as <- <-.
    + rewrite E. by split_and!.
    + split_and!; [done| |cbn|].
      * cbn. etrans; [apply delete_subseteq|done].
      * rewrite lookup_delete_eq. destruct Hb as (-> & -> & ->) || idtac. eapply tracked_over; [..|exact Htr|lia|right; lia]; done.
      * intros _ e'. cbn. by rewrite lookup_delete_eq.
Qed.

(** Other keys do not matter, except that they take room. *)
Lemma blocked_other k b f' :
  k ≠ key → blocked k t f = (b, f') → tracks hist T (entries f !! key) →
  same_bounds f f' ∧ entries f' ⊆ entries f ∧ tracks hist t (entries f' !! key).
Proof.
  intros Hne H Htr. apply cleanup_tracked in Htr. unfold blocked in H. destruct (cleanup_spec f t) as (Hb & Hsub & _).
  remember (cleanup t f) as g eqn:Hg; clear Hg. injection H as _ <-. destruct (_ && _); [|done]. split_and!; [done| |cbn].
  - etrans; [apply delete_subseteq|done].
  - by rewrite lookup_delete_ne.
Qed.
Lemma fail_other k (f' := fail k t f) :
  k ≠ key → tracks hist T (entries f !! key) →
  same_bounds f f' ∧ dom (entries f') ⊆ {[k]} ∪ dom (entries f) ∧ tracks hist t (entries f' !! key).
Proof.
  intros Hne Htr. apply cleanup_tracked in Htr. unfold f', fail. destruct (cleanup_spec f t) as (Hb & Hsub & _).
  remember (cleanup t f) as g eqn:Hg; clear Hg. pose proof (subseteq_dom _ _ Hsub) as Hdom.
  destruct (t <? _); [split_and!; [done|set_solver|done]|].
  destruct (_ && _); [split_and!; [done|set_solver|done]|]. split_and!; [done| |].
  - cbn. rewrite dom_insert. set_solver.
  - cbn. by rewrite lookup_insert_ne.
Qed.
Lemma clear_other k (f' := clear k f) :
  k ≠ key → tracks hist T (entries f !! key) →
  same_bounds f f' ∧ entries f' ⊆ entries f ∧ tracks hist t (entries f' !! key).
Proof.
  intros Hne Htr. split_and!; [done|apply delete_subseteq|]. cbn. rewrite lookup_delete_ne by done. by eapply tracked_later.
Qed.

(** One more failure of the key, for which there is room *)
Lemma fail_spec (f' := fail key t f) :
  tracks hist T (entries f !! key) → (∀ e, entries f !! key = Some e → lockedUntil e = 0) →
  Z.of_nat (size (delete key (entries f))) < maxLoginFailureEntries →
  0 < t → Forall (λ x, x ≤ T) hist → bounds hist →
  same_bounds f f' ∧ dom (entries f') ⊆ {[key]} ∪ dom (entries f) ∧ tracks (t :: hist) t (entries f' !! key) ∧ bounds (t :: hist).
Proof.
  intros Htr Hun Hroom Ht Hall Hb. pose proof (cleanup_tracked Htr) as Htr'. destruct (cleanup_spec f t) as (HB & Hsub & _).
  assert (Hall' : Forall (λ x, x ≤ t) hist) by (eapply Forall_impl; [exact Hall|]; cbn; lia).
  unfold f', fail. remember (cleanup t f) as g eqn:Hg; clear Hg. pose proof (subseteq_dom _ _ Hsub) as Hdom.
  destruct HB as (HBw & HBl & HBm).
  destruct (entries g !! key) as [e|] eqn:E; cbn [default from_option id].
  - assert (lockedUntil e = 0) as Hl by (apply (Hun e); by eapply lookup_weaken). rewrite Hl.
    destruct (Z.ltb_spec t 0); [lia|]. cbn [Z.eqb negb]. rewrite orb_false_r.
    rewrite bool_decide_eq_true_2 by (by eexists). cbn [negb andb].
    inversion Htr' as [|? cur old H1 H2 H3 H4 H5 H6 H7]; subst.
    replace (first e =? 0) with false by (symmetry; apply Z.eqb_neq; lia). cbn [orb]. rewrite HBw, HBl, HBm.
    destruct (Z.ltb_spec t (first e + window f)) as [Hlive|Hstale]; cbn [negb].
    + edestruct record_epoch as [Hr Hb']; [..|exact Htr'|exact Hl|exact Hlive|apply Z.le_refl|exact Hall'|exact Hb|]; [lia..|].
      split; [done|]. split; [cbn; rewrite dom_insert; set_solver|]. split; [|done]. cbn. rewrite lookup_insert_eq.
      exact Hr.
    + assert (Hn : tracks hist t None) by (eapply tracked_over; [..|exact Htr'|lia|left; split; [done|lia]]; done).
      edestruct record_fresh as [Hr Hb']; [..|exact Hn|exact Ht|apply Z.le_refl|exact Hall'|exact Hb|]; [lia..|].
      split; [done|]. split; [cbn; rewrite dom_insert; set_solver|]. split; [|done]. cbn. by rewrite lookup_insert_eq.
  - unfold no_failure. cbn [lockedUntil first count]. destruct (Z.ltb_spec t 0); [lia|]. cbn [Z.eqb orb].
    rewrite bool_decide_eq_false_2 by (by intros [? ?]). cbn [negb andb].
    destruct (Z.leb_spec maxLoginFailureEntries (Z.of_nat (size (entries g)))) as [Hfull|_].
    { exfalso. assert (entries g ⊆ delete key (entries f)) as Hg.
      { apply map_subseteq_spec. intros k e He. rewrite lookup_delete_ne by (intros <-; congruence). by eapply lookup_weaken. }
      apply map_subseteq_size in Hg. lia. }
    rewrite HBl, HBm. edestruct record_fresh as [Hr Hb']; [..|exact Htr'|exact Ht|apply Z.le_refl|exact Hall'|exact Hb|]; [lia..|].
    split; [done|]. split; [cbn; rewrite dom_insert; set_solver|]. split; [|done]. cbn. by rewrite lookup_insert_eq.
Qed.
End Table.

(** ** Logins *)

Section Guessing.
Variable unicode_lower : string → string.
Variable authenticate : list attempt → attempt → res unit.
Variables lifetime rememberLifetime : Z.
Abbreviation tkey := (throttleKey unicode_lower).
Abbreviation login := (Login unicode_lower authenticate lifetime rememberLifetime).

(** Logins one after the other *)
Definition logins (l : list (LoginInput * list ascii * time)) (s : web) (w : world access_db) : web * world access_db :=
  fold_left (λ sw i, let '(_, s, w) := login i.1.1 i.1.2 i.2 sw.1 sw.2 in (s, w)) l (s, w).

Variable key : string.
(** When the passwords for the key reached Fincloud, the last one first *)
Definition key_times (log : list attempt) : list Z :=
  at_time <$> rev (List.filter (λ a, seqb (tkey (at_Username a)) key) log).

(** The guesser is never right about the key. *)
Hypothesis wrong : ∀ log a, tkey (at_Username a) = key → ∃ e, authenticate log a = Fail e ∧ Is e FincloudErrInvalidCredentials = true.

Variable c : LockoutConfig.
Hypothesis valid : validate_lockout c = Ok tt.
Variable keys : gset string.
Hypothesis in_keys : key ∈ keys.
Hypothesis room : Z.of_nat (size keys) ≤ maxLoginFailureEntries.

Record guessing (T : time) (s : web) : Prop := {
  g_bounds : same_bounds (newLoginFailures c) (failures s);
  g_tracked : tracked (Window c) (Lockout c) (MaxFailures c) (key_times (asked s)) T (entries (failures s) !! key);
  g_bounded : bounded (Window c) (Lockout c) (MaxFailures c) (key_times (asked s));
  g_past : Forall (λ t, t ≤ T) (key_times (asked s));
  g_keys : dom (entries (failures s)) ⊆ keys
}.

Lemma valid_positive : 0 < Window c ∧ 0 < MaxFailures c ∧ 0 < Lockout c.
Proof. pose proof valid as H. unfold validate_lockout in H. apply fail_if_Ok in H. to_prop in H. lia. Qed.

Lemma tkey_trim u : tkey (TrimSpace u) = tkey u.
Proof. unfold throttleKey. by rewrite TrimSpace_idem. Qed.
Lemma key_times_snoc log a :
  key_times (log ++ [a]) = if seqb (tkey (at_Username a)) key then at_time a :: key_times log else key_times log.
Proof.
  unfold key_times. rewrite List.filter_app. cbn [List.filter]. destruct (seqb _ _); [by rewrite rev_unit|by rewrite app_nil_r].
Qed.

Lemma login_guessing T input random t s w r s' w' :
  guessing T s → 0 < t → T ≤ t → tkey (li_Username input) ∈ keys →
  login input random t s w = (r, s', w') → guessing t s'.
Proof.
  intros [(Bw & Bl & Bm) Htr Hb Hpast Hdom] Ht HT Hk H. destruct valid_positive as (HW & HM & HK). cbn in Bw, Bl, Bm.
  assert (Hpast' : Forall (λ x, x ≤ t) (key_times (asked s))) by (eapply Forall_impl; [exact Hpast|]; cbn; lia).
  unfold Login in H. destruct (unusable input).
  { injection H as <- <- <-. constructor; [done|by eapply tracked_later|done..]. }
  set (k := tkey (li_Username input)) in *. revert Htr Hb HW HM HK. rewrite <- Bw, <- Bl, <- Bm. intros Htr Hb HW HM HK.
  destruct (blocked k t (failures s)) as [b f] eqn:Hbl.
  destruct (decide (k = key)) as [Hkey|Hne].
  - rewrite Hkey in Hbl, H. destruct (blocked_spec _ _ _ _ _ HW HK HM HT _ _ Hbl Htr) as ((Cw & Cl & Cm) & Hsub & Htr' & Hun).
    pose proof (subseteq_dom _ _ Hsub) as Hd. destruct b.
    { injection H as <- <- <-. constructor; cbn; [split_and!; cbn; congruence|rewrite <- Bw, <- Bl, <- Bm; done|rewrite <- Bw, <- Bl, <- Bm; done|done|set_solver]. }
    destruct (wrong (asked s) (attempt_of input t)) as (e & Ha & He); [cbn; by rewrite tkey_trim|].
    rewrite Ha, He in H. injection H as <- <- <-. revert Htr' Hb HW HM HK. rewrite <- Cw, <- Cl, <- Cm. intros Htr' Hb HW HM HK.
    destruct (fail_spec f key (key_times (asked s)) t t) as ((Dw & Dl & Dm) & Hdom' & Htr2 & Hb2); try done.
    + by apply Hun.
    + assert (size (dom (delete key (entries f))) ≤ size (keys ∖ {[key]}))%nat as Hs.
      { apply subseteq_size. rewrite dom_delete_L. set_solver. }
      rewrite size_dom, size_difference, size_singleton in Hs by set_solver.
      assert (size keys ≠ 0)%nat by (intros Hz%size_empty_inv; set_solver). lia.
    + assert (Hsnoc : key_times (asked s ++ [attempt_of input t]) = t :: key_times (asked s)).
      { rewrite key_times_snoc. cbn [at_Username at_time attempt_of]. rewrite tkey_trim. fold k. rewrite Hkey. unfold seqb.
        by rewrite bool_decide_eq_true_2. }
      constructor; cbn [failures asked].
      * split_and!; cbn; congruence.
      * rewrite Hsnoc, <- Bw, <- Bl, <- Bm, <- Cw, <- Cl, <- Cm. done.
      * rewrite Hsnoc, <- Bw, <- Bl, <- Bm, <- Cw, <- Cl, <- Cm. done.
      * rewrite Hsnoc. by constructor.
      * set_solver.
  - destruct (blocked_other _ _ _ _ _ HW HK HM HT _ _ _ Hne Hbl Htr) as ((Cw & Cl & Cm) & Hsub & Htr').
    pose proof (subseteq_dom _ _ Hsub) as Hd. destruct b.
    { injection H as <- <- <-. constructor; cbn; [split_and!; cbn; congruence|rewrite <- Bw, <- Bl, <- Bm; done|rewrite <- Bw, <- Bl, <- Bm; done|done|set_solver]. }
    assert (Hsnoc : key_times (asked s ++ [attempt_of input t]) = key_times (asked s)).
    { rewrite key_times_snoc. cbn [at_Username attempt_of]. rewrite tkey_trim. fold k. unfold seqb. by rewrite bool_decide_eq_false_2. }
    assert (Hdone : ∀ f', same_bounds f f' → dom (entries f') ⊆ keys → tracked (window f) (lockout f) (max f) (key_times (asked s)) t (entries f' !! key) →
              guessing t {| failures := f'; asked := asked s ++ [attempt_of input t] |}).
    { intros f' (Dw & Dl & Dm) Hdf Htf. constructor; cbn [failures asked]; rewrite ?Hsnoc; [split_and!; cbn; congruence|rewrite <- Bw, <- Bl, <- Bm, <- Cw, <- Cl, <- Cm; done|rewrite <- Bw, <- Bl, <- Bm; done|done|done]. }
    revert Htr' HW HM HK. rewrite <- Cw, <- Cl, <- Cm. intros Htr' HW HM HK.
    destruct (authenticate _ _) as [[]|e].
    + destruct (sign_in _ _ _ _ _ _ _) as [r1 w1]. injection H as <- <- <-.
      edestruct clear_other as (? & Hsub2%subseteq_dom & ?); [apply (Z.le_refl t)|exact Hne|exact Htr'|].
      apply Hdone; [done|set_solver|done].
    + destruct (Is e _); injection H as <- <- <-; [|by apply Hdone; [|set_solver|]].
      edestruct fail_other as (? & ? & ?); [exact HW|exact HK|exact HM|apply (Z.le_refl t)|exact Hne|exact Htr'|].
      apply Hdone; [done|set_solver|done].
Qed.

Lemma logins_guessing l T s w s' w' :
  guessing T s → 0 ≤ T → Forall (λ i, 0 < i.2 ∧ T ≤ i.2 ∧ tkey (li_Username i.1.1) ∈ keys) l →
  StronglySorted Z.le l.*2 → logins l s w = (s', w') → ∃ T', guessing T' s'.
Proof.
  revert T s w. induction l as [|[[input random] t] l IH]; intros T s w Hg HT Hl Hsort H; [injection H as <- <-; by exists T|].
  apply Forall_cons in Hl as [(Ht & HTt & Hk) Hl]. cbn in Ht, HTt, Hk. cbn in Hsort. apply StronglySorted_inv in Hsort as [Hsort Hle].
  unfold logins in H. cbn [fold_left fst snd] in H. destruct (login input random t s w) as [[r s1] w1] eqn:E.
  apply (login_guessing T) in E; [|done..]. fold (logins l s1 w1) in H. eapply (IH t); [exact E|lia| |exact Hsort|exact H].
  clear IH H E Hsort. induction Hl as [|i l Hi _ IHl]; [constructor|]. cbn in Hle. apply Forall_cons in Hle as [? ?].
  constructor; [|by apply IHl]. destruct Hi as (? & ? & ?). split_and!; [lia|done|done].
Qed.

(** C21: whoever tries passwords for one account, in whatever spelling of its name,
    and is never right gets at most [2 MaxFailures - 1] of them to Fincloud within
    any stretch as long as the shorter of the window and the lockout, provided the
    logins are answered one after the other and name at most 10,000 accounts
    between them. *)
Theorem guesses_bounded l w s' w' :
  Forall (λ i, 0 < i.2 ∧ tkey (li_Username i.1.1) ∈ keys) l → StronglySorted Z.le l.*2 →
  logins l {| failures := newLoginFailures c; asked := [] |} w = (s', w') →
  ∀ a, during a (a + Z.min (Window c) (Lockout c)) (key_times (asked s')) ≤ 2 * MaxFailures c - 1.
Proof.
  intros Hl Hsort H. destruct valid_positive as (HW & HM & HK).
  assert (guessing 0 {| failures := newLoginFailures c; asked := [] |}) as Hg.
  { constructor; cbn; [done|rewrite lookup_empty; apply track_none; intros a _; unfold since, key_times; cbn; lia|intros a; unfold during, key_times; cbn; lia|constructor|set_solver]. }
  eapply logins_guessing in H as (T & Hg'); [exact (g_bounded _ _ Hg')|exact Hg|done| |exact Hsort].
  eapply Forall_impl; [exact Hl|]. intros i (? & ?). split_and!; [done|lia|done].
Qed.
End Guessing.

(** The proviso on the number of accounts is needed: while the table is full of
    entries that still count, a failure of another account is not recorded, so that
    account never becomes blocked. *)
Lemma full_table_unthrottled f key now :
  entries f !! key = None → maxLoginFailureEntries ≤ Z.of_nat (size (entries f)) → cleanup now f = f → 0 ≤ now →
  fail key now f = f ∧ blocked key now f = (false, f).
Proof.
  intros Hk Hfull Hc Hnow. unfold fail, blocked. rewrite Hc, Hk. cbn.
  replace (now <? 0) with false by (symmetry; by apply Z.ltb_ge).
  replace (maxLoginFailureEntries <=? _) with true by (symmetry; by apply Z.leb_le). done.
Qed.

(** ** Six guesses in a minute, of which three are asked *)

Definition refuse (log : list attempt) (a : attempt) : res unit := Fail (Sentinel FincloudErrInvalidCredentials).
Definition lockout_of_three : LockoutConfig := {| Window := 15 * Minute; MaxFailures := 3; Lockout := 15 * Minute |}.
Definition guess (name : string) (t : Z) : LoginInput * list ascii * Z :=
  ({| li_Username := name; Password := "secret"; LocationID := "1"; RoleID := "2"; li_RememberMe := false |}, [], t * Second).
Definition guess_list : list (LoginInput * list ascii * Z) :=
  [guess "alice" 1; guess "Alice " 2; guess "ALICE" 3; guess "alice" 4; guess "aLICE" 5; guess "alice" 6].

Lemma guesses_bounded_witness :
  let s := fst (logins id refuse Minute Minute guess_list {| failures := newLoginFailures lockout_of_three; asked := [] |} start) in
  key_times id "alice" (asked s) = [3 * Second; 2 * Second; Second] ∧
  ∀ a, during a (a + 15 * Minute) (key_times id "alice" (asked s)) ≤ 5.
Proof.
  intros s. split; [vm_compute; reflexivity|]. subst s.
  destruct (logins id refuse Minute Minute guess_list {| failures := newLoginFailures lockout_of_three; asked := [] |} start) as [s' w'] eqn:E.
  cbn [fst].
  refine (guesses_bounded id refuse Minute Minute "alice" _ lockout_of_three _ {["alice"%string]} _ _ guess_list start s' w' _ _ E).
  - intros log a _. eexists. split; vm_compute; reflexivity.
  - vm_compute. reflexivity.
  - set_solver.
  - vm_compute. discriminate.
  - repeat constructor; vm_compute; reflexivity || (intros; discriminate) || exact I.
  - repeat constructor; vm_compute; intros; discriminate.
Defined.
