(* ===== verification/SlikJobs.v ===== *)
(** The SLIK jobs, [internal/slik]: the job tables with the statements of
    [repository.go], and the manager of [manager.go] that takes a workbook, has
    the position of every account in it computed, and writes the results back.

    The state holds the two tables, the database clock and the storage directory.
    Requests of other users arrive at any time: [arrivals] says which of them take
    effect before the next statement.  Any statement and any file operation can
    fail (Database.v). *)
From stdpp Require Import base list gmap strings sorting.
From Stdlib Require Import ZArith Lia Ascii QArith.
From S2P Require Import Prelude GoStrings GoErrors Database GoSlices GoTime GoJSON GoPath Dates Money LoanModel.
Local Open Scope Z_scope.

(** ** The tables *)

Inductive job_status := QUEUED | PROCESSING | COMPLETED | FAILED | CANCELED.
#[export] Instance job_status_eq_dec : EqDecision job_status.
Proof. solve_decision. Defined.

Record Job := {
  job_ID : string; OwnerID : Z; OwnerUsername : string; ActorID : Z; ActorUsername : string;
  OriginalFilename : string; AsOf : string; Status : job_status; TotalRows : Z; TotalAccounts : Z;
  Processed : Z; CreatedAt : time; StartedAt : option time; FinishedAt : option time;
  FailedAccount : string; FailureReason : string;   (* NULL is the empty string *)
  InputFile : string; OutputFile : string; ExpiresAt : option time
}.
Record Values := { Balance : string; Rate : string }.
(** A row of slik_job_accounts: [None] is QUEUED, [Some] the primary account and the values of a COMPLETED one *)
Definition checkpoint : Type := option (string * Values).

(** What other requests do meanwhile *)
Inductive arrival :=
| Canceled (id : string) (owner : Z) (viewAll : bool)
| Created (job : Job) (accounts : list string)
| Ticked (d : Z).

Record slik := {
  jobs : gmap string Job;
  checkpoints : gmap string (gmap string checkpoint);   (* by job, then by requested account *)
  clock : time;                                         (* UTC_TIMESTAMP(6) *)
  files : gmap string (list ascii);                     (* the storage directory *)
  worker_lock : bool;
  arrivals : list (list arrival)
}.
Definition set_jobs (s : slik) (m : gmap string Job) : slik :=
  {| jobs := m; checkpoints := checkpoints s; clock := clock s; files := files s; worker_lock := worker_lock s; arrivals := arrivals s |}.
Definition set_checkpoints (s : slik) (m : gmap string (gmap string checkpoint)) : slik :=
  {| jobs := jobs s; checkpoints := m; clock := clock s; files := files s; worker_lock := worker_lock s; arrivals := arrivals s |}.
Definition set_clock (s : slik) (t : time) : slik :=
  {| jobs := jobs s; checkpoints := checkpoints s; clock := t; files := files s; worker_lock := worker_lock s; arrivals := arrivals s |}.
Definition set_files (s : slik) (m : gmap string (list ascii)) : slik :=
  {| jobs := jobs s; checkpoints := checkpoints s; clock := clock s; files := m; worker_lock := worker_lock s; arrivals := arrivals s |}.
Definition set_worker_lock (s : slik) (held : bool) : slik :=
  {| jobs := jobs s; checkpoints := checkpoints s; clock := clock s; files := files s; worker_lock := held; arrivals := arrivals s |}.
Definition set_arrivals (s : slik) (l : list (list arrival)) : slik :=
  {| jobs := jobs s; checkpoints := checkpoints s; clock := clock s; files := files s; worker_lock := worker_lock s; arrivals := l |}.

Definition with_status (j : Job) (st : job_status) : Job :=
  {| job_ID := job_ID j; OwnerID := OwnerID j; OwnerUsername := OwnerUsername j; ActorID := ActorID j;
     ActorUsername := ActorUsername j; OriginalFilename := OriginalFilename j; AsOf := AsOf j; Status := st;
     TotalRows := TotalRows j; TotalAccounts := TotalAccounts j; Processed := Processed j; CreatedAt := CreatedAt j;
     StartedAt := StartedAt j; FinishedAt := FinishedAt j; FailedAccount := FailedAccount j;
     FailureReason := FailureReason j; InputFile := InputFile j; OutputFile := OutputFile j; ExpiresAt := ExpiresAt j |}.
Definition with_outcome (j : Job) (st : job_status) (account reason output : string) (now : time) : Job :=
  {| job_ID := job_ID j; OwnerID := OwnerID j; OwnerUsername := OwnerUsername j; ActorID := ActorID j;
     ActorUsername := ActorUsername j; OriginalFilename := OriginalFilename j; AsOf := AsOf j; Status := st;
     TotalRows := TotalRows j; TotalAccounts := TotalAccounts j; Processed := Processed j; CreatedAt := CreatedAt j;
     StartedAt := StartedAt j; FinishedAt := Some now; FailedAccount := account;
     FailureReason := reason; InputFile := InputFile j; OutputFile := output;
     ExpiresAt := Some (now + 7 * 86400 * 1000000000) |}.
Definition started (j : Job) (now : time) : Job :=
  {| job_ID := job_ID j; OwnerID := OwnerID j; OwnerUsername := OwnerUsername j; ActorID := ActorID j;
     ActorUsername := ActorUsername j; OriginalFilename := OriginalFilename j; AsOf := AsOf j; Status := PROCESSING;
     TotalRows := TotalRows j; TotalAccounts := TotalAccounts j; Processed := Processed j; CreatedAt := CreatedAt j;
     StartedAt := match StartedAt j with Some t => Some t | None => Some now end; FinishedAt := FinishedAt j;
     FailedAccount := FailedAccount j; FailureReason := FailureReason j; InputFile := InputFile j;
     OutputFile := OutputFile j; ExpiresAt := ExpiresAt j |}.
Definition with_progress (j : Job) (processed : Z) (input output : string) : Job :=
  {| job_ID := job_ID j; OwnerID := OwnerID j; OwnerUsername := OwnerUsername j; ActorID := ActorID j;
     ActorUsername := ActorUsername j; OriginalFilename := OriginalFilename j; AsOf := AsOf j; Status := Status j;
     TotalRows := TotalRows j; TotalAccounts := TotalAccounts j; Processed := processed; CreatedAt := CreatedAt j;
     StartedAt := StartedAt j; FinishedAt := FinishedAt j; FailedAccount := FailedAccount j;
     FailureReason := FailureReason j; InputFile := input; OutputFile := output; ExpiresAt := ExpiresAt j |}.
Definition terminal (st : job_status) : bool :=
  match st with COMPLETED | FAILED | CANCELED => true | QUEUED | PROCESSING => false end.
Definition visible (j : Job) (owner : Z) (viewAll : bool) : bool := viewAll || (OwnerID j =? owner).

(** ** The statements, as functions of the tables *)

(** UPDATE slik_jobs SET ... WHERE id=? AND ...: the rows affected, and the table *)
Definition update_job (id : string) (cond : Job → bool) (f : Job → Job) (s : slik) : Z * slik :=
  match jobs s !! id with
  | Some j => if cond j then (1, set_jobs s (<[id := f j]> (jobs s))) else (0, s)
  | None => (0, s)
  end.
Definition cancel_effect (id : string) (owner : Z) (viewAll : bool) (s : slik) : slik :=
  snd (update_job id (fun j => negb (terminal (Status j)) && visible j owner viewAll)
         (fun j => with_outcome j CANCELED (FailedAccount j) (FailureReason j) (OutputFile j) (clock s)) s).
Definition insert_job (job : Job) (s : slik) : res slik :=
  match jobs s !! job_ID job with
  | Some _ => Fail (Msg "Duplicate entry")
  | None => Ok (set_checkpoints (set_jobs s (<[job_ID job := job]> (jobs s))) (<[job_ID job := ∅]> (checkpoints s)))
  end.
Fixpoint insert_accounts (id : string) (batch : list string) (s : slik) : res slik :=
  match batch with
  | [] => Ok s
  | account :: rest =>
      match checkpoints s !! id with
      | None => Fail (Msg "foreign key constraint fails")
      | Some rows =>
          match rows !! account with
          | Some _ => Fail (Msg "Duplicate entry")
          | None => insert_accounts id rest (set_checkpoints s (<[id := <[account := None]> rows]> (checkpoints s)))
          end
      end
  end.

(** A new row of slik_jobs *)
Definition new_job (job : Job) (accounts : list string) : Job :=
  with_progress {| job_ID := job_ID job; OwnerID := OwnerID job; OwnerUsername := OwnerUsername job;
     ActorID := ActorID job; ActorUsername := ActorUsername job; OriginalFilename := OriginalFilename job;
     AsOf := AsOf job; Status := QUEUED; TotalRows := TotalRows job; TotalAccounts := Z.of_nat (length accounts);
     Processed := 0; CreatedAt := CreatedAt job; StartedAt := None; FinishedAt := None; FailedAccount := EmptyString;
     FailureReason := EmptyString; InputFile := InputFile job; OutputFile := EmptyString; ExpiresAt := None |}
    0 (InputFile job) EmptyString.
Definition create_effect (job : Job) (accounts : list string) (s : slik) : slik :=
  match insert_job (new_job job accounts) s ≫= insert_accounts (job_ID job) accounts with
  | Ok s' => s'
  | Fail _ => s
  end.

Definition apply_arrival (s : slik) (a : arrival) : slik :=
  match a with
  | Canceled id owner viewAll => cancel_effect id owner viewAll s
  | Created job accounts => create_effect job accounts s
  | Ticked d => set_clock s (clock s + Z.max 0 d)
  end.
Definition settle (s : slik) : slik :=
  match arrivals s with
  | [] => s
  | now :: later => foldl apply_arrival (set_arrivals s later) now
  end.

Abbreviation sdb := (db slik).
(** Before a statement of its own, a request sees what arrived. *)
Definition arrive : sdb unit := fun w => (Ok tt, World (settle (tables w)) (faults w)).

(** ** [repository.go] *)

Definition id_error (e : err) : err := e.
Definition batchSize : nat := 200.
Fixpoint insert_batches (fuel : nat) (id : string) (accounts : list string) : sdb unit :=
  match fuel, accounts with
  | O, _ | _, [] => mret tt
  | S fuel', _ =>
      statement (fun s => s' ← insert_accounts id (take batchSize accounts) s; Ok (tt, s'));;
      insert_batches fuel' id (drop batchSize accounts)
  end.
Definition Create (job : Job) (accounts : list string) : sdb unit :=
  arrive;;
  transaction id_error id_error (
    statement (fun s => s' ← insert_job (new_job job accounts) s; Ok (tt, s'));;
    insert_batches (length accounts) (job_ID job) accounts).

Definition find_job (id : string) (owner : Z) (viewAll : bool) (s : slik) : option Job :=
  j ← jobs s !! id; if visible j owner viewAll then Some j else None.
Definition Get (id : string) (owner : Z) (viewAll : bool) : sdb Job :=
  arrive;;
  found ← query (find_job id owner viewAll);
  match found with Some j => mret j | None => db_fail (Sentinel SlikErrNotFound) end.

(** ORDER BY created_at DESC, id DESC LIMIT 30 *)
Definition newest_first (j j' : Job) : bool :=
  (CreatedAt j' <? CreatedAt j) ||
  ((CreatedAt j =? CreatedAt j') && match String.compare (job_ID j) (job_ID j') with Lt => false | _ => true end).
Definition history_of (owner : Z) (viewAll : bool) (s : slik) : list Job :=
  take 30 (SortStableFunc newest_first (List.filter (fun j => visible j owner viewAll) (map_to_list (jobs s)).*2)).
Definition History (owner : Z) (viewAll : bool) : sdb (list Job) := arrive;; query (history_of owner viewAll).

Definition recover_job (j : Job) : Job := if bool_decide (Status j = PROCESSING) then with_status j QUEUED else j.
Definition Recover : sdb unit := arrive;; exec (fun s => set_jobs s (recover_job <$> jobs s)).

(** ORDER BY created_at, id LIMIT 1 *)
Definition oldest_first (j j' : Job) : bool :=
  (CreatedAt j <? CreatedAt j') ||
  ((CreatedAt j =? CreatedAt j') && match String.compare (job_ID j) (job_ID j') with Gt => false | _ => true end).
Definition next_queued (s : slik) : option Job :=
  head (SortStableFunc oldest_first (List.filter (fun j => bool_decide (Status j = QUEUED)) (map_to_list (jobs s)).*2)).
(** The loop of [ClaimNext]: it starts over when the job was taken away in between *)
Fixpoint ClaimNext (fuel : nat) : sdb (option Job) :=
  match fuel with
  | O => mret None
  | S fuel' =>
      arrive;;
      found ← query next_queued;
      match found with
      | None => mret None
      | Some j =>
          arrive;;
          rows ← statement (fun s => Ok (update_job (job_ID j) (fun j => bool_decide (Status j = QUEUED))
                                           (fun j => started j (clock s)) s));
          if rows =? 0 then ClaimNext fuel' else
          job ← Get (job_ID j) 0 true;
          mret (Some job)
      end
  end.

(** The accounts of a job after [after] with a condition on their row, in order *)
Definition accounts_after (id after : string) (cond : checkpoint → bool) (limit : nat) (s : slik) : list string :=
  take limit (SortStableFunc string_leb
    (List.filter (fun a => string_ltb after a)
       (List.filter (fun p => cond p.2) (map_to_list (default ∅ (checkpoints s !! id)))).*1)).
Definition is_queued (c : checkpoint) : bool := match c with None => true | Some _ => false end.
Definition is_done (c : checkpoint) : bool := negb (is_queued c).
Definition Pending (id after : string) (limit : nat) : sdb (list string) :=
  arrive;; query (accounts_after id after is_queued limit).

Definition save_account (id account primary : string) (values : Values) (s : slik) : Z * slik :=
  match checkpoints s !! id ≫= fun rows => rows !! account with
  | Some None =>
      (1, set_checkpoints s (alter (fun rows => <[account := Some (primary, values)]> rows) id (checkpoints s)))
  | _ => (0, s)
  end.
Definition Save (id account primary : string) (values : Values) : sdb unit :=
  arrive;;
  transaction id_error id_error (
    progress ← statement (fun s => Ok (update_job id (fun j => bool_decide (Status j = PROCESSING))
                                         (fun j => with_progress j (Processed j + 1) (InputFile j) (OutputFile j)) s));
    lift (fail_if (negb (progress =? 1)) (Msg "SLIK job is no longer processing"));;
    changed ← statement (fun s => Ok (save_account id account primary values s));
    lift (fail_if (negb (changed =? 1)) (Msg "SLIK checkpoint already processed or missing"))).

(** [Results]: pages of 256 after the last account seen *)
Definition page_values (id after : string) (s : slik) : list (string * Values) :=
  omap (fun a => match checkpoints s !! id ≫= fun rows => rows !! a with
                 | Some (Some (_, v)) => Some (a, v)
                 | _ => None
                 end) (accounts_after id after is_done 256 s).
Fixpoint results_loop (fuel : nat) (id after : string) (results : gmap string Values) : sdb (gmap string Values) :=
  match fuel with
  | O => mret results
  | S fuel' =>
      arrive;;
      rows ← query (page_values id after);
      match last rows with
      | None => mret results
      | Some (account, _) => results_loop fuel' id account (list_to_map rows ∪ results)
      end
  end.
Definition Results (fuel : nat) (id : string) : sdb (gmap string Values) := results_loop fuel id EmptyString ∅.

Definition Terminal (id : string) (status : job_status) (account reason output : string) : sdb unit :=
  lift (fail_if (negb (terminal status)) (Msg "invalid terminal SLIK status"));;
  arrive;;
  changed ← statement (fun s => Ok (update_job id (fun j => bool_decide (Status j = PROCESSING))
                                      (fun j => with_outcome j status account reason output (clock s)) s));
  lift (fail_if (changed =? 0) (Msg "SLIK job was canceled or no longer processing")).

Definition Cancel (id : string) (owner : Z) (viewAll : bool) : sdb unit :=
  arrive;; exec (cancel_effect id owner viewAll);; Get id owner viewAll;; mret tt.

Definition IsCanceled (id : string) : sdb bool :=
  arrive;;
  status ← query (fun s => Status <$> jobs s !! id);
  match status with
  | Some st => mret (bool_decide (st = CANCELED))
  | None => db_fail (Msg "sql: no rows in result set")
  end.

Definition is_expired (now : time) (j : Job) : bool :=
  terminal (Status j) && match ExpiresAt j with Some t => t <=? now | None => false end.
Definition Expired : sdb (list Job) :=
  arrive;;
  query (fun s => take 100 (List.filter (fun j => is_expired (clock s) j &&
                                  (negb (empty (InputFile j)) || negb (empty (OutputFile j)))) (map_to_list (jobs s)).*2)).
Definition ClearFiles (id : string) : sdb unit :=
  arrive;;
  exec (fun s => snd (update_job id (is_expired (clock s))
                        (fun j => with_progress j (Processed j) EmptyString EmptyString) s)).

Definition remaining (id : string) (s : slik) : nat :=
  length (List.filter (fun p => is_queued p.2) (map_to_list (default ∅ (checkpoints s !! id)))).
Definition CheckComplete (id : string) : sdb unit :=
  arrive;;
  n ← query (remaining id);
  lift (fail_if (negb (n =? 0)%nat) (Msg "%d SLIK accounts remain unprocessed")).

Definition AcquireLock : sdb bool :=
  query (fun _ => tt);;
  statement (fun s => if worker_lock s then Ok (false, s) else Ok (true, set_worker_lock s true)).
Definition release_lock : sdb unit := fun w => (Ok tt, snd (exec (fun s => set_worker_lock s false) w)).

(** ** [manager.go] *)

(** [safeFailure] *)
Definition safeFailure (e : err) : string :=
  if Is e ErrAmbiguousAccountResolution then "ambiguous account"
  else if Is e ErrFincloudUnavailable || Is e ErrFincloudSession || Is e ErrFincloudCredentials then "Fincloud unavailable"
  else if Is e ErrMSOUnavailable then "MSO evidence unavailable"
  else if Is e ErrDWHUnavailable then "DWH evidence unavailable"
  else if Is e ErrCurrentSnapshot then "current snapshot unavailable"
  else if Is e ErrHistoricalEvidence then "historical evidence unavailable"
  else if Is e ErrNotFound then "account not found"
  else if Is e ContextDeadlineExceeded then "upstream timeout"
  else if Is e ErrUnsupportedRepaymentReversal then "unsupported repayment reversal"
  else if Is e ErrUnsupportedRepaymentAdjustment then "unsupported zero-net repayment adjustment"
  else if Is e ErrUnsupportedCalculation then "unsupported calculation"
  else if Is e ErrInvalidInput then "invalid account or reporting date"
  else "SLIK processing unavailable".

(** Lower-case hexadecimal of 16 bytes *)
Definition validJobID (id : string) : bool :=
  let l := bytes id in
  (length l =? 32)%nat && forallb (fun c => match hex_digit c with Some _ => beq (lower_byte c) c | None => false end) l.

(** [filepath.Ext] *)
Definition Ext (path : string) : string :=
  let name := List.last (split_byte "/" (bytes path)) [] in
  if mem_byte "." name then of_bytes ("."%char :: List.last (split_byte "." name) []) else EmptyString.

Definition inputName (id : string) : string := (id ++ ".input.xlsx")%string.
Definition outputName (id : string) : string := (id ++ ".output.xlsx")%string.
Definition safePath (name id suffix : string) : res string :=
  if negb (validJobID id) || negb (seqb name (id ++ suffix)%string) || negb (seqb (Base name) name)
  then Fail (Msg "unsafe SLIK storage reference") else Ok name.

Definition Available (j : Job) (now : time) : bool :=
  bool_decide (Status j = COMPLETED) && negb (empty (OutputFile j)) &&
  match ExpiresAt j with Some t => now <? t | None => false end.

(** Files: what can fail does so through the schedule of faults *)
Definition remove_file (name : string) : sdb unit := exec (fun s => set_files s (delete name (files s))).
Definition create_file (name : string) : sdb unit :=
  statement (fun s => match files s !! name with
                      | Some _ => Fail (Msg "file exists")
                      | None => Ok (tt, set_files s (<[name := []]> (files s)))
                      end).
Definition put_file (name : string) (content : list ascii) : sdb unit :=
  exec (fun s => set_files s (<[name := content]> (files s))).
Definition read_file (name : string) : sdb (option (list ascii)) := query (fun s => files s !! name).
(** A call whose error is dropped *)
Definition ignore_errors {A} (c : sdb A) : sdb unit := fun w => (Ok tt, snd (c w)).

Record Row := { row_Number : Z; row_Account : string }.
Record Workbook := {
  wb_Sheet : string; wb_HeaderRow : Z; wb_AccountColumn : string; wb_BalanceColumn : string; wb_RateColumn : string;
  wb_Rows : list Row
}.
Record Identity := { id_UserID : Z; id_Username : string }.

Fixpoint unique_accounts (seen : gset string) (rows : list Row) : list string :=
  match rows with
  | [] => []
  | row :: rest =>
      if bool_decide (row_Account row ∈ seen) then unique_accounts seen rest
      else row_Account row :: unique_accounts ({[row_Account row]} ∪ seen) rest
  end.

Record manager := {
  Concurrency : nat;
  MaxUploadBytes : Z;
  (* xlsx.go: the workbook in a file with its original name, and a file with the results written in *)
  Inspect : list ascii → string → res Workbook;
  Patch : list ascii → Workbook → gmap string Values → res (list ascii);
  positions : string → Date → res ResolvedPosition   (* PositionService.GetLoanPosition *)
}.

Section Manager.
Context (m : manager).

(** [ValidationError]: the name of its type stands before the reason.  The error of
    [Inspect] becomes one, by its text. *)
Definition ValidationError (reason : string) : err := Msg ("slik.ValidationError: " ++ reason)%string.
Definition of_invalid {A} (r : res A) : res A := match r with Ok a => Ok a | Fail _ => Fail (ValidationError "%v") end.
(** [errors.As] with a [ValidationError] *)
Definition is_validation (e : err) : bool := match e with Msg text => HasPrefix text "slik.ValidationError: " | _ => false end.

(** What [Submit] makes of an upload that is stored; [token] is the random identifier *)
Definition submission_ok (actor effective : option Identity) (originalName : string) (asOf : Date) : bool :=
  match actor, effective with
  | Some a, Some e =>
      negb (id_UserID a =? 0) && negb (id_UserID e =? 0) && negb (empty (id_Username a)) && negb (empty (id_Username e)) &&
      negb (Date_IsZero asOf) && negb (empty originalName) && seqb (Base originalName) originalName &&
      negb (mem_byte "\" (bytes originalName)) && (length (bytes originalName) <=? 255)%nat
  | _, _ => false
  end.
Definition accepted_accounts (content : list ascii) (originalName : string) : res (Workbook * list string) :=
  fail_if ((Z.of_nat (length content) =? 0) || (MaxUploadBytes m <? Z.of_nat (length content)))
          (ValidationError "XLSX exceeds compressed upload limit");;
  workbook ← of_invalid (Inspect m content originalName);
  fail_if (existsb (fun row => (191 <? rune_count (bytes (row_Account row)))%nat) (wb_Rows workbook))
          (ValidationError "SLIK account identifier exceeds 191 characters");;
  Ok (workbook, unique_accounts ∅ (wb_Rows workbook)).
Definition submitted_job (actor effective : Identity) (originalName : string) (asOf : Date) (token : string) (now : time)
    (workbook : Workbook) (accounts : list string) : Job :=
  {| job_ID := token; OwnerID := id_UserID effective; OwnerUsername := id_Username effective;
     ActorID := id_UserID actor; ActorUsername := id_Username actor; OriginalFilename := originalName;
     AsOf := Date_String asOf; Status := QUEUED; TotalRows := Z.of_nat (length (wb_Rows workbook));
     TotalAccounts := Z.of_nat (length accounts); Processed := 0; CreatedAt := now; StartedAt := None;
     FinishedAt := None; FailedAccount := EmptyString; FailureReason := EmptyString; InputFile := inputName token;
     OutputFile := EmptyString; ExpiresAt := None |}.

(** [if err != nil { os.Remove(inputPath) }] *)
Definition remove_on_error {A} (name : string) (c : sdb A) : sdb A := fun w =>
  match c w with
  | (Ok a, w') => (Ok a, w')
  | (Fail e, w') => (Fail e, snd (remove_file name w'))
  end.

Definition Submit (actor effective : option Identity) (originalName : string) (asOf : Date) (upload : list ascii)
    (token : string) (now : time) : sdb Job :=
  match actor, effective with
  | Some a, Some e =>
      lift (fail_if (negb (submission_ok actor effective originalName asOf)) (ValidationError "invalid SLIK submission"));;
      lift (fail_if (negb (bool_decide (fold_name (bytes (Ext originalName)) = fold_name (bytes ".xlsx"))))
                    (ValidationError "only .xlsx files are accepted"));;
      create_file (inputName token);;
      remove_on_error (inputName token) (
        put_file (inputName token) (take (Z.to_nat (MaxUploadBytes m + 1)) upload);;
        accepted ← lift (accepted_accounts (take (Z.to_nat (MaxUploadBytes m + 1)) upload) originalName);
        let job := submitted_job a e originalName asOf token now accepted.1 accepted.2 in
        Create job accepted.2;;
        mret job)
  | _, _ => db_fail (ValidationError "invalid SLIK submission")
  end.

Definition OpenOutput (id : string) (owner : Z) (viewAll : bool) (now : time) : sdb (Job * list ascii) :=
  job ← Get id owner viewAll;
  lift (fail_if (negb (bool_decide (Status job = COMPLETED))) (Sentinel SlikErrNotReady));;
  lift (fail_if (negb (Available job now)) (Sentinel SlikErrExpired));;
  match safePath (OutputFile job) (job_ID job) ".output.xlsx" with
  | Fail _ => db_fail (Sentinel SlikErrExpired)
  | Ok name =>
      content ← read_file name;
      match content with Some c => mret (job, c) | None => db_fail (Sentinel SlikErrExpired) end
  end.

(** *** The workers *)

(** Who does what next: the producer fetches a page or hands an account over, a
    worker finishes (or, stopped, gives up) its account, or the context ends *)
Inductive work_event := Fetch | Hand | Finish (account : string) | Drop (account : string) | Stop.

Record work := {
  after : string;                       (* the last account handed over *)
  page : list string;                   (* fetched, not yet handed over *)
  busy : gset string;                   (* in the hands of a worker *)
  failure : option (string * string);   (* the first failure: account and reason *)
  stopped : bool;                       (* ctx.Err() != nil *)
  produced : bool                       (* the producer has left its loop *)
}.
Definition work_fail (account : string) (e : err) (k : work) : work :=
  if stopped k then k else
  {| after := after k; page := page k; busy := busy k;
     failure := match failure k with Some f => Some f | None => Some (account, safeFailure e) end;
     stopped := true; produced := produced k |}.
Definition start_work : work :=
  {| after := EmptyString; page := []; busy := ∅; failure := None; stopped := false; produced := false |}.

(** The values of an account *)
Definition account_values (date : Date) (account : string) : res (string * Values) :=
  resolved ← positions m account date;
  rate ← ExactDecimal (cd_FlatRatePercent (rv_Loan resolved));
  Ok (cd_PrimaryAccount (rv_Loan resolved),
      {| Balance := Format (lp_PrincipalOutstanding (rv_Position resolved)) 2; Rate := rate |}).

(** A worker's whole account: position, values, checkpoint *)
Definition finish_account (id : string) (date : Date) (account : string) : sdb unit :=
  values ← lift (account_values date account);
  Save id account values.1 values.2.

Definition put_down (account : string) (k : work) : work :=
  {| after := after k; page := page k; busy := busy k ∖ {[account]}; failure := failure k; stopped := stopped k;
     produced := produced k |}.
Definition stop_producing (k : work) : work :=
  {| after := after k; page := []; busy := busy k; failure := failure k; stopped := stopped k; produced := true |}.

Definition work_step (id : string) (date : Date) (ev : work_event) (k : work) : sdb work := fun w =>
  match ev with
  | Fetch =>
      if produced k then (Ok k, w) else
      if stopped k then (Ok (stop_producing k), w) else
      match page k with
      | _ :: _ => (Ok k, w)
      | [] =>
          match Pending id (after k) 128 w with
          | (Fail e, w') => (Ok (stop_producing (work_fail EmptyString e k)), w')
          | (Ok [], w') => (Ok (stop_producing k), w')
          | (Ok accounts, w') =>
              (Ok {| after := after k; page := accounts; busy := busy k; failure := failure k; stopped := stopped k;
                     produced := false |}, w')
          end
      end
  | Hand =>
      match page k with
      | account :: rest =>
          if produced k || stopped k || negb (size (busy k) <? Concurrency m)%nat then (Ok k, w) else
          (Ok {| after := account; page := rest; busy := {[account]} ∪ busy k; failure := failure k;
                 stopped := stopped k; produced := produced k |}, w)
      | [] => (Ok k, w)
      end
  | Finish account =>
      if negb (bool_decide (account ∈ busy k)) then (Ok k, w) else
      match finish_account id date account w with
      | (Ok _, w') => (Ok (put_down account k), w')
      | (Fail e, w') => (Ok (work_fail account e (put_down account k)), w')
      end
  | Drop account => (Ok (if stopped k then put_down account k else k), w)
  | Stop =>
      (Ok {| after := after k; page := page k; busy := busy k; failure := failure k; stopped := true;
             produced := produced k |}, w)
  end.
Fixpoint work_steps (id : string) (date : Date) (schedule : list work_event) (k : work) : sdb work :=
  match schedule with
  | [] => mret k
  | ev :: rest => k' ← work_step id date ev k; work_steps id date rest k'
  end.

(** [wait.Wait()] is over: nothing more to hand over and nobody at work *)
Definition work_over (k : work) : bool := produced k && bool_decide (busy k = ∅).

(** *** Running a job *)

Record signals := {
  lost_at_start : bool;      (* the worker lock is lost before the work *)
  lost_after_work : bool;
  shutdown : bool;           (* the manager's own context ended during the work *)
  lost_interrupting : bool;  (* ... found when the work was interrupted *)
  lost_after_patch : bool;
  lost_at_end : bool
}.

Definition finish (job : Job) (status : job_status) (account reason output : string) : sdb unit := fun w =>
  match Terminal (job_ID job) status account reason output w with
  | (Ok _, w') => (Ok tt, w')
  | (Fail _, w') => if empty output then (Ok tt, w') else (Ok tt, snd (remove_file output w'))
  end.
Definition fail_job (job : Job) (account reason : string) : sdb unit := finish job FAILED account reason EmptyString.

(** [if err != nil ... if canceled ...] around a check of the job's status *)
Definition unless_canceled (id : string) (continue : sdb unit) : sdb unit := fun w =>
  match IsCanceled id w with
  | (Ok false, w') => continue w'
  | (_, w') => (Ok tt, w')
  end.

(** From the stored workbook and the checkpoints to the output file; [Some reason]
    when it could not be made *)
Definition write_output (fuel : nat) (job : Job) (input : list ascii) (workbook : Workbook) : sdb (option string) := fun w =>
  let failed := fun w' => (Ok (Some "XLSX generation failed"%string), snd (remove_file (outputName (job_ID job)) w')) in
  match Results fuel (job_ID job) w with
  | (Fail _, w1) => (Ok (Some "SLIK checkpoints unavailable"%string), w1)
  | (Ok results, w1) =>
      match Patch m input workbook results with
      | Fail _ => failed w1
      | Ok output =>
          match put_file (outputName (job_ID job)) output w1 with
          | (Ok _, w2) => (Ok None, w2)
          | (Fail _, w2) => failed w2
          end
      end
  end.
Definition produce_output (fuel : nat) (job : Job) : sdb (option string) := fun w =>
  match CheckComplete (job_ID job) w with
  | (Fail _, w1) => (Ok (Some "SLIK checkpoints incomplete"%string), w1)
  | (Ok _, w1) =>
      match safePath (InputFile job) (job_ID job) ".input.xlsx" with
      | Fail _ => (Ok (Some "stored workbook unavailable"%string), w1)
      | Ok path =>
          match read_file path w1 with
          | (Ok (Some input), w2) =>
              match Inspect m input (OriginalFilename job) with
              | Fail _ => (Ok (Some "stored workbook unavailable"%string), w2)
              | Ok workbook => write_output fuel job input workbook w2
              end
          | (_, w2) => (Ok (Some "stored workbook unavailable"%string), w2)
          end
      end
  end.

Definition conclude (fuel : nat) (job : Job) (sig : signals) : sdb unit :=
  problem ← produce_output fuel job;
  match problem with
  | Some reason => fail_job job EmptyString reason
  | None =>
      let output := outputName (job_ID job) in
      if lost_after_patch sig then ignore_errors (remove_file output) else
      fun w =>
        match IsCanceled (job_ID job) w with
        | (Ok false, w') =>
            (if lost_at_end sig then ignore_errors (remove_file output)
             else finish job COMPLETED EmptyString EmptyString output) w'
        | (_, w') => ignore_errors (remove_file output) w'
        end
  end.

Definition after_work (fuel : nat) (job : Job) (sig : signals) (k : work) : sdb unit :=
  if lost_after_work sig || shutdown sig then mret tt else
  unless_canceled (job_ID job) (
    match failure k with
    | Some (account, reason) => fail_job job account reason
    | None =>
        if stopped k then (if lost_interrupting sig then mret tt else fail_job job EmptyString "SLIK processing interrupted")
        else conclude fuel job sig
    end).

(** [run]; [schedule] is how the producer and the workers took turns until all was over *)
Definition run (fuel : nat) (job : Job) (schedule : list work_event) (sig : signals) : sdb unit :=
  if negb (validJobID (job_ID job)) then fail_job job EmptyString "invalid SLIK job identifier" else
  fun w =>
    match remove_file (outputName (job_ID job)) w with
    | (Fail _, w1) => fail_job job EmptyString "SLIK output storage unavailable" w1
    | (Ok _, w1) =>
        unless_canceled (job_ID job) (
          if lost_at_start sig then mret tt else
          let '(date, k) := match ParseDate (AsOf job) (Some UTC) with
                            | Ok date => (date, start_work)
                            | Fail e => (ZeroDate, work_fail EmptyString e start_work)
                            end in
          k' ← work_steps (job_ID job) date schedule k;
          after_work fuel job sig k') w1
    end.

(** One round of [loop]: under the worker lock, recover, claim, run *)
Definition poll_locked (fuel : nat) (schedule : list work_event) (sig : signals) : sdb unit :=
  Recover;;
  found ← ClaimNext fuel;
  match found with Some job => run fuel job schedule sig | None => mret tt end.
Definition poll (fuel : nat) (schedule : list work_event) (sig : signals) : sdb unit := fun w =>
  match AcquireLock w with
  | (Ok true, w1) =>
      release_lock (snd (poll_locked fuel schedule sig w1))
  | (_, w1) => (Ok tt, w1)
  end.

(** *** Retention *)

(** The files of an expired job; whether all are gone *)
Fixpoint remove_items (id : string) (items : list (string * string)) : sdb bool :=
  match items with
  | [] => mret true
  | (name, suffix) :: rest =>
      if empty name then remove_items id rest else
      match safePath name id suffix with
      | Fail _ => remove_items id rest;; mret false
      | Ok path => fun w =>
          match remove_file path w with
          | (Ok _, w') => remove_items id rest w'
          | (Fail _, w') => (remove_items id rest;; mret false) w'
          end
      end
  end.
Definition cleanup_job (job : Job) : sdb unit :=
  removed ← remove_items (job_ID job) [(InputFile job, ".input.xlsx"); (OutputFile job, ".output.xlsx")]%string;
  if (removed : bool) then ignore_errors (ClearFiles (job_ID job)) else mret tt.
Fixpoint cleanup_jobs (l : list Job) : sdb unit :=
  match l with
  | [] => mret tt
  | job :: rest => cleanup_job job;; cleanup_jobs rest
  end.
Definition cleanup : sdb unit := fun w =>
  match Expired w with
  | (Ok l, w') => cleanup_jobs l w'
  | (Fail _, w') => (Ok tt, w')
  end.
End Manager.

