(* ===== verification/SlikLife.v ===== *)
(** The life of a SLIK job: what the calls of SlikJobs.v may do to the tables.

    A relation between the tables before and after that every single effect
    respects is respected by every call of the manager, for every schedule of
    faults, arrivals and turns of the workers. *)
From stdpp Require Import base list gmap strings sorting.
From Stdlib Require Import ZArith Lia Ascii QArith.
From S2P Require Import Prelude GoStrings GoErrors Database GoSlices GoTime GoJSON Dates Money LoanModel SlikJobs.
Local Open Scope Z_scope.

(** ** The life of a job *)

(** What can happen to a job: who it belongs to and what it is about never
    change, progress never goes back, and once it has ended its outcome stands
    (only its files are cleared after they expire). *)
Record job_le (j j' : Job) : Prop := {
  le_identity : job_ID j' = job_ID j ∧ OwnerID j' = OwnerID j ∧ OwnerUsername j' = OwnerUsername j ∧
    ActorID j' = ActorID j ∧ ActorUsername j' = ActorUsername j ∧ OriginalFilename j' = OriginalFilename j ∧
    AsOf j' = AsOf j ∧ TotalRows j' = TotalRows j ∧ TotalAccounts j' = TotalAccounts j ∧ CreatedAt j' = CreatedAt j;
  le_processed : Processed j ≤ Processed j';
  le_terminal : terminal (Status j) = true → Status j' = Status j ∧ FinishedAt j' = FinishedAt j ∧
    FailedAccount j' = FailedAccount j ∧ FailureReason j' = FailureReason j ∧ ExpiresAt j' = ExpiresAt j ∧
    Processed j' = Processed j ∧ (OutputFile j' = OutputFile j ∨ OutputFile j' = EmptyString)
}.
#[export] Instance job_le_preorder : PreOrder job_le.
Proof.
  split.
  - intros j. split; [done|lia|]. intros _. split_and!; try done. by left.
  - intros j j' j'' [H1 H2 H3] [H1' H2' H3']. split; [|lia|].
    + destruct H1 as (? & ? & ? & ? & ? & ? & ? & ? & ? & ?), H1' as (? & ? & ? & ? & ? & ? & ? & ? & ? & ?).
      split_and!; congruence.
    + intros Ht. destruct (H3 Ht) as (E & ? & ? & ? & ? & ? & Ho). rewrite <- E in Ht.
      destruct (H3' Ht) as (? & ? & ? & ? & ? & ? & Ho'). split_and!; try congruence.
      destruct Ho' as [->| ->]; [done|by right].
Qed.

(** Every row of slik_jobs is under its own identifier. *)
Definition keyed (s : slik) : Prop := ∀ id j, jobs s !! id = Some j → job_ID j = id.
Record lifecycle (s s' : slik) : Prop := {
  life_jobs : ∀ id j, jobs s !! id = Some j → ∃ j', jobs s' !! id = Some j' ∧ job_le j j';
  life_keyed : keyed s → keyed s'
}.
#[export] Instance lifecycle_preorder : PreOrder lifecycle.
Proof.
  split.
  - intros s. split; [|done]. intros id j H. by exists j.
  - intros s s' s'' [H HK] [H' HK']. split; [|by auto]. intros id j Hj. destruct (H id j Hj) as (j' & Hj' & Hle).
    destruct (H' id j' Hj') as (j'' & Hj'' & Hle'). exists j''. split; [done|]. by etrans.
Qed.

Lemma lifecycle_same s s' : jobs s' = jobs s → lifecycle s s'.
Proof. intros E. split; [|unfold keyed; by rewrite E]. intros id j Hj. exists j. by rewrite E. Qed.

Lemma update_job_lifecycle id cond f s :
  (∀ j, cond j = true → job_le j (f j)) → lifecycle s (snd (update_job id cond f s)).
Proof.
  intros Hf. unfold update_job. destruct (jobs s !! id) as [j0|] eqn:E; [|done]. destruct (cond j0) eqn:Ec; [|done].
  split; unfold keyed; cbn.
  - intros id' j Hj. destruct (decide (id = id')) as [<-|Hne].
    + rewrite lookup_insert_eq. exists (f j0). split; [done|]. rewrite E in Hj. injection Hj as <-. by apply Hf.
    + rewrite lookup_insert_ne by done. by exists j.
  - intros HK id' j. destruct (decide (id = id')) as [<-|Hne].
    + rewrite lookup_insert_eq. intros [= <-]. destruct (Hf j0 Ec) as [[-> _] _ _]. by apply HK.
    + rewrite lookup_insert_ne by done. apply HK.
Qed.

Lemma live_job_le j f : terminal (Status j) = false →
  (job_ID f = job_ID j ∧ OwnerID f = OwnerID j ∧ OwnerUsername f = OwnerUsername j ∧
    ActorID f = ActorID j ∧ ActorUsername f = ActorUsername j ∧ OriginalFilename f = OriginalFilename j ∧
    AsOf f = AsOf j ∧ TotalRows f = TotalRows j ∧ TotalAccounts f = TotalAccounts j ∧ CreatedAt f = CreatedAt j) →
  Processed j ≤ Processed f → job_le j f.
Proof. intros Ht Hid Hp. split; [done|done|]. congruence. Qed.

Lemma cancel_lifecycle id owner viewAll s : lifecycle s (cancel_effect id owner viewAll s).
Proof.
  apply update_job_lifecycle. intros j [Ht _]%andb_true_iff. apply negb_true_iff in Ht. apply live_job_le; done || lia.
Qed.

Lemma insert_job_lifecycle job s s' : insert_job job s = Ok s' → lifecycle s s'.
Proof.
  unfold insert_job. destruct (jobs s !! job_ID job) eqn:E; [done|]. intros [= <-]. split; unfold keyed; cbn.
  - intros id j Hj. exists j. split; [|done]. rewrite lookup_insert_ne; [done|]. congruence.
  - intros HK id j. destruct (decide (job_ID job = id)) as [<-|Hne].
    + rewrite lookup_insert_eq. by intros [= <-].
    + rewrite lookup_insert_ne by done. apply HK.
Qed.
Lemma insert_accounts_jobs id batch s s' : insert_accounts id batch s = Ok s' → jobs s' = jobs s.
Proof.
  revert s. induction batch as [|a batch IH]; intros s H; simpl in H; [by injection H as <-|].
  destruct (checkpoints s !! id) as [rows|]; [|done]. destruct (rows !! a); [done|]. by rewrite (IH _ H).
Qed.
Lemma create_lifecycle job accounts s : lifecycle s (create_effect job accounts s).
Proof.
  unfold create_effect. destruct (_ ≫= _) as [s'|e] eqn:E; [|done]. apply bind_Ok in E as (s1 & H1 & H2).
  apply insert_job_lifecycle in H1. apply insert_accounts_jobs in H2. etrans; [exact H1|]. by apply lifecycle_same.
Qed.

(** ** Everything the manager does, seen through a relation on the tables *)

Definition created (job : Job) (accounts : list string) (s : slik) : res slik :=
  insert_job (new_job job accounts) s ≫= insert_accounts (job_ID job) accounts.
Definition saved (id account primary : string) (values : Values) (s : slik) : option slik :=
  let '(n, s1) := update_job id (fun j => bool_decide (Status j = PROCESSING))
                    (fun j => with_progress j (Processed j + 1) (InputFile j) (OutputFile j)) s in
  let '(n', s2) := save_account id account primary values s1 in
  if (n =? 1) && (n' =? 1) then Some s2 else None.

Definition terminated (id : string) (status : job_status) (account reason output : string) (s : slik) : slik :=
  snd (update_job id (fun j => bool_decide (Status j = PROCESSING))
         (fun j => with_outcome j status account reason output (clock s)) s).

(** The job exists and every row of it is done. *)
Definition all_done (id : string) (s : slik) : Prop := is_Some (jobs s !! id) ∧ remaining id s = 0%nat.
(** The job is about the positions of this date. *)
Definition dated (id : string) (date : Date) (s : slik) : Prop :=
  ∃ j, jobs s !! id = Some j ∧ ParseDate (AsOf j) (Some UTC) = Ok date.

Record respects (m : manager) (R : slik → slik → Prop) : Prop := {
  resp_lifecycle : ∀ s s', R s s' → lifecycle s s';
  resp_frame : ∀ s s', jobs s' = jobs s → checkpoints s' = checkpoints s → R s s';
  resp_cancel : ∀ id owner viewAll s, R s (cancel_effect id owner viewAll s);
  resp_create : ∀ job accounts s s', created job accounts s = Ok s' → R s s';
  resp_recover : ∀ s, R s (set_jobs s (recover_job <$> jobs s));
  resp_claim : ∀ id s, R s (snd (update_job id (fun j => bool_decide (Status j = QUEUED)) (fun j => started j (clock s)) s));
  resp_save : ∀ id date account primary values s s', dated id date s → account_values m date account = Ok (primary, values) →
    saved id account primary values s = Some s' → R s s';
  resp_terminal : ∀ id status account reason output s, status = FAILED ∨ status = CANCELED →
    R s (terminated id status account reason output s);
  resp_complete : ∀ id account reason output s s', all_done id s → R s s' →
    R s (terminated id COMPLETED account reason output s');
  resp_clear : ∀ id s, R s (snd (update_job id (is_expired (clock s))
                              (fun j => with_progress j (Processed j) EmptyString EmptyString) s))
}.

Section Traverse.
Context (m : manager) (R : slik → slik → Prop) `{!PreOrder R} (HR : respects m R).

(** The effect of the goal is one of those that the relation respects. *)
Ltac respect :=
  first [by apply (resp_frame m R HR) | apply (resp_cancel m R HR) | by eapply (resp_create m R HR)
        | apply (resp_recover m R HR) | apply (resp_claim m R HR) | by eapply (resp_save m R HR)
        | apply (resp_clear m R HR)].

Lemma settle_respects s : R s (settle s).
Proof.
  unfold settle. destruct (arrivals s) as [|now later]; [done|].
  assert (∀ s0, R s0 (foldl apply_arrival s0 now)) as Hf.
  { induction now as [|a now IH]; intros s0; [done|]. simpl. etrans; [|apply IH]. destruct a as [id o v|job accounts|d]; cbn.
    - respect.
    - unfold create_effect. fold (created job accounts s0). destruct (created job accounts s0) eqn:E; [respect|done].
    - respect. }
  etrans; [|apply Hf]. respect.
Qed.

Lemma arrive_evolves : evolves R arrive.
Proof. intros w r w' [= <- <-]. apply settle_respects. Qed.
Lemma query_evolves {A} (f : slik → A) : evolves R (query f).
Proof. by apply evolves_query. Qed.
Lemma files_evolves (f : slik → gmap string (list ascii)) : evolves R (exec (fun s => set_files s (f s))).
Proof. apply evolves_exec; [done|]. intros s. respect. Qed.
Lemma update_evolves id cond f :
  (∀ s, R s (snd (update_job id (cond s) (f s) s))) → evolves R (statement (fun s => Ok (update_job id (cond s) (f s) s))).
Proof.
  intros Hf. apply evolves_statement; [done|]. intros s n s' H. apply Ok_inj in H. specialize (Hf s). by rewrite H in Hf.
Qed.

(** Calls whose errors are looked at or dropped *)
Lemma evolves_call {A B} (c : sdb A) (k : res A → sdb B) :
  evolves R c → (∀ r, evolves R (k r)) → evolves R (fun w => let '(r, w') := c w in k r w').
Proof. intros Hc Hk w r w' H. destruct (c w) as [r1 w1] eqn:E. etrans; [by eapply Hc|by eapply Hk]. Qed.
Lemma ignore_evolves {A} (c : sdb A) : evolves R c → evolves R (ignore_errors c).
Proof. intros Hc w r w' [= <- <-]. destruct (c w) as [r1 w1] eqn:E. by eapply Hc. Qed.
Lemma evolves_after {A} (c : sdb A) w : evolves R c → R (tables w) (tables (snd (c w))).
Proof. intros Hc. destruct (c w) as [r w'] eqn:E. by eapply Hc. Qed.

Lemma remove_file_evolves name : evolves R (remove_file name).
Proof. apply files_evolves. Qed.
Lemma put_file_evolves name content : evolves R (put_file name content).
Proof. apply files_evolves. Qed.

Lemma Get_evolves id owner viewAll : evolves R (Get id owner viewAll).
Proof.
  apply evolves_bind; [done|apply arrive_evolves|intros _]. apply evolves_bind; [done|apply query_evolves|].
  intros [j|]; [by apply evolves_ret|by apply evolves_fail].
Qed.
Lemma IsCanceled_evolves id : evolves R (IsCanceled id).
Proof.
  apply evolves_bind; [done|apply arrive_evolves|intros _]. apply evolves_bind; [done|apply query_evolves|].
  intros [j|]; [by apply evolves_ret|by apply evolves_fail].
Qed.
Lemma Cancel_evolves id owner viewAll : evolves R (Cancel id owner viewAll).
Proof.
  apply evolves_bind; [done|apply arrive_evolves|intros _]. apply evolves_bind; [done| |intros _].
  - apply evolves_exec; [done|]. intros s. respect.
  - apply evolves_bind; [done|apply Get_evolves|intros _]. by apply evolves_ret.
Qed.
Lemma Recover_evolves : evolves R Recover.
Proof. apply evolves_bind; [done|apply arrive_evolves|intros _]. apply evolves_exec; [done|]. intros s. respect. Qed.
Lemma ClaimNext_evolves fuel : evolves R (ClaimNext fuel).
Proof.
  induction fuel as [|fuel IH]; [by apply evolves_ret|]. cbn [ClaimNext].
  apply evolves_bind; [done|apply arrive_evolves|intros _]. apply evolves_bind; [done|apply query_evolves|].
  intros [j|]; [|by apply evolves_ret]. apply evolves_bind; [done|apply arrive_evolves|intros _].
  apply evolves_bind; [done|apply update_evolves; intros s; respect|]. intros rows. destruct (rows =? 0); [done|].
  apply evolves_bind; [done|apply Get_evolves|intros job]. by apply evolves_ret.
Qed.
Lemma Pending_evolves id from limit : evolves R (Pending id from limit).
Proof. apply evolves_bind; [done|apply arrive_evolves|intros _]. apply query_evolves. Qed.
Lemma results_evolves fuel id from results : evolves R (results_loop fuel id from results).
Proof.
  revert from results. induction fuel as [|fuel IH]; intros from results; [by apply evolves_ret|]. cbn [results_loop].
  apply evolves_bind; [done|apply arrive_evolves|intros _]. apply evolves_bind; [done|apply query_evolves|].
  intros rows. destruct (last rows) as [[account v]|]; [done|by apply evolves_ret].
Qed.
Lemma CheckComplete_evolves id : evolves R (CheckComplete id).
Proof.
  apply evolves_bind; [done|apply arrive_evolves|intros _]. apply evolves_bind; [done|apply query_evolves|].
  intros n. by apply evolves_lift.
Qed.
Lemma Expired_evolves : evolves R Expired.
Proof. apply evolves_bind; [done|apply arrive_evolves|intros _]. apply query_evolves. Qed.
Lemma ClearFiles_evolves id : evolves R (ClearFiles id).
Proof. apply evolves_bind; [done|apply arrive_evolves|intros _]. apply evolves_exec; [done|]. intros s. respect. Qed.

Lemma Terminal_inv id status account reason output w r w' :
  Terminal id status account reason output w = (r, w') →
  tables w' = tables w ∨ tables w' = settle (tables w) ∨
  tables w' = terminated id status account reason output (settle (tables w)).
Proof.
  unfold Terminal. intros H. destruct (terminal status); cbn [negb fail_if] in H; [|injection H as _ <-; by left].
  unfold mbind, db_bind, lift, arrive in H. right.
  match type of H with context [statement ?f ?w1] => destruct (statement f w1) as [[n|e] w2] eqn:E end;
    apply statement_effect in E; cbn [tables] in E.
  - destruct E as (s & E & Hs). apply Ok_inj in E. injection H as _ <-. right. unfold terminated. by rewrite E, Hs.
  - injection H as _ <-. destruct E as [->|(n & s & E & ->)]; [by left|]. apply Ok_inj in E. right. unfold terminated. by rewrite E.
Qed.
Lemma Terminal_evolves id status account reason output :
  status = FAILED ∨ status = CANCELED → evolves R (Terminal id status account reason output).
Proof.
  intros Hst w r w' H. apply Terminal_inv in H as [->|[->| ->]]; [done|apply settle_respects|].
  etrans; [apply settle_respects|]. by apply (resp_terminal m R HR).
Qed.
(** Completing, when all was done at some earlier time *)
Lemma Terminal_completes id account reason output s w r w' :
  all_done id s → R s (tables w) → Terminal id COMPLETED account reason output w = (r, w') → R s (tables w').
Proof.
  intros Hrem Hs H. apply Terminal_inv in H as [->|[->| ->]]; [done|etrans; [exact Hs|apply settle_respects]|].
  apply (resp_complete m R HR); [done|]. etrans; [exact Hs|apply settle_respects].
Qed.

Lemma dated_stays id date s s' : R s s' → dated id date s → dated id date s'.
Proof.
  intros Hs (j & Hj & Hd). apply (resp_lifecycle m R HR) in Hs as [Hs _].
  destruct (Hs id j Hj) as (j' & Hj' & [(_ & _ & _ & _ & _ & _ & E & _) _ _]). exists j'. by rewrite E.
Qed.
Lemma Save_evolves id date account primary values w r w' :
  dated id date (tables w) → account_values m date account = Ok (primary, values) →
  Save id account primary values w = (r, w') → R (tables w) (tables w').
Proof.
  intros Hd Hv H. unfold Save, mbind, db_bind, arrive in H. pose proof (settle_respects (tables w)) as Hs.
  pose proof (dated_stays _ _ _ _ Hs Hd) as Hd1. etrans; [exact Hs|]. remember (settle (tables w)) as s0 eqn:E0. clear Hs Hd E0.
  assert (∀ rest w2, (progress ← statement (fun s => Ok (update_job id (fun j => bool_decide (Status j = PROCESSING))
                                         (fun j => with_progress j (Processed j + 1) (InputFile j) (OutputFile j)) s));
    lift (fail_if (negb (progress =? 1)) (Msg "SLIK job is no longer processing"));;
    changed ← statement (fun s => Ok (save_account id account primary values s));
    lift (fail_if (negb (changed =? 1)) (Msg "SLIK checkpoint already processed or missing")))%stdpp (World s0 rest) = (Ok tt, w2) →
    R s0 (tables w2)) as Hbody.
  { intros rest w2 Hb. apply db_bind_Ok in Hb as (n & w1 & H1 & Hb). apply statement_effect in H1 as (s1 & H1 & E1).
    apply db_bind_Ok in Hb as ([] & w3 & H2 & Hb). unfold lift in H2. injection H2 as Hn <-. apply fail_if_Ok, negb_false_iff in Hn.
    apply db_bind_Ok in Hb as (n' & w4 & H3 & Hb). apply statement_effect in H3 as (s3 & H3 & E3).
    unfold lift in Hb. injection Hb as Hn' <-. apply fail_if_Ok, negb_false_iff in Hn'.
    apply Ok_inj in H1, H3. rewrite E3. eapply (resp_save m R HR); [exact Hd1|exact Hv|]. unfold saved.
    cbn [tables] in H1. rewrite H1, <- E1, H3. by rewrite Hn, Hn'. }
  apply transaction_atomic in H. cbn [tables] in H. destruct r as [[]|e].
  - destruct H as (rest & w1 & H & ->). by eapply Hbody.
  - destruct H as [->|([] & rest & w1 & H & ->)]; [done|by eapply Hbody].
Qed.

Lemma insert_accounts_app id l l' s :
  insert_accounts id (l ++ l') s = (insert_accounts id l s ≫= insert_accounts id l').
Proof.
  revert s. induction l as [|a l IH]; intros s; [done|]. simpl.
  destruct (checkpoints s !! id) as [rows|]; [|done]. destruct (rows !! a); [done|apply IH].
Qed.
Lemma insert_batches_Ok fuel id accounts w u w' :
  (length accounts ≤ fuel)%nat → insert_batches fuel id accounts w = (Ok u, w') →
  insert_accounts id accounts (tables w) = Ok (tables w').
Proof.
  revert accounts w u. induction fuel as [|fuel IH]; intros accounts w u Hlen H.
  { destruct accounts; [|simpl in Hlen; lia]. by injection H as _ <-. }
  destruct accounts as [|a accounts]; [by injection H as _ <-|].
  remember (a :: accounts) as all eqn:Hall. assert (insert_batches (S fuel) id all =
    (statement (fun s => s' ← insert_accounts id (take batchSize all) s; Ok (tt, s'));;
     insert_batches fuel id (drop batchSize all))) as E by (by rewrite Hall).
  rewrite E in H. apply db_bind_Ok in H as (u1 & w1 & H1 & H). apply statement_effect in H1 as (s1 & H1 & E1).
  apply bind_Ok in H1 as (s2 & H1 & Hs). injection Hs as _ ->. rewrite <- E1 in H1.
  rewrite <- (take_drop batchSize all), insert_accounts_app, H1. cbn [mbind result_bind].
  eapply IH; [|exact H]. rewrite length_drop. subst all. unfold batchSize. simpl in *. lia.
Qed.
(** A creation that succeeds has inserted the job and every account. *)
Lemma Create_body_Ok job accounts w u w' :
  (statement (fun s => s' ← insert_job (new_job job accounts) s; Ok (tt, s'));;
   insert_batches (length accounts) (job_ID job) accounts) w = (Ok u, w') →
  created job accounts (tables w) = Ok (tables w').
Proof.
  intros H. apply db_bind_Ok in H as (u1 & w1 & H1 & H). apply statement_effect in H1 as (s1 & H1 & E1).
  apply bind_Ok in H1 as (s2 & H1 & Hs). injection Hs as _ ->. rewrite <- E1 in H1. apply insert_batches_Ok in H; [|done].
  unfold created. rewrite H1. exact H.
Qed.
Lemma Create_evolves job accounts : evolves R (Create job accounts).
Proof.
  apply evolves_bind; [done|apply arrive_evolves|intros _]. apply evolves_transaction; [done|].
  intros w u w' H. apply (resp_create m R HR job accounts). by apply Create_body_Ok in H.
Qed.

Lemma AcquireLock_evolves : evolves R AcquireLock.
Proof.
  apply evolves_bind; [done|apply query_evolves|intros _]. apply evolves_statement; [done|].
  intros s held s'. destruct (worker_lock s); intros [= <- <-]; [done|respect].
Qed.
Lemma release_evolves : evolves R release_lock.
Proof. intros w r w' [= <- <-]. apply evolves_after, evolves_exec; [done|]. intros s. respect. Qed.

Lemma finish_account_evolves id date account w r w' :
  dated id date (tables w) → finish_account m id date account w = (r, w') → R (tables w) (tables w').
Proof.
  intros Hd H. unfold finish_account, lift, mbind, db_bind in H.
  destruct (account_values m date account) as [[primary values]|e] eqn:E.
  - by eapply (Save_evolves id date account primary values).
  - by injection H as <- <-.
Qed.

(** Work that has something to save is about the job's date. *)
Definition ready (id : string) (date : Date) (k : work) (s : slik) : Prop :=
  dated id date s ∨ (stopped k = true ∧ busy k = ∅).
Lemma work_step_evolves id date ev k w r w' :
  ready id date k (tables w) → work_step m id date ev k w = (r, w') →
  R (tables w) (tables w') ∧ ∃ k', r = Ok k' ∧ ready id date k' (tables w').
Proof.
  intros Hk H.
  assert (∀ k', R (tables w) (tables w') → (stopped k = true → stopped k' = true ∧ (busy k = ∅ → busy k' = ∅)) →
    ready id date k' (tables w')) as Hready.
  { intros k' HRw Hk'. destruct Hk as [Hd|[Hs Hb]]; [left; by eapply dated_stays|right]. destruct (Hk' Hs). auto. }
  unfold work_step in H. destruct ev as [| |account|account|].
  - destruct (produced k); [by injection H as <- <-; split; [done|exists k]|]. destruct (stopped k) eqn:Es; [injection H as <- <-; split; [done|eexists; split; [done|by apply Hready]]|].
    destruct (page k); [|by injection H as <- <-; split; [done|exists k]]. destruct (Pending id (after k) 128 w) as [p w1] eqn:E.
    apply Pending_evolves in E.
    destruct p as [[|a l]|e]; injection H as <- <-; (split; [done|eexists; split; [done|by apply Hready]]).
  - destruct (page k); [by injection H as <- <-; split; [done|exists k]|].
    destruct (_ || negb _) eqn:Eo; injection H as <- <-; [by split; [done|exists k]|].
    apply orb_false_iff in Eo as [[_ Es]%orb_false_iff _].
    split; [done|eexists; split; [done|apply Hready; [done|congruence]]].
  - case_bool_decide as Ha; cbn [negb] in H; [|by injection H as <- <-; split; [done|exists k]].
    destruct Hk as [Hd|[_ Hb]]; [|set_solver].
    destruct (finish_account m id date account w) as [p w1] eqn:E. apply finish_account_evolves in E; [|done].
    destruct p; injection H as <- <-; (split; [done|eexists; split; [done|left; by eapply dated_stays]]).
  - injection H as <- <-. split; [done|eexists; split; [done|]]. destruct (stopped k) eqn:Es; [|done].
    apply Hready; [done|]. intros _. split; [done|]. cbn. set_solver.
  - injection H as <- <-. split; [done|eexists; split; [done|]]. by apply Hready.
Qed.
Lemma work_steps_evolves id date schedule k w r w' :
  ready id date k (tables w) → work_steps m id date schedule k w = (r, w') → R (tables w) (tables w').
Proof.
  revert k w. induction schedule as [|ev schedule IH]; intros k w Hk H; [by injection H as <- <-|].
  cbn [work_steps] in H. unfold mbind, db_bind in H. destruct (work_step m id date ev k w) as [r1 w1] eqn:E.
  apply work_step_evolves in E as (HRw & k' & -> & Hk'); [|done]. etrans; [exact HRw|by eapply IH].
Qed.

Lemma finish_inv job status account reason output w r w' :
  finish job status account reason output w = (r, w') →
  ∃ t w1, Terminal (job_ID job) status account reason output w = (t, w1) ∧ R (tables w1) (tables w').
Proof.
  unfold finish. destruct (Terminal _ _ _ _ _ w) as [t w1]. intros H. exists t, w1. split; [done|].
  destruct t; [by injection H as <- <-|]. destruct (empty output); injection H as <- <-; [done|].
  apply evolves_after, remove_file_evolves.
Qed.
Lemma fail_job_evolves job account reason : evolves R (fail_job job account reason).
Proof.
  intros w r w' H. apply finish_inv in H as (t & w1 & H & H1). apply Terminal_evolves in H; [by etrans|by left].
Qed.
Lemma finish_completes job output s w r w' :
  all_done (job_ID job) s → R s (tables w) →
  finish job COMPLETED EmptyString EmptyString output w = (r, w') → R s (tables w').
Proof.
  intros Hrem Hs H. apply finish_inv in H as (t & w1 & H & H1). eapply Terminal_completes in H; [|done..]. by etrans.
Qed.

Lemma write_output_evolves fuel job input workbook : evolves R (write_output m fuel job input workbook).
Proof.
  intros w r w' H. unfold write_output in H. destruct (Results fuel (job_ID job) w) as [p w1] eqn:E.
  apply results_evolves in E. destruct p as [results|e]; [|by injection H as <- <-].
  destruct (Patch m input workbook results) as [out|e].
  - destruct (put_file _ out w1) as [q w2] eqn:E2. apply put_file_evolves in E2.
    destruct q; injection H as <- <-; [by etrans|]. etrans; [exact E|]. etrans; [exact E2|apply evolves_after, remove_file_evolves].
  - injection H as <- <-. etrans; [exact E|apply evolves_after, remove_file_evolves].
Qed.
Lemma job_stays id s s' : R s s' → is_Some (jobs s !! id) → is_Some (jobs s' !! id).
Proof. intros Hs [j Hj]. apply (resp_lifecycle m R HR) in Hs as [Hs _]. destruct (Hs id j Hj) as (j' & -> & _). by exists j'. Qed.
Lemma produce_output_evolves fuel job w r w' :
  is_Some (jobs (tables w) !! job_ID job) → produce_output m fuel job w = (r, w') →
  R (tables w) (tables w') ∧ ∀ s, r = Ok None → (∀ w1 u, CheckComplete (job_ID job) w = (Ok u, w1) → tables w1 = s) →
    all_done (job_ID job) s ∧ R (tables w) s ∧ R s (tables w').
Proof.
  intros Hj H. unfold produce_output in H. destruct (CheckComplete (job_ID job) w) as [c w1] eqn:E.
  pose proof (CheckComplete_evolves _ _ _ _ E) as Ec. destruct c as [u|e]; [|by injection H as <- <-].
  assert (all_done (job_ID job) (tables w1)) as Hrem.
  { split; [by eapply job_stays|]. apply db_bind_Ok in E as (u1 & w2 & _ & E). apply db_bind_Ok in E as (n & w3 & Eq & E). apply query_Ok in Eq as [-> Eq].
    unfold lift in E. injection E as E <-. apply fail_if_Ok, negb_false_iff, Nat.eqb_eq in E. by rewrite Eq. }
  assert (R (tables w1) (tables w')) as Hrest.
  { destruct (safePath _ _ _) as [path|]; [|by injection H as <- <-].
    destruct (read_file path w1) as [f w2] eqn:E2. apply query_evolves in E2.
    destruct f as [[input|]|e]; [|by injection H as <- <-..].
    destruct (Inspect m input _) as [workbook|e]; [|by injection H as <- <-].
    apply write_output_evolves in H. by etrans. }
  split; [by etrans|]. intros s _ Hs. specialize (Hs w1 u eq_refl) as <-. done.
Qed.

Lemma conclude_evolves fuel job sig w r w' :
  is_Some (jobs (tables w) !! job_ID job) → conclude m fuel job sig w = (r, w') → R (tables w) (tables w').
Proof.
  assert (evolves R (ignore_errors (remove_file (outputName (job_ID job))))) as Hremove
    by apply ignore_evolves, remove_file_evolves.
  intros Hj H. unfold conclude, mbind, db_bind in H.
  destruct (produce_output m fuel job w) as [p w1] eqn:Ep. apply produce_output_evolves in Ep as [Hp Hdone]; [|done].
  destruct p as [[reason|]|e]; [|clear Hp|by injection H as <- <-].
  { etrans; [exact Hp|]. by eapply fail_job_evolves. }
  destruct (CheckComplete (job_ID job) w) as [c w0] eqn:Ec.
  destruct (Hdone (tables w0) eq_refl) as (Hrem & Hw & Hs); [by intros ? ? [= _ ->]|].
  etrans; [exact Hw|]. cbv zeta in H. destruct (lost_after_patch sig).
  { etrans; [exact Hs|]. by apply Hremove in H. }
  destruct (IsCanceled (job_ID job) w1) as [b w2] eqn:E. apply IsCanceled_evolves in E.
  assert (R (tables w0) (tables w2)) as Hs2 by (by etrans).
  destruct b as [[]|e]; [etrans; [exact Hs2|by apply Hremove in H]| |etrans; [exact Hs2|by apply Hremove in H]].
  destruct (lost_at_end sig); [etrans; [exact Hs2|by apply Hremove in H]|].
  by eapply finish_completes.
Qed.
Lemma after_work_evolves fuel job sig k w r w' :
  is_Some (jobs (tables w) !! job_ID job) → after_work m fuel job sig k w = (r, w') → R (tables w) (tables w').
Proof.
  intros Hj H. unfold after_work in H. destruct (_ || _); [by injection H as <- <-|]. unfold unless_canceled in H.
  destruct (IsCanceled (job_ID job) w) as [b w1] eqn:E. apply IsCanceled_evolves in E. etrans; [exact E|].
  destruct b as [[]|e]; [by injection H as <- <-| |by injection H as <- <-].
  destruct (failure k) as [[account reason]|]; [by eapply fail_job_evolves|].
  destruct (stopped k); [|eapply conclude_evolves; [by eapply job_stays|exact H]].
  destruct (lost_interrupting sig); [by injection H as <- <-|by eapply fail_job_evolves].
Qed.

Lemma run_evolves fuel job schedule sig w r w' :
  jobs (tables w) !! job_ID job = Some job → run m fuel job schedule sig w = (r, w') → R (tables w) (tables w').
Proof.
  intros Hj. unfold run. destruct (negb _); [apply fail_job_evolves|]. intros H.
  destruct (remove_file _ w) as [f w1] eqn:E. apply remove_file_evolves in E. etrans; [exact E|].
  destruct f as [u|e]; [|by eapply fail_job_evolves]. unfold unless_canceled in H.
  destruct (IsCanceled (job_ID job) w1) as [b w2] eqn:E2. apply IsCanceled_evolves in E2. etrans; [exact E2|].
  destruct b as [[]|e]; [by injection H as <- <-| |by injection H as <- <-].
  destruct (lost_at_start sig); [by injection H as <- <-|].
  assert (∀ date k, ready (job_ID job) date k (tables w2) →
    (k' ← work_steps m (job_ID job) date schedule k; after_work m fuel job sig k')%stdpp w2 = (r, w') →
    R (tables w2) (tables w')) as Hgo.
  { intros date k Hk Hrun. unfold mbind, db_bind in Hrun. destruct (work_steps _ _ _ _ k w2) as [p w3] eqn:E3.
    apply work_steps_evolves in E3; [|done]. destruct p; [|by injection Hrun as <- <-].
    etrans; [exact E3|]. eapply after_work_evolves; [|exact Hrun].
    apply (job_stays _ _ _ E3), (job_stays _ _ _ E2), (job_stays _ _ _ E). by exists job. }
  destruct (ParseDate (AsOf job) (Some UTC)) as [date|e] eqn:Ed; eapply Hgo; [|exact H| |exact H].
  - left. eapply dated_stays; [exact E2|]. eapply dated_stays; [exact E|]. by exists job.
  - by right.
Qed.

Lemma Get_found id w job w' : keyed (tables w) → Get id 0 true w = (Ok job, w') → jobs (tables w') !! job_ID job = Some job.
Proof.
  intros HK H. unfold Get in H. apply db_bind_Ok in H as ([] & w1 & H1 & H). injection H1 as <-.
  apply db_bind_Ok in H as (found & w2 & H2 & H). apply query_Ok in H2 as [-> E2]. cbn [tables] in *.
  destruct (find_job id 0 true (settle (tables w))) as [j|] eqn:E; [|done]. injection H as <- <-.
  unfold find_job in E. destruct (jobs (settle (tables w)) !! id) as [j0|] eqn:Ej; [|done]. injection E as <-.
  rewrite E2. replace (job_ID j0) with id; [done|]. symmetry. revert Ej.
  apply (resp_lifecycle m R HR _ _ (settle_respects (tables w))), HK.
Qed.
Lemma keyed_stays s s' : R s s' → keyed s → keyed s'.
Proof. intros H. apply (resp_lifecycle m R HR _ _ H). Qed.
Lemma ClaimNext_found fuel w job w' :
  keyed (tables w) → ClaimNext fuel w = (Ok (Some job), w') → jobs (tables w') !! job_ID job = Some job.
Proof.
  revert w. induction fuel as [|fuel IH]; intros w HK H; [done|]. cbn [ClaimNext] in H.
  apply db_bind_Ok in H as ([] & w1 & H1 & H). apply arrive_evolves, keyed_stays in H1; [|done].
  apply db_bind_Ok in H as (found & w2 & H2 & H). apply query_evolves, keyed_stays in H2; [|done].
  destruct found as [j|]; [|done]. apply db_bind_Ok in H as ([] & w3 & H3 & H). apply arrive_evolves, keyed_stays in H3; [|done].
  apply db_bind_Ok in H as (rows & w4 & H4 & H).
  assert (keyed (tables w4)) as HK4 by (eapply keyed_stays; [eapply update_evolves; [|exact H4]; intros s; respect|done]).
  destruct (rows =? 0); [by eapply IH|]. apply db_bind_Ok in H as (job' & w5 & H5 & H). injection H as -> ->.
  by eapply Get_found.
Qed.

Lemma poll_evolves fuel schedule sig w r w' :
  keyed (tables w) → poll m fuel schedule sig w = (r, w') → R (tables w) (tables w').
Proof.
  assert (∀ w r w', keyed (tables w) → poll_locked m fuel schedule sig w = (r, w') → R (tables w) (tables w')) as Hlocked.
  { clear w r w'. intros w r w' HK H. unfold poll_locked, mbind, db_bind in H.
    destruct (Recover w) as [p w1] eqn:E1. apply Recover_evolves in E1. etrans; [exact E1|].
    destruct p as [u|e]; [|by injection H as <- <-]. destruct (ClaimNext fuel w1) as [p w2] eqn:E2.
    pose proof (ClaimNext_evolves _ _ _ _ E2) as HR2. etrans; [exact HR2|].
    destruct p as [[job|]|e]; [|by injection H as <- <-..].
    apply ClaimNext_found in E2; [|by eapply keyed_stays]. by eapply run_evolves. }
  intros HK H. unfold poll in H. destruct (AcquireLock w) as [b w1] eqn:E. apply AcquireLock_evolves in E.
  destruct b as [[]|e]; [|by injection H as <- <-..]. etrans; [exact E|].
  destruct (poll_locked m fuel schedule sig w1) as [p w2] eqn:E2. etrans; [eapply Hlocked; [|exact E2]; by eapply keyed_stays|].
  by eapply release_evolves.
Qed.

Lemma remove_items_evolves id items : evolves R (remove_items id items).
Proof.
  induction items as [|[name suffix] items IH]; [by apply evolves_ret|]. cbn [remove_items].
  destruct (empty name); [done|].
  assert (evolves R (remove_items id items;; mret false)) as Hrest
    by (apply evolves_bind; [done|done|intros _; by apply evolves_ret]).
  destruct (safePath name id suffix) as [path|]; [|done]. intros w r w' H.
  destruct (remove_file path w) as [f w1] eqn:E. apply remove_file_evolves in E. etrans; [exact E|].
  destruct f; [by eapply IH|by eapply Hrest].
Qed.
Lemma cleanup_jobs_evolves l : evolves R (cleanup_jobs l).
Proof.
  induction l as [|job l IH]; [by apply evolves_ret|]. cbn [cleanup_jobs].
  apply evolves_bind; [done| |intros _; exact IH].
  unfold cleanup_job. apply evolves_bind; [done|apply remove_items_evolves|].
  intros []; [apply ignore_evolves, ClearFiles_evolves|by apply evolves_ret].
Qed.
Lemma cleanup_evolves : evolves R cleanup.
Proof.
  intros w r w' H. unfold cleanup in H. destruct (Expired w) as [l w1] eqn:E. apply Expired_evolves in E.
  destruct l as [l|e]; [|by injection H as <- <-]. etrans; [exact E|]. by eapply cleanup_jobs_evolves.
Qed.

Lemma remove_on_error_evolves {A} name (c : sdb A) : evolves R c → evolves R (remove_on_error name c).
Proof.
  intros Hc w r w' H. unfold remove_on_error in H. destruct (c w) as [p w1] eqn:E. apply Hc in E.
  destruct p; injection H as <- <-; [done|]. etrans; [exact E|apply evolves_after, remove_file_evolves].
Qed.
Lemma Submit_evolves actor effective name asOf upload token now :
  evolves R (Submit m actor effective name asOf upload token now).
Proof.
  unfold Submit. destruct actor as [a|], effective as [e|]; try by apply evolves_fail.
  repeat (apply evolves_bind; [done|by apply evolves_lift|intros _]).
  apply evolves_bind; [done| |intros _].
  - apply evolves_statement; [done|]. intros s u s'. destruct (files s !! _); [done|]. intros [= <- <-]. respect.
  - apply remove_on_error_evolves. apply evolves_bind; [done|apply put_file_evolves|intros _].
    apply evolves_bind; [done|by apply evolves_lift|]. intros accepted.
    apply evolves_bind; [done|apply Create_evolves|intros _]. by apply evolves_ret.
Qed.
End Traverse.
