(* ===== verification/SlikGuarantees.v ===== *)
(** What the SLIK jobs guarantee, whatever fails and whoever interferes: the life
    of a job, the accounts of a job, and what becomes of a result whose completion
    is acknowledged too late. *)
From stdpp Require Import base list gmap strings sorting.
From Stdlib Require Import ZArith Lia Ascii QArith.
From S2P Require Import Prelude GoStrings GoErrors Database GoSlices GoTime GoJSON Dates Money LoanModel SlikJobs SlikLife.
Local Open Scope Z_scope.

(** ** The lifecycle is respected by every effect *)

Lemma recover_lifecycle s : lifecycle s (set_jobs s (recover_job <$> jobs s)).
Proof.
  assert (∀ j, job_le j (recover_job j)) as Hle.
  { intros j. unfold recover_job. case_bool_decide as E; [|done]. apply live_job_le; [by rewrite E|done|done]. }
  split; unfold keyed; cbn.
  - intros id j Hj. exists (recover_job j). rewrite lookup_fmap, Hj. by split.
  - intros HK id j. rewrite lookup_fmap, fmap_Some. intros (j0 & Hj0 & ->).
    destruct (Hle j0) as [[-> _] _ _]. by apply HK.
Qed.
Lemma processing_lifecycle id f s :
  (∀ j, Status j = PROCESSING → job_le j (f j)) →
  lifecycle s (snd (update_job id (fun j => bool_decide (Status j = PROCESSING)) f s)).
Proof. intros Hf. apply update_job_lifecycle. intros j Hj%bool_decide_eq_true. by apply Hf. Qed.
Lemma outcome_le j status account reason output now :
  Status j = PROCESSING → job_le j (with_outcome j status account reason output now).
Proof. intros E. apply live_job_le; [by rewrite E|done|done]. Qed.
Lemma terminated_lifecycle id status account reason output s : lifecycle s (terminated id status account reason output s).
Proof. apply processing_lifecycle. intros j. apply outcome_le. Qed.

Lemma save_account_jobs id account primary values s n s' : save_account id account primary values s = (n, s') → jobs s' = jobs s.
Proof. unfold save_account. destruct (_ ≫= _) as [[]|]; by intros [= <- <-]. Qed.
Lemma saved_lifecycle id account primary values s s' : saved id account primary values s = Some s' → lifecycle s s'.
Proof.
  unfold saved. destruct (update_job _ _ _ s) as [n s1] eqn:E1. destruct (save_account _ _ _ _ s1) as [n' s2] eqn:E2.
  destruct (_ && _); [|done]. intros [= <-]. apply save_account_jobs in E2. etrans; [|by apply lifecycle_same].
  replace s1 with (snd (n, s1)) by done. rewrite <- E1. apply processing_lifecycle. intros j Hj.
  apply live_job_le; [by rewrite Hj|done|cbn; lia].
Qed.

Lemma clear_le j now : is_expired now j = true → job_le j (with_progress j (Processed j) EmptyString EmptyString).
Proof. intros _. split; [done|done|]. intros _. split_and!; try done. by right. Qed.

Lemma lifecycle_respected m : respects m lifecycle.
Proof.
  split.
  - done.
  - intros s s' E _. by apply lifecycle_same.
  - apply cancel_lifecycle.
  - intros job accounts s s' H. pose proof (create_lifecycle job accounts s) as Hc. unfold create_effect in Hc.
    unfold created in H. by rewrite H in Hc.
  - apply recover_lifecycle.
  - intros id s. apply update_job_lifecycle. intros j E%bool_decide_eq_true. apply live_job_le; [by rewrite E|done|done].
  - intros *. intros _ _. apply saved_lifecycle.
  - intros *. intros _. apply terminated_lifecycle.
  - intros *. intros _ H. etrans; [exact H|apply terminated_lifecycle].
  - intros id s. apply update_job_lifecycle. intros j. apply clear_le.
Qed.

(** What users and the background loops do with the jobs *)
Inductive job_call (m : manager) : sdb unit → Prop :=
| call_poll fuel schedule sig : job_call m (poll m fuel schedule sig)
| call_cleanup : job_call m cleanup
| call_submit actor effective name asOf upload token now :
    job_call m (Submit m actor effective name asOf upload token now;; mret tt)
| call_cancel id owner viewAll : job_call m (Cancel id owner viewAll)
| call_open id owner viewAll now : job_call m (OpenOutput id owner viewAll now;; mret tt)
| call_history owner viewAll : job_call m (History owner viewAll;; mret tt)
| call_get id owner viewAll : job_call m (Get id owner viewAll;; mret tt).

(** The calls of any number of requests and polls, one after the other; what the
    others do between their statements are the arrivals. *)
Fixpoint perform (calls : list (sdb unit)) : sdb unit :=
  match calls with
  | [] => mret tt
  | c :: rest => ignore_errors c;; perform rest
  end.

Section Calls.
Context (m : manager) (R : slik → slik → Prop) `{!PreOrder R} (HR : respects m R).

Lemma job_call_evolves c w r w' : job_call m c → keyed (tables w) → c w = (r, w') → R (tables w) (tables w').
Proof.
  intros Hc HK. assert (∀ A (c0 : sdb A), evolves R c0 → evolves R (c0;; mret tt)) as Hdrop.
  { intros A c0 H0. apply evolves_bind; [done|done|intros _; by apply evolves_ret]. }
  destruct Hc; [by eapply poll_evolves|try apply Hdrop..].
  - by eapply cleanup_evolves.
  - by eapply Submit_evolves.
  - by eapply Cancel_evolves.
  - unfold OpenOutput. apply evolves_bind; [done|by eapply Get_evolves|intros job].
    do 2 (apply evolves_bind; [done|by apply evolves_lift|intros _]). destruct (safePath _ _ _); [|by apply evolves_fail].
    apply evolves_bind; [done|by apply evolves_query|]. intros [c|]; [by apply evolves_ret|by apply evolves_fail].
  - apply evolves_bind; [done|by eapply arrive_evolves|intros _]. by apply evolves_query.
  - by eapply Get_evolves.
Qed.
Lemma perform_evolves calls w r w' :
  Forall (job_call m) calls → keyed (tables w) → perform calls w = (r, w') → R (tables w) (tables w').
Proof.
  intros Hall. revert w. induction Hall as [|c calls Hc _ IH]; intros w HK H; [by injection H as <- <-|].
  cbn [perform] in H. unfold mbind, db_bind, ignore_errors in H. destruct (c w) as [p w1] eqn:E.
  apply job_call_evolves in E; [|done|done]. etrans; [exact E|]. apply IH; [by eapply (keyed_stays m R HR)|exact H].
Qed.
End Calls.

(** C10: What becomes of a job: whatever requests, polls and retention do, in any
    order, with any statement failing before or after it took effect, a job is
    never lost, keeps its owner and its subject, never loses progress, and once it
    is completed, failed or canceled its outcome stands. *)
Theorem jobs_lifecycle (m : manager) (calls : list (sdb unit)) (w w' : world slik) (id : string) (j : Job) :
  Forall (job_call m) calls → keyed (tables w) → perform calls w = (Ok tt, w') → jobs (tables w) !! id = Some j →
  ∃ j', jobs (tables w') !! id = Some j' ∧ OwnerID j' = OwnerID j ∧ AsOf j' = AsOf j ∧ TotalAccounts j' = TotalAccounts j ∧
    Processed j ≤ Processed j' ∧
    (terminal (Status j) = true → Status j' = Status j ∧ FinishedAt j' = FinishedAt j ∧ FailureReason j' = FailureReason j ∧
      (OutputFile j' = OutputFile j ∨ OutputFile j' = EmptyString)).
Proof.
  intros Hc HK H Hj. pose proof (perform_evolves m lifecycle (lifecycle_respected m) calls w _ w' Hc HK H) as [Hl _].
  apply Hl in Hj as (j' & Hj' & [(? & ? & ? & ? & ? & ? & ? & ? & ? & ?) Hp Ht]). exists j'. split_and!; try done.
  intros Hterm. apply Ht in Hterm as (? & ? & ? & ? & ? & ? & ?). done.
Qed.

(** ** The accounts of a job *)

Definition done_rows (rows : gmap string checkpoint) : nat := size (filter (λ p, is_done p.2 = true) rows).
(** The rows of a job agree with what the job says about them, and the values in
    them are those of the accounts at the date of the job. *)
Record job_ok (m : manager) (j : Job) (rows : gmap string checkpoint) : Prop := {
  ok_total : TotalAccounts j = Z.of_nat (size rows);
  ok_processed : Processed j = Z.of_nat (done_rows rows);
  ok_completed : Status j = COMPLETED → ∀ account c, rows !! account = Some c → is_done c = true;
  ok_values : ∀ account primary values, rows !! account = Some (Some (primary, values)) →
    ∃ date, ParseDate (AsOf j) (Some UTC) = Ok date ∧ account_values m date account = Ok (primary, values)
}.
Record tables_ok (m : manager) (s : slik) : Prop := {
  ok_keyed : keyed s;
  ok_domain : dom (checkpoints s) = dom (jobs s);
  ok_jobs : ∀ id j rows, jobs s !! id = Some j → checkpoints s !! id = Some rows → job_ok m j rows
}.
(** No account is added to a job or dropped from it, and what is saved stays. *)
Definition rows_le (rows rows' : gmap string checkpoint) : Prop :=
  dom rows' = dom rows ∧ ∀ account v, rows !! account = Some (Some v) → rows' !! account = Some (Some v).
Definition saved_le (s s' : slik) : Prop :=
  ∀ id rows, checkpoints s !! id = Some rows → ∃ rows', checkpoints s' !! id = Some rows' ∧ rows_le rows rows'.
Record sound (m : manager) (s s' : slik) : Prop := {
  sound_lifecycle : lifecycle s s';
  sound_ok : tables_ok m s → tables_ok m s' ∧ saved_le s s'
}.
#[export] Instance rows_le_preorder : PreOrder rows_le.
Proof.
  split; [done|]. intros r r' r'' [E H] [E' H']. split; [congruence|]. intros a v Ha. by apply H', H.
Qed.
#[export] Instance saved_le_preorder : PreOrder saved_le.
Proof.
  split; [intros s id rows H; by exists rows|]. intros s s' s'' H H' id rows Hr. destruct (H _ _ Hr) as (rows' & Hr' & Hle).
  destruct (H' _ _ Hr') as (rows'' & ? & ?). exists rows''. split; [done|by etrans].
Qed.
#[export] Instance sound_preorder m : PreOrder (sound m).
Proof.
  split; [intros s; by split|]. intros s s' s'' [HL H] [HL' H']. split; [by etrans|]. intros Hs.
  destruct (H Hs) as [Hs' ?], (H' Hs') as [? ?]. split; [done|by etrans].
Qed.

Lemma saved_le_same s s' : checkpoints s' = checkpoints s → saved_le s s'.
Proof. intros E id rows H. exists rows. by rewrite E. Qed.

(** Jobs change in what their rows do not depend on *)
Definition job_same (j j' : Job) : Prop :=
  TotalAccounts j' = TotalAccounts j ∧ Processed j' = Processed j ∧ AsOf j' = AsOf j.
Lemma job_ok_same m j j' rows :
  job_same j j' → (Status j' = COMPLETED → ∀ account c, rows !! account = Some c → is_done c = true) →
  job_ok m j rows → job_ok m j' rows.
Proof. intros (E1 & E2 & E3) Hc [H1 H2 _ H4]. split; [congruence|congruence|done|by rewrite E3]. Qed.

Lemma update_job_ok m id cond f s :
  (∀ j rows, jobs s !! id = Some j → checkpoints s !! id = Some rows → cond j = true → job_ok m j rows → job_ok m (f j) rows) →
  (∀ j, job_ID (f j) = job_ID j) → tables_ok m s → tables_ok m (snd (update_job id cond f s)).
Proof.
  intros Hf Hid [HK HD HJ]. unfold update_job. destruct (jobs s !! id) as [j0|] eqn:E; [|by split].
  destruct (cond j0) eqn:Ec; [|by split]. split; unfold keyed; cbn.
  - intros id' j. destruct (decide (id = id')) as [<-|Hne]; [|rewrite lookup_insert_ne by done; apply HK].
    rewrite lookup_insert_eq. intros [= <-]. rewrite Hid. by apply HK.
  - rewrite HD, dom_insert_L. apply elem_of_dom_2 in E. set_solver.
  - intros id' j rows. destruct (decide (id = id')) as [<-|Hne]; [|rewrite lookup_insert_ne by done; apply HJ].
    rewrite lookup_insert_eq. intros [= <-] Hr. apply Hf; [done|done|done|by eapply HJ].
Qed.
Lemma update_job_checkpoints id cond f s : checkpoints (snd (update_job id cond f s)) = checkpoints s.
Proof. unfold update_job. destruct (jobs s !! id); [destruct (cond j)|]; done. Qed.

(** One row of slik_jobs is updated, to a status that is not COMPLETED. *)
Lemma update_job_sound m id cond f s :
  (∀ j, cond j = true → job_le j (f j)) → (∀ j, job_ID (f j) = job_ID j) →
  (∀ j, job_same j (f j) ∧ (cond j = true → Status (f j) = COMPLETED → Status j = COMPLETED)) →
  sound m s (snd (update_job id cond f s)).
Proof.
  intros Hle Hid Hsame. split; [by apply update_job_lifecycle|]. intros Hok0.
  split; [|apply saved_le_same, update_job_checkpoints]. revert Hok0. apply update_job_ok; [|done]. intros j rows _ _ Hc Hok. destruct (Hsame j) as [Hs Ht].
  apply (job_ok_same m j); [done| |done]. intros Hst. apply (ok_completed _ _ _ Hok), Ht; done.
Qed.

Lemma insert_accounts_rows id batch s s' rows :
  insert_accounts id batch s = Ok s' → checkpoints s !! id = Some rows → (∀ a c, rows !! a = Some c → c = None) →
  ∃ rows', checkpoints s' = <[id := rows']> (checkpoints s) ∧ size rows' = (size rows + length batch)%nat ∧
    ∀ a c, rows' !! a = Some c → c = None.
Proof.
  revert s rows. induction batch as [|a batch IH]; intros s rows H Hr Hnone; simpl in H.
  { injection H as <-. exists rows. rewrite insert_id by done. split_and!; [done|simpl; lia|done]. }
  rewrite Hr in H. destruct (rows !! a) eqn:Ea; [done|].
  destruct (IH _ (<[a := None]> rows) H) as (rows' & E & Hsize & Hn).
  { cbn. by rewrite lookup_insert_eq. }
  { intros a' c. destruct (decide (a = a')) as [<-|Hne]; [rewrite lookup_insert_eq; by intros [= <-]|].
    rewrite lookup_insert_ne by done. apply Hnone. }
  exists rows'. cbn in E. rewrite insert_insert_eq in E. split_and!; [done| |done].
  rewrite Hsize, map_size_insert_None by done. simpl. lia.
Qed.
Lemma done_rows_none (rows : gmap string checkpoint) : (∀ a c, rows !! a = Some c → c = None) → done_rows rows = 0%nat.
Proof.
  intros H. unfold done_rows. apply map_size_empty_iff, map_empty. intros a.
  apply map_lookup_filter_None. right. intros c Ha. cbn. by rewrite (H _ _ Ha).
Qed.

Lemma done_rows_le (rows : gmap string checkpoint) : (done_rows rows ≤ size rows)%nat.
Proof. unfold done_rows. apply map_subseteq_size, map_filter_subseteq. Qed.
Lemma done_rows_all (rows : gmap string checkpoint) :
  (∀ account c, rows !! account = Some c → is_done c = true) → done_rows rows = size rows.
Proof.
  intros H. unfold done_rows. f_equal. apply map_filter_id. intros a c Ha. by apply (H a).
Qed.

Lemma created_lifecycle job accounts s s' : created job accounts s = Ok s' → lifecycle s s'.
Proof.
  intros H. pose proof (create_lifecycle job accounts s) as Hc. unfold create_effect in Hc.
  unfold created in H. by rewrite H in Hc.
Qed.
Lemma created_ok m job accounts s s' :
  created job accounts s = Ok s' → tables_ok m s → tables_ok m s' ∧ saved_le s s'.
Proof.
  intros H Hok. pose proof (created_lifecycle _ _ _ _ H) as [_ HK]. destruct Hok as [Hkey HD HJ].
  unfold created in H. apply bind_Ok in H as (s1 & H1 & H2).
  pose proof (insert_accounts_jobs _ _ _ _ H2) as Ej. unfold insert_job in H1.
  change (job_ID (new_job job accounts)) with (job_ID job) in H1.
  destruct (jobs s !! job_ID job) eqn:E; [done|]. injection H1 as <-.
  eapply insert_accounts_rows in H2 as (rows & Ec & Hsize & Hnone); [|by cbn; rewrite lookup_insert_eq|done].
  cbn in Ej, Ec. rewrite insert_insert_eq in Ec.
  assert (checkpoints s !! job_ID job = None) as Hc by (apply not_elem_of_dom; rewrite HD; by apply not_elem_of_dom).
  split; [split; [by apply HK|rewrite Ec, Ej, !dom_insert_L, HD; done|]|].
  - intros id j rows' Hj Hr. rewrite Ej in Hj. rewrite Ec in Hr. destruct (decide (job_ID job = id)) as [<-|Hne].
    + rewrite lookup_insert_eq in Hj; rewrite lookup_insert_eq in Hr. injection Hj as <-. injection Hr as <-. rewrite map_size_empty in Hsize.
      split; [by rewrite Hsize|by rewrite done_rows_none|done|]. intros a p v Ha. by specialize (Hnone _ _ Ha).
    + rewrite lookup_insert_ne in Hj by done. rewrite lookup_insert_ne in Hr by done. by eapply HJ.
  - intros id rows' Hr. exists rows'. rewrite Ec, lookup_insert_ne; [by split|congruence].
Qed.

Lemma done_rows_save (rows : gmap string checkpoint) a v : rows !! a = Some None → done_rows (<[a := Some v]> rows) = S (done_rows rows).
Proof.
  intros Ha. unfold done_rows. rewrite map_filter_insert_True by done. apply map_size_insert_None.
  apply map_lookup_filter_None. right. intros c Hc. by injection (eq_trans (eq_sym Ha) Hc) as <-.
Qed.
Lemma save_rows_le (rows : gmap string checkpoint) a v : rows !! a = Some None → rows_le rows (<[a := Some v]> rows).
Proof.
  intros Ha. split; [rewrite dom_insert_L; apply elem_of_dom_2 in Ha; set_solver|]. intros a' v' H'.
  rewrite lookup_insert_ne; [done|]. congruence.
Qed.
Lemma save_job_ok m j rows a primary values date :
  job_ok m j rows → rows !! a = Some None → Status j = PROCESSING →
  ParseDate (AsOf j) (Some UTC) = Ok date → account_values m date a = Ok (primary, values) →
  job_ok m (with_progress j (Processed j + 1) (InputFile j) (OutputFile j)) (<[a := Some (primary, values)]> rows).
Proof.
  intros [H1 H2 H3 H4] Ha Hst Hd Hv. remember (with_progress j _ _ _) as j' eqn:Ej.
  assert (AsOf j' = AsOf j) as Ed by (by rewrite Ej).
  split; [rewrite Ej; cbn|rewrite Ej; cbn|rewrite Ej; cbn|rewrite Ed; clear Ej Ed].
  - rewrite map_size_insert_Some; [done|by eexists].
  - rewrite done_rows_save by done. lia.
  - congruence.
  - intros a' p' v'. destruct (decide (a = a')) as [<-|Hne]; [|rewrite lookup_insert_ne by exact Hne; apply H4].
    rewrite lookup_insert_eq. intros E. injection E as <- <-. exists date. split; [exact Hd|exact Hv].
Qed.

Lemma saved_inv id account primary values s s' :
  saved id account primary values s = Some s' →
  ∃ j rows, jobs s !! id = Some j ∧ Status j = PROCESSING ∧ checkpoints s !! id = Some rows ∧ rows !! account = Some None ∧
    jobs s' = <[id := with_progress j (Processed j + 1) (InputFile j) (OutputFile j)]> (jobs s) ∧
    checkpoints s' = <[id := <[account := Some (primary, values)]> rows]> (checkpoints s).
Proof.
  unfold saved, update_job. destruct (jobs s !! id) as [j|] eqn:Ej; [|by destruct (save_account _ _ _ _ s)].
  case_bool_decide as Hst; [|by destruct (save_account _ _ _ _ s)]. unfold save_account. cbn [checkpoints set_jobs].
  destruct (checkpoints s !! id) as [rows|] eqn:Er; cbn; [|done]. destruct (rows !! account) as [[?|]|] eqn:Ea; cbn; [done| |done].
  intros [= <-]. exists j, rows. split_and!; try done. cbn.
  apply map_eq. intros id'. destruct (decide (id = id')) as [<-|Hne].
  - by rewrite lookup_alter_eq, Er, lookup_insert_eq.
  - by rewrite lookup_alter_ne, lookup_insert_ne.
Qed.
Lemma saved_sound m id date account primary values s s' :
  dated id date s → account_values m date account = Ok (primary, values) →
  saved id account primary values s = Some s' → sound m s s'.
Proof.
  intros (j0 & Hj0 & Hd) Hv H. split; [by eapply saved_lifecycle|].
  apply saved_inv in H as (j & rows & Hj & Hst & Hr & Ha & Ej & Ec). rewrite Hj in Hj0. injection Hj0 as <-.
  intros [HK HD HJ]. split; [split|]; unfold keyed; rewrite ?Ej, ?Ec.
  - intros id' j'. destruct (decide (id = id')) as [<-|Hne]; [|rewrite lookup_insert_ne by done; apply HK].
    rewrite lookup_insert_eq. intros [= <-]. exact (HK _ _ Hj).
  - by rewrite !dom_insert_L, HD.
  - intros id' j' rows'. destruct (decide (id = id')) as [<-|Hne]; [|rewrite !lookup_insert_ne by done; apply HJ].
    rewrite !lookup_insert_eq. intros [= <-] [= <-]. eapply save_job_ok; try done. by eapply HJ.
  - intros id' rows'. rewrite Ec. destruct (decide (id = id')) as [<-|Hne].
    + rewrite Hr. intros [= <-]. rewrite lookup_insert_eq. eexists. split; [done|by apply save_rows_le].
    + rewrite lookup_insert_ne by done. intros Hr'. by exists rows'.
Qed.

Lemma all_done_rows id s rows :
  all_done id s → checkpoints s !! id = Some rows → ∀ account c, rows !! account = Some c → is_done c = true.
Proof.
  intros [_ Hrem] Hr account c Ha. unfold remaining in Hrem. rewrite Hr in Hrem. cbn in Hrem.
  apply length_zero_iff_nil in Hrem. unfold is_done. destruct (is_queued c) eqn:Eq; [|done].
  assert ((account, c) ∈ List.filter (fun p : string * checkpoint => is_queued p.2) (map_to_list rows)) as Hin.
  { apply list_elem_of_In, List.filter_In. split; [|done]. apply list_elem_of_In. by apply elem_of_map_to_list. }
  rewrite Hrem in Hin. by apply not_elem_of_nil in Hin.
Qed.
Lemma rows_le_done rows rows' :
  rows_le rows rows' → (∀ account c, rows !! account = Some c → is_done c = true) →
  ∀ account c, rows' !! account = Some c → is_done c = true.
Proof.
  intros [HD Hle] Hall account c Hc. assert (account ∈ dom rows) as Hin by (rewrite <- HD; by eapply elem_of_dom_2).
  apply elem_of_dom in Hin as [c0 H0]. pose proof (Hall _ _ H0) as Hd. destruct c0 as [v|]; [|done].
  by injection (eq_trans (eq_sym (Hle _ _ H0)) Hc) as <-.
Qed.
Lemma completed_sound m id account reason output s s' :
  all_done id s → sound m s s' → sound m s (terminated id COMPLETED account reason output s').
Proof.
  intros Hall [HL Hok]. split; [etrans; [exact HL|apply terminated_lifecycle]|]. intros Hs.
  destruct (Hok Hs) as [Hs' Hsaved]. split; [|etrans; [exact Hsaved|apply saved_le_same, update_job_checkpoints]].
  apply update_job_ok; [|done|done]. intros j rows Hj Hr _ Hj_ok. apply (job_ok_same m j); [done| |done]. intros _.
  destruct Hall as [[j0 Hj0] Hrem]. assert (is_Some (checkpoints s !! id)) as [rows0 Hr0].
  { apply elem_of_dom. rewrite (ok_domain _ _ Hs). by eapply elem_of_dom_2. }
  destruct (Hsaved _ _ Hr0) as (rows' & Hr' & Hle). rewrite Hr in Hr'. injection Hr' as <-.
  eapply rows_le_done; [exact Hle|]. eapply all_done_rows; [split; [by exists j0|done]|done].
Qed.

Lemma recover_sound m s : sound m s (set_jobs s (recover_job <$> jobs s)).
Proof.
  split; [apply recover_lifecycle|]. intros [HK HD HJ]. split; [split|by apply saved_le_same].
  - by apply recover_lifecycle.
  - cbn. by rewrite dom_fmap_L.
  - intros id j rows. cbn. rewrite lookup_fmap, fmap_Some. intros (j0 & Hj0 & ->) Hr.
    specialize (HJ _ _ _ Hj0 Hr). unfold recover_job. case_bool_decide; [|done].
    by apply (job_ok_same m j0).
Qed.

Lemma sound_respected m : respects m (sound m).
Proof.
  destruct (lifecycle_respected m) as [_ Hf Hc _ _ Hcl _ Ht _ Hclear]. split.
  - by intros s s' [].
  - intros s s' E1 E2. split; [by apply Hf|]. intros [HK HD HJ]. split; [|by apply saved_le_same].
    split; unfold keyed; rewrite ?E1, ?E2; done.
  - intros id owner viewAll s. apply update_job_sound; [|done|done].
    intros j [Hl _]%andb_true_iff. apply negb_true_iff in Hl. apply live_job_le; done || lia.
  - intros job accounts s s' H. split; [by eapply created_lifecycle|]. by eapply created_ok.
  - apply recover_sound.
  - intros id s. apply update_job_sound; [|done|done]. intros j E%bool_decide_eq_true. apply live_job_le; [by rewrite E|done|done].
  - intros *. apply saved_sound.
  - intros id status account reason output s Hst. apply update_job_sound; [|done|].
    + intros j E%bool_decide_eq_true. by apply outcome_le.
    + intros j. split; [done|]. cbn. by destruct Hst as [-> | ->].
  - intros *. apply completed_sound.
  - intros id s. apply update_job_sound; [|done|done]. intros j. apply clear_le.
Qed.

(** C9: The books of the jobs are always right: a job counts its accounts and the
    ones that are done, the values stored for an account are the ones computed for
    the date of the job, and a job is completed only with every account done. *)
Theorem jobs_accounted (m : manager) (calls : list (sdb unit)) (w w' : world slik) (id : string) (j : Job)
    (rows : gmap string checkpoint) :
  Forall (job_call m) calls → tables_ok m (tables w) → perform calls w = (Ok tt, w') →
  jobs (tables w') !! id = Some j → checkpoints (tables w') !! id = Some rows →
  TotalAccounts j = Z.of_nat (size rows) ∧ Processed j = Z.of_nat (done_rows rows) ∧
  0 ≤ Processed j ≤ TotalAccounts j ∧ (Status j = COMPLETED → Processed j = TotalAccounts j) ∧
  ∀ account primary values, rows !! account = Some (Some (primary, values)) →
    ∃ date, ParseDate (AsOf j) (Some UTC) = Ok date ∧ account_values m date account = Ok (primary, values).
Proof.
  intros Hc Hok H Hj Hr.
  pose proof (perform_evolves m (sound m) (sound_respected m) calls w _ w' Hc (ok_keyed _ _ Hok) H) as [_ Hs].
  destruct (Hs Hok) as [[_ _ HJ] _]. destruct (HJ _ _ _ Hj Hr) as [Ht Hp Hd Hv].
  assert (done_rows rows ≤ size rows)%nat as Hle by apply done_rows_le.
  split_and!; try done; try lia. intros Hst. rewrite Ht, Hp. f_equal. by apply done_rows_all, Hd.
Qed.

(** ** Acknowledgements that get lost *)

Lemma terminated_job id status account reason output s j :
  jobs s !! id = Some j → Status j = PROCESSING →
  update_job id (fun j => bool_decide (Status j = PROCESSING)) (fun j => with_outcome j status account reason output (clock s)) s =
    (1, set_jobs s (<[id := with_outcome j status account reason output (clock s)]> (jobs s))).
Proof. intros Hj Hst. unfold update_job. by rewrite Hj, Hst. Qed.
Lemma settle_quiet s : arrivals s = [] → settle s = s.
Proof. unfold settle. by intros ->. Qed.

Lemma bind_quiet {A B} (c : sdb A) (k : A → sdb B) w a w1 : c w = (Ok a, w1) → (c ≫= k) w = k a w1.
Proof. unfold mbind, db_bind. by intros ->. Qed.
Lemma arrive_quiet s fl : arrivals s = [] → arrive (World s fl) = (Ok tt, World s fl).
Proof. intros H. unfold arrive. cbn. by rewrite settle_quiet. Qed.
Lemma Get_quiet id owner viewAll s :
  arrivals s = [] →
  Get id owner viewAll (World s []) =
    (match find_job id owner viewAll s with Some j => Ok j | None => Fail (Sentinel SlikErrNotFound) end, World s []).
Proof.
  intros H. unfold Get. rewrite (bind_quiet _ _ _ tt (World s [])); [|by apply arrive_quiet].
  rewrite (bind_quiet _ _ _ (find_job id owner viewAll s) (World s [])) by done. by destruct (find_job _ _ _ _).
Qed.

(** C12: When the database completes a job and the answer gets lost, the manager
    takes the completion for failed and removes the result: the job stays completed
    with an output of seven days, and nobody can ever open it. *)
Theorem completion_answer_lost (job : Job) (s : slik) (output : string) (e : err) (now : time) :
  arrivals s = [] → jobs s !! job_ID job = Some job → Status job = PROCESSING → output ≠ EmptyString →
  let w' := snd (finish job COMPLETED EmptyString EmptyString output (World s [Some (Lost true e)])) in
  (∃ j, jobs (tables w') !! job_ID job = Some j ∧ Status j = COMPLETED ∧ OutputFile j = output ∧
        Available j (clock s) = true) ∧
  files (tables w') !! output = None ∧
  fst (OpenOutput (job_ID job) (OwnerID job) false now w') = Fail (Sentinel SlikErrExpired).
Proof.
  intros Hq Hj Hst Hout. set (j := with_outcome job COMPLETED EmptyString EmptyString output (clock s)).
  set (s1 := set_files (set_jobs s (<[job_ID job := j]> (jobs s))) (delete output (files s))).
  assert (snd (finish job COMPLETED EmptyString EmptyString output (World s [Some (Lost true e)])) = World s1 []) as ->.
  { unfold finish, Terminal, mbind, db_bind, lift, arrive. cbn [terminal negb fail_if tables faults]. rewrite settle_quiet by done.
    unfold statement at 1. cbn [next_fault faults tables]. erewrite terminated_job by done. by destruct output. }
  assert (Available j (clock s) = true) as Hav.
  { unfold Available. cbn. rewrite bool_decide_eq_true_2 by done. destruct output; [done|]. cbn. apply Z.ltb_lt.
    lia. }
  split; [exists j; split_and!; try done; cbn; by rewrite lookup_insert_eq|]. split; [cbn; by rewrite lookup_delete_eq|].
  unfold OpenOutput. rewrite (bind_quiet _ _ _ j (World s1 [])).
  2: { rewrite Get_quiet by done. unfold find_job. cbn. rewrite lookup_insert_eq. cbn. unfold visible. cbn. by rewrite Z.eqb_refl. }
  unfold mbind, db_bind, lift. rewrite bool_decide_eq_true_2 by done. cbn [negb fail_if].
  destruct (Available j now); cbn [negb fail_if]; [|done].
  unfold safePath. destruct (_ || _); [done|]. cbn. by rewrite lookup_delete_eq.
Qed.

(** ** Witnesses *)

Definition example_id : string := "0123456789abcdef0123456789abcdef".
Definition example_loan (account : string) : ContractData := {|
  cd_PrimaryAccount := account; cd_AlternateAccount := EmptyString; cd_CIF := EmptyString; cd_CustomerName := EmptyString;
  cd_Branch := EmptyString; cd_Product := EmptyString; cd_PlafondLimit := MoneyZero; cd_TenorMonths := 0;
  cd_FlatRatePercent := MoneyZero; cd_ReferenceRatePercent := MoneyZero; cd_CurrentCollectability := 1;
  cd_CurrentPrincipalDue := MoneyZero; cd_CurrentInterestDue := MoneyZero; cd_PenaltyDue := MoneyZero;
  cd_Status := EmptyString; cd_CloseDate := ZeroDate; cd_RawScheduleCount := 0; cd_ContractScheduleEvidence := None;
  cd_ContractSchedule := []; cd_Repayments := [] |}.
Definition example_manager : manager := {|
  Concurrency := 2; MaxUploadBytes := 1000;
  Inspect := fun _ _ => Ok {| wb_Sheet := "Data"; wb_HeaderRow := 1; wb_AccountColumn := "A"; wb_BalanceColumn := "B";
                             wb_RateColumn := "C"; wb_Rows := [{| row_Number := 2; row_Account := "A1" |}] |};
  Patch := fun _ _ results => Ok (flat_map (fun p => bytes (p.1 ++ "=" ++ Balance p.2)%string) (map_to_list results));
  positions := fun account date =>
    if seqb account "A1"
    then Ok {| rv_Loan := example_loan "P1"; rv_Position := ZeroPosition; rv_ActualPosition := ZeroPosition;
               rv_Trace := ZeroTrace; rv_ContractualSchedule := [] |}
    else Fail (Sentinel ErrNotFound) |}.
Definition example_job (st : job_status) : Job := {|
  job_ID := example_id; OwnerID := 7; OwnerUsername := "owner"; ActorID := 7; ActorUsername := "owner";
  OriginalFilename := "a.xlsx"; AsOf := "2024-05-31"; Status := st; TotalRows := 1; TotalAccounts := 1; Processed := 0;
  CreatedAt := 5; StartedAt := None; FinishedAt := None; FailedAccount := EmptyString; FailureReason := EmptyString;
  InputFile := inputName example_id; OutputFile := EmptyString; ExpiresAt := None |}.
Definition example_state (st : job_status) : slik := {|
  jobs := {[example_id := example_job st]}; checkpoints := {[example_id := {["A1"%string := None]}]}; clock := 100;
  files := {[inputName example_id := []]}; worker_lock := false; arrivals := [] |}.
Definition example_signals : signals := {| lost_at_start := false; lost_after_work := false; shutdown := false;
  lost_interrupting := false; lost_after_patch := false; lost_at_end := false |}.
Definition example_calls : list (sdb unit) :=
  [poll example_manager 5 [Fetch; Hand; Finish "A1"; Fetch] example_signals; Cancel example_id 7 false; cleanup].

Lemma example_calls_ok : Forall (job_call example_manager) example_calls.
Proof. repeat (apply Forall_cons_2; [constructor|]). constructor. Qed.
Lemma example_tables_ok : tables_ok example_manager (example_state QUEUED).
Proof.
  assert (∀ id j, jobs (example_state QUEUED) !! id = Some j → id = example_id ∧ j = example_job QUEUED) as Hj.
  { intros id j. cbn. intros [<- <-]%lookup_singleton_Some. done. }
  split.
  - intros id j [-> ->]%Hj. done.
  - cbn [checkpoints jobs example_state]. apply set_eq. intros x. rewrite !elem_of_dom. split; intros [y Hy%lookup_singleton_Some]; destruct Hy as [<- _]; by eexists; rewrite lookup_singleton_eq.
  - intros id j rows [-> ->]%Hj. cbn [checkpoints example_state]. intros [_ <-]%lookup_singleton_Some. split; try done.
    intros a p v. cbn. intros [_ H]%lookup_singleton_Some. by inversion H.
Qed.

(** A poll completes the job of one account, which the owner cannot cancel any more. *)
Lemma jobs_lifecycle_witness :
  ∃ j', jobs (tables (snd (perform example_calls (World (example_state QUEUED) [])))) !! example_id = Some j' ∧
    OwnerID j' = 7 ∧ Status j' = COMPLETED ∧ 0 ≤ Processed j'.
Proof.
  destruct (jobs_lifecycle example_manager example_calls (World (example_state QUEUED) [])
    (snd (perform example_calls (World (example_state QUEUED) []))) example_id (example_job QUEUED)) as (j' & Hj & Ho & _ & _ & Hp & _).
  - exact example_calls_ok.
  - exact (ok_keyed _ _ example_tables_ok).
  - vm_compute. reflexivity.
  - vm_compute. reflexivity.
  - exists j'. split; [exact Hj|]. split; [exact Ho|]. split; [|exact Hp].
    vm_compute in Hj. injection Hj as <-. reflexivity.
Defined.

Lemma jobs_accounted_witness :
  ∃ j rows, jobs (tables (snd (perform example_calls (World (example_state QUEUED) [])))) !! example_id = Some j ∧
    checkpoints (tables (snd (perform example_calls (World (example_state QUEUED) [])))) !! example_id = Some rows ∧
    Status j = COMPLETED ∧ Processed j = TotalAccounts j.
Proof.
  eexists _, _. split; [vm_compute; reflexivity|]. split; [vm_compute; reflexivity|]. split; [vm_compute; reflexivity|].
  eapply (jobs_accounted example_manager example_calls (World (example_state QUEUED) [])
    (snd (perform example_calls (World (example_state QUEUED) []))) example_id).
  - exact example_calls_ok.
  - exact example_tables_ok.
  - vm_compute. reflexivity.
  - vm_compute. reflexivity.
  - vm_compute. reflexivity.
  - vm_compute. reflexivity.
Defined.

Lemma completion_answer_lost_witness :
  fst (OpenOutput example_id 7 false 200 (snd (finish (example_job PROCESSING) COMPLETED EmptyString EmptyString
    (outputName example_id) (World (example_state PROCESSING) [Some (Lost true (Msg "invalid connection"))])))) =
  Fail (Sentinel SlikErrExpired).
Proof.
  apply (completion_answer_lost (example_job PROCESSING) (example_state PROCESSING) (outputName example_id)
    (Msg "invalid connection") 200); [reflexivity|vm_compute; reflexivity|reflexivity|discriminate].
Defined.
