(* ===== verification/SlikRun.v ===== *)
(** A SLIK job that nothing disturbs: the producer and the workers get through
    every account in any order of turns, and the result is the workbook with every
    account's values, ready for its owner. *)
From stdpp Require Import base list gmap strings sorting.
From Stdlib Require Import ZArith Lia Ascii QArith.
From S2P Require Import Prelude GoStrings GoErrors Database GoSlices GoTime GoJSON GoPath Dates Money LoanModel SlikJobs SlikLife SlikGuarantees.
Local Open Scope Z_scope.

(** ** Pages of account numbers *)

Lemma sorted_beyond n a (l : list string) :
  StronglySorted slt l → a ∈ l → (0 < n)%nat → a ∈ take n l ∨ ∃ z, last (take n l) = Some z ∧ slt z a.
Proof.
  intros Hs. revert n. induction Hs as [|b l Hl IH Hb]; intros n Ha Hn; [by apply not_elem_of_nil in Ha|].
  destruct n as [|n]; [lia|]. cbn [take]. apply elem_of_cons in Ha as [->|Ha]; [left; by left|].
  destruct n as [|n].
  - right. exists b. split; [done|]. rewrite Forall_forall in Hb. by apply Hb.
  - destruct (IH (S n) Ha ltac:(lia)) as [Hin|(z & Hz & Hlt)]; [left; by right|].
    right. exists z. split; [|done]. rewrite last_cons, Hz. done.
Qed.
Lemma sorted_last_le z (l : list string) a :
  StronglySorted slt l → last l = Some z → a ∈ l → a = z ∨ slt a z.
Proof.
  intros Hs. induction Hs as [|b l Hl IH Hb]; intros Hz Ha; [done|]. rewrite last_cons in Hz.
  apply elem_of_cons in Ha as [->|Ha].
  - destruct (last l) as [z'|] eqn:E; [|left; by injection Hz]. injection Hz as ->. right. rewrite Forall_forall in Hb.
    apply Hb. by apply last_Some_elem_of.
  - destruct (last l) eqn:E; [by apply IH|]. apply last_None in E. subst. by apply not_elem_of_nil in Ha.
Qed.

(** ** The pages of a job's accounts *)

Section Pages.
Context (id : string) (s : slik) (rows : gmap string checkpoint) (Hrows : checkpoints s !! id = Some rows).

Lemma elem_of_List_filter {A} (f : A → bool) x l : x ∈ List.filter f l ↔ x ∈ l ∧ f x = true.
Proof. rewrite !list_elem_of_In. apply List.filter_In. Qed.
Lemma List_filter_sublist {A} (f : A → bool) l : List.filter f l `sublist_of` l.
Proof. induction l as [|x l IH]; cbn; [done|]. destruct (f x); by constructor. Qed.

Lemma accounts_all_sorted from (cond : checkpoint → bool) :
  StronglySorted slt (SortStableFunc string_leb (List.filter (fun a => string_ltb from a)
       (List.filter (fun p => cond p.2) (map_to_list rows)).*1)).
Proof.
  apply sorted_strict; [apply SortStableFunc_sorted; [apply string_leb_total|apply string_leb_trans]|].
  rewrite SortStableFunc_perm. eapply sublist_NoDup; [|apply List_filter_sublist].
  eapply sublist_NoDup; [|apply fmap_sublist, List_filter_sublist]. apply NoDup_fst_map_to_list.
Qed.
Lemma accounts_after_sorted from cond limit : StronglySorted slt (accounts_after id from cond limit s).
Proof. unfold accounts_after. rewrite Hrows. cbn [default]. apply sorted_take, accounts_all_sorted. Qed.
Lemma accounts_after_all from cond a :
  (a ∈ SortStableFunc string_leb (List.filter (fun a => string_ltb from a)
       (List.filter (fun p => cond p.2) (map_to_list rows)).*1)) ↔ slt from a ∧ ∃ c, rows !! a = Some c ∧ cond c = true.
Proof.
  rewrite SortStableFunc_perm, elem_of_List_filter, list_elem_of_fmap. split.
  - intros [([a' c] & -> & Hin) Hlt]. apply elem_of_List_filter in Hin as [Hin Hc]. apply elem_of_map_to_list in Hin. eauto.
  - intros (Hlt & c & Ha & Hc). split; [|done]. exists (a, c). split; [done|]. apply elem_of_List_filter. split; [|done].
    by apply elem_of_map_to_list.
Qed.
Lemma accounts_after_in from cond limit a :
  a ∈ accounts_after id from cond limit s → slt from a ∧ ∃ c, rows !! a = Some c ∧ cond c = true.
Proof.
  unfold accounts_after. rewrite Hrows. cbn [default]. intros H%elem_of_take. destruct H as (i & H & _).
  apply accounts_after_all. by eapply list_elem_of_lookup_2.
Qed.
Lemma accounts_after_reach from (cond : checkpoint → bool) limit a c :
  rows !! a = Some c → cond c = true → slt from a → (0 < limit)%nat →
  a ∈ accounts_after id from cond limit s ∨ ∃ z, last (accounts_after id from cond limit s) = Some z ∧ slt z a.
Proof.
  intros Ha Hc Hlt Hn. unfold accounts_after. rewrite Hrows. cbn [default].
  apply sorted_beyond; [apply accounts_all_sorted|apply accounts_after_all; eauto|done].
Qed.
End Pages.

(** ** Calls that nothing disturbs *)

Lemma query_quiet {A} (f : slik → A) s : query f (World s []) = (Ok (f s), World s []).
Proof. done. Qed.
Lemma IsCanceled_quiet id s j :
  arrivals s = [] → jobs s !! id = Some j → IsCanceled id (World s []) = (Ok (bool_decide (Status j = CANCELED)), World s []).
Proof.
  intros Hq Hj. unfold IsCanceled. rewrite (bind_quiet _ _ _ tt (World s [])); [|by apply arrive_quiet].
  rewrite (bind_quiet _ _ _ (Some (Status j)) (World s [])); [done|]. rewrite query_quiet, Hj. done.
Qed.
Lemma Pending_quiet id from limit s :
  arrivals s = [] → Pending id from limit (World s []) = (Ok (accounts_after id from is_queued limit s), World s []).
Proof. intros Hq. unfold Pending. rewrite (bind_quiet _ _ _ tt (World s [])); [done|by apply arrive_quiet]. Qed.

Section Work.
Context (m : manager) (id : string) (job : Job) (date : Date) (stored : gmap string (list ascii)) (now : time).

Definition in_progress (n : Z) : Job := with_progress job n (InputFile job) (OutputFile job).
(** The tables while the job is worked on: its rows, and a count of them *)
Record on_track (rows : gmap string checkpoint) (s : slik) : Prop := {
  ot_quiet : arrivals s = [];
  ot_job : ∃ n, jobs s !! id = Some (in_progress n);
  ot_rows : checkpoints s !! id = Some rows;
  ot_files : files s = stored;
  ot_clock : clock s = now
}.
(** The furthest account that the producer has seen *)
Definition horizon (k : work) : string := default (after k) (last (page k)).
Record tidy (rows : gmap string checkpoint) (k : work) : Prop := {
  td_live : stopped k = false;
  td_failure : failure k = None;
  td_sorted : StronglySorted slt (page k);
  td_page : ∀ a, a ∈ page k → slt (after k) a;
  td_busy : ∀ a, a ∈ busy k → ¬ slt (after k) a;
  td_queued : ∀ a, a ∈ busy k ∨ a ∈ page k → rows !! a = Some None;
  td_reach : ∀ a, rows !! a = Some None → a ∈ busy k ∨ a ∈ page k ∨ (produced k = false ∧ slt (horizon k) a);
  td_done : produced k = true → page k = []
}.

Lemma start_tidy rows : (∀ a, is_Some (rows !! a) → a ≠ EmptyString) → tidy rows start_work.
Proof.
  intros Hne. split; try done; cbn.
  - constructor.
  - intros a Ha. by apply not_elem_of_nil in Ha.
  - intros a [Ha|Ha]; [by apply elem_of_empty in Ha|by apply not_elem_of_nil in Ha].
  - intros a Ha. right. right. split; [done|]. apply slt_empty, Hne. by exists None.
Qed.

(** One account is done. *)
Lemma Save_on_track rows s account primary values :
  Status job = PROCESSING → on_track rows s → rows !! account = Some None →
  ∃ s', Save id account primary values (World s []) = (Ok tt, World s' []) ∧
        on_track (<[account := Some (primary, values)]> rows) s'.
Proof.
  intros Hst [Hq [n Hj] Hr Hf Hc] Ha. eexists. split.
  - unfold Save. rewrite (bind_quiet _ _ _ tt (World s [])); [|by apply arrive_quiet].
    unfold transaction. cbn [next_fault faults tables].
    assert (update_job id (fun j => bool_decide (Status j = PROCESSING))
      (fun j => with_progress j (Processed j + 1) (InputFile j) (OutputFile j)) s =
      (1, set_jobs s (<[id := in_progress (n + 1)]> (jobs s)))) as E.
    { unfold update_job. rewrite Hj. cbn [in_progress with_progress Status]. by rewrite Hst. }
    rewrite (bind_quiet _ _ _ 1 (World (set_jobs s (<[id := in_progress (n + 1)]> (jobs s))) []));
      [|unfold statement; cbn [next_fault faults tables]; by rewrite E].
    rewrite (bind_quiet _ _ _ tt (World (set_jobs s (<[id := in_progress (n + 1)]> (jobs s))) [])) by done.
    rewrite (bind_quiet _ _ _ 1 (World (set_checkpoints (set_jobs s (<[id := in_progress (n + 1)]> (jobs s)))
      (alter (fun rows => <[account := Some (primary, values)]> rows) id (checkpoints s))) [])); [done|].
    unfold statement; cbn [next_fault faults tables]. unfold save_account. cbn [checkpoints set_jobs]. rewrite Hr. cbn [mbind option_bind].
    by rewrite Ha.
  - split; cbn; [done| | |done|done].
    + exists (n + 1). by rewrite lookup_insert_eq.
    + by rewrite lookup_alter_eq, Hr.
Qed.

(** The accounts of the job, and values that are the right ones *)
Record accounted (all : gset string) (rows : gmap string checkpoint) : Prop := {
  ac_dom : dom rows = all;
  ac_values : ∀ a pv, rows !! a = Some (Some pv) → account_values m date a = Ok pv
}.
Definition todo (rows : gmap string checkpoint) : nat := size (filter (λ p, is_queued p.2 = true) rows).
(** What is left to do: three turns for an account, and one to see that there are no more *)
Definition left_to_do (rows : gmap string checkpoint) (k : work) : Z :=
  3 * Z.of_nat (todo rows) + (if produced k then 0 else 1) - Z.of_nat (length (page k)) - 2 * Z.of_nat (size (busy k)).

Lemma todo_save rows a v : rows !! a = Some None → Z.of_nat (todo rows) = Z.of_nat (todo (<[a := Some v]> rows)) + 1.
Proof.
  intros Ha. unfold todo. rewrite map_filter_insert_False by done. rewrite map_filter_delete.
  set (queued := filter (λ p : string * checkpoint, is_queued p.2 = true) rows).
  assert (queued !! a = Some None) as Hq by (by apply map_lookup_filter_Some).
  assert (size (<[a := None]> (delete a queued)) = S (size (delete a queued))) as E by (apply map_size_insert_None, lookup_delete_eq).
  rewrite insert_delete_id in E by done. rewrite E. lia.
Qed.
Lemma sorted_NoDup (l : list string) : StronglySorted slt l → NoDup l.
Proof.
  induction 1 as [|a l _ IH Ha]; constructor; [|done]. intros Hin. rewrite Forall_forall in Ha. apply Ha in Hin.
  unfold slt in Hin. by rewrite string_ltb_irrefl in Hin.
Qed.
Lemma left_to_do_nonneg rows k : tidy rows k → 0 ≤ left_to_do rows k.
Proof.
  intros Hk. unfold left_to_do.
  assert (length (page k) + size (busy k) ≤ todo rows)%nat; [|destruct (produced k); lia].
  rewrite <- (size_list_to_set (C := gset string) (page k)) by (apply sorted_NoDup, Hk). rewrite <- size_union.
  - unfold todo. rewrite <- size_dom. apply subseteq_size. intros a Ha. apply elem_of_dom.
    exists None. apply map_lookup_filter_Some. split; [|done]. apply (td_queued _ _ Hk). set_solver.
  - intros a Hp Hb. apply elem_of_list_to_set in Hp. by apply (td_busy _ _ Hk a Hb), (td_page _ _ Hk).
Qed.

(** One turn: nothing happens, or there is less left to do. *)
Definition turn (all : gset string) (ev : work_event) (rows : gmap string checkpoint) (s : slik) (k : work)
    (rows' : gmap string checkpoint) (s' : slik) (k' : work) : Prop :=
  work_step m id date ev k (World s []) = (Ok k', World s' []) ∧ on_track rows' s' ∧ tidy rows' k' ∧ accounted all rows' ∧
  ((k' = k ∧ s' = s ∧ rows' = rows) ∨ left_to_do rows' k' < left_to_do rows k).

Lemma idle_turn all ev rows s k :
  on_track rows s → tidy rows k → accounted all rows →
  work_step m id date ev k (World s []) = (Ok k, World s []) → turn all ev rows s k rows s k.
Proof. intros Hs Hk Ha E. split_and!; try done. by left. Qed.

Lemma fetch_turn all rows s k :
  on_track rows s → tidy rows k → accounted all rows → ∃ s' k', turn all Fetch rows s k rows s' k' ∧
    (produced k = false → page k = [] → k' ≠ k).
Proof.
  intros Hs Hk Ha. exists s. destruct (produced k) eqn:Ep.
  { exists k. split; [|done]. apply idle_turn; [done..|]. unfold work_step. by rewrite Ep. }
  destruct (page k) as [|b l] eqn:Eg.
  2: { exists k. split; [|done]. apply idle_turn; [done..|]. unfold work_step. by rewrite Ep, (td_live _ _ Hk), Eg. }
  pose proof Hs as [Hq Hj Hr Hf Hck]. pose proof Hk as [Hlive Hfail _ _ Hbusy Hqueued Hreach _].
  set (l := accounts_after id (after k) is_queued 128 s).
  assert (Pending id (after k) 128 (World s []) = (Ok l, World s [])) as Hpend by (by apply Pending_quiet).
  assert (∀ a, a ∈ l → slt (after k) a ∧ rows !! a = Some None) as Hl.
  { intros a Hin. eapply accounts_after_in in Hin as (Hlt & c & Hc & Hqc); [|exact Hr]. split; [done|]. by destruct c. }
  assert (∀ a, rows !! a = Some None → a ∈ busy k ∨ a ∈ l ∨ ∃ z, last l = Some z ∧ slt z a) as Hcover.
  { intros a Hin. destruct (Hreach a Hin) as [?|[Hp|[_ Hlt]]]; [by left|by rewrite Eg in Hp; apply not_elem_of_nil in Hp|right].
    unfold horizon in Hlt. rewrite Eg in Hlt. eapply accounts_after_reach; [exact Hr|exact Hin|done|exact Hlt|lia]. }
  exists (match l with
          | [] => stop_producing k
          | _ => {| after := after k; page := l; busy := busy k; failure := failure k; stopped := stopped k; produced := false |}
          end).
  split; [|intros _ _ E; destruct l; apply (f_equal produced) in E as E1; apply (f_equal page) in E as E2; cbn in *; congruence].
  split; [unfold work_step; rewrite Ep, Hlive, Eg, Hpend; by destruct l|]. split; [done|]. destruct l as [|b l'] eqn:El.
  - split; [|split; [done|right; unfold left_to_do; cbn; rewrite Ep, Eg; cbn; lia]].
    split; cbn; [done|done|constructor|intros a Hp; by apply not_elem_of_nil in Hp|done| | |done].
    + intros a [?|Hp]; [apply Hqueued; by left|by apply not_elem_of_nil in Hp].
    + intros a Hin. destruct (Hcover a Hin) as [?|[Hp|(z & Hz & _)]]; [by left|by apply not_elem_of_nil in Hp|done].
  - split; [|split; [done|right; unfold left_to_do; cbn [produced page busy]; rewrite Ep, Eg; cbn [length]; lia]].
    split; cbn [stopped failure page after busy produced]; [done|done| | |done| | |done].
    + rewrite <- El. by eapply accounts_after_sorted.
    + intros a Hp. by apply Hl.
    + intros a [?|Hp]; [apply Hqueued; by left|by apply Hl].
    + intros a Hin. destruct (Hcover a Hin) as [?|[Hp|(z & Hz & Hlt)]]; [by left|by right; left|right; right].
      split; [done|]. unfold horizon. cbn [page]. by rewrite Hz.
Qed.

Lemma hand_turn all rows s k :
  on_track rows s → tidy rows k → accounted all rows → ∃ s' k', turn all Hand rows s k rows s' k' ∧
    (page k ≠ [] → (size (busy k) < Concurrency m)%nat → k' ≠ k).
Proof.
  intros Hs Hk Ha. exists s. destruct (page k) as [|a l] eqn:Eg.
  { exists k. split; [|done]. apply idle_turn; [done..|]. unfold work_step. by rewrite Eg. }
  pose proof Hk as [Hlive Hfail Hsort Hpage Hbusy Hqueued Hreach Hdone].
  assert (produced k = false) as Ep by (destruct (produced k); [by specialize (Hdone eq_refl); congruence|done]).
  destruct (size (busy k) <? Concurrency m)%nat eqn:Ec.
  2: { exists k. split; [|intros _ ?%Nat.ltb_lt; congruence]. apply idle_turn; [done..|].
       unfold work_step. rewrite Eg, Ec, Hlive. by rewrite !orb_true_r. }
  rewrite Eg in Hsort. apply StronglySorted_inv in Hsort as [Hsort Hall]. rewrite Forall_forall in Hall.
  assert (a ∉ busy k) as Hnot by (intros Hb; apply (Hbusy a Hb), Hpage; rewrite Eg; by left).
  exists {| after := a; page := l; busy := {[a]} ∪ busy k; failure := failure k; stopped := stopped k; produced := produced k |}.
  split; [|intros _ _ E; apply (f_equal page) in E; cbn in E; rewrite Eg in E; by apply (f_equal length) in E; cbn in E; lia].
  split; [unfold work_step; rewrite Eg, Ec, Hlive, Ep; done|]. split; [done|].
  split; [|split; [done|right; unfold left_to_do; cbn [produced page busy];
                        rewrite Eg, size_union, size_singleton by set_solver; cbn [length]; lia]].
  split; cbn [stopped failure page after busy produced]; [done|done|done|exact Hall| | | |congruence].
  - intros b [->%elem_of_singleton|Hb]%elem_of_union; unfold slt; [by rewrite string_ltb_irrefl|]. intros Hlt.
    apply (Hbusy b Hb). etrans; [|exact Hlt]. apply Hpage. rewrite Eg. by left.
  - intros b Hb. apply Hqueued. rewrite Eg. set_solver.
  - intros b Hb. destruct (Hreach b Hb) as [?|[Hp|[_ Hlt]]]; [set_solver| |].
    + rewrite Eg in Hp. apply elem_of_cons in Hp as [->|Hp]; [left; set_solver|by right; left].
    + right. right. split; [done|]. unfold horizon in *. rewrite Eg, last_cons in Hlt. cbn [page after].
      by destruct (last l).
Qed.

Lemma finish_turn all rows s k a :
  Status job = PROCESSING → (∀ a, a ∈ all → is_ok (account_values m date a) = true) →
  on_track rows s → tidy rows k → accounted all rows → ∃ rows' s' k', turn all (Finish a) rows s k rows' s' k' ∧
    (a ∈ busy k → k' ≠ k).
Proof.
  intros Hst Hvalues Hs Hk Ha. destruct (decide (a ∈ busy k)) as [Hb|Hb].
  2: { exists rows, s, k. split; [|done]. apply idle_turn; [done..|]. unfold work_step. by rewrite bool_decide_eq_false_2. }
  pose proof Hk as [Hlive Hfail Hsort Hpage Hbusy Hqueued Hreach Hdone]. pose proof Ha as [Had Hav].
  assert (rows !! a = Some None) as Hrow by (apply Hqueued; by left).
  assert (a ∈ all) as Hin by (rewrite <- Had; by eapply elem_of_dom_2).
  apply Hvalues, is_ok_true in Hin as [[primary values] Hv].
  destruct (Save_on_track _ _ _ primary values Hst Hs Hrow) as (s' & Hsave & Hs').
  exists (<[a := Some (primary, values)]> rows), s', (put_down a k).
  split; [|intros _ E; apply (f_equal busy) in E; cbn in E; set_solver].
  assert (∀ b, b ∈ busy k ∖ {[a]} ∨ b ∈ page k → b ≠ a) as Hother.
  { intros b [Hb'|Hp]; [set_solver|]. intros ->. by apply (Hbusy a Hb), Hpage. }
  split; [|split; [exact Hs'|split; [|split]]].
  - unfold work_step. rewrite bool_decide_eq_true_2 by done. cbn [negb]. unfold finish_account.
    rewrite Hv. unfold mbind, db_bind, lift. cbn [fst snd]. by rewrite Hsave.
  - split; cbn [put_down stopped failure page after busy produced]; [done|done|done|done| | | |done].
    + intros b Hb'. apply Hbusy. set_solver.
    + intros b Hb'. rewrite lookup_insert_ne by (intros <-; by eapply Hother). apply Hqueued. set_solver.
    + intros b Hb'. destruct (decide (b = a)) as [->|Hne]; [by rewrite lookup_insert_eq in Hb'|].
      rewrite lookup_insert_ne in Hb' by done. destruct (Hreach b Hb') as [?|[?|?]]; [left; set_solver|by right; left|by right; right].
  - split; [rewrite dom_insert_L; apply elem_of_dom_2 in Hrow; set_solver|]. intros b pv.
    destruct (decide (a = b)) as [<-|Hne]; [rewrite lookup_insert_eq; intros E; by injection E as <-|].
    rewrite lookup_insert_ne by done. apply Hav.
  - right. unfold left_to_do. cbn [put_down page busy produced]. rewrite (todo_save rows a (primary, values)) by done.
    assert (Z.of_nat (size (busy k)) = Z.of_nat (size (busy k ∖ {[a]})) + 1) as Hsize; [|lia].
    rewrite (union_difference_singleton_L a (busy k)) at 1 by done. rewrite size_union, size_singleton by set_solver. lia.
Qed.

Lemma any_turn all ev rows s k :
  Status job = PROCESSING → (∀ a, a ∈ all → is_ok (account_values m date a) = true) → ev ≠ Stop →
  on_track rows s → tidy rows k → accounted all rows → ∃ rows' s' k', turn all ev rows s k rows' s' k'.
Proof.
  intros Hst Hvalues Hev Hs Hk Ha. destruct ev as [| |a|a|]; [| | | |done].
  - destruct (fetch_turn all rows s k) as (s' & k' & H & _); eauto.
  - destruct (hand_turn all rows s k) as (s' & k' & H & _); eauto.
  - destruct (finish_turn all rows s k a) as (rows' & s' & k' & H & _); eauto.
  - exists rows, s, k. apply idle_turn; [done..|]. unfold work_step. by rewrite (td_live _ _ Hk).
Qed.
(** There is a turn to take until all is over. *)
Lemma useful_turn all rows s k :
  Status job = PROCESSING → (∀ a, a ∈ all → is_ok (account_values m date a) = true) → (0 < Concurrency m)%nat →
  on_track rows s → tidy rows k → accounted all rows → work_over k = false →
  ∃ ev rows' s' k', ev ≠ Stop ∧ turn all ev rows s k rows' s' k' ∧ k' ≠ k.
Proof.
  intros Hst Hvalues Hn Hs Hk Ha Hover. destruct (set_choose_or_empty (busy k)) as [[a Hb]|He].
  { destruct (finish_turn all rows s k a) as (rows' & s' & k' & H & Hne); [done..|]. exists (Finish a), rows', s', k'. auto. }
  apply leibniz_equiv in He. unfold work_over in Hover. rewrite bool_decide_eq_true_2, andb_true_r in Hover by done.
  destruct (page k) as [|a l] eqn:Eg.
  - destruct (fetch_turn all rows s k) as (s' & k' & H & Hne); [done..|]. exists Fetch, rows, s', k'. auto.
  - destruct (hand_turn all rows s k) as (s' & k' & H & Hne); [done..|]. exists Hand, rows, s', k'.
    split_and!; [done|done|]. apply Hne; [by rewrite Eg|]. by rewrite He, size_empty.
Qed.

Lemma schedule_turns all schedule rows s k :
  Status job = PROCESSING → (∀ a, a ∈ all → is_ok (account_values m date a) = true) → Stop ∉ schedule →
  on_track rows s → tidy rows k → accounted all rows →
  ∃ rows' s' k', work_steps m id date schedule k (World s []) = (Ok k', World s' []) ∧
    on_track rows' s' ∧ tidy rows' k' ∧ accounted all rows' ∧ left_to_do rows' k' ≤ left_to_do rows k.
Proof.
  intros Hst Hvalues. revert rows s k. induction schedule as [|ev schedule IH]; intros rows s k Hstop Hs Hk Ha.
  { exists rows, s, k. by split_and!. }
  apply not_elem_of_cons in Hstop as [Hev Hstop].
  destruct (any_turn all ev rows s k Hst Hvalues (not_eq_sym Hev) Hs Hk Ha) as (rows1 & s1 & k1 & E & Hs1 & Hk1 & Ha1 & Hleft).
  destruct (IH rows1 s1 k1 Hstop Hs1 Hk1 Ha1) as (rows' & s' & k' & E' & ? & ? & ? & ?). exists rows', s', k'.
  split; [cbn [work_steps]; by rewrite (bind_quiet _ _ _ _ _ E)|]. split_and!; try done.
  destruct Hleft as [(-> & -> & ->)|]; [done|lia].
Qed.

(** Every event of the schedule changes something. *)
Fixpoint useful (schedule : list work_event) (k : work) (w : world slik) : Prop :=
  match schedule with
  | [] => True
  | ev :: rest =>
      match work_step m id date ev k w with
      | (Ok k', w') => k' ≠ k ∧ useful rest k' w'
      | (Fail _, _) => False
      end
  end.
Lemma useful_bound all schedule rows s k :
  Status job = PROCESSING → (∀ a, a ∈ all → is_ok (account_values m date a) = true) → Stop ∉ schedule →
  on_track rows s → tidy rows k → accounted all rows → useful schedule k (World s []) →
  Z.of_nat (length schedule) ≤ left_to_do rows k.
Proof.
  intros Hst Hvalues. revert rows s k. induction schedule as [|ev schedule IH]; intros rows s k Hstop Hs Hk Ha Huse.
  { by apply left_to_do_nonneg. }
  apply not_elem_of_cons in Hstop as [Hev Hstop].
  destruct (any_turn all ev rows s k Hst Hvalues (not_eq_sym Hev) Hs Hk Ha) as (rows1 & s1 & k1 & E & Hs1 & Hk1 & Ha1 & Hleft).
  cbn [useful] in Huse. rewrite E in Huse. destruct Huse as [Hne Huse]. destruct Hleft as [(-> & _)|Hleft]; [done|].
  specialize (IH rows1 s1 k1 Hstop Hs1 Hk1 Ha1 Huse). cbn [length]. lia.
Qed.
Lemma finishing_schedule all n rows s k :
  Status job = PROCESSING → (∀ a, a ∈ all → is_ok (account_values m date a) = true) → (0 < Concurrency m)%nat →
  on_track rows s → tidy rows k → accounted all rows → left_to_do rows k ≤ Z.of_nat n →
  ∃ rest k', Stop ∉ rest ∧ (length rest ≤ n)%nat ∧ fst (work_steps m id date rest k (World s [])) = Ok k' ∧ work_over k' = true.
Proof.
  intros Hst Hvalues Hn. revert rows s k. induction n as [|n IH]; intros rows s k Hs Hk Ha Hleft;
    (destruct (work_over k) eqn:Hover; [exists [], k; split_and!; [apply not_elem_of_nil|cbn; lia|done|done]|]);
    destruct (useful_turn all rows s k) as (ev & rows1 & s1 & k1 & Hev & (E & Hs1 & Hk1 & Ha1 & Hless) & Hne); try done;
    (destruct Hless as [(-> & _)|Hless]; [done|]).
  - pose proof (left_to_do_nonneg _ _ Hk1). lia.
  - destruct (IH rows1 s1 k1 Hs1 Hk1 Ha1 ltac:(lia)) as (rest & k' & Hrest & Hlen & E' & Hend).
    exists (ev :: rest), k'. split_and!; [|cbn; lia| |done].
    + apply not_elem_of_cons. by split.
    + cbn [work_steps]. by rewrite (bind_quiet _ _ _ _ _ E).
Qed.
End Work.

(** ** Reading the results back, page by page *)

Definition value_of (rows : gmap string checkpoint) (a : string) : option Values :=
  match rows !! a with Some (Some (_, v)) => Some v | _ => None end.

Lemma lookup_page (f : string → option Values) (l : list string) a :
  (list_to_map (omap (fun a => (a,.) <$> f a) l) : gmap string Values) !! a = if bool_decide (a ∈ l) then f a else None.
Proof.
  induction l as [|b l IH]; [done|]. cbn [omap list_omap]. destruct (decide (a = b)) as [->|Hne].
  - rewrite bool_decide_eq_true_2 by (by left). destruct (f b) as [v|] eqn:E; cbn; [by rewrite lookup_insert_eq|].
    rewrite IH. by case_bool_decide.
  - assert (bool_decide (a ∈ b :: l) = bool_decide (a ∈ l)) as ->.
    { apply bool_decide_ext. rewrite elem_of_cons. naive_solver. }
    destruct (f b) as [v|] eqn:E; cbn; [by rewrite lookup_insert_ne by done|done].
Qed.
Lemma page_values_map id from s rows :
  checkpoints s !! id = Some rows →
  page_values id from s = omap (fun a => (a,.) <$> value_of rows a) (accounts_after id from is_done 256 s).
Proof.
  intros Hr. unfold page_values. rewrite Hr. induction (accounts_after id from is_done 256 s) as [|a l IH]; [done|].
  cbn [omap list_omap mbind option_bind]. cbn [omap list_omap mbind option_bind] in IH. rewrite IH. unfold value_of.
  by destruct (rows !! a) as [[[? ?]|]|].
Qed.
Lemma last_page (f : string → option Values) (l : list string) :
  Forall (λ a, is_Some (f a)) l → last (omap (fun a => (a,.) <$> f a) l) = (last l ≫= λ a, (a,.) <$> f a).
Proof.
  intros H. induction l as [|l a IH] using rev_ind; [done|]. apply Forall_app in H as [_ Ha].
  apply Forall_singleton in Ha as [v Hv]. rewrite omap_app, last_snoc. cbn. rewrite Hv. cbn. apply last_snoc.
Qed.

(** The done accounts after [from] *)
Definition after_count (from : string) (rows : gmap string checkpoint) : nat :=
  size (filter (λ p, is_done p.2 && string_ltb from p.1 = true) rows).
Lemma after_count_less from z c rows :
  rows !! z = Some c → is_done c = true → slt from z → (after_count z rows < after_count from rows)%nat.
Proof.
  intros Hz Hc Hlt. unfold after_count. set (later := filter (λ p, is_done p.2 && string_ltb from p.1 = true) rows).
  assert (later !! z = Some c) as Hin by (apply map_lookup_filter_Some; cbn; by rewrite Hc, Hlt).
  assert (size later = S (size (delete z later))) as ->.
  { rewrite <- (insert_delete_id later z c) at 1 by done. apply map_size_insert_None, lookup_delete_eq. }
  apply Nat.lt_succ_r, map_subseteq_size, map_subseteq_spec. intros a c' Ha.
  apply map_lookup_filter_Some in Ha as [Ha [Hd Hlt']%andb_true_iff]. cbn in Hd, Hlt'.
  rewrite lookup_delete_ne by (intros <-; by rewrite string_ltb_irrefl in Hlt').
  apply map_lookup_filter_Some. cbn. rewrite Hd. split; [done|]. cbn. by eapply string_ltb_trans.
Qed.

Lemma results_quiet fuel id from acc s rows :
  arrivals s = [] → checkpoints s !! id = Some rows → (after_count from rows < fuel)%nat →
  ∃ res, results_loop fuel id from acc (World s []) = (Ok res, World s []) ∧
    ∀ a, res !! a = match (if string_ltb from a then value_of rows a else None) with Some v => Some v | None => acc !! a end.
Proof.
  intros Hq Hr. revert from acc. induction fuel as [|fuel IH]; intros from acc Hfuel; [lia|]. cbn [results_loop].
  rewrite (bind_quiet _ _ _ tt (World s [])) by (by apply arrive_quiet).
  rewrite (bind_quiet _ _ _ (page_values id from s) (World s [])) by done.
  rewrite (page_values_map _ _ _ rows) by done. set (l := accounts_after id from is_done 256 s).
  assert (∀ a, a ∈ l → slt from a ∧ ∃ p v, rows !! a = Some (Some (p, v))) as Hl.
  { intros a Ha. eapply accounts_after_in in Ha as (Hlt & c & Hc & Hd); [|exact Hr]. split; [done|].
    destruct c as [[p v]|]; [by exists p, v|done]. }
  assert (∀ a v, value_of rows a = Some v → slt from a → a ∈ l ∨ ∃ z, last l = Some z ∧ slt z a) as Hreach.
  { intros a v Hv Hlt. unfold value_of in Hv. destruct (rows !! a) as [c|] eqn:Hc; [|done].
    eapply accounts_after_reach; [exact Hr|exact Hc| |exact Hlt|lia]. by destruct c. }
  rewrite last_page by (apply Forall_forall; intros a Ha; destruct (Hl a Ha) as (_ & p & v & E); unfold value_of; rewrite E; eauto).
  destruct (last l) as [z|] eqn:Ez; cbn [mbind option_bind].
  - destruct (Hl z) as (Hlt & p & v & Hz); [by apply last_Some_elem_of|]. unfold value_of at 1. rewrite Hz.
    cbn [fmap option_fmap option_map]. destruct (IH z (list_to_map (omap (fun a => (a,.) <$> value_of rows a) l) ∪ acc)) as (res & E & Hres).
    { pose proof (after_count_less from z _ rows Hz eq_refl Hlt). lia. }
    exists res. split; [exact E|]. intros a. rewrite Hres, lookup_union, lookup_page.
    destruct (string_ltb z a) eqn:Ea.
    + rewrite (string_ltb_trans from z a Hlt Ea). destruct (value_of rows a) eqn:Ev; [done|].
      case_bool_decide; by destruct (acc !! a).
    + case_bool_decide as Hin.
      * destruct (Hl a Hin) as (-> & _). by destruct (value_of rows a), (acc !! a).
      * destruct (string_ltb from a) eqn:Ef; [|by destruct (acc !! a)]. destruct (value_of rows a) eqn:Ev; [|by destruct (acc !! a)].
        destruct (Hreach a _ Ev Ef) as [?|(z' & E' & Hlt')]; [done|]. injection E' as <-. unfold slt in Hlt'. congruence.
  - exists acc. split; [done|]. intros a. destruct (string_ltb from a) eqn:Ef; [|done]. destruct (value_of rows a) eqn:Ev; [|done].
    destruct (Hreach a _ Ev Ef) as [Hin|(z' & E' & _)]; [|done]. apply last_None in Ez. rewrite Ez in Hin. by apply not_elem_of_nil in Hin.
Qed.

(** ** Storage names *)

Lemma bytes_append s t : bytes (s ++ t)%string = bytes s ++ bytes t.
Proof. induction s as [|c s IH]; [done|]. change (c :: bytes (s ++ t)%string = c :: (bytes s ++ bytes t)). by rewrite IH. Qed.
Lemma mem_byte_rev c l : mem_byte c (rev l) = mem_byte c l.
Proof.
  induction l as [|a l IH]; [done|]. cbn [rev]. rewrite mem_byte_app, IH, !mem_byte_cons. cbn. rewrite orb_false_r.
  apply orb_comm.
Qed.
Lemma trim_right_absent c l : mem_byte c l = false → trim_right_byte c l = l.
Proof.
  intros H. unfold trim_right_byte. rewrite <- mem_byte_rev in H. rewrite <- (rev_involutive l) at 2. f_equal.
  destruct (rev l) as [|a l']; [done|]. rewrite mem_byte_cons in H. apply orb_false_iff in H as [H _]. cbn.
  destruct (beq a c) eqn:E; [|done]. unfold beq in *. rewrite Ascii.eqb_sym in H. congruence.
Qed.
Lemma Base_plain name : name ≠ EmptyString → mem_byte "/" (bytes name) = false → Base name = name.
Proof.
  intros Hne H. unfold Base. destruct (empty name) eqn:E; [by destruct name|]. rewrite trim_right_absent by done.
  destruct (bytes name) as [|a l] eqn:El; [by destruct name|]. rewrite <- El. unfold split_byte.
  rewrite split_aux_absent by (by rewrite El). cbn. apply of_bytes_bytes.
Qed.
Lemma job_file_safe id suffix :
  validJobID id = true → suffix ≠ EmptyString → mem_byte "/" (bytes suffix) = false →
  safePath (id ++ suffix) id suffix = Ok (id ++ suffix)%string.
Proof.
  intros Hid Hne Hs. unfold safePath. rewrite Hid. cbn [negb orb]. assert (Base (id ++ suffix) = (id ++ suffix)%string) as ->.
  { apply Base_plain; [by destruct id|]. rewrite bytes_append, mem_byte_app, Hs, orb_false_r.
    unfold validJobID in Hid. apply andb_true_iff in Hid as [_ Hall]. apply not_true_iff_false. intros Hin.
    unfold mem_byte in Hin. apply existsb_exists in Hin as (c & Hc & E). apply Ascii.eqb_eq in E. subst c.
    rewrite forallb_forall in Hall. by apply Hall in Hc. }
  unfold seqb. by rewrite bool_decide_eq_true_2.
Qed.
Lemma output_is_not_input id : inputName id ≠ outputName id.
Proof.
  intros E. apply (f_equal bytes) in E. unfold inputName, outputName in E. rewrite !bytes_append in E.
  apply (f_equal length) in E. rewrite !length_app in E. cbn in E. lia.
Qed.

(** ** The whole run *)

Definition no_signals : signals := {| lost_at_start := false; lost_after_work := false; shutdown := false;
  lost_interrupting := false; lost_after_patch := false; lost_at_end := false |}.

(** A claimed job with all it needs: its stored workbook, a date, accounts whose
    positions can be had. *)
Record runnable (m : manager) (job : Job) (date : Date) (rows : gmap string checkpoint) (s : slik) : Prop := {
  rn_id : validJobID (job_ID job) = true;
  rn_status : Status job = PROCESSING;
  rn_input : InputFile job = inputName (job_ID job);
  rn_date : ParseDate (AsOf job) (Some UTC) = Ok date;
  rn_quiet : arrivals s = [];
  rn_job : jobs s !! job_ID job = Some job;
  rn_rows : checkpoints s !! job_ID job = Some rows;
  rn_accounts : ∀ a, is_Some (rows !! a) → a ≠ EmptyString ∧ is_ok (account_values m date a) = true;
  rn_values : ∀ a pv, rows !! a = Some (Some pv) → account_values m date a = Ok pv
}.
(** The values that the workbook gets: the ones of every account of the job *)
Definition results_for (m : manager) (date : Date) (rows : gmap string checkpoint) (results : gmap string Values) : Prop :=
  ∀ a v, results !! a = Some v ↔ is_Some (rows !! a) ∧ ∃ p, account_values m date a = Ok (p, v).

Section Run.
Context (m : manager) (job : Job) (date : Date) (rows0 : gmap string checkpoint) (stored : gmap string (list ascii)) (now : time).
Abbreviation id := (job_ID job).
Abbreviation track := (on_track id job stored now).

Lemma runnable_start s :
  runnable m job date rows0 s → stored = files s → now = clock s →
  track rows0 s ∧ tidy rows0 start_work ∧ accounted m date (dom rows0) rows0 ∧
  ∀ a, a ∈ dom rows0 → is_ok (account_values m date a) = true.
Proof.
  intros H -> ->. split_and!.
  - split; [apply H| |apply H|done|done]. exists (Processed job). unfold in_progress. rewrite (rn_job _ _ _ _ _ H). by destruct job.
  - apply start_tidy. intros a Ha. by apply (rn_accounts _ _ _ _ _ H).
  - split; [done|]. apply (rn_values _ _ _ _ _ H).
  - intros a Ha. apply (rn_accounts _ _ _ _ _ H). by apply elem_of_dom.
Qed.

Lemma over_done rows k : tidy rows k → work_over k = true → ∀ a c, rows !! a = Some c → is_done c = true.
Proof.
  intros Hk [Hp Hb%bool_decide_eq_true]%andb_true_iff a [v|] Ha; [done|]. exfalso.
  destruct (td_reach _ _ Hk a Ha) as [Hin|[Hin|[Hf _]]]; [by rewrite Hb in Hin|rewrite (td_done _ _ Hk Hp) in Hin; by apply not_elem_of_nil in Hin|congruence].
Qed.
Lemma all_done_complete rows s :
  arrivals s = [] → checkpoints s !! id = Some rows → (∀ a c, rows !! a = Some c → is_done c = true) →
  CheckComplete id (World s []) = (Ok tt, World s []).
Proof.
  intros Hq Hr Hall. unfold CheckComplete. rewrite (bind_quiet _ _ _ tt (World s [])) by (by apply arrive_quiet).
  rewrite (bind_quiet _ _ _ (remaining id s) (World s [])) by done. assert (remaining id s = 0%nat) as ->; [|done].
  unfold remaining. rewrite Hr. cbn [default]. apply length_zero_iff_nil. apply list_nil_subseteq. intros [a c] Hin.
  apply elem_of_List_filter in Hin as [Hin Hc]. apply elem_of_map_to_list in Hin. specialize (Hall _ _ Hin).
  unfold is_done in Hall. cbn in Hc. by rewrite Hc in Hall.
Qed.
Lemma all_results rows results :
  accounted m date (dom rows0) rows → (∀ a c, rows !! a = Some c → is_done c = true) → (∀ a, is_Some (rows !! a) → a ≠ EmptyString) →
  results_for m date rows0 results →
  ∀ a, results !! a = (if string_ltb EmptyString a then value_of rows a else None).
Proof.
  intros [Hd Hv] Hall Hne Hres a. apply option_eq. intros v. rewrite (Hres a v).
  assert (is_Some (rows0 !! a) ↔ is_Some (rows !! a)) as -> by (by rewrite <- !elem_of_dom, Hd).
  unfold value_of. split.
  - intros ([c Hc] & p & E). rewrite (slt_empty a) by (apply Hne; by exists c). specialize (Hall _ _ Hc).
    destruct c as [[p' v']|]; [|done]. pose proof (Hv _ _ Hc) as E'. change (rows !! a = Some (Some (p', v'))) in Hc. rewrite Hc. congruence.
  - destruct (string_ltb EmptyString a); [|done]. destruct (rows !! a) as [[[p v']|]|] eqn:Hc; [|done..].
    intros [= ->]. split; [by eexists|]. exists p. by apply Hv.
Qed.

(** With every account done the output is written, and the job completed. *)
Lemma output_written fuel rows s input workbook results output :
  track rows s → (∀ a c, rows !! a = Some c → is_done c = true) → (size rows < fuel)%nat →
  validJobID id = true → InputFile job = inputName id → files s !! InputFile job = Some input →
  Inspect m input (OriginalFilename job) = Ok workbook → Patch m input workbook results = Ok output →
  (∀ a, results !! a = (if string_ltb EmptyString a then value_of rows a else None)) →
  produce_output m fuel job (World s []) = (Ok None, World (set_files s (<[outputName id := output]> (files s))) []).
Proof.
  intros [Hq _ Hr _ _] Hall Hfuel Hid Hin Hf HI HP Hres. unfold produce_output.
  rewrite (all_done_complete rows) by done. rewrite Hin. unfold inputName. rewrite job_file_safe by done.
  fold (inputName id). rewrite <- Hin. unfold read_file. rewrite query_quiet, Hf, HI. unfold write_output, Results.
  destruct (results_quiet fuel id EmptyString ∅ s rows) as (res & E & Hl); [done|done| |].
  { eapply Nat.le_lt_trans; [|exact Hfuel]. apply map_subseteq_size, map_filter_subseteq. }
  rewrite E. assert (res = results) as ->; [|by rewrite HP].
  apply map_eq. intros a. rewrite Hl, Hres, lookup_empty. by destruct (if string_ltb _ _ then _ else _).
Qed.
Lemma concluded fuel rows s input workbook results output :
  Status job = PROCESSING → track rows s → (∀ a c, rows !! a = Some c → is_done c = true) → (size rows < fuel)%nat →
  validJobID id = true → InputFile job = inputName id → files s !! InputFile job = Some input →
  Inspect m input (OriginalFilename job) = Ok workbook → Patch m input workbook results = Ok output →
  (∀ a, results !! a = (if string_ltb EmptyString a then value_of rows a else None)) →
  ∃ n s', conclude m fuel job no_signals (World s []) = (Ok tt, World s' []) ∧ arrivals s' = [] ∧
    jobs s' !! id = Some (with_outcome (in_progress job n) COMPLETED EmptyString EmptyString (outputName id) now) ∧
    files s' !! outputName id = Some output.
Proof.
  intros Hst Ht Hall Hfuel Hid Hin Hf HI HP Hres. pose proof Ht as [Hq [n Hj] _ _ Hc].
  unfold conclude. erewrite bind_quiet by (by eapply output_written). cbn [lost_after_patch no_signals].
  set (s1 := set_files s _). erewrite IsCanceled_quiet; [|done|exact Hj]. cbn [in_progress with_progress Status].
  rewrite Hst. cbn [lost_at_end no_signals]. exists n, (set_jobs s1 (<[id :=
    with_outcome (in_progress job n) COMPLETED EmptyString EmptyString (outputName id) now]> (jobs s))).
  split; [|split; [done|split; [cbn; by rewrite lookup_insert_eq|cbn; by rewrite lookup_insert_eq]]].
  unfold finish, Terminal. cbn [terminal negb fail_if]. rewrite (bind_quiet _ _ _ tt (World s1 [])) by done.
  rewrite (bind_quiet _ _ _ tt (World s1 [])) by (by apply arrive_quiet).
  erewrite (bind_quiet _ _ _ 1); [|unfold statement; cbn [next_fault faults tables]; erewrite terminated_job; [done|exact Hj|exact Hst]].
  cbn [Z.eqb fail_if lift]. rewrite <- Hc. done.
Qed.

Lemma open_completed j s output at_time :
  arrivals s = [] → validJobID id = true → jobs s !! id = Some j → job_ID j = id → Status j = COMPLETED →
  OutputFile j = outputName id → Available j at_time = true → files s !! outputName id = Some output →
  snd <$> fst (OpenOutput id (OwnerID j) false at_time (World s [])) = Ok output.
Proof.
  intros Hq Hid Hj Hji Hst Ho Hav Hf. unfold OpenOutput. rewrite (bind_quiet _ _ _ j (World s [])).
  2: { rewrite Get_quiet by done. unfold find_job. rewrite Hj. cbn. unfold visible. by rewrite Z.eqb_refl. }
  unfold mbind, db_bind, lift. rewrite bool_decide_eq_true_2 by done. rewrite Hav. cbn [negb fail_if].
  rewrite Ho, Hji. unfold outputName at 1. rewrite job_file_safe by done. fold (outputName id). unfold read_file.
  by rewrite query_quiet, Hf.
Qed.
End Run.

(** The state in which the work begins: an output of an earlier try is gone. *)
Definition cleared (job : Job) (s : slik) : slik := set_files s (delete (outputName (job_ID job)) (files s)).
Lemma runnable_cleared m job date rows s : runnable m job date rows s → runnable m job date rows (cleared job s).
Proof. intros []. by split. Qed.

Lemma run_outcome m fuel job date rows s schedule input workbook results output :
  runnable m job date rows s → files s !! InputFile job = Some input → (size rows < fuel)%nat →
  Inspect m input (OriginalFilename job) = Ok workbook → results_for m date rows results →
  Patch m input workbook results = Ok output → Stop ∉ schedule →
  (∀ k, fst (work_steps m (job_ID job) date schedule start_work (World (cleared job s) [])) = Ok k → work_over k = true) →
  ∃ n s', run m fuel job schedule no_signals (World s []) = (Ok tt, World s' []) ∧ arrivals s' = [] ∧
    jobs s' !! job_ID job = Some (with_outcome (in_progress job n) COMPLETED EmptyString EmptyString (outputName (job_ID job)) (clock s)) ∧
    files s' !! outputName (job_ID job) = Some output.
Proof.
  intros Hrun Hf Hfuel HI Hres HP Hstop Hover. pose proof (runnable_cleared _ _ _ _ _ Hrun) as Hrun1.
  destruct (runnable_start m job date rows _ (clock s) (cleared job s) Hrun1 eq_refl eq_refl) as (Ht & Hk & Ha & Hvals).
  destruct (schedule_turns m (job_ID job) job date _ _ (dom rows) schedule rows _ _ (rn_status _ _ _ _ _ Hrun) Hvals Hstop Ht Hk Ha)
    as (rows' & s' & k & E & Ht' & Hk' & Ha' & _).
  rewrite E in Hover. specialize (Hover k eq_refl).
  pose proof (over_done _ _ Hk' Hover) as Hall.
  assert (∀ a, is_Some (rows' !! a) → a ≠ EmptyString) as Hne.
  { intros a Hs'. apply (rn_accounts _ _ _ _ _ Hrun), elem_of_dom. rewrite <- (ac_dom _ _ _ _ Ha'). by apply elem_of_dom. }
  assert (size rows' < fuel)%nat as Hfuel'.
  { rewrite <- (size_dom (D := gset string)), (ac_dom _ _ _ _ Ha'), size_dom. done. }
  destruct (concluded m job (files (cleared job s)) (clock s) fuel rows' s' input workbook results output)
    as (n & s2 & Ec & Hq2 & Hj2 & Hf2); try done; [apply Hrun|apply Hrun|apply Hrun| |by eapply all_results|].
  { rewrite (ot_files _ _ _ _ _ _ Ht'). cbn. rewrite (rn_input _ _ _ _ _ Hrun) in *. rewrite lookup_delete_ne; [done|].
    apply not_eq_sym, output_is_not_input. }
  exists n, s2. split; [|done]. unfold run. rewrite (rn_id _ _ _ _ _ Hrun). cbn [negb].
  change (remove_file (outputName (job_ID job)) (World s [])) with (@Ok err _ tt, World (cleared job s) []). cbn iota beta.
  unfold unless_canceled. erewrite IsCanceled_quiet; [|apply Hrun|apply Hrun]. rewrite (rn_status _ _ _ _ _ Hrun).
  rewrite bool_decide_eq_false_2 by done. cbn [lost_at_start no_signals]. rewrite (rn_date _ _ _ _ _ Hrun).
  rewrite (bind_quiet _ _ _ _ _ E). unfold after_work. cbn [lost_after_work shutdown no_signals orb]. unfold unless_canceled.
  destruct (ot_job _ _ _ _ _ _ Ht') as [n' Hj']. erewrite IsCanceled_quiet; [|apply Ht'|exact Hj'].
  cbn [in_progress with_progress Status]. rewrite (rn_status _ _ _ _ _ Hrun), bool_decide_eq_false_2 by done.
  by rewrite (td_failure _ _ Hk'), (td_live _ _ Hk').
Qed.

Lemma work_steps_app m id date l l' k w k1 w1 :
  work_steps m id date l k w = (Ok k1, w1) → work_steps m id date (l ++ l') k w = work_steps m id date l' k1 w1.
Proof.
  revert k w. induction l as [|ev l IH]; intros k w H; [by injection H as -> ->|].
  cbn [app work_steps] in *. apply db_bind_Ok in H as (k2 & w2 & H1 & H2). rewrite (bind_quiet _ _ _ _ _ H1). by apply IH.
Qed.

(** C8: A run that nothing disturbs, with the producer and the workers taking turns
    in any order until all is over, completes the job: for seven days its owner
    gets the workbook patched with exactly the values of every account of the job
    at the job's date, wherever an earlier run had stopped. *)
Theorem run_completes (m : manager) (fuel : nat) (job : Job) (date : Date) (rows : gmap string checkpoint) (s : slik)
    (schedule : list work_event) (input : list ascii) (workbook : Workbook) (results : gmap string Values)
    (output : list ascii) (at_time : time) :
  runnable m job date rows s → files s !! InputFile job = Some input → (size rows < fuel)%nat →
  Inspect m input (OriginalFilename job) = Ok workbook → results_for m date rows results →
  Patch m input workbook results = Ok output → Stop ∉ schedule →
  (∀ k, fst (work_steps m (job_ID job) date schedule start_work (World (cleared job s) [])) = Ok k → work_over k = true) →
  at_time < clock s + 7 * 86400 * 1000000000 →
  let w' := snd (run m fuel job schedule no_signals (World s [])) in
  (∃ j, jobs (tables w') !! job_ID job = Some j ∧ Status j = COMPLETED) ∧
  snd <$> fst (OpenOutput (job_ID job) (OwnerID job) false at_time w') = Ok output.
Proof.
  intros Hrun Hf Hfuel HI Hres HP Hstop Hover Htime.
  destruct (run_outcome m fuel job date rows s schedule input workbook results output Hrun Hf Hfuel HI Hres HP Hstop Hover)
    as (n & s' & -> & Hq & Hj & Ho). cbn [snd tables]. split; [by eexists|].
  apply (open_completed job (with_outcome (in_progress job n) COMPLETED EmptyString EmptyString (outputName (job_ID job)) (clock s)));
    [exact Hq|apply Hrun|exact Hj|done|done|done| |exact Ho].
  unfold Available. cbn [with_outcome Status OutputFile ExpiresAt]. rewrite bool_decide_eq_true_2 by done.
  apply andb_true_iff. split; [unfold outputName; by destruct (job_ID job)|]. by apply Z.ltb_lt.
Qed.

(** C11: undisturbed work on a job ends.  Take a claimed job whose accounts all have
    positions, with no statement failing, no request of others arriving and so no
    cancellation ([runnable], and no faults in the world), and a process that is not
    stopped.  Then no order of turns can have more than three useful ones for an account
    and one more, and from wherever the work stands some such turns bring it to its end. *)
Theorem work_terminates (m : manager) (job : Job) (date : Date) (rows : gmap string checkpoint) (s : slik)
    (schedule : list work_event) :
  runnable m job date rows s → (0 < Concurrency m)%nat → Stop ∉ schedule →
  (useful m (job_ID job) date schedule start_work (World s []) → (length schedule ≤ 3 * size rows + 1)%nat) ∧
  ∃ rest k, (length rest ≤ 3 * size rows + 1)%nat ∧ Stop ∉ rest ∧ work_over k = true ∧
    fst (work_steps m (job_ID job) date (schedule ++ rest) start_work (World s [])) = Ok k.
Proof.
  intros Hrun Hn Hstop.
  destruct (runnable_start m job date rows _ (clock s) s Hrun eq_refl eq_refl) as (Ht & Hk & Ha & Hvals).
  assert (left_to_do rows start_work ≤ Z.of_nat (3 * size rows + 1)) as Hbound.
  { unfold left_to_do. cbn [produced start_work page busy length]. rewrite size_empty.
    assert (todo rows ≤ size rows)%nat by (apply map_subseteq_size, map_filter_subseteq). lia. }
  split.
  - intros Huse. pose proof (useful_bound m _ job date _ _ (dom rows) schedule rows s start_work (rn_status _ _ _ _ _ Hrun) Hvals Hstop Ht Hk Ha Huse). lia.
  - destruct (schedule_turns m _ job date _ _ (dom rows) schedule rows _ _ (rn_status _ _ _ _ _ Hrun) Hvals Hstop Ht Hk Ha)
      as (rows' & s' & k' & E & Ht' & Hk' & Ha' & Hleft).
    destruct (finishing_schedule m _ job date _ _ (dom rows) (3 * size rows + 1) rows' s' k' (rn_status _ _ _ _ _ Hrun) Hvals Hn Ht' Hk' Ha')
      as (rest & k & Hrest & Hlen & E' & Hend); [lia|].
    exists rest, k. split_and!; [done|done|done|]. by rewrite (work_steps_app _ _ _ _ _ _ _ _ _ E).
Qed.

(** ** Witnesses *)

Definition example_date : Date := MkDate 2024 5 31.
Definition example_rows : gmap string checkpoint := {["A1"%string := None]}.
Definition example_schedule : list work_event := [Fetch; Hand; Fetch; Finish "A1"].
Definition example_results : gmap string Values := {["A1"%string := {| Balance := "0.00"; Rate := "0" |}]}.
Lemma example_runnable : runnable example_manager (example_job PROCESSING) example_date example_rows (example_state PROCESSING).
Proof.
  split; try reflexivity.
  - intros a [c Hc]. unfold example_rows in Hc. apply lookup_singleton_Some in Hc as [<- _]. split; [discriminate|vm_compute; reflexivity].
  - intros a pv Ha. unfold example_rows in Ha. apply lookup_singleton_Some in Ha as [_ Ha]. discriminate Ha.
Qed.
Lemma run_completes_witness :
  snd <$> fst (OpenOutput example_id 7 false 200 (snd (run example_manager 5 (example_job PROCESSING) example_schedule no_signals
    (World (example_state PROCESSING) [])))) = Ok (bytes "A1=0.00").
Proof.
  apply (run_completes example_manager 5 (example_job PROCESSING) example_date example_rows (example_state PROCESSING)
    example_schedule [] {| wb_Sheet := "Data"; wb_HeaderRow := 1; wb_AccountColumn := "A"; wb_BalanceColumn := "B";
      wb_RateColumn := "C"; wb_Rows := [{| row_Number := 2; row_Account := "A1" |}] |} example_results (bytes "A1=0.00") 200).
  - exact example_runnable.
  - vm_compute. reflexivity.
  - vm_compute. lia.
  - reflexivity.
  - intros a v. unfold example_results, example_rows. split.
    + intros [<- <-]%lookup_singleton_Some. split; [by eexists; vm_compute|]. exists "P1"%string. vm_compute. reflexivity.
    + intros [[c Hc] (p & E)]. apply lookup_singleton_Some in Hc as [<- _]. vm_compute in E. injection E as _ <-. reflexivity.
  - vm_compute. reflexivity.
  - intros Hin. repeat (apply elem_of_cons in Hin as [Hin|Hin]; [discriminate|]). by apply not_elem_of_nil in Hin.
  - intros k Hk. vm_compute in Hk. apply Ok_inj in Hk as <-. vm_compute. reflexivity.
  - cbn. lia.
Defined.
Lemma work_terminates_witness :
  (length example_schedule ≤ 4)%nat ∧
  ∃ rest k, (length rest ≤ 4)%nat ∧ Stop ∉ rest ∧ work_over k = true ∧
    fst (work_steps example_manager example_id example_date (take 2 example_schedule ++ rest) start_work
           (World (example_state PROCESSING) [])) = Ok k.
Proof.
  assert (Stop ∉ example_schedule) as Hns.
  { intros Hin. repeat (apply elem_of_cons in Hin as [Hin|Hin]; [discriminate|]). by apply not_elem_of_nil in Hin. }
  split.
  - apply (work_terminates example_manager (example_job PROCESSING) example_date example_rows (example_state PROCESSING) example_schedule);
      [exact example_runnable|cbn; lia|exact Hns|vm_compute; repeat split; discriminate].
  - apply (work_terminates example_manager (example_job PROCESSING) example_date example_rows (example_state PROCESSING) (take 2 example_schedule));
      [exact example_runnable|cbn; lia|]. intros Hin. apply Hns. by apply (subseteq_take 2).
Defined.
