(* ===== verification/Xlsx.v ===== *)
(** [internal/slik/xlsx.go]: reading the accounts of an uploaded workbook and
    writing their values back into it.

    The container formats come from the standard library and are parameters: what
    the bytes of a ZIP archive hold ([open_zip], [write_zip]) and the XML tokens of
    a text, each with the offsets of the input before and after it ([xml_tokens]).
    Everything that the source does with entries and tokens is defined here.  The
    temporary file of [Patch] is its content. *)
From stdpp Require Import base list gmap strings sorting.
From Stdlib Require Import ZArith Lia Ascii QArith.
From S2P Require Import Prelude GoStrings GoErrors GoSlices GoJSON GoPath SlikJobs.
Local Open Scope Z_scope.

(** ** Archives and XML *)

Record zip_file := {
  zf_name : string;
  zf_size : Z;                       (* UncompressedSize64, as declared *)
  zf_symlink : bool; zf_dir : bool;  (* FileInfo().Mode() *)
  zf_data : res (list ascii)         (* the bytes, or the error of reading them *)
}.
Record attr := { at_space : string; at_local : string; at_value : string }.
Inductive token :=
| StartElement (space local : string) (attrs : list attr)
| EndElement (local : string)
| CharData (text : list ascii)
| OtherToken.
Record placed_token := { pt_start : Z; pt_token : token; pt_end : Z }.
(** The tokens up to the end of the input, or up to an error *)
Definition token_stream : Type := list placed_token * option err.

Record containers := {
  open_zip : list ascii → res (list zip_file);
  write_zip : list zip_file → list ascii;
  xml_tokens : list ascii → token_stream;
  unicode_lower : string → string     (* strings.ToLower outside ASCII *)
}.

(** [xml.Unmarshal] reads the first element of the text. *)
Inductive element := Element (space local : string) (attrs : list attr) (children : list element).
Definition el_space (e : element) : string := match e with Element s _ _ _ => s end.
Definition el_local (e : element) : string := match e with Element _ l _ _ => l end.
Definition el_attrs (e : element) : list attr := match e with Element _ _ a _ => a end.
Definition el_children (e : element) : list element := match e with Element _ _ _ c => c end.

Definition add_child (parent : element) (child : element) : element :=
  Element (el_space parent) (el_local parent) (el_attrs parent) (el_children parent ++ [child]).
Fixpoint build_element (open : list element) (tokens : list placed_token) : option element :=
  match tokens with
  | [] => None
  | t :: rest =>
      match pt_token t with
      | StartElement space local attrs => build_element (Element space local attrs [] :: open) rest
      | EndElement _ =>
          match open with
          | [] => None
          | [e] => Some e
          | e :: parent :: others => build_element (add_child parent e :: others) rest
          end
      | _ => build_element open rest
      end
  end.
(** A field [`xml:"name,attr"`]: the last attribute of that local name; a field
    [`xml:"name"`] of a slice: every child of that local name *)
Definition attr_field (name : string) (e : element) : string :=
  List.fold_left (fun v a => if seqb (at_local a) name then at_value a else v) (el_attrs e) EmptyString.
Definition child_fields (name : string) (e : element) : list element :=
  List.filter (fun c => seqb (el_local c) name) (el_children e).
Definition is_root (space local : string) (e : element) : bool := seqb (el_space e) space && seqb (el_local e) local.

Definition maxZIPEntries : nat := 2048.
Definition maxUncompressed : Z := Z.shiftl 512 20.
Definition maxMember : Z := Z.shiftl 256 20.
Definition spreadsheetNS : string := "http://schemas.openxmlformats.org/spreadsheetml/2006/main".
Definition packageRelsNS : string := "http://schemas.openxmlformats.org/package/2006/relationships".
Definition contentTypesNS : string := "http://schemas.openxmlformats.org/package/2006/content-types".

Definition find_file (files : list zip_file) (name : string) : option zip_file :=
  List.find (fun f => seqb (zf_name f) name) files.
Definition has_file (files : list zip_file) (name : string) : bool :=
  match find_file files name with Some _ => true | None => false end.

Definition readPart (file : zip_file) : res (list ascii) :=
  data ← zf_data file;
  fail_if (maxMember <? Z.of_nat (length data)) (Msg "XLSX member exceeds size limit");;
  Ok data.
Definition read_named (files : list zip_file) (name : string) : res (list ascii) :=
  match find_file files name with Some f => readPart f | None => Fail (Msg "nil file") end.

(** [strings.Replace] with n = 1 *)
Definition replace_first_bytes (old new l : list ascii) : list ascii :=
  match index_of old l with Some i => take i l ++ new ++ drop (i + length old) l | None => l end.
Definition replace_first (s old new : string) : string := of_bytes (replace_first_bytes (bytes old) (bytes new) (bytes s)).

(** ** [openWorkbook] *)

Definition unsafe_entry (file : zip_file) : bool :=
  let cleanName := TrimSuffix (zf_name file) "/" in
  empty cleanName || seqb cleanName ".." || HasPrefix cleanName "/" || Contains cleanName "\" || Contains cleanName ":" ||
  negb (seqb (Clean cleanName) cleanName) || HasPrefix cleanName "../" || Contains cleanName "/../" || zf_symlink file.

Section Xlsx.
Context (c : containers).

Definition ToLower (s : string) : string := to_lower_with (unicode_lower c) s.

(** The loop over the entries: the files accepted so far and their total size, in 64 bits *)
Fixpoint accept_entries (seen : list zip_file) (total : Z) (entries : list zip_file) : res unit :=
  match entries with
  | [] => Ok tt
  | file :: rest =>
      fail_if (unsafe_entry file) (Msg "unsafe XLSX ZIP entry");;
      fail_if (has_file seen (zf_name file)) (Msg "duplicate XLSX ZIP entry");;
      let total' := (total + zf_size file) mod 2 ^ 64 in
      fail_if ((maxMember <? zf_size file) || (maxUncompressed <? total')) (Msg "XLSX expands beyond size limit");;
      fail_if (Contains (ToLower (zf_name file)) "vbaproject") (Msg "VBA workbook is unsupported");;
      accept_entries (seen ++ [file]) total' rest
  end.
Definition required_parts : list string := ["[Content_Types].xml"; "_rels/.rels"; "xl/workbook.xml"; "xl/_rels/workbook.xml.rels"]%string.
Definition openWorkbook (content : list ascii) : res (list zip_file) :=
  files ← open_zip c content;
  fail_if (maxZIPEntries <? length files)%nat (Msg "XLSX has too many ZIP entries");;
  accept_entries [] 0 files;;
  fail_if (negb (forallb (has_file files) required_parts)) (Msg "XLSX missing %s");;
  fail_if (has_file files "xl/vbaProject.bin" || has_file files "EncryptedPackage")
          (Msg "macro or encrypted workbook is unsupported");;
  Ok files.

Definition Unmarshal_xml (message : string) (data : list ascii) : res element :=
  match build_element [] (xml_tokens c data).1 with
  | Some e => Ok e
  | None => Fail (Wrap message (Msg "XML syntax error"))
  end.

(** ** [validateRelationships] *)

Definition relationship_base (name : string) : res string :=
  if seqb name "_rels/.rels" then Ok EmptyString else
  fail_if (negb (Contains name "/_rels/")) (Msg "malformed relationship path %s");;
  Ok (path_Dir (TrimSuffix (replace_first name "/_rels/" "/") ".rels")).
Definition unsafe_resolved (files : list zip_file) (resolved : string) : bool :=
  seqb resolved "." || seqb resolved ".." || HasPrefix resolved "../" ||
  match find_file files resolved with Some f => zf_dir f | None => true end.
(** One relationship: the identifiers seen so far *)
Definition check_relationship (files : list zip_file) (base : string) (seen : list string) (rel : element) : res (list string) :=
  let id := attr_field "Id" rel in
  fail_if (empty id || empty (attr_field "Type" rel) || empty (attr_field "Target" rel) || existsb (seqb id) seen)
          (Msg "malformed relationship in %s");;
  let mode := attr_field "TargetMode" rel in
  if seqb mode "External" then Ok (id :: seen) else
  fail_if (negb (empty mode)) (Msg "unsupported relationship mode in %s");;
  match PathUnescape (attr_field "Target" rel) with
  | None => Fail (Msg "unsafe relationship target in %s")
  | Some target =>
      fail_if (contains_any target ["\"; "?"; "#"]%char) (Msg "unsafe relationship target in %s");;
      let resolved := if HasPrefix target "/" then Clean (path_Join [EmptyString; TrimPrefix target "/"])
                      else Clean (path_Join [base; target]) in
      fail_if (unsafe_resolved files resolved) (Msg "missing or unsafe relationship target in %s");;
      Ok (id :: seen)
  end.
Fixpoint check_relationships (files : list zip_file) (base : string) (seen : list string) (rels : list element) : res unit :=
  match rels with
  | [] => Ok tt
  | rel :: rest => seen' ← check_relationship files base seen rel; check_relationships files base seen' rest
  end.
Definition check_rels_file (files : list zip_file) (file : zip_file) : res unit :=
  if negb (HasSuffix (zf_name file) ".rels") then Ok tt else
  data ← readPart file;
  root ← Unmarshal_xml "malformed relationship XML %s" data;
  fail_if (negb (is_root packageRelsNS "Relationships" root)) (Msg "malformed relationship root %s");;
  base ← relationship_base (zf_name file);
  check_relationships files base [] (child_fields "Relationship" root).
(** The source goes through a map, in any order; the first error in the order of
    the archive stands for whichever it meets first. *)
Fixpoint check_rels_files (files entries : list zip_file) : res unit :=
  match entries with
  | [] => Ok tt
  | file :: rest => check_rels_file files file;; check_rels_files files rest
  end.
Definition validateRelationships (files : list zip_file) : res unit := check_rels_files files files.

(** ** [sheetPaths] *)

Definition check_content_types (types : element) : res unit :=
  fail_if (negb (is_root contentTypesNS "Types" types)) (Msg "invalid XLSX content types root");;
  let overrides := child_fields "Override" types in
  fail_if (existsb (fun part => Contains (attr_field "ContentType" part) "macroEnabled") overrides)
          (Msg "macro-enabled workbook is unsupported");;
  fail_if (negb (existsb (fun part => seqb (attr_field "PartName" part) "/xl/workbook.xml" &&
                   seqb (attr_field "ContentType" part) "application/vnd.openxmlformats-officedocument.spreadsheetml.sheet.main+xml") overrides))
          (Msg "XLSX workbook content type is missing or unsupported").
Definition check_root_rels (root : element) : res unit :=
  fail_if (negb (is_root packageRelsNS "Relationships" root)) (Msg "invalid package relationships root");;
  fail_if (negb (existsb (fun rel => HasSuffix (attr_field "Type" rel) "/officeDocument" && empty (attr_field "TargetMode" rel) &&
                   (seqb (attr_field "Target" rel) "xl/workbook.xml" || seqb (attr_field "Target" rel) "/xl/workbook.xml"))
                   (child_fields "Relationship" root)))
          (Msg "XLSX package has no valid workbook relationship").

(** The part behind a worksheet relationship *)
Definition worksheet_name (files : list zip_file) (rel : element) : res string :=
  match PathUnescape (attr_field "Target" rel) with
  | None => Fail (Msg "unsafe worksheet relationship")
  | Some target =>
      fail_if (negb (empty (attr_field "TargetMode" rel)) || empty target || contains_any target ["\"; "?"; "#"]%char ||
               Contains ("/" ++ target ++ "/") "/../") (Msg "unsafe worksheet relationship");;
      let memberTarget := TrimPrefix target "/" in
      fail_if (negb (seqb (Clean memberTarget) memberTarget)) (Msg "unsafe worksheet relationship");;
      let name := if HasPrefix target "/" then memberTarget else path_Join ["xl"%string; memberTarget] in
      fail_if (negb (HasPrefix name "xl/worksheets/") || negb (has_file files name)) (Msg "missing or unsafe worksheet target");;
      Ok name
  end.
Fixpoint worksheets_by_id (files : list zip_file) (seen : list string) (byID : gmap string string) (rels : list element)
    : res (gmap string string) :=
  match rels with
  | [] => Ok byID
  | rel :: rest =>
      let id := attr_field "Id" rel in
      fail_if (empty id || existsb (seqb id) seen) (Msg "duplicate or invalid workbook relationship");;
      if negb (HasSuffix (attr_field "Type" rel) "/worksheet") then worksheets_by_id files (id :: seen) byID rest else
      name ← worksheet_name files rel;
      worksheets_by_id files (id :: seen) (<[id := name]> byID) rest
  end.
Fixpoint paths_of (byID : gmap string string) (sheets : list element) : res (list string) :=
  match sheets with
  | [] => Ok []
  | sheet :: rest =>
      let name := default EmptyString (byID !! attr_field "id" sheet) in
      fail_if (empty name) (Msg "malformed worksheet relationship");;
      paths ← paths_of byID rest; Ok (name :: paths)
  end.
Definition sheetPaths (files : list zip_file) : res (list string) :=
  contentTypes ← read_named files "[Content_Types].xml";
  types ← Unmarshal_xml "invalid XLSX content types: %w" contentTypes;
  check_content_types types;;
  rootRels ← read_named files "_rels/.rels";
  root ← Unmarshal_xml "invalid package relationships: %w" rootRels;
  check_root_rels root;;
  workbook ← read_named files "xl/workbook.xml";
  relations ← read_named files "xl/_rels/workbook.xml.rels";
  sheets ← Unmarshal_xml "invalid workbook XML: %w" workbook;
  fail_if (negb (is_root spreadsheetNS "workbook" sheets)) (Msg "invalid workbook XML root");;
  rels ← Unmarshal_xml "invalid workbook relationships: %w" relations;
  fail_if (negb (is_root packageRelsNS "Relationships" rels)) (Msg "invalid workbook relationships root");;
  byID ← worksheets_by_id files [] ∅ (child_fields "Relationship" rels);
  let elements := flat_map (child_fields "sheet") (child_fields "sheets" sheets) in
  fail_if (bool_decide (length elements = 0%nat)) (Msg "workbook contains no worksheets");;
  paths_of byID elements.

(** ** [sharedStrings] and [numberFormats] *)

(** [attribute]: the first attribute of that local name *)
Fixpoint attribute (attrs : list attr) (name : string) : string :=
  match attrs with
  | [] => EmptyString
  | a :: rest => if seqb (at_local a) name then at_value a else attribute rest name
  end.

(** The loop [for { token, err := decoder.Token() ... }]: a step for each token *)
Fixpoint token_loop {S} (step : placed_token → S → res S) (tokens : list placed_token) (s : S) : res S :=
  match tokens with
  | [] => Ok s
  | t :: rest => s' ← step t s; token_loop step rest s'
  end.
Definition decode {S} (message : string) (step : placed_token → S → res S) (data : list ascii) (s : S) : res S :=
  let '(tokens, last) := xml_tokens c data in
  s' ← token_loop step tokens s;
  match last with Some e => Fail (Wrap message e) | None => Ok s' end.

Record strings_state := {
  ss_result : list string; ss_text : list ascii;
  ss_inString : bool; ss_inText : bool; ss_inPhonetic : bool; ss_rootSeen : bool
}.
Definition strings_step (t : placed_token) (s : strings_state) : res strings_state :=
  match pt_token t with
  | StartElement space local _ =>
      fail_if (negb (ss_rootSeen s) && negb (seqb space spreadsheetNS && seqb local "sst")) (Msg "invalid shared strings XML root");;
      let inString := seqb local "si" || ss_inString s in
      let inPhonetic := (inString && seqb local "rPh") || ss_inPhonetic s in
      Ok {| ss_result := ss_result s; ss_text := if seqb local "si" then [] else ss_text s; ss_inString := inString;
            ss_inText := (inString && negb inPhonetic && seqb local "t") || ss_inText s; ss_inPhonetic := inPhonetic;
            ss_rootSeen := true |}
  | CharData text =>
      Ok {| ss_result := ss_result s; ss_text := if ss_inText s then ss_text s ++ text else ss_text s;
            ss_inString := ss_inString s; ss_inText := ss_inText s; ss_inPhonetic := ss_inPhonetic s; ss_rootSeen := ss_rootSeen s |}
  | EndElement local =>
      Ok {| ss_result := if seqb local "si" then ss_result s ++ [of_bytes (ss_text s)] else ss_result s; ss_text := ss_text s;
            ss_inString := negb (seqb local "si") && ss_inString s; ss_inText := negb (seqb local "t") && ss_inText s;
            ss_inPhonetic := negb (seqb local "rPh") && ss_inPhonetic s; ss_rootSeen := ss_rootSeen s |}
  | OtherToken => Ok s
  end.
Definition sharedStrings (files : list zip_file) : res (list string) :=
  match find_file files "xl/sharedStrings.xml" with
  | None => Ok []
  | Some file =>
      data ← readPart file;
      s ← decode "invalid shared strings XML: %w" strings_step data
            {| ss_result := []; ss_text := []; ss_inString := false; ss_inText := false; ss_inPhonetic := false; ss_rootSeen := false |};
      fail_if (negb (ss_rootSeen s)) (Msg "empty shared strings XML");;
      Ok (ss_result s)
  end.

(** [id, _ := strconv.Atoi(s)]: 0 for what is no integer, the nearest 64-bit
    integer for one out of range *)
Definition atoi_ignoring (s : string) : Z :=
  match Atoi s with
  | Some n => n
  | None =>
      let digits := match bytes s with a :: l => if beq a "-" || beq a "+" then l else a :: l | [] => [] end in
      if bool_decide (digits = []) || negb (forallb is_digit digits) then 0 else
      if HasPrefix s "-" then min_int64 else max_int64
  end.
Record formats_state := { fs_formats : list string; fs_custom : gmap Z string; fs_inXfs : bool; fs_rootSeen : bool }.
Definition formats_step (t : placed_token) (s : formats_state) : res formats_state :=
  match pt_token t with
  | StartElement space local attrs =>
      fail_if (negb (fs_rootSeen s) && negb (seqb space spreadsheetNS && seqb local "styleSheet")) (Msg "invalid styles XML root");;
      Ok {| fs_formats := if seqb local "xf" && fs_inXfs s then fs_formats s ++ [attribute attrs "numFmtId"] else fs_formats s;
            fs_custom := if seqb local "numFmt"
                         then <[atoi_ignoring (attribute attrs "numFmtId") := attribute attrs "formatCode"]> (fs_custom s)
                         else fs_custom s;
            fs_inXfs := seqb local "cellXfs" || fs_inXfs s; fs_rootSeen := true |}
  | EndElement local =>
      Ok {| fs_formats := fs_formats s; fs_custom := fs_custom s; fs_inXfs := negb (seqb local "cellXfs") && fs_inXfs s;
            fs_rootSeen := fs_rootSeen s |}
  | _ => Ok s
  end.
Definition numberFormats (files : list zip_file) : res (list string * gmap Z string) :=
  match find_file files "xl/styles.xml" with
  | None => Ok ([], ∅)
  | Some file =>
      data ← readPart file;
      s ← decode "invalid styles XML: %w" formats_step data
            {| fs_formats := []; fs_custom := ∅; fs_inXfs := false; fs_rootSeen := false |};
      fail_if (negb (fs_rootSeen s)) (Msg "empty styles XML");;
      Ok (fs_formats s, fs_custom s)
  end.

(** ** [walkSheet] *)

Record cell := {
  ce_Ref : string; ce_Column : string; ce_Type : string; ce_Style : string; ce_Value : string;
  ce_Start : Z; ce_End : Z; ce_Formula : bool
}.
Definition is_upper (a : ascii) : bool := (65 <=? code a) && (code a <=? 90).
Fixpoint span (f : ascii → bool) (l : list ascii) : list ascii * list ascii :=
  match l with
  | [] => ([], [])
  | a :: l' => if f a then let '(run, rest) := span f l' in (a :: run, rest) else ([], l)
  end.
(** The expression [cellReference]: upper-case letters, then a number without a leading zero *)
Definition cellReference (ref : string) : option (string * string) :=
  let '(letters, digits) := span is_upper (bytes ref) in
  match digits with
  | d :: rest =>
      if bool_decide (letters = []) || negb (is_digit d) || beq d "0" || negb (forallb is_digit rest) then None
      else Some (of_bytes letters, of_bytes digits)
  | [] => None
  end.
Definition columnIndex (letters : string) : Z :=
  List.fold_left (fun index letter => index * 26 + (code letter - 65 + 1)) (bytes letters) 0.

Record walk_state := {
  ws_row : Z; ws_lastRow : Z; ws_cells : list cell; ws_current : option cell;
  ws_inValue : bool; ws_inText : bool; ws_rootSeen : bool
}.
Definition start_walk : walk_state := {|
  ws_row := 0; ws_lastRow := 0; ws_cells := []; ws_current := None; ws_inValue := false; ws_inText := false; ws_rootSeen := false |}.
Definition with_value (value : cell) (text : list ascii) : cell :=
  {| ce_Ref := ce_Ref value; ce_Column := ce_Column value; ce_Type := ce_Type value; ce_Style := ce_Style value;
     ce_Value := of_bytes (bytes (ce_Value value) ++ text); ce_Start := ce_Start value; ce_End := ce_End value;
     ce_Formula := ce_Formula value |}.
Definition with_formula (value : cell) : cell :=
  {| ce_Ref := ce_Ref value; ce_Column := ce_Column value; ce_Type := ce_Type value; ce_Style := ce_Style value;
     ce_Value := ce_Value value; ce_Start := ce_Start value; ce_End := ce_End value; ce_Formula := true |}.
Definition with_end (value : cell) (e : Z) : cell :=
  {| ce_Ref := ce_Ref value; ce_Column := ce_Column value; ce_Type := ce_Type value; ce_Style := ce_Style value;
     ce_Value := ce_Value value; ce_Start := ce_Start value; ce_End := e; ce_Formula := ce_Formula value |}.

(** [case xml.StartElement] of a row, of a cell and inside a cell *)
Definition open_row (attrs : list attr) (w : walk_state) : res walk_state :=
  match Atoi (attribute attrs "r") with
  | None => Fail (Msg "worksheet row lacks valid number")
  | Some row =>
      fail_if ((row <? 1) || (1048576 <? row) || (row <=? ws_lastRow w)) (Msg "worksheet row lacks valid number");;
      Ok {| ws_row := row; ws_lastRow := row; ws_cells := []; ws_current := ws_current w; ws_inValue := ws_inValue w;
            ws_inText := ws_inText w; ws_rootSeen := true |}
  end.
Definition new_cell (attrs : list attr) (start : Z) (letters : string) : cell := {|
  ce_Ref := attribute attrs "r"; ce_Column := letters; ce_Type := attribute attrs "t"; ce_Style := attribute attrs "s";
  ce_Value := EmptyString; ce_Start := start; ce_End := 0; ce_Formula := false |}.
Definition open_cell (attrs : list attr) (start : Z) (w : walk_state) : res walk_state :=
  match cellReference (attribute attrs "r") with
  | None => Fail (Msg "worksheet cell lacks valid reference")
  | Some (letters, digits) =>
      fail_if ((3 <? slen letters) || (16384 <? columnIndex letters) || negb (seqb digits (Itoa (ws_row w))))
              (Msg "worksheet cell lacks valid reference");;
      Ok {| ws_row := ws_row w; ws_lastRow := ws_lastRow w; ws_cells := ws_cells w;
            ws_current := Some (new_cell attrs start letters);
            ws_inValue := ws_inValue w; ws_inText := ws_inText w; ws_rootSeen := true |}
  end.
Definition inside_cell (local : string) (w : walk_state) : walk_state :=
  match ws_current w with
  | None => w
  | Some value =>
      {| ws_row := ws_row w; ws_lastRow := ws_lastRow w; ws_cells := ws_cells w;
         ws_current := Some (if seqb local "f" then with_formula value else value);
         ws_inValue := seqb local "v" || ws_inValue w;
         ws_inText := (seqb local "t" && seqb (ce_Type value) "inlineStr") || ws_inText w; ws_rootSeen := ws_rootSeen w |}
  end.
Definition see_root (w : walk_state) : walk_state :=
  {| ws_row := ws_row w; ws_lastRow := ws_lastRow w; ws_cells := ws_cells w; ws_current := ws_current w;
     ws_inValue := ws_inValue w; ws_inText := ws_inText w; ws_rootSeen := true |}.
Definition open_element (space local : string) (attrs : list attr) (start : Z) (w : walk_state) : res walk_state :=
  fail_if (negb (ws_rootSeen w) && negb (seqb space spreadsheetNS && seqb local "worksheet")) (Msg "invalid worksheet XML root");;
  if seqb local "row" then open_row attrs w else
  if seqb local "c" then open_cell attrs start w else Ok (see_root (inside_cell local w)).
Definition add_text (text : list ascii) (w : walk_state) : walk_state :=
  match ws_current w with
  | Some value =>
      if ws_inValue w || ws_inText w then
        {| ws_row := ws_row w; ws_lastRow := ws_lastRow w; ws_cells := ws_cells w; ws_current := Some (with_value value text);
           ws_inValue := ws_inValue w; ws_inText := ws_inText w; ws_rootSeen := ws_rootSeen w |}
      else w
  | None => w
  end.
(** [case xml.EndElement] other than the end of a row *)
Definition close_element (local : string) (e : Z) (w : walk_state) : walk_state :=
  let closes := seqb local "c" && match ws_current w with Some _ => true | None => false end in
  {| ws_row := ws_row w; ws_lastRow := ws_lastRow w;
     ws_cells := match ws_current w with
                 | Some value => if seqb local "c" then ws_cells w ++ [with_end value e] else ws_cells w
                 | None => ws_cells w
                 end;
     ws_current := if closes then None else ws_current w;
     ws_inValue := negb (seqb local "v") && ws_inValue w; ws_inText := negb (seqb local "t") && ws_inText w;
     ws_rootSeen := ws_rootSeen w |}.
Fixpoint duplicate_refs (cells : list cell) : bool :=
  match cells with
  | [] => false
  | value :: rest => existsb (fun other => seqb (ce_Ref other) (ce_Ref value)) rest || duplicate_refs rest
  end.

(** [visit] works on the variables of its closure, a state of type [S]. *)
Definition visitor (S : Type) : Type := Z → list cell → Z → S → res S.
Definition walk_step {S} (visit : visitor S) (t : placed_token) (ws : walk_state * S) : res (walk_state * S) :=
  let '(w, s) := ws in
  match pt_token t with
  | StartElement space local attrs => w' ← open_element space local attrs (pt_start t) w; Ok (w', s)
  | CharData text => Ok (add_text text w, s)
  | EndElement local =>
      if seqb local "row" then
        fail_if (duplicate_refs (ws_cells w)) (Msg "duplicate worksheet cell");;
        s' ← visit (ws_row w) (ws_cells w) (pt_start t) s;
        Ok (w, s')
      else Ok (close_element local (pt_end t) w, s)
  | OtherToken => Ok (w, s)
  end.
Definition walkSheet {S} (data : list ascii) (visit : visitor S) (s : S) : res S :=
  ws ← decode "invalid worksheet XML: %w" (walk_step visit) data (start_walk, s);
  fail_if (negb (ws_rootSeen ws.1)) (Msg "empty worksheet XML");;
  Ok ws.2.

(** ** The values of cells *)

Definition textValue (value : cell) (shared : list string) : res string :=
  if negb (seqb (ce_Type value) "s") then Ok (ce_Value value) else
  match Atoi (TrimSpace (ce_Value value)) with
  | Some index =>
      fail_if ((index <? 0) || (Z.of_nat (length shared) <=? index)) (Msg "invalid shared-string index");;
      Ok (default EmptyString (shared !! Z.to_nat index))
  | None => Fail (Msg "invalid shared-string index")
  end.
Definition integerValue (s : string) : bool :=
  let n := length (bytes s) in (1 <=? n)%nat && (n <=? 15)%nat && forallb is_digit (bytes s).

(** The number format of a cell's style *)
Definition account_format (style : string) (formats : list string) (custom : gmap Z string) : res string :=
  index ← (if empty style then Ok 0 else
           match Atoi style with
           | Some n => if n <? 0 then Fail (Msg "invalid account cell style") else Ok n
           | None => Fail (Msg "invalid account cell style")
           end);
  fail_if ((Z.of_nat (length formats) <=? index) && negb (empty style)) (Msg "missing account number format");;
  match formats !! Z.to_nat index with
  | None => Ok "General"%string
  | Some format =>
      let id := atoi_ignoring format in
      Ok (if id =? 0 then "General"%string else if id =? 1 then "0"%string else default EmptyString (custom !! id))
  end.
Definition account_digits (value : string) : list ascii :=
  match drop_while_eq "0" (bytes value) with [] => ["0"%char] | digits => digits end.
Definition accountValue (value : cell) (shared : list string) (formats : list string) (custom : gmap Z string) : res string :=
  fail_if (ce_Formula value) (Msg "formula account cell is unsupported");;
  if seqb (ce_Type value) "s" || seqb (ce_Type value) "inlineStr" || seqb (ce_Type value) "str"
  then text ← textValue value shared; Ok (TrimSpace text) else
  fail_if (negb (empty (ce_Type value)) && negb (seqb (ce_Type value) "n")) (Msg "unsupported account cell type");;
  fail_if (negb (integerValue (ce_Value value))) (Msg "ambiguous numeric account cell");;
  let digits := account_digits (ce_Value value) in
  format ← account_format (ce_Style value) formats custom;
  if seqb format "General" then Ok (of_bytes digits) else
  fail_if (empty format || negb (forallb (beq "0") (bytes format))) (Msg "ambiguous numeric account format");;
  Ok (of_bytes (pad_left "0" (length (bytes format)) digits)).

(** ** [Inspect] *)

(** The scan of every member: the bytes read so far *)
Definition is_xml_member (name : string) : bool := HasSuffix name ".xml" || HasSuffix name ".rels".
Fixpoint scan_members (scanned : Z) (files : list zip_file) : res unit :=
  match files with
  | [] => Ok tt
  | file :: rest =>
      data ← zf_data file;
      let size := Z.of_nat (length data) in
      fail_if ((maxMember <? size) || (maxUncompressed <? scanned + size)) (Msg "XLSX expands beyond size limit");;
      match (if is_xml_member (zf_name file) then snd (xml_tokens c data) else None) with
      | Some e => Fail (Wrap "invalid XLSX member %s: %w" e)
      | None => scan_members (scanned + size) rest
      end
  end.

Definition slik_header (text : string) : bool :=
  seqb text "nomorekeningfasilitas" || seqb text "bakidebet" || seqb text "sukubungaimbalan".
Definition byte_order_mark : string := of_bytes [chr 239; chr 187; chr 191].
Definition header_text (text : string) : string := ToLower (TrimSpace (TrimPrefix (TrimSpace text) byte_order_mark)).
(** The headers among the cells of a row, by name, and whether one comes twice *)
Fixpoint row_headers (cells : list cell) (shared : list string) (headers : gmap string string) (duplicate : bool)
    : res (gmap string string * bool) :=
  match cells with
  | [] => Ok (headers, duplicate)
  | value :: rest =>
      text ← textValue value shared;
      let name := header_text text in
      if slik_header name
      then row_headers rest shared (<[name := ce_Column value]> headers)
             (duplicate || negb (empty (default EmptyString (headers !! name))))
      else row_headers rest shared headers duplicate
  end.
Definition no_workbook : Workbook := {| wb_Sheet := EmptyString; wb_HeaderRow := 0; wb_AccountColumn := EmptyString;
  wb_BalanceColumn := EmptyString; wb_RateColumn := EmptyString; wb_Rows := [] |}.
Definition header_visit (sheet : string) (shared : list string) : visitor Workbook := fun row cells _ candidate =>
  headers ← row_headers cells shared ∅ false;
  if negb (size headers.1 =? 3)%nat then Ok candidate else
  fail_if (headers.2 : bool) (Msg "duplicate SLIK header");;
  fail_if (negb (wb_HeaderRow candidate =? 0)) (Msg "multiple SLIK header rows");;
  let column := fun name => default EmptyString (headers.1 !! name) in
  Ok {| wb_Sheet := sheet; wb_HeaderRow := row; wb_AccountColumn := column "nomorekeningfasilitas"%string;
        wb_BalanceColumn := column "bakidebet"%string; wb_RateColumn := column "sukubungaimbalan"%string; wb_Rows := [] |}.
Fixpoint select_sheet (files : list zip_file) (shared : list string) (paths : list string) (selected : Workbook) : res Workbook :=
  match paths with
  | [] => Ok selected
  | name :: rest =>
      data ← read_named files name;
      candidate ← walkSheet data (header_visit name shared) no_workbook;
      if wb_HeaderRow candidate =? 0 then select_sheet files shared rest selected else
      fail_if (negb (wb_HeaderRow selected =? 0)) (Msg "multiple worksheets contain SLIK headers");;
      select_sheet files shared rest candidate
  end.

Definition unsupported_target (workbook : Workbook) (value : cell) : bool :=
  (seqb (ce_Column value) (wb_BalanceColumn workbook) || seqb (ce_Column value) (wb_RateColumn workbook)) &&
  (ce_Formula value || negb (existsb (seqb (ce_Type value)) [EmptyString; "n"; "s"; "str"; "inlineStr"]%string)).
Definition with_row (workbook : Workbook) (row : Row) : Workbook :=
  {| wb_Sheet := wb_Sheet workbook; wb_HeaderRow := wb_HeaderRow workbook; wb_AccountColumn := wb_AccountColumn workbook;
     wb_BalanceColumn := wb_BalanceColumn workbook; wb_RateColumn := wb_RateColumn workbook;
     wb_Rows := wb_Rows workbook ++ [row] |}.
(** The first cell of the account column *)
Definition account_cell (workbook : Workbook) (cells : list cell) : option cell :=
  List.find (fun value => seqb (ce_Column value) (wb_AccountColumn workbook)) cells.
Definition rows_visit (shared : list string) (formats : list string) (custom : gmap Z string) : visitor Workbook :=
  fun row cells _ selected =>
    if row <=? wb_HeaderRow selected then Ok selected else
    account ← match account_cell selected cells with
              | None => Ok EmptyString
              | Some value => match accountValue value shared formats custom with
                              | Ok account => Ok account
                              | Fail e => Fail (Wrap "row %d: %w" e)
                              end
              end;
    if empty account then Ok selected else
    fail_if (existsb (unsupported_target selected) cells) (Msg "row %d has an unsupported target cell: %+v");;
    Ok (with_row selected {| row_Number := row; row_Account := account |}).

Definition Inspect_files (files : list zip_file) : res Workbook :=
  validateRelationships files;;
  scan_members 0 files;;
  paths ← sheetPaths files;
  shared ← sharedStrings files;
  formats ← numberFormats files;
  selected ← select_sheet files shared paths no_workbook;
  fail_if (wb_HeaderRow selected =? 0) (Msg "no worksheet contains all SLIK headers");;
  data ← read_named files (wb_Sheet selected);
  selected' ← walkSheet data (rows_visit shared formats.1 formats.2) selected;
  fail_if (bool_decide (length (wb_Rows selected') = 0%nat)) (Msg "SLIK worksheet contains no account rows");;
  Ok selected'.
Definition Inspect (content : list ascii) (originalName : string) : res Workbook :=
  fail_if (negb (bool_decide (fold_name (bytes (path_Ext originalName)) = fold_name (bytes ".xlsx"))))
          (Msg "only .xlsx files are accepted");;
  files ← openWorkbook content;
  Inspect_files files.

(** ** [patchCell]

    The regular expressions of [<v>] and [<is>] match the tag's name, then either
    the empty element's end at once, or the shortest way to the closing tag, after
    attributes if white space follows the name.  The attributes are taken greedily,
    so that a closing tag further on is preferred to the end of an empty element. *)

Definition re_space (a : ascii) : bool := existsb (Z.eqb (code a)) [9; 10; 12; 13; 32].
Definition closing_tag (name : list ascii) : list ascii := bytes "</" ++ name ++ bytes ">".
Definition after_pattern (pattern l : list ascii) : option (list ascii) :=
  i ← index_of pattern l; Some (drop (i + length pattern) l).
(** What follows a match of the element's expression at the beginning of [l] *)
Definition match_element (name l : list ascii) : option (list ascii) :=
  if negb (has_prefix_bytes l ("<"%char :: name)) then None else
  match drop (S (length name)) l with
  | [] => None
  | a :: r =>
      if re_space a then
        let '(run, rest) := span (fun b => negb (beq b ">")) r in
        match rest with
        | [] => None
        | _ :: rest' =>
            match after_pattern (closing_tag name) rest' with
            | Some t => Some t
            | None => if bool_decide (last run = Some "/"%char) then Some rest' else None
            end
        end
      else if has_prefix_bytes (a :: r) (bytes "/>") then Some (drop 2 (a :: r))
      else if beq a ">" then after_pattern (closing_tag name) r
      else None
  end.
(** [MatchString] and [ReplaceAllString]; the replacements hold no [$] *)
Fixpoint matches (m : list ascii → option (list ascii)) (l : list ascii) : bool :=
  match m l with Some _ => true | None => match l with [] => false | _ :: l' => matches m l' end end.
Fixpoint replace_matches (fuel : nat) (m : list ascii → option (list ascii)) (new l : list ascii) : list ascii :=
  match fuel with
  | O => l
  | S fuel' =>
      match m l with
      | Some rest => new ++ replace_matches fuel' m new rest
      | None => match l with [] => [] | a :: l' => a :: replace_matches fuel' m new l' end
      end
  end.
Definition replace_all_matches (m : list ascii → option (list ascii)) (new l : list ascii) : list ascii :=
  replace_matches (S (length l)) m new l.
Definition valueElement : list ascii → option (list ascii) := match_element (bytes "v").
Definition inlineElement : list ascii → option (list ascii) := match_element (bytes "is").
Definition double_quote : ascii := chr 34.
Definition single_quote : ascii := chr 39.
Definition quote_str : list ascii := [chr 34].
(** White space, then the attribute [t] with a value in quotes of either kind *)
Definition typeAttribute (l : list ascii) : option (list ascii) :=
  let '(spaces, r) := span re_space l in
  if bool_decide (spaces = []) || negb (has_prefix_bytes r (bytes "t=")) then None else
  match drop 2 r with
  | q :: r' =>
      if beq q double_quote || beq q single_quote then
        match span (fun b => negb (beq b q)) r' with
        | (_, _ :: rest) => Some rest
        | (_, []) => None
        end
      else None
  | [] => None
  end.

Definition slice (data : list ascii) (from to : Z) : list ascii := take (Z.to_nat (to - from)) (drop (Z.to_nat from) data).
Definition element_bytes (name content : list ascii) : list ascii :=
  bytes "<" ++ name ++ bytes ">" ++ content ++ closing_tag name.
Definition raw_cell (data : list ascii) (value : cell) : list ascii :=
  let raw := slice data (ce_Start value) (ce_End value) in
  if has_prefix_bytes (rev raw) (rev (bytes "/>")) then take (length raw - 2) raw ++ bytes "></c>" else raw.
(** The type of a text cell becomes that of an inline text, in the start tag. *)
Definition inline_type (raw : list ascii) : res (list ascii) :=
  match index_of (bytes ">") raw with
  | None => Fail (Msg "slice bounds out of range")
  | Some e => Ok (replace_all_matches typeAttribute (bytes " t=" ++ quote_str ++ bytes "inlineStr" ++ quote_str) (take e raw) ++ drop e raw)
  end.
Definition patchCell (data : list ascii) (value : cell) (amount : string) : res (list ascii) :=
  fail_if (ce_Formula value) (Msg "target formula cell is unsupported");;
  let raw := raw_cell data value in
  if seqb (ce_Type value) "s" || seqb (ce_Type value) "inlineStr" || seqb (ce_Type value) "str" then
    raw' ← (if seqb (ce_Type value) "inlineStr" then Ok raw else inline_type raw);
    let newValue := element_bytes (bytes "is") (element_bytes (bytes "t") (bytes amount)) in
    if matches inlineElement raw' then Ok (replace_all_matches inlineElement newValue raw')
    else if matches valueElement raw' then Ok (replace_all_matches valueElement newValue raw')
    else Ok (replace_first_bytes (bytes "</c>") (newValue ++ bytes "</c>") raw')
  else
    fail_if (negb (empty (ce_Type value)) && negb (seqb (ce_Type value) "n")) (Msg "unsupported target cell type");;
    let newValue := element_bytes (bytes "v") (bytes amount) in
    if matches valueElement raw then Ok (replace_all_matches valueElement newValue raw)
    else Ok (replace_first_bytes (bytes "</c>") (newValue ++ bytes "</c>") raw).

(** ** [writeSheet] *)

Record change := { ch_start : Z; ch_end : Z; ch_data : list ascii }.
(** The account of a row: of two rows with one number the later counts *)
Definition byRow (rows : list Row) : gmap Z string :=
  List.fold_left (fun m row => <[row_Number row := row_Account row]> m) rows ∅.
Definition insert_position (rowEnd : Z) (cells : list cell) (column : string) : Z :=
  match List.find (fun existing => columnIndex column <? columnIndex (ce_Column existing)) cells with
  | Some existing => ce_Start existing
  | None => rowEnd
  end.
Definition new_cell_bytes (column : string) (row : Z) (value : string) : list ascii :=
  bytes "<c r=" ++ quote_str ++ bytes column ++ itoa row ++ quote_str ++ bytes ">" ++ element_bytes (bytes "v") (bytes value) ++ bytes "</c>".
Definition target_change (data : list ascii) (row rowEnd : Z) (cells : list cell) (target : string * string) : res change :=
  match List.find (fun value => seqb (ce_Column value) target.1) cells with
  | Some value =>
      match patchCell data value target.2 with
      | Ok patched => Ok {| ch_start := ce_Start value; ch_end := ce_End value; ch_data := patched |}
      | Fail e => Fail (Wrap "row %d: %w" e)
      end
  | None =>
      let position := insert_position rowEnd cells target.1 in
      Ok {| ch_start := position; ch_end := position; ch_data := new_cell_bytes target.1 row target.2 |}
  end.
Definition column_order (x y : string * string) : bool := columnIndex x.1 <=? columnIndex y.1.
(** [sort.Slice] of two targets by column: the order of equal columns is its own *)
Definition targets (workbook : Workbook) (result : Values) : list (string * string) :=
  SortStableFunc column_order [(wb_BalanceColumn workbook, Balance result); (wb_RateColumn workbook, Rate result)].
Fixpoint target_changes (data : list ascii) (row rowEnd : Z) (cells : list cell) (l : list (string * string)) : res (list change) :=
  match l with
  | [] => Ok []
  | target :: rest =>
      this ← target_change data row rowEnd cells target;
      others ← target_changes data row rowEnd cells rest;
      Ok (this :: others)
  end.
Definition changes_visit (data : list ascii) (workbook : Workbook) (results : gmap string Values) : visitor (list change) :=
  fun row cells rowEnd changes =>
    let account := default EmptyString (byRow (wb_Rows workbook) !! row) in
    if empty account then Ok changes else
    match results !! account with
    | None => Fail (Msg "missing result for account row %d")
    | Some result => more ← target_changes data row rowEnd cells (targets workbook result); Ok (changes ++ more)
    end.
(** The copy of the text with the changes in their places *)
Fixpoint write_changes (data : list ascii) (offset : Z) (changes : list change) : res (list ascii) :=
  match changes with
  | [] => Ok (drop (Z.to_nat offset) data)
  | change :: rest =>
      fail_if (ch_start change <? offset) (Msg "overlapping XLSX cell patches");;
      out ← write_changes data (ch_end change) rest;
      Ok (slice data offset (ch_start change) ++ ch_data change ++ out)
  end.
Definition by_start (x y : change) : bool := ch_start x <=? ch_start y.
Definition writeSheet (data : list ascii) (workbook : Workbook) (results : gmap string Values) : res (list ascii) :=
  changes ← walkSheet data (changes_visit data workbook results) [];
  write_changes data 0 (SortStableFunc by_start changes).

(** ** [Patch] *)

Definition patched_file (sheet : string) (data : list ascii) (file : zip_file) : zip_file :=
  if seqb (zf_name file) sheet
  then {| zf_name := zf_name file; zf_size := Z.of_nat (length data); zf_symlink := zf_symlink file; zf_dir := zf_dir file;
          zf_data := Ok data |}
  else file.
Definition Patch (input : list ascii) (workbook : Workbook) (results : gmap string Values) : res (list ascii) :=
  files ← openWorkbook input;
  match find_file files (wb_Sheet workbook) with
  | None => Fail (Msg "SLIK worksheet missing")
  | Some sheet =>
      data ← readPart sheet;
      patched ← writeSheet data workbook results;
      let output := write_zip c (patched_file (wb_Sheet workbook) patched <$> files) in
      match Inspect output "verified.xlsx" with
      | Ok _ => Ok output
      | Fail e => Fail (Wrap "generated XLSX validation: %w" e)
      end
  end.
End Xlsx.
