(* ===== verification/XlsxFacts.v ===== *)
(** What the workbook code of Xlsx.v guarantees: which archives and workbooks it
    accepts, and that writing values back touches nothing but the target cells. *)
From stdpp Require Import base list gmap strings sorting.
From Stdlib Require Import ZArith Lia Ascii QArith.
From S2P Require Import Prelude GoStrings GoErrors GoSlices GoJSON GoPath SlikJobs Xlsx.
Local Open Scope Z_scope.

(** ** Archives *)

Lemma has_file_in files name : has_file files name = true ↔ ∃ f, f ∈ files ∧ zf_name f = name.
Proof.
  unfold has_file, find_file. destruct (List.find _ files) as [f|] eqn:E.
  - apply List.find_some in E as [Hin Hn]. apply seqb_eq in Hn. split; [|done]. intros _. exists f. split; [|done].
    by apply list_elem_of_In.
  - split; [done|]. intros (f & Hin & <-). apply list_elem_of_In in Hin. pose proof (List.find_none _ _ E _ Hin) as Hf.
    cbn in Hf. apply seqb_neq in Hf. done.
Qed.

(** A name that stays inside the directory it is unpacked to *)
Definition safe_name (name : string) : Prop :=
  let clean := TrimSuffix name "/" in
  clean ≠ EmptyString ∧ HasPrefix clean "/" = false ∧ Contains clean "\" = false ∧ Contains clean ":" = false ∧
  dotdot_part ∉ split_byte slash (bytes clean).

Lemma safe_entry file : unsafe_entry file = false → safe_name (zf_name file) ∧ zf_symlink file = false.
Proof.
  unfold unsafe_entry, safe_name. remember (TrimSuffix (zf_name file) "/") as clean eqn:Ec. clear Ec.
  rewrite !orb_false_iff, negb_false_iff. intros ((((((((H1 & H2) & H3) & H4) & H5) & H6) & H7) & H8) & H9).
  apply seqb_neq in H1, H2. apply seqb_eq in H6. split_and!; try done.
  apply clean_no_dotdot; [|done| |done].
  - unfold Clean in H6. apply (f_equal bytes) in H6. by rewrite bytes_of_bytes in H6.
  - intros E. apply H2. by apply bytes_inj.
Qed.

Lemma maxUncompressed_value : maxUncompressed = 536870912.
Proof. done. Qed.
Lemma maxMember_value : maxMember = 268435456.
Proof. done. Qed.
Definition total_size (files : list zip_file) : Z := fold_right Z.add 0 (zf_size <$> files).

Lemma accept_entries_ok c seen total entries :
  0 ≤ total ≤ maxUncompressed → Forall (λ f, 0 ≤ zf_size f) entries → accept_entries c seen total entries = Ok tt →
  Forall (λ f, safe_name (zf_name f) ∧ zf_symlink f = false ∧ zf_size f ≤ maxMember) entries ∧
  total + total_size entries ≤ maxUncompressed ∧
  NoDup (zf_name <$> entries) ∧ (∀ f, f ∈ seen → zf_name f ∉ zf_name <$> entries).
Proof.
  revert seen total. induction entries as [|file rest IH]; intros seen total Ht Hpos H; cbn [accept_entries] in H.
  { unfold total_size. cbn. split_and!; [done|lia|constructor|intros f _ Hf; by apply not_elem_of_nil in Hf]. }
  apply Forall_cons in Hpos as [Hf Hpos]. inv_ok. apply orb_false_iff in Hstep1 as [Hm Hu].
  to_prop in Hm. to_prop in Hu. rewrite maxUncompressed_value, maxMember_value in *.
  rewrite (Z.mod_small (total + zf_size file)) in * by lia.
  destruct (IH (seen ++ [file]) (total + zf_size file)) as (Hall & Hsum & Hnd & Hnew); [lia|done|done|].
  apply safe_entry in Hstep as [Hsafe Hsym]. split_and!.
  - constructor; [done|done].
  - unfold total_size in *. cbn. lia.
  - cbn. constructor; [|done]. apply (Hnew file). set_solver.
  - intros f Hin. cbn. apply not_elem_of_cons. split; [|apply Hnew; set_solver].
    intros E. rewrite <- not_true_iff_false, has_file_in in Hstep0. apply Hstep0. by exists f.
Qed.

(** C16: The archives accepted: at most 2048 entries of together at most 512 MB as
    declared, in 64-bit sums, every name once, relative and never going up when
    unpacked, no links, and the parts of a workbook there. *)
Theorem openWorkbook_safe (c : containers) (content : list ascii) (files : list zip_file) :
  openWorkbook c content = Ok files → Forall (λ f, 0 ≤ zf_size f) files →
  (length files ≤ 2048)%nat ∧ total_size files ≤ 512 * 1024 * 1024 ∧ NoDup (zf_name <$> files) ∧
  Forall (λ f, safe_name (zf_name f) ∧ zf_symlink f = false ∧ zf_size f ≤ 256 * 1024 * 1024) files ∧
  (∀ name, name ∈ required_parts → has_file files name = true).
Proof.
  intros H Hpos. unfold openWorkbook in H. inv_ok. to_prop in Hstep0.
  destruct a1 as []. apply accept_entries_ok in Hstep1 as (Hall & Hsum & Hnd & _); [|rewrite maxUncompressed_value; lia|done].
  apply Nat.ltb_ge in Hstep0. split_and!; [done| |done|done|].
  - rewrite maxUncompressed_value in Hsum. lia.
  - intros name Hin. apply list_elem_of_In in Hin. apply negb_false_iff in Hstep2. rewrite forallb_forall in Hstep2. by apply Hstep2.
Qed.

(** ** Walking a sheet *)

Definition good_column (column : string) : Prop :=
  bytes column ≠ [] ∧ forallb is_upper (bytes column) = true ∧ 1 ≤ columnIndex column ≤ 16384.

Lemma span_all f l run rest : span f l = (run, rest) → forallb f run = true ∧ l = run ++ rest.
Proof.
  revert run rest. induction l as [|a l IH]; intros run rest H; cbn [span] in H; [by injection H as <- <-|].
  destruct (f a) eqn:E; [|by injection H as <- <-]. destruct (span f l) as [run' rest'] eqn:E'.
  injection H as <- <-. destruct (IH _ _ eq_refl) as [? ->]. cbn. by rewrite E.
Qed.
Lemma column_fold_positive l acc :
  forallb is_upper l = true → 0 ≤ acc → acc ≤ List.fold_left (fun index letter => index * 26 + (code letter - 65 + 1)) l acc ∧
  (l ≠ [] → 1 ≤ List.fold_left (fun index letter => index * 26 + (code letter - 65 + 1)) l acc).
Proof.
  revert acc. induction l as [|a l IH]; intros acc Hl Hacc; [done|]. cbn in Hl. apply andb_true_iff in Hl as [Ha Hl].
  unfold is_upper in Ha. to_prop in Ha. cbn [List.fold_left].
  destruct (IH (acc * 26 + (code a - 65 + 1)) Hl ltac:(lia)) as [H1 _]. split; [|intros _]; lia.
Qed.
Lemma cellReference_column ref letters digits :
  cellReference ref = Some (letters, digits) → columnIndex letters ≤ 16384 → good_column letters.
Proof.
  unfold cellReference. destruct (span is_upper (bytes ref)) as [run rest] eqn:E. apply span_all in E as [Hup _].
  destruct rest as [|d rest]; [done|]. destruct (_ || _) eqn:Eo; [done|]. intros [= <- <-] Hle.
  rewrite !orb_false_iff in Eo. destruct Eo as (((Hne & _) & _) & _). apply bool_decide_eq_false in Hne.
  unfold good_column, columnIndex in *. rewrite bytes_of_bytes in *. split_and!; try done.
  by apply (column_fold_positive run 0 Hup).
Qed.

Record walk_ok (w : walk_state) : Prop := {
  wo_row : ws_row w = ws_lastRow w;
  wo_range : 0 ≤ ws_row w ≤ 1048576;
  wo_cells : Forall (λ x, good_column (ce_Column x)) (ws_cells w);
  wo_current : ∀ x, ws_current w = Some x → good_column (ce_Column x)
}.

Lemma open_element_ok space local attrs start w w' :
  walk_ok w → open_element space local attrs start w = Ok w' → walk_ok w' ∧ ws_row w ≤ ws_row w'.
Proof.
  intros [Hr Hrange Hc Hcur] H. unfold open_element in H. inv_ok. destruct (seqb local "row").
  { unfold open_row in H. destruct (Atoi _) as [row|]; [|done]. inv_ok.
    rewrite !orb_false_iff in Hstep0. destruct Hstep0 as ((H1 & H2) & H3). to_prop in H1. to_prop in H2. to_prop in H3.
    split; [|cbn; lia]. split; cbn; [done|lia|done|done]. }
  destruct (seqb local "c").
  { unfold open_cell in H. destruct (cellReference _) as [[letters digits]|] eqn:E; [|done]. inv_ok.
    rewrite !orb_false_iff in Hstep0. destruct Hstep0 as ((_ & H2) & _). to_prop in H2.
    split; [|cbn; lia]. split; cbn; [done|done|done|]. intros x [= <-]. by apply (cellReference_column _ _ _ E). }
  injection H as <-. unfold inside_cell. destruct (ws_current w) as [x|] eqn:Ex; (split; [|cbn; lia]).
  - split; cbn; [done|done|done|]. intros y [= <-]. destruct (seqb local "f"); exact (Hcur x eq_refl).
  - split; cbn; [done|done|done|]. intros y E. congruence.
Qed.
Lemma add_text_ok text w : walk_ok w → walk_ok (add_text text w) ∧ ws_row (add_text text w) = ws_row w.
Proof.
  intros Hw. pose proof Hw as [Hr Hrange Hc Hcur]. unfold add_text. destruct (ws_current w) as [x|] eqn:Ex; [|by split].
  destruct (_ || _); [|by split]. split; [|done]. split; cbn; [done|done|done|].
  intros y [= <-]. exact (Hcur x eq_refl).
Qed.
Lemma close_element_ok local e w : walk_ok w → walk_ok (close_element local e w) ∧ ws_row (close_element local e w) = ws_row w.
Proof.
  intros [Hr Hrange Hc Hcur]. split; [|done]. split; cbn; [done|done| |].
  - destruct (ws_current w) as [x|]; [|done]. destruct (seqb local "c"); [|done]. apply Forall_app. split; [done|].
    constructor; [|done]. exact (Hcur x eq_refl).
  - intros x. destruct (_ && _); [done|apply Hcur].
Qed.

(** What every visit keeps, the whole walk keeps; rows come in order. *)
Lemma walkSheet_keeps {S} c data (visit : visitor S) (P : Z → S → Prop) s0 s :
  (∀ row row' x, P row x → row ≤ row' → P row' x) →
  (∀ row cells e x x', 0 ≤ row ≤ 1048576 → Forall (λ v, good_column (ce_Column v)) cells → P row x →
     visit row cells e x = Ok x' → P row x') →
  P 0 s0 → walkSheet c data visit s0 = Ok s → P 1048576 s.
Proof.
  intros Hmono Hvisit H0 H. unfold walkSheet, decode in H. destruct (xml_tokens c data) as [tokens last].
  apply bind_Ok in H as ([w s1] & H1 & H). apply bind_Ok in H as (u & _ & H). apply Ok_inj in H as <-. cbn [snd].
  apply bind_Ok in H1 as (ws & H1 & Hlast). destruct last; [done|]. apply Ok_inj in Hlast as ->.
  assert (walk_ok w ∧ P (ws_row w) s1) as [Hw HP]; [|eapply Hmono; [exact HP|apply Hw]].
  assert (walk_ok start_walk) as Hw0 by (split; cbn; try done; lia).
  assert (P (ws_row start_walk) s0) as HP0 by done. clear H0. remember start_walk as w0 eqn:E0. clear E0.
  revert w0 s0 Hw0 HP0 H1. induction tokens as [|t tokens IH]; intros w0 s0 Hw0 HP0 H1; cbn [token_loop] in H1.
  { by apply Ok_inj in H1 as [= <- <-]. }
  apply bind_Ok in H1 as ([w1 x1] & Hstep & H1). assert (walk_ok w1 ∧ P (ws_row w1) x1) as [Hw1 HP1]; [|by eapply IH].
  unfold walk_step in Hstep. destruct (pt_token t) as [space local attrs|local|text|].
  - apply bind_Ok in Hstep as (w' & Ho & E). apply Ok_inj in E as [= <- <-].
    apply open_element_ok in Ho as [Hw' Hle]; [|done]. split; [done|]. by eapply Hmono.
  - destruct (seqb local "row").
    + apply bind_Ok in Hstep as (u' & _ & Hstep). apply bind_Ok in Hstep as (x' & Hv & E). apply Ok_inj in E as [= <- <-].
      split; [done|]. eapply Hvisit; [apply Hw0|apply Hw0|exact HP0|exact Hv].
    + apply Ok_inj in Hstep as [= <- <-]. destruct (close_element_ok local (pt_end t) w0 Hw0) as [? ->]. done.
  - apply Ok_inj in Hstep as [= <- <-]. destruct (add_text_ok text w0 Hw0) as [? ->]. done.
  - apply Ok_inj in Hstep as [= <- <-]. done.
Qed.

(** ** [Inspect] *)

Definition headed (wb : Workbook) : Prop :=
  1 ≤ wb_HeaderRow wb ≤ 1048576 ∧ good_column (wb_AccountColumn wb) ∧ good_column (wb_BalanceColumn wb) ∧
  good_column (wb_RateColumn wb) ∧ wb_Rows wb = [].
Definition good_headers (headers : gmap string string) : Prop :=
  ∀ name column, headers !! name = Some column → slik_header name = true ∧ good_column column.

Lemma row_headers_good c cells shared headers d headers' :
  Forall (λ v, good_column (ce_Column v)) cells → good_headers headers →
  row_headers c cells shared headers d = Ok headers' → good_headers headers'.1.
Proof.
  intros Hc. revert headers d. induction Hc as [|v cells Hv _ IH]; intros headers d Hh H; cbn [row_headers] in H.
  { by apply Ok_inj in H as <-. }
  apply bind_Ok in H as (text & _ & H). destruct (slik_header (header_text c text)) eqn:E; [|by eapply IH].
  eapply IH; [|exact H]. intros name column. destruct (decide (header_text c text = name)) as [<-|Hne].
  - rewrite lookup_insert_eq. intros [= <-]. done.
  - rewrite lookup_insert_ne by done. apply Hh.
Qed.
Definition slik_headers : gset string :=
  {["nomorekeningfasilitas"%string; "bakidebet"%string; "sukubungaimbalan"%string]}.
Lemma three_headers headers name :
  good_headers headers → size headers = 3%nat → slik_header name = true → ∃ column, headers !! name = Some column.
Proof.
  intros Hh Hsize Hname. destruct (headers !! name) as [column|] eqn:E; [by exists column|exfalso].
  assert (dom headers ⊆ slik_headers ∖ {[name]}) as Hsub.
  { intros x Hx. apply elem_of_dom in Hx as [column Hx]. destruct (Hh _ _ Hx) as [Hs _].
    apply elem_of_difference. split; [|intros ->%elem_of_singleton; congruence].
    unfold slik_header in Hs. rewrite !orb_true_iff, !seqb_eq in Hs. unfold slik_headers. set_solver. }
  apply subseteq_size in Hsub. rewrite size_dom, Hsize in Hsub.
  assert (size (slik_headers ∖ {[name]}) = 2%nat) as E2; [|lia].
  unfold slik_header in Hname. rewrite !orb_true_iff, !seqb_eq in Hname. by destruct Hname as [[->| ->]| ->]; vm_compute.
Qed.

Lemma header_visit_keeps c sheet shared row cells e x x' :
  0 ≤ row ≤ 1048576 → Forall (λ v, good_column (ce_Column v)) cells → wb_HeaderRow x = 0 ∨ headed x →
  header_visit c sheet shared row cells e x = Ok x' → wb_HeaderRow x' = 0 ∨ headed x'.
Proof.
  intros Hrow Hc Hx H. unfold header_visit in H. apply bind_Ok in H as ([headers d] & Hh & H). cbn [fst snd] in H.
  apply row_headers_good in Hh; [|done|done]. cbn [fst] in Hh.
  destruct (size headers =? 3)%nat eqn:Es; cbn [negb] in H; [|by apply Ok_inj in H as <-].
  inv_ok. cbn [wb_HeaderRow]. destruct (decide (row = 0)) as [->|Hne]; [by left|right].
  apply Nat.eqb_eq in Es.
  destruct (three_headers headers "nomorekeningfasilitas" Hh Es eq_refl) as (col1 & Ha).
  destruct (three_headers headers "bakidebet" Hh Es eq_refl) as (col2 & Hb).
  destruct (three_headers headers "sukubungaimbalan" Hh Es eq_refl) as (col3 & Hr).
  unfold headed. cbn [wb_HeaderRow wb_AccountColumn wb_BalanceColumn wb_RateColumn wb_Rows]. rewrite Ha, Hb, Hr. cbn [default].
  split_and!; [lia|lia|by eapply (Hh _ _ Ha)|by eapply (Hh _ _ Hb)|by eapply (Hh _ _ Hr)|done].
Qed.
Lemma select_sheet_headed c files shared paths selected wb :
  wb_HeaderRow selected = 0 ∨ headed selected → select_sheet c files shared paths selected = Ok wb →
  wb_HeaderRow wb = 0 ∨ headed wb.
Proof.
  revert selected. induction paths as [|name paths IH]; intros selected Hs H; cbn [select_sheet] in H.
  { by apply Ok_inj in H as <-. }
  apply bind_Ok in H as (data & _ & H). apply bind_Ok in H as (candidate & Hw & H).
  apply (walkSheet_keeps c data _ (λ _ x, wb_HeaderRow x = 0 ∨ headed x)) in Hw.
  - destruct (wb_HeaderRow candidate =? 0) eqn:E; [by apply (IH selected)|]. apply bind_Ok in H as (u & _ & H). by apply (IH candidate).
  - done.
  - intros *. apply header_visit_keeps.
  - by left.
Qed.

(** The text of an account has no white space around it. *)
Lemma TrimSpace_digits l : forallb is_digit l = true → TrimSpace (of_bytes l) = of_bytes l.
Proof. intros H. unfold TrimSpace. rewrite bytes_of_bytes. f_equal. by apply trim_bytes_plain, forallb_digit_plain. Qed.
Lemma account_digits_digits value : forallb is_digit (bytes value) = true → forallb is_digit (account_digits value) = true.
Proof.
  intros H. unfold account_digits. destruct (drop_while_eq_spec "0"%char (bytes value)) as (k & E & _).
  assert (forallb is_digit (drop_while_eq "0" (bytes value)) = true) as Hd.
  { rewrite E, forallb_app in H. by apply andb_true_iff in H as [_ ?]. }
  by destruct (drop_while_eq "0" (bytes value)).
Qed.
Lemma accountValue_trimmed value shared formats custom account :
  accountValue value shared formats custom = Ok account → TrimSpace account = account.
Proof.
  unfold accountValue. intros H. apply bind_Ok in H as (u & _ & H). destruct (_ || _ || _).
  { apply bind_Ok in H as (text & _ & H). apply Ok_inj in H as <-. apply TrimSpace_idem. }
  inv_ok. apply negb_false_iff in Hstep0. unfold integerValue in Hstep0. apply andb_true_iff in Hstep0 as [_ Hd].
  apply account_digits_digits in Hd. destruct (seqb _ "General").
  - apply Ok_inj in H as <-. by apply TrimSpace_digits.
  - inv_ok. apply TrimSpace_digits. by apply pad_digits.
Qed.

(** Rows below the header, in order, with an account *)
Definition rows_ok (header upto : Z) (rows : list Row) : Prop :=
  Forall (λ r, header < row_Number r ≤ upto ∧ row_Account r ≠ EmptyString ∧ TrimSpace (row_Account r) = row_Account r) rows ∧
  StronglySorted (λ r r', row_Number r ≤ row_Number r') rows.
Definition same_headers (wb wb' : Workbook) : Prop :=
  wb_Sheet wb' = wb_Sheet wb ∧ wb_HeaderRow wb' = wb_HeaderRow wb ∧ wb_AccountColumn wb' = wb_AccountColumn wb ∧
  wb_BalanceColumn wb' = wb_BalanceColumn wb ∧ wb_RateColumn wb' = wb_RateColumn wb.

Lemma StronglySorted_snoc {A} (R : A → A → Prop) l x : StronglySorted R l → Forall (λ y, R y x) l → StronglySorted R (l ++ [x]).
Proof.
  induction 1 as [|y l Hl IH Hy]; intros Hx; [by repeat constructor|]. apply Forall_cons in Hx as [Hyx Hx].
  cbn. constructor; [by apply IH|]. apply Forall_app. split; [done|by constructor].
Qed.
Lemma rows_visit_keeps shared formats custom header row cells e x x' :
  rows_ok (wb_HeaderRow header) row (wb_Rows x) → same_headers header x →
  rows_visit shared formats custom row cells e x = Ok x' →
  rows_ok (wb_HeaderRow header) row (wb_Rows x') ∧ same_headers header x'.
Proof.
  intros Hx Hsame H. unfold rows_visit in H. destruct (row <=? wb_HeaderRow x) eqn:El; [by apply Ok_inj in H as <-|].
  apply bind_Ok in H as (account & Ha & H). destruct (empty account) eqn:Ee; [by apply Ok_inj in H as <-|].
  apply bind_Ok in H as (u & _ & H). apply Ok_inj in H as <-. split; [|done]. cbn.
  assert (TrimSpace account = account) as Htrim.
  { destruct (account_cell x cells) as [v|]; [|by apply Ok_inj in Ha as <-].
    destruct (accountValue _ _ _ _) eqn:Ev; [|done]. apply Ok_inj in Ha as <-. by apply accountValue_trimmed in Ev. }
  to_prop in El. destruct Hsame as (_ & Eh & _). destruct Hx as [Hall Hsort]. split.
  - apply Forall_app. split; [done|]. constructor; [|done]. cbn. apply seqb_neq in Ee. split_and!; [lia|lia|done|done].
  - apply StronglySorted_snoc; [done|]. eapply Forall_impl; [exact Hall|]. cbn. intros r (? & _). lia.
Qed.

(** C15: What [Inspect] answers is a workbook to work with: a header row, columns
    within the limits of a sheet, and at least one account; the accounts are below
    the header, in the order of their rows, not empty and trimmed. *)
Theorem Inspect_well_formed (c : containers) (content : list ascii) (name : string) (wb : Workbook) :
  Inspect c content name = Ok wb →
  1 ≤ wb_HeaderRow wb ∧ good_column (wb_AccountColumn wb) ∧ good_column (wb_BalanceColumn wb) ∧ good_column (wb_RateColumn wb) ∧
  wb_Rows wb ≠ [] ∧ StronglySorted (λ r r', row_Number r ≤ row_Number r') (wb_Rows wb) ∧
  Forall (λ r, wb_HeaderRow wb < row_Number r ≤ 1048576 ∧ row_Account r ≠ EmptyString ∧
               TrimSpace (row_Account r) = row_Account r) (wb_Rows wb).
Proof.
  intros H. unfold Inspect in H. apply bind_Ok in H as (u & _ & H). apply bind_Ok in H as (files & _ & H).
  unfold Inspect_files in H. apply bind_Ok in H as (u1 & _ & H). apply bind_Ok in H as (u2 & _ & H).
  apply bind_Ok in H as (paths & _ & H). apply bind_Ok in H as (shared & _ & H). apply bind_Ok in H as (formats & _ & H).
  apply bind_Ok in H as (selected & Hsel & H). apply select_sheet_headed in Hsel; [|by left].
  apply bind_Ok in H as (u3 & H0 & H). apply fail_if_Ok in H0. to_prop in H0.
  destruct Hsel as [?|(Hrow & Ha & Hb & Hr & Hempty)]; [done|].
  apply bind_Ok in H as (data & _ & H). apply bind_Ok in H as (wb' & Hw & H). apply bind_Ok in H as (u4 & Hn & H).
  apply Ok_inj in H as <-. apply fail_if_Ok, bool_decide_eq_false in Hn.
  apply (walkSheet_keeps c data _ (λ row x, rows_ok (wb_HeaderRow selected) row (wb_Rows x) ∧ same_headers selected x)) in Hw.
  - destruct Hw as [[Hall Hsort] (_ & -> & -> & -> & ->)]. split_and!; try done; [lia|]. intros E. apply Hn. by rewrite E.
  - intros row row' x [[Hall Hsort] Hs] Hle. split; [|done]. split; [|done]. eapply Forall_impl; [exact Hall|].
    cbn. intros r ([? ?] & ?). split; [lia|done].
  - intros row cells e x x' _ _ [Hx Hs]. by apply rows_visit_keeps.
  - split; [rewrite Hempty; split; constructor|]. by split_and!.
Qed.

(** ** Offsets *)




(** ** [patchCell] *)

Lemma match_not_open name a l : beq a "<" = false → match_element name (a :: l) = None.
Proof. intros H. unfold match_element. cbn [has_prefix_bytes]. by rewrite H. Qed.
Lemma replace_step m new a l n : m (a :: l) = None → replace_matches (S n) m new (a :: l) = a :: replace_matches n m new l.
Proof. intros H. cbn [replace_matches]. by rewrite H. Qed.
Lemma replace_skip name new pre l n :
  mem_byte "<" pre = false →
  replace_matches (length pre + n) (match_element name) new (pre ++ l) = pre ++ replace_matches n (match_element name) new l.
Proof.
  induction pre as [|a pre IH]; intros H; [done|]. rewrite mem_byte_cons in H. apply orb_false_iff in H as [Ha H].
  rewrite beq_sym in Ha. cbn [length Nat.add replace_matches app]. rewrite match_not_open by done. by rewrite IH.
Qed.
Lemma matches_skip m pre l : matches m l = true → matches m (pre ++ l) = true.
Proof. intros H. induction pre as [|a pre IH]; [done|]. cbn. by destruct (m _). Qed.
Lemma index_of_after a pattern old l :
  mem_byte a old = false → index_of (a :: pattern) (old ++ (a :: pattern) ++ l) = Some (length old).
Proof.
  induction old as [|b old IH]; intros H.
  - cbn [app]. assert (has_prefix_bytes ((a :: pattern) ++ l) (a :: pattern) = true) as Hp.
    { generalize (a :: pattern). intros p. induction p as [|x p IHp]; [by destruct l|]. cbn. by rewrite beq_refl. }
    cbn [app] in Hp. cbn [index_of]. by rewrite Hp.
  - rewrite mem_byte_cons in H. apply orb_false_iff in H as [Hb H]. cbn [app index_of has_prefix_bytes].
    rewrite beq_sym, Hb. cbn [andb]. specialize (IH H). cbn [app] in IH. by rewrite IH.
Qed.

Definition number_cell (attributes old : list ascii) : list ascii :=
  bytes "<c" ++ attributes ++ bytes "><v>" ++ old ++ bytes "</v></c>".

Lemma value_match old : mem_byte "<" old = false → valueElement (bytes "<v>" ++ old ++ bytes "</v></c>") = Some (bytes "</c>").
Proof.
  intros H. unfold valueElement, match_element. cbn [has_prefix_bytes bytes]. cbn -[after_pattern].
  unfold after_pattern. pose proof (index_of_after "<" (bytes "/v>") old (bytes "</c>") H) as E. cbn in E. cbn. rewrite E. cbn.
  f_equal. replace (length old + 4)%nat with (length (old ++ bytes "</v>")) by (rewrite length_app; done).
  change (old ++ "<"%char :: _) with (old ++ bytes "</v>" ++ bytes "</c>"). by rewrite app_assoc, drop_app_length.
Qed.
Lemma number_cell_patched attributes old new :
  mem_byte "<" attributes = false → mem_byte "<" old = false →
  replace_all_matches valueElement new (number_cell attributes old) = bytes "<c" ++ attributes ++ bytes ">" ++ new ++ bytes "</c>".
Proof.
  intros Ha Ho. unfold replace_all_matches, number_cell. set (rest := bytes "<v>" ++ old ++ bytes "</v></c>").
  assert (bytes "<c" ++ attributes ++ bytes "><v>" ++ old ++ bytes "</v></c>" =
    "<"%char :: ("c"%char :: attributes ++ [">"%char]) ++ rest) as ->.
  { cbn. by rewrite <- app_assoc. }
  rewrite replace_step by done.
  replace (length ("<"%char :: ("c"%char :: attributes ++ [">"%char]) ++ rest))
    with (length ("c"%char :: attributes ++ [">"%char]) + S (length rest))%nat by (cbn [length]; rewrite !length_app; cbn [length]; rewrite !length_app; cbn [length]; lia).
  unfold valueElement. rewrite replace_skip by (by rewrite mem_byte_cons, mem_byte_app, Ha).
  assert (replace_matches (S (length rest)) (match_element (bytes "v")) new rest = new ++ bytes "</c>") as ->.
  { cbn [replace_matches]. change (match_element (bytes "v") rest) with (valueElement rest).
    unfold rest at 1. rewrite value_match by done.
    assert (length rest = (5 + (length rest - 5))%nat) as -> by (unfold rest; rewrite !length_app; cbn; lia). done. }
  cbn. by rewrite <- !app_assoc.
Qed.

Lemma number_raw data value attributes old :
  slice data (ce_Start value) (ce_End value) = number_cell attributes old → raw_cell data value = number_cell attributes old.
Proof. intros H. unfold raw_cell. rewrite H. unfold number_cell. rewrite !app_assoc. by rewrite rev_app_distr. Qed.
Lemma number_value attributes old : mem_byte "<" old = false → matches valueElement (number_cell attributes old) = true.
Proof.
  intros Ho. unfold number_cell. rewrite app_assoc.
  change (bytes "><v>" ++ old ++ bytes "</v></c>") with ([">"%char] ++ (bytes "<v>" ++ old ++ bytes "</v></c>")).
  rewrite app_assoc. apply matches_skip. pose proof (value_match old Ho) as E.
  destruct (bytes "<v>" ++ old ++ bytes "</v></c>") as [|b l]; [done|]. cbn [matches]. by rewrite E.
Qed.
(** A cell with a number keeps its tag, with its reference and its style, and
    gets the amount in the place of its old value, whatever that was. *)
Lemma patchCell_number (data : list ascii) (value : cell) (attributes old : list ascii) (amount : string) :
  ce_Formula value = false → ce_Type value = EmptyString ∨ ce_Type value = "n"%string →
  slice data (ce_Start value) (ce_End value) = number_cell attributes old →
  mem_byte "<" attributes = false → mem_byte "<" old = false →
  patchCell data value amount = Ok (number_cell attributes (bytes amount)).
Proof.
  intros Hf Ht Hraw Ha Ho. unfold patchCell. rewrite Hf. cbn [fail_if].
  rewrite (number_raw _ _ _ _ Hraw). pose proof (number_value attributes old Ho) as Hm.
  assert (∀ content, bytes "<c" ++ attributes ++ bytes ">" ++ element_bytes (bytes "v") content ++ bytes "</c>" = number_cell attributes content) as Heq.
  { intros content. unfold number_cell, element_bytes, closing_tag. rewrite <- !app_assoc. done. }
  destruct Ht as [-> | ->]; cbn -[matches replace_all_matches element_bytes number_cell];
    rewrite Hm, number_cell_patched by done; by rewrite Heq.
Qed.




Lemma span_other (f : ascii → bool) a l : f a = false → span f (a :: l) = ([], a :: l).
Proof. intros H. cbn. by rewrite H. Qed.
(** ** [writeSheet] *)

Definition change_of (data : list ascii) (ch : change) : list ascii * list ascii :=
  (slice data (ch_start ch) (ch_end ch), ch_data ch).




(** *** What is to be changed, row by row

    The rows of a sheet as the walk meets them, and what each of them is to get. *)






(** ** Witnesses: a small workbook, read by a tokenizer for plain XML *)

Fixpoint plain_attrs (fuel : nat) (l : list ascii) : list attr :=
  match fuel with
  | O => []
  | S fuel' =>
      let '(name, r) := span (fun a => negb (beq a "=")) (span re_space l).2 in
      match r with
      | _ :: _ :: r' =>
          let '(value, rest) := span (fun a => negb (beq a single_quote)) r' in
          let local := (cut_byte ":" name) in
          {| at_space := EmptyString; at_local := of_bytes (if local.2 then local.1.2 else name); at_value := of_bytes value |} ::
          plain_attrs fuel' (drop 1 rest)
      | _ => []
      end
  end.
Definition plain_namespace (ns : string) (attrs : list attr) : string :=
  let declared := attribute attrs "xmlns" in if empty declared then ns else declared.
Fixpoint plain_tokens (fuel : nat) (ns : string) (pos : Z) (l : list ascii) : token_stream :=
  match fuel, l with
  | O, _ | _, [] => ([], None)
  | S fuel', a :: r =>
      if beq a "<" then
        let '(tag, rest) := span (fun b => negb (beq b ">")) r in
        let e := pos + 2 + Z.of_nat (length tag) in
        let place := fun t => {| pt_start := pos; pt_token := t; pt_end := e |} in
        if has_prefix_bytes tag ["/"%char] then
          let '(tokens, last) := plain_tokens fuel' ns e (drop 1 rest) in (place (EndElement (of_bytes (drop 1 tag))) :: tokens, last)
        else
          let empty_tag := bool_decide (last tag = Some "/"%char) in
          let body := if empty_tag then take (length tag - 1) tag else tag in
          let '(name, more) := span (fun b => negb (re_space b)) body in
          let attrs := plain_attrs (length more) more in
          let ns' := plain_namespace ns attrs in
          let '(tokens, last) := plain_tokens fuel' ns' e (drop 1 rest) in
          (place (StartElement ns' (of_bytes name) attrs) ::
           (if empty_tag then [{| pt_start := e; pt_token := EndElement (of_bytes name); pt_end := e |}] else []) ++ tokens, last)
      else
        let '(text, rest) := span (fun b => negb (beq b "<")) l in
        let e := pos + Z.of_nat (length text) in
        let '(tokens, last) := plain_tokens fuel' ns e rest in
        ({| pt_start := pos; pt_token := CharData text; pt_end := e |} :: tokens, last)
  end.

Definition part (name : string) (text : string) : zip_file :=
  {| zf_name := name; zf_size := slen text; zf_symlink := false; zf_dir := false; zf_data := Ok (bytes text) |}.
Definition example_sheet : string :=
  "<worksheet xmlns='http://schemas.openxmlformats.org/spreadsheetml/2006/main'><sheetData>" ++
  "<row r='1'><c r='A1' t='inlineStr'><is><t>NomoRekeningFasilitas</t></is></c><c r='B1' t='inlineStr'><is><t>BakiDebet</t></is></c>" ++
  "<c r='C1' t='inlineStr'><is><t> sukuBungaImbalan</t></is></c></row>" ++
  "<row r='2'><c r='A2'><v>123</v></c><c r='B2'><v>7</v></c></row></sheetData></worksheet>".
Definition example_files : list zip_file :=
  [part "[Content_Types].xml"
     ("<Types xmlns='http://schemas.openxmlformats.org/package/2006/content-types'><Override PartName='/xl/workbook.xml' " ++
      "ContentType='application/vnd.openxmlformats-officedocument.spreadsheetml.sheet.main+xml'/></Types>");
   part "_rels/.rels"
     ("<Relationships xmlns='http://schemas.openxmlformats.org/package/2006/relationships'>" ++
      "<Relationship Id='r1' Type='x/officeDocument' Target='xl/workbook.xml'/></Relationships>");
   part "xl/workbook.xml"
     ("<workbook xmlns='http://schemas.openxmlformats.org/spreadsheetml/2006/main'><sheets><sheet name='Data' r:id='r1'/></sheets></workbook>");
   part "xl/_rels/workbook.xml.rels"
     ("<Relationships xmlns='http://schemas.openxmlformats.org/package/2006/relationships'>" ++
      "<Relationship Id='r1' Type='x/worksheet' Target='worksheets/sheet1.xml'/></Relationships>");
   part "xl/worksheets/sheet1.xml" example_sheet].
Definition example_containers : containers := {|
  open_zip := fun _ => Ok example_files; write_zip := fun _ => [];
  xml_tokens := fun data => plain_tokens (length data) EmptyString 0 data; unicode_lower := fun s => s |}.
Definition example_workbook : Workbook := {|
  wb_Sheet := "xl/worksheets/sheet1.xml"; wb_HeaderRow := 1; wb_AccountColumn := "A"; wb_BalanceColumn := "B"; wb_RateColumn := "C";
  wb_Rows := [{| row_Number := 2; row_Account := "123" |}] |}.

Example inspect_example : Inspect example_containers [] "a.xlsx" = Ok example_workbook.
Proof. vm_compute. reflexivity. Qed.
Definition example_values : gmap string Values := {["123"%string := {| Balance := "15.00"; Rate := "6.5" |}]}.
Example write_example :
  of_bytes <$> writeSheet example_containers (bytes example_sheet) example_workbook example_values = Ok (
  "<worksheet xmlns='http://schemas.openxmlformats.org/spreadsheetml/2006/main'><sheetData>" ++
  "<row r='1'><c r='A1' t='inlineStr'><is><t>NomoRekeningFasilitas</t></is></c><c r='B1' t='inlineStr'><is><t>BakiDebet</t></is></c>" ++
  "<c r='C1' t='inlineStr'><is><t> sukuBungaImbalan</t></is></c></row>" ++
  "<row r='2'><c r='A2'><v>123</v></c><c r='B2'><v>15.00</v></c>" ++
  of_bytes (new_cell_bytes "C" 2 "6.5") ++ "</row></sheetData></worksheet>")%string.
Proof. vm_compute. reflexivity. Qed.

Lemma openWorkbook_safe_witness : NoDup (zf_name <$> example_files) ∧ total_size example_files ≤ 512 * 1024 * 1024.
Proof.
  destruct (openWorkbook_safe example_containers [] example_files) as (_ & Hs & Hn & _).
  - vm_compute. reflexivity.
  - repeat (apply Forall_cons_2; [vm_compute; discriminate|]). constructor.
  - split; [exact Hn|exact Hs].
Defined.
Lemma Inspect_well_formed_witness :
  1 ≤ wb_HeaderRow example_workbook ∧ good_column (wb_AccountColumn example_workbook) ∧ wb_Rows example_workbook ≠ [].
Proof.
  destruct (Inspect_well_formed example_containers [] "a.xlsx" example_workbook) as (H1 & H2 & _ & _ & H3 & _).
  - vm_compute. reflexivity.
  - split; [exact H1|]. split; [exact H2|exact H3].
Defined.
Lemma patchCell_number_witness :
  patchCell (number_cell (bytes " r='B2'") (bytes "7"))
    {| ce_Ref := "B2"; ce_Column := "B"; ce_Type := "n"; ce_Style := EmptyString; ce_Value := "7"; ce_Start := 0; ce_End := 24; ce_Formula := false |}
    "15.00" = Ok (number_cell (bytes " r='B2'") (bytes "15.00")).
Proof.
  apply (patchCell_number _ _ _ (bytes "7")); [reflexivity|by right|vm_compute; reflexivity|reflexivity|reflexivity].
Defined.
(** A cell whose elements have a prefix for the namespace of spreadsheets is read as any other
    (encoding/xml resolves the prefix), but not patched: neither <v> nor </c> is found in its
    text, so it keeps its old value and no error says so. *)
Lemma prefixed_cell_unpatched :
  let text := bytes "<x:c r='B2'><x:v>7</x:v></x:c>" in
  patchCell text {| ce_Ref := "B2"; ce_Column := "B"; ce_Type := ""; ce_Style := ""; ce_Value := "7";
                    ce_Start := 0; ce_End := Z.of_nat (length text); ce_Formula := false |} "15.00" = Ok text.
Proof. vm_compute. reflexivity. Qed.
