(* ===== verification/GoConf.v ===== *)
(** What a configuration is made of in Go: [time.ParseDuration], [strconv.ParseBool],
    and [url.Parse] for the scheme and the host of an address.

    A host in brackets (an IP literal, which [net/netip] reads) is the parameter
    [ip_literal] of the URL parser. *)
From stdpp Require Import base list strings.
From Stdlib Require Import ZArith Lia Ascii.
From S2P Require Import Prelude GoStrings GoFloat GoTime GoJSON GoPath.
Local Open Scope Z_scope.

Definition ParseBool (s : string) : option bool :=
  if existsb (seqb s) ["1"; "t"; "T"; "TRUE"; "true"; "True"]%string then Some true else
  if existsb (seqb s) ["0"; "f"; "F"; "FALSE"; "false"; "False"]%string then Some false else None.

(** ** Durations: nanoseconds in 64 bits *)

(** [leadingInt]: [None] when the number exceeds 2^63 *)
Fixpoint leading_int (x : Z) (l : list ascii) : option (Z * list ascii) :=
  match l with
  | c :: rest =>
      if negb (is_digit c) then Some (x, l) else
      if 2 ^ 63 / 10 <? x then None else
      let x := x * 10 + digit_value c in
      if 2 ^ 63 <? x then None else leading_int x rest
  | [] => Some (x, [])
  end.
(** [leadingFraction]: the digits that fit, the power of ten they are over, the rest *)
Fixpoint leading_fraction (overflow : bool) (x : Z) (scale : float64) (l : list ascii) : Z * float64 * list ascii :=
  match l with
  | c :: rest =>
      if negb (is_digit c) then (x, scale, l) else
      if overflow || ((2 ^ 63 - 1) / 10 <? x) then leading_fraction true x scale rest else
      let y := x * 10 + digit_value c in
      if 2 ^ 63 <? y then leading_fraction true x scale rest
      else leading_fraction false y (float_mul scale (nearest false 10 1)) rest
  | [] => (x, scale, [])
  end.
Fixpoint unit_text (l : list ascii) : list ascii * list ascii :=
  match l with
  | c :: rest => if is_digit c || beq c "." then ([], l) else let '(u, rest) := unit_text rest in (c :: u, rest)
  | [] => ([], [])
  end.
Definition micro_sign : list (list ascii) := [[chr 194; chr 181; "s"%char]; [chr 206; chr 188; "s"%char]].
Definition unitMap (u : list ascii) : option Z :=
  if bool_decide (u = bytes "ns") then Some 1 else
  if bool_decide (u = bytes "us") || bool_decide (u ∈ micro_sign) then Some (10 ^ 3) else
  if bool_decide (u = bytes "ms") then Some (10 ^ 6) else
  if bool_decide (u = bytes "s") then Some (10 ^ 9) else
  if bool_decide (u = bytes "m") then Some (60 * 10 ^ 9) else
  if bool_decide (u = bytes "h") then Some (3600 * 10 ^ 9) else None.
(** [float64(unit) / scale]; the scale is not zero *)
Definition unit_over (unit : Z) (scale : float64) : float64 :=
  match scale with
  | Finite _ m e => if 0 <=? e then nearest false unit (m * 2 ^ e) else nearest false (unit * 2 ^ (- e)) m
  | Infinite _ => float_zero
  | NaN => NaN
  end.
(** [uint64(float64(f) * (float64(unit) / scale))], which is finite and not negative *)
Definition fraction_units (f unit : Z) (scale : float64) : Z :=
  match float_mul (nearest false f 1) (unit_over unit scale) with Finite _ m e => truncated m e | _ => 0 end.
(** The rounds of the loop, which add to [d] in 64 bits *)
Fixpoint duration_parts (fuel : nat) (d : Z) (l : list ascii) : option Z :=
  match fuel, l with
  | _, [] => Some d
  | O, _ => None
  | S fuel, c :: _ =>
      if negb (is_digit c || beq c ".") then None else
      '(v, l1) ← leading_int 0 l;
      let pre := negb (length l1 =? length l)%nat in
      let '(f, scale, l2, post) :=
        match l1 with
        | p :: l' =>
            if beq p "." then let '(f, scale, l2) := leading_fraction false 0 (nearest false 1 1) l' in
                              (f, scale, l2, negb (length l2 =? length l')%nat)
            else (0, nearest false 1 1, l1, false)
        | [] => (0, nearest false 1 1, [], false)
        end in
      if negb pre && negb post then None else
      let '(u, l3) := unit_text l2 in
      if bool_decide (u = []) then None else
      unit ← unitMap u;
      if 2 ^ 63 / unit <? v then None else
      let v := v * unit + (if 0 <? f then fraction_units f unit scale else 0) in
      if 2 ^ 63 <? v then None else
      let d := (d + v) mod 2 ^ 64 in
      if 2 ^ 63 <? d then None else duration_parts fuel d l3
  end.
Definition ParseDuration (s : string) : option Z :=
  let l := bytes s in
  let '(neg, l) := match l with
                   | c :: l' => if beq c "-" then (true, l') else if beq c "+" then (false, l') else (false, l)
                   | [] => (false, l)
                   end in
  if bool_decide (l = ["0"%char]) then Some 0 else
  if bool_decide (l = []) then None else
  d ← duration_parts (length l) 0 l;
  if (neg : bool) then Some (- d) else if max_int64 <? d then None else Some d.
(** [Duration.String] of a whole number of seconds *)
Definition seconds_text (seconds : Z) : string :=
  let minutes := seconds / 60 in
  of_bytes ((if 60 <=? minutes then utoa (minutes / 60) ++ ["h"%char] else []) ++
            (if 1 <=? minutes then utoa (minutes mod 60) ++ ["m"%char] else []) ++
            utoa (seconds mod 60) ++ ["s"%char]).

(** ** Addresses *)

Definition is_letter (c : ascii) : bool := ((97 <=? code c) && (code c <=? 122)) || ((65 <=? code c) && (code c <=? 90)).
(** [getScheme] *)
Fixpoint scheme_end (first : bool) (seen : list ascii) (l : list ascii) : option (option (list ascii * list ascii)) :=
  match l with
  | [] => Some None
  | c :: rest =>
      if is_letter c then scheme_end false (c :: seen) rest else
      if is_digit c || beq c "+" || beq c "-" || beq c "." then if first then Some None else scheme_end false (c :: seen) rest else
      if beq c ":" then if first then None else Some (Some (rev seen, rest)) else Some None
  end.
Definition validOptionalPort (port : list ascii) : bool :=
  match port with [] => true | c :: rest => beq c ":" && forallb is_digit rest end.
Definition userinfo_byte (c : ascii) : bool :=
  is_letter c || is_digit c || mem_byte c (bytes "-._:~!$&'()*+,;=%@").
(** The bytes that may stand for themselves in a host *)
Definition host_byte (c : ascii) : bool :=
  is_letter c || is_digit c || mem_byte c (bytes "-_.~!$&'()*+,;=:[]<>") || (code c =? 34) || (128 <=? code c).
Fixpoint unescape_host (l : list ascii) : option (list ascii) :=
  match l with
  | [] => Some []
  | c :: l1 =>
      if beq c "%" then
        match l1 with
        | a :: b :: l2 =>
            a' ← hex_digit a; b' ← hex_digit b;
            if (a' <? 8) && negb (beq a "2" && beq b "5") then None else rest ← unescape_host l2; Some (chr (16 * a' + b') :: rest)
        | _ => None
        end
      else if host_byte c then rest ← unescape_host l1; Some (c :: rest) else None
  end.

Section Url.
(** What the parser makes of a host that begins with a bracket *)
Variable ip_literal : list ascii → option (list ascii).

Definition parseHost (host : list ascii) : option (list ascii) :=
  if has_prefix_bytes host (bytes "[") then ip_literal host else
  let '(_, port, colon) := cut_byte ":" host in
  if colon && negb (forallb is_digit port) then None else unescape_host host.
Definition parseAuthority (authority : list ascii) : option (list ascii) :=
  let at_sign := last_index "@" authority in
  if at_sign <? 0 then parseHost authority else
  host ← parseHost (drop (Z.to_nat (at_sign + 1)) authority);
  let userinfo := take (Z.to_nat at_sign) authority in
  if negb (forallb userinfo_byte userinfo) then None else
  let '(username, password, _) := cut_byte ":" userinfo in
  _ ← unescape_bytes username; _ ← unescape_bytes password; Some host.
(** [url.Parse]: the scheme and the host *)
Definition url_Parse (raw : string) : option (string * string) :=
  let '(u, fragment, _) := cut_byte "#" (bytes raw) in
  parsed ←
    (if existsb control_byte u then None else
     if bool_decide (u = ["*"%char]) then Some ([], []) else
     split ← scheme_end true [] u;
     let '(scheme, rest) := match split with Some (scheme, rest) => (lower_byte <$> scheme, rest) | None => ([], u) end in
     let '(rest, _, _) := cut_byte "?" rest in
     if negb (has_prefix_bytes rest (bytes "/")) && negb (bool_decide (scheme = [])) then Some (scheme, []) else
     if negb (has_prefix_bytes rest (bytes "/")) && mem_byte ":" (cut_byte "/" rest).1.1 then None else
     let rooted := has_prefix_bytes rest (bytes "//") &&
                   (negb (bool_decide (scheme = [])) || negb (has_prefix_bytes rest (bytes "///"))) in
     let '(authority, _, _) := cut_byte "/" (drop 2 rest) in
     let path := if rooted then drop (2 + length authority) rest else rest in
     host ← (if rooted then parseAuthority authority else Some []);
     _ ← unescape_bytes path;
     Some (scheme, host));
  _ ← unescape_bytes fragment;
  Some (of_bytes parsed.1, of_bytes parsed.2).
End Url.

(** ** A duration in nanoseconds reads back *)

Definition nanoseconds (d : Z) : string := of_bytes (utoa d ++ bytes "ns").

Lemma leading_int_digits l : ∀ x rest, forallb is_digit l = true → 0 ≤ x →
  match rest with c :: _ => is_digit c = false | [] => True end →
  List.fold_left (fun acc c => 10 * acc + digit_value c) l x ≤ 2 ^ 63 →
  leading_int x (l ++ rest) = Some (List.fold_left (fun acc c => 10 * acc + digit_value c) l x, rest).
Proof.
  induction l as [|c l IH]; intros x rest Hd Hx Hr Hmax; cbn [app leading_int].
  - destruct rest as [|c rest]; [done|]. cbn. by rewrite Hr.
  - cbn [forallb] in Hd. apply andb_true_iff in Hd as [Hc Hl]. cbn [List.fold_left] in Hmax |- *. rewrite Hc. cbn [negb].
    assert (0 ≤ digit_value c ≤ 9) as Hv by (unfold is_digit in Hc; to_prop in Hc; unfold digit_value; lia).
    assert (10 * x + digit_value c ≤ 2 ^ 63) as Hle.
    { etransitivity; [|exact Hmax]. rewrite fold_digits_acc. pose proof (digits_value_range l Hl) as [H0 _].
      assert (1 ≤ 10 ^ Z.of_nat (length l)) by (pose proof (Z.pow_pos_nonneg 10 (Z.of_nat (length l))); lia). nia. }
    destruct (Z.ltb_spec (2 ^ 63 / 10) x) as [Hlt|_]; [pose proof (Z.div_le_lower_bound (2 ^ 63) 10 x); lia|].
    replace (x * 10 + digit_value c) with (10 * x + digit_value c) by lia.
    destruct (Z.ltb_spec (2 ^ 63) (10 * x + digit_value c)); [lia|]. apply IH; [done|lia|done|done].
Qed.
Lemma nanoseconds_parts l fuel : forallb is_digit l = true → l ≠ [] → digits_value l ≤ 2 ^ 63 →
  duration_parts (S (S fuel)) 0 (l ++ bytes "ns") = Some (digits_value l).
Proof.
  intros Hd Hne Hmax. pose proof (digits_value_range l Hd) as [H0 _]. destruct l as [|c l]; [done|].
  remember (c :: l) as ds eqn:Eds. assert (is_digit c = true) as Hc by (subst ds; by apply andb_true_iff in Hd as [? _]).
  assert (ds ++ bytes "ns" = c :: l ++ bytes "ns") as Ecs by by subst ds.
  cbn [duration_parts]. rewrite Ecs. rewrite Hc. cbn [orb negb]. rewrite <- Ecs.
  rewrite (leading_int_digits ds 0 (bytes "ns")) by (done || exact Hmax). cbn [mbind option_bind].
  change (List.fold_left _ ds 0) with (digits_value ds).
  assert ((length (bytes "ns") =? length (ds ++ bytes "ns"))%nat = false) as ->.
  { apply Nat.eqb_neq. rewrite length_app. subst ds. cbn. lia. }
  change (bytes "ns") with ["n"%char; "s"%char]. cbn [negb andb]. change (beq "n" ".") with false. cbv iota beta.
  change (unit_text ["n"%char; "s"%char]) with (bytes "ns", @nil ascii). cbv iota beta.
  rewrite bool_decide_eq_false_2 by done. change (unitMap (bytes "ns")) with (Some 1). cbn [mbind option_bind].
  rewrite Z.div_1_r. destruct (Z.ltb_spec (2 ^ 63) (digits_value ds)); [lia|]. change (0 <? 0) with false. cbv iota.
  rewrite Z.mul_1_r, Z.add_0_r. destruct (Z.ltb_spec (2 ^ 63) (digits_value ds)); [lia|].
  rewrite Z.add_0_l, Z.mod_small by lia. destruct (Z.ltb_spec (2 ^ 63) (digits_value ds)); [lia|]. done.
Qed.
Lemma ParseDuration_nanoseconds d : 0 < d ≤ max_int64 → ParseDuration (nanoseconds d) = Some d.
Proof.
  intros Hd. unfold ParseDuration, nanoseconds. rewrite bytes_of_bytes. unfold max_int64 in *.
  pose proof (utoa_digits d ltac:(lia)) as Hdig. pose proof (utoa_value d ltac:(lia)) as Hval. pose proof (utoa_nonempty d ltac:(lia)) as Hne.
  assert (∃ fuel, length (utoa d ++ bytes "ns") = S (S fuel)) as [fuel Hf].
  { exists (length (utoa d)). rewrite length_app. change (length (bytes "ns")) with 2%nat. lia. }
  assert (∀ l, l = utoa d ++ bytes "ns" → (match l with
                   | c :: l' => if beq c "-" then (true, l') else if beq c "+" then (false, l') else (false, l)
                   | [] => (false, l) end) = (false, l)) as Hsign.
  { intros l ->. destruct (utoa d) as [|c u]; [done|]. cbn [app]. apply andb_true_iff in Hdig as [Hc _].
    destruct (beq c "-") eqn:E1; [apply beq_eq in E1 as ->; by vm_compute in Hc|].
    destruct (beq c "+") eqn:E2; [apply beq_eq in E2 as ->; by vm_compute in Hc|]. done. }
  rewrite (Hsign _ eq_refl). rewrite !bool_decide_eq_false_2.
  - rewrite Hf, nanoseconds_parts by (done || lia). rewrite Hval. cbn [mbind option_bind].
    destruct (Z.ltb_spec (2 ^ 63 - 1) d); [lia|done].
  - intros E. apply (f_equal length) in E. by rewrite Hf in E.
  - intros E. apply (f_equal length) in E. rewrite Hf in E. by cbn in E.
Qed.
Lemma duration_parts_nonneg fuel d l n : 0 ≤ d → duration_parts fuel d l = Some n → 0 ≤ n.
Proof.
  revert d l. induction fuel as [|fuel IH]; intros d l Hd; destruct l as [|c l]; [by intros [= <-]|done|by intros [= <-]|].
  cbn [duration_parts]. unfold mbind, option_bind. intros H. repeat case_match; try discriminate H.
  all: eapply IH; [|exact H]; by apply Z.mod_pos_bound.
Qed.
Lemma ParseDuration_range s d : ParseDuration s = Some d → d ≤ max_int64.
Proof.
  unfold ParseDuration. case_match. case_bool_decide; [by intros [= <-]|]. case_bool_decide; [done|].
  destruct (duration_parts _ _ _) as [n|] eqn:E; [|done]. cbn [mbind option_bind].
  apply duration_parts_nonneg in E; [|done]. destruct b; [intros [= <-]; unfold max_int64; lia|].
  destruct (Z.ltb_spec max_int64 n); [done|]. intros [= <-]. lia.
Qed.
