(* ===== verification/Config.v ===== *)
(** The configuration, [internal/config/config.go]: its defaults, reading it from the
    environment, and the checks.

    The environment is a function from names to values, as [lookupEnv] is (godotenv
    has put the file .env into it).  The time zones of the machine and the IP literals
    of addresses are parameters. *)
From stdpp Require Import base list strings.
From Stdlib Require Import ZArith Lia Ascii.
From S2P Require Import Prelude GoStrings GoErrors GoTime GoConf.
Local Open Scope Z_scope.

(** ** Data *)

Record AppConfig := {
  Name : string; Environment : string; URL : string; BindHost : string; Port : Z; ShutdownTimeout : Z; Timezone : string;
  LogoFile : string; WideLogoFile : string; FaviconFile : string
}.
Record DatabaseConfig := {
  db_Network : string; db_Host : string; db_Port : Z; db_Socket : string; db_Name : string; db_User : string; db_Password : string
}.
Record AuthConfig := { LoginFailureWindow : Z; LoginMaxFailures : Z; LoginLockout : Z }.
Record SessionConfig := { CookieName : string; Lifetime : Z; RememberLifetime : Z; Secure : bool }.
Record FincloudConfig := {
  BaseURL : string; fc_Username : string; fc_Password : string; fc_LocationID : string; fc_RoleID : string; CAFile : string;
  InsecureTLS : bool; Timeout : Z; MaxReportSize : Z
}.
Record SnapshotConfig := { RefreshInterval : Z; RefreshOnStart : bool }.
Record SLIKConfig := { Concurrency : Z; MaxUploadBytes : Z; StorageDir : string }.
Record Config := {
  App : AppConfig; APIKey : string; BootstrapAccessManagers : string; Database : DatabaseConfig; Session : SessionConfig;
  Auth : AuthConfig; DWH : string; MSO : string; Fincloud : FincloudConfig; Snapshot : SnapshotConfig; SLIK : SLIKConfig;
  DefaultParticipantCode : string
}.

Definition defaultAppShutdownTimeout : Z := 45.            (* seconds *)
Definition defaultSessionLifetime : Z := 24 * 3600.
Definition defaultSessionRememberLifetime : Z := 30 * 24 * 3600.
Definition defaultSnapshotInterval : Z := 3 * 3600.
Definition defaultFincloudTimeout : Z := 30.
Definition defaultReportLimit : Z := 100 * 2 ^ 20.
Definition defaultSLIKUploadLimit : Z := 64 * 2 ^ 20.

(** ** Values *)

Definition parsePort (key value : string) : res Z :=
  match Atoi value with
  | Some port => if (port <? 1) || (65535 <? port) then Fail (Msg (key +:+ " must be an integer between 1 and 65535")%string) else Ok port
  | None => Fail (Msg (key +:+ " must be an integer between 1 and 65535")%string)
  end.
Definition parseBool (key value : string) : res bool :=
  match ParseBool value with
  | Some result => Ok result
  | None => Fail (Wrap (key +:+ " must be a boolean: %w")%string (Msg "invalid syntax"))
  end.
Definition parseDuration (key value : string) : res Z :=
  match ParseDuration value with
  | Some duration => if duration <=? 0 then Fail (Msg (key +:+ " must be a positive duration")%string) else Ok duration
  | None => Fail (Msg (key +:+ " must be a positive duration")%string)
  end.
Definition parsePositiveInt (key value : string) (maximum : Z) : res Z :=
  match Atoi value with
  | Some parsed =>
      if (parsed <=? 0) || (maximum <? parsed) then Fail (Msg (key +:+ " must be an integer between 1 and %d")%string) else Ok parsed
  | None => Fail (Msg (key +:+ " must be an integer between 1 and %d")%string)
  end.
Definition parsePositiveInt64 (key value : string) : res Z :=
  match Atoi value with
  | Some parsed => if parsed <=? 0 then Fail (Msg (key +:+ " must be a positive integer")%string) else Ok parsed
  | None => Fail (Msg (key +:+ " must be a positive integer")%string)
  end.

(** [net.JoinHostPort] *)
Definition JoinHostPort (host port : string) : string :=
  if mem_byte ":" (bytes host) then ("[" +:+ host +:+ "]:" +:+ port)%string else (host +:+ ":" +:+ port)%string.
Definition Address (app : AppConfig) : string := JoinHostPort (BindHost app) (Itoa (Port app)).
Definition IsDevelopment (app : AppConfig) : bool := seqb (Environment app) "development".

Section Config.
(** [time.LoadLocation] knows the zone; how [url.Parse] reads an IP literal *)
Variable installed : string → bool.
Variable ip_literal : list ascii → option (list ascii).

(** ** [validate] *)

Definition required_fields (config : Config) : list (string * string) :=
  [("APP_NAME", Name (App config)); ("APP_ENV", Environment (App config)); ("APP_TIMEZONE", Timezone (App config));
   ("DB_NAME", db_Name (Database config)); ("DB_USER", db_User (Database config));
   ("SESSION_COOKIE_NAME", CookieName (Session config)); ("SLIK_STORAGE_DIR", StorageDir (SLIK config))]%string.
(** The first field without a value *)
Fixpoint require (message : string) (missing : string → bool) (fields : list (string * string)) : res unit :=
  match fields with
  | [] => Ok tt
  | (key, value) :: rest => if missing value then Fail (Msg (key +:+ message)%string) else require message missing rest
  end.
Definition check_network (database : DatabaseConfig) : res unit :=
  if seqb (db_Network database) "tcp" then fail_if (empty (db_Host database)) (Msg "DB_HOST must not be empty") else
  if seqb (db_Network database) "unix" then fail_if (empty (db_Socket database)) (Msg "DB_SOCKET must not be empty when DB_NETWORK=unix") else
  Fail (Msg "DB_NETWORK must be one of tcp or unix").
Definition absolute (schemes : list string) (raw : string) : bool :=
  match url_Parse ip_literal raw with
  | Some (scheme, host) => negb (empty host) && existsb (seqb scheme) schemes
  | None => false
  end.
Definition validate (config : Config) : res unit :=
  require " must not be empty" empty (required_fields config);;
  check_network (Database config);;
  fail_if (negb (existsb (seqb (Environment (App config))) ["development"; "production"; "test"]%string))
          (Msg "APP_ENV must be one of development, production, or test");;
  fail_if (negb (absolute ["http"; "https"]%string (URL (App config)))) (Msg "APP_URL must be an absolute http or https URL");;
  fail_if (negb (installed (Timezone (App config)))) (Wrap "APP_TIMEZONE must name an installed timezone: %w" (Msg "unknown time zone")).

Definition server_fields (config : Config) : list (string * string) :=
  [("DWH_DBSTRING", DWH config); ("MSO_DBSTRING", MSO config); ("FINCLOUD_BASE_URL", BaseURL (Fincloud config));
   ("FINCLOUD_SYSTEM_USERNAME", fc_Username (Fincloud config)); ("FINCLOUD_SYSTEM_PASSWORD", fc_Password (Fincloud config));
   ("FINCLOUD_SYSTEM_LOCATION_ID", fc_LocationID (Fincloud config)); ("FINCLOUD_SYSTEM_ROLE_ID", fc_RoleID (Fincloud config))]%string.
Definition ValidateServer (config : Config) : res unit :=
  require " must not be empty for server startup" (fun value => empty (TrimSpace value)) (server_fields config);;
  fail_if (negb (absolute ["https"]%string (BaseURL (Fincloud config)))) (Msg "FINCLOUD_BASE_URL must be an absolute https URL").

(** ** [parse] *)

Definition parse (lookup : string → option string) : res Config :=
  let value := fun key fallback => default fallback (lookup key) in
  let text := fun key fallback => TrimSpace (value key fallback) in
  let duration := fun key seconds => parseDuration key (value key (seconds_text seconds)) in
  appPort ← parsePort "APP_PORT" (value "APP_PORT" (Itoa 8080));
  let databaseNetwork := text "DB_NETWORK" "tcp" in
  databasePort ← (if seqb databaseNetwork "tcp" then parsePort "DB_PORT" (value "DB_PORT" (Itoa 3306)) else Ok 0);
  shutdownTimeout ← duration "APP_SHUTDOWN_TIMEOUT" defaultAppShutdownTimeout;
  maxFailures ← parsePositiveInt "AUTH_LOGIN_MAX_FAILURES" (value "AUTH_LOGIN_MAX_FAILURES" "5") 1000;
  failureWindow ← parseDuration "AUTH_LOGIN_FAILURE_WINDOW" (value "AUTH_LOGIN_FAILURE_WINDOW" "15m");
  lockout ← parseDuration "AUTH_LOGIN_LOCKOUT" (value "AUTH_LOGIN_LOCKOUT" "15m");
  sessionSecure ← parseBool "SESSION_SECURE" (value "SESSION_SECURE" "false");
  sessionLifetime ← duration "SESSION_LIFETIME" defaultSessionLifetime;
  rememberLifetime ← duration "SESSION_REMEMBER_LIFETIME" defaultSessionRememberLifetime;
  insecureTLS ← parseBool "FINCLOUD_INSECURE_TLS" (value "FINCLOUD_INSECURE_TLS" "false");
  snapshotInterval ← duration "TODAY_SNAPSHOT_REFRESH_INTERVAL" defaultSnapshotInterval;
  snapshotOnStart ← parseBool "TODAY_SNAPSHOT_REFRESH_ON_START" (value "TODAY_SNAPSHOT_REFRESH_ON_START" "true");
  fincloudTimeout ← duration "FINCLOUD_HTTP_TIMEOUT" defaultFincloudTimeout;
  maxReportSize ← parsePositiveInt64 "FINCLOUD_MAX_REPORT_BYTES" (value "FINCLOUD_MAX_REPORT_BYTES" (Itoa defaultReportLimit));
  slikConcurrency ← parsePositiveInt "SLIK_CONCURRENCY" (value "SLIK_CONCURRENCY" (Itoa 16)) 32;
  slikUploadLimit ← parsePositiveInt64 "SLIK_MAX_UPLOAD_BYTES" (value "SLIK_MAX_UPLOAD_BYTES" (Itoa defaultSLIKUploadLimit));
  fail_if (256 * 2 ^ 20 <? slikUploadLimit) (Msg "SLIK_MAX_UPLOAD_BYTES must not exceed 268435456");;
  let config := {|
    APIKey := text "THOR_API_KEY" ""; BootstrapAccessManagers := text "THOR_BOOTSTRAP_ACCESS_MANAGERS" "";
    App := {| Name := text "APP_NAME" "THOR Rate Sync"; Environment := text "APP_ENV" "development";
              URL := text "APP_URL" "http://localhost:8080"; BindHost := text "APP_BIND_HOST" ""; Port := appPort;
              ShutdownTimeout := shutdownTimeout; Timezone := text "APP_TIMEZONE" "Asia/Jakarta";
              LogoFile := text "APP_LOGO_FILE" ""; WideLogoFile := text "APP_LOGO_WIDE_FILE" "";
              FaviconFile := text "APP_FAVICON_FILE" "" |};
    Auth := {| LoginFailureWindow := failureWindow; LoginMaxFailures := maxFailures; LoginLockout := lockout |};
    Database := {| db_Network := databaseNetwork; db_Host := text "DB_HOST" "127.0.0.1"; db_Port := databasePort;
                   db_Socket := text "DB_SOCKET" ""; db_Name := text "DB_NAME" ""; db_User := text "DB_USER" "";
                   db_Password := value "DB_PASSWORD" "" |};
    Session := {| CookieName := text "SESSION_COOKIE_NAME" "trs_session"; Lifetime := sessionLifetime;
                  RememberLifetime := rememberLifetime; Secure := sessionSecure |};
    DWH := text "DWH_DBSTRING" ""; MSO := text "MSO_DBSTRING" "";
    Fincloud := {| BaseURL := text "FINCLOUD_BASE_URL" ""; fc_Username := text "FINCLOUD_SYSTEM_USERNAME" "";
                   fc_Password := value "FINCLOUD_SYSTEM_PASSWORD" ""; fc_LocationID := text "FINCLOUD_SYSTEM_LOCATION_ID" "";
                   fc_RoleID := text "FINCLOUD_SYSTEM_ROLE_ID" ""; CAFile := text "FINCLOUD_CA_FILE" "";
                   InsecureTLS := insecureTLS; Timeout := fincloudTimeout; MaxReportSize := maxReportSize |};
    Snapshot := {| RefreshInterval := snapshotInterval; RefreshOnStart := snapshotOnStart |};
    SLIK := {| Concurrency := slikConcurrency; MaxUploadBytes := slikUploadLimit;
               StorageDir := text "SLIK_STORAGE_DIR" "./data/slik" |};
    DefaultParticipantCode := text "LPS_DEFAULT_KODE_KEPESERTAAN" "31300082" |}%string in
  validate config;; Ok config.
End Config.

(** ** Settings that spell a configuration *)

Definition bool_text (b : bool) : string := if b then "true" else "false".
Definition settings (c : Config) : list (string * string) :=
  [("APP_PORT", Itoa (Port (App c))); ("DB_NETWORK", db_Network (Database c));
   ("APP_SHUTDOWN_TIMEOUT", nanoseconds (ShutdownTimeout (App c)));
   ("AUTH_LOGIN_MAX_FAILURES", Itoa (LoginMaxFailures (Auth c)));
   ("AUTH_LOGIN_FAILURE_WINDOW", nanoseconds (LoginFailureWindow (Auth c)));
   ("AUTH_LOGIN_LOCKOUT", nanoseconds (LoginLockout (Auth c)));
   ("SESSION_SECURE", bool_text (Secure (Session c))); ("SESSION_LIFETIME", nanoseconds (Lifetime (Session c)));
   ("SESSION_REMEMBER_LIFETIME", nanoseconds (RememberLifetime (Session c)));
   ("FINCLOUD_INSECURE_TLS", bool_text (InsecureTLS (Fincloud c)));
   ("TODAY_SNAPSHOT_REFRESH_INTERVAL", nanoseconds (RefreshInterval (Snapshot c)));
   ("TODAY_SNAPSHOT_REFRESH_ON_START", bool_text (RefreshOnStart (Snapshot c)));
   ("FINCLOUD_HTTP_TIMEOUT", nanoseconds (Timeout (Fincloud c)));
   ("FINCLOUD_MAX_REPORT_BYTES", Itoa (MaxReportSize (Fincloud c)));
   ("SLIK_CONCURRENCY", Itoa (Concurrency (SLIK c))); ("SLIK_MAX_UPLOAD_BYTES", Itoa (MaxUploadBytes (SLIK c)));
   ("THOR_API_KEY", APIKey c); ("THOR_BOOTSTRAP_ACCESS_MANAGERS", BootstrapAccessManagers c);
   ("APP_NAME", Name (App c)); ("APP_ENV", Environment (App c)); ("APP_URL", URL (App c));
   ("APP_BIND_HOST", BindHost (App c)); ("APP_TIMEZONE", Timezone (App c)); ("APP_LOGO_FILE", LogoFile (App c));
   ("APP_LOGO_WIDE_FILE", WideLogoFile (App c)); ("APP_FAVICON_FILE", FaviconFile (App c));
   ("DB_HOST", db_Host (Database c)); ("DB_SOCKET", db_Socket (Database c)); ("DB_NAME", db_Name (Database c));
   ("DB_USER", db_User (Database c)); ("DB_PASSWORD", db_Password (Database c));
   ("SESSION_COOKIE_NAME", CookieName (Session c)); ("DWH_DBSTRING", DWH c); ("MSO_DBSTRING", MSO c);
   ("FINCLOUD_BASE_URL", BaseURL (Fincloud c)); ("FINCLOUD_SYSTEM_USERNAME", fc_Username (Fincloud c));
   ("FINCLOUD_SYSTEM_PASSWORD", fc_Password (Fincloud c)); ("FINCLOUD_SYSTEM_LOCATION_ID", fc_LocationID (Fincloud c));
   ("FINCLOUD_SYSTEM_ROLE_ID", fc_RoleID (Fincloud c)); ("FINCLOUD_CA_FILE", CAFile (Fincloud c));
   ("SLIK_STORAGE_DIR", StorageDir (SLIK c)); ("LPS_DEFAULT_KODE_KEPESERTAAN", DefaultParticipantCode c)]%string ++
  (if seqb (db_Network (Database c)) "tcp" then [("DB_PORT"%string, Itoa (db_Port (Database c)))] else []).
Definition lookup_in (settings : list (string * string)) (key : string) : option string :=
  snd <$> List.find (fun setting => seqb key (fst setting)) settings.

(** What every accepted configuration is: numbers within their bounds, texts without
    space around them *)
Definition duration_ok (d : Z) : Prop := 0 < d ≤ max_int64.
Definition numbers_ok (c : Config) : Prop :=
  1 ≤ Port (App c) ≤ 65535 ∧
  (if seqb (db_Network (Database c)) "tcp" then 1 ≤ db_Port (Database c) ≤ 65535 else db_Port (Database c) = 0) ∧
  1 ≤ LoginMaxFailures (Auth c) ≤ 1000 ∧ 1 ≤ Concurrency (SLIK c) ≤ 32 ∧ 1 ≤ MaxUploadBytes (SLIK c) ≤ 256 * 2 ^ 20 ∧
  1 ≤ MaxReportSize (Fincloud c) ≤ max_int64 ∧
  Forall duration_ok [ShutdownTimeout (App c); LoginFailureWindow (Auth c); LoginLockout (Auth c); Lifetime (Session c);
                      RememberLifetime (Session c); RefreshInterval (Snapshot c); Timeout (Fincloud c)].
Definition texts_ok (c : Config) : Prop :=
  Forall (λ text, TrimSpace text = text)
    [APIKey c; BootstrapAccessManagers c; Name (App c); Environment (App c); URL (App c); BindHost (App c); Timezone (App c);
     LogoFile (App c); WideLogoFile (App c); FaviconFile (App c); db_Network (Database c); db_Host (Database c);
     db_Socket (Database c); db_Name (Database c); db_User (Database c); CookieName (Session c); DWH c; MSO c;
     BaseURL (Fincloud c); fc_Username (Fincloud c); fc_LocationID (Fincloud c); fc_RoleID (Fincloud c); CAFile (Fincloud c);
     StorageDir (SLIK c); DefaultParticipantCode c].

Lemma parsePort_Ok key value port : parsePort key value = Ok port → 1 ≤ port ≤ 65535.
Proof. unfold parsePort. destruct (Atoi value) as [n|]; [|done]. destruct (_ || _) eqn:E; [done|]. intros [= <-]. to_prop in E. lia. Qed.
Lemma parsePort_text key port : 1 ≤ port ≤ 65535 → parsePort key (Itoa port) = Ok port.
Proof.
  intros H. unfold parsePort. rewrite Atoi_Itoa by (unfold min_int64, max_int64; lia).
  destruct (Z.ltb_spec port 1); [lia|]. destruct (Z.ltb_spec 65535 port); [lia|done].
Qed.
Lemma parsePositiveInt_Ok key value maximum n : parsePositiveInt key value maximum = Ok n → 1 ≤ n ≤ maximum.
Proof. unfold parsePositiveInt. destruct (Atoi value) as [p|]; [|done]. destruct (_ || _) eqn:E; [done|]. intros [= <-]. to_prop in E. lia. Qed.
Lemma parsePositiveInt_text key maximum n : maximum ≤ max_int64 → 1 ≤ n ≤ maximum → parsePositiveInt key (Itoa n) maximum = Ok n.
Proof.
  intros Hm H. unfold parsePositiveInt. rewrite Atoi_Itoa by (unfold min_int64; lia).
  destruct (Z.leb_spec n 0); [lia|]. destruct (Z.ltb_spec maximum n); [lia|done].
Qed.
Lemma Atoi_range s n : Atoi s = Some n → min_int64 ≤ n ≤ max_int64.
Proof. unfold Atoi, atoi_bytes. case_match. destruct (_ || _); [done|]. destruct (_ && _) eqn:E; [|done]. intros [= <-]. by to_prop in E. Qed.
Lemma parsePositiveInt64_Ok key value n : parsePositiveInt64 key value = Ok n → 1 ≤ n ≤ max_int64.
Proof.
  unfold parsePositiveInt64. destruct (Atoi value) as [p|] eqn:Ea; [|done]. destruct (Z.leb_spec p 0); [done|]. intros [= <-].
  apply Atoi_range in Ea. lia.
Qed.
Lemma parsePositiveInt64_text key n : 1 ≤ n ≤ max_int64 → parsePositiveInt64 key (Itoa n) = Ok n.
Proof. intros H. unfold parsePositiveInt64. rewrite Atoi_Itoa by (unfold min_int64; lia). destruct (Z.leb_spec n 0); [lia|done]. Qed.
Lemma parseDuration_Ok key value d : parseDuration key value = Ok d → duration_ok d.
Proof.
  unfold parseDuration. destruct (ParseDuration value) as [n|] eqn:E; [|done]. destruct (Z.leb_spec n 0); [done|]. intros [= <-].
  apply ParseDuration_range in E. unfold duration_ok. lia.
Qed.
Lemma parseDuration_text key d : duration_ok d → parseDuration key (nanoseconds d) = Ok d.
Proof. intros H. unfold parseDuration. rewrite ParseDuration_nanoseconds by done. unfold duration_ok in H. destruct (Z.leb_spec d 0); [lia|done]. Qed.
Lemma parseBool_text key b : parseBool key (bool_text b) = Ok b.
Proof. by destruct b. Qed.

Section Facts.
Variable installed : string → bool.
Variable ip_literal : list ascii → option (list ascii).

Lemma config_Ok lookup c : parse installed ip_literal lookup = Ok c → validate installed ip_literal c = Ok tt ∧ numbers_ok c ∧ texts_ok c.
Proof.
  unfold parse. intros H.
  apply bind_Ok in H as (appPort & HP%parsePort_Ok & H). apply bind_Ok in H as (databasePort & HD & H).
  apply bind_Ok in H as (d1 & H1%parseDuration_Ok & H). apply bind_Ok in H as (mf & Hmf%parsePositiveInt_Ok & H).
  apply bind_Ok in H as (d2 & H2%parseDuration_Ok & H). apply bind_Ok in H as (d3 & H3%parseDuration_Ok & H).
  apply bind_Ok in H as (b1 & _ & H). apply bind_Ok in H as (d4 & H4%parseDuration_Ok & H).
  apply bind_Ok in H as (d5 & H5%parseDuration_Ok & H). apply bind_Ok in H as (b2 & _ & H).
  apply bind_Ok in H as (d6 & H6%parseDuration_Ok & H). apply bind_Ok in H as (b3 & _ & H).
  apply bind_Ok in H as (d7 & H7%parseDuration_Ok & H). apply bind_Ok in H as (report & Hr%parsePositiveInt64_Ok & H).
  apply bind_Ok in H as (conc & Hc%parsePositiveInt_Ok & H). apply bind_Ok in H as (upload & Hu%parsePositiveInt64_Ok & H).
  apply bind_Ok in H as ([] & Hmax%fail_if_Ok & H). cbv zeta in H. apply bind_Ok in H as ([] & Hv & H). apply Ok_inj in H as <-.
  split; [exact Hv|]. apply Z.ltb_ge in Hmax. split.
  - unfold numbers_ok. cbn [App Port Database db_Network db_Port Auth LoginMaxFailures SLIK Concurrency MaxUploadBytes Fincloud MaxReportSize
      ShutdownTimeout LoginFailureWindow LoginLockout Session Lifetime RememberLifetime Snapshot RefreshInterval Timeout].
    split; [done|]. split; [|split_and!; try lia].
    + destruct (seqb _ _); [by apply parsePort_Ok in HD|by apply Ok_inj in HD].
    + repeat (apply Forall_cons; split; [assumption|]). by apply Forall_nil.
  - unfold texts_ok. repeat (apply Forall_cons; split; [apply TrimSpace_idem|]). by apply Forall_nil.
Qed.

(** What [validate] lets pass *)
Definition checked (c : Config) : Prop :=
  Forall (λ field, field.2 ≠ EmptyString) (required_fields c) ∧
  (db_Network (Database c) = "tcp"%string ∧ db_Host (Database c) ≠ EmptyString ∨
   db_Network (Database c) = "unix"%string ∧ db_Socket (Database c) ≠ EmptyString) ∧
  Environment (App c) ∈ ["development"; "production"; "test"]%string ∧
  (∃ scheme host, url_Parse ip_literal (URL (App c)) = Some (scheme, host) ∧ host ≠ EmptyString ∧ scheme ∈ ["http"; "https"]%string) ∧
  installed (Timezone (App c)) = true.
Lemma require_Ok message missing fields : require message missing fields = Ok tt ↔ Forall (λ field, missing field.2 = false) fields.
Proof.
  induction fields as [|[key value] fields IH]; [by split|]. cbn [require]. rewrite Forall_cons. cbn [snd].
  destruct (missing value); [split; [done|by intros [? _]]|]. rewrite IH. by split; [|intros [_ ?]].
Qed.
Lemma empty_false s : empty s = false ↔ s ≠ EmptyString.
Proof. unfold empty, seqb. apply bool_decide_eq_false. Qed.
Lemma among s l : existsb (seqb s) l = true ↔ s ∈ l.
Proof.
  rewrite existsb_exists. split.
  - intros (x & Hx & ->%seqb_eq). by apply list_elem_of_In.
  - intros H. exists s. split; [by apply list_elem_of_In|by apply seqb_eq].
Qed.
Lemma absolute_iff schemes raw : absolute ip_literal schemes raw = true ↔
  ∃ scheme host, url_Parse ip_literal raw = Some (scheme, host) ∧ host ≠ EmptyString ∧ scheme ∈ schemes.
Proof.
  unfold absolute. destruct (url_Parse ip_literal raw) as [[scheme host]|].
  - rewrite andb_true_iff, negb_true_iff, empty_false, among. split; [intros [? ?]; by exists scheme, host|].
    by intros (? & ? & [= <- <-] & ? & ?).
  - split; [done|]. by intros (? & ? & ? & _).
Qed.
Lemma check_network_Ok d : check_network d = Ok tt ↔
  db_Network d = "tcp"%string ∧ db_Host d ≠ EmptyString ∨ db_Network d = "unix"%string ∧ db_Socket d ≠ EmptyString.
Proof.
  unfold check_network. destruct (seqb (db_Network d) "tcp") eqn:E1; [|destruct (seqb (db_Network d) "unix") eqn:E2].
  - apply seqb_eq in E1. rewrite fail_if_Ok, empty_false, E1. split; [by left|]. by intros [[_ ?]|[? _]].
  - apply seqb_eq in E2. rewrite fail_if_Ok, empty_false, E2. split; [by right|]. by intros [[? _]|[_ ?]].
  - split; [done|]. intros [[E _]|[E _]]; by rewrite E in *.
Qed.
Lemma validate_Ok c : validate installed ip_literal c = Ok tt ↔ checked c.
Proof.
  unfold validate, checked. split.
  - intros H. apply bind_Ok in H as ([] & H1%require_Ok & H). apply bind_Ok in H as ([] & H2%check_network_Ok & H).
    apply bind_Ok in H as ([] & H3%fail_if_Ok & H). apply bind_Ok in H as ([] & H4%fail_if_Ok & H5%fail_if_Ok).
    apply negb_false_iff in H3, H4, H5. apply among in H3. apply absolute_iff in H4. split_and!; try done.
    eapply Forall_impl; [exact H1|]. intros field. apply empty_false.
  - intros (H1 & H2 & H3%among & H4%absolute_iff & H5).
    rewrite (proj2 (require_Ok _ _ _)); [|eapply Forall_impl; [exact H1|]; intros field; apply empty_false].
    rewrite (proj2 (check_network_Ok _)) by done. cbn [mbind result_bind]. by rewrite H3, H4, H5.
Qed.

(** Looks the names up among the settings of a configuration *)
Ltac look_up entries :=
  repeat match goal with
  | |- context [lookup_in entries ?key] =>
      lazymatch key with
      | "DB_PORT"%string => fail
      | _ => let v := fresh "v" in let H := fresh "H" in
             evar (v : string); assert (lookup_in entries key = Some v) as H by (unfold v; reflexivity);
             rewrite H; clear H; subst v; cbn [default snd id]
      end
  end.
Lemma parse_settings c : validate installed ip_literal c = Ok tt → numbers_ok c → texts_ok c →
  parse installed ip_literal (lookup_in (settings c)) = Ok c.
Proof.
  unfold numbers_ok, texts_ok. intros Hv (HP & HD & Hmf & Hc & Hu & Hr & Hd) Ht.
  repeat (apply Forall_cons in Hd as [? Hd]). repeat (apply Forall_cons in Ht as [? Ht]).
  set (entries := settings c). unfold parse. look_up entries.
  repeat match goal with Ht : TrimSpace ?t = ?t |- _ => rewrite ?Ht; clear Ht end.
  rewrite parsePort_text by done. cbn [mbind result_bind].
  assert ((if seqb (db_Network (Database c)) "tcp" then parsePort "DB_PORT" (default (Itoa 3306) (lookup_in entries "DB_PORT")) else Ok 0) =
    Ok (db_Port (Database c))) as ->.
  { subst entries. unfold settings. destruct (seqb (db_Network (Database c)) "tcp"); [by apply parsePort_text|by rewrite HD]. }
  cbn [mbind result_bind].
  rewrite !parseDuration_text, !parsePositiveInt_text, !parsePositiveInt64_text, !parseBool_text
    by (done || (unfold max_int64; lia)).
  cbn [mbind result_bind]. destruct (Z.ltb_spec (256 * 2 ^ 20) (MaxUploadBytes (SLIK c))); [lia|]. cbn [fail_if mbind result_bind].
  match goal with |- (validate _ _ ?c' ≫= _) = _ => assert (c' = c) as -> by (by destruct c as [[] ? ? [] [] [] ? ? [] [] [] ?]) end.
  by rewrite Hv.
Qed.
End Facts.

(** Evaluates the values of an environment that sets only two names *)
Ltac evaluate_defaults :=
  repeat match goal with |- context [seqb ?k ?name] =>
    lazymatch name with "DB_NAME"%string => idtac | "DB_USER"%string => idtac end;
    let b := eval vm_compute in (seqb k name) in change (seqb k name) with b end; cbv iota; cbn [default id];
  repeat match goal with
  | |- context [parsePort ?k ?v] => let r := eval vm_compute in (parsePort k v) in replace (parsePort k v) with r by (vm_compute; reflexivity)
  | |- context [parseDuration ?k ?v] => let r := eval vm_compute in (parseDuration k v) in replace (parseDuration k v) with r by (vm_compute; reflexivity)
  | |- context [parseBool ?k ?v] => let r := eval vm_compute in (parseBool k v) in replace (parseBool k v) with r by (vm_compute; reflexivity)
  | |- context [parsePositiveInt ?k ?v ?m] =>
      let r := eval vm_compute in (parsePositiveInt k v m) in replace (parsePositiveInt k v m) with r by (vm_compute; reflexivity)
  | |- context [parsePositiveInt64 ?k ?v] =>
      let r := eval vm_compute in (parsePositiveInt64 k v) in replace (parsePositiveInt64 k v) with r by (vm_compute; reflexivity)
  | |- context [TrimSpace ?v] =>
      assert_fails (is_var v); let r := eval vm_compute in (TrimSpace v) in replace (TrimSpace v) with r by (vm_compute; reflexivity)
  end.

(** ** Properties *)

(** C33: the accepted configurations are exactly the sound ones, and every setting is read
    from its own name.  What [parse] accepts has every number within its bounds, every
    duration positive, every text without space around it, a name for all that is
    required, a known environment and network, an address with scheme and host, and a
    zone the machine knows; and every such configuration is read back, field by field,
    from the environment that spells it. *)
Theorem parse_exactly installed ip_literal c :
  ((∃ lookup, parse installed ip_literal lookup = Ok c) ↔ checked installed ip_literal c ∧ numbers_ok c ∧ texts_ok c) ∧
  (checked installed ip_literal c → numbers_ok c → texts_ok c → parse installed ip_literal (lookup_in (settings c)) = Ok c).
Proof.
  assert (checked installed ip_literal c → numbers_ok c → texts_ok c → parse installed ip_literal (lookup_in (settings c)) = Ok c) as H.
  { intros Hv%validate_Ok. by apply parse_settings. }
  split; [split|exact H].
  - intros [lookup (Hv & Hn & Ht)%config_Ok]. split_and!; [by apply validate_Ok|done..].
  - intros (? & ? & ?). eexists. by apply H.
Qed.

(** What an environment leaves out has its default.  Without any setting but the
    name of the database and its user the configuration is accepted, in every machine
    that knows the zone of Jakarta, with the documented defaults (durations are in
    nanoseconds), and the server does not start with it. *)
Theorem parse_defaults installed ip_literal lookup name user :
  (∀ key, lookup key = (if seqb key "DB_NAME" then Some name else if seqb key "DB_USER" then Some user else None)) →
  TrimSpace name ≠ EmptyString → TrimSpace user ≠ EmptyString → installed "Asia/Jakarta"%string = true →
  ∃ c, parse installed ip_literal lookup = Ok c ∧ is_ok (ValidateServer ip_literal c) = false ∧
    db_Name (Database c) = TrimSpace name ∧ db_User (Database c) = TrimSpace user ∧
    Address (App c) = ":8080"%string ∧ IsDevelopment (App c) = true ∧ APIKey c = EmptyString ∧
    (db_Network (Database c), db_Host (Database c), db_Port (Database c)) = ("tcp", "127.0.0.1", 3306)%string ∧
    (Lifetime (Session c), RememberLifetime (Session c), RefreshInterval (Snapshot c), Timeout (Fincloud c), ShutdownTimeout (App c)) =
      (24 * 3600 * 10 ^ 9, 30 * 24 * 3600 * 10 ^ 9, 3 * 3600 * 10 ^ 9, 30 * 10 ^ 9, 45 * 10 ^ 9) ∧
    (LoginMaxFailures (Auth c), LoginFailureWindow (Auth c), LoginLockout (Auth c)) = (5, 15 * 60 * 10 ^ 9, 15 * 60 * 10 ^ 9) ∧
    (Concurrency (SLIK c), MaxUploadBytes (SLIK c), MaxReportSize (Fincloud c)) = (16, 64 * 2 ^ 20, 100 * 2 ^ 20) ∧
    (Secure (Session c), InsecureTLS (Fincloud c), RefreshOnStart (Snapshot c)) = (false, false, true).
Proof.
  intros Hl Hn Hu Hz. unfold parse. rewrite !Hl. evaluate_defaults.
  change (seqb "tcp" "tcp") with true. cbv iota. cbn [mbind result_bind]. change (256 * 2 ^ 20 <? 67108864) with false. cbn [fail_if mbind result_bind].
  match goal with |- context [validate _ _ ?c ≫= _] => assert (validate installed ip_literal c = Ok tt) as -> end.
  { apply validate_Ok. split_and!; [|left; done|apply list_elem_of_In; cbn; tauto| |done].
    - repeat (apply Forall_cons; split; [done|]). by apply Forall_nil.
    - exists "http"%string, "localhost:8080"%string. split; [vm_compute; reflexivity|]. split; [done|]. apply list_elem_of_In. cbn. tauto. }
  cbn [mbind result_bind]. eexists. split; [reflexivity|]. split; [reflexivity|]. by split_and!.
Qed.

Lemma parse_defaults_witness :
  let lookup := fun key => if seqb key "DB_NAME" then Some " trs "%string else if seqb key "DB_USER" then Some "root"%string else None in
  ∃ c, parse (fun zone => seqb zone "Asia/Jakarta") (fun _ => None) lookup = Ok c ∧ db_Name (Database c) = "trs"%string.
Proof.
  intros lookup. destruct (parse_defaults (fun zone => seqb zone "Asia/Jakarta") (fun _ => None) lookup " trs " "root") as (c & Hc & _ & Hn & _).
  - reflexivity.
  - intros H. vm_compute in H. discriminate H.
  - intros H. vm_compute in H. discriminate H.
  - vm_compute. reflexivity.
  - exists c. split; [exact Hc|]. rewrite Hn. vm_compute. reflexivity.
Defined.
