(* ===== verification/UserPages.v ===== *)
(** The pages of the access management, [internal/features/users/handler.go]: their
    parameters and forms, the calls of the service, and what its errors become.

    A world is that of [Access]: the tables, the faults and what others do. *)
From stdpp Require Import base list strings gmap.
From Stdlib Require Import ZArith Lia Ascii.
From S2P Require Import Prelude GoStrings GoErrors Database GoTime GoPath Directory Access AccessFacts AuditLogs AccessGuarantees BrowserAuth.
Local Open Scope Z_scope.

Inductive access_reply :=
| Users (data : UserPage) (previous next : string)    (* the list, whole or its table *)
| UserDetail (data : Detail)
| Missing                                              (* 404 *)
| BadManagementForm                                    (* 400 *)
| Conflict (message back : string)                     (* 409 *)
| Unprocessable                                        (* 422 *)
| Failure (operation : string) (e : err)               (* 500 *)
| SeeOther (location : string).                        (* 303 *)

Definition users_pageURL (query : string) (page : Z) : string :=
  if page =? 0 then EmptyString else
  ("/access?page=" +:+ QueryEscape (Itoa page) +:+ (if empty query then EmptyString else "&q=" +:+ QueryEscape query))%string.
Definition principal_missing : err := Msg "principal missing".

Section Pages.
Variable similar : list ascii → list ascii → bool.    (* the collation, as in [Access] *)
Variable definitions : list PermissionDefinition.

Definition users_Index (query page_param : string) (principal : option Principal) (w : world access_db) : access_reply * world access_db :=
  match ListPage similar query (webutil_Page page_param) w with
  | (Fail e, w) => (Failure "list access users" e, w)
  | (Ok page, w) =>
      match principal with
      | None => (Failure "prepare access management" principal_missing, w)
      | Some _ => (Users page (users_pageURL (page_Query page) (Previous (page_Pagination page)))
                              (users_pageURL (page_Query page) (Next (page_Pagination page))), w)
      end
  end.
(** A page of the administration carries the principal. *)
Definition with_principal (principal : option Principal) (page : access_reply) : access_reply :=
  match principal with Some _ => page | None => Failure "prepare admin page" principal_missing end.
Definition users_Show (id_param : string) (principal : option Principal) (w : world access_db) : access_reply * world access_db :=
  match RouteID id_param with
  | None => (Missing, w)
  | Some id =>
      match Find definitions id w with
      | (Ok detail, w) => (with_principal principal (UserDetail detail), w)
      | (Fail e, w) => (if Is e UsersErrNotFound then Missing else Failure "show access user" e, w)
      end
  end.

(** The reply to an error of the service *)
Definition mutation_error (principal : option Principal) (e : err) (backURL : string) : access_reply :=
  if Is e UsersErrNotFound then Missing else
  if Is e ErrLastAccessManager then with_principal principal (Conflict "At least one active access manager must remain." backURL) else
  if Is e ErrUnknownPermission || Is e ErrBaselinePermission then Unprocessable else
  Failure "update access user" e.
Definition access_url (id : Z) : string := ("/access/" +:+ Itoa id)%string.
Definition after_mutation (principal : option Principal) (id : Z) (notice : string) (answer : res unit * world access_db) : access_reply * world access_db :=
  match answer with
  | (Ok _, w) => (SeeOther (access_url id +:+ "?notice=" +:+ notice)%string, w)
  | (Fail e, w) => (mutation_error principal e (access_url id), w)
  end.

(** What a form asks: [submitted], the values of "permission" unless the form is refused,
    or a status *)
Inductive management := Replace (submitted : option (list string)) | Activate (active : bool).
Definition users_ReplacePermissions (id_param : string) (submitted : option (list string)) (principal : option Principal) (now : time)
    (w : world access_db) : access_reply * world access_db :=
  match RouteID id_param, submitted with
  | None, _ => (Missing, w)
  | _, None => (BadManagementForm, w)
  | Some id, Some keys =>
      match principal with
      | None => (Failure "replace access permissions" principal_missing, w)
      | Some p => after_mutation principal id "permissions-updated" (ReplacePermissions definitions (SecurityContext p) id keys now w)
      end
  end.
Definition users_setActive (id_param : string) (active : bool) (principal : option Principal) (now : time)
    (w : world access_db) : access_reply * world access_db :=
  match RouteID id_param with
  | None => (Missing, w)
  | Some id =>
      match principal with
      | None => (Failure "change access user status" principal_missing, w)
      | Some p => after_mutation principal id "user-status-updated" (SetActive (SecurityContext p) id active now w)
      end
  end.
Definition manage (m : management) (id_param : string) (principal : option Principal) (now : time) (w : world access_db)
    : access_reply * world access_db :=
  match m with
  | Replace submitted => users_ReplacePermissions id_param submitted principal now w
  | Activate active => users_setActive id_param active principal now w
  end.
(** The call of the service behind a form *)
Definition service_call (m : management) (r : Requester) (id : Z) (now : time) : db access_db unit :=
  match m with
  | Replace submitted => ReplacePermissions definitions r id (default [] submitted) now
  | Activate active => SetActive r id active now
  end.

(** ** What a refused call leaves *)

Lemma inside_drains {A} (f : directory → res (A * directory)) : drains (inside f).
Proof. apply drains_statement. Qed.
Lemma each_drains {A} (f : A → db access_db unit) l : (∀ a, drains (f a)) → drains (each f l).
Proof. intros Hf. induction l as [|a l IH]; [apply drains_ret|]. by apply drains_bind. Qed.
Lemma found_drains {A} none message (q : db access_db (option A)) : drains q → drains (found none message q).
Proof.
  intros Hq. apply drains_bind; [by apply drains_wrapped|]. intros [a|]; [apply drains_ret|apply drains_fail].
Qed.
Ltac draining := repeat first
  [ apply drains_ret | apply drains_fail | apply drains_lift | apply inside_drains | apply drains_wrapped | apply found_drains
  | apply each_drains; intros ? | apply drains_bind; [|intros ?]
  | match goal with |- drains (if ?b then _ else _) => destruct b end ].
Lemma replacement_drains r user canonical selected now : drains (replacement r user canonical selected now).
Proof. unfold replacement, lockManagePermission, lock_user, permissionIDs, assignedPermissions, requireActiveManager, count_managers, Append. draining. Qed.
Lemma status_update_drains r user active now : drains (status_update r user active now).
Proof. unfold status_update, lockManagePermission, lock_user, requireActiveManager, count_managers, Append. draining. Qed.

Lemma exclusively_refused {A} b c (body : db access_db A) w e w' :
  drains body → exclusively b c body w = (Fail e, w') →
  tables w' = settle (tables w) ∨ ∃ applied f, Some (Lost applied f) ∈ faults w ∧ e = Wrap c f.
Proof. intros Hd H. unfold exclusively in H. change (transaction (Wrap b) (Wrap c) body (World (settle (tables w)) (faults w)) = (Fail e, w')) in H. by apply transaction_refused in H. Qed.
Lemma service_refused m r id now w e w' : service_call m r id now w = (Fail e, w') →
  tables w' = tables w ∨ tables w' = settle (tables w) ∨
  ∃ applied f c, Some (Lost applied f) ∈ faults w ∧ e = Wrap c f.
Proof.
  destruct m as [submitted|active]; cbn [service_call].
  - unfold ReplacePermissions. destruct (select_keys definitions ∅ (default [] submitted)) as [selected|e']; [|intros [= <- <-]; by left].
    intros H. apply exclusively_refused in H as [H|(a & f & H)]; [by right; left|right; right; eauto|apply replacement_drains].
  - unfold SetActive. destruct (id =? 0); [intros [= <- <-]; by left|].
    intros H. apply exclusively_refused in H as [H|(a & f & H)]; [by right; left|right; right; eauto|apply status_update_drains].
Qed.
Lemma manage_calls m id_param principal now w reply w' : manage m id_param principal now w = (reply, w') →
  match RouteID id_param, principal with
  | Some id, Some p =>
      (reply = BadManagementForm ∧ w' = w) ∨
      ∃ notice answer, service_call m (SecurityContext p) id now w = (answer, w') ∧
        after_mutation principal id notice (answer, w') = (reply, w')
  | _, _ => w' = w ∧ ∀ location, reply ≠ SeeOther location
  end.
Proof.
  unfold manage, users_ReplacePermissions, users_setActive.
  destruct m as [[keys|]|active], (RouteID id_param) as [id|], principal as [p|]; try (intros [= <- <-]; by auto); cbn [service_call default].
  - destruct (ReplacePermissions _ _ _ _ _ w) as [answer w1] eqn:E. intros H. right. exists "permissions-updated"%string, answer.
    destruct answer; injection H as <- <-; done.
  - destruct (SetActive _ _ _ _ w) as [answer w1] eqn:E. intros H. right. exists "user-status-updated"%string, answer.
    destruct answer; injection H as <- <-; done.
Qed.
End Pages.

(** The errors the pages have replies of their own for *)
Definition told : list sentinel := [UsersErrNotFound; ErrLastAccessManager; ErrUnknownPermission; ErrBaselinePermission].
(** No failure of the connection is one of them. *)
Definition foreign (w : world access_db) : Prop :=
  ∀ applied f s, Some (Lost applied f) ∈ faults w → s ∈ told → Is f s = false.

Lemma refusal_told p e back :
  match mutation_error (Some p) e back with
  | SeeOther _ => False
  | Failure _ _ => True
  | _ => ∃ s, s ∈ told ∧ Is e s = true
  end.
Proof.
  unfold mutation_error. repeat case_match; simplify_eq; try done; unfold with_principal in *; simplify_eq;
    repeat match goal with H : _ || _ = true |- _ => apply orb_true_iff in H as [H|H] end;
    (eexists; split; [|eassumption]); unfold told; set_solver.
Qed.

(** C18: A form of the access management that answers with the redirection called the service for
    the user of its path as the signed-in principal, and the service reported success;
    one that answers with a page of a refusal - not found, conflict, unknown permission or
    bad form - changed nothing, whatever failed. *)
Theorem changes_acknowledged definitions m id_param principal now w reply w' :
  foreign w → manage definitions m id_param principal now w = (reply, w') →
  match reply with
  | SeeOther location => ∃ id p, RouteID id_param = Some id ∧ principal = Some p ∧
      service_call definitions m (SecurityContext p) id now w = (Ok tt, w')
  | Failure _ _ => True
  | _ => tables w' = tables w ∨ tables w' = settle (tables w)
  end.
Proof.
  intros Hf H. apply manage_calls in H. destruct (RouteID id_param) as [id|], principal as [p|];
    try (destruct H as [-> Hn]; destruct reply; auto; by destruct (Hn location)).
  destruct H as [[-> ->]|(notice & [[]|e] & Hs & H)]; [by left|injection H as <-; by exists id, p|].
  injection H as <-. pose proof (refusal_told p e (access_url id)) as Ht.
  assert (Hq : (∃ s, s ∈ told ∧ Is e s = true) → tables w' = tables w ∨ tables w' = settle (tables w)).
  { intros (s & Hs1 & Hs2). apply service_refused in Hs as [?|[?|(applied & f & c & Hin & ->)]]; [by left|by right|].
    cbn [Is] in Hs2. by rewrite (Hf _ _ _ Hin Hs1) in Hs2. }
  destruct (mutation_error (Some p) e (access_url id)); by auto.
Qed.

(** Of two managers one leaves; the other then cannot. *)
Definition bob : Principal :=
  {| pr_UserID := 2; pr_Username := "bob"; pr_Name := "bob"; Permissions := NewPermissionSet [PermissionManage];
     SessionID := 1; pr_RememberMe := false |}.
Definition leave (w : world access_db) (user : string) : access_reply * world access_db :=
  manage PermissionDefinitions (Activate false) user (Some bob) 2000000 w.
Definition after_one : world access_db := snd (leave after_bootstrap "1").
Lemma changes_acknowledged_witness :
  fst (leave after_bootstrap "1") = SeeOther "/access/1?notice=user-status-updated" ∧
  fst (leave after_one "2") = Conflict "At least one active access manager must remain." "/access/2" ∧
  (tables (snd (leave after_one "2")) = tables after_one ∨ tables (snd (leave after_one "2")) = settle (tables after_one)).
Proof.
  assert (fst (leave after_one "2") = Conflict "At least one active access manager must remain." "/access/2") as E.
  { vm_compute. reflexivity. }
  split; [vm_compute; reflexivity|]. split; [exact E|].
  assert (foreign after_one) as Hf.
  { unfold foreign. replace (faults after_one) with (@nil (option fault)) by (vm_compute; reflexivity).
    intros applied f s Hin. destruct (not_elem_of_nil _ Hin). }
  destruct (leave after_one "2") as [reply w'] eqn:Em. cbn [fst snd] in *. subst reply.
  exact (changes_acknowledged PermissionDefinitions (Activate false) "2" (Some bob) 2000000 after_one _ w' Hf Em).
Defined.
