(* ===== verification/SlikPages.v ===== *)
(** The pages of the SLIK jobs, [internal/features/slik/handler.go]: upload, status,
    download and cancellation, and what an error of the manager becomes.

    A world is that of [SlikJobs].  [net/http] reads the form and serves the file. *)
From stdpp Require Import base list strings gmap.
From Stdlib Require Import ZArith Lia Ascii.
From S2P Require Import Prelude GoStrings GoErrors Database GoSlices GoTime GoPath Dates LoanModel Access BrowserAuth SlikJobs SlikLife SlikGuarantees SlikRun.
Local Open Scope Z_scope.

Inductive slik_reply :=
| JobsPage (code : Z) (as_of error : string) (jobs : list Job)
| StatusPage (data : Job)
| Missing                                                        (* 404 *)
| Gone                                                           (* 410 *)
| Unavailable                                                    (* 409 *)
| Failure (operation : string) (e : err)                         (* 500 *)
| Attachment (filename : string) (modified : time) (content : list ascii)
| SeeOther (location : string).

(** A posted form: whether [ParseMultipartForm] accepts it, the value of "as_of" and the
    file "workbook" with its name *)
Record upload_form := { form_parsed : bool; form_AsOf : string; form_Workbook : option (string * list ascii) }.

Definition PermissionViewAll : string := "reporting.view_all".
Definition principal_missing : err := Msg "principal missing".
(** The principal of a request without one is the zero value. *)
Definition user_of (principal : option Principal) : Z := match principal with Some p => pr_UserID p | None => 0 end.
Definition views_all (principal : option Principal) : bool := match principal with Some p => Can p PermissionViewAll | None => false end.
Definition with_principal (principal : option Principal) (page : slik_reply) : slik_reply :=
  match principal with Some _ => page | None => Failure "prepare admin page" principal_missing end.
(** The text of a [ValidationError] *)
Definition validation_text (e : err) : string :=
  match e with Msg text => of_bytes (drop (String.length "slik.ValidationError: ") (bytes text)) | _ => EmptyString end.

Section Pages.
Variable m : manager.
Variable location : option Location.

Definition slik_Index (principal : option Principal) (now : time) (w : world slik) : slik_reply * world slik :=
  match History (user_of principal) (views_all principal) w with
  | (Fail e, w) => (Failure "list SLIK jobs" e, w)
  | (Ok jobs, w) => (with_principal principal (JobsPage 200 (Date_String (DefaultReportingDate now location)) EmptyString jobs), w)
  end.
(** The page again, with a message; an error of [History] is dropped. *)
Definition slik_inputError (principal : option Principal) (as_of : string) (code : Z) (message : string) (w : world slik)
    : slik_reply * world slik :=
  let '(jobs, w) := History (user_of principal) (views_all principal) w in
  (with_principal principal (JobsPage code as_of message (match jobs with Ok l => l | Fail _ => [] end)), w).
(** [token] and [submitted]: the identifier and the moment [Manager.Submit] picks *)
Definition slik_Submit (principal : option Principal) (form : upload_form) (now submitted : time) (token : string) (w : world slik)
    : slik_reply * world slik :=
  let refuse := slik_inputError principal (form_AsOf form) in
  if negb (form_parsed form) then refuse 400 "Upload a valid XLSX within the size limit." w else
  match ParseDate (TrimSpace (form_AsOf form)) location with
  | Fail _ => refuse 422 "Enter a valid reporting date up to today." w
  | Ok asOf =>
      if After asOf (NewDate now location) then refuse 422 "Enter a valid reporting date up to today." w else
      match form_Workbook form with
      | None => refuse 422 "Select a SLIK .xlsx workbook." w
      | Some (filename, content) =>
          match principal with
          | None => (Failure "submit SLIK job" principal_missing, w)
          | Some p =>
              let identity := Some {| id_UserID := pr_UserID p; id_Username := pr_Username p |} in
              match Submit m identity identity filename asOf content token submitted w with
              | (Fail e, w) => if is_validation e then refuse 422 (validation_text e) w else (Failure "submit SLIK job" e, w)
              | (Ok job, w) => (SeeOther ("/slik/" ++ job_ID job)%string, w)
              end
          end
      end
  end.
(** [job], [Status] and [StatusPartial]: the two pages differ in the name of an error. *)
Definition slik_Status (partial : bool) (principal : option Principal) (id : string) (w : world slik) : slik_reply * world slik :=
  match Get id (user_of principal) (views_all principal) w with
  | (Fail e, w) => (if Is e SlikErrNotFound then Missing else Failure "read SLIK job" e, w)
  | (Ok job, w) =>
      (match principal with
       | Some _ => StatusPage job
       | None => Failure (if partial then "prepare SLIK status" else "prepare admin page") principal_missing
       end, w)
  end.
Definition slik_Download (principal : option Principal) (id : string) (now : time) (w : world slik) : slik_reply * world slik :=
  match OpenOutput id (user_of principal) (views_all principal) now w with
  | (Fail e, w) =>
      (if Is e SlikErrNotFound then Missing else if Is e SlikErrExpired then Gone else
       if Is e SlikErrNotReady then Unavailable else Failure "open SLIK output" e, w)
  | (Ok (job, content), w) => (Attachment ("slik_" ++ AsOf job ++ ".xlsx")%string (CreatedAt job) content, w)
  end.
Definition slik_Cancel (principal : option Principal) (id : string) (w : world slik) : slik_reply * world slik :=
  match Cancel id (user_of principal) (views_all principal) w with
  | (Fail e, w) => (if Is e SlikErrNotFound then Missing else Failure "cancel SLIK job" e, w)
  | (Ok _, w) => (SeeOther ("/slik/" ++ id)%string, w)
  end.

Inductive slik_request :=
| ListJobs | Upload (form : upload_form) (submitted : time) (token : string) | ReadJob (partial : bool) (id : string)
| FetchOutput (id : string) | CancelJob (id : string).
Definition slik_answer (r : slik_request) (principal : option Principal) (now : time) : world slik → slik_reply * world slik :=
  match r with
  | ListJobs => slik_Index principal now
  | Upload form submitted token => slik_Submit principal form now submitted token
  | ReadJob partial id => slik_Status partial principal id
  | FetchOutput id => slik_Download principal id now
  | CancelJob id => slik_Cancel principal id
  end.

(** ** What others keep *)

(** An effect of the request itself: a job of another user stays as it is, unless it is
    one the request [may] cancel, which was still waiting or being worked on *)
Definition own_effect (owner : Z) (may : string → Prop) (s s' : slik) : Prop :=
  arrivals s' = arrivals s ∧
  ∀ id j, jobs s !! id = Some j → visible j owner false = false →
    jobs s' !! id = Some j ∨
    may id ∧ terminal (Status j) = false ∧
    jobs s' !! id = Some (with_outcome j CANCELED (FailedAccount j) (FailureReason j) (OutputFile j) (clock s)).
(** What happens to the tables during the request: its own effects, and what arrives from others *)
Definition course (owner : Z) (may : string → Prop) : slik → slik → Prop :=
  rtc (λ s s', own_effect owner may s s' ∨ s' = settle s).
Definition canceled (j : Job) (at_time : time) : Job :=
  with_outcome j CANCELED (FailedAccount j) (FailureReason j) (OutputFile j) at_time.
(** Without requests of others, their jobs are as before, or canceled as they may be. *)
Definition others_kept (owner : Z) (may : string → Prop) (s s' : slik) : Prop := arrivals s = [] →
  arrivals s' = [] ∧ ∀ id j, jobs s !! id = Some j → visible j owner false = false →
    jobs s' !! id = Some j ∨ may id ∧ terminal (Status j) = false ∧ ∃ t, jobs s' !! id = Some (canceled j t).
Lemma course_kept owner may s s' : course owner may s s' → others_kept owner may s s'.
Proof.
  induction 1 as [s|s s1 s2 [[Ha Hk]| ->] _ IH]; intros E; [split; [done|]; by left| |].
  - rewrite <- Ha in E. destruct (IH E) as [E' K]. split; [done|]. intros id j Hj Hv.
    destruct (Hk id j Hj Hv) as [Hj1|(Hm & Ht & Hj1)]; [by apply K|]. right. split_and!; [done..|].
    destruct (K _ _ Hj1) as [Hj2|(_ & [=] & _)]; [done|]. by exists (clock s).
  - unfold settle in IH. rewrite E in IH. by apply IH.
Qed.

Section Kept.
Variable owner : Z.
Variable may : string → Prop.
Notation kept := (evolves (course owner may)).

Lemma own_kept s s' : own_effect owner may s s' → course owner may s s'.
Proof. intros H. apply rtc_once. by left. Qed.
Lemma same_jobs s s' : arrivals s' = arrivals s → jobs s' = jobs s → course owner may s s'.
Proof. intros Ha Hj. apply own_kept. split; [done|]. rewrite Hj. by left. Qed.
Lemma kept_arrive : kept arrive.
Proof. intros w r w' [= <- <-]. apply rtc_once. by right. Qed.
Lemma kept_files (f : slik → gmap string (list ascii)) : kept (exec (fun s => set_files s (f s))).
Proof. apply evolves_exec; [apply _|]. intros s. by apply same_jobs. Qed.
Lemma kept_cancel id viewAll : (viewAll = true → may id) → kept (exec (cancel_effect id owner viewAll)).
Proof.
  intros Hmay. apply evolves_exec; [apply _|]. intros s. unfold cancel_effect, update_job.
  destruct (jobs s !! id) as [j0|] eqn:Ej; [|by apply same_jobs]. destruct (negb _ && _) eqn:Ec; [|by apply same_jobs].
  apply andb_true_iff in Ec as [Ht Hs]. apply negb_true_iff in Ht.
  apply own_kept. split; [done|]. intros id' j Hj Hv. cbn. destruct (decide (id = id')) as [<-|Hne].
  - right. rewrite Ej in Hj. injection Hj as <-. rewrite lookup_insert_eq. split_and!; [|done..]. apply Hmay.
    unfold visible in *. cbn in Hv. rewrite Hv, orb_false_r in Hs. done.
  - left. by rewrite lookup_insert_ne.
Qed.
Lemma kept_History viewAll : kept (History owner viewAll).
Proof. apply evolves_bind; [apply _|apply kept_arrive|intros _]. apply evolves_query, _. Qed.
Lemma kept_Get id viewAll : kept (Get id owner viewAll).
Proof.
  apply evolves_bind; [apply _|apply kept_arrive|intros _]. apply evolves_bind; [apply _|apply evolves_query, _|].
  intros [j|]; [apply evolves_ret, _|apply evolves_fail, _].
Qed.
Lemma kept_Cancel id viewAll : (viewAll = true → may id) → kept (Cancel id owner viewAll).
Proof.
  intros Hmay. apply evolves_bind; [apply _|apply kept_arrive|intros _].
  apply evolves_bind; [apply _|by apply kept_cancel|intros _].
  apply evolves_bind; [apply _|apply kept_Get|intros _]. apply evolves_ret, _.
Qed.
Lemma kept_OpenOutput id viewAll now : kept (OpenOutput id owner viewAll now).
Proof.
  apply evolves_bind; [apply _|apply kept_Get|]. intros job. repeat (apply evolves_bind; [apply _|apply evolves_lift, _|intros _]).
  destruct (safePath _ _ _) as [name|e]; [|apply evolves_fail, _]. apply evolves_bind; [apply _|apply evolves_query, _|].
  intros [c|]; [apply evolves_ret, _|apply evolves_fail, _].
Qed.
Lemma insert_accounts_arrivals id batch s s' : insert_accounts id batch s = Ok s' → arrivals s' = arrivals s.
Proof.
  revert s. induction batch as [|a batch IH]; intros s H; simpl in H; [by injection H as <-|].
  destruct (checkpoints s !! id) as [rows|]; [|done]. destruct (rows !! a); [done|]. by rewrite (IH _ H).
Qed.
Lemma kept_created job accounts s s' : created job accounts s = Ok s' → course owner may s s'.
Proof.
  intros H. apply bind_Ok in H as (s1 & H1 & H2). pose proof (insert_accounts_jobs _ _ _ _ H2) as Ej.
  apply insert_accounts_arrivals in H2. unfold insert_job in H1.
  destruct (jobs s !! _) eqn:Enew; [done|]. injection H1 as <-. apply own_kept. split; [by rewrite H2|].
  intros id j Hj _. left. rewrite Ej. cbn. rewrite lookup_insert_ne; [done|]. intros <-.
  change (jobs s !! job_ID (new_job job accounts) = Some j) in Hj. congruence.
Qed.
Lemma kept_Create job accounts : kept (Create job accounts).
Proof.
  apply evolves_bind; [apply _|apply kept_arrive|intros _]. apply evolves_transaction; [apply _|].
  intros w u w' H. by eapply kept_created, Create_body_Ok.
Qed.
Lemma kept_on_error {A} name (c : sdb A) : kept c → kept (remove_on_error name c).
Proof.
  intros Hc w r w' H. unfold remove_on_error in H. destruct (c w) as [r1 w1] eqn:E. apply Hc in E.
  destruct r1; injection H as <- <-; [done|]. etrans; [exact E|]. destruct (remove_file _ w1) as [r2 w2] eqn:E2.
  exact (kept_files (fun s => delete name (files s)) w1 r2 w2 E2).
Qed.
Lemma kept_Submit actor effective name asOf upload token now : kept (Submit m actor effective name asOf upload token now).
Proof.
  unfold Submit. destruct actor as [a|], effective as [e|]; try apply evolves_fail, _.
  repeat (apply evolves_bind; [apply _|apply evolves_lift, _|intros _]). apply evolves_bind; [apply _| |intros _].
  { apply evolves_statement; [apply _|]. intros s u s'. destruct (files s !! _); [done|]. intros [= <- <-]. by apply same_jobs. }
  apply kept_on_error. apply evolves_bind; [apply _|apply kept_files|intros _]. apply evolves_bind; [apply _|apply evolves_lift, _|].
  intros accepted. apply evolves_bind; [apply _|apply kept_Create|intros _]. apply evolves_ret, _.
Qed.
End Kept.

(** The jobs of others that a request may cancel: the one it names, if its user may see all jobs *)
Definition may_cancel (r : slik_request) (principal : option Principal) (id : string) : Prop :=
  r = CancelJob id ∧ views_all principal = true.

Lemma inputError_kept may principal as_of code message w reply w' : slik_inputError principal as_of code message w = (reply, w') →
  course (user_of principal) may (tables w) (tables w').
Proof.
  unfold slik_inputError. destruct (History _ _ w) as [r w1] eqn:E. intros [= <- <-]. by eapply kept_History.
Qed.
Lemma answer_kept r principal now w reply w' : slik_answer r principal now w = (reply, w') →
  course (user_of principal) (may_cancel r principal) (tables w) (tables w').
Proof.
  destruct r as [|form submitted token|partial id|id|id]; cbn [slik_answer].
  - unfold slik_Index. destruct (History _ _ w) as [[|] w1] eqn:E; intros [= <- <-]; by eapply kept_History.
  - unfold slik_Submit. destruct (negb _); [by apply inputError_kept|].
    destruct (ParseDate _ _) as [asOf|e]; [|by apply inputError_kept]. destruct (After _ _); [by apply inputError_kept|].
    destruct (form_Workbook form) as [[filename content]|]; [|by apply inputError_kept].
    destruct principal as [p|]; [|by intros [= <- <-]]. destruct (Submit _ _ _ _ _ _ _ _ w) as [[job|e] w1] eqn:E;
      apply (kept_Submit (pr_UserID p) (may_cancel (Upload form submitted token) (Some p))) in E.
    + by intros [= <- <-].
    + destruct (is_validation e); [|by intros [= <- <-]].
      intros H. apply (inputError_kept (may_cancel (Upload form submitted token) (Some p))) in H. by etrans.
  - unfold slik_Status. destruct (Get _ _ _ w) as [[|] w1] eqn:E; intros [= <- <-]; by eapply kept_Get.
  - unfold slik_Download. destruct (OpenOutput _ _ _ _ w) as [[[job content]|e] w1] eqn:E; intros [= <- <-]; by eapply kept_OpenOutput.
  - unfold slik_Cancel. destruct (Cancel _ _ _ w) as [[|] w1] eqn:E; intros [= <- <-];
      (eapply kept_Cancel; [|exact E]); intros Hv; by split.
Qed.

(** ** What is shown *)

Lemma Get_inv id owner viewAll w j w' : Get id owner viewAll w = (Ok j, w') →
  tables w' = settle (tables w) ∧ find_job id owner viewAll (tables w') = Some j.
Proof.
  intros H. apply db_bind_Ok in H as (u & w1 & H1 & H). injection H1 as _ <-. apply db_bind_Ok in H as (o & w2 & H1 & H).
  apply query_Ok in H1 as [-> H1]. cbn [tables] in H1. destruct (find_job _ _ _ _) as [j0|] eqn:E; [|done].
  injection H as <- <-. by rewrite H1.
Qed.
Lemma find_job_inv id owner viewAll s j : find_job id owner viewAll s = Some j → jobs s !! id = Some j ∧ visible j owner viewAll = true.
Proof. unfold find_job. intros (j0 & Hj & H)%bind_Some. destruct (visible j0 owner viewAll) eqn:Hv; [|done]. by injection H as <-. Qed.
Lemma OpenOutput_inv id owner viewAll now w j content w' : OpenOutput id owner viewAll now w = (Ok (j, content), w') →
  find_job id owner viewAll (tables w') = Some j ∧ Available j now = true ∧ files (tables w') !! OutputFile j = Some content.
Proof.
  intros H. apply db_bind_Ok in H as (j0 & w1 & H1 & H). apply Get_inv in H1 as [_ Hj].
  apply db_bind_Ok in H as (u & w2 & H1 & H). injection H1 as _ <-. apply db_bind_Ok in H as (u2 & w2 & H1 & H). injection H1 as Ha <-.
  apply fail_if_Ok, negb_false_iff in Ha. destruct (safePath _ _ _) as [name|e] eqn:Es; [|done].
  unfold safePath in Es. destruct (_ || _); [done|]. injection Es as <-.
  apply db_bind_Ok in H as (c & w3 & H1 & H). apply query_Ok in H1 as [-> H1].
  destruct (files (tables w1) !! OutputFile j0) as [c|] eqn:Ec; [|done]. injection H as <- <- <-. by rewrite H1.
Qed.
Lemma History_inv owner viewAll w l w' : History owner viewAll w = (Ok l, w') → ∀ j, j ∈ l → visible j owner viewAll = true.
Proof.
  intros H j Hj. apply db_bind_Ok in H as (u & w1 & H1 & H). injection H1 as _ <-. apply query_Ok in H as [-> _].
  unfold history_of in Hj. apply subseteq_take in Hj. rewrite SortStableFunc_perm in Hj.
  apply list_elem_of_In, filter_In in Hj as [_ Hj]. done.
Qed.

Definition shows (s : slik) (principal : option Principal) (now : time) (r : slik_request) (reply : slik_reply) : Prop :=
  let seen (j : Job) := visible j (user_of principal) (views_all principal) = true in
  match reply with
  | JobsPage _ _ _ l => ∀ j, j ∈ l → seen j
  | StatusPage j => ∃ partial id, r = ReadJob partial id ∧ jobs s !! id = Some j ∧ seen j
  | Attachment name modified content => ∃ id j, r = FetchOutput id ∧ jobs s !! id = Some j ∧ seen j ∧ Available j now = true ∧
      files s !! OutputFile j = Some content ∧ name = ("slik_" ++ AsOf j ++ ".xlsx")%string ∧ modified = CreatedAt j
  | _ => True
  end.
Lemma inputError_shows principal as_of code message w reply w' r now : slik_inputError principal as_of code message w = (reply, w') →
  shows (tables w') principal now r reply.
Proof.
  unfold slik_inputError. destruct (History _ _ w) as [[l|e] w1] eqn:E; intros [= <- <-]; (destruct principal as [p|]; [|done]).
  - intros j. by eapply History_inv.
  - intros j Hj. by apply elem_of_nil in Hj.
Qed.

Lemma answer_shows r principal now w reply w' : slik_answer r principal now w = (reply, w') → shows (tables w') principal now r reply.
Proof.
  destruct r as [|form submitted token|partial id|id|id]; cbn [slik_answer].
  - unfold slik_Index. destruct (History _ _ w) as [[l|e] w1] eqn:E; intros [= <- <-]; [|done]. destruct principal as [p|]; [|done].
    intros j. by eapply History_inv.
  - unfold slik_Submit. destruct (negb _); [by apply inputError_shows|].
    destruct (ParseDate _ _) as [asOf|e]; [|by apply inputError_shows]. destruct (After _ _); [by apply inputError_shows|].
    destruct (form_Workbook form) as [[filename content]|]; [|by apply inputError_shows].
    destruct principal as [p|]; [|by intros [= <- <-]]. destruct (Submit _ _ _ _ _ _ _ _ w) as [[job|e] w1] eqn:E; [by intros [= <- <-]|].
    destruct (is_validation e); [by apply inputError_shows|by intros [= <- <-]].
  - unfold slik_Status. destruct (Get _ _ _ w) as [[j|e] w1] eqn:E; intros [= <- <-]; [|by destruct (Is e SlikErrNotFound)].
    apply Get_inv in E as [_ E]. apply find_job_inv in E as [Hj Hv]. destruct principal as [p|]; [|done]. by exists partial, id.
  - unfold slik_Download. destruct (OpenOutput _ _ _ _ w) as [[[j content]|e] w1] eqn:E; intros [= <- <-].
    + apply OpenOutput_inv in E as (Hj & Ha & Hf). apply find_job_inv in Hj as [Hj Hv]. by exists id, j.
    + by repeat case_match.
  - unfold slik_Cancel. destruct (Cancel _ _ _ w) as [[u|e] w1] eqn:E; intros [= <- <-]; [done|by destruct (Is e SlikErrNotFound)].
Qed.
(** A job of another user and no job are the same. *)
Lemma hidden_missing r id principal now w : r = ReadJob false id ∨ r = ReadJob true id ∨ r = FetchOutput id → faults w = [] →
  find_job id (user_of principal) (views_all principal) (settle (tables w)) = None → fst (slik_answer r principal now w) = Missing.
Proof.
  intros Hr Hf Hj. assert (Get id (user_of principal) (views_all principal) w = (Fail (Sentinel SlikErrNotFound), World (settle (tables w)) [])) as E.
  { destruct w as [s l]. cbn [faults] in Hf. subst l. unfold Get, query, statement, next_fault, mbind, db_bind, arrive. cbn in *. by rewrite Hj. }
  destruct Hr as [->|[-> | ->]]; cbn [slik_answer]; unfold slik_Status, slik_Download, OpenOutput.
  1,2: by rewrite E.
  unfold mbind, db_bind. by rewrite E.
Qed.
Lemma cancel_missing id principal now w : faults w = [] → arrivals (tables w) = [] →
  find_job id (user_of principal) (views_all principal) (tables w) = None → slik_answer (CancelJob id) principal now w = (Missing, w).
Proof.
  intros Hf Ha Hj. destruct w as [s l]. cbn in *. subst l. unfold slik_Cancel, Cancel.
  assert (cancel_effect id (user_of principal) (views_all principal) s = s) as E.
  { unfold cancel_effect, update_job, find_job in *. destruct (jobs s !! id) as [j|]; [|done]. cbn in Hj.
    destruct (visible j _ _); [done|]. by rewrite andb_false_r. }
  assert (settle s = s) as E' by (unfold settle; by rewrite Ha).
  unfold mbind, db_bind, arrive, exec, statement, next_fault. cbn. rewrite E', E.
  unfold Get, query, statement, next_fault, mbind, db_bind, arrive. cbn. by rewrite E', Hj.
Qed.
End Pages.

(** C13: a SLIK page shows a job only to its owner or to a user who may see all jobs; a
    download is the output file of that job, which is completed and not expired, named by
    its date.  Whatever fails, the tables go from before the request to after it by what
    other requests do in between and by effects of its own that leave the jobs of other
    users alone, with one exception: a user who may see all jobs may also cancel one that
    is waiting or in work.  So, when no one else acts, a job of another user is as before,
    or canceled by such a user.  To everyone else, while the database answers, the job is
    like one that does not exist. *)
Theorem jobs_private m location r principal now w reply w' : slik_answer m location r principal now w = (reply, w') →
  shows (tables w') principal now r reply ∧
  course (user_of principal) (may_cancel r principal) (tables w) (tables w') ∧
  others_kept (user_of principal) (may_cancel r principal) (tables w) (tables w') ∧
  (∀ id, r = ReadJob false id ∨ r = ReadJob true id ∨ r = FetchOutput id → faults w = [] →
    find_job id (user_of principal) (views_all principal) (settle (tables w)) = None → reply = Missing) ∧
  (∀ id, r = CancelJob id → faults w = [] → arrivals (tables w) = [] →
    find_job id (user_of principal) (views_all principal) (tables w) = None → reply = Missing ∧ w' = w).
Proof.
  intros H. pose proof (answer_kept _ _ _ _ _ _ _ _ H) as Hc. split_and!; [by eapply answer_shows|done|by apply course_kept|..].
  - intros id Hr Hf Hj. apply (hidden_missing m location r id principal now w Hr Hf) in Hj. by rewrite H in Hj.
  - intros id -> Hf Ha Hj. pose proof (cancel_missing m location id principal now w Hf Ha Hj) as E. rewrite H in E. by injection E.
Qed.

(** User 7 gets the output of the job that was run; user 8 does not, and cannot cancel it. *)
Definition someone (id : Z) : option Principal :=
  Some {| pr_UserID := id; pr_Username := "u"; pr_Name := "u"; Permissions := NewPermissionSet ["reporting.generate"%string];
          SessionID := 1; pr_RememberMe := false |}.
Definition after_run : world slik := snd (run example_manager 5 (example_job PROCESSING) example_schedule no_signals
  (World (example_state PROCESSING) [])).
Definition ask (r : slik_request) (id : Z) : slik_reply * world slik :=
  slik_answer example_manager (Some UTC) r (someone id) 200 after_run.
Definition viewer : option Principal :=
  Some {| pr_UserID := 8; pr_Username := "v"; pr_Name := "v";
          Permissions := NewPermissionSet ["reporting.generate"%string; PermissionViewAll]; SessionID := 1; pr_RememberMe := false |}.
Lemma jobs_private_witness :
  fst (ask (FetchOutput example_id) 7) = Attachment "slik_2024-05-31.xlsx" (CreatedAt (example_job PROCESSING)) (bytes "A1=0.00") ∧
  fst (ask (CancelJob example_id) 8) = Missing ∧
  others_kept 8 (may_cancel (CancelJob example_id) (someone 8)) (tables after_run) (tables (snd (ask (CancelJob example_id) 8))) ∧
  fst (ask (FetchOutput example_id) 8) = Missing.
Proof.
  split; [vm_compute; reflexivity|]. split; [vm_compute; reflexivity|]. split.
  - destruct (ask (CancelJob example_id) 8) as [reply w'] eqn:E.
    exact (proj1 (proj2 (proj2 (jobs_private example_manager (Some UTC) (CancelJob example_id) (someone 8) 200 after_run reply w' E)))).
  - destruct (ask (FetchOutput example_id) 8) as [reply w'] eqn:E.
    apply (proj1 (proj2 (proj2 (proj2 (jobs_private example_manager (Some UTC) (FetchOutput example_id) (someone 8) 200
      after_run reply w' E)))) example_id);
      [right; right; reflexivity|vm_compute; reflexivity|vm_compute; reflexivity].
Defined.
(** The permission to view all jobs is described as one to see them, but lets a user
    cancel the job of another: the job of user 7 is in work, and user 8 cancels it. *)
Lemma viewer_cancels :
  let '(reply, w') := slik_answer example_manager (Some UTC) (CancelJob example_id) viewer 200 (World (example_state PROCESSING) []) in
  reply = SeeOther ("/slik/" ++ example_id)%string ∧
  (OwnerID <$> jobs (example_state PROCESSING) !! example_id) = Some 7 ∧
  (Status <$> jobs (tables w') !! example_id) = Some CANCELED.
Proof. vm_compute. split; [reflexivity|]. split; reflexivity. Qed.
