(* ===== verification/SnapshotPages.v ===== *)
(** The snapshot page and the scheduler of refreshes: [internal/features/snapshots/handler.go]
    and [internal/snapshot/scheduler.go].

    A world is that of [Snapshots]; who asked for a refresh is in its audit events only, and
    is left out there. *)
From stdpp Require Import base list strings gmap.
From Stdlib Require Import ZArith Lia Ascii.
From S2P Require Import Prelude GoStrings GoErrors Database GoTime Dates Money LoanModel Access BrowserAuth Snapshots.
Local Open Scope Z_scope.

Record SnapshotPage := { page_Status : Snapshots.Status; CanRefresh : bool; page_Error : string }.
Inductive snapshot_reply :=
| SnapshotShown (code : Z) (data : SnapshotPage)
| Failure (operation : string) (e : err)        (* 500 *)
| SeeOther (location : string).                 (* 303 *)

Definition PermissionRefresh : string := "snapshot.refresh".
Definition principal_missing : err := Msg "principal missing".
Definition with_principal (principal : option Principal) (page : snapshot_reply) : snapshot_reply :=
  match principal with Some _ => page | None => Failure "prepare admin page" principal_missing end.
Definition preserved : string := "Snapshot refresh failed; the previous successful dataset was preserved.".

Definition snapshot_Index (principal : option Principal) (w : world snapshot_tables) : snapshot_reply * world snapshot_tables :=
  match get_Status w with
  | (Fail e, w) => (Failure "read snapshot status" e, w)
  | (Ok status, w) =>
      let can := match principal with Some p => Can p PermissionRefresh | None => false end in
      (with_principal principal (SnapshotShown 200 {| page_Status := status; CanRefresh := can; page_Error := EmptyString |}), w)
  end.
Definition snapshot_Refresh (env : refresh_environment) (principal : option Principal) (w : world snapshot_tables)
    : snapshot_reply * world snapshot_tables :=
  match principal with
  | None => (Failure "manual snapshot refresh" principal_missing, w)
  | Some _ =>
      match Refresh env TriggerManual w with
      | (Ok _, w) => (SeeOther "/snapshot?notice=snapshot-refreshed", w)
      | (Fail e, w) =>
          if Is e ErrRefreshInProgress then (SeeOther "/snapshot?notice=snapshot-refresh-running", w) else
          match get_Status w with
          | (Fail e, w) => (Failure "read failed snapshot status" e, w)
          | (Ok status, w) =>
              (SnapshotShown 503 {| page_Status := status; CanRefresh := true; page_Error := preserved |}, w)
          end
      end
  end.

(** [RunScheduler]: a refresh at the start, if asked for, and one per tick; what fails is logged. *)
Definition scheduled (env : refresh_environment) (trigger : Trigger) (w : world snapshot_tables) : world snapshot_tables :=
  snd (Refresh env trigger w).
Definition RunScheduler (at_start : option refresh_environment) (ticks : list refresh_environment) (w : world snapshot_tables)
    : world snapshot_tables :=
  let w := match at_start with Some env => scheduled env TriggerStartup w | None => w end in
  fold_left (fun w env => scheduled env TriggerScheduled w) ticks w.

(** ** What the page says *)

Lemma get_Status_same w r w' : get_Status w = (r, w') → tables w' = tables w ∧ ∀ s, r = Ok s → s = snap_state (tables w).
Proof.
  intros H. apply wrapped_inv in H as (r0 & H & Hr). pose proof (query_same _ _ _ _ H) as Hs. split; [done|].
  intros s ->. subst r0. by apply query_Ok in H as [-> _].
Qed.

(** When the snapshot page reports a refresh as done, the rows served from then on are exactly
    the validated rows of the source for today, and the status says so; while another
    refresh holds the lock nothing changes and no success is reported; the page with the
    failure shows the status as it is stored, and the rows are the previous ones or, when
    the answer of the commit was lost, the new ones - never a part of either. *)
Theorem Refresh_page env principal w reply w' :
  snapshot_Refresh env principal w = (reply, w') →
  (snap_rows (tables w') = snap_rows (tables w) ∨ refreshed env (tables w')) ∧
  (lock_held (tables w) = true → snap_rows (tables w') = snap_rows (tables w) ∧ reply ≠ SeeOther "/snapshot?notice=snapshot-refreshed") ∧
  (reply = SeeOther "/snapshot?notice=snapshot-refreshed" →
     is_Some principal ∧ refreshed env (tables w') ∧ LastStatus (snap_state (tables w')) = "succeeded"%string) ∧
  (∀ code data, reply = SnapshotShown code data → code = 503 ∧ page_Error data = preserved ∧ page_Status data = snap_state (tables w')).
Proof.
  unfold snapshot_Refresh. intros H. destruct principal as [p|]; [|injection H as <- <-; split_and!; auto; by try intros ??].
  destruct (Refresh env TriggerManual w) as [r w1] eqn:E. apply Refresh_rows in E as Hr. destruct Hr as [Hr Hok].
  pose proof (Refresh_refused _ _ _ _ _ E) as Hl.
  destruct r as [n|e]; [|destruct (Is e ErrRefreshInProgress)].
  - injection H as <- <-. destruct (Hok n eq_refl) as (H1 & H2 & _). split_and!; [done| |by eauto|done].
    intros Hh. by destruct (Hl Hh).
  - injection H as <- <-. split_and!; [done| |done|done]. intros Hh. by destruct (Hl Hh) as (_ & ? & _).
  - destruct (get_Status w1) as [r1 w2] eqn:Es. apply get_Status_same in Es as [Et Es]. unfold refreshed in *.
    destruct r1 as [status|e1]; injection H as <- <-; rewrite Et; split_and!; try done.
    1,3: intros Hh; by destruct (Hl Hh) as (_ & ? & _).
    intros code data [= <- <-]. split_and!; [done..|]. by apply Es.
Qed.

(** The scheduler never serves a mixture: after any number of scheduled refreshes, under
    every schedule of failures, the rows are those it started with or exactly the validated
    rows one of its refreshes fetched. *)
Theorem scheduler_serves_last at_start ticks w :
  let w' := RunScheduler at_start ticks w in
  snap_rows (tables w') = snap_rows (tables w) ∨
  ∃ env, (at_start = Some env ∨ env ∈ ticks) ∧ refreshed env (tables w').
Proof.
  assert (Hstep : ∀ env trigger w, snap_rows (tables (scheduled env trigger w)) = snap_rows (tables w) ∨ refreshed env (tables (scheduled env trigger w))).
  { intros env trigger w0. unfold scheduled. destruct (Refresh env trigger w0) as [r w1] eqn:E. by apply Refresh_rows in E as [? _]. }
  assert (Hticks : ∀ l w, let w' := fold_left (fun w env => scheduled env TriggerScheduled w) l w in
    snap_rows (tables w') = snap_rows (tables w) ∨ ∃ env, env ∈ l ∧ refreshed env (tables w')).
  { induction l as [|env l IH]; intros w0; [by left|]. cbn [fold_left]. destruct (IH (scheduled env TriggerScheduled w0)) as [E|(env' & Hin & He)].
    - unfold refreshed in *. cbn zeta in *. rewrite E. destruct (Hstep env TriggerScheduled w0) as [->|Hr]; [by left|right].
      exists env. split; [left|exact Hr].
    - right. exists env'. split; [by right|done]. }
  unfold RunScheduler. cbn zeta. destruct at_start as [env|].
  - destruct (Hticks ticks (scheduled env TriggerStartup w)) as [E|(env' & Hin & He)]; [|right; by eauto].
    unfold refreshed in *. cbn zeta in *. rewrite E. destruct (Hstep env TriggerStartup w) as [->|Hr]; [by left|right]. exists env. by auto.
  - destruct (Hticks ticks w) as [E|(env' & Hin & He)]; [by left|right; by eauto].
Qed.

(** ** Examples *)

Definition operator : option Principal :=
  Some {| pr_UserID := 1; pr_Username := "op"; pr_Name := "op"; Permissions := NewPermissionSet [PermissionRefresh];
          SessionID := 1; pr_RememberMe := false |}.
Lemma Refresh_page_witness :
  fst (snapshot_Refresh ex_environment operator (World ex_tables [])) = SeeOther "/snapshot?notice=snapshot-refreshed" ∧
  refreshed ex_environment (tables (snd (snapshot_Refresh ex_environment operator (World ex_tables [])))).
Proof.
  destruct (snapshot_Refresh ex_environment operator (World ex_tables [])) as [reply w'] eqn:E.
  assert (reply = SeeOther "/snapshot?notice=snapshot-refreshed") as Hr.
  { change reply with (fst (reply, w')). rewrite <- E. vm_compute. reflexivity. }
  split; [exact Hr|]. destruct (Refresh_page _ _ _ _ _ E) as (_ & _ & H & _). exact (proj1 (proj2 (H Hr))).
Defined.

(** A commit whose answer is lost: the page says that the dataset was preserved, and it was replaced. *)
Definition commit_lost : world snapshot_tables := World ex_tables (repeat None 8 ++ [Some (Lost true (Msg "connection lost"))]).
Lemma preserved_message_wrong :
  let '(reply, w') := snapshot_Refresh ex_environment operator commit_lost in
  (∃ status, reply = SnapshotShown 503 {| page_Status := status; CanRefresh := true; page_Error := preserved |}) ∧
  snap_rows (tables w') ≠ snap_rows (tables commit_lost).
Proof.
  vm_compute. split; [by eexists|discriminate].
Qed.
