(* ===== verification/LpsPages.v ===== *)
(** The page of the LPS archive, [internal/features/lps/handler.go]: the form, the call
    of the generator, its errors and the audit event of an archive.

    The generator is that of [Lps]; a run of its pool is given by [order] and [events].
    The temporary file of the archive is [os]: whether it can be made and rewound. *)
From stdpp Require Import base list strings gmap.
From Stdlib Require Import ZArith Lia Ascii.
From S2P Require Import Prelude GoStrings GoErrors Database GoTime Dates LoanModel Directory Access AccessGuarantees BrowserAuth Lps LpsFacts.
Local Open Scope Z_scope.

Record LpsPage := { page_Input : Lps.Input; page_Error : string }.
Inductive lps_reply :=
| LpsShown (code : Z) (data : LpsPage)
| BadForm                                                       (* 400 *)
| Failure (operation : string) (e : err)                        (* 500 *)
| Archive (filename : string) (files : list (string * string)). (* the zip file *)

Definition principal_missing : err := Msg "principal missing".
Definition with_principal (principal : option Principal) (page : lps_reply) : lps_reply :=
  match principal with Some _ => page | None => Failure "prepare admin page" principal_missing end.

(** The value of the date field *)
Definition DateInputValue (data : LpsPage) : string :=
  match parse_time layout_compact (ReportingDate (page_Input data)) UTC with
  | Some date => format_time layout_iso date UTC
  | None => EmptyString
  end.

Section Page.
Variable location : Location.
Variable defaultCode : string.
(** The generator, or [None] for what is no run of its pool *)
Variable generate : Lps.Input → option (res (Result * list (string * string))).
Variable Error : err → string.    (* [err.Error()] *)

Definition lps_Index (principal : option Principal) (now : time) : lps_reply :=
  let date := Date_Time (DefaultReportingDate now (Some location)) (Some location) in
  with_principal principal
    (LpsShown 200 {| page_Input := {| ParticipantCode := defaultCode; ReportingDate := format_time layout_compact date location;
                                      Period := EmptyString; Version := EmptyString |}; page_Error := EmptyString |}).

Definition safeGenerationError (e : err) : string :=
  if Is e ContextCanceled then "LPS generation was canceled." else
  ("LPS generation failed because mandatory source data is unavailable or malformed. " +:+ Error e)%string.
(** What the form asks for; [values] is [PostFormValue]. *)
Definition posted_input (values : string → string) : Lps.Input :=
  {| ParticipantCode := TrimSpace (values "participant_code"%string);
     ReportingDate := ReplaceAll (TrimSpace (values "reporting_date"%string)) "-" EmptyString;
     Period := TrimSpace (values "period"%string); Version := TrimSpace (values "version"%string) |}.
Definition archive_event (p : Principal) (input : Lps.Input) (result : Result) (now : time) : Event :=
  let identity := Some {| identity_UserID := pr_UserID p; identity_Username := pr_Username p |} in
  {| ev_Attribution := {| Actor := identity; Effective := identity; SystemActor := EmptyString |};
     ev_Action := "lps.generate"; ev_Resource := EmptyString; ev_ResourceID := 0;
     ev_Metadata := Some (LPSMetadata (ParticipantCode input) (ReportingDate input) (DNRows result + DSNRows result + DKRows result));
     ev_CreatedAt := now |}.
(** [create] and [seek]: the temporary file.  An error of the audit is only logged. *)
Definition lps_Generate (form : option (string → string)) (principal : option Principal) (create seek : res unit) (now : time)
    (w : world access_db) : option (lps_reply * world access_db) :=
  match form with
  | None => Some (BadForm, w)
  | Some values =>
      let input := posted_input values in
      match create with
      | Fail e => Some (Failure "create LPS artifact" e, w)
      | Ok _ =>
          result ← generate input;
          Some (match result with
          | Fail e =>
              let code := if Is e ErrInvalidInput then 422 else 503 in
              (with_principal principal (LpsShown code {| page_Input := input; page_Error := safeGenerationError e |}), w)
          | Ok (result, files) =>
              match seek, principal with
              | Fail e, _ => (Failure "seek LPS artifact" e, w)
              | Ok _, None => (Failure "audit LPS artifact" principal_missing, w)
              | Ok _, Some p => (Archive (Filename result) files, snd (AppendAlone (archive_event p input result now) w))
              end
          end)
      end
  end.
End Page.

(** ** The date field *)

Lemma sprintf_itoa k n : 0 ≤ n → pad_left "0" k (itoa n) = sprintf_0d k n.
Proof. intros Hn. unfold itoa, sprintf_0d. destruct (Z.ltb_spec n 0); [lia|done]. Qed.
Lemma parse_layout_compact y m d :
  0 ≤ y < 10000 → 1 ≤ m ≤ 12 → 0 ≤ d < 100 →
  parse_layout layout_compact (sprintf_0d 4 y ++ sprintf_0d 2 m ++ sprintf_0d 2 d) 0 1 1 = Some (y, m, d).
Proof.
  intros Hy Hm Hd. unfold layout_compact. cbn [parse_layout].
  rewrite (take_digits_pad 4 4) by (simpl; lia). cbn [mbind option_bind parse_layout].
  rewrite (take_digits_pad 2 2) by (simpl; lia). cbn [mbind option_bind parse_layout].
  replace ((1 <=? m) && (m <=? 12)) with true by (symmetry; to_prop; lia). cbn [parse_layout].
  rewrite <- (app_nil_r (sprintf_0d 2 d)). by rewrite (take_digits_pad 2 2) by (simpl; lia).
Qed.
Definition compact (date : Date) : list ascii := format_civil layout_compact (date_year date) (date_month date) (date_day date).
Definition dashed (date : Date) : list ascii := format_civil layout_iso (date_year date) (date_month date) (date_day date).
Lemma compact_text date : date_ok date →
  compact date = sprintf_0d 4 (date_year date) ++ sprintf_0d 2 (date_month date) ++ sprintf_0d 2 (date_day date).
Proof.
  intros [Hv Hy]. pose proof (valid_day_31 _ _ _ Hv). destruct Hv as [Hm _].
  unfold compact, format_civil, layout_compact. cbn [fmap list_fmap format_item List.concat].
  rewrite !sprintf_itoa by lia. by rewrite app_nil_r.
Qed.
Lemma dashed_text date : date_ok date →
  dashed date = sprintf_0d 4 (date_year date) ++ "-"%char :: sprintf_0d 2 (date_month date) ++ "-"%char :: sprintf_0d 2 (date_day date).
Proof.
  intros [Hv Hy]. pose proof (valid_day_31 _ _ _ Hv). destruct Hv as [Hm _].
  unfold dashed, format_civil, layout_iso. cbn [fmap list_fmap format_item List.concat].
  rewrite !sprintf_itoa by lia. by rewrite app_nil_r.
Qed.
Lemma sprintf_digits k n : 0 ≤ n → forallb is_digit (sprintf_0d k n) = true.
Proof. intros Hn. unfold sprintf_0d. destruct (Z.ltb_spec n 0); [lia|]. by apply pad_digits, utoa_digits. Qed.
Lemma dashed_plain date : date_ok date → forallb plain (dashed date) = true ∧ replace_byte "-" [] (dashed date) = compact date.
Proof.
  intros Hd. rewrite dashed_text, compact_text by done. destruct Hd as [Hv Hy]. pose proof (valid_day_31 _ _ _ Hv). destruct Hv as [Hm _].
  pose proof (sprintf_digits 4 (date_year date) ltac:(lia)) as H1. pose proof (sprintf_digits 2 (date_month date) ltac:(lia)) as H2.
  pose proof (sprintf_digits 2 (date_day date) ltac:(lia)) as H3. split.
  - rewrite !forallb_app. cbn [forallb]. rewrite !forallb_app. cbn [forallb]. by rewrite !forallb_digit_plain by done.
  - by rewrite !replace_byte_app, !replace_byte_cons_eq, !replace_byte_app, !replace_byte_cons_eq, !replace_digits by done.
Qed.
Lemma compact_digits date : date_ok date → digits (of_bytes (compact date)) 8 = true.
Proof.
  intros Hd. unfold digits, slen. rewrite bytes_of_bytes, compact_text by done. destruct Hd as [Hv Hy].
  pose proof (valid_day_31 _ _ _ Hv). destruct Hv as [Hm _].
  assert (length (sprintf_0d 4 (date_year date)) = 4%nat) as L1 by (apply length_sprintf; [change (10 ^ Z.of_nat 4) with 10000; lia|lia]).
  assert (length (sprintf_0d 2 (date_month date)) = 2%nat) as L2 by (apply length_sprintf; [change (10 ^ Z.of_nat 2) with 100; lia|lia]).
  assert (length (sprintf_0d 2 (date_day date)) = 2%nat) as L3 by (apply length_sprintf; [change (10 ^ Z.of_nat 2) with 100; lia|lia]).
  rewrite !length_app, L1, L2, L3, !forallb_app. by rewrite !sprintf_digits by lia.
Qed.
Lemma compact_parses date : date_ok date →
  parse_civil layout_compact (of_bytes (compact date)) = Some (date_year date, date_month date, date_day date).
Proof.
  intros Hd. unfold parse_civil. rewrite bytes_of_bytes, compact_text by done. destruct Hd as [Hv Hy].
  pose proof (valid_day_31 _ _ _ Hv). destruct Hv as [Hm Hd]. rewrite parse_layout_compact by lia. cbn [mbind option_bind].
  by replace ((1 <=? date_day date) && (date_day date <=? days_in_month (date_year date) (date_month date))) with true by (symmetry; to_prop; lia).
Qed.
Lemma format_Date_Time layout date loc : midnights loc → valid date →
  format_time layout (Date_Time date (Some loc)) loc = of_bytes (format_civil layout (date_year date) (date_month date) (date_day date)).
Proof.
  intros Hmid Hv. unfold format_time, Date_Time. destruct (Hmid (date_year date) (date_month date) (date_day date)) as [E _]; [apply Hv|].
  change (or_utc (Some loc)) with loc. rewrite E. by rewrite civil_days_inverse.
Qed.
Lemma dashed_Date_String date : date_ok date → of_bytes (dashed date) = Date_String date.
Proof.
  intros Hd. rewrite dashed_text by done. unfold Date_String, Date_IsZero. destruct Hd as [_ Hy].
  by destruct (Z.eqb_spec (date_year date) 0); [lia|].
Qed.
Lemma DateInputValue_compact data date : date_ok date → ReportingDate (page_Input data) = of_bytes (compact date) →
  DateInputValue data = Date_String date.
Proof.
  intros Hd E. unfold DateInputValue, parse_time. rewrite E, compact_parses by done. cbn [mbind option_bind].
  pose proof (format_Date_Time layout_iso date UTC (fixed_zone_midnights 0) (proj1 Hd)) as F. unfold Date_Time in F. cbn [or_utc] in F.
  rewrite F. by apply dashed_Date_String.
Qed.

(** The date field of the page round-trips: the page shows the default reporting date, the
    field holds its ISO text, and sending the field back as it is gives the generator the
    same eight digits, which name that date. *)
Theorem date_field_roundtrip location code p now data values :
  let date := DefaultReportingDate now (Some location) in
  midnights location → date_ok date →
  lps_Index location code (Some p) now = LpsShown 200 data → values "reporting_date"%string = DateInputValue data →
  DateInputValue data = Date_String date ∧
  ReportingDate (posted_input values) = ReportingDate (page_Input data) ∧
  digits (ReportingDate (posted_input values)) 8 = true ∧
  parse_time layout_compact (ReportingDate (posted_input values)) location = Some (Date_Time date (Some location)).
Proof.
  intros date Hmid Hd E Hv. assert (Hr : ReportingDate (page_Input data) = of_bytes (compact date)).
  { injection E as <-. apply format_Date_Time; [done|apply Hd]. }
  rewrite (DateInputValue_compact _ date Hd Hr) in *. rewrite Hr. cbn [posted_input ReportingDate]. destruct (dashed_plain date Hd) as [Hp Hrep].
  assert (Ht : ReplaceAll (TrimSpace (values "reporting_date"%string)) "-" EmptyString = of_bytes (compact date)).
  { rewrite Hv, <- dashed_Date_String by done. unfold TrimSpace. rewrite bytes_of_bytes, trim_bytes_plain by done.
    unfold ReplaceAll. rewrite bytes_of_bytes. by rewrite <- Hrep. }
  rewrite Ht. split_and!; [done|done| |].
  - by apply compact_digits.
  - unfold parse_time. rewrite compact_parses by exact Hd. cbn [mbind option_bind]. unfold Date_Time. cbn [or_utc]. reflexivity.
Qed.

(** ** The archive *)

(** An event that can be stored is, after those of the others, when nothing fails. *)
Lemma AppendAlone_appends event row w : faults w = [] → audit_entry event = Ok row →
  (∀ id, Some id = actor_user_id row ∨ Some id = effective_user_id row → is_Some (users (dir (settle (tables w))) !! id)) →
  audit_logs (dir (tables (snd (AppendAlone event w)))) = audit_logs (dir (settle (tables w))) ++ [row].
Proof.
  intros Hf Hrow Hk. destruct w as [s l]. cbn [faults tables] in *. subst l.
  unfold AppendAlone, Append, interfere, inside, wrapped, statement, next_fault, mbind, db_bind, lift. cbn [tables faults].
  rewrite Hrow. cbn [tables faults]. unfold insert_audit.
  assert (Hb : ∀ o, (o = actor_user_id row ∨ o = effective_user_id row) →
    match o with Some id => bool_decide (is_Some (users (dir (settle s)) !! id)) | None => true end = true).
  { intros [id|] Ho; [|done]. apply bool_decide_eq_true_2, Hk. naive_solver. }
  rewrite !Hb by auto. done.
Qed.

Lemma archive_event_user p input result now row : audit_entry (archive_event p input result now) = Ok row →
  action row = "lps.generate"%string ∧ actor_user_id row = Some (pr_UserID p) ∧ effective_user_id row = Some (pr_UserID p) ∧
  metadata row = Some (marshal_metadata (LPSMetadata (ParticipantCode input) (ReportingDate input) (DNRows result + DSNRows result + DKRows result))).
Proof.
  unfold audit_entry. intros H. repeat (apply bind_Ok in H as ([] & _ & H)). apply Ok_inj in H as <-. done.
Qed.

(** The generator runs on the fields of the form without white space around them and the dashes of
    the date.  An archive is sent only to a signed-in user, is what the generator made
    under its file name, and leaves one audit event that names the user, the date and the
    number of rows, when it can be stored; every other answer leaves the tables alone.  A
    generator that refuses the input gives 422 with the input, any other failure 503. *)
Theorem archive_accountable generate Error form principal create seek now w reply w' :
  lps_Generate generate Error form principal create seek now w = Some (reply, w') →
  match reply with
  | Archive filename files => ∃ values p result, form = Some values ∧ principal = Some p ∧
      generate (posted_input values) = Some (Ok (result, files)) ∧ filename = Filename result ∧
      (∀ row, faults w = [] → audit_entry (archive_event p (posted_input values) result now) = Ok row →
         is_Some (users (dir (settle (tables w))) !! pr_UserID p) →
         audit_logs (dir (tables w')) = audit_logs (dir (settle (tables w))) ++ [row] ∧
         action row = "lps.generate"%string ∧ actor_user_id row = Some (pr_UserID p) ∧ effective_user_id row = Some (pr_UserID p) ∧
         metadata row = Some (marshal_metadata (LPSMetadata (TrimSpace (values "participant_code"%string))
           (ReplaceAll (TrimSpace (values "reporting_date"%string)) "-" EmptyString) (DNRows result + DSNRows result + DKRows result))))
  | LpsShown code data => w' = w ∧ is_Some principal ∧ ∃ values e, form = Some values ∧
      page_Input data = posted_input values ∧ generate (posted_input values) = Some (Fail e) ∧
      code = (if Is e ErrInvalidInput then 422 else 503)
  | _ => w' = w
  end.
Proof.
  unfold lps_Generate. intros H. destruct form as [values|]; [|by injection H as <- <-].
  destruct create as [u|e]; [|by injection H as <- <-]. apply bind_Some in H as (result & Hg & H).
  destruct result as [[result files]|e].
  - destruct seek as [u'|e]; [|by injection H as <- <-]. destruct principal as [p|]; [|by injection H as <- <-].
    injection H as <- <-. exists values, p, result. split_and!; [done..|]. intros row Hf Hrow Hu.
    destruct (archive_event_user _ _ _ _ _ Hrow) as (Hact & Ha & He & Hm). split_and!; [|done..]. apply AppendAlone_appends; [done..|].
    intros id Hid. rewrite Ha, He in Hid. by destruct Hid as [[= ->]|[= ->]].
  - destruct principal as [p|]; injection H as <- <-; [|done]. split_and!; [done|done|]. by exists values, e.
Qed.

(** ** Examples *)

Definition reporter : Principal :=
  {| pr_UserID := 1; pr_Username := "alice"; pr_Name := "alice"; Permissions := NewPermissionSet ["lps.generate"%string];
     SessionID := 1; pr_RememberMe := false |}.
Definition sample_form (field : string) : string :=
  if seqb field "participant_code" then " 31300082" else if seqb field "reporting_date" then "2026-09-14"
  else if seqb field "period" then "01" else if seqb field "version" then "1" else EmptyString.
Definition sample_generate (input : Lps.Input) : option (res (Result * list (string * string))) :=
  Generate (fun _ => false) (fun _ => 0) sample_gateways (fixed_zone 25200) input ["C5"; "C4"]%string
    [Take; Take; Lps.Finish 1 false; Lps.Finish 0 false] (Ok tt).
Definition sample_post : option (lps_reply * world access_db) :=
  lps_Generate sample_generate (fun _ => "error"%string) (Some sample_form) (Some reporter) (Ok tt) (Ok tt) 1000 after_bootstrap.
Lemma sample_post_archive : fst <$> sample_post = Some (Archive (Filename sample_result) sample_files).
Proof. vm_compute. reflexivity. Qed.
Lemma archive_accountable_witness :
  ∃ w', sample_post = Some (Archive (Filename sample_result) sample_files, w') ∧
  ∃ values p result, Some sample_form = Some values ∧ Some reporter = Some p ∧
    sample_generate (posted_input values) = Some (Ok (result, sample_files)) ∧ Filename sample_result = Filename result.
Proof.
  pose proof sample_post_archive as H. destruct sample_post as [[reply w']|] eqn:E; [|discriminate H].
  injection H as H. exists w'. rewrite H in E. split; [rewrite H; reflexivity|].
  destruct (archive_accountable sample_generate (fun _ => "error"%string) (Some sample_form) (Some reporter) (Ok tt) (Ok tt) 1000 after_bootstrap
    (Archive (Filename sample_result) sample_files) w' E) as (values & p & result & H1 & H2 & H3 & H4 & _).
  exists values, p, result. split; [exact H1|split; [exact H2|split; [exact H3|exact H4]]].
Defined.
Definition month_end_page : LpsPage :=
  {| page_Input := {| ParticipantCode := "31300082"; ReportingDate := "20240531"; Period := EmptyString; Version := EmptyString |};
     page_Error := EmptyString |}.
Lemma date_field_roundtrip_witness :
  let now := time_date 2024 5 31 43200 (fixed_zone 25200) in
  DateInputValue month_end_page = "2024-05-31"%string ∧
  ReportingDate (posted_input (fun _ => "2024-05-31"%string)) = "20240531"%string ∧
  parse_time layout_compact "20240531" (fixed_zone 25200) = Some (Date_Time (MkDate 2024 5 31) (Some (fixed_zone 25200))).
Proof.
  intros now. assert (DefaultReportingDate now (Some (fixed_zone 25200)) = MkDate 2024 5 31) as E by (vm_compute; reflexivity).
  destruct (date_field_roundtrip (fixed_zone 25200) "31300082" reporter now month_end_page (fun _ => "2024-05-31"%string)) as (H1 & H2 & _ & H4).
  - apply fixed_zone_midnights.
  - rewrite E. split; [vm_compute; intuition discriminate|vm_compute; intuition discriminate].
  - vm_compute. reflexivity.
  - vm_compute. reflexivity.
  - rewrite E in H1, H4. split; [exact H1|]. split; [exact H2|]. rewrite H2 in H4. exact H4.
Defined.
