(* ===== verification/Schema.v ===== *)
(** The database of the program before it serves: the check of the migrations,
    [internal/dbschema/dbschema.go], and the settings of the connection,
    [internal/database/mysql.go].

    The state is the history of the migration tool; opening connections is the driver's. *)
From stdpp Require Import base list strings gmap sorting.
From Stdlib Require Import ZArith Lia Ascii.
From S2P Require Import Prelude GoStrings GoErrors Database GoSlices GoTime GoConf Config.
Local Open Scope Z_scope.

(** ** [dbschema.go] *)

Record MigrationRecord := { mig_Version : Z; mig_Applied : bool }.
Record MigrationState := { TableExists : bool; Records : list MigrationRecord }.
(** goose_db_version in the order of its ids, if there is the table; the database that is
    selected, and the number of its tables *)
Record schema := { goose : option (list MigrationRecord); selected : option string; table_count : Z }.

(** [versionsFrom] on the names [fs.Glob] finds for [*.sql] *)
Definition version_of (name : string) : res Z :=
  let '(prefix, _, _) := cut_byte "_" (bytes name) in
  match Atoi (of_bytes prefix) with
  | Some version => if version <=? 0 then Fail (Msg "migration %q has no numeric version prefix") else Ok version
  | None => Fail (Msg "migration %q has no numeric version prefix")
  end.
Fixpoint versions_of (names : list string) : res (list Z) :=
  match names with
  | [] => Ok []
  | name :: rest => version ← version_of name; versions ← versions_of rest; Ok (version :: versions)
  end.
Definition versionsFrom (names : res (list string)) : res (list Z) :=
  names ← names; versions ← versions_of names; Ok (SortStableFunc Z.leb versions).

Definition ReadMigrationState : db schema MigrationState :=
  tableCount ← wrapped "inspect Goose metadata: %w" (query (fun s => match goose s with Some _ => 1 | None => 0 end));
  if tableCount =? 0 then mret {| TableExists := false; Records := [] |} else
  records ← wrapped "read Goose metadata: %w"
    (statement (fun s => match goose s with Some records => Ok (records, s) | None => Fail (Msg "Error 1146: Table doesn't exist") end));
  mret {| TableExists := true; Records := records |}.

(** The last state of every known version *)
Definition latest_of (known : gset Z) (records : list MigrationRecord) : gmap Z bool :=
  fold_left (fun latest record =>
    if mig_Version record =? 0 then latest else
    if negb (bool_decide (mig_Version record ∈ known)) then latest else <[mig_Version record := mig_Applied record]> latest)
    records ∅.
Fixpoint count_prefix (latest : gmap Z bool) (missing : bool) (applied : Z) (versions : list Z) : res Z :=
  match versions with
  | [] => Ok applied
  | version :: rest =>
      if default false (latest !! version) then
        if missing then Fail (Msg "Goose history is not a canonical migration prefix") else count_prefix latest missing (applied + 1) rest
      else count_prefix latest true applied rest
  end.
Definition ValidateMigrationPrefix (state : MigrationState) (versions : list Z) : res Z :=
  if negb (TableExists state) then Ok 0 else
  count_prefix (latest_of (list_to_set versions) (Records state)) false 0 versions.

Definition VerifyRuntime (names : res (list string)) : db schema unit :=
  versions ← lift (versionsFrom names);
  state ← ReadMigrationState;
  applied ← lift (ValidateMigrationPrefix state versions);
  lift (fail_if (negb (TableExists state) || negb (applied =? Z.of_nat (length versions)))
                (Msg "database schema is at %d of %d migrations; run migrate up")).

(** ** [mysql.go] *)

(** The settings of [mysql.Config] that the program makes *)
Record mysql_config := {
  User : string; Passwd : string; Net : string; Addr : string; DBName : string; ParseTime : bool; my_Loc : Location;
  my_Collation : string; my_Params : list (string * string); MultiStatements : bool; MaxAllowedPacket : option Z
}.
Definition MySQLConfig (c : DatabaseConfig) : res mysql_config :=
  let config (net addr : string) := {| User := db_User c; Passwd := db_Password c; Net := net; Addr := addr; DBName := db_Name c;
    ParseTime := true; my_Loc := UTC; my_Collation := EmptyString; my_Params := []; MultiStatements := false; MaxAllowedPacket := None |} in
  if seqb (db_Network c) EmptyString || seqb (db_Network c) "tcp" then Ok (config "tcp" (JoinHostPort (db_Host c) (Itoa (db_Port c)))) else
  if seqb (db_Network c) "unix" then
    fail_if (empty (db_Socket c)) (Msg "DB_SOCKET must not be empty when DB_NETWORK=unix");; Ok (config "unix" (db_Socket c))
  else Fail (Msg "DB_NETWORK must be one of tcp or unix").
Definition mysqlConfig (c : DatabaseConfig) (migrations : bool) : res mysql_config :=
  d ← MySQLConfig c;
  Ok {| User := User d; Passwd := Passwd d; Net := Net d; Addr := Addr d; DBName := DBName d; ParseTime := ParseTime d; my_Loc := my_Loc d;
        my_Collation := "utf8mb4_unicode_ci"; my_Params := [("time_zone", "'+00:00'")]%string; MultiStatements := migrations;
        MaxAllowedPacket := Some 0 |}.

(** ** The applied prefix *)

(** The last entry of the history for the version says that it is applied. *)
Definition is_applied (records : list MigrationRecord) (version : Z) : bool :=
  match last (List.filter (fun r => mig_Version r =? version) records) with Some r => mig_Applied r | None => false end.

Lemma latest_spec known records version : version ∈ known → version ≠ 0 →
  default false (latest_of known records !! version) = is_applied records version.
Proof.
  intros Hk H0. unfold latest_of, is_applied. induction records as [|r l IH] using rev_ind; [reflexivity|].
  rewrite fold_left_app, List.filter_app. cbn [fold_left List.filter].
  destruct (Z.eqb_spec (mig_Version r) version) as [E|Hne].
  - rewrite last_snoc. destruct (Z.eqb_spec (mig_Version r) 0); [lia|]. rewrite bool_decide_eq_true_2 by (by rewrite E). cbn [negb].
    by rewrite E, lookup_insert_eq.
  - rewrite app_nil_r, <- IH. destruct (mig_Version r =? 0); [done|]. destruct (negb _); [done|]. by rewrite lookup_insert_ne.
Qed.
Lemma count_missing latest applied versions n : count_prefix latest true applied versions = Ok n ↔
  n = applied ∧ Forall (λ v, default false (latest !! v) = false) versions.
Proof.
  revert applied. induction versions as [|v versions IH]; intros applied; cbn [count_prefix].
  - split; [by intros [= ->]|by intros [-> _]].
  - rewrite Forall_cons. destruct (default false (latest !! v)); [split; [done|by intros (_ & ? & _)]|]. rewrite IH. naive_solver.
Qed.
Lemma count_spec latest applied versions n : count_prefix latest false applied versions = Ok n ↔
  ∃ k, (k ≤ length versions)%nat ∧ n = applied + Z.of_nat k ∧ Forall (λ v, default false (latest !! v) = true) (take k versions) ∧
    Forall (λ v, default false (latest !! v) = false) (drop k versions).
Proof.
  revert applied. induction versions as [|v versions IH]; intros applied; cbn [count_prefix].
  - split; [intros [= <-]; exists 0%nat; split_and!; [done|lia|done|done]|]. intros (k & Hk & -> & _). cbn in Hk. replace k with 0%nat by lia. by rewrite Z.add_0_r.
  - destruct (default false (latest !! v)) eqn:E.
    + rewrite IH. split.
      * intros (k & Hk & -> & H1 & H2). exists (S k). cbn [take drop length]. rewrite Forall_cons. split_and!; [lia|lia|done|done|done].
      * intros ([|k] & Hk & -> & H1 & H2); cbn [take drop length] in *; [apply Forall_cons in H2 as [H2 _]; congruence|].
        apply Forall_cons in H1 as [_ H1]. exists k. split_and!; [lia|lia|done|done].
    + rewrite count_missing. split.
      * intros [-> H]. exists 0%nat. cbn [take drop length]. rewrite Forall_cons. split_and!; [lia|lia|done|done|done].
      * intros ([|k] & Hk & -> & H1 & H2); cbn [take drop] in *; [|apply Forall_cons in H1 as [H1 _]; congruence].
        apply Forall_cons in H2 as [_ H2]. split; [lia|done].
Qed.
Lemma version_positive name version : version_of name = Ok version → 0 < version.
Proof.
  unfold version_of. destruct (cut_byte "_" (bytes name)) as [[prefix rest] found].
  destruct (Atoi _) as [v|]; [|done]. destruct (Z.leb_spec v 0); [done|]. by intros [= <-].
Qed.
Lemma versionsFrom_positive names versions : versionsFrom names = Ok versions → Forall (λ v, v ≠ 0) versions ∧ StronglySorted Z.le versions.
Proof.
  unfold versionsFrom. intros H. apply bind_Ok in H as (l & _ & H). apply bind_Ok in H as (vs & H & Hs). apply Ok_inj in Hs as <-. split.
  - rewrite SortStableFunc_perm. revert vs H. induction l as [|name l IH]; intros vs H; cbn [versions_of] in H; [by apply Ok_inj in H as <-|].
    apply bind_Ok in H as (v & Hv & H). apply bind_Ok in H as (vs' & Hvs & H). apply Ok_inj in H as <-. constructor; [|by apply IH].
    apply version_positive in Hv. lia.
  - assert (StronglySorted (λ x y, (x <=? y) = true) (SortStableFunc Z.leb vs)) as Hs by (apply SortStableFunc_sorted; intros; to_prop; lia).
    induction Hs as [|x l' _ IHs Hx]; constructor; [done|]. eapply Forall_impl; [exact Hx|]. intros y Hy. by apply Z.leb_le.
Qed.

Lemma prefix_counts state versions n : Forall (λ v, v ≠ 0) versions → TableExists state = true →
  ValidateMigrationPrefix state versions = Ok n ↔
  ∃ k, (k ≤ length versions)%nat ∧ n = Z.of_nat k ∧
    (∀ v, v ∈ take k versions → is_applied (Records state) v = true) ∧ (∀ v, v ∈ drop k versions → is_applied (Records state) v = false).
Proof.
  intros H0 Ht. unfold ValidateMigrationPrefix. rewrite Ht. cbn [negb].
  assert (Hl : ∀ v, v ∈ versions → default false (latest_of (list_to_set versions) (Records state) !! v) = is_applied (Records state) v).
  { intros v Hv. apply latest_spec; [by apply elem_of_list_to_set|]. rewrite Forall_forall in H0. by apply H0. }
  rewrite count_spec. setoid_rewrite Forall_forall. split; intros (k & Hk & -> & H1 & H2); exists k; (split_and!; [done|done| |]).
  - intros v Hv. rewrite <- Hl; [by apply H1|by apply subseteq_take in Hv].
  - intros v Hv. rewrite <- Hl; [by apply H2|by apply subseteq_drop in Hv].
  - intros v Hv. rewrite Hl; [by apply H1|by apply subseteq_take in Hv].
  - intros v Hv. rewrite Hl; [by apply H2|by apply subseteq_drop in Hv].
Qed.

(** The number of applied migrations is reported exactly when the applied ones form a prefix of
    the known versions: the known versions are in order, the first so many of them have a last
    entry that says applied, and none of the others has; without a history it is zero. *)
Theorem ValidateMigrationPrefix_counts names versions state n : versionsFrom names = Ok versions →
  StronglySorted Z.le versions ∧
  (ValidateMigrationPrefix state versions = Ok n ↔
   if TableExists state then
     ∃ k, (k ≤ length versions)%nat ∧ n = Z.of_nat k ∧
       (∀ v, v ∈ take k versions → is_applied (Records state) v = true) ∧ (∀ v, v ∈ drop k versions → is_applied (Records state) v = false)
   else n = 0).
Proof.
  intros [H0 Hs]%versionsFrom_positive. split; [done|]. destruct (TableExists state) eqn:Ht; [by apply prefix_counts|].
  unfold ValidateMigrationPrefix. rewrite Ht. cbn [negb]. naive_solver.
Qed.

Lemma ReadMigrationState_state w : faults w = [] →
  ReadMigrationState w = (Ok {| TableExists := match goose (tables w) with Some _ => true | None => false end;
                               Records := default [] (goose (tables w)) |}, World (tables w) []).
Proof.
  destruct w as [s l]. cbn [faults tables]. intros ->. unfold ReadMigrationState, wrapped, query, statement, next_fault, mbind, db_bind.
  cbn [tables faults]. destruct (goose s) as [records|] eqn:E; [|done]. cbn. by rewrite E.
Qed.

Lemma ReadMigrationState_Ok w state w' : ReadMigrationState w = (Ok state, w') →
  tables w' = tables w ∧
  state = {| TableExists := match goose (tables w) with Some _ => true | None => false end; Records := default [] (goose (tables w)) |}.
Proof.
  intros H. apply db_bind_Ok in H as (n & w1 & H1 & H). apply wrapped_Ok, query_Ok in H1 as [-> H1].
  destruct (goose (tables w)) as [records|] eqn:Eg; cbn [Z.eqb] in H; [|by injection H as <- <-].
  apply db_bind_Ok in H as (l & w2 & H2 & H). apply wrapped_Ok, statement_effect in H2 as (s & H2 & Hs).
  rewrite H1, Eg in H2. injection H2 as <- <-. injection H as <- <-. by rewrite Hs.
Qed.
(** The check at the end of a prefix that is complete *)
Lemma all_applied versions records applied : Forall (λ v, v ≠ 0) versions →
  ValidateMigrationPrefix {| TableExists := true; Records := records |} versions = Ok applied → applied = Z.of_nat (length versions) →
  ∀ v, v ∈ versions → is_applied records v = true.
Proof.
  intros H0 H ->. apply prefix_counts in H as (k & Hk & E & H1 & _); [|done|done]. rewrite take_ge in H1 by lia. exact H1.
Qed.
Lemma VerifyRuntime_Ok names w u w' : VerifyRuntime names w = (Ok u, w') → tables w' = tables w ∧
  ∃ versions records, versionsFrom names = Ok versions ∧ goose (tables w) = Some records ∧ ∀ v, v ∈ versions → is_applied records v = true.
Proof.
  intros H. unfold VerifyRuntime in H. apply db_bind_Ok in H as (versions & w1 & H1 & H). injection H1 as Hv <-.
  apply db_bind_Ok in H as (state & w2 & H2 & H). apply ReadMigrationState_Ok in H2 as [Ht ->].
  apply db_bind_Ok in H as (applied & w3 & H3 & H). injection H3 as Ha <-. injection H as Hf <-. cbn [TableExists] in *.
  split; [done|]. apply fail_if_Ok, orb_false_iff in Hf as [Hg Hn]. apply negb_false_iff in Hg, Hn.
  destruct (goose (tables w)) as [records|]; [|done]. exists versions, records. split_and!; [done|done|].
  apply (all_applied _ _ applied); [by apply versionsFrom_positive in Hv as [? _]|done|lia].
Qed.

(** The program starts on a database exactly when the history exists and its last entry for
    every migration built into the program says applied. *)
Theorem VerifyRuntime_exact names w : faults w = [] →
  fst (VerifyRuntime names w) = Ok tt ↔
  ∃ versions records, versionsFrom names = Ok versions ∧ goose (tables w) = Some records ∧
    ∀ v, v ∈ versions → is_applied records v = true.
Proof.
  intros Hf. unfold VerifyRuntime. destruct (versionsFrom names) as [versions|e] eqn:Ev.
  2: { split; [done|]. by intros (? & ? & ? & _). }
  unfold mbind, db_bind. cbn [lift]. rewrite ReadMigrationState_state by done. cbn [TableExists Records].
  destruct (goose (tables w)) as [records|] eqn:Eg; cbn [default].
  2: { split; [done|]. by intros (? & ? & _ & ? & _). }
  pose proof (versionsFrom_positive names versions Ev) as [H0 _].
  pose proof (λ n, prefix_counts {| TableExists := true; Records := records |} versions n H0 eq_refl) as Hn. cbn [Records] in Hn.
  destruct (ValidateMigrationPrefix _ versions) as [applied|e] eqn:Ea; cbn [TableExists negb orb lift fst].
  - specialize (proj1 (Hn applied) eq_refl) as (k & Hk & -> & H1 & H2). destruct (Z.eqb_spec (Z.of_nat k) (Z.of_nat (length versions))) as [E|E]; cbn [negb fail_if].
    + assert (k = length versions) as -> by lia. rewrite take_ge in H1 by lia. split; [|done]. intros _. by exists versions, records.
    + split; [done|]. intros (? & ? & [= <-] & [= <-] & Hall). exfalso.
      assert (is_Some (drop k versions !! 0%nat)) as [v Hv] by (apply lookup_lt_is_Some; rewrite length_drop; lia).
      apply list_elem_of_lookup_2 in Hv. specialize (H2 v Hv). rewrite Hall in H2; [done|by apply subseteq_drop in Hv].
  - split; [done|]. intros (? & ? & [= <-] & [= <-] & Hall). exfalso.
    assert (Fail e = Ok (Z.of_nat (length versions))) as H; [|done]. apply Hn. exists (length versions).
    rewrite take_ge, drop_ge by lia. split_and!; [lia|done|done|]. intros v Hv. by apply elem_of_nil in Hv.
Qed.

(** A configuration that is accepted always gives the connection settings: the network is one of
    the two kinds, the address is the host with its port or the socket, and the clock of a
    session is UTC. *)
Theorem accepted_connects installed ip_literal lookup c migrations : parse installed ip_literal lookup = Ok c →
  ∃ d, mysqlConfig (Database c) migrations = Ok d ∧
    (Net d = "tcp"%string ∧ db_Host (Database c) ≠ EmptyString ∧ Addr d = JoinHostPort (db_Host (Database c)) (Itoa (db_Port (Database c))) ∧
       1 ≤ db_Port (Database c) ≤ 65535 ∨
     Net d = "unix"%string ∧ Addr d = db_Socket (Database c) ∧ Addr d ≠ EmptyString) ∧
    DBName d = db_Name (Database c) ∧ DBName d ≠ EmptyString ∧ User d = db_User (Database c) ∧
    my_Params d = [("time_zone", "'+00:00'")]%string ∧ MultiStatements d = migrations.
Proof.
  intros H. apply config_Ok in H as (Hv & (_ & Hport & _) & _). apply validate_Ok in Hv as (Hreq & Hnet & _).
  assert (Hname : db_Name (Database c) ≠ EmptyString).
  { unfold required_fields in Hreq. rewrite Forall_forall in Hreq. apply (Hreq ("DB_NAME"%string, db_Name (Database c))). set_solver. }
  unfold mysqlConfig, MySQLConfig. destruct Hnet as [[E Hh]|[E Hs]]; rewrite E in *.
  - eexists. split; [reflexivity|]. cbn [Net Addr DBName User my_Params MultiStatements]. split_and!; [left|done..].
    change (seqb "tcp" "tcp") with true in Hport. cbv iota in Hport. split_and!; [done|done|reflexivity|lia|lia].
  - change (seqb "unix" EmptyString || seqb "unix" "tcp") with false. change (seqb "unix" "unix") with true. cbn iota.
    destruct (empty (db_Socket (Database c))) eqn:Es; [by apply seqb_eq in Es|]. eexists. split; [reflexivity|].
    cbn [Net Addr DBName User my_Params MultiStatements]. split_and!; [right|done..]. done.
Qed.

(** ** Examples *)

Definition embedded : list string :=
  ["202608090001_create_roles.sql"; "202608090002_create_permissions.sql"; "202608090003_create_role_permissions.sql";
   "202608090004_create_users.sql"; "202608090005_create_sessions.sql"; "202608090006_add_session_impersonation.sql";
   "202608090007_create_audit_logs.sql"; "202609140001_create_current_loan_snapshot.sql"; "202609170001_create_slik_jobs.sql";
   "202609180001_add_loan_start_date_to_snapshot.sql"; "202609210001_add_penalty_arrears_to_snapshot.sql";
   "202609210002_fincloud_auth_and_user_permissions.sql"]%string.
Definition embedded_versions : list Z :=
  [202608090001; 202608090002; 202608090003; 202608090004; 202608090005; 202608090006; 202608090007; 202609140001;
   202609170001; 202609180001; 202609210001; 202609210002].
Lemma embedded_Ok : versionsFrom (Ok embedded) = Ok embedded_versions.
Proof. vm_compute. reflexivity. Qed.
Definition entry (version : Z) : MigrationRecord := {| mig_Version := version; mig_Applied := true |}.
(** A history with the entry of the tool itself, one of another program and one that was rolled back *)
Definition history : list MigrationRecord :=
  entry 0 :: entry 5 :: (entry <$> embedded_versions) ++ [{| mig_Version := 202609210002; mig_Applied := false |}].
Lemma ValidateMigrationPrefix_counts_witness :
  StronglySorted Z.le embedded_versions ∧
  ∃ k, (k ≤ length embedded_versions)%nat ∧ 11 = Z.of_nat k ∧ (∀ v, v ∈ drop k embedded_versions → is_applied history v = false).
Proof.
  destruct (ValidateMigrationPrefix_counts (Ok embedded) embedded_versions {| TableExists := true; Records := history |} 11 embedded_Ok)
    as [H1 H2].
  split; [exact H1|]. destruct (proj1 H2) as (k & Hk & Hn & _ & Hd); [vm_compute; reflexivity|]. exists k. split; [exact Hk|split; [exact Hn|exact Hd]].
Defined.
Definition example_database (records : list MigrationRecord) : world schema :=
  World {| goose := Some records; selected := Some "trs"%string; table_count := 9 |} [].
Lemma VerifyRuntime_exact_witness :
  fst (VerifyRuntime (Ok embedded) (example_database (entry <$> embedded_versions))) = Ok tt ∧
  fst (VerifyRuntime (Ok embedded) (example_database history)) ≠ Ok tt.
Proof.
  split.
  - apply (VerifyRuntime_exact (Ok embedded) (example_database (entry <$> embedded_versions)) eq_refl).
    exists embedded_versions, (entry <$> embedded_versions). split; [exact embedded_Ok|]. split; [reflexivity|].
    apply Forall_forall. repeat constructor.
  - vm_compute. discriminate.
Defined.
Lemma accepted_connects_witness :
  ∃ c d, db_Name (Database c) = "trs"%string ∧ mysqlConfig (Database c) true = Ok d ∧ DBName d = "trs"%string ∧ DBName d ≠ EmptyString.
Proof.
  destruct parse_defaults_witness as (c & Hc & Hn).
  destruct (accepted_connects (fun zone => seqb zone "Asia/Jakarta") (fun _ => None) _ c true Hc) as (d & Hd & _ & Hdb & Hne & _).
  exists c, d. split; [exact Hn|split; [exact Hd|]]. split; [rewrite Hdb; exact Hn|exact Hne].
Defined.
