(* ===== verification/Migrate.v ===== *)
(** The migration command, [cmd/migrate/main.go]: its arguments, the policy for production,
    and the checks of the database before and after the migration tool runs.

    The tool itself is [goose_run], which may change the database in any way. *)
From stdpp Require Import base list strings gmap sorting.
From Stdlib Require Import ZArith Lia Ascii.
From S2P Require Import Prelude GoStrings GoErrors Database GoSlices GoTime GoConf Config Schema.
Local Open Scope Z_scope.

Definition migrationUsageError : err := Msg "usage: migrate <up [--confirm-database NAME]|down|status|create NAME>".
(** [^[A-Za-z0-9][A-Za-z0-9_-]*$] *)
Definition name_start (c : ascii) : bool :=
  is_digit c || ((65 <=? code c) && (code c <=? 90)) || ((97 <=? code c) && (code c <=? 122)).
Definition name_byte (c : ascii) : bool := name_start c || beq c "_" || beq c "-".
Definition migrationNamePattern (name : string) : bool :=
  match bytes name with c :: rest => name_start c && forallb name_byte rest | [] => false end.

Section Migrate.
Variable load : res Config.                         (* [config.Load] *)
Variable names : res (list string).                 (* the migrations built in *)
Variable goose_run : string → db schema unit.       (* [goose.RunContext] *)
Variable goose_create : string → res unit.          (* [goose.Create] *)
Variable connect : mysql_config → res unit.         (* opening and pinging *)

Definition validateCommandPolicy (c : Config) (command confirmed : string) : res unit :=
  fail_if (negb (seqb command "status") && empty (db_Name (Database c)))
          (Msg "configured database name is required for migration mutation");;
  if negb (seqb (Environment (App c)) "production") then Ok tt else
  fail_if (seqb command "down") (Msg "production migration down is disabled");;
  fail_if (seqb command "up" && negb (seqb confirmed (db_Name (Database c))))
          (Msg "production migration requires --confirm-database %s").

Definition verifySelectedDatabase (configured confirmed : string) : db schema unit :=
  name ← wrapped "identify selected database: %w"
    (statement (fun s => match selected s with Some name => Ok (name, s) | None => Fail (Msg "sql: Scan error: converting NULL to string") end));
  lift (fail_if (empty name || negb (seqb name configured)) (Msg "selected database %q does not match configured database %q"));;
  lift (fail_if (negb (empty confirmed) && negb (seqb name confirmed)) (Msg "selected database %q does not match confirmed database %q")).

Definition preflightUp : db schema unit :=
  state ← ReadMigrationState;
  versions ← lift (versionsFrom names);
  applied ← lift (ValidateMigrationPrefix state versions);
  tableCount ← wrapped "inspect database contents: %w" (query table_count);
  lift (fail_if (negb (TableExists state) && negb (tableCount =? 0)) (Msg "database has %d existing objects but no Goose history"));;
  lift (fail_if (TableExists state && (applied =? 0) && negb (tableCount =? 1))
                (Msg "database has existing objects outside an empty Goose lineage")).

(** The command and the confirmed database of the arguments *)
Definition migrate_arguments (arguments : list string) : res (string * string) :=
  match arguments with
  | ["up"%string; "--confirm-database"%string; name] =>
      fail_if (empty (TrimSpace name)) migrationUsageError;; Ok ("up"%string, TrimSpace name)
  | [command] => fail_if (negb (existsb (seqb command) ["up"; "down"; "status"]%string)) migrationUsageError;; Ok (command, EmptyString)
  | _ => Fail migrationUsageError
  end.
Definition prepare (command confirmed : string) : db schema unit :=
  c ← lift (wrap_err "load configuration: %w" load);
  lift (validateCommandPolicy c command confirmed);;
  lift (wrap_err "initialize database: %w" (d ← mysqlConfig (Database c) true; connect d));;
  (if seqb command "up" || seqb command "down" then verifySelectedDatabase (db_Name (Database c)) confirmed else mret tt);;
  if seqb command "up" then wrapped "migration preflight: %w" preflightUp else mret tt.
Definition run_command (command confirmed : string) : db schema unit :=
  prepare command confirmed;;
  wrapped "goose %s: %w" (goose_run command);;
  if seqb command "up" then wrapped "verify migrated schema: %w" (VerifyRuntime names) else mret tt.
Definition create_usage : err := Msg "usage: migrate create NAME (letters, numbers, underscores, and hyphens only)".
Definition run (arguments : list string) : db schema unit :=
  match arguments with
  | [] => db_fail migrationUsageError
  | command :: rest =>
      if seqb command "create" then
        match rest with
        | [name] => if migrationNamePattern name then lift (goose_create name) else db_fail create_usage
        | _ => db_fail create_usage
        end
      else '(command, confirmed) ← lift (migrate_arguments arguments); run_command command confirmed
  end.

(** ** What the checks let pass *)

(** What the policy allows for the environment of [c] *)
Definition allowed (c : Config) (command confirmed : string) : Prop :=
  (command ≠ "status"%string → db_Name (Database c) ≠ EmptyString) ∧
  (Environment (App c) = "production"%string → command ≠ "down"%string ∧ (command = "up"%string → confirmed = db_Name (Database c))).
Lemma policy_Ok c command confirmed : validateCommandPolicy c command confirmed = Ok tt ↔ allowed c command confirmed.
Proof.
  unfold validateCommandPolicy, allowed, empty.
  destruct (seqb command "status") eqn:E1, (seqb (db_Name (Database c)) EmptyString) eqn:E2, (seqb (Environment (App c)) "production") eqn:E3,
    (seqb command "down") eqn:E4, (seqb command "up") eqn:E5, (seqb confirmed (db_Name (Database c))) eqn:E6; cbn;
    repeat match goal with H : seqb _ _ = true |- _ => apply seqb_eq in H | H : seqb _ _ = false |- _ => apply seqb_neq in H end;
    naive_solver.
Qed.
(** The database that is selected is the configured one, and the confirmed one. *)
Lemma verifySelectedDatabase_Ok configured confirmed w u w' : verifySelectedDatabase configured confirmed w = (Ok u, w') →
  tables w' = tables w ∧ selected (tables w) = Some configured ∧ configured ≠ EmptyString ∧ (confirmed ≠ EmptyString → confirmed = configured).
Proof.
  intros H. apply db_bind_Ok in H as (name & w1 & H1 & H). apply wrapped_Ok, statement_effect in H1 as (s & H1 & Hs).
  apply db_bind_Ok in H as (u1 & w2 & H2 & H). injection H2 as H2 <-. injection H as H <-.
  apply fail_if_Ok, orb_false_iff in H2 as [He Hc]. apply fail_if_Ok in H. apply negb_false_iff, seqb_eq in Hc. subst name.
  destruct (selected (tables w)) as [name|]; [|done]. injection H1 as -> <-. split_and!; [done|done| |].
  - intros ->. done.
  - intros Hn. apply andb_false_iff in H as [H|H]; apply negb_false_iff in H.
    + by apply seqb_eq in H.
    + by apply seqb_eq in H.
Qed.
(** The history before: none and an empty database, or a prefix of the migrations that is
    empty only when there is nothing but the history *)
Definition fit_for_up (s : schema) : Prop :=
  match goose s with
  | None => table_count s = 0
  | Some records => ∃ versions k, versionsFrom names = Ok versions ∧ (k ≤ length versions)%nat ∧
      (∀ v, v ∈ take k versions → is_applied records v = true) ∧ (∀ v, v ∈ drop k versions → is_applied records v = false) ∧
      (k = 0%nat → table_count s = 1)
  end.
Lemma preflightUp_Ok w u w' : preflightUp w = (Ok u, w') → tables w' = tables w ∧ fit_for_up (tables w).
Proof.
  intros H. unfold preflightUp in H. apply db_bind_Ok in H as (state & w1 & H1 & H). apply ReadMigrationState_Ok in H1 as [Ht ->].
  apply db_bind_Ok in H as (versions & w2 & H2 & H). injection H2 as Hv <-.
  apply db_bind_Ok in H as (applied & w3 & H3 & H). injection H3 as Ha <-.
  apply db_bind_Ok in H as (n & w4 & H4 & H). apply wrapped_Ok, query_Ok in H4 as [-> H4].
  apply db_bind_Ok in H as (u1 & w5 & H5 & H). injection H5 as H5 <-. injection H as H6 <-. rewrite H4, Ht. split; [done|].
  rewrite Ht in *. cbn [TableExists] in *. apply fail_if_Ok in H5, H6. unfold fit_for_up.
  destruct (goose (tables w)) as [records|]; cbn [negb andb] in *; [|apply negb_false_iff in H5; lia].
  apply prefix_counts in Ha as (k & Hk & -> & Hp & Hs); [|by apply versionsFrom_positive in Hv as [? _]|done].
  exists versions, k. split_and!; [done..|]. intros ->. change (Z.of_nat 0 =? 0) with true in H6. cbn [andb] in H6. apply negb_false_iff in H6. lia.
Qed.

Lemma prepare_Ok command confirmed w u w' : prepare command confirmed w = (Ok u, w') → tables w' = tables w ∧
  ∃ c, load = Ok c ∧ allowed c command confirmed ∧
    (command = "up"%string ∨ command = "down"%string → selected (tables w) = Some (db_Name (Database c))) ∧
    (command = "up"%string → fit_for_up (tables w)).
Proof.
  intros H. unfold prepare in H. apply db_bind_Ok in H as (c & w1 & H1 & H). injection H1 as Hl <-. apply wrap_err_Ok in Hl.
  apply db_bind_Ok in H as ([] & w2 & H2 & H). injection H2 as Hp <-. apply policy_Ok in Hp.
  apply db_bind_Ok in H as (u3 & w3 & H3 & H). injection H3 as _ <-. apply db_bind_Ok in H as (u4 & w4 & H4 & H).
  assert (tables w4 = tables w ∧ (command = "up"%string ∨ command = "down"%string → selected (tables w) = Some (db_Name (Database c)))) as [Ht Hs].
  { destruct (seqb command "up" || seqb command "down") eqn:E.
    - apply verifySelectedDatabase_Ok in H4 as (? & ? & _). by split.
    - injection H4 as _ <-. split; [done|]. apply orb_false_iff in E as [E1%seqb_neq E2%seqb_neq]. naive_solver. }
  destruct (seqb command "up") eqn:E.
  - apply wrapped_Ok, preflightUp_Ok in H as [Ht' Hf]. rewrite Ht in *. split; [done|]. by exists c.
  - injection H as _ <-. split; [done|]. exists c. split_and!; [done..|]. apply seqb_neq in E. done.
Qed.
Lemma keeps_state_lift {A} (r : res A) : keeps (λ s : schema, s) (lift r).
Proof. apply keeps_lift. Qed.
Lemma ReadMigrationState_keeps : keeps (λ s : schema, s) ReadMigrationState.
Proof.
  apply keeps_bind; [apply keeps_wrapped, keeps_query|]. intros n. destruct (n =? 0); [apply keeps_ret|].
  apply keeps_bind; [|intros l; apply keeps_ret]. apply keeps_wrapped. intros w r w' H. apply statement_effect in H.
  destruct r as [l|e]; [|destruct H as [H|(l & s & H & E)]; [done|]]; [destruct H as (s & H & E)|]; rewrite E; destruct (goose (tables w)); naive_solver.
Qed.
Lemma verifySelectedDatabase_keeps configured confirmed : keeps (λ s : schema, s) (verifySelectedDatabase configured confirmed).
Proof.
  apply keeps_bind; [|intros name; apply keeps_bind; [apply keeps_lift|intros _; apply keeps_lift]].
  apply keeps_wrapped. intros w r w' H. apply statement_effect in H.
  destruct r as [l|e]; [|destruct H as [H|(l & s & H & E)]; [done|]]; [destruct H as (s & H & E)|]; rewrite E; destruct (selected (tables w)); naive_solver.
Qed.
Lemma preflightUp_keeps : keeps (λ s : schema, s) preflightUp.
Proof.
  apply keeps_bind; [apply ReadMigrationState_keeps|intros state]. apply keeps_bind; [apply keeps_lift|intros versions].
  apply keeps_bind; [apply keeps_lift|intros applied]. apply keeps_bind; [apply keeps_wrapped, keeps_query|intros n].
  apply keeps_bind; [apply keeps_lift|intros _]. apply keeps_lift.
Qed.
Lemma prepare_keeps command confirmed : keeps (λ s : schema, s) (prepare command confirmed).
Proof.
  apply keeps_bind; [apply keeps_lift|intros c]. apply keeps_bind; [apply keeps_lift|intros _]. apply keeps_bind; [apply keeps_lift|intros _].
  apply keeps_bind; [destruct (_ || _); [apply verifySelectedDatabase_keeps|apply keeps_ret]|intros _].
  destruct (seqb command "up"); [apply keeps_wrapped, preflightUp_keeps|apply keeps_ret].
Qed.
Lemma VerifyRuntime_keeps : keeps (λ s : schema, s) (VerifyRuntime names).
Proof.
  apply keeps_bind; [apply keeps_lift|intros versions]. apply keeps_bind; [apply ReadMigrationState_keeps|intros state].
  apply keeps_bind; [apply keeps_lift|intros applied]. apply keeps_lift.
Qed.

(** The tool ran, after every check *)
Definition goose_ran (arguments : list string) (w : world schema) (r : res unit) (w' : world schema) : Prop :=
  ∃ command confirmed c w1 r2 w2, migrate_arguments arguments = Ok (command, confirmed) ∧ load = Ok c ∧ allowed c command confirmed ∧
    (command = "up"%string ∨ command = "down"%string → selected (tables w) = Some (db_Name (Database c))) ∧
    (command = "up"%string → fit_for_up (tables w)) ∧
    tables w1 = tables w ∧ goose_run command w1 = (r2, w2) ∧ tables w' = tables w2 ∧
    (r = Ok tt → r2 = Ok tt ∧ (command = "up"%string → ∃ versions records, versionsFrom names = Ok versions ∧
       goose (tables w') = Some records ∧ ∀ v, v ∈ versions → is_applied records v = true)).
Lemma run_command_cases arguments command confirmed w r w' : migrate_arguments arguments = Ok (command, confirmed) →
  run_command command confirmed w = (r, w') → (tables w' = tables w ∧ is_ok r = false) ∨ goose_ran arguments w r w'.
Proof.
  intros Harg. unfold run_command, mbind, db_bind. destruct (prepare command confirmed w) as [[u|e] w1] eqn:E1.
  2: { intros [= <- <-]. left. split; [|done]. by apply prepare_keeps in E1. }
  apply prepare_Ok in E1 as (Ht & c & Hl & Ha & Hs & Hf).
  destruct (wrapped "goose %s: %w" (goose_run command) w1) as [r1 w2] eqn:E2. apply wrapped_inv in E2 as (r2 & E2 & Hr).
  intros H. right. exists command, confirmed, c, w1, r2, w2. split_and!; [done..| |].
  - destruct r1 as [u1|e]; [|by injection H as <- <-]. destruct (seqb command "up"); [|by injection H as <- <-].
    apply wrapped_inv in H as (r3 & H & _). by apply VerifyRuntime_keeps in H.
  - intros ->. destruct r1 as [[]|e]; [|done]. split; [done|]. intros ->. change (seqb "up" "up") with true in H. cbv iota in H.
    apply wrapped_Ok, VerifyRuntime_Ok in H as [Hv H]. by rewrite Hv.
Qed.
End Migrate.

(** C36: The migration tool touches the database only after every check: the arguments are one of the
    commands, in production there is no "down" and "up" names the configured database, the
    database selected is the configured one, and before "up" it is empty or has a history
    whose applied migrations are a prefix of those built in.  Otherwise the database is as
    it was and the command fails, unless it creates a file.  An "up" that succeeds leaves every
    migration applied. *)
Theorem migrate_guarded load names goose_run goose_create connect arguments w r w' :
  run load names goose_run goose_create connect arguments w = (r, w') →
  (tables w' = tables w ∧ (r = Ok tt → ∃ name, arguments = ["create"; name]%string ∧ migrationNamePattern name = true ∧ goose_create name = Ok tt)) ∨
  goose_ran load names goose_run arguments w r w'.
Proof.
  intros H. unfold run in H. destruct arguments as [|command rest]; [by injection H as <- <-; left|].
  destruct (seqb command "create") eqn:E.
  - left. apply seqb_eq in E as ->. destruct rest as [|name [|? ?]]; [by injection H as <- <-| |by injection H as <- <-].
    destruct (migrationNamePattern name) eqn:En; injection H as <- <-; [|done]. split; [done|]. intros Hc. by exists name.
  - unfold mbind, db_bind in H. cbn [lift] in H. destruct (migrate_arguments (command :: rest)) as [[command' confirmed]|e] eqn:Ea.
    + apply (run_command_cases load names goose_run goose_create connect (command :: rest)) in H as [[Ht Hr]|H]; [left|by right|done].
      split; [done|]. by intros ->.
    + injection H as <- <-. by left.
Qed.

(** ** Examples *)

Definition ready : DatabaseConfig :=
  {| db_Network := "tcp"; db_Host := "127.0.0.1"; db_Port := 3306; db_Socket := ""; db_Name := "trs"; db_User := "root"; db_Password := "" |}.
(** A tool that applies what is missing *)
Definition apply_all (command : string) : db schema unit :=
  exec (fun s => {| goose := Some (entry <$> embedded_versions); selected := selected s; table_count := table_count s + 9 |}).
Definition empty_database : world schema := World {| goose := None; selected := Some "trs"%string; table_count := 0 |} [].
Definition production : Config := {|
  App := {| Name := "TRS"; Environment := "production"; URL := "https://trs.example.com"; BindHost := "127.0.0.1"; Port := 8080;
            ShutdownTimeout := 45; Timezone := "UTC"; LogoFile := ""; WideLogoFile := ""; FaviconFile := "" |};
  APIKey := ""; BootstrapAccessManagers := ""; Database := ready;
  Session := {| CookieName := "trs"; Lifetime := 1; RememberLifetime := 1; Secure := true |};
  Auth := {| LoginFailureWindow := 1; LoginMaxFailures := 5; LoginLockout := 1 |}; DWH := ""; MSO := "";
  Fincloud := {| BaseURL := ""; fc_Username := ""; fc_Password := ""; fc_LocationID := ""; fc_RoleID := ""; CAFile := "";
                 InsecureTLS := false; Timeout := 1; MaxReportSize := 1 |};
  Snapshot := {| RefreshInterval := 1; RefreshOnStart := true |}; SLIK := {| Concurrency := 1; MaxUploadBytes := 1; StorageDir := "storage" |};
  DefaultParticipantCode := "" |}%string.
Definition migrate (arguments : list string) : res unit * world schema :=
  run (Ok production) (Ok embedded) apply_all (fun _ => Ok tt) (fun _ => Ok tt) arguments empty_database.
Lemma migrate_guarded_witness :
  fst (migrate ["up"; "--confirm-database"; "trs"]%string) = Ok tt ∧
  goose (tables (snd (migrate ["up"; "--confirm-database"; "trs"]%string))) = Some (entry <$> embedded_versions) ∧
  fst (migrate ["up"]%string) ≠ Ok tt ∧
  (tables (snd (migrate ["up"]%string)) = tables empty_database ∨
   goose_ran (Ok production) (Ok embedded) apply_all ["up"]%string empty_database (fst (migrate ["up"]%string)) (snd (migrate ["up"]%string))).
Proof.
  split; [vm_compute; reflexivity|]. split; [vm_compute; reflexivity|]. split; [vm_compute; discriminate|].
  destruct (migrate ["up"]%string) as [r w'] eqn:E.
  destruct (migrate_guarded (Ok production) (Ok embedded) apply_all (fun _ => Ok tt) (fun _ => Ok tt) ["up"]%string empty_database r w' E)
    as [[H _]|H]; [left; exact H|right; exact H].
Defined.
