(* ===== verification/RenameModule.v ===== *)
(** The command that renames the module, [cmd/rename-module/main.go]: the check of the new
    path, the directive of go.mod, the imports of Go files, the names in documents, and
    the walk over the project that rewrites them.

    What [go/parser] finds in a Go file is [imports]; [strconv.Quote] of a module path is the
    path in quotes. *)
From stdpp Require Import base list strings gmap sorting.
From Stdlib Require Import ZArith Lia Ascii.
From S2P Require Import Prelude GoStrings GoErrors Database GoSlices GoCSV.

(** ** Module paths *)

Definition lower_or_digit (c : ascii) : bool := is_digit c || ((97 <=? code c)%Z && (code c <=? 122)%Z).
Definition path_byte (c : ascii) : bool := lower_or_digit c || mem_byte c (bytes "-._~").
Definition invalid_path : err := Msg "invalid module path %q".
Definition segment_ok (segment : list ascii) : res unit :=
  fail_if (bool_decide (segment = []) || bool_decide (segment = bytes ".") || bool_decide (segment = bytes "..") ||
           has_prefix_bytes segment (bytes ".") || has_prefix_bytes (rev segment) (bytes ".")) invalid_path;;
  fail_if (negb (forallb path_byte segment))
          (Msg "invalid module path %q: use lowercase ASCII letters, digits, hyphens, dots, underscores, or tildes").
Fixpoint segments_ok (segments : list (list ascii)) : res unit :=
  match segments with [] => Ok tt | segment :: rest => segment_ok segment;; segments_ok rest end.
Definition validateModulePath (path : string) : res unit :=
  fail_if (empty path || negb (seqb path (TrimSpace path)) || (255 <? length (bytes path))%nat || HasPrefix path "/" || HasSuffix path "/" ||
           Contains path "//") invalid_path;;
  let segments := split_byte "/" (bytes path) in
  fail_if ((length segments <? 2)%nat || negb (mem_byte "." (hd [] segments))) (Msg "invalid module path %q: expected a dotted host and path");;
  segments_ok segments.

(** ** go.mod *)

(** [bytes.SplitAfter] with a newline *)
Fixpoint split_after_newline (l : list ascii) : list (list ascii) :=
  match l with
  | [] => [[]]
  | c :: rest =>
      if beq c newline then [c] :: split_after_newline rest else
      match split_after_newline rest with line :: lines => (c :: line) :: lines | [] => [[c]] end
  end.
Definition replaceBytes (data : list ascii) (start end_ : nat) (replacement : list ascii) : list ascii :=
  take start data ++ replacement ++ drop end_ data.
Definition malformed_directive : err := Msg "go.mod has malformed module directive".
(** The path of the directive, and where it starts and ends *)
Fixpoint directive_in (lines : list (list ascii)) (offset : nat) : res (list ascii * nat * nat) :=
  match lines with
  | [] => Fail (Msg "go.mod has no module directive")
  | line :: rest =>
      let trimmed := trim_bytes line in
      if has_prefix_bytes trimmed (bytes "module") then
        match fields_aux [] trimmed with
        | [keyword; value] =>
            if bool_decide (keyword = bytes "module") then
              let index := default 0 (index_of value line) in
              Ok (value, offset + index, offset + index + length value)%nat
            else Fail malformed_directive
        | _ => Fail malformed_directive
        end
      else directive_in rest (offset + length line)
  end.
Definition moduleDirective (data : list ascii) : res (list ascii * nat * nat) := directive_in (split_after_newline data) 0.

(** ** Documents *)

Definition moduleCharacter (c : ascii) : bool :=
  is_digit c || ((97 <=? code c)%Z && (code c <=? 122)%Z) || ((65 <=? code c)%Z && (code c <=? 90)%Z) || mem_byte c (bytes "-._~!/").
(** [!moduleCharacter(data[index-1])] or the start *)
Definition before_ok (data : list ascii) (index : nat) : bool :=
  match index with O => true | S previous => match data !! previous with Some c => negb (moduleCharacter c) | None => true end end.
Definition after_ok (data : list ascii) (index : nat) : bool :=
  match data !! index with Some c => beq c "/" || negb (moduleCharacter c) | None => true end.
(** The loop at [offset]; [None] is out of fuel. *)
Fixpoint replace_from (fuel : nat) (data current target : list ascii) (offset : nat) : option (list ascii) :=
  match fuel with
  | O => None
  | S fuel' =>
      if (length data <=? offset)%nat then Some [] else
      match index_of current (drop offset data) with
      | None => Some (drop offset data)
      | Some index =>
          let index := (index + offset)%nat in
          let end_ := (index + length current)%nat in
          if before_ok data index && after_ok data end_ then
            rest ← replace_from fuel' data current target end_; Some (take (index - offset) (drop offset data) ++ target ++ rest)
          else
            rest ← replace_from fuel' data current target (S index); Some (take (S index - offset) (drop offset data) ++ rest)
      end
  end.
Definition replaceDocumentModule (data current target : list ascii) : option (list ascii) :=
  replace_from (S (length data)) data current target 0.

(** ** Go files *)

(** The literal of an import: where it is, and what [strconv.Unquote] makes of it *)
Record import_spec := { spec_start : nat; spec_end : nat; spec_value : res (list ascii) }.
Record edit := { edit_start : nat; edit_end : nat; edit_value : list ascii }.
Definition quote_char : ascii := chr 34.
Definition Quote (l : list ascii) : list ascii := quote_char :: l ++ [quote_char].
Definition trim_prefix (l p : list ascii) : list ascii := if has_prefix_bytes l p then drop (length p) l else l.
Fixpoint import_edits (specs : list import_spec) (current target : list ascii) : res (list edit) :=
  match specs with
  | [] => Ok []
  | spec :: rest =>
      value ← wrap_err "decode import in %s: %w" (spec_value spec);
      if negb (bool_decide (value = current)) && negb (has_prefix_bytes value (current ++ ["/"%char])) then import_edits rest current target else
      edits ← import_edits rest current target;
      Ok ({| edit_start := spec_start spec; edit_end := spec_end spec; edit_value := Quote (target ++ trim_prefix value current) |} :: edits)
  end.
(** The edits from the last one to the first *)
Definition apply_edits (edits : list edit) (data : list ascii) : list ascii :=
  fold_left (fun updated e => replaceBytes updated (edit_start e) (edit_end e) (edit_value e)) (rev edits) data.

(** ** The project *)

(** A file with its mode as [Info] gives it; a directory lists its entries in order. *)
Record file := { file_data : res (list ascii); file_mode : res Z }.
Inductive tree :=
| File (name : string) (f : file)
| Dir (name : string) (readable : res unit) (entries : list tree).
Definition pendingFile : Type := string * list ascii * Z.    (* the path, what to write and the mode *)

Definition skippedDirectory (path : string) : bool :=
  existsb (seqb path) [".git"; "node_modules"; "bin"; "tmp"; "web/static"]%string ||
  existsb (HasPrefix path) [".git/"; "node_modules/"; "bin/"; "tmp/"; "web/static/"]%string.
Definition join_path (directory name : string) : string :=
  if seqb directory "." then name else (directory +:+ "/" +:+ name)%string.

Section Rename.
Variable imports : list ascii → res (list import_spec).   (* [parser.ParseFile] for the imports *)
Variable moduleData : list ascii.                         (* go.mod of the root *)
Variable current target : list ascii.
Variable start end_ : nat.                                (* where the directive names [current] *)

Definition replaceGoImports (data : list ascii) : res (list ascii) :=
  specs ← wrap_err "parse Go imports in %s: %w" (imports data);
  edits ← import_edits specs current target;
  Ok (apply_edits edits data).
(** What becomes of a file: nothing, or a new content *)
Definition rewritten (path name : string) (f : file) : res (option (list ascii)) :=
  if seqb path "go.mod" then Ok (Some (replaceBytes moduleData start end_ target)) else
  if HasSuffix name ".go" then
    data ← wrap_err "read %s: %w" (file_data f);
    updated ← replaceGoImports data;
    Ok (if bool_decide (data = updated) then None else Some updated)
  else if HasSuffix name ".md" || HasSuffix name ".markdown" then
    data ← wrap_err "read %s: %w" (file_data f);
    updated ← of_option (replaceDocumentModule data current target) (Msg "out of fuel");
    Ok (if bool_decide (data = updated) then None else Some updated)
  else Ok None.
(** [filepath.WalkDir]: the files to write, in the order of the walk *)
Fixpoint walk (path : string) (t : tree) : res (list pendingFile) :=
  match t with
  | File name f =>
      updated ← rewritten path name f;
      match updated with
      | None => Ok []
      | Some data => mode ← wrap_err "inspect %s: %w" (file_mode f); Ok [(path, data, mode)]
      end
  | Dir _ readable entries =>
      if negb (seqb path ".") && skippedDirectory path then Ok [] else
      readable;;
      (fix walk_entries (entries : list tree) : res (list pendingFile) :=
         match entries with
         | [] => Ok []
         | entry :: rest =>
             let name := match entry with File name _ => name | Dir name _ _ => name end in
             pending ← walk (join_path path name) entry; others ← walk_entries rest; Ok (pending ++ others)
         end) entries
  end.
End Rename.

(** The files as they are written, by their paths *)
Abbreviation disk := (gmap string (list ascii)).
(** [writeAtomic]: a temporary file takes the place of the old one in one step. *)
Definition writeAtomic (pending : pendingFile) : db disk unit :=
  let '(path, data, _) := pending in
  wrapped "create temporary file for %s: %w" (query (fun _ => tt));;
  wrapped "preserve mode for %s: %w" (query (fun _ => tt));;
  wrapped "write temporary file for %s: %w" (query (fun _ => tt));;
  wrapped "close temporary file for %s: %w" (query (fun _ => tt));;
  wrapped "replace %s: %w" (exec (fun files => <[path := data]> files)).
Fixpoint write_all (pending : list pendingFile) : db disk unit :=
  match pending with [] => mret tt | file :: rest => writeAtomic file;; write_all rest end.
(** [project] is what the walk finds, [module] what reading go.mod gives. *)
Definition renameModule (imports : list ascii → res (list import_spec)) (module : res (list ascii)) (project : tree) (target : string)
    : db disk (list string) :=
  lift (validateModulePath target);;
  moduleData ← lift (wrap_err "read go.mod: %w" module);
  '(current, start, end_) ← lift (moduleDirective moduleData);
  if bool_decide (current = bytes target) then mret [] else
  pending ← lift (wrap_err "prepare module rename: %w" (walk imports moduleData current (bytes target) start end_ "." project));
  write_all pending;;
  mret (SortStableFunc string_leb ((fun p : pendingFile => p.1.1) <$> pending)).

(** ** What happens to a document *)

(** The maximal runs of characters that can, or cannot, be part of a module path *)
Fixpoint runs (l : list ascii) : list (list ascii) :=
  match l with
  | [] => []
  | c :: rest =>
      match runs rest with
      | (d :: run) :: others => if Bool.eqb (moduleCharacter c) (moduleCharacter d) then (c :: d :: run) :: others else [c] :: (d :: run) :: others
      | others => [c] :: others
      end
  end.
(** The run names the module, or a package of it. *)
Definition names_module (current run : list ascii) : bool :=
  bool_decide (run = current) || has_prefix_bytes run (current ++ ["/"%char]).
Definition rename_run (current target run : list ascii) : list ascii :=
  if names_module current run then target ++ drop (length current) run else run.

(** A path made of module characters *)
Definition module_text (l : list ascii) : Prop := l ≠ [] ∧ forallb moduleCharacter l = true.
Definition run_class (b : bool) (run : list ascii) : Prop := run ≠ [] ∧ Forall (λ c, moduleCharacter c = b) run.
(** Runs whose class alternates *)
Fixpoint alternating (b : bool) (rs : list (list ascii)) : Prop :=
  match rs with [] => True | run :: rest => run_class b run ∧ alternating (negb b) rest end.
Definition class_of (l : list ascii) : bool := match l with c :: _ => moduleCharacter c | [] => false end.

Lemma runs_concat l : List.concat (runs l) = l.
Proof.
  induction l as [|c l IH]; [done|]. cbn [runs]. destruct (runs l) as [|[|d run] others]; cbn in *; [by rewrite <- IH|by rewrite <- IH|].
  destruct (Bool.eqb _ _); cbn; by rewrite <- IH.
Qed.
Lemma runs_alternating l : alternating (class_of l) (runs l).
Proof.
  induction l as [|c l IH]; [done|]. cbn [runs class_of]. pose proof (runs_concat l) as Hc.
  destruct (runs l) as [|[|d run] others] eqn:E; cbn [alternating] in *.
  - split; [split; [done|by constructor]|done].
  - destruct IH as [[Hne _] _]. done.
  - cbn [List.concat app] in Hc. subst l. cbn [class_of] in IH. destruct IH as [[_ Hr] Ho].
    destruct (Bool.eqb (moduleCharacter c) (moduleCharacter d)) eqn:Eb; cbn [alternating].
    + apply Bool.eqb_prop in Eb. rewrite Eb. split; [|done]. split; [done|by constructor].
    + apply Bool.eqb_false_iff in Eb. assert (negb (moduleCharacter c) = moduleCharacter d) as -> by (by destruct (moduleCharacter c), (moduleCharacter d)).
      split; [split; [done|by constructor]|]. by split.
Qed.
Lemma alternating_runs b rs : alternating b rs → runs (List.concat rs) = rs.
Proof.
  revert b. induction rs as [|run rs IH]; intros b H; [done|]. cbn [List.concat]. destruct H as [[Hne Hr] Hrs]. specialize (IH _ Hrs).
  assert (Hnext : ∀ d r o, runs (List.concat rs) = (d :: r) :: o → moduleCharacter d = negb b).
  { intros d r o E. rewrite IH in E. subst rs. destruct Hrs as [[_ Hd] _]. by apply Forall_cons in Hd as [Hd _]. }
  induction run as [|c run IHr]; [done|]. apply Forall_cons in Hr as [Hc Hr]. cbn [app runs]. destruct run as [|c' run].
  - cbn [app]. destruct (runs (List.concat rs)) as [|[|d r] o] eqn:E; [by rewrite <- IH| |].
    + exfalso. assert (rs = [] :: o) as E' by congruence. rewrite E' in Hrs. by destruct Hrs as [[? _] _].
    + specialize (Hnext d r o eq_refl). rewrite Hc, Hnext. rewrite <- IH. by destruct b.
  - rewrite IHr by done. apply Forall_cons in Hr as [Hc' _]. rewrite Hc, Hc'. by destruct b.
Qed.

Lemma names_other cur run : module_text cur → run_class false run → names_module cur run = false.
Proof.
  intros [Hc Hm] [Hne Hr]. destruct cur as [|c cs]; [done|]. destruct run as [|d run]; [done|].
  apply Forall_cons in Hr as [Hd _]. cbn in Hm. apply andb_true_iff in Hm as [Hm _]. unfold names_module.
  apply orb_false_iff. split; [apply bool_decide_eq_false; congruence|]. cbn. destruct (beq d c) eqn:Eb; [|done]. apply beq_eq in Eb. congruence.
Qed.
(** A text of the module cannot begin a run of the other class. *)
Lemma module_text_class cur rest run others b : module_text cur → run_class b run → cur ++ rest = run ++ others → b = true.
Proof.
  intros [Hc Hm] [Hne Hr] E. destruct cur as [|c cs], run as [|d run]; try done. injection E as -> _.
  apply Forall_cons in Hr as [<- _]. cbn in Hm. by apply andb_true_iff in Hm as [Hm _].
Qed.

Section Document.
Variables current target : list ascii.
Hypothesis Hcurrent : module_text current.

(** The text from a place on, where [prev] says that a module character stands before it *)
Inductive renames : bool → list ascii → list ascii → Prop :=
| renames_end prev : renames prev [] []
| renames_here rest out : after_ok rest 0 = true → renames true rest out → renames false (current ++ rest) (target ++ out)
| renames_copy prev c rest out :
    (prev = true ∨ ¬ current `prefix_of` c :: rest ∨ after_ok (drop (length current) (c :: rest)) 0 = false) →
    renames (moduleCharacter c) rest out → renames prev (c :: rest) (c :: out).

Lemma after_ok_drop data n : after_ok data n = after_ok (drop n data) 0.
Proof. unfold after_ok. rewrite lookup_drop. by rewrite Nat.add_0_r. Qed.
Lemma current_last rest : before_ok (current ++ rest) (length current) = false.
Proof.
  destruct Hcurrent as [Hne Hm]. unfold before_ok. destruct (length current) as [|n] eqn:El; [by apply length_zero_iff_nil in El|].
  rewrite lookup_app_l by lia. destruct (current !! n) as [c|] eqn:E; [|apply lookup_ge_None in E; lia].
  rewrite forallb_forall in Hm. apply list_elem_of_lookup_2, list_elem_of_In in E. by rewrite (Hm _ E).
Qed.
Definition prev_of (data : list ascii) (offset : nat) : bool := negb (before_ok data offset).
Lemma prev_of_succ data offset c rest : drop offset data = c :: rest → prev_of data (S offset) = moduleCharacter c.
Proof.
  intros H. unfold prev_of, before_ok. assert (data !! offset = Some c) as ->; [|by rewrite negb_involutive].
  rewrite <- (Nat.add_0_r offset), <- lookup_drop, H. done.
Qed.
(** Where the module does not occur the text is copied. *)
Lemma renames_skip n data offset out : (offset + n ≤ length data)%nat →
  (∀ j, (j < n)%nat → has_prefix_bytes (drop j (drop offset data)) current = false) →
  renames (prev_of data (offset + n)) (drop (offset + n) data) out →
  renames (prev_of data offset) (drop offset data) (take n (drop offset data) ++ out).
Proof.
  revert offset. induction n as [|n IH]; intros offset Hl Hn Hr; [by rewrite Nat.add_0_r in Hr|].
  destruct (drop offset data) as [|c rest] eqn:E.
  { apply (f_equal length) in E. rewrite length_drop in E. cbn in E. lia. }
  assert (drop (S offset) data = rest) as Hrest by (replace (S offset) with (offset + 1)%nat by lia; by rewrite <- drop_drop, E).
  cbn [take app]. apply renames_copy.
  - right. left. intros Hp. apply has_prefix_prefix in Hp. specialize (Hn 0%nat ltac:(lia)). cbn [drop] in Hn. congruence.
  - rewrite <- (prev_of_succ data offset c rest E), <- Hrest. apply IH; [lia| |by replace (S offset + n)%nat with (offset + S n)%nat by lia].
    intros j Hj. rewrite Hrest. apply (Hn (S j)). lia.
Qed.
Lemma renames_all data offset : (∀ j, has_prefix_bytes (drop j (drop offset data)) current = false) →
  renames (prev_of data offset) (drop offset data) (drop offset data).
Proof.
  intros H. destruct (Nat.le_gt_cases offset (length data)) as [Hl|Hl].
  - replace (drop offset data) with (take (length data - offset) (drop offset data) ++ []) at 2
      by (rewrite app_nil_r, take_ge; [done|rewrite length_drop; lia]).
    apply renames_skip; [lia|intros j _; apply H|]. rewrite drop_ge by lia. constructor.
  - rewrite drop_ge by lia. constructor.
Qed.
Lemma prev_of_current data i rest : drop i data = current ++ rest → prev_of data (i + length current) = true.
Proof.
  intros E. pose proof (current_last rest) as Hl. unfold prev_of, before_ok in *. destruct Hcurrent as [Hne _].
  destruct (length current) as [|n] eqn:El; [by apply length_zero_iff_nil in El|]. rewrite Nat.add_succ_r.
  rewrite <- E, lookup_drop in Hl. destruct (data !! (i + n)%nat) as [c|]; [|done]. by rewrite Hl.
Qed.
Lemma replace_from_renames fuel data offset : (length data < offset + fuel)%nat → (0 < fuel)%nat →
  ∃ out, replace_from fuel data current target offset = Some out ∧ renames (prev_of data offset) (drop offset data) out.
Proof.
  assert (Hpos : (0 < length current)%nat) by (destruct Hcurrent as [Hne _]; destruct current; [done|cbn; lia]).
  revert offset. induction fuel as [|fuel IH]; intros offset Hf Hpf; [lia|]. cbn [replace_from].
  destruct (Nat.leb_spec (length data) offset) as [Hl|Hl]; [exists []; split; [done|]; rewrite drop_ge by lia; constructor|].
  destruct (index_of current (drop offset data)) as [index|] eqn:Ei.
  2: { eexists. split; [done|]. apply renames_all. by apply index_of_None. }
  apply index_of_Some in Ei as ([rest Hrest] & Hi & Hj). rewrite drop_drop in Hrest. rewrite length_drop in Hi.
  assert (Hend : drop (index + offset + length current) data = rest).
  { replace (index + offset + length current)%nat with (offset + index + length current)%nat by lia. rewrite <- drop_drop, Hrest. by rewrite drop_app_length. }
  assert (Hlen : (offset + index + length current ≤ length data)%nat).
  { apply (f_equal length) in Hrest. rewrite length_drop, length_app in Hrest. lia. }
  replace (index + offset - offset)%nat with index by lia. replace (S (index + offset) - offset)%nat with (S index) by lia.
  destruct (before_ok data (index + offset) && after_ok data (index + offset + length current)) eqn:Eb.
  - apply andb_true_iff in Eb as [Hb Ha]. rewrite after_ok_drop, Hend in Ha. destruct (IH (index + offset + length current)%nat) as (out & -> & Hr); [lia..|].
    cbn [mbind option_bind]. eexists. split; [done|]. apply renames_skip; [lia|done|]. replace (offset + index)%nat with (index + offset)%nat by lia.
    unfold prev_of at 1. rewrite Hb. cbn [negb]. replace (index + offset)%nat with (offset + index)%nat by lia. rewrite Hrest. apply renames_here; [done|].
    rewrite <- Hend at 1. rewrite <- (prev_of_current data (index + offset) rest) at 1; [done|]. by rewrite Nat.add_comm.
  - destruct (IH (S (index + offset))) as (out & -> & Hr); [lia..|]. cbn [mbind option_bind]. eexists. split; [done|].
    destruct (drop (offset + index) data) as [|c text] eqn:Ec.
    { destruct current; [cbn in Hpos; lia|discriminate Hrest]. }
    assert (Htake : take (S index) (drop offset data) = take index (drop offset data) ++ [c]).
    { apply take_S_r. rewrite lookup_drop. rewrite <- (Nat.add_0_r (offset + index)), <- lookup_drop, Ec. done. }
    rewrite Htake, <- app_assoc. apply renames_skip; [lia|done|]. cbn [app]. rewrite Ec. apply renames_copy.
    + apply andb_false_iff in Eb as [Hb|Ha]; [left|right; right].
      * unfold prev_of. replace (offset + index)%nat with (index + offset)%nat by lia. by rewrite Hb.
      * rewrite Hrest, drop_app_length. by rewrite after_ok_drop, Hend in Ha.
    + rewrite <- (prev_of_succ data (offset + index) c text Ec). replace (drop (S (index + offset)) data) with text in Hr.
      * by replace (S (offset + index)) with (S (index + offset)) by lia.
      * replace (S (index + offset)) with (offset + index + 1)%nat by lia. by rewrite <- drop_drop, Ec.
Qed.

(** Of a run of module characters, what follows in the text says the same as the run. *)
Lemma run_prefix run others : run_class true run → alternating false others →
  current `prefix_of` run ++ List.concat others → current `prefix_of` run.
Proof.
  intros [_ Hr] Ho [rest Hp]. destruct Hcurrent as [_ Hm].
  destruct (app_eq_inv _ _ _ _ Hp) as [(k & Hk & _)|(k & Hcur & Hk)]; [by exists k|].
  destruct k as [|c k]; [rewrite app_nil_r in Hcur; exists []; by rewrite Hcur, app_nil_r|]. exfalso. destruct others as [|[|d other] others].
  - discriminate Hk.
  - by destruct Ho as [[? _] _].
  - cbn in Hk. injection Hk as <- _. destruct Ho as [[_ Hd] _]. apply Forall_cons in Hd as [Hd _].
    rewrite Hcur, forallb_app in Hm. cbn [forallb] in Hm. rewrite Hd in Hm. by rewrite andb_false_r in Hm.
Qed.
Lemma names_module_text run others : run_class true run → alternating false others →
  names_module current run = true ↔
  current `prefix_of` run ++ List.concat others ∧ after_ok (drop (length current) (run ++ List.concat others)) 0 = true.
Proof.
  intros Hr Ho. unfold names_module. rewrite orb_true_iff, bool_decide_eq_true, has_prefix_prefix. split.
  - intros [->|[k ->]].
    + split; [by apply prefix_app_r|]. rewrite drop_app_length. destruct others as [|[|d other] others]; [done|by destruct Ho as [[? _] _]|].
      cbn. destruct Ho as [[_ Hd] _]. apply Forall_cons in Hd as [-> _]. by rewrite orb_true_r.
    + split; [rewrite <- !app_assoc; by apply prefix_app_r|]. rewrite <- !app_assoc, drop_app_length. done.
  - intros [Hp Ha]. apply run_prefix in Hp as [k ->]; [|done..]. rewrite <- app_assoc, drop_app_length in Ha.
    destruct k as [|c k]; [left; by rewrite app_nil_r|right]. cbn in Ha. destruct Hr as [_ Hr]. apply Forall_app in Hr as [_ Hr].
    apply Forall_cons in Hr as [Hc _]. rewrite Hc in Ha. cbn [negb] in Ha. rewrite orb_false_r in Ha. apply beq_eq in Ha as ->.
    exists k. by rewrite <- app_assoc.
Qed.
Lemma rename_other run : run_class false run → rename_run current target run = run.
Proof. intros H. unfold rename_run. by rewrite names_other by done. Qed.

(** What is expected of the text in runs, whose first is the end of a longer one if [prev] *)
Definition renamed (prev : bool) (rs : list (list ascii)) : list ascii :=
  match rs with
  | [] => []
  | run :: others => (if prev then run else rename_run current target run) ++ List.concat (rename_run current target <$> others)
  end.
Lemma renamed_prev b rs : alternating b rs → b = false ∨ rs = [] → renamed true rs = List.concat (rename_run current target <$> rs).
Proof. destruct rs as [|run rs]; [done|]. intros [Hr _] [->|?]; [|done]. cbn. by rewrite rename_other. Qed.
Lemma renames_renamed prev l out : renames prev l out → ∀ b rs, alternating b rs → l = List.concat rs → out = renamed prev rs.
Proof.
  induction 1 as [prev|rest out Ha Hr IH|prev c rest out Hc Hr IH]; intros b rs Hrs E.
  - destruct rs as [|[|c run] rs]; [done|by destruct Hrs as [[? _] _]|discriminate E].
  - destruct rs as [|run rs]; [destruct Hcurrent as [? _]; destruct current; [done|discriminate E]|].
    destruct Hrs as [Hrun Hrs]. cbn [List.concat] in E. assert (b = true) as -> by (by eapply module_text_class).
    assert (Hn : names_module current run = true).
    { apply (names_module_text run rs); [done..|]. rewrite <- E. split; [by apply prefix_app_r|]. by rewrite drop_app_length. }
    destruct (run_prefix run rs Hrun Hrs) as [tail ->]; [rewrite <- E; by apply prefix_app_r|].
    rewrite <- app_assoc in E. apply app_inv_head in E. cbn [renamed]. unfold rename_run at 1. rewrite Hn, drop_app_length, <- app_assoc. f_equal.
    destruct tail as [|d tail].
    + cbn [app] in *. rewrite (IH false rs Hrs E). apply (renamed_prev false); [done|by left].
    + destruct Hrun as [_ Hcl]. apply Forall_app in Hcl as [_ Hcl]. by rewrite (IH true ((d :: tail) :: rs)).
  - destruct rs as [|[|d run] rs]; [discriminate E|by destruct Hrs as [[? _] _]|]. destruct Hrs as [Hrun Hrs]. cbn [List.concat app] in E. injection E as <- E.
    assert (Hsame : (if prev then c :: run else rename_run current target (c :: run)) = c :: run).
    { destruct prev; [done|]. unfold rename_run. destruct (names_module current (c :: run)) eqn:En; [|done]. exfalso. destruct b.
      - apply (names_module_text _ rs) in En as [Hp Ha]; [|done..]. rewrite E in Hc. cbn [app] in *. destruct Hc as [?|[Hn|Hn]]; [done|done|congruence].
      - by rewrite names_other in En by done. }
    cbn [renamed]. rewrite Hsame. cbn [app]. f_equal. destruct Hrun as [_ Hcl]. apply Forall_cons in Hcl as [Hcb Hcl]. rewrite Hcb in IH.
    destruct run as [|d run].
    + cbn [app] in *. rewrite (IH (negb b) rs Hrs E). destruct b; [by apply (renamed_prev false); [|left]|]. by destruct rs.
    + rewrite (IH b ((d :: run) :: rs)); [|by split|done]. cbn [renamed]. destruct b; [done|]. by rewrite rename_other.
Qed.
End Document.

Lemma replaceDocumentModule_eq data current target : module_text current →
  replaceDocumentModule data current target = Some (List.concat (rename_run current target <$> runs data)).
Proof.
  intros Hc. destruct (replace_from_renames current target Hc (S (length data)) data 0) as (out & E & Hr); [lia..|].
  unfold replaceDocumentModule. rewrite E. f_equal. change (prev_of data 0) with false in Hr. cbn [drop] in Hr.
  rewrite (renames_renamed current target Hc false data out Hr (class_of data) (runs data)); [|apply runs_alternating|by rewrite runs_concat].
  by destruct (runs data).
Qed.
Lemma rename_run_class current target b run : module_text target → module_text current → run_class b run → run_class b (rename_run current target run).
Proof.
  intros [Ht Hm] Hc Hr. destruct b; [|by rewrite rename_other]. unfold rename_run. destruct (names_module current run); [|done].
  destruct Hr as [_ Hr]. split; [by destruct target|]. apply Forall_app. split; [|by apply Forall_drop].
  apply Forall_forall. intros c Hin. rewrite forallb_forall in Hm. apply Hm. by apply list_elem_of_In.
Qed.
Lemma alternating_rename current target b rs : module_text target → module_text current → alternating b rs →
  alternating b (rename_run current target <$> rs).
Proof.
  intros Ht Hc. revert b. induction rs as [|run rs IH]; intros b; [done|]. intros [Hr Hrs]. cbn. split; [by apply rename_run_class|by apply IH].
Qed.
Lemma rename_run_back current target run : names_module target run = false →
  rename_run target current (rename_run current target run) = run.
Proof.
  intros Hn. unfold rename_run at 2. destruct (names_module current run) eqn:E; [|unfold rename_run; by rewrite Hn].
  unfold names_module in E. apply orb_true_iff in E. rewrite bool_decide_eq_true, has_prefix_prefix in E.
  assert (∃ tail, run = current ++ tail ∧ (tail = [] ∨ ∃ k, tail = "/"%char :: k)) as (tail & -> & Ht).
  { destruct E as [->|[k ->]]; [exists []; by rewrite app_nil_r; auto|]. exists ("/"%char :: k). rewrite <- app_assoc. eauto. }
  rewrite drop_app_length. unfold rename_run. assert (names_module target (target ++ tail) = true) as ->; [|by rewrite drop_app_length].
  unfold names_module. apply orb_true_iff. rewrite bool_decide_eq_true, has_prefix_prefix.
  destruct Ht as [->|[k ->]]; [left; by rewrite app_nil_r|right]. exists k. by rewrite <- app_assoc.
Qed.

(** In a document exactly the names of the module change: the text is cut into the longest runs of
    characters that can be part of a path, a run that is the module or a package of it gets the
    new path in front, and every other run stays.  Renaming back gives the document, if it did
    not name the new module before. *)
Theorem replaceDocumentModule_runs data current target : module_text current →
  replaceDocumentModule data current target = Some (List.concat (rename_run current target <$> runs data)) ∧
  (module_text target → Forall (λ run, names_module target run = false) (runs data) →
   (replaceDocumentModule data current target ≫= λ out, replaceDocumentModule out target current) = Some data).
Proof.
  intros Hc. rewrite replaceDocumentModule_eq by done. split; [done|]. intros Ht Hn. cbn [mbind option_bind].
  rewrite replaceDocumentModule_eq by done. f_equal.
  rewrite (alternating_runs (class_of data)) by (apply alternating_rename; [done..|apply runs_alternating]).
  transitivity (List.concat (runs data)); [|apply runs_concat]. f_equal. rewrite <- list_fmap_compose.
  rewrite <- (list_fmap_id (runs data)) at 2. apply list_fmap_ext. intros i run Hi. cbn. apply rename_run_back.
  rewrite Forall_forall in Hn. apply Hn. by eapply list_elem_of_lookup_2.
Qed.
Lemma replaceDocumentModule_runs_witness :
  let data := bytes "Use `github.com/old/project` or github.com/old/project/cmd/app. Keep github.com/old/projectish." in
  (replaceDocumentModule data (bytes "github.com/old/project") (bytes "example.com/new") ≫=
     λ out, replaceDocumentModule out (bytes "example.com/new") (bytes "github.com/old/project")) = Some data ∧
  replaceDocumentModule data (bytes "github.com/old/project") (bytes "example.com/new") =
    Some (bytes "Use `example.com/new` or example.com/new/cmd/app. Keep github.com/old/projectish.").
Proof.
  intros data. split; [|vm_compute; reflexivity].
  apply (replaceDocumentModule_runs data (bytes "github.com/old/project") (bytes "example.com/new")).
  - split; [discriminate|vm_compute; reflexivity].
  - split; [discriminate|vm_compute; reflexivity].
  - vm_compute. repeat constructor.
Defined.

(** The directive is looked for as a text: a module named by a part of the keyword is found in it. *)
Lemma keyword_taken_for_module :
  moduleDirective (bytes "module mod") = Ok (bytes "mod", 0%nat, 3%nat) ∧
  replaceBytes (bytes "module mod") 0 3 (bytes "example.com/new") = bytes "example.com/newule mod".
Proof. split; vm_compute; reflexivity. Qed.

(** ** What happens to the project *)

Definition tree_name (t : tree) : string := match t with File name _ => name | Dir name _ _ => name end.
(** The walk that starts at [path] with [t] comes to the file. *)
Inductive visited : string → tree → string → string → file → Prop :=
| visited_file path name f : visited path (File name f) path name f
| visited_entry path name readable entries entry path' name' f :
    negb (seqb path ".") && skippedDirectory path = false → entry ∈ entries →
    visited (join_path path (tree_name entry)) entry path' name' f → visited path (Dir name readable entries) path' name' f.

(** Induction on trees, with the hypothesis for every entry of a directory *)
Lemma tree_entries_ind (P : tree → Prop) :
  (∀ name f, P (File name f)) → (∀ name readable entries, Forall P entries → P (Dir name readable entries)) → ∀ t, P t.
Proof.
  intros Hf Hd. fix IH 1. intros [name f|name readable entries]; [apply Hf|]. apply Hd.
  induction entries as [|entry entries IHe]; constructor; [apply IH|exact IHe].
Qed.

Section Project.
Variable imports : list ascii → res (list import_spec).
Variable moduleData current target : list ascii.
Variables start end_ : nat.
Notation walk_all := (walk imports moduleData current target start end_).
Notation rewritten_to := (rewritten imports moduleData current target start end_).

Lemma walk_dir path name readable entries : walk_all path (Dir name readable entries) =
  (if negb (seqb path ".") && skippedDirectory path then Ok [] else
   readable;; foldr (λ entry others, pending ← walk_all (join_path path (tree_name entry)) entry; rest ← others; Ok (pending ++ rest)) (Ok []) entries).
Proof. cbn [walk]. destruct (_ && _); [done|]. f_equal. Qed.
(** The files to write are those the walk comes to and that change. *)
Lemma walk_Ok t : ∀ path pending, walk_all path t = Ok pending → ∀ path' data mode, (path', data, mode) ∈ pending ↔
  ∃ name f, visited path t path' name f ∧ rewritten_to path' name f = Ok (Some data) ∧ file_mode f = Ok mode.
Proof.
  induction t as [name f|name readable entries IH] using tree_entries_ind; intros path pending H path' data mode.
  - cbn [walk] in H. apply bind_Ok in H as ([updated|] & Hr & H).
    + apply bind_Ok in H as (m & Hm & H). apply wrap_err_Ok in Hm. apply Ok_inj in H as <-. rewrite list_elem_of_singleton. split.
      * intros [= -> -> ->]. exists name, f. split_and!; [constructor|done|done].
      * intros (name' & f' & Hv & Hr' & Hm'). inversion Hv; subst. congruence.
    + apply Ok_inj in H as <-. split; [by intros ?%elem_of_nil|]. intros (name' & f' & Hv & Hr' & _). inversion Hv; subst. congruence.
  - rewrite walk_dir in H. destruct (negb (seqb path ".") && skippedDirectory path) eqn:Es.
    { apply Ok_inj in H as <-. split; [by intros ?%elem_of_nil|]. intros (? & ? & Hv & _). inversion Hv; subst. congruence. }
    apply bind_Ok in H as ([] & _ & H).
    assert (Hl : (path', data, mode) ∈ pending ↔ ∃ entry name' f, entry ∈ entries ∧ visited (join_path path (tree_name entry)) entry path' name' f ∧
      rewritten_to path' name' f = Ok (Some data) ∧ file_mode f = Ok mode).
    { clear Es. revert pending H. induction IH as [|entry entries He _ IHe]; intros pending H; cbn [foldr] in H.
      - apply Ok_inj in H as <-. split; [by intros ?%elem_of_nil|]. by intros (? & ? & ? & ?%elem_of_nil & _).
      - apply bind_Ok in H as (p1 & H1 & H). apply bind_Ok in H as (p2 & H2 & H). apply Ok_inj in H as <-.
        rewrite elem_of_app, (He _ _ H1), (IHe _ H2). setoid_rewrite elem_of_cons. naive_solver. }
    rewrite Hl. split.
    + intros (entry & name' & f & Hin & Hv & Hr). exists name', f. split; [|done]. by eapply visited_entry.
    + intros (name' & f & Hv & Hr). inversion Hv; subst. by exists entry, name', f.
Qed.
End Project.

Definition writes (pending : list pendingFile) (files : gmap string (list ascii)) : gmap string (list ascii) :=
  foldl (λ files p, <[p.1.1 := p.1.2]> files) files pending.
Lemma writeAtomic_outcome p w r w' : writeAtomic p w = (r, w') →
  tables w' = writes [p] (tables w) ∨ (tables w' = tables w ∧ is_ok r = false).
Proof.
  destruct p as [[path data] mode]. unfold writeAtomic.
  assert (Hq : ∀ m (k : db disk unit), (∀ w r w', k w = (r, w') → tables w' = <[path := data]> (tables w) ∨ (tables w' = tables w ∧ is_ok r = false)) →
    ∀ w r w', (wrapped m (query (fun _ : disk => tt));; k) w = (r, w') → tables w' = <[path := data]> (tables w) ∨ (tables w' = tables w ∧ is_ok r = false)).
  { intros m k Hk w0 r0 w0'. unfold mbind, db_bind. destruct (wrapped m _ w0) as [[u|e] w1] eqn:E;
      apply wrapped_inv in E as (r1 & E & _); apply query_same in E as E.
    - intros H. rewrite <- E. by eapply Hk.
    - intros [= <- <-]. by right. }
  revert w r w'. do 4 apply Hq. intros w r w' H. apply wrapped_inv in H as (r1 & H & Hr). apply statement_effect in H.
  destruct r1 as [u|e]; [left; by destruct H as (s & [= <- <-] & ->)|].
  destruct H as [->|(u & s & [= <- <-] & ->)]; [right|by left]. split; [done|]. by destruct r.
Qed.
Lemma write_all_outcome pending w r w' : write_all pending w = (r, w') →
  ∃ written, written `prefix_of` pending ∧ tables w' = writes written (tables w) ∧ (r = Ok tt → written = pending).
Proof.
  revert w r. induction pending as [|p pending IH]; intros w r H; cbn [write_all] in H.
  - injection H as <- <-. exists []. split_and!; [done..|]. done.
  - unfold mbind, db_bind in H. destruct (writeAtomic p w) as [[u|e] w1] eqn:E; apply writeAtomic_outcome in E as [E|[E Hr]]; try done.
    + apply IH in H as (written & Hp & -> & Hd). exists (p :: written). split_and!; [by apply prefix_cons|by rewrite E|]. intros ->. by rewrite Hd.
    + injection H as <- <-. exists [p]. split_and!; [by apply prefix_cons, prefix_nil|done|done].
    + injection H as <- <-. exists []. split_and!; [apply prefix_nil|done|done].
Qed.
Lemma writes_lookup pending files path c : writes pending files !! path = Some c →
  files !! path = Some c ∨ ∃ mode, (path, c, mode) ∈ pending.
Proof.
  revert files. induction pending as [|[[q d] m] pending IH]; intros files H; [by left|]. apply IH in H as [H|[mode H]].
  - cbn in H. apply lookup_insert_Some in H as [[-> ->]|[_ H]]; [right; exists m; left|by left].
  - right. exists mode. by right.
Qed.
Lemma writes_written pending files path c mode : (path, c, mode) ∈ pending → (∀ c' mode', (path, c', mode') ∈ pending → c' = c) →
  writes pending files !! path = Some c.
Proof.
  revert files. induction pending as [|[[q d] m] pending IH] using rev_ind; intros files Hin Hu; [by apply elem_of_nil in Hin|].
  unfold writes. rewrite foldl_app. cbn. destruct (decide (q = path)) as [->|Hne].
  - rewrite lookup_insert_eq. f_equal. apply (Hu d m). apply elem_of_app. right. left.
  - rewrite lookup_insert_ne by done. apply IH.
    + apply elem_of_app in Hin as [?|Hin]; [done|]. apply list_elem_of_singleton in Hin. congruence.
    + intros c' mode' H. apply (Hu c' mode'). apply elem_of_app. by left.
Qed.

(** What the walk over the project makes of the file at [path] *)
Definition becomes (imports : list ascii → res (list import_spec)) (moduleData current target : list ascii) (start end_ : nat) (project : tree)
    (path : string) (content : list ascii) : Prop :=
  ∃ name f mode, visited "." project path name f ∧ rewritten imports moduleData current target start end_ path name f = Ok (Some content) ∧
    file_mode f = Ok mode.
(** A path leads to one file. *)
Definition single (project : tree) : Prop :=
  ∀ path name f name' f', visited "." project path name f → visited "." project path name' f' → name = name' ∧ f = f'.

(** Renaming a project is prepared as a whole before anything is written: a path that is not
    valid, a missing or malformed go.mod and a file that cannot be read or parsed leave every
    file alone.  From then on a file is the old one or its wholly rewritten text, whatever
    fails; and a renaming that succeeds has rewritten exactly the files it reports. *)
Theorem renameModule_exact imports module project target w r w' :
  renameModule imports module project target w = (r, w') →
  (tables w' = tables w ∧ ∀ changed, r = Ok changed → changed = [] ∧ ∃ data start end_, module = Ok data ∧ moduleDirective data = Ok (bytes target, start, end_)) ∨
  ∃ data current start end_ pending, validateModulePath target = Ok tt ∧ module = Ok data ∧ moduleDirective data = Ok (current, start, end_) ∧
    walk imports data current (bytes target) start end_ "." project = Ok pending ∧
    let becomes := becomes imports data current (bytes target) start end_ project in
    (∀ path c, tables w' !! path = Some c → tables w !! path = Some c ∨ becomes path c) ∧
    (∀ changed, r = Ok changed → (∀ path, path ∈ changed ↔ ∃ c, becomes path c) ∧
       (single project → ∀ path c, becomes path c → tables w' !! path = Some c)).
Proof.
  intros H. unfold renameModule in H. unfold mbind at 1, db_bind at 1 in H. cbn [lift] in H.
  destruct (validateModulePath target) as [[]|e] eqn:Ev; [|injection H as <- <-; by left].
  unfold mbind at 1, db_bind at 1 in H. cbn [lift] in H. destruct module as [data|e]; cbn [wrap_err] in H; [|injection H as <- <-; by left].
  unfold mbind at 1, db_bind at 1 in H. cbn [lift] in H.
  destruct (moduleDirective data) as [[[current start] end_]|e] eqn:Ed; [|injection H as <- <-; by left].
  case_bool_decide as Ec; [injection H as <- <-; left; split; [done|]; intros changed [= <-]; subst; by eauto 6|].
  unfold mbind at 1, db_bind at 1 in H. cbn [lift] in H.
  destruct (walk _ _ _ _ _ _ _ project) as [pending|e] eqn:Ew; cbn [wrap_err] in H; [|injection H as <- <-; by left].
  pose proof (walk_Ok _ _ _ _ _ _ _ _ _ Ew) as Hw. right. exists data, current, start, end_, pending. split_and!; [done..|]. cbn zeta.
  unfold mbind at 1, db_bind at 1 in H. destruct (write_all pending w) as [r1 w1] eqn:Ea.
  apply write_all_outcome in Ea as (written & Hp & Ht & Hd). assert (w' = w1) as -> by (destruct r1; by injection H as <- <-). split.
  - intros path c Hc. rewrite Ht in Hc. apply writes_lookup in Hc as [?|[mode Hin]]; [by left|right].
    assert ((path, c, mode) ∈ pending) as (name & f & Hv)%Hw by (destruct Hp as [k ->]; apply elem_of_app; by left). by exists name, f, mode.
  - intros changed ->. destruct r1 as [[]|e]; [|done]. injection H as <-. rewrite (Hd eq_refl) in Ht. split.
    + intros path. rewrite SortStableFunc_perm, list_elem_of_fmap. split.
      * intros ([[path' c] mode] & -> & Hin). apply Hw in Hin as (name & f & Hv). by exists c, name, f, mode.
      * intros (c & name & f & mode & Hv). exists (path, c, mode). split; [done|]. apply Hw. by exists name, f.
    + intros Hs path c (name & f & mode & Hv & Hr & Hm). rewrite Ht. apply (writes_written _ _ _ _ mode).
      * apply Hw. by exists name, f.
      * intros c' mode' (name' & f' & Hv' & Hr' & _)%Hw. destruct (Hs _ _ _ _ _ Hv Hv') as [-> ->]. congruence.
Qed.

(** ** An example *)

Definition plain_file (data : list ascii) : file := {| file_data := Ok data; file_mode := Ok 420%Z |}.
Definition example_mod : list ascii := bytes "module github.com/old/project" ++ [newline].
Definition example_main : list ascii := bytes "package main; import " ++ Quote (bytes "github.com/old/project/app").
Definition example_readme : list ascii := bytes "Use github.com/old/project or github.com/old/projectish".
Definition example_imports (data : list ascii) : res (list import_spec) :=
  Ok [{| spec_start := 21; spec_end := length data; spec_value := Ok (bytes "github.com/old/project/app") |}].
Definition example_project : tree :=
  Dir "." (Ok tt) [File "README.md" (plain_file example_readme); Dir "bin" (Ok tt) [File "old.md" (plain_file example_readme)];
                   File "go.mod" (plain_file example_mod); File "main.go" (plain_file example_main)].
Definition example_disk : gmap string (list ascii) :=
  {["README.md"%string := example_readme; "bin/old.md"%string := example_readme; "go.mod"%string := example_mod; "main.go"%string := example_main]}.
Definition renaming : res (list string) * world (gmap string (list ascii)) :=
  renameModule example_imports (Ok example_mod) example_project "example.com/new" (World example_disk []).
Lemma renaming_result : fst renaming = Ok ["README.md"; "go.mod"; "main.go"]%string ∧
  tables (snd renaming) !! "main.go"%string = Some (bytes "package main; import " ++ Quote (bytes "example.com/new/app")) ∧
  tables (snd renaming) !! "go.mod"%string = Some (bytes "module example.com/new" ++ [newline]) ∧
  tables (snd renaming) !! "bin/old.md"%string = Some example_readme.
Proof. split_and!; vm_compute; reflexivity. Qed.
Lemma renameModule_exact_witness :
  tables (snd renaming) = example_disk ∨
  ∃ data current start end_, (Ok example_mod : res (list ascii)) = Ok data ∧ moduleDirective data = Ok (current, start, end_) ∧
    ∃ c, becomes example_imports data current (bytes "example.com/new") start end_ example_project "main.go" c.
Proof.
  destruct renaming as [r w'] eqn:E. pose proof (proj1 renaming_result) as Hr. rewrite E in Hr. cbn [fst] in Hr.
  destruct (renameModule_exact example_imports (Ok example_mod) example_project "example.com/new" (World example_disk []) r w' E)
    as [[H _]|(data & current & start & end_ & pending & _ & Hm & Hd & _ & _ & H)]; [left; exact H|right].
  exists data, current, start, end_. split; [exact Hm|split; [exact Hd|]].
  destruct (H _ Hr) as [Hc _]. apply Hc. right. right. left.
Defined.
