(* ===== verification/LoanPDF.v ===== *)
(** The printed version of a loan inquiry, [internal/features/loaninquiry/pdf.go].

    The library fpdf is code outside the repository.  A drawing is the list of the calls
    made so far, the newest first, and what the code asks the library about ([GetY], the
    height of the page, the width of a text in the current font) and its document are
    functions of that list ([Library]).  [FpdfLaws] states what the documentation says
    of the vertical position; the page is A4.  Arguments that are the same in every call (link 0, link text
    empty, the font family, the options of the logo) are left out. *)
From stdpp Require Import base list strings.
From Stdlib Require Import ZArith Lia Ascii.
From S2P Require Import Prelude GoStrings GoErrors GoFloat GoTime Dates LoanModel Position LoanInquiry.
Local Open Scope Z_scope.

(** ** Calls of the library *)

Inductive call :=
| New (orientation unit size : string)
| SetMargins (left top right : float64)
| SetAutoPageBreak (auto : bool) (margin : float64)
| SetCompression (compress : bool)
| SetTitle (title : string) | SetAuthor (author : string) | SetCreator (creator : string)
| RegisterImage (name : string) (content : list ascii)
| SetFooterFunc (footer : Z → list call)   (* given the number of the page *)
| AddPage
| Image (name : string) (x y w h : float64)
| SetX (x : float64) | SetY (y : float64) | SetXY (x y : float64)
| SetFont (style : string) (size : float64)
| SetTextColor (r g b : Z) | SetDrawColor (r g b : Z) | SetFillColor (r g b : Z)
| CellFormat (w h : float64) (text border : string) (ln : Z) (align : string) (fill : bool)
| Ln (h : float64)
| Line (x1 y1 x2 y2 : float64).

(** The calls made so far, the newest first *)
Abbreviation drawing := (list call).

Record Library := {
  GetY : drawing → float64;
  PageHeight : drawing → float64;   (* of [GetPageSize] *)
  GetStringWidth : drawing → string → float64;
  Output : drawing → res (list ascii)
}.

(** Calls in a row *)
Definition calls (new : list call) (t : drawing) : drawing := rev_append new t.

Definition pdfLeftMargin : float64 := tenths 120.
Definition pdfRightMargin : float64 := tenths 120.
Definition pdfBottomMargin : float64 := tenths 140.
Definition pdfTableRow : float64 := tenths 62.

Record pdfDetail := { label : string; detail_value : string }.
Record pdfColumn := { column_title : string; column_width : float64; column_align : string }.
Definition scheduleColumns : list pdfColumn :=
  [{| column_title := "NO."; column_width := tenths 90; column_align := "C" |};
   {| column_title := "DATE"; column_width := tenths 230; column_align := "L" |};
   {| column_title := "INSTALLMENT"; column_width := tenths 340; column_align := "R" |};
   {| column_title := "PRINCIPAL"; column_width := tenths 310; column_align := "R" |};
   {| column_title := "INTEREST"; column_width := tenths 290; column_align := "R" |};
   {| column_title := "OUTSTANDING"; column_width := tenths 350; column_align := "R" |};
   {| column_title := "STATUS"; column_width := tenths 250; column_align := "C" |}].

(** "02 Jan 2006 15:04 MST" *)
Definition print_time (abbreviation : time → string) (t : time) (loc : Location) : string :=
  let '(y, m, d) := time_civil t loc in
  let clock := time_clock t loc in
  (day_month_year y m d +:+ " " +:+
   of_bytes (pad_left "0" 2 (itoa (clock / 3600)) ++ ":"%char :: pad_left "0" 2 (itoa (clock / 60 mod 60))) +:+
   " " +:+ abbreviation t)%string.

Section Layout.
Variable lib : Library.

(** The loop of [writeFittedCell] after its first [SetFont].  It runs while the text is
    too wide and the size above 5.2; for the sizes used, [fit_fuel] rounds are enough
    ([shrink_enough]). *)
Fixpoint shrink (fuel : nat) (width : float64) (value style : string) (size : float64) (t : drawing) : drawing :=
  match fuel with
  | O => t
  | S fuel =>
      if float_lt (tenths 52) size && float_lt (float_sub width (tenths 15)) (GetStringWidth lib t value)
      then shrink fuel width value style (float_sub size (tenths 2)) (SetFont style size :: t)
      else t
  end.
Definition fit_fuel : nat := 12.
Definition writeFittedCell (width height : float64) (value style : string) (size : float64) (align border : string)
    (fill : bool) (t : drawing) : drawing :=
  CellFormat width height value border 0 align fill :: shrink fit_fuel width value style size (SetFont style size :: t).

Definition writePDFBrandHeader (view : ResultView) (printed : string) (t : drawing) : drawing :=
  calls
    [Image "bank-dp-taspen-logo" pdfLeftMargin (tenths 120) (tenths 480) (tenths 0);
     SetXY (tenths 660) (tenths 120);
     SetTextColor 30 58 138;
     SetFont "B" (tenths 120);
     CellFormat (tenths 1320) (tenths 60) "BANK DP TASPEN" "" 1 "R" false;
     SetX (tenths 660);
     SetTextColor 15 23 42;
     SetFont "B" (tenths 100);
     CellFormat (tenths 1320) (tenths 60) "JADWAL PEMBAYARAN KONTRAKTUAL" "" 1 "R" false;
     SetDrawColor 203 213 225;
     Line pdfLeftMargin (tenths 310) (tenths 1980) (tenths 310);
     SetXY pdfLeftMargin (tenths 350);
     SetTextColor 71 85 105;
     SetFont "B" (tenths 75);
     CellFormat (tenths 300) (tenths 50) "TANGGAL CETAK" "" 0 "L" false;
     SetFont "" (tenths 80);
     CellFormat (tenths 620) (tenths 50) printed "" 0 "L" false;
     SetFont "B" (tenths 75);
     CellFormat (tenths 300) (tenths 50) "REPORTING DATE" "" 0 "L" false;
     SetFont "" (tenths 80);
     CellFormat (tenths 640) (tenths 50) (formatPDFReportingDate view) "" 1 "L" false;
     Ln (tenths 30)] t.

Definition writePDFContinuationHeader (view : ResultView) (t : drawing) : drawing :=
  calls
    [Image "bank-dp-taspen-logo" pdfLeftMargin (tenths 100) (tenths 320) (tenths 0);
     SetXY (tenths 500) (tenths 100);
     SetFont "B" (tenths 80);
     SetTextColor 30 58 138;
     CellFormat (tenths 1480) (tenths 50) "BANK DP TASPEN  |  JADWAL PEMBAYARAN KONTRAKTUAL" "" 1 "R" false;
     SetX (tenths 500);
     SetFont "" (tenths 70);
     SetTextColor 100 116 139;
     CellFormat (tenths 1480) (tenths 40) (view_PrimaryAccount view +:+ "  |  " +:+ PeriodLabel view)%string "" 1 "R" false;
     SetDrawColor 203 213 225;
     Line pdfLeftMargin (tenths 220) (tenths 1980) (tenths 220);
     SetY (tenths 250)] t.

(** The loop of [writePDFDetailColumn] from [index] on *)
Fixpoint detail_rows (x y : float64) (index : Z) (details : list pdfDetail) (t : drawing) : drawing :=
  match details with
  | [] => t
  | detail :: rest =>
      let rowY := float_add y (float_mul (nearest false index 1) (tenths 50)) in
      let t := SetXY x rowY :: t in
      let t := writeFittedCell (tenths 380) (tenths 50) (label detail) "B" (tenths 64) "L" "" false t in
      let t := writeFittedCell (tenths 530) (tenths 50) (detail_value detail) "" (tenths 73) "L" "" false t in
      detail_rows x y (index + 1) rest t
  end.
Definition writePDFDetailColumn (x y : float64) (details : list pdfDetail) (t : drawing) : drawing := detail_rows x y 0 details t.

Definition left_details (view : ResultView) : list pdfDetail :=
  [{| label := "NAMA NASABAH"; detail_value := CustomerName view |};
   {| label := "REKENING"; detail_value := view_PrimaryAccount view |};
   {| label := "ALT REKENING"; detail_value := view_AlternateAccount view |};
   {| label := "KANTOR CABANG"; detail_value := view_Branch view |};
   {| label := "PRODUK"; detail_value := view_Product view |};
   {| label := "PERIODE PINJAMAN"; detail_value := LoanPeriod view |};
   {| label := "ANGSURAN"; detail_value := InstallmentSummary view |};
   {| label := "DENDA PELUNASAN DIPERCEPAT"; detail_value := EarlyTerminationEstimate view |}].
Definition right_details (view : ResultView) : list pdfDetail :=
  [{| label := "PLAFON AKAD"; detail_value := ContractPrincipal view |};
   {| label := "SB EFEKTIF"; detail_value := ReferenceRate view |};
   {| label := "SB KONTRAK"; detail_value := FlatRate view |};
   {| label := "KOLEK"; detail_value := Collectability view |};
   {| label := "BAKI DEBET"; detail_value := view_PrincipalOutstanding view |};
   {| label := "TUNGGAKAN POKOK"; detail_value := view_PrincipalDue view |};
   {| label := "TUNGGAKAN BUNGA"; detail_value := view_InterestDue view |};
   {| label := "TUNGGAKAN PINALTI"; detail_value := view_PenaltyDue view |}].
Definition writePDFLoanInformation (view : ResultView) (t : drawing) : drawing :=
  let t := calls
    [SetFillColor 241 245 249;
     SetTextColor 30 41 59;
     SetFont "B" (tenths 90);
     CellFormat (tenths 1860) (tenths 70) "INFORMASI PINJAMAN" "" 1 "L" true;
     Ln (tenths 20)] t in
  let y := GetY lib t in
  let left := left_details view in
  let t := writePDFDetailColumn pdfLeftMargin y left t in
  let t := writePDFDetailColumn (tenths 1070) y (right_details view) t in
  calls
    [SetY (float_add (float_add y (float_mul (nearest false (Z.of_nat (length left)) 1) (tenths 50))) (tenths 40));
     SetFont "I" (tenths 65);
     SetTextColor 100 116 139] t.

Definition writePDFScheduleTitle (continuation : bool) (t : drawing) : drawing :=
  let title := if continuation then "JADWAL PEMBAYARAN (LANJUTAN)"%string else "JADWAL PEMBAYARAN"%string in
  calls
    [Ln (tenths 30);
     SetTextColor 30 58 138;
     SetFont "B" (tenths 70);
     CellFormat (tenths 1860) (tenths 40) "REPAYMENT PLAN" "" 1 "L" false;
     SetTextColor 15 23 42;
     SetFont "B" (tenths 100);
     CellFormat (tenths 1860) (tenths 60) title "" 1 "L" false;
     Ln (tenths 10)] t.

Fixpoint header_cells (columns : list pdfColumn) (t : drawing) : drawing :=
  match columns with
  | [] => t
  | column :: rest =>
      header_cells rest
        (writeFittedCell (column_width column) (tenths 70) (column_title column) "B" (tenths 68) (column_align column) "1" true t)
  end.
Definition writePDFScheduleHeader (t : drawing) : drawing :=
  let t := calls [SetFillColor 30 58 138; SetDrawColor 203 213 225; SetTextColor 255 255 255] t in
  Ln (tenths (-10)) :: header_cells scheduleColumns t.

(** The loop over the columns of a row; [values] are those of the columns from [index] on. *)
Fixpoint row_cells (index : Z) (columns : list pdfColumn) (values : list string) (t : drawing) : drawing :=
  match columns, values with
  | column :: columns, value :: values =>
      let style := if (index =? 0) || (index =? 2) || (index =? 5) then "B"%string else EmptyString in
      row_cells (index + 1) columns values
        (writeFittedCell (column_width column) pdfTableRow value style (tenths 70) (column_align column) "1" true t)
  | _, _ => t
  end.
Definition writePDFScheduleRow (row : ScheduleRowView) (alternate : bool) (t : drawing) : drawing :=
  let t := calls
    [SetDrawColor 226 232 240;
     SetTextColor 30 41 59;
     if alternate then SetFillColor 248 250 252 else SetFillColor 255 255 255] t in
  Ln (tenths (-10)) :: row_cells 0 scheduleColumns (pdf_cells row) t.

Definition next_page (view : ResultView) (t : drawing) : drawing :=
  writePDFScheduleHeader (writePDFScheduleTitle true (writePDFContinuationHeader view (AddPage :: t))).
Definition page_full (t : drawing) : bool :=
  float_lt (float_sub (PageHeight lib t) pdfBottomMargin) (float_add (GetY lib t) pdfTableRow).
(** The loop over the rows, from [index] on *)
Fixpoint schedule_rows (view : ResultView) (index : Z) (rows : list ScheduleRowView) (t : drawing) : drawing :=
  match rows with
  | [] => t
  | row :: rest =>
      let t := if page_full t then next_page view t else t in
      schedule_rows view (index + 1) rest (writePDFScheduleRow row (index mod 2 =? 1) t)
  end.

(** [bankLogo] is the embedded picture, [printed] the time of printing as text. *)
Definition footer (page : Z) : list call :=
  [SetY (tenths (-90));
   SetFont "" (tenths 70);
   SetTextColor 100 116 139;
   CellFormat (tenths 1860) (tenths 40) ("BANK DP TASPEN  |  Page " +:+ Itoa page)%string "" 0 "R" false].
Definition drawn (bankLogo : list ascii) (view : ResultView) (printed : string) : drawing :=
  let t := calls
    [New "P" "mm" "A4";
     SetMargins pdfLeftMargin (tenths 120) pdfRightMargin;
     SetAutoPageBreak false pdfBottomMargin;
     SetCompression false;
     SetTitle "Jadwal Pembayaran Kontraktual";
     SetAuthor "BANK DP TASPEN";
     SetCreator "new-trs";
     RegisterImage "bank-dp-taspen-logo" bankLogo;
     SetFooterFunc footer;
     AddPage] [] in
  let t := writePDFBrandHeader view printed t in
  let t := writePDFLoanInformation view t in
  let t := writePDFScheduleTitle false t in
  let t := writePDFScheduleHeader t in
  schedule_rows view 0 (ScheduleRows view) t.
Definition generateLoanPDF (bankLogo : list ascii) (view : ResultView) (printed : string) : res (list ascii) :=
  wrap_err "render PDF: %w" (Output lib (drawn bankLogo view printed)).
End Layout.

(** ** What the documentation of the library says *)

(** The vertical position after a call, where it is documented, given the one before
    and the height of the last cell; [None] is unknown.  It holds without automatic page breaks. *)
Definition vertical (c : call) (y : option float64) (last : float64) : option float64 :=
  match c with
  | SetY v | SetXY _ v => if float_lt v float_zero then None else Some v
  | CellFormat _ h _ _ ln _ _ => if ln =? 0 then y else flip float_add h <$> y
  | Ln h => if float_lt h float_zero then flip float_add last <$> y else flip float_add h <$> y
  | New _ _ _ | SetMargins _ _ _ | AddPage => None
  | _ => y
  end.
Fixpoint last_height (t : drawing) : float64 :=
  match t with
  | [] => float_zero
  | CellFormat _ h _ _ _ _ _ :: _ => h
  | _ :: t => last_height t
  end.
Fixpoint breaks (t : drawing) : bool :=
  match t with
  | [] => true
  | SetAutoPageBreak auto _ :: _ => auto
  | _ :: t => breaks t
  end.
(** A4 is 841.89 points high, and a millimetre has 72/25.4 of them. *)
Definition A4_height : float64 :=
  match nearest false 84189 100, nearest false 720 254 with
  | Finite _ m e, Finite _ m' e' => let low := Z.min e e' in nearest false (m * 2 ^ (e - low)) (m' * 2 ^ (e' - low))
  | _, _ => NaN
  end.
Record FpdfLaws (lib : Library) : Prop := {
  law_GetY : ∀ c t y, breaks t = false → vertical c (Some (GetY lib t)) (last_height t) = Some y → GetY lib (c :: t) = y;
  law_PageHeight : ∀ t, PageHeight lib t = A4_height
}.

(** ** What a reader of the document sees *)

(** The texts of every page without the footer, the newest first *)
Fixpoint texts (t : drawing) : list (list string) :=
  match t with
  | [] => []
  | AddPage :: t => [] :: texts t
  | CellFormat _ _ text _ _ _ _ :: t => match texts t with [] => [[text]] | page :: pages => (text :: page) :: pages end
  | _ :: t => texts t
  end.
(** In reading order *)
Definition pages (t : drawing) : list (list string) := rev (map (@rev string) (texts t)).

(** The size of the current font *)
Fixpoint font_size (t : drawing) : float64 :=
  match t with
  | [] => float_zero
  | SetFont _ size :: _ => size
  | _ :: t => font_size t
  end.
(** A cell of the table ends above the bottom margin; its text fits, or is in a font of
    at most 5.4 points, and that font is larger than 5.2 points. *)
Definition cell_fits (lib : Library) (t : drawing) (c : call) : Prop :=
  match c with
  | CellFormat w h text border _ _ _ =>
      border = "1"%string →
      float_lt (float_sub (PageHeight lib t) pdfBottomMargin) (float_add (GetY lib t) h) = false ∧
      (float_lt (float_sub w (tenths 15)) (GetStringWidth lib t text) = false ∨ float_lt (tenths 54) (font_size t) = false) ∧
      float_lt (tenths 52) (font_size t) = true
  | _ => True
  end.
Fixpoint cells_fit (lib : Library) (t : drawing) : Prop :=
  match t with
  | [] => True
  | c :: t => cell_fits lib t c ∧ cells_fit lib t
  end.

(** The texts above the table of the first page and of a later one, and the titles *)
Definition details_text (details : list pdfDetail) : list string := concat (map (fun d => [label d; detail_value d]) details).
Definition front (view : ResultView) (printed : string) : list string :=
  ["BANK DP TASPEN"; "JADWAL PEMBAYARAN KONTRAKTUAL"; "TANGGAL CETAK"; printed; "REPORTING DATE"; formatPDFReportingDate view;
   "INFORMASI PINJAMAN"]%string ++ details_text (left_details view) ++ details_text (right_details view) ++
  ["REPAYMENT PLAN"; "JADWAL PEMBAYARAN"]%string.
Definition continued (view : ResultView) : list string :=
  ["BANK DP TASPEN  |  JADWAL PEMBAYARAN KONTRAKTUAL"; view_PrimaryAccount view +:+ "  |  " +:+ PeriodLabel view;
   "REPAYMENT PLAN"; "JADWAL PEMBAYARAN (LANJUTAN)"]%string.
Definition table (rows : list ScheduleRowView) : list string := map column_title scheduleColumns ++ concat (map pdf_cells rows).
(** [rows] in groups of [size] *)
Fixpoint groups (fuel size : nat) (rows : list ScheduleRowView) : list (list ScheduleRowView) :=
  match fuel, rows with
  | S fuel, _ :: _ => take size rows :: groups fuel size (drop size rows)
  | _, _ => []
  end.
Definition first_rows : nat := 26.
Definition later_rows : nat := 38.
Definition printed_pages (view : ResultView) (printed : string) : list (list string) :=
  let rows := ScheduleRows view in
  let rest := drop first_rows rows in
  (front view printed ++ table (take first_rows rows)) ::
  map (fun rows => continued view ++ table rows) (groups (length rest) later_rows rest).

(** ** The loop that fits a text *)

(** Numbers are computed by [vm_compute] only. *)
#[local] Opaque tenths nearest float_add float_sub float_mul float_lt.

(** The sizes from [size] on run out within [fuel] rounds, none is left above 5.4. *)
Fixpoint sizes_end (fuel : nat) (size last : float64) : bool :=
  match fuel with
  | O => false
  | S fuel =>
      float_lt (tenths 52) last &&
      (if float_lt (tenths 52) size then sizes_end fuel (float_sub size (tenths 2)) size else negb (float_lt (tenths 54) last))
  end.
Definition used_sizes : list float64 := [tenths 64; tenths 68; tenths 70; tenths 73].
Lemma used_sizes_end size : size ∈ used_sizes → sizes_end fit_fuel size size = true.
Proof.
  intros H. assert (forallb (fun size => sizes_end fit_fuel size size) used_sizes = true) as Hall by (vm_compute; reflexivity).
  rewrite forallb_forall in Hall. apply Hall. by apply list_elem_of_In.
Qed.

Lemma used_64 : tenths 64 ∈ used_sizes.
Proof. left. Qed.
Lemma used_68 : tenths 68 ∈ used_sizes.
Proof. right. left. Qed.
Lemma used_70 : tenths 70 ∈ used_sizes.
Proof. right. right. left. Qed.
Lemma used_73 : tenths 73 ∈ used_sizes.
Proof. right. right. right. left. Qed.

Section Shrink.
Context (lib : Library) (width : float64) (value style : string).

Lemma shrink_ends fuel more size t :
  sizes_end fuel size (font_size t) = true →
  let t' := shrink lib fuel width value style size t in
  shrink lib (fuel + more) width value style size t = t' ∧
  float_lt (tenths 52) (font_size t') = true ∧
  (float_lt (float_sub width (tenths 15)) (GetStringWidth lib t' value) = false ∨ float_lt (tenths 54) (font_size t') = false).
Proof.
  revert size t. induction fuel as [|fuel IH]; intros size t H; [discriminate|]. cbn [sizes_end] in H.
  apply andb_true_iff in H as [Hl H]. cbn [shrink Nat.add]. destruct (float_lt (tenths 52) size); cbn [andb].
  - destruct (float_lt (float_sub width (tenths 15)) _) eqn:Hw; [|by auto]. apply (IH _ (SetFont style size :: t) H).
  - apply negb_true_iff in H. by auto.
Qed.
(** The fuel is enough: more changes nothing. *)
Lemma shrink_enough size more t : size ∈ used_sizes →
  shrink lib (fit_fuel + more) width value style size (SetFont style size :: t) =
  shrink lib fit_fuel width value style size (SetFont style size :: t).
Proof. intros H. by apply shrink_ends, used_sizes_end. Qed.
End Shrink.

(** ** The state of a drawing *)

(** Where the drawing is, what the current page and the ones before it say (the newest
    text first), and that the cells of the table fit *)
Record sheet (lib : Library) (t : drawing) (y : option float64) (last : float64) (page : list string) (before : list (list string)) : Prop := {
  sheet_breaks : breaks t = false;
  sheet_y : ∀ v, y = Some v → GetY lib t = v;
  sheet_last : last_height t = last;
  sheet_texts : texts t = page :: before;
  sheet_fits : cells_fit lib t
}.
(** Calls that stay on the page and are no cells of the table *)
Definition plain (c : call) : bool :=
  match c with
  | SetAutoPageBreak _ _ | AddPage => false
  | CellFormat _ _ _ border _ _ _ => negb (seqb border "1")
  | _ => true
  end.
Definition text_of (c : call) : list string := match c with CellFormat _ _ text _ _ _ _ => [text] | _ => [] end.
Definition track (at_ : option float64 * float64) (c : call) : option float64 * float64 :=
  (vertical c at_.1 at_.2, match c with CellFormat _ h _ _ _ _ _ => h | _ => at_.2 end).

Section Sheets.
Context (lib : Library) (laws : FpdfLaws lib).

Lemma vertical_known c y last v : vertical c y last = Some v → y = None → ∀ y', vertical c y' last = Some v.
Proof. intros H -> y'. destruct c; cbn in *; try discriminate; try done; by destruct (_ =? _) || destruct (float_lt _ _). Qed.

Lemma sheet_call c t y last page before :
  sheet lib t y last page before → plain c = true ∨ (cell_fits lib t c ∧ ∃ w h text border ln align fill, c = CellFormat w h text border ln align fill) →
  sheet lib (c :: t) (track (y, last) c).1 (track (y, last) c).2 (text_of c ++ page) before.
Proof.
  intros [Hb Hy Hl Ht Hf] Hc. split.
  - destruct c; try exact Hb; by destruct Hc as [[=]|(_ & ? & ? & ? & ? & ? & ? & ? & [=])].
  - intros v Hv. cbn [track fst snd] in Hv. apply (law_GetY _ laws); [done|]. rewrite Hl. destruct y as [y|].
    + by rewrite (Hy _ eq_refl).
    + by eapply vertical_known.
  - by destruct c.
  - destruct c; cbn [texts text_of app]; try done; try (by rewrite Ht); by destruct Hc as [[=]|(_ & ? & ? & ? & ? & ? & ? & ? & [=])].
  - split; [|done]. destruct Hc as [Hc|[Hc _]]; [|done]. destruct c; try done. cbn in Hc |- *. intros ->. discriminate.
Qed.

Lemma sheet_calls new t y last page before :
  sheet lib t y last page before → forallb plain new = true →
  sheet lib (calls new t) (foldl track (y, last) new).1 (foldl track (y, last) new).2 (rev (concat (map text_of new)) ++ page) before.
Proof.
  unfold calls. revert t y last page. induction new as [|c new IH]; intros t y last page H Hp; [done|].
  cbn [forallb] in Hp. apply andb_true_iff in Hp as [Hc Hp]. cbn [rev_append foldl map concat].
  pose proof (sheet_call c t y last page before H (or_introl Hc)) as H1. apply IH in H1; [|done].
  rewrite (surjective_pairing (track (y, last) c)). rewrite rev_app_distr, <- app_assoc.
  replace (rev (text_of c)) with (text_of c) by (by destruct c). exact H1.
Qed.
Lemma sheet_font style size t y last page before :
  sheet lib t y last page before → sheet lib (SetFont style size :: t) y last page before.
Proof. intros H. exact (sheet_call (SetFont style size) t y last page before H (or_introl eq_refl)). Qed.
Lemma sheet_shrink fuel width value style size t y last page before :
  sheet lib t y last page before → sheet lib (shrink lib fuel width value style size t) y last page before.
Proof.
  revert size t. induction fuel as [|fuel IH]; intros size t H; cbn [shrink]; [done|].
  destruct (_ && _); [|done]. by apply IH, sheet_font.
Qed.

Definition bottom : float64 := float_sub A4_height pdfBottomMargin.
Definition above_bottom (y height : float64) : bool := negb (float_lt bottom (float_add y height)).
Lemma sheet_fitted width height value style size align border fill t y last page before :
  sheet lib t (Some y) last page before → size ∈ used_sizes → (border = "1"%string → above_bottom y height = true) →
  sheet lib (writeFittedCell lib width height value style size align border fill t) (Some y) height (value :: page) before.
Proof.
  intros H Hs Hb. unfold writeFittedCell.
  destruct (shrink_ends lib width value style fit_fuel 0 size (SetFont style size :: t) (used_sizes_end _ Hs)) as (_ & Hsmall & Hfits).
  pose proof (sheet_shrink fit_fuel width value style size _ _ _ _ _ (sheet_font style size _ _ _ _ _ H)) as H1.
  set (t1 := shrink lib fit_fuel _ _ _ _ _) in *.
  apply (sheet_call (CellFormat width height value border 0 align fill) t1 (Some y) last page before H1). right.
  split; [|by repeat eexists]. intros Hborder. split; [|exact (conj Hfits Hsmall)].
  rewrite (law_PageHeight _ laws), (sheet_y _ _ _ _ _ _ H1 y eq_refl). fold bottom.
  specialize (Hb Hborder). apply negb_true_iff in Hb. exact Hb.
Qed.

Lemma sheet_header columns t y last page before :
  sheet lib t (Some y) last page before → above_bottom y (tenths 70) = true → columns ≠ [] →
  sheet lib (header_cells lib columns t) (Some y) (tenths 70) (rev (map column_title columns) ++ page) before.
Proof.
  intros H Hb. revert t last page H. induction columns as [|column columns IH]; intros t last page H Hne; [destruct (Hne eq_refl)|]. cbn [header_cells map rev].
  pose proof (sheet_fitted (column_width column) (tenths 70) (column_title column) "B" (tenths 68) (column_align column) "1" true
    t y last page before H used_68 (fun _ => Hb)) as H1.
  rewrite <- app_assoc. cbn [app]. destruct columns as [|column' columns]; [exact H1|].
  eapply IH; [exact H1|discriminate].
Qed.
Lemma sheet_cells columns values index t y last page before :
  sheet lib t (Some y) last page before → above_bottom y pdfTableRow = true → length columns = length values → columns ≠ [] →
  sheet lib (row_cells lib index columns values t) (Some y) pdfTableRow (rev values ++ page) before.
Proof.
  intros H Hb. revert values index t last page H.
  induction columns as [|column columns IH]; intros values index t last page H Hlen Hne; [destruct (Hne eq_refl)|].
  destruct values as [|value values]; [discriminate Hlen|]. cbn [row_cells rev].
  pose proof (sheet_fitted (column_width column) pdfTableRow value (if (index =? 0) || (index =? 2) || (index =? 5) then "B"%string else EmptyString)
    (tenths 70) (column_align column) "1" true t y last page before H used_70 (fun _ => Hb)) as H1.
  rewrite <- app_assoc. cbn [app]. destruct columns as [|column' columns].
  - destruct values; [exact H1|discriminate Hlen].
  - eapply IH; [exact H1|by injection Hlen|discriminate].
Qed.
Definition detail_y (y0 : float64) (index : Z) : float64 := float_add y0 (float_mul (nearest false index 1) (tenths 50)).
Lemma sheet_details x y0 details index t y last page before :
  sheet lib t y last page before →
  (∀ k, index ≤ k < index + Z.of_nat (length details) → float_lt (detail_y y0 k) float_zero = false) →
  ∃ y' last', sheet lib (detail_rows lib x y0 index details t) y' last' (rev (details_text details) ++ page) before.
Proof.
  revert index t y last page. induction details as [|d details IH]; intros index t y last page H Hy; [eexists _, _; exact H|].
  cbn [detail_rows]. fold (detail_y y0 index).
  pose proof (sheet_call (SetXY x (detail_y y0 index)) t y last page before H (or_introl eq_refl)) as H1. cbn [track fst snd vertical text_of app] in H1.
  rewrite Hy in H1 by (cbn [length]; lia).
  apply (sheet_fitted (tenths 380) (tenths 50) (label d) "B" (tenths 64) "L" "" false) in H1; [|exact used_64|discriminate].
  apply (sheet_fitted (tenths 530) (tenths 50) (detail_value d) "" (tenths 73) "L" "" false) in H1; [|exact used_73|discriminate].
  apply (IH (index + 1)) in H1 as (y' & last' & H1).
  - exists y', last'. unfold details_text in *. cbn [map concat app rev]. rewrite <- !app_assoc. exact H1.
  - intros k Hk. apply Hy. cbn [length]. lia.
Qed.

(** *** The pieces of a page *)

Lemma sheet_AddPage t y last page before : sheet lib t y last page before → sheet lib (AddPage :: t) None last [] (page :: before).
Proof. intros [Hb Hy Hl Ht Hf]. split; [exact Hb|discriminate|exact Hl|cbn [texts]; by rewrite Ht|exact (conj I Hf)]. Qed.

(** A sheet is the same for equal positions and texts. *)
Lemma sheet_eq t y last page before y' last' page' :
  sheet lib t y last page before → y = y' → last = last' → page = page' → sheet lib t y' last' page' before.
Proof. by intros ? <- <- <-. Qed.

Definition title_text (continuation : bool) : list string :=
  ["REPAYMENT PLAN"; if continuation then "JADWAL PEMBAYARAN (LANJUTAN)" else "JADWAL PEMBAYARAN"]%string.
Lemma lengths_positive :
  float_lt (tenths 10) float_zero = false ∧ float_lt (tenths 20) float_zero = false ∧ float_lt (tenths 30) float_zero = false ∧
  float_lt (tenths (-10)) float_zero = true.
Proof. vm_compute. auto. Qed.
Lemma sheet_calls_to new t y last page before y' last' page' :
  sheet lib t y last page before → forallb plain new = true → foldl track (y, last) new = (y', last') →
  rev (concat (map text_of new)) ++ page = page' → sheet lib (calls new t) y' last' page' before.
Proof. intros H Hp Ht <-. pose proof (sheet_calls new t y last page before H Hp) as H1. rewrite Ht in H1. exact H1. Qed.
Lemma sheet_newline t y last page before :
  sheet lib t (Some y) last page before → sheet lib (Ln (tenths (-10)) :: t) (Some (float_add y last)) last page before.
Proof.
  intros H. refine (sheet_eq _ _ _ _ _ _ _ _ (sheet_call (Ln (tenths (-10))) t _ _ _ _ H (or_introl eq_refl)) _ eq_refl eq_refl).
  cbn [track fst vertical]. by rewrite (proj2 (proj2 (proj2 lengths_positive))).
Qed.
Lemma sheet_table continuation y y' t last page before :
  sheet lib t (Some y) last page before →
  float_add (float_add (float_add (float_add y (tenths 30)) (tenths 40)) (tenths 60)) (tenths 10) = y' →
  above_bottom y' (tenths 70) = true →
  sheet lib (writePDFScheduleHeader lib (writePDFScheduleTitle continuation t)) (Some (float_add y' (tenths 70))) (tenths 70)
    (rev (map column_title scheduleColumns) ++ rev (title_text continuation) ++ page) before.
Proof.
  intros H Hy' Hb. destruct lengths_positive as (P1 & _ & P3 & _). unfold writePDFScheduleHeader, writePDFScheduleTitle.
  eapply sheet_newline, sheet_header; [|exact Hb|discriminate].
  eapply sheet_calls_to; [|reflexivity..].
  eapply sheet_calls_to; [exact H|reflexivity| |reflexivity].
  unfold track. cbn [foldl fst snd vertical]. rewrite P1, P3. cbn [fmap option_fmap option_map flip Z.eqb Pos.eqb]. by rewrite Hy'.
Qed.
Lemma sheet_row row alternate t y last page before :
  sheet lib t (Some y) last page before → above_bottom y pdfTableRow = true →
  sheet lib (writePDFScheduleRow lib row alternate t) (Some (float_add y pdfTableRow)) pdfTableRow (rev (pdf_cells row) ++ page) before.
Proof.
  intros H Hb. unfold writePDFScheduleRow. eapply sheet_newline, sheet_cells; [|exact Hb|reflexivity|discriminate].
  by destruct alternate; (eapply sheet_calls_to; [exact H|reflexivity..]).
Qed.

(** The first row of a later page is 46 mm below its top, that of the first page 117 mm. *)
Lemma sheet_next_page view t y last page before :
  sheet lib t y last page before →
  sheet lib (next_page lib view t) (Some (tenths 460)) (tenths 70) (rev (continued view ++ map column_title scheduleColumns)) (page :: before).
Proof.
  intros H. unfold next_page, writePDFContinuationHeader.
  assert (float_add (tenths 390) (tenths 70) = tenths 460) as <- by (vm_compute; reflexivity).
  eapply sheet_eq; [|reflexivity..|].
  - eapply (sheet_table true (tenths 250)); [|vm_compute; reflexivity..].
    eapply sheet_calls_to; [exact (sheet_AddPage _ _ _ _ _ H)|reflexivity|vm_compute; reflexivity|reflexivity].
  - reflexivity.
Qed.
Lemma sheet_brand view printed t y last page before :
  sheet lib t y last page before →
  sheet lib (writePDFBrandHeader view printed t) (Some (tenths 430)) (tenths 50)
    (rev (take 6 (front view printed)) ++ page) before.
Proof.
  intros H. eapply sheet_calls_to; [exact H|reflexivity|vm_compute; reflexivity|reflexivity].
Qed.
Lemma sheet_information view t last page before :
  sheet lib t (Some (tenths 430)) last page before →
  ∃ last', sheet lib (writePDFLoanInformation lib view t) (Some (tenths 960)) last'
    (rev ("INFORMASI PINJAMAN"%string :: details_text (left_details view) ++ details_text (right_details view)) ++ page) before.
Proof.
  intros H. unfold writePDFLoanInformation. destruct lengths_positive as (_ & P2 & _).
  match goal with |- context [GetY lib (calls ?new t)] =>
    pose proof (sheet_calls_to new t _ _ _ _ (Some (tenths 520)) (tenths 70) ("INFORMASI PINJAMAN"%string :: page) H eq_refl) as H1;
    set (t1 := calls new t) in * end.
  specialize (H1 ltac:(vm_compute; reflexivity) eq_refl). rewrite (sheet_y _ _ _ _ _ _ H1 _ eq_refl).
  assert (∀ k, 0 ≤ k < 8 → float_lt (detail_y (tenths 520) k) float_zero = false) as Hdown.
  { intros k Hk. assert (forallb (fun k => negb (float_lt (detail_y (tenths 520) k) float_zero)) (seqZ 0 8) = true) as Hall by (vm_compute; reflexivity).
    rewrite forallb_forall in Hall. apply negb_true_iff, Hall, list_elem_of_In, elem_of_seqZ. lia. }
  unfold writePDFDetailColumn.
  destruct (sheet_details pdfLeftMargin (tenths 520) (left_details view) 0 _ _ _ _ _ H1 Hdown) as (y2 & l2 & H2).
  destruct (sheet_details (tenths 1070) (tenths 520) (right_details view) 0 _ _ _ _ _ H2 Hdown) as (y3 & l3 & H3).
  exists l3. eapply sheet_eq; [eapply (sheet_calls_to _ _ _ _ _ _ _ _ _ H3); [reflexivity|vm_compute; reflexivity|reflexivity]|reflexivity..|].
  cbn [app rev]. by rewrite rev_app_distr, <- !app_assoc.
Qed.

(** *** The rows over the pages *)

Definition row_y (base : float64) (rows : nat) : float64 := Nat.iter rows (flip float_add pdfTableRow) base.
Lemma row_y_0 base : row_y base 0 = base.
Proof. reflexivity. Qed.
(** Below [base] there is room for [n] rows, and not for one more. *)
Definition room (base : float64) (n : nat) : Prop :=
  (∀ j, (j < n)%nat → above_bottom (row_y base j) pdfTableRow = true) ∧ above_bottom (row_y base n) pdfTableRow = false.
Lemma room_by base n :
  forallb (fun j => above_bottom (row_y base j) pdfTableRow) (seq 0 n) && negb (above_bottom (row_y base n) pdfTableRow) = true → room base n.
Proof.
  intros [Hin Hout]%andb_true_iff. split; [|by apply negb_true_iff]. intros j Hj. rewrite forallb_forall in Hin. apply Hin, in_seq. lia.
Qed.
Lemma room_first : room (tenths 1170) first_rows.
Proof. apply room_by. vm_compute. reflexivity. Qed.
Lemma room_later : room (tenths 460) later_rows.
Proof. apply room_by. vm_compute. reflexivity. Qed.

Lemma sheet_full t y last page before :
  sheet lib t (Some y) last page before → page_full lib t = negb (above_bottom y pdfTableRow).
Proof.
  intros H. unfold page_full, above_bottom. rewrite (law_PageHeight _ laws), (sheet_y _ _ _ _ _ _ H y eq_refl), negb_involutive. reflexivity.
Qed.

Section Rows.
Context (view : ResultView).
Implicit Type rows : list ScheduleRowView.

Lemma schedule_rows_app rows more index t :
  schedule_rows lib view index (rows ++ more) t =
  schedule_rows lib view (index + Z.of_nat (length rows)) more (schedule_rows lib view index rows t).
Proof.
  revert index t. induction rows as [|row rows IH]; intros index t; [by rewrite Z.add_0_r|].
  cbn [schedule_rows app length]. rewrite IH. f_equal. lia.
Qed.
Lemma rows_on_page base n rows j index t last page before :
  room base n → sheet lib t (Some (row_y base j)) last page before → (j + length rows ≤ n)%nat →
  ∃ last', sheet lib (schedule_rows lib view index rows t) (Some (row_y base (j + length rows))) last'
             (rev (concat (map pdf_cells rows)) ++ page) before.
Proof.
  intros Hr. revert j index t last page. induction rows as [|row rows IH]; intros j index t last page H Hj.
  { rewrite Nat.add_0_r. by exists last. }
  cbn [length] in Hj. cbn [schedule_rows]. pose proof (proj1 Hr j ltac:(lia)) as Hb. rewrite (sheet_full _ _ _ _ _ H), Hb. cbn [negb].
  pose proof (sheet_row row (index mod 2 =? 1) _ _ _ _ _ H Hb) as H1.
  destruct (IH (S j) (index + 1) _ _ _ H1 ltac:(lia)) as (last' & H2). exists last'.
  replace (j + length (row :: rows))%nat with (S j + length rows)%nat by (cbn [length]; lia).
  cbn [map concat]. rewrite rev_app_distr, <- app_assoc. exact H2.
Qed.
Lemma schedule_rows_cons row rows index t :
  schedule_rows lib view index (row :: rows) t =
  schedule_rows lib view (index + 1) rows
    (writePDFScheduleRow lib row (index mod 2 =? 1) (if page_full lib t then next_page lib view t else t)).
Proof. reflexivity. Qed.
Lemma schedule_rows_break rows index t :
  page_full lib t = true → page_full lib (next_page lib view t) = false → rows ≠ [] →
  schedule_rows lib view index rows t = schedule_rows lib view index rows (next_page lib view t).
Proof. intros Hfull Hroom Hne. destruct rows as [|row rows]; [done|]. by rewrite !schedule_rows_cons, Hfull, Hroom. Qed.
Lemma rows_next_page base n rows index t last page before :
  room base n → sheet lib t (Some (row_y base n)) last page before → rows ≠ [] →
  schedule_rows lib view index rows t = schedule_rows lib view index rows (next_page lib view t).
Proof.
  intros Hr H. apply schedule_rows_break.
  - rewrite (sheet_full _ _ _ _ _ H), (proj2 Hr). reflexivity.
  - pose proof (sheet_next_page view _ _ _ _ _ H) as H1. rewrite <- (row_y_0 (tenths 460)) in H1.
    rewrite (sheet_full _ _ _ _ _ H1), (proj1 room_later); [reflexivity|unfold later_rows; lia].
Qed.

(** A full page is followed by one page for every further group of rows. *)
Lemma rows_on_pages fuel rows base n index t last page before :
  (length rows ≤ fuel)%nat → room base n → sheet lib t (Some (row_y base n)) last page before →
  ∃ y last' page' before', sheet lib (schedule_rows lib view index rows t) y last' page' before' ∧
    page' :: before' = rev (map (fun rows => rev (continued view ++ table rows)) (groups fuel later_rows rows)) ++ page :: before.
Proof.
  revert rows base n index t last page before. induction fuel as [|fuel IH]; intros rows base n index t last page before Hf Hr H.
  { destruct rows; [|cbn [length] in Hf; lia]. eexists _, _, _, _. split; [exact H|reflexivity]. }
  destruct rows as [|row rows]; [eexists _, _, _, _; split; [exact H|reflexivity]|].
  rewrite (rows_next_page _ _ _ _ _ _ _ _ Hr H) by discriminate.
  pose proof (sheet_next_page view _ _ _ _ _ H) as H0. rewrite <- (row_y_0 (tenths 460)) in H0. set (all := row :: rows) in *.
  change (groups (S fuel) later_rows all) with (take later_rows all :: groups fuel later_rows (drop later_rows all)).
  rewrite <- (take_drop later_rows all), schedule_rows_app, take_drop.
  destruct (rows_on_page (tenths 460) later_rows (take later_rows all) 0 index _ _ _ _ room_later H0) as (last1 & H1); [rewrite length_take; lia|].
  assert (Htable : rev (concat (map pdf_cells (take later_rows all))) ++ rev (continued view ++ map column_title scheduleColumns) =
    rev (continued view ++ table (take later_rows all))) by (unfold table; by rewrite <- rev_app_distr, <- app_assoc).
  rewrite Htable in H1. cbn [map rev]. rewrite <- app_assoc. cbn [app].
  destruct (drop later_rows all) as [|row' rest] eqn:Ed.
  { exists (Some (row_y (tenths 460) (0 + length (take later_rows all)))), last1. eexists _, _. split; [exact H1|]. by destruct fuel. }
  assert (length (take later_rows all) = later_rows) as Hl.
  { apply (f_equal length) in Ed. rewrite length_drop in Ed. cbn [length] in Ed. rewrite length_take. lia. }
  rewrite Hl in H1. cbn [Nat.add] in H1.
  apply (IH (row' :: rest) (tenths 460) later_rows (index + Z.of_nat (length (take later_rows all))) _ last1); [|exact room_later|exact H1].
  rewrite <- Ed, length_drop. subst all. cbn [length] in *. unfold later_rows. lia.
Qed.
End Rows.
End Sheets.

Lemma groups_concat fuel size rows : (length rows ≤ fuel)%nat → (0 < size)%nat → concat (groups fuel size rows) = rows.
Proof.
  intros Hf Hs. revert rows Hf. induction fuel as [|fuel IH]; intros rows Hf; [destruct rows; [done|cbn in Hf; lia]|].
  destruct rows as [|row rows]; [done|]. cbn [groups concat]. rewrite IH; [apply take_drop|].
  rewrite length_drop. cbn [length] in *. lia.
Qed.

Lemma drawn_start lib logo :
  sheet lib (calls [New "P" "mm" "A4"; SetMargins pdfLeftMargin (tenths 120) pdfRightMargin; SetAutoPageBreak false pdfBottomMargin;
    SetCompression false; SetTitle "Jadwal Pembayaran Kontraktual"; SetAuthor "BANK DP TASPEN"; SetCreator "new-trs";
    RegisterImage "bank-dp-taspen-logo" logo; SetFooterFunc footer; AddPage] []) None float_zero [] [].
Proof. split; [reflexivity|discriminate|reflexivity..|repeat split]. Qed.

(** The whole document: the front matter with the first rows, then a page for every
    further group of rows. *)
Lemma drawn_pages lib logo view printed :
  FpdfLaws lib → let t := drawn lib logo view printed in pages t = printed_pages view printed ∧ cells_fit lib t.
Proof.
  intros laws. unfold drawn. pose proof (drawn_start lib logo) as H0. set (t0 := calls _ []) in *.
  pose proof (sheet_brand lib laws view printed _ _ _ _ _ H0) as H1.
  destruct (sheet_information lib laws view _ _ _ _ H1) as (last2 & H2).
  pose proof (sheet_table lib laws false _ (tenths 1100) _ _ _ _ H2 ltac:(vm_compute; reflexivity) ltac:(vm_compute; reflexivity)) as H3.
  assert (float_add (tenths 1100) (tenths 70) = row_y (tenths 1170) 0) as Hy by (rewrite row_y_0; vm_compute; reflexivity).
  rewrite Hy in H3. cbv zeta.
  set (t3 := writePDFScheduleHeader lib _) in *.
  set (rows := ScheduleRows view). set (first := take first_rows rows).
  rewrite <- (take_drop first_rows rows), schedule_rows_app. fold first.
  destruct (rows_on_page lib laws view (tenths 1170) first_rows first 0 0 _ _ _ _ room_first H3) as (last4 & H4).
  { unfold first. rewrite length_take. lia. }
  assert (Hpage : rev (concat (map pdf_cells first)) ++ rev (map column_title scheduleColumns) ++ rev (title_text false) ++
    rev ("INFORMASI PINJAMAN"%string :: details_text (left_details view) ++ details_text (right_details view)) ++
    rev (take 6 (front view printed)) ++ [] = rev (front view printed ++ table first)).
  { unfold table, front. rewrite app_nil_r, <- !rev_app_distr. cbn [take app]. by rewrite <- !app_assoc. }
  rewrite Hpage in H4.
  assert (∀ t, sheet lib t (Some (row_y (tenths 1170) (0 + length first))) last4 (rev (front view printed ++ table first)) [] →
    ∃ y last' page' before', sheet lib (schedule_rows lib view (0 + Z.of_nat (length first)) (drop first_rows rows) t) y last' page' before' ∧
      page' :: before' = rev (map (fun rows => rev (continued view ++ table rows)) (groups (length (drop first_rows rows)) later_rows (drop first_rows rows)))
                         ++ [rev (front view printed ++ table first)]) as Hrest.
  { intros t Ht. destruct (drop first_rows rows) as [|row rest] eqn:Ed; [eexists _, _, _, _; split; [exact Ht|reflexivity]|].
    assert (length first = first_rows) as Hl.
    { apply (f_equal length) in Ed. rewrite length_drop in Ed. cbn [length] in Ed. unfold first. rewrite length_take. lia. }
    rewrite Hl in Ht |- *. cbn [Nat.add] in Ht. exact (rows_on_pages lib laws view _ _ _ _ _ _ _ _ _ (le_n _) room_first Ht). }
  destruct (Hrest _ H4) as (y & last' & page' & before' & H5 & Htexts).
  split; [|apply (sheet_fits _ _ _ _ _ _ H5)].
  unfold pages. rewrite (sheet_texts _ _ _ _ _ _ H5), Htexts, map_app, rev_app_distr, map_rev, rev_involutive, map_map.
  cbn [map rev app]. rewrite rev_involutive. unfold printed_pages. f_equal. apply map_ext. intros r. apply rev_involutive.
Qed.

(** C30: the printed version shows the whole schedule.  When a document is answered, it is
    what fpdf makes of a drawing of the view of the account's position; its pages say,
    in reading order, exactly the front matter, the titles and the first 26 rows, and then
    page by page a heading and the next 38 rows, so that every row is printed once, in
    order, and no page is without rows for want of any; and no cell of the table reaches
    into the bottom margin, and its text fits or is in the least font of 5.2 to 5.4 points. *)
Theorem printed_schedule Error positions lib logo abbreviation loc now query name document :
  FpdfLaws lib →
  PDF Error positions (fun view now => generateLoanPDF lib logo view (print_time abbreviation now loc)) loc now query = PDFDocument name document →
  ∃ account as_of asOf resolved view,
    GoPath.query_values "account" (GoPath.ParseQuery query) = [account] ∧ GoPath.query_values "as_of" (GoPath.ParseQuery query) = [as_of] ∧
    ParseDate (TrimSpace as_of) (Some loc) = Ok asOf ∧
    positions (TrimSpace account) asOf = Ok resolved ∧ newResultView resolved (TrimSpace account) asOf = Ok view ∧
    let printed := print_time abbreviation now loc in
    let t := drawn lib logo view printed in
    let rest := drop first_rows (ScheduleRows view) in
    Output lib t = Ok document ∧ pages t = printed_pages view printed ∧ cells_fit lib t ∧
    take first_rows (ScheduleRows view) ++ concat (groups (length rest) later_rows rest) = ScheduleRows view.
Proof.
  intros laws H. unfold PDF in H. cases_in H. injection H as <- <-.
  match goal with Hr : resolveResult _ _ _ = Ok (?r, ?v), Hd : generateLoanPDF _ _ _ _ = Ok _ |- _ =>
    unfold resolveResult in Hr; inv_ok; apply wrap_err_Ok in Hd; do 3 eexists; exists r, v end.
  split_and!; [done..|]. cbv zeta.
  match goal with |- context [drawn lib logo ?v ?p] => destruct (drawn_pages lib logo v p laws) as [Hpages Hfit] end.
  split_and!; [done..|]. rewrite groups_concat; [apply take_drop|done|unfold later_rows; lia].
Qed.

(** ** A library to try it with: every character is 2 mm wide, the document is the texts. *)
Definition text_width (text : string) : float64 := nearest false (2 * slen text) 1.
Fixpoint cursor (t : drawing) : float64 :=
  match t with
  | [] => float_zero
  | c :: t => default float_zero (vertical c (Some (cursor t)) (last_height t))
  end.
Definition plain_texts : Library :=
  {| GetY := cursor; PageHeight := fun _ => A4_height; GetStringWidth := fun _ => text_width;
     Output := fun t => Ok (bytes (String.concat "|" (concat (pages t)))) |}.
Lemma plain_texts_laws : FpdfLaws plain_texts.
Proof. split; [|done]. intros c t y _ H. cbn [GetY plain_texts cursor] in *. by rewrite H. Qed.

Definition sample_render : ResultView → time → res (list ascii) :=
  fun view now => generateLoanPDF plain_texts [] view (print_time (fun _ => "WIB"%string) now (fixed_zone 25200)).
Definition sample_query : string := "account=account&as_of=2025-12-30".
Definition sample_pdf : inquiry_reply :=
  PDF (fun _ => EmptyString) (GetLoanPosition (ex_service "10")) sample_render (fixed_zone 25200) 63902822400000000000 sample_query.
Lemma printed_schedule_witness :
  ∃ document, sample_pdf = PDFDocument "jadwal-pembayaran-account-2025-12-30.pdf" document ∧
    ∃ view, document = bytes (String.concat "|" (concat (printed_pages view "01 Jan 2026 07:00 WIB"))) ∧ length (ScheduleRows view) = 4%nat.
Proof.
  assert (match sample_pdf with PDFDocument name _ => seqb name "jadwal-pembayaran-account-2025-12-30.pdf" | _ => false end = true) as Hs
    by (vm_compute; reflexivity).
  destruct sample_pdf as [| |name document] eqn:E; try discriminate Hs. apply seqb_eq in Hs as ->. exists document. split; [done|].
  destruct (printed_schedule _ _ plain_texts [] _ _ _ _ _ document plain_texts_laws E)
    as (account & as_of & asOf & resolved & view & Ha & Hd & Hp & Hr & Hv & Hout & Hpages & _).
  exists view. split.
  - cbn [Output plain_texts] in Hout. injection Hout as <-. rewrite Hpages.
    assert (print_time (fun _ => "WIB"%string) 63902822400000000000 (fixed_zone 25200) = "01 Jan 2026 07:00 WIB"%string) as -> by (vm_compute; reflexivity).
    reflexivity.
  - assert (account = "account"%string) as -> by (vm_compute in Ha; by injection Ha).
    assert (as_of = "2025-12-30"%string) as -> by (vm_compute in Hd; by injection Hd).
    assert (asOf = MkDate 2025 12 30) as -> by (vm_compute in Hp; by injection Hp).
    assert (match GetLoanPosition (ex_service "10") (TrimSpace "account") (MkDate 2025 12 30) with
            | Ok r => match newResultView r (TrimSpace "account") (MkDate 2025 12 30) with Ok v => bool_decide (length (ScheduleRows v) = 4%nat) | _ => false end
            | _ => false end = true) as Hc by (vm_compute; reflexivity).
    rewrite Hr, Hv in Hc. by apply bool_decide_eq_true in Hc.
Defined.
(** 100 rows take three pages, of 26, 38 and 36 rows. *)
Example pages_of_hundred :
  let row := {| sr_Number := 1; sr_Date := EmptyString; sr_Installment := EmptyString; sr_Principal := EmptyString; sr_Interest := EmptyString;
                sr_Outstanding := EmptyString; sr_Status := EmptyString |} in
  map length (groups 100 later_rows (drop first_rows (replicate 100 row))) = [38; 36]%nat.
Proof. reflexivity. Qed.
