(* ===== verification/Render.v ===== *)
(** Responses, logs and pages: [internal/render] (render.go, errors.go, notice.go) and
    [internal/logging].

    A handler changes the response and the log, and may panic.  The response keeps the
    headers set so far and, from the first [WriteHeader] on, those that were sent; what
    net/http and chi's wrapped writer do with a second status is part of it.  Of the
    network, which can fail a write, nothing is kept: the client is gone then.

    The templates are the files of the file system, in lexical order; parsing their text
    ([parse]) and executing a template ([execute]) are the template library's.  The
    patterns given to [fs.Glob] have no special characters but the stars of the source. *)
From stdpp Require Import base list strings gmap.
From Stdlib Require Import ZArith Lia Ascii.
From S2P Require Import Prelude GoStrings GoErrors GoJSON GoPath Api.
Local Open Scope Z_scope.

(** ** Responses *)

Record writer := {
  w_header : gmap string string;
  w_status : Z;                       (* 0 before the first WriteHeader *)
  w_sent : gmap string string;        (* the headers that went out *)
  w_body : list ascii
}.
Definition fresh_writer : writer := {| w_header := ∅; w_status := 0; w_sent := ∅; w_body := [] |}.
Definition SetHeader (key value : string) (w : writer) : writer :=
  {| w_header := <[key := value]> (w_header w); w_status := w_status w; w_sent := w_sent w; w_body := w_body w |}.
Definition DelHeader (key : string) (w : writer) : writer :=
  {| w_header := delete key (w_header w); w_status := w_status w; w_sent := w_sent w; w_body := w_body w |}.
Definition WriteHeader (status : Z) (w : writer) : writer :=
  if w_status w =? 0
  then {| w_header := w_header w; w_status := status; w_sent := w_header w; w_body := w_body w |}
  else w.
Definition WriteBody (text : list ascii) (w : writer) : writer :=
  let w := WriteHeader StatusOK w in
  {| w_header := w_header w; w_status := w_status w; w_sent := w_sent w; w_body := w_body w ++ text |}.
(** [http.Error] *)
Definition http_Error (message : string) (status : Z) (w : writer) : writer :=
  let w := DelHeader "Content-Length" w in
  let w := SetHeader "Content-Type" "text/plain; charset=utf-8" w in
  let w := SetHeader "X-Content-Type-Options" "nosniff" w in
  WriteBody (bytes message ++ ["010"%char]) (WriteHeader status w).
(** What the client gets when the handler has returned: net/http sends 200 if it wrote nothing. *)
Definition finish (w : writer) : writer := WriteHeader StatusOK w.

(** ** Requests, logs and handlers *)

Record web_request := { wr_id : string; wr_method : string; wr_pattern : string (* the pattern chi matched, or empty *) }.
Inductive log_record :=
| Completed (request_id method route : string) (status : Z) (response_bytes : Z)
| PanicRecovered (request_id method route : string) (panic_type : string)
| RequestError (request_id method route operation : string) (status : option Z) (attributes : list (string * string)).

Definition web_state : Type := writer * list log_record.
(** [Some type] is a panic with a value of that type. *)
Definition web_handler : Type := web_request → web_state → option string * web_state.
Definition answering (f : writer → writer) : web_handler := fun _ '(w, logs) => (None, (f w, logs)).

(** *** [logging] *)

Definition Route (request : web_request) : string :=
  if empty (wr_pattern request) then "unmatched"%string else wr_pattern request.

Section Logging.
Variable type_name : err → string.                          (* "%T" *)
Variable mysql_code : err → option (string * string).       (* number and SQLSTATE of the first MySQL error of the tree *)

(** The first error of the chain that is no [fmt.Errorf] *)
Fixpoint errorType (e : err) : string :=
  match e with
  | Wrap _ e' => errorType e'
  | _ => type_name e
  end.
Definition errorAttrs (e : option err) : list (string * string) :=
  match e with
  | None => []
  | Some e =>
      if Is e ContextCanceled then [("error_type", errorType e); ("error_kind", "cancelled")]%string else
      if Is e ContextDeadlineExceeded then [("error_type", errorType e); ("error_kind", "deadline_exceeded")]%string else
      match mysql_code e with
      | Some (number, state) => [("error_type", "*mysql.MySQLError"); ("mysql_error", number); ("sqlstate", state)]%string
      | None => [("error_type", errorType e)]%string
      end
  end.
End Logging.

(** ** Notices, [notice.go] *)

Record Notice := { Severity : string; notice_Title : string; notice_Message : string }.
Definition notices : gmap string Notice := list_to_map
  [("user-activated", {| Severity := "success"; notice_Title := "User activated"; notice_Message := "The user can sign in again." |});
   ("user-deactivated", {| Severity := "success"; notice_Title := "User deactivated"; notice_Message := "The user's THOR sessions were signed out." |});
   ("permissions-updated", {| Severity := "success"; notice_Title := "Permissions updated"; notice_Message := "The user's explicit permissions were updated." |});
   ("user-status-updated", {| Severity := "success"; notice_Title := "Status updated"; notice_Message := "The user's local THOR access was updated." |});
   ("snapshot-refreshed", {| Severity := "success"; notice_Title := "Snapshot refreshed"; notice_Message := "Current-day positions were replaced successfully." |});
   ("snapshot-refresh-running", {| Severity := "info"; notice_Title := "Refresh already running"; notice_Message := "Wait for the active snapshot refresh to finish." |})]%string.
Definition NoticeFromID (id : string) : option Notice := notices !! id.

(** ** Templates, [render.go] *)

Record parsed_page := { parsed_name : string; parsed_files : list string }.
Record Renderer := { reload : bool; parsed_pages : gmap string parsed_page }.

(** [fs.ValidPath] *)
Definition ValidPath (name : string) : bool :=
  valid_utf8 (bytes name) &&
  (seqb name "." || forallb (fun p => negb (bool_decide (p = [])) && negb (bool_decide (p = dot_part)) && negb (bool_decide (p = dotdot_part)))
                      (split_byte "/" (bytes name))).

Section Templates.
Variable files : list string.
Variable parse : parsed_page → res unit.

(** [fs.Glob] with dir/prefix*.html *)
Definition glob (dir prefix : string) : list string :=
  filter (fun f => bool_decide (path_Dir f = dir) && HasPrefix (Base f) prefix && HasSuffix (Base f) ".html") files.
Definition page_file (name : string) : string :=
  if Contains name "/" then ("templates/" +:+ name +:+ ".html")%string else ("templates/pages/" +:+ name +:+ ".html")%string.
Definition parsePage (name : string) : res parsed_page :=
  let layouts := glob "templates/layouts" "" in
  if bool_decide (layouts = []) then Fail (Msg "find layout templates: no layouts found") else
  let pageFile := page_file name in
  if negb (bool_decide (pageFile ∈ files)) then Fail (Wrap "find page template %q: %w" (Msg "file does not exist")) else
  let page := {| parsed_name := name;
                 parsed_files := layouts ++ glob "templates/components" "" ++ glob "templates/partials" "" ++
                                 glob (path_Dir pageFile) "_" ++ [pageFile] |} in
  match parse page with
  | Ok _ => Ok page
  | Fail e => Fail (Wrap "parse page template %q: %w" e)
  end.

(** The walk over one root of [New] *)
Definition page_name (file : string) : string :=
  TrimPrefix (TrimSuffix (TrimPrefix file "templates/") ".html") "pages/".
Definition below (root file : string) : bool := HasPrefix file (root +:+ "/")%string.
Definition names_below (root : string) : res (list string) :=
  let found := filter (fun f => below root f) files in
  if bool_decide (found = []) then Fail (Wrap "find page templates in %q: %w" (Msg "file does not exist")) else
  Ok (map page_name (filter (fun f => seqb (path_Ext f) ".html" && negb (HasPrefix (Base f) "_")) found)).
Fixpoint parse_all (names : list string) (pages : gmap string parsed_page) (reload : bool) : res (gmap string parsed_page) :=
  match names with
  | [] => Ok pages
  | name :: rest =>
      page ← parsePage name;
      parse_all rest (if reload then pages else <[name := page]> pages) reload
  end.
Definition page_names : res (list string) :=
  pages ← names_below "templates/pages";
  features ← names_below "templates/features";
  Ok (pages ++ features).
Definition NewRenderer (reload : bool) : res Renderer :=
  names ← page_names;
  if bool_decide (names = []) then Fail (Msg "find page templates: no pages found") else
  pages ← parse_all names ∅ reload;
  Ok {| reload := reload; parsed_pages := pages |}.

Definition template (r : Renderer) (name : string) : res parsed_page :=
  if empty name || negb (ValidPath name) || negb (empty (path_Ext name)) then Fail (Msg "invalid page template %q") else
  if negb (reload r) then of_option (parsed_pages r !! name) (Msg "unknown page template %q")
  else parsePage name.

Context {Data : Type}.
Variable execute : parsed_page → string → Data → res (list ascii).

(** [render]: nothing is written before the whole page was made. *)
Definition render (r : Renderer) (status : Z) (page name : string) (data : Data) (w : writer) : res unit * writer :=
  match template r page with
  | Fail e => (Fail e, w)
  | Ok parsed =>
      match execute parsed name data with
      | Fail e => (Fail (Wrap "execute template %q: %w" e), w)
      | Ok buffer => (Ok tt, WriteBody buffer (WriteHeader status (SetHeader "Content-Type" "text/html; charset=utf-8" w)))
      end
  end.
Definition RenderPage (r : Renderer) (status : Z) (page : string) (data : Data) (w : writer) : res unit * writer :=
  render r status page "admin" data w.
Definition RenderPageWithLayout (r : Renderer) (status : Z) (page layout : string) (data : Data) (w : writer) : res unit * writer :=
  if empty layout || negb (seqb (Base layout) layout) then (Fail (Msg "invalid layout template %q"), w) else render r status page layout data w.
Definition RenderPartial (r : Renderer) (status : Z) (page name : string) (data : Data) (w : writer) : res unit * writer :=
  render r status page name data w.
End Templates.

(** ** Error pages, [errors.go] *)

(** The title of the page and [ErrorPageData] *)
Record error_page := { ep_title : string; ep_heading : string; ep_message : string; ep_request_id : string }.

Section Errors.
Variable type_name : err → string.
Variable mysql_code : err → option (string * string).
(** [RenderPageWithLayout] of the renderer, for the data of error pages *)
Variable show : Z → string → string → error_page → writer → res unit * writer.

Definition committed (w : writer) : bool := negb (w_status w =? 0).
Definition StatusText (status : Z) : string :=
  if status =? StatusNotFound then "Not Found"%string else
  if status =? StatusInternalServerError then "Internal Server Error"%string else EmptyString.
Definition renderError (request : web_request) (status : Z) (page heading message request_id : string) (s : web_state) : web_state :=
  let '(w, logs) := s in
  if committed w then (w, logs) else
  let w := SetHeader "Cache-Control" "no-store" w in
  match show status page "error" {| ep_title := StatusText status; ep_heading := heading; ep_message := message; ep_request_id := request_id |} w with
  | (Ok _, w) => (w, logs)
  | (Fail e, w) =>
      if committed w then (w, logs) else
      (http_Error (StatusText status) status w,
       logs ++ [RequestError (wr_id request) (wr_method request) (Route request) "render_error_page" (Some status)
                  (errorAttrs type_name mysql_code (Some e))])
  end.
Definition renderInternal (request : web_request) (s : web_state) : web_state :=
  renderError request StatusInternalServerError "internal_server_error" "Something went wrong"
    "The request could not be completed. Please try again." (wr_id request) s.
Definition NotFound : web_handler := fun request s =>
  (None, renderError request StatusNotFound "not_found" "Page not found"
           "The page may have moved, or the address may be incorrect." "" s).
Definition Internal (operation : string) (e : err) : web_handler := fun request '(w, logs) =>
  (None, renderInternal request
    (w, logs ++ [RequestError (wr_id request) (wr_method request) (Route request) operation None (errorAttrs type_name mysql_code (Some e))])).
Definition Recoverer (next : web_handler) : web_handler := fun request s =>
  match next request s with
  | (None, s) => (None, s)
  | (Some recovered, (w, logs)) =>
      (None, renderInternal request (w, logs ++ [PanicRecovered (wr_id request) (wr_method request) (Route request) recovered]))
  end.
End Errors.

(** ** The two modes of the renderer *)

Section Modes.
Context (files : list string) (parse : parsed_page → res unit).

Lemma parse_all_Ok names pages reload result :
  parse_all files parse names pages reload = Ok result →
  (∀ name, name ∈ names → is_ok (parsePage files parse name) = true) ∧
  (reload = false → (∀ name p, pages !! name = Some p → parsePage files parse name = Ok p) →
     (∀ name p, result !! name = Some p → parsePage files parse name = Ok p) ∧
     (∀ name, name ∈ names ∨ is_Some (pages !! name) → is_Some (result !! name))).
Proof.
  revert pages. induction names as [|name names IH]; intros pages H; cbn [parse_all] in H.
  { injection H as <-. split; [by intros ? ?%elem_of_nil|]. intros _ Hp. split; [done|]. by intros name [?%elem_of_nil|]. }
  apply bind_Ok in H as (page & Hpage & H). destruct (IH _ H) as [Hok Hmap]. split.
  - intros n [->|Hn]%elem_of_cons; [by rewrite Hpage|by apply Hok].
  - intros -> Hp. destruct (Hmap eq_refl) as [H1 H2].
    + intros n p [[-> ->]|[_ Hn]]%lookup_insert_Some; [done|by apply Hp].
    + split; [done|]. intros n Hn. apply H2. destruct (decide (n = name)) as [->|Hne]; [right; by rewrite lookup_insert_eq|].
      rewrite lookup_insert_ne by done. destruct Hn as [[->|Hn]%elem_of_cons|Hn]; [done|by left|by right].
Qed.

Lemma parse_all_reload names pages :
  (∀ name, name ∈ names → is_ok (parsePage files parse name) = true) → parse_all files parse names pages true = Ok pages.
Proof.
  induction names as [|name names IH]; intros H; [done|]. cbn [parse_all].
  destruct (proj1 (is_ok_true _) (H name ltac:(left))) as [page ->]. apply IH. intros n Hn. apply H. by right.
Qed.

Lemma parsed_name_page name page : parsePage files parse name = Ok page → parsed_name page = name.
Proof. unfold parsePage. intros H. cases_in H. by injection H as <-. Qed.

(** In production and in development the same files give the same pages: when the
    production mode starts so does the other; a page of the files is the same in both, and
    production shows no page that development would not show. *)
Theorem modes_agree production :
  NewRenderer files parse false = Ok production →
  ∃ names development, page_names files = Ok names ∧ NewRenderer files parse true = Ok development ∧ ∀ name,
    (name ∈ names → template files parse production name = template files parse development name) ∧
    (∀ page, template files parse production name = Ok page → template files parse development name = Ok page ∧ parsed_name page = name).
Proof.
  unfold NewRenderer. intros H. apply bind_Ok in H as (names & Hnames & H). destruct (bool_decide (names = [])) eqn:Hne; [discriminate|].
  apply bind_Ok in H as (pages & Hpages & H). injection H as <-.
  destruct (parse_all_Ok _ _ _ _ Hpages) as [Hok Hmap]. destruct (Hmap eq_refl) as [Hsound Hall]; [by intros ? ?; rewrite lookup_empty|].
  exists names. eexists. split; [done|]. rewrite Hnames. cbn [mbind result_bind]. rewrite Hne, (parse_all_reload _ _ Hok). split; [reflexivity|].
  intros name. unfold template. cbn [reload parsed_pages negb]. destruct (_ || _); [by split|]. split.
  - intros Hin. destruct (Hall name (or_introl Hin)) as [page Hpage]. by rewrite Hpage, (Hsound _ _ Hpage).
  - intros page Hpage%of_option_Ok. apply Hsound in Hpage. split; [done|by apply parsed_name_page].
Qed.
End Modes.

(** ** The pages of this repository *)

(** The files below web/templates *)
Definition web_templates : list string :=
  ["templates/components/confirmation-dialog.html"; "templates/components/toast.html"; "templates/features/auditlogs/index.html";
   "templates/features/auditlogs/show.html"; "templates/features/dashboard/index.html"; "templates/features/loaninquiry/index.html";
   "templates/features/lps/index.html"; "templates/features/slik/index.html"; "templates/features/slik/status.html";
   "templates/features/snapshots/index.html"; "templates/features/users/_table.html"; "templates/features/users/index.html";
   "templates/features/users/show.html"; "templates/layouts/admin.html"; "templates/layouts/auth.html"; "templates/layouts/error.html";
   "templates/pages/conflict.html"; "templates/pages/forbidden.html"; "templates/pages/internal_server_error.html";
   "templates/pages/login.html"; "templates/pages/not_found.html"; "templates/partials/head-state-init.html";
   "templates/partials/sidebar.html"; "templates/partials/theme-switcher.html"; "templates/partials/topbar.html"]%string.
(** The pages that the handlers and the error responder ask for *)
Definition pages_used : list string :=
  ["features/slik/index"; "features/slik/status"; "features/users/index"; "features/users/show"; "conflict"; "features/loaninquiry/index";
   "features/auditlogs/index"; "features/auditlogs/show"; "features/snapshots/index"; "features/lps/index"; "features/dashboard/index";
   "forbidden"; "not_found"; "internal_server_error"; "login"]%string.
Definition show_files : list string :=
  ["templates/layouts/admin.html"; "templates/layouts/auth.html"; "templates/layouts/error.html";
   "templates/components/confirmation-dialog.html"; "templates/components/toast.html"; "templates/partials/head-state-init.html";
   "templates/partials/sidebar.html"; "templates/partials/theme-switcher.html"; "templates/partials/topbar.html";
   "templates/features/users/_table.html"; "templates/features/users/show.html"]%string.
Definition shows (r : Renderer) (name : string) (expected : list string) : bool :=
  match template web_templates (fun _ => Ok tt) r name with
  | Ok page => bool_decide (parsed_files page = expected)
  | Fail _ => false
  end.
Lemma modes_agree_witness :
  let parse := fun _ => Ok tt in
  ∃ production development, NewRenderer web_templates parse false = Ok production ∧ NewRenderer web_templates parse true = Ok development ∧
    forallb (fun name => is_ok (template web_templates parse production name)) pages_used = true ∧
    shows production "features/users/show" show_files = true ∧ shows development "features/users/show" show_files = true.
Proof.
  intros parse. assert (match NewRenderer web_templates parse false with
    | Ok r => forallb (fun name => is_ok (template web_templates parse r name)) pages_used && shows r "features/users/show" show_files
    | Fail _ => false end = true) as Hc by (vm_compute; reflexivity).
  destruct (NewRenderer web_templates parse false) as [production|e] eqn:E; [|discriminate Hc]. apply andb_true_iff in Hc as [Hall Hshow].
  destruct (modes_agree web_templates parse production E) as (names & development & Hn & Hd & H).
  exists production, development. split_and!; [done..|]. unfold shows in *. fold parse in Hshow |- *.
  rewrite <- (proj1 (H "features/users/show"%string)); [exact Hshow|].
  assert (match page_names web_templates with Ok names => bool_decide ("features/users/show"%string ∈ names) | _ => false end = true) as Hin
    by (vm_compute; reflexivity).
  rewrite Hn in Hin. by apply bool_decide_eq_true in Hin.
Defined.
