(* ===== verification/Server.v ===== *)
(** The HTTP server: [internal/server] (router.go, middleware.go), [internal/branding] and the
    pages of [internal/platform/adminshell].

    Which pattern a path matches is chi's: a request comes with its [route].  The handlers of
    the features, the API and the session, the static files and [http.ServeContent] are functions
    that are given; what is shown of every answer holds for all that keep to [well_behaved],
    which Application.v shows of those of the program.  The access log leaves out the
    duration and the protocol. *)
From stdpp Require Import base list strings gmap.
From Stdlib Require Import ZArith Lia Ascii.
From S2P Require Import Prelude GoStrings GoErrors GoTime GoJSON GoPath Api Render.
Local Open Scope Z_scope.

(** ' stands for the quotation mark. *)
Definition quoted (text : string) : list ascii := map (fun c => if beq c "'" then chr 34 else c) (bytes text).
Definition newline : list ascii := ["010"%char].

(** ** Middleware, [middleware.go] *)

Definition header_then (f : writer → writer) (next : web_handler) : web_handler := fun request '(w, logs) => next request (f w, logs).
Definition page_policy : string :=
  "default-src 'self'; script-src 'self'; style-src 'self'; style-src-attr 'unsafe-inline'; img-src 'self' data:; font-src 'self'; connect-src 'self'; object-src 'none'; base-uri 'self'; form-action 'self'; frame-ancestors 'none'".
Definition security_headers (w : writer) : writer :=
  let w := SetHeader "X-Content-Type-Options" "nosniff" w in
  let w := SetHeader "X-Frame-Options" "DENY" w in
  let w := SetHeader "Referrer-Policy" "same-origin" w in
  let w := SetHeader "Permissions-Policy" "camera=(), microphone=(), geolocation=()" w in
  SetHeader "Content-Security-Policy" page_policy w.
Definition SecurityHeaders : web_handler → web_handler := header_then security_headers.
Definition noStore : web_handler → web_handler := header_then (SetHeader "Cache-Control" "no-store").

Definition quietRoutes : list string := ["/health"; "/ready"; "/static/*"; "/slik/{id}/status"]%string.
Definition quiet (request : web_request) (status : Z) : bool := (status <? 400) && existsb (seqb (Route request)) quietRoutes.
(** The deferred record is written after a panic, too. *)
Definition accessLog (next : web_handler) : web_handler := fun request s =>
  let '(panic, (w, logs)) := next request s in
  let status := if w_status w =? 0 then StatusOK else w_status w in
  (panic, (w, if quiet request status then logs
              else logs ++ [Completed (wr_id request) (wr_method request) (Route request) status (Z.of_nat (length (w_body w)))])).

(** [http.CrossOriginProtection]; [origin_host] is the host of the Origin header, where url.Parse finds one. *)
Record origin := { Host : string; Sec_Fetch_Site : string; Origin : string; origin_host : option string }.
Definition safe_methods : list string := ["GET"; "HEAD"; "OPTIONS"]%string.
Definition cross_origin (from : origin) (method : string) : option string :=
  if existsb (seqb method) safe_methods then None else
  if empty (Sec_Fetch_Site from) then
    if empty (Origin from) || bool_decide (origin_host from = Some (Host from)) then None else
    Some "cross-origin request detected, and/or browser is out of date: Sec-Fetch-Site is missing, and Origin does not match Host"%string
  else if seqb (Sec_Fetch_Site from) "same-origin" || seqb (Sec_Fetch_Site from) "none" then None
  else Some "cross-origin request detected from Sec-Fetch-Site header"%string.
Definition CrossOriginProtection (from : origin) (next : web_handler) : web_handler := fun request s =>
  match cross_origin from (wr_method request) with
  | Some message => answering (http_Error message 403) request s
  | None => next request s
  end.

(** ** Branding, [branding.go] *)

Record asset := { asset_body : list ascii; contentType : string; modTime : time }.
Record Branding := { logo : asset; wideLogo : asset; favicon : asset; wide : bool }.
Definition MaxFileBytes : Z := 2 * 2 ^ 20.
Definition contentTypes : list (string * string) :=
  [(".svg", "image/svg+xml"); (".png", "image/png"); (".jpg", "image/jpeg"); (".jpeg", "image/jpeg"); (".webp", "image/webp");
   (".gif", "image/gif"); (".ico", "image/x-icon")]%string.
Definition content_type (ext : string) : option string := snd <$> List.find (fun entry => seqb (fst entry) ext) contentTypes.

Section Brand.
(** [os.Stat] (regular, size, time), [os.ReadFile]; case mapping outside ASCII *)
Variable stat : string → res (bool * Z * time).
Variable read_file : string → res (list ascii).
Variable unicode_lower unicode_upper : string → string.

Definition load (path : string) (fallback : asset) : res asset :=
  if empty path then Ok fallback else
  match content_type (to_lower_with unicode_lower (path_Ext path)) with
  | None => Fail (Msg "%s must be an .svg, .png, .jpg, .jpeg, .webp, .gif, or .ico file")
  | Some kind =>
      '(regular, size, modified) ← wrap_err "%s: %w" (stat path);
      if negb regular || (MaxFileBytes <? size) then Fail (Msg "%s must be a regular file of at most %d bytes") else
      body ← wrap_err "%s: %w" (read_file path);
      Ok {| asset_body := body; contentType := kind; modTime := modified |}
  end.

(** [html.EscapeString] *)
Definition escape_html (l : list ascii) : list ascii :=
  List.concat (map (fun c => if beq c "<" then bytes "&lt;" else if beq c ">" then bytes "&gt;" else if beq c "&" then bytes "&amp;" else
    if beq c "'" then bytes "&#39;" else if beq c (chr 34) then bytes "&#34;" else [c]) l).
Definition replacement_rune : list ascii := [chr 239; chr 191; chr 189].
Definition first_letter (name : string) : list ascii :=
  match utf8_runes (bytes (TrimSpace name)) with
  | Some rune :: _ => if bool_decide (rune = replacement_rune) then ["A"%char] else rune
  | _ => ["A"%char]
  end.
Definition defaultBadge (appName : string) : asset :=
  {| asset_body := quoted "<svg xmlns='http://www.w3.org/2000/svg' viewBox='0 0 40 40'><rect width='40' height='40' rx='10' fill='#10b981'/>" ++
       quoted "<text x='20' y='27' text-anchor='middle' font-family='system-ui,sans-serif' font-size='20' font-weight='700' fill='#020617'>" ++
       escape_html (bytes (to_upper_with unicode_upper (of_bytes (first_letter appName)))) ++ bytes "</text></svg>";
     contentType := "image/svg+xml"; modTime := unix_epoch * Second |}.
Definition NewBranding (appName logoFile wideLogoFile faviconFile : string) : res Branding :=
  let fallback := defaultBadge appName in
  logo ← load logoFile fallback;
  wideLogo ← load wideLogoFile fallback;
  favicon ← load faviconFile fallback;
  Ok {| logo := logo; wideLogo := wideLogo; favicon := favicon; wide := negb (empty wideLogoFile) |}.
End Brand.

Definition asset_policy : string := "default-src 'none'; style-src 'unsafe-inline'; sandbox".
Definition asset_headers (a : asset) (w : writer) : writer :=
  let w := SetHeader "Content-Type" (contentType a) w in
  let w := SetHeader "Cache-Control" "no-cache" w in
  SetHeader "Content-Security-Policy" asset_policy w.
Definition serve_asset (ServeContent : asset → web_handler) (a : asset) : web_handler := header_then (asset_headers a) (ServeContent a).

(** ** The router, [router.go] *)

(** What chi finds for a request; of a known path with another method it says 405 itself. *)
Inductive route :=
| Health | Ready | API | Static | Logo | WideLogo | Favicon | LoginForm_route | Login_route | Logout_route | Feature
| Unmatched | OtherMethod.

Record RouterDependencies := {
  StaticFiles : web_handler;
  dep_Branding : option Branding;
  ServeContent : asset → web_handler;
  LoadPrincipal_ : web_handler → web_handler;
  RequireGuest_ : web_handler → web_handler;
  RequireAuth_ : web_handler → web_handler;
  LoginPage_ : web_handler; Login_ : web_handler; Logout_ : web_handler;
  RegisterAPI : option web_handler;
  RegisterAuthenticated : option web_handler;
  dep_Ready : option (web_request → res unit)
}.

Definition json_status (status : Z) (text : string) (w : writer) : writer :=
  WriteBody (quoted text ++ newline) (WriteHeader status (SetHeader "Content-Type" "application/json; charset=utf-8" w)).
Definition health : web_handler := answering (json_status StatusOK "{'status':'ok'}").
Definition ready (check : option (web_request → res unit)) : web_handler := fun request =>
  if match check with None => true | Some check => negb (is_ok (check request)) end
  then answering (json_status StatusServiceUnavailable "{'status':'not ready'}") request
  else answering (json_status StatusOK "{'status':'ready'}") request.

Section Router.
(** What the error responder needs, and the origin of a request *)
Variable type_name : err → string.
Variable mysql_code : err → option (string * string).
Variable files : list string.
Variable parse : parsed_page → res unit.
Variable execute : parsed_page → string → error_page → res (list ascii).
Variable renderer : Renderer.
Variable from : web_request → origin.
Variable dependencies : RouterDependencies.

Definition error_layout : Z → string → string → error_page → writer → res unit * writer :=
  RenderPageWithLayout files parse execute renderer.
Definition not_found : web_handler := NotFound type_name mysql_code error_layout.
Definition recovering : web_handler → web_handler := Recoverer type_name mysql_code error_layout.

Definition web (next : web_handler) : web_handler := fun request =>
  noStore (CrossOriginProtection (from request) (LoadPrincipal_ dependencies next)) request.
Definition branded (select : Branding → asset) : web_handler :=
  match dep_Branding dependencies with
  | Some b => serve_asset (ServeContent dependencies) (select b)
  | None => not_found
  end.
Definition endpoint (r : route) : web_handler :=
  match r with
  | Health => health
  | Ready => ready (dep_Ready dependencies)
  | API => match RegisterAPI dependencies with Some api => noStore api | None => not_found end
  | Static => StaticFiles dependencies
  | Logo => branded logo
  | WideLogo => branded wideLogo
  | Favicon => branded favicon
  | LoginForm_route => web (RequireGuest_ dependencies (LoginPage_ dependencies))
  | Login_route => web (RequireGuest_ dependencies (Login_ dependencies))
  | Logout_route => web (Logout_ dependencies)
  | Feature =>
      match RegisterAuthenticated dependencies with
      | Some features => web (RequireAuth_ dependencies features)
      | None => not_found
      end
  | Unmatched => not_found
  | OtherMethod => answering (WriteHeader 405)
  end.
Definition NewRouter (r : route) : web_handler := accessLog (recovering (SecurityHeaders (endpoint r))).
End Router.

(** ** What every answer has *)

(** The headers [prot] are set, and were set when the headers went out. *)
Definition guarded (prot : gmap string string) (w : writer) : Prop :=
  prot ⊆ w_header w ∧ (w_status w ≠ 0 → prot ⊆ w_sent w).
Definition no_completed (logs : list log_record) : Prop :=
  Forall (fun r => match r with Completed _ _ _ _ _ => False | _ => True end) logs.
(** [http.ServeContent] strips Cache-Control from its error answers: a download that it
    refuses (a range that cannot be satisfied, say) goes out without. *)
Definition download_route : string := "/slik/{id}/download".
Definition due (request : web_request) (status : Z) (prot : gmap string string) : gmap string string :=
  if seqb (Route request) download_route && (400 <=? status) then delete "Cache-Control"%string prot else prot.
(** A handler leaves the headers [prot] as they are and writes no access log. *)
Definition keeps_to (prot : gmap string string) (h : web_handler) : Prop := ∀ request w logs,
  guarded prot w →
  let '(_, (w', logs')) := h request (w, logs) in
  guarded (due request (w_status w') prot) w' ∧ ∃ more, logs' = logs ++ more ∧ no_completed more.

Definition common_headers (policy : string) : gmap string string := list_to_map
  [("X-Content-Type-Options", "nosniff"); ("X-Frame-Options", "DENY"); ("Referrer-Policy", "same-origin");
   ("Permissions-Policy", "camera=(), microphone=(), geolocation=()"); ("Content-Security-Policy", policy)]%string.
Definition uncached (prot : gmap string string) : gmap string string := <["Cache-Control"%string := "no-store"%string]> prot.
(** The headers of the answers on a route *)
Definition route_headers (dependencies : RouterDependencies) (r : route) : gmap string string :=
  match r with
  | API => if RegisterAPI dependencies then uncached (common_headers page_policy) else common_headers page_policy
  | LoginForm_route | Login_route | Logout_route => uncached (common_headers page_policy)
  | Feature => if RegisterAuthenticated dependencies then uncached (common_headers page_policy) else common_headers page_policy
  | Logo | WideLogo | Favicon => common_headers (if dep_Branding dependencies then asset_policy else page_policy)
  | Health | Ready | Static | Unmatched | OtherMethod => common_headers page_policy
  end.
(** The error pages do not set these to anything else. *)
Definition error_safe (prot : gmap string string) : bool :=
  bool_decide (prot !! "Content-Length"%string = None ∧ prot !! "Content-Type"%string = None ∧
    prot !! "X-Content-Type-Options"%string = Some "nosniff"%string ∧
    (prot !! "Cache-Control"%string = None ∨ prot !! "Cache-Control"%string = Some "no-store"%string)).
Lemma route_headers_allowed dependencies r : error_safe (route_headers dependencies r) = true.
Proof.
  destruct r; cbn [route_headers]; repeat match goal with |- context [if ?o then _ else _] => destruct o end; vm_compute; reflexivity.
Qed.

Lemma guarded_weaken prot prot' w : prot' ⊆ prot → guarded prot w → guarded prot' w.
Proof. intros Hp [Hh Hs]. split; [by etransitivity|]. intros H. etransitivity; [exact Hp|by apply Hs]. Qed.
Lemma due_subseteq request status prot : due request status prot ⊆ prot.
Proof. unfold due. destruct (seqb _ _ && _); [apply delete_subseteq|done]. Qed.
Lemma guarded_due request status prot w : guarded prot w → guarded (due request status prot) w.
Proof. apply guarded_weaken, due_subseteq. Qed.
Lemma due_success request status prot : status < 400 → due request status prot = prot.
Proof. intros H. unfold due. assert (400 <=? status = false) as -> by lia. by rewrite andb_false_r. Qed.
Lemma due_again request status status' prot w : status' = status ∨ status = 0 →
  guarded (due request status prot) w → guarded (due request status' prot) w.
Proof. intros [-> | ->]; [done|]. rewrite (due_success _ 0) by done. apply guarded_due. Qed.
Lemma error_safe_due request status prot : error_safe prot = true → error_safe (due request status prot) = true.
Proof.
  unfold due. destruct (seqb _ _ && _); [|done]. unfold error_safe. rewrite !bool_decide_eq_true, lookup_delete_eq.
  rewrite !lookup_delete_ne by done. intros (H1 & H2 & H3 & _). by split_and!; [..|left].
Qed.
Lemma guarded_SetHeader prot key value w :
  (prot !! key = None ∨ prot !! key = Some value) → guarded prot w → guarded prot (SetHeader key value w).
Proof.
  intros Hk [Hh Hs]. split; [|done]. cbn [SetHeader w_header]. destruct Hk as [Hk|Hk].
  - by apply insert_subseteq_r.
  - apply map_subseteq_spec. intros k v Hv. destruct (decide (k = key)) as [->|Hne].
    + rewrite lookup_insert_eq. congruence.
    + rewrite lookup_insert_ne by done. by eapply lookup_weaken.
Qed.
Lemma guarded_insert prot key value w :
  w_status w = 0 → guarded prot w → guarded (<[key := value]> prot) (SetHeader key value w).
Proof. intros Hw [Hh _]. split; [|cbn [SetHeader w_status]; congruence]. by apply insert_mono. Qed.
Lemma guarded_WriteHeader prot status w : guarded prot w → guarded prot (WriteHeader status w).
Proof. intros [Hh Hs]. unfold WriteHeader. by destruct (w_status w =? 0). Qed.
Lemma guarded_WriteBody prot text w : guarded prot w → guarded prot (WriteBody text w).
Proof. intros H. by apply (guarded_WriteHeader _ StatusOK) in H. Qed.
Lemma guarded_http_Error prot message status w :
  prot !! "Content-Length"%string = None → prot !! "Content-Type"%string = None →
  (prot !! "X-Content-Type-Options"%string = None ∨ prot !! "X-Content-Type-Options"%string = Some "nosniff"%string) →
  guarded prot w → guarded prot (http_Error message status w).
Proof.
  intros Hl Ht Hn [Hh Hs]. unfold http_Error. apply guarded_WriteBody, guarded_WriteHeader, guarded_SetHeader; [done|].
  apply guarded_SetHeader; [by left|]. split; [|done]. cbn [DelHeader w_header]. apply map_subseteq_spec. intros k v Hv.
  rewrite lookup_delete_ne by congruence. by eapply lookup_weaken.
Qed.

Section Answers.
Context (type_name : err → string) (mysql_code : err → option (string * string)) (files : list string) (parse : parsed_page → res unit)
  (execute : parsed_page → string → error_page → res (list ascii)) (renderer : Renderer).
Notation layout := (error_layout files parse execute renderer).

Lemma error_layout_outcome status page name data w r w' :
  layout status page name data w = (r, w') →
  (is_ok r = false ∧ w' = w) ∨ (r = Ok tt ∧ ∃ buffer, w' = WriteBody buffer (WriteHeader status (SetHeader "Content-Type" "text/html; charset=utf-8" w))).
Proof.
  unfold error_layout, RenderPageWithLayout, render. intros H. cases_in H; injection H as <- <-; eauto.
Qed.
Lemma status_WriteHeader status w : w_status w = 0 → w_status (WriteHeader status w) = status.
Proof. intros H. unfold WriteHeader. by rewrite H. Qed.
Lemma status_kept status w : w_status w ≠ 0 → WriteHeader status w = w.
Proof. intros H. unfold WriteHeader. by destruct (Z.eqb_spec (w_status w) 0). Qed.
Lemma status_WriteBody text w : w_status w ≠ 0 → w_status (WriteBody text w) = w_status w.
Proof. intros H. unfold WriteBody. by rewrite status_kept. Qed.

Lemma renderError_keeps prot request status page heading message id w logs :
  error_safe prot = true → status ≠ 0 → guarded prot w →
  let '(w', logs') := renderError type_name mysql_code layout request status page heading message id (w, logs) in
  guarded prot w' ∧ (∃ more, logs' = logs ++ more ∧ no_completed more) ∧
  w_status w' = if w_status w =? 0 then status else w_status w.
Proof.
  intros Ha Hs Hw. unfold error_safe in Ha. apply bool_decide_eq_true in Ha as (Hl & Ht & Hn & Hc).
  assert (∀ l : list log_record, ∃ more, l = l ++ more ∧ no_completed more) as Hnone by (intros l; exists []; split; [by rewrite app_nil_r|constructor]).
  unfold renderError, committed. destruct (Z.eqb_spec (w_status w) 0) as [H0|H0]; cbn [negb]; [|by auto].
  pose proof (guarded_SetHeader prot "Cache-Control" "no-store" w Hc Hw) as H1. set (w1 := SetHeader "Cache-Control" "no-store" w) in *.
  assert (w_status w1 = 0) as E1 by done.
  destruct (layout _ _ _ _ w1) as [r w2] eqn:El. apply error_layout_outcome in El as [[Hr ->]|(-> & buffer & ->)].
  - destruct r as [|e]; [discriminate|]. rewrite E1. cbn [Z.eqb negb]. split; [by apply guarded_http_Error; auto|]. split.
    + eexists. split; [reflexivity|]. by repeat constructor.
    + unfold http_Error. rewrite status_WriteBody; by rewrite status_WriteHeader.
  - split; [apply guarded_WriteBody, guarded_WriteHeader, guarded_SetHeader; [by left|done]|]. split; [done|].
    rewrite status_WriteBody; by rewrite status_WriteHeader.
Qed.

(** *** Handlers and middleware *)

Lemma keeps_answering prot f : (∀ w, guarded prot w → guarded prot (f w)) → keeps_to prot (answering f).
Proof. intros Hf request w logs Hw. cbn. split; [by apply guarded_due, Hf|]. exists []. split; [by rewrite app_nil_r|constructor]. Qed.
Lemma keeps_not_found prot : error_safe prot = true → keeps_to prot (not_found type_name mysql_code files parse execute renderer).
Proof.
  intros Ha request w logs Hw. unfold not_found, NotFound.
  match goal with |- context [renderError ?a ?b ?c ?d ?e ?f ?g ?h ?i (w, logs)] =>
    pose proof (renderError_keeps prot d e f g h i w logs Ha ltac:(discriminate) Hw) as H;
    destruct (renderError a b c d e f g h i (w, logs)) as [w' logs'] end.
  destruct H as (H1 & H2 & _). by split; [apply guarded_due|].
Qed.
Lemma keeps_cross_origin prot o h : error_safe prot = true → keeps_to prot h → keeps_to prot (CrossOriginProtection o h).
Proof.
  intros Ha Hh request w logs Hw. unfold CrossOriginProtection. destruct (cross_origin _ _) as [message|]; [|by apply Hh].
  apply (keeps_answering prot (http_Error message 403)); [|done]. intros w1. apply bool_decide_eq_true in Ha as (Hl & Ht & Hn & _).
  apply guarded_http_Error; auto.
Qed.
Lemma keeps_json prot status text : prot !! "Content-Type"%string = None → ∀ w, guarded prot w → guarded prot (json_status status text w).
Proof. intros Ht w Hw. unfold json_status. apply guarded_WriteBody, guarded_WriteHeader, guarded_SetHeader; [by left|done]. Qed.

Lemma guarded_security w : w_status w = 0 → guarded (common_headers page_policy) (security_headers w).
Proof.
  intros H0. assert (guarded ∅ w) as Hw by (split; [apply map_empty_subseteq|done]).
  assert (common_headers page_policy = <["Content-Security-Policy" := page_policy]> (<["Permissions-Policy" := "camera=(), microphone=(), geolocation=()"]>
    (<["Referrer-Policy" := "same-origin"]> (<["X-Frame-Options" := "DENY"]> (<["X-Content-Type-Options" := "nosniff"]> ∅)))))%string as ->
    by (vm_compute; reflexivity).
  by repeat apply guarded_insert.
Qed.
Lemma guarded_asset a w : w_status w = 0 → guarded (common_headers page_policy) w → guarded (common_headers asset_policy) (asset_headers a w).
Proof.
  intros H0 Hw.
  assert (common_headers asset_policy = <["Content-Security-Policy"%string := asset_policy]> (common_headers page_policy)) as -> by (vm_compute; reflexivity).
  apply guarded_insert; [done|]. by do 2 (apply guarded_SetHeader; [left; vm_compute; reflexivity|]).
Qed.

(** What the handlers that are given keep to *)
Record well_behaved (dependencies : RouterDependencies) : Prop := {
  static_keeps : keeps_to (common_headers page_policy) (StaticFiles dependencies);
  content_keeps : ∀ a, keeps_to (common_headers asset_policy) (ServeContent dependencies a);
  api_keeps : ∀ h, RegisterAPI dependencies = Some h → keeps_to (uncached (common_headers page_policy)) h;
  features_keep : ∀ h, RegisterAuthenticated dependencies = Some h → keeps_to (uncached (common_headers page_policy)) h;
  session_keeps : ∀ h middleware, middleware ∈ [LoadPrincipal_ dependencies; RequireGuest_ dependencies; RequireAuth_ dependencies] →
    keeps_to (uncached (common_headers page_policy)) h → keeps_to (uncached (common_headers page_policy)) (middleware h);
  login_keeps : ∀ h, h ∈ [LoginPage_ dependencies; Login_ dependencies; Logout_ dependencies] → keeps_to (uncached (common_headers page_policy)) h
}.

Context (from : web_request → origin) (dependencies : RouterDependencies).
Notation page := (common_headers page_policy).
Notation at_endpoint := (endpoint type_name mysql_code files parse execute renderer from dependencies).
Notation Router := (NewRouter type_name mysql_code files parse execute renderer from dependencies).

(** A handler that turns the headers [prot], before anything was sent, into [prot'] *)
Definition leads_to (prot prot' : gmap string string) (h : web_handler) : Prop := ∀ request w logs,
  guarded prot w → w_status w = 0 →
  let '(_, (w', logs')) := h request (w, logs) in
  guarded (due request (w_status w') prot') w' ∧ ∃ more, logs' = logs ++ more ∧ no_completed more.
Lemma keeps_leads prot h : keeps_to prot h → leads_to prot prot h.
Proof. intros H request w logs Hw _. by apply H. Qed.
Lemma noStore_leads prot h : keeps_to (uncached prot) h → leads_to prot (uncached prot) (noStore h).
Proof. intros H request w logs Hw H0. apply H. by apply guarded_insert. Qed.
Lemma web_leads h : keeps_to (uncached page) h → well_behaved dependencies → leads_to page (uncached page) (web from dependencies h).
Proof.
  intros Hh laws request. unfold web. apply noStore_leads, keeps_cross_origin; [vm_compute; reflexivity|].
  apply (session_keeps _ laws); [left|done].
Qed.
Lemma branded_leads select : well_behaved dependencies →
  leads_to page (common_headers (if dep_Branding dependencies then asset_policy else page_policy))
    (branded type_name mysql_code files parse execute renderer dependencies select).
Proof.
  intros laws. unfold branded. destruct (dep_Branding dependencies) as [b|].
  - intros request w logs Hw H0. unfold serve_asset, header_then. apply (content_keeps _ laws). by apply guarded_asset.
  - apply keeps_leads, keeps_not_found. vm_compute. reflexivity.
Qed.
Lemma endpoint_leads r : well_behaved dependencies → leads_to page (route_headers dependencies r) (at_endpoint r).
Proof.
  intros laws. assert (error_safe page = true) as Ha by (vm_compute; reflexivity).
  assert (page !! "Content-Type"%string = None) as Ht by (vm_compute; reflexivity).
  destruct r; cbn [endpoint route_headers]; try by apply branded_leads.
  - by apply keeps_leads, keeps_answering, keeps_json.
  - unfold ready. intros request. destruct (match dep_Ready dependencies with None => true | Some check => negb (is_ok (check request)) end);
      by apply keeps_leads, keeps_answering, keeps_json.
  - destruct (RegisterAPI dependencies) as [h|] eqn:E; [by apply noStore_leads, (api_keeps _ laws)|by apply keeps_leads, keeps_not_found].
  - apply keeps_leads, (static_keeps _ laws).
  - apply web_leads; [|done]. apply (session_keeps _ laws); [set_solver|]. apply (login_keeps _ laws). set_solver.
  - apply web_leads; [|done]. apply (session_keeps _ laws); [set_solver|]. apply (login_keeps _ laws). set_solver.
  - apply web_leads; [|done]. apply (login_keeps _ laws). set_solver.
  - destruct (RegisterAuthenticated dependencies) as [h|] eqn:E; [|by apply keeps_leads, keeps_not_found].
    apply web_leads; [|done]. apply (session_keeps _ laws); [set_solver|]. by apply (features_keep _ laws).
  - by apply keeps_leads, keeps_not_found.
  - apply keeps_leads, keeps_answering. intros w. apply guarded_WriteHeader.
Qed.

(** The router adds what every answer has: the panic of a handler ends here; the answer
    carries the headers of its route; the access log gets one record, with the status the
    client got, unless the route is quiet and the answer no error; and a panic before anything
    was sent is answered with 500, one after that leaves the answer as it was begun. *)
Lemma router_answers r request :
  well_behaved dependencies →
  let '(panic, (w, logs)) := Router r request (fresh_writer, []) in
  let sent := finish w in
  panic = None ∧ due request (w_status sent) (route_headers dependencies r) ⊆ w_sent sent ∧
  (∃ inner, no_completed inner ∧
     logs = inner ++ if quiet request (w_status sent) then []
       else [Completed (wr_id request) (wr_method request) (Route request) (w_status sent) (Z.of_nat (length (w_body w)))]) ∧
  (let '(panicked, (begun, _)) := at_endpoint r request (security_headers fresh_writer, []) in
   w_status sent = if panicked then (if w_status begun =? 0 then 500 else w_status begun) else w_status (finish begun)).
Proof.
  intros laws. unfold NewRouter, accessLog, recovering, Recoverer, SecurityHeaders, header_then.
  pose proof (endpoint_leads r laws request (security_headers fresh_writer) [] (guarded_security fresh_writer eq_refl) eq_refl) as H.
  destruct (at_endpoint r request (security_headers fresh_writer, [])) as [[panic|] (w1 & logs1)].
  - destruct H as [Hw (more & -> & Hmore)]. unfold renderInternal.
    match goal with |- context [renderError ?a ?b ?c ?d ?e ?f ?g ?h ?i (w1, ?l)] =>
      pose proof (renderError_keeps _ d e f g h i w1 l (error_safe_due _ _ _ (route_headers_allowed dependencies r)) ltac:(discriminate) Hw) as H1;
      destruct (renderError a b c d e f g h i (w1, l)) as [w2 logs2] end.
    destruct H1 as (Hw2 & (more2 & -> & Hmore2) & Hstatus). assert (w_status w2 ≠ 0) as Hne by (rewrite Hstatus; by destruct (Z.eqb_spec (w_status w1) 0)).
    unfold finish. rewrite status_kept by done. rewrite (proj2 (Z.eqb_neq _ _) Hne). split_and!; [done| | |exact Hstatus].
    + apply (due_again _ _ (w_status w2)) in Hw2 as [_ Hs]; [by apply Hs|]. rewrite Hstatus. by destruct (Z.eqb_spec (w_status w1) 0); auto.
    + eexists. split; [|by destruct (quiet _ _); rewrite ?app_nil_r].
      cbn [app]. repeat apply Forall_app_2; try done. by repeat constructor.
  - destruct H as [[Hh Hs] (more & -> & Hmore)]. cbn [app]. unfold finish.
    assert (w_status (WriteHeader StatusOK w1) = if w_status w1 =? 0 then StatusOK else w_status w1) as E by
      (unfold WriteHeader; by destruct (w_status w1 =? 0)).
    split_and!; [done| | |done].
    + rewrite E. unfold WriteHeader. destruct (Z.eqb_spec (w_status w1) 0) as [H0|H0]; [|by apply Hs].
      rewrite H0, due_success in Hh by done. by rewrite due_success.
    + rewrite E. exists more. split; [done|]. by destruct (quiet _ _); rewrite ?app_nil_r.
Qed.

(** The routes behind [http.CrossOriginProtection] *)
Definition session_route (r : route) : bool :=
  match r with
  | LoginForm_route | Login_route | Logout_route => true
  | Feature => bool_decide (is_Some (RegisterAuthenticated dependencies))
  | _ => false
  end.
(** A form that another site sends is refused before the session is even loaded: the
    answer is 403 with the reason, whatever the handlers are. *)
Theorem cross_origin_refused r request message :
  session_route r = true → cross_origin (from request) (wr_method request) = Some message →
  Router r request (fresh_writer, []) =
    let w := http_Error message 403 (SetHeader "Cache-Control" "no-store" (security_headers fresh_writer)) in
    (None, (w, [Completed (wr_id request) (wr_method request) (Route request) 403 (slen message + 1)])).
Proof.
  intros Hr Ho. assert (∀ h, web from dependencies h request (security_headers fresh_writer, []) =
    (None, (http_Error message 403 (SetHeader "Cache-Control" "no-store" (security_headers fresh_writer)), []))) as Hweb
    by (intros h; unfold web, noStore, header_then, CrossOriginProtection; by rewrite Ho).
  assert (∃ h, at_endpoint r = web from dependencies h) as [h Hh].
  { destruct r; try discriminate Hr; cbn [endpoint]; eauto. cbn [session_route] in Hr. destruct (RegisterAuthenticated dependencies); [eauto|discriminate]. }
  unfold NewRouter, accessLog, recovering, Recoverer, SecurityHeaders, header_then. rewrite Hh, Hweb.
  cbv zeta. f_equal. f_equal. unfold quiet. change (w_status (http_Error _ _ _)) with 403. cbn [Z.eqb Z.ltb Z.compare andb app].
  change (403 <? 400) with false. cbn [andb app]. do 2 f_equal. unfold http_Error, WriteBody. cbn [w_body]. cbn -[bytes].
  rewrite length_app. unfold slen. cbn [length]. lia.
Qed.
End Answers.

(** ** Examples *)

(** A server whose handlers say nothing, but for the features, which panic *)
Definition silent : web_handler := fun _ s => (None, s).
Definition sample_server : RouterDependencies :=
  {| StaticFiles := silent; dep_Branding := None; ServeContent := fun _ => silent; LoadPrincipal_ := id; RequireGuest_ := id; RequireAuth_ := id;
     LoginPage_ := silent; Login_ := silent; Logout_ := silent; RegisterAPI := None;
     RegisterAuthenticated := Some (fun _ s => (Some "runtime.boundsError"%string, s)); dep_Ready := None |}.
Definition sample_request : web_request := {| wr_id := "1"; wr_method := "POST"; wr_pattern := "/lps" |}.
Definition other_site : origin := {| Host := "thor"; Sec_Fetch_Site := ""; Origin := "https://evil"; origin_host := Some "evil"%string |}.
(** No template can be found here, so the error page is plain text. *)
Definition sample_router (from : origin) : route → web_handler :=
  NewRouter (fun _ => "*errors.errorString"%string) (fun _ => None) [] (fun _ => Ok tt) (fun _ _ _ => Ok []) {| reload := false; parsed_pages := ∅ |}
    (fun _ => from) sample_server.
Lemma cross_origin_refused_witness :
  ∃ w, sample_router other_site Feature sample_request (fresh_writer, []) = (None, (w, [Completed "1" "POST" "/lps" 403 120])) ∧ w_status w = 403.
Proof.
  pose proof (cross_origin_refused (fun _ => "*errors.errorString"%string) (fun _ => None) [] (fun _ => Ok tt) (fun _ _ _ => Ok []) {| reload := false; parsed_pages := ∅ |}
    (fun _ => other_site) sample_server Feature sample_request _ eq_refl eq_refl) as H.
  eexists. split; [exact H|reflexivity].
Defined.
