(* ===== verification/Shell.v ===== *)
(** The frame of the pages of a session, [internal/platform/adminshell]: a page needs the
    user of the request, and what goes wrong while it is made is answered by the error page.
    Its template is executed by [execute], with the page's own data. *)
From stdpp Require Import base list strings gmap.
From Stdlib Require Import ZArith Lia Ascii.
From S2P Require Import Prelude GoStrings GoErrors Access BrowserAuth Navigation Api Render.
Local Open Scope Z_scope.

Section Shell.
Context {Data : Type}.
Record ShellPage := {
  sp_Title : string; sp_AppName : string; sp_WideLogo : bool; sp_Principal : Principal; sp_Navigation : list GroupView;
  sp_CurrentPath : string; sp_Notice : option Notice; sp_Data : Data
}.
Variable type_name : err → string.
Variable mysql_code : err → option (string * string).
Variable files : list string.
Variable parse : parsed_page → res unit.
Variable execute : parsed_page → string → ShellPage → res (list ascii).
Variable execute_error : parsed_page → string → error_page → res (list ascii).
Variable renderer : Renderer.
Variable registry : Registry.
Variable appName : string.
Variable wideLogo : bool.

(** Of the request: the user that the session middleware found, the path, and the notice of the query *)
Record shell_request := { sq_principal : option Principal; sq_path : string; sq_notice : string; sq_web : web_request }.

Definition shell_PageData (request : shell_request) (title : string) (data : Data) : option ShellPage :=
  principal ← sq_principal request;
  Some {| sp_Title := title; sp_AppName := appName; sp_WideLogo := wideLogo; sp_Principal := principal;
          sp_Navigation := Prepare (sq_path request) (Can principal) registry; sp_CurrentPath := sq_path request;
          sp_Notice := NoticeFromID (sq_notice request); sp_Data := data |}.
Definition shell_Internal (request : shell_request) (operation : string) (e : err) (s : web_state) : web_state :=
  snd (Internal type_name mysql_code (RenderPageWithLayout files parse execute_error renderer) operation e (sq_web request) s).
Definition shell_NotFound (request : shell_request) (s : web_state) : web_state :=
  snd (NotFound type_name mysql_code (RenderPageWithLayout files parse execute_error renderer) (sq_web request) s).
Definition shell_RenderPage (request : shell_request) (status : Z) (page title : string) (data : Data) (s : web_state) : web_state :=
  match shell_PageData request title data with
  | None => shell_Internal request "prepare admin page" (Msg "principal missing from request context") s
  | Some pageData =>
      let '(w, logs) := s in
      match RenderPage files parse execute renderer status page pageData w with
      | (Ok _, w) => (w, logs)
      | (Fail e, w) => shell_Internal request ("render admin page " +:+ page)%string e (w, logs)
      end
  end.

(** A page is whole or it is not shown at all: the response has the status that was asked for and
    the text of the template with the user's own menu, or nothing of it and status 500, with a log record that says why. *)
Theorem shell_page_whole request status page title data logs :
  status ≠ 0 →
  let '(w', logs') := shell_RenderPage request status page title data (fresh_writer, logs) in
  (∃ principal parsed text, sq_principal request = Some principal ∧ template files parse renderer page = Ok parsed ∧
     execute parsed "admin" {| sp_Title := title; sp_AppName := appName; sp_WideLogo := wideLogo; sp_Principal := principal;
       sp_Navigation := Prepare (sq_path request) (Can principal) registry; sp_CurrentPath := sq_path request;
       sp_Notice := NoticeFromID (sq_notice request); sp_Data := data |} = Ok text ∧
     w_status w' = status ∧ w_body w' = text ∧ logs' = logs) ∨
  (w_status w' = 500 ∧ w_sent w' !! "Cache-Control"%string = Some "no-store"%string ∧
   ∃ operation attributes more, logs' = logs ++ RequestError (wr_id (sq_web request)) (wr_method (sq_web request)) (Route (sq_web request)) operation None attributes :: more).
Proof.
  intros Hs.
  assert (∀ operation e, let '(w', logs') := shell_Internal request operation e (fresh_writer, logs) in
    w_status w' = 500 ∧ w_sent w' !! "Cache-Control"%string = Some "no-store"%string ∧
    ∃ operation attributes more, logs' = logs ++ RequestError (wr_id (sq_web request)) (wr_method (sq_web request)) (Route (sq_web request)) operation None attributes :: more) as Hint.
  { intros operation e. unfold shell_Internal, Internal, renderInternal, renderError, RenderPageWithLayout, render. cbn [snd committed fresh_writer w_status Z.eqb negb].
    destruct (empty "error" || _); [|destruct (template files parse renderer _); [destruct (execute_error _ _ _)|]];
      cbn -[lookup insert delete]; (split; [done|]; split;
        [repeat (rewrite lookup_insert_ne by done); rewrite ?lookup_delete_ne by done; by rewrite lookup_insert_eq|
         eexists _, _, _; rewrite <- ?app_assoc; reflexivity]). }
  unfold shell_RenderPage, shell_PageData. destruct (sq_principal request) as [principal|]; cbn [mbind option_bind].
  2: { specialize (Hint "prepare admin page"%string (Msg "principal missing from request context")). destruct (shell_Internal _ _ _ _). by right. }
  unfold RenderPage, render. destruct (template files parse renderer page) as [parsed|e].
  2: { specialize (Hint ("render admin page " +:+ page)%string e). destruct (shell_Internal _ _ _ _). by right. }
  destruct (execute parsed "admin" _) as [text|e] eqn:E.
  2: { specialize (Hint ("render admin page " +:+ page)%string (Wrap "execute template %q: %w" e)). destruct (shell_Internal _ _ _ _). by right. }
  left. exists principal, parsed, text. split_and!; [done|done|exact E| | |done].
  - unfold WriteBody, WriteHeader. cbn. by destruct (Z.eqb_spec status 0).
  - unfold WriteBody, WriteHeader. cbn. by destruct (Z.eqb_spec status 0).
Qed.
End Shell.
