(* ===== verification/Cleanup.v ===== *)
(** The worker that removes expired sessions, [internal/auth/cleanup.go].

    What the worker waits for comes as a list: ticks, each with its time, and the end of
    its context; where both are ready, either may come first.  A failure of the database is
    only logged. *)
From stdpp Require Import base list strings gmap.
From Stdlib Require Import ZArith Lia.
From S2P Require Import Prelude GoStrings GoErrors Database GoTime Directory BrowserAuth BrowserAuthFacts.
Local Open Scope Z_scope.

Inductive wakeup := Tick (now : time) | ContextDone.
Inductive cleanup_log := CleanupWarning (e : err) | SessionsDeleted (count : Z).

Definition deleteExpiredSessions (now : time) (s : world access_db * list cleanup_log) : world access_db * list cleanup_log :=
  let '(w, logs) := s in
  match DeleteExpired now w with
  | (Fail e, w) => (w, logs ++ [CleanupWarning e])
  | (Ok deleted, w) => (w, if negb (deleted =? 0) then logs ++ [SessionsDeleted deleted] else logs)
  end.
(** The loop; the result says whether the worker has returned or waits for more. *)
Fixpoint cleanup_loop (wakeups : list wakeup) (s : world access_db * list cleanup_log) : bool * (world access_db * list cleanup_log) :=
  match wakeups with
  | [] => (false, s)
  | ContextDone :: _ => (true, s)
  | Tick now :: rest => cleanup_loop rest (deleteExpiredSessions now s)
  end.
Definition runSessionCleanup (initial : time) (wakeups : list wakeup) (s : world access_db * list cleanup_log)
    : bool * (world access_db * list cleanup_log) :=
  cleanup_loop wakeups (deleteExpiredSessions initial s).

(** The times it works at: the start and the ticks before the end *)
Fixpoint times_before_end (wakeups : list wakeup) : list time :=
  match wakeups with
  | Tick now :: rest => now :: times_before_end rest
  | _ => []
  end.

Definition stored_sessions (w : world access_db) : gmap Z Session := sessions (dir (tables w)).
Lemma on_tables_effect {A} (f : directory → res (A * directory)) w r w' :
  others (tables w) = [] → on_tables f w = (r, w') →
  (tables w' = tables w ∧ ((∃ e, r = Fail e) ∨ ∃ a, f (dir (tables w)) = Ok (a, dir (tables w)))) ∨
  (∃ a d, f (dir (tables w)) = Ok (a, d) ∧ tables w' = {| dir := d; others := [] |}).
Proof.
  intros Ho H. unfold on_tables, mbind, db_bind, interfere in H. cbn [tables] in H. rewrite settled in H by done.
  unfold inside in H. apply statement_effect in H. cbn [tables] in H. rewrite Ho in H. destruct r as [a|e].
  - destruct H as (s & H & Hs). right. apply bind_Ok in H as ([a' d] & Hf & [= <- <-]). by exists a', d.
  - destruct H as [->|(a & s & H & Hs)]; [left; eauto|]. right. apply bind_Ok in H as ([a' d] & Hf & [= <- <-]). by exists a', d.
Qed.

(** What a list of passes may have done to the sessions *)
Definition only_expired (times : list time) (before after : gmap Z Session) : Prop :=
  (∀ id s, after !! id = Some s → before !! id = Some s) ∧
  (∀ id s, before !! id = Some s → after !! id = None → ∃ t, t ∈ times ∧ expired t s = true).
(** One pass, with nobody else at work; a fault may hit it before or after its effect. *)
Lemma deleteExpired_pass now w logs :
  others (tables w) = [] →
  let '(w', _) := deleteExpiredSessions now (w, logs) in
  others (tables w') = [] ∧ only_expired [now] (stored_sessions w) (stored_sessions w') ∧ users (dir (tables w')) = users (dir (tables w)) ∧
  (faults w = [] → faults w' = [] ∧ ∀ id s, stored_sessions w' !! id = Some s → expired now s = false).
Proof.
  intros Ho. unfold deleteExpiredSessions. destruct (DeleteExpired now w) as [r w'] eqn:E.
  assert (others (tables w') = [] ∧ only_expired [now] (stored_sessions w) (stored_sessions w') ∧ users (dir (tables w')) = users (dir (tables w))) as Hpass.
  { unfold DeleteExpired in E. apply wrapped_inv in E as (r' & E & _). apply on_tables_effect in E; [|done]. unfold stored_sessions, only_expired.
    destruct E as [[-> _]|(a & d & [= <- <-] & ->)].
    - split_and!; [done|done| |done]. intros id s H1 H2. congruence.
    - cbn [dir others]. split_and!; [done| | |done].
      + by intros id s [H _]%deleted_sessions.
      + intros id s H1 H2. exists now. split; [left|]. destruct (expired now s) eqn:Es; [done|].
        exfalso. assert (sessions (delete_sessions (expired now) (dir (tables w))) !! id = Some s) as H by (by apply deleted_sessions). congruence. }
  assert (faults w = [] → faults w' = [] ∧ ∀ id s, stored_sessions w' !! id = Some s → expired now s = false) as Hall.
  { intros Hf. unfold DeleteExpired, wrapped, on_tables, mbind, db_bind, interfere, inside, statement, next_fault in E. cbn [tables faults] in E.
    rewrite settled, Hf in E by done. cbn in E. injection E as <- <-. split; [done|]. unfold stored_sessions. cbn [tables dir]. by intros id s [_ H]%deleted_sessions. }
  destruct r as [deleted|e]; by destruct Hpass as (? & ? & ?).
Qed.
Lemma only_expired_trans times times' m1 m2 m3 :
  only_expired times m1 m2 → only_expired times' m2 m3 → only_expired (times ++ times') m1 m3.
Proof.
  intros [K1 G1] [K2 G2]. split; [by auto|]. intros id s H1 H3. destruct (m2 !! id) as [s'|] eqn:E.
  - pose proof (K1 _ _ E) as H. assert (s' = s) as -> by congruence. destruct (G2 _ _ E H3) as (t & Ht & Hs). exists t. split; [set_solver|done].
  - destruct (G1 _ _ H1 E) as (t & Ht & Hs). exists t. split; [set_solver|done].
Qed.

Definition is_end (wakeup : wakeup) : bool := match wakeup with ContextDone => true | Tick _ => false end.
Lemma cleanup_loop_passes wakeups w logs :
  others (tables w) = [] →
  let '(returned, (w', _)) := cleanup_loop wakeups (w, logs) in
  returned = existsb is_end wakeups ∧ only_expired (times_before_end wakeups) (stored_sessions w) (stored_sessions w') ∧
  users (dir (tables w')) = users (dir (tables w)) ∧
  (faults w = [] → ∀ id s t, stored_sessions w' !! id = Some s → t ∈ times_before_end wakeups → expired t s = false).
Proof.
  assert (∀ m, only_expired [] m m) as Hnone by (intros m; split; [done|]; intros id s H1 H2; congruence).
  revert w logs. induction wakeups as [|[now|] wakeups IH]; intros w logs Ho; cbn [cleanup_loop times_before_end existsb is_end orb].
  1, 3: split_and!; [done..|]; intros _ id s t _ Ht; set_solver.
  pose proof (deleteExpired_pass now w logs Ho) as H. destruct (deleteExpiredSessions now (w, logs)) as [w1 logs1].
  destruct H as (Ho1 & Hp & Hu & Hf). specialize (IH w1 logs1 Ho1). destruct (cleanup_loop wakeups (w1, logs1)) as [returned [w' logs']].
  destruct IH as (-> & Hp' & Hu' & Hf'). split_and!; [done|exact (only_expired_trans _ _ _ _ _ Hp Hp')|congruence|].
  intros Hno id s t Hs [->|Ht]%elem_of_cons; destruct (Hf Hno) as [Hno1 Hgone].
  - apply (Hgone id s). by apply (proj1 Hp').
  - by eapply Hf'.
Qed.

(** The worker works at once and at every tick, and returns exactly when its context ends;
    over all of it only sessions are removed that had expired at one of those times, users stay as they are,
    and, when the database works, no session that had expired by then is left. *)
Theorem cleanup_removes_expired initial wakeups w :
  others (tables w) = [] →
  let '(returned, (w', _)) := runSessionCleanup initial wakeups (w, []) in
  let times := initial :: times_before_end wakeups in
  returned = existsb is_end wakeups ∧ only_expired times (stored_sessions w) (stored_sessions w') ∧
  users (dir (tables w')) = users (dir (tables w)) ∧
  (faults w = [] → ∀ id s t, stored_sessions w' !! id = Some s → t ∈ times → expired t s = false).
Proof. exact (cleanup_loop_passes (Tick initial :: wakeups) w []). Qed.
