(* ===== verification/Lifecycle.v ===== *)
(** The life of the application: [internal/app/app.go], [internal/server/server.go] and the
    command [cmd/app] (src/cmd/app/main.go).

    [Run] is what the main goroutine does, as the list of what happens: what it opens and
    closes, the workers it starts and waits for, and the records of the log about its own course.
    How every step goes that needs the world (connections, the schema check, files) is
    given by an [environment]; the checks of the configuration and of the menu are the
    modelled ones.  A deferred call is a [deferred] list around the rest of the
    function.  Constructors that only fill in a structure are left out. *)
From stdpp Require Import base list strings gmap.
From Stdlib Require Import ZArith Lia Ascii.
From S2P Require Import Prelude GoStrings GoErrors GoTime Config Access Navigation Routes.
Local Open Scope Z_scope.

Inductive resource :=
| AppDatabase | WarehouseDatabase | MSODatabase
| FincloudSessions            (* the client, once its Close, which signs out of Fincloud, is deferred *)
| CleanupWorker | SlikWorkers | SchedulerWorker
| HTTPServer.
#[export] Instance resource_eq_dec : EqDecision resource.
Proof. solve_decision. Defined.
Inductive happening :=
| Opened (r : resource)       (* opened, or started *)
| Closed (r : resource)       (* closed, or stopped and waited for *)
| Logged (event : string)
| Drained                     (* every request in flight was answered *)
| Forced.                     (* the connections were cut *)
#[export] Instance happening_eq_dec : EqDecision happening.
Proof. solve_decision. Defined.

Definition running (A : Type) : Type := list happening → res A * list happening.
#[export] Instance running_ret : MRet running := fun A a t => (Ok a, t).
#[export] Instance running_bind : MBind running := fun A B f m t =>
  match m t with
  | (Ok a, t) => f a t
  | (Fail e, t) => (Fail e, t)
  end.
Definition happens (h : happening) : running unit := fun t => (Ok tt, t ++ [h]).
(** A step that can fail, with the message put around its error *)
Definition attempt {A} (format : string) (r : res A) : running A := fun t => (wrap_err format r, t).
Definition returns {A} (r : res A) : running A := fun t => (r, t).
(** [defer]: [last] happens when the rest of the function has returned. *)
Definition deferred {A} (last : list happening) (rest : running A) : running A := fun t =>
  let '(r, t) := rest t in (r, t ++ last).
Definition holding {A} (r : resource) (rest : running A) : running A :=
  happens (Opened r);; deferred [Closed r] rest.

(** What comes first: the end of the server's goroutine, or the signal to stop; after the
    signal the goroutine may have ended by the time the shutdown is over. *)
Inductive serving_end := ServedFirst | SignalFirst (returned : bool).

Record environment := {
  env_Load : res Config;
  env_Location : string → res Location;
  env_Open : DatabaseConfig → res unit;
  env_VerifyRuntime : res unit;
  env_OpenDSN : string → Location → res unit;
  env_NewClient : FincloudConfig → res unit;
  env_NewAuthenticator : FincloudConfig → res unit;
  env_Bootstrap : list PermissionDefinition → string → res unit;
  env_NewAuthentication : SessionConfig → AuthConfig → res unit;
  env_Renderer : bool → res unit;           (* with the files on disk, or those built in *)
  env_Static : bool → res unit;
  env_Branding : AppConfig → res unit;
  env_Positions : res unit;
  env_SlikManager : SLIKConfig → res unit;
  env_LpsGenerator : res unit;
  env_Listen : option err;                  (* what ListenAndServe returns; [None] is http.ErrServerClosed or nil *)
  env_end : serving_end;
  env_Shutdown : option err
}.

(** [HTTPServer.Serve] and [HTTPServer.Shutdown] *)
Definition Serve (listen : option err) : res unit :=
  match listen with
  | None => Ok tt
  | Some e => Fail (Wrap "serve http: %w" e)
  end.
Definition Shutdown (env : environment) : running (option err) :=
  happens (Logged "http server shutting down");;
  match env_Shutdown env with
  | Some e => mret (Some (Wrap "shutdown http server: %w" e))
  | None => happens Drained;; happens (Logged "http server stopped");; mret None
  end.
(** [errors.Join] *)
Definition Join_errors (errors : list (option err)) : res unit :=
  match omap id errors with
  | [] => Ok tt
  | errors => Fail (JoinErr errors)
  end.
Definition failure {A} (r : res A) : option err := match r with Ok _ => None | Fail e => Some e end.

Section Run.
Variable ip_literal : list ascii → option (list ascii).
Variable env : environment.

(** From the start of the server on *)
Definition serve_until_stopped : running unit :=
  happens (Opened HTTPServer);;
  happens (Logged "app.started");;
  let serveErr := match env_end env with ServedFirst => failure (Serve (env_Listen env)) | SignalFirst _ => None end in
  happens (Logged "app.stopping");;
  shutdownErr ← Shutdown env;
  (if shutdownErr then happens Forced else mret tt);;
  happens (Closed HTTPServer);;
  let serveErr := match serveErr, env_end env with
                  | None, SignalFirst true => failure (Serve (env_Listen env))
                  | _, _ => serveErr
                  end in
  happens (Logged "app.http.drained");;
  returns (Join_errors [serveErr; shutdownErr]).

(** The Close of the Fincloud client is deferred after the authenticator was made: if that
    fails the client is left as it is, without a session of Fincloud to sign out. *)
Definition Run : running unit :=
  config ← attempt "load configuration: %w" (env_Load env);
  attempt "validate server configuration: %w" (ValidateServer ip_literal config);;
  location ← attempt "load business timezone: %w" (env_Location env (Timezone (App config)));
  happens (Logged "app.starting");;
  attempt "initialize database: %w" (env_Open env (Database config));;
  holding AppDatabase (
  happens (Logged "app.database.connected");;
  attempt "verify database schema: %w" (env_VerifyRuntime env);;
  attempt "initialize DWH: %w" (env_OpenDSN env (DWH config) location);;
  holding WarehouseDatabase (
  attempt "initialize MSO: %w" (env_OpenDSN env (MSO config) location);;
  holding MSODatabase (
  (if InsecureTLS (Fincloud config) then happens (Logged "Fincloud TLS certificate verification disabled by explicit configuration") else mret tt);;
  attempt "initialize Fincloud: %w" (env_NewClient env (Fincloud config));;
  attempt "initialize Fincloud browser authenticator: %w" (env_NewAuthenticator env (Fincloud config));;
  holding FincloudSessions (
  attempt "initialize access control: %w" (env_Bootstrap env PermissionDefinitions (BootstrapAccessManagers config));;
  happens (Logged "access control initialized");;
  attempt "initialize browser authentication: %w" (env_NewAuthentication env (Session config) (Auth config));;
  holding CleanupWorker (
  let reload := IsDevelopment (App config) in
  attempt "initialize renderer: %w" (env_Renderer env reload);;
  attempt "initialize static files: %w" (env_Static env reload);;
  attempt "initialize branding: %w" (env_Branding env (App config));;
  attempt "initialize position service: %w" (env_Positions env);;
  attempt "initialize SLIK: %w" (env_SlikManager env (SLIK config));;
  holding SlikWorkers (
  attempt "initialize LPS: %w" (env_LpsGenerator env);;
  attempt "initialize admin navigation: %w" (NewRegistry navigationGroups PermissionDefinitions);;
  holding SchedulerWorker serve_until_stopped)))))).

(** ** The command *)

Definition usage : err := Msg "usage: trs [serve]".
(** [run] of cmd/app; help is printed without the application. *)
Definition run_app (arguments : list string) : running unit :=
  match arguments with
  | [] => Run
  | command :: rest =>
      if seqb command "serve" then if bool_decide (rest = []) then Run else returns (Fail usage) else
      if seqb command "-h" || seqb command "--help" then happens (Logged "trs [serve]") else
      returns (Fail usage)
  end.
Definition exit_code (arguments : list string) : Z := if is_ok (fst (run_app arguments [])) then 0 else 1.
End Run.

(** ** The course of the application *)

(** Everything that is opened is closed, the last one first; the result is what is still open. *)
Fixpoint brackets (t : list happening) (held : list resource) : option (list resource) :=
  match t with
  | [] => Some held
  | Opened r :: t => brackets t (r :: held)
  | Closed r :: t =>
      match held with
      | top :: held => if bool_decide (top = r) then brackets t held else None
      | [] => None
      end
  | _ :: t => brackets t held
  end.
Definition openings (t : list happening) : list resource := omap (fun h => match h with Opened r => Some r | _ => None end) t.
Definition closings (t : list happening) : list resource := omap (fun h => match h with Closed r => Some r | _ => None end) t.
Definition all_resources : list resource :=
  [AppDatabase; WarehouseDatabase; MSODatabase; FincloudSessions; CleanupWorker; SlikWorkers; SchedulerWorker; HTTPServer].
(** From the signal on: the requests come first, then the workers, then what they use. *)
Definition stop_server (shutdown : option err) : list happening :=
  [Logged "app.stopping"; Logged "http server shutting down"] ++
  (if shutdown then [Forced] else [Drained; Logged "http server stopped"]) ++ [Closed HTTPServer; Logged "app.http.drained"].
Definition released : list resource :=
  [SchedulerWorker; SlikWorkers; CleanupWorker; FincloudSessions; MSODatabase; WarehouseDatabase; AppDatabase].
Definition serve_result (env : environment) : option err :=
  match env_end env with
  | SignalFirst false => None
  | _ => failure (Serve (env_Listen env))
  end.

Lemma brackets_app t t' held : brackets (t ++ t') held = brackets t held ≫= brackets t'.
Proof.
  revert held. induction t as [|[r|r|e| |] t IH]; intros held; cbn; try done.
  destruct held as [|top held]; [done|]. by destruct (bool_decide _).
Qed.
Lemma openings_app t t' : openings (t ++ t') = openings t ++ openings t'.
Proof. apply omap_app. Qed.
Lemma closings_app t t' : closings (t ++ t') = closings t ++ closings t'.
Proof. apply omap_app. Qed.

Section Course.
Context (ip_literal : list ascii → option (list ascii)) (env : environment).

(** *** The steps of the start, as a list *)

Inductive startup_step :=
| Attempt (format : string) (r : res unit)   (* a step, with the message put around its error *)
| Open (r : resource).
Definition void {A} (r : res A) : res unit := match r with Ok _ => Ok tt | Fail e => Fail e end.

(** The reason of the first step that fails, and what had been opened by then *)
Fixpoint first_failure (steps : list startup_step) : option err :=
  match steps with
  | [] => None
  | Attempt format (Fail e) :: _ => Some (Wrap format e)
  | _ :: steps => first_failure steps
  end.
Fixpoint opened_by (steps : list startup_step) : list resource :=
  match steps with
  | [] => []
  | Attempt _ (Fail _) :: _ => []
  | Attempt _ (Ok _) :: steps => opened_by steps
  | Open r :: steps => r :: opened_by steps
  end.

(** With the configuration and the time zone *)
Definition start_with (config : Config) (location : Location) : list startup_step := [
  Attempt "initialize database: %w" (env_Open env (Database config));
  Open AppDatabase;
  Attempt "verify database schema: %w" (env_VerifyRuntime env);
  Attempt "initialize DWH: %w" (env_OpenDSN env (DWH config) location);
  Open WarehouseDatabase;
  Attempt "initialize MSO: %w" (env_OpenDSN env (MSO config) location);
  Open MSODatabase;
  Attempt "initialize Fincloud: %w" (env_NewClient env (Fincloud config));
  Attempt "initialize Fincloud browser authenticator: %w" (env_NewAuthenticator env (Fincloud config));
  Open FincloudSessions;
  Attempt "initialize access control: %w" (env_Bootstrap env PermissionDefinitions (BootstrapAccessManagers config));
  Attempt "initialize browser authentication: %w" (env_NewAuthentication env (Session config) (Auth config));
  Open CleanupWorker;
  Attempt "initialize renderer: %w" (env_Renderer env (IsDevelopment (App config)));
  Attempt "initialize static files: %w" (env_Static env (IsDevelopment (App config)));
  Attempt "initialize branding: %w" (env_Branding env (App config));
  Attempt "initialize position service: %w" (env_Positions env);
  Attempt "initialize SLIK: %w" (env_SlikManager env (SLIK config));
  Open SlikWorkers;
  Attempt "initialize LPS: %w" (env_LpsGenerator env);
  Attempt "initialize admin navigation: %w" (void (NewRegistry navigationGroups PermissionDefinitions));
  Open SchedulerWorker].
(** With the configuration *)
Definition start_configured (config : Config) : list startup_step :=
  Attempt "validate server configuration: %w" (ValidateServer ip_literal config) ::
  Attempt "load business timezone: %w" (void (env_Location env (Timezone (App config)))) ::
  match env_Location env (Timezone (App config)) with
  | Ok location => start_with config location
  | Fail _ => []
  end.
Definition startup : list startup_step :=
  Attempt "load configuration: %w" (void (env_Load env)) ::
  match env_Load env with
  | Ok config => start_configured config
  | Fail _ => []
  end.

(** A part of [Run] with those [steps] before the server: it leaves nothing open, and either
    fails with the first of them that does, or ends with the shutdown. *)
Definition course (steps : list startup_step) (m : running unit) : Prop := ∀ t, ∃ more,
  snd (m t) = t ++ more ∧ (∀ held, brackets more held = Some held) ∧
  match first_failure steps with
  | Some e => fst (m t) = Fail e ∧ openings more = opened_by steps ∧ closings more = rev (opened_by steps)
  | None => ∃ start, more = start ++ stop_server (env_Shutdown env) ++ map Closed (rev (opened_by steps)) ∧
      openings start = opened_by steps ++ [HTTPServer] ∧ closings start = [] ∧
      fst (m t) = Join_errors [serve_result env; Wrap "shutdown http server: %w" <$> env_Shutdown env]
  end.

Lemma course_attempt {A} steps format (r : res A) (k : A → running unit) :
  (∀ a, r = Ok a → course (steps a) (k a)) →
  course (Attempt format (void r) :: match r with Ok a => steps a | Fail _ => [] end) (attempt format r ≫= k).
Proof.
  intros Hk t. unfold mbind, running_bind, attempt. destruct r as [a|e]; cbn [wrap_err void first_failure opened_by].
  - by apply Hk.
  - exists []. rewrite app_nil_r. by split_and!.
Qed.
Lemma course_step {A} steps format (r : res A) r' (k : A → running unit) :
  r' = void r → (∀ a, course steps (k a)) → course (Attempt format r' :: steps) (attempt format r ≫= k).
Proof.
  intros -> Hk t. destruct (course_attempt (λ _, steps) format r k (λ a _, Hk a) t) as (more & H). exists more.
  destruct r; exact H.
Qed.
Lemma course_log steps event k : course steps k → course steps (happens (Logged event);; k).
Proof.
  intros Hk t. unfold mbind, running_bind, happens. destruct (Hk (t ++ [Logged event])) as (more & Ht & Hb & H).
  exists (Logged event :: more). rewrite Ht, <- app_assoc. split_and!; [done|exact Hb|]. destruct (first_failure steps).
  - done.
  - destruct H as (start & -> & H). by exists (Logged event :: start).
Qed.
Lemma course_holding steps r m : course steps m → course (Open r :: steps) (holding r m).
Proof.
  intros Hm t. unfold holding, deferred, mbind, running_bind, happens. destruct (Hm (t ++ [Opened r])) as (more & Ht & Hb & H).
  destruct (m (t ++ [Opened r])) as [result t']. cbn [fst snd] in *. subst t'. exists (Opened r :: more ++ [Closed r]).
  rewrite <- !app_assoc. cbn [first_failure opened_by rev]. split_and!; [done| |].
  - intros held. cbn [brackets]. rewrite brackets_app, Hb. cbn. by rewrite bool_decide_true.
  - destruct (first_failure steps).
    + destruct H as (-> & Ho & Hc). split; [done|].
      change (Opened r :: more ++ [Closed r]) with ([Opened r] ++ more ++ [Closed r]).
      rewrite !openings_app, !closings_app, Ho, Hc. cbn. by rewrite app_nil_r.
    + destruct H as (start & -> & Ho & Hc & H). exists (Opened r :: start).
      change (openings (Opened r :: start)) with (r :: openings start). rewrite Ho, map_app, <- !app_assoc. by split_and!.
Qed.
Lemma course_serve : course [] (serve_until_stopped env).
Proof.
  intros t. exists ([Opened HTTPServer; Logged "app.started"] ++ stop_server (env_Shutdown env)).
  unfold serve_until_stopped, Shutdown, returns, stop_server, serve_result, mret, running_ret, mbind, running_bind, happens.
  cbn [first_failure opened_by rev map]. rewrite app_nil_r.
  destruct (env_Shutdown env) as [e|]; cbn [fst snd app]; rewrite <- ?app_assoc; cbn [app];
    (split_and!; [done|by intros held; cbn; rewrite bool_decide_true|]; eexists [Opened HTTPServer; Logged "app.started"];
     split_and!; [done..|]; by destruct (env_end env) as [|[]]; destruct (env_Listen env)).
Qed.

Lemma Run_steps : course startup (Run ip_literal env).
Proof.
  unfold Run, startup. apply (course_attempt start_configured). intros config _.
  apply course_step; [by destruct (ValidateServer ip_literal config) as [[]|]|]. intros _.
  apply (course_attempt (start_with config)). intros location _. unfold start_with.
  repeat first
    [ apply course_log | apply course_holding | apply course_serve
    | apply course_step; [try reflexivity; by match goal with |- ?r = void _ => destruct r as [[]|] end|intros _]
    | match goal with |- context [if InsecureTLS ?c then _ else _] => destruct (InsecureTLS c) end ].
Qed.
Definition opens (steps : list startup_step) : list resource := omap (λ s, match s with Open r => Some r | Attempt _ _ => None end) steps.
Lemma opened_subseteq steps : opened_by steps ⊆ opens steps.
Proof. induction steps as [|[format [[]|e]|r] steps IH]; cbn; [done|done|set_solver|set_solver]. Qed.
Lemma opened_all steps : first_failure steps = None → opened_by steps = opens steps.
Proof. induction steps as [|[format [[]|e]|r] steps IH]; cbn [first_failure opened_by]; intros H; [done|by apply IH|done|]. cbn. by rewrite IH. Qed.
Lemma startup_opens : HTTPServer ∉ opened_by startup.
Proof.
  intros Hin%opened_subseteq. unfold startup, start_configured in Hin. destruct (env_Load env) as [config|];
    [destruct (env_Location env (Timezone (App config)))|]; cbn [opens omap list_omap start_with] in Hin; set_solver.
Qed.
Lemma startup_all : first_failure startup = None → opened_by startup = rev released.
Proof.
  intros H. rewrite (opened_all _ H). unfold startup, start_configured in *.
  destruct (env_Load env) as [config|]; cbn [void first_failure] in H; [|done].
  destruct (ValidateServer ip_literal config) as [[]|]; [|done].
  destruct (env_Location env (Timezone (App config))); cbn [void first_failure] in H; [|done]. reflexivity.
Qed.

(** C34: the application starts and stops in order.  However its steps go, all that was opened
    is closed again, the last one first.  It fails with the reason of the first step that fails
    ([startup] lists them: the configuration, its check, the time zone, the database, the check
    of its schema, the warehouse, MSO, ...), and has then opened just what comes before that step
    and never served.  If none fails it has started every worker, and then nothing is closed
    before the requests in flight were answered (or cut off, when the time for that is over):
    then the server, the scheduler, the workers of the jobs and of the sessions, the Fincloud
    sessions, and the databases last; and its result is the errors of serving and of the
    shutdown, none if there is none. *)
Theorem Run_course :
  let '(result, t) := Run ip_literal env [] in
  brackets t [] = Some [] ∧
  match first_failure startup with
  | Some reason => result = Fail reason ∧ openings t = opened_by startup ∧ closings t = rev (opened_by startup) ∧ Opened HTTPServer ∉ t
  | None => ∃ start, t = start ++ stop_server (env_Shutdown env) ++ map Closed released ∧
      openings start = rev released ++ [HTTPServer] ∧ closings start = [] ∧
      result = Join_errors [serve_result env; Wrap "shutdown http server: %w" <$> env_Shutdown env]
  end.
Proof.
  destruct (Run_steps []) as (more & Ht & Hb & Hr). destruct (Run ip_literal env []) as [result t]. cbn [fst snd app] in *. subst t.
  split; [by apply Hb|]. destruct (first_failure startup) as [reason|] eqn:Hf.
  - destruct Hr as (-> & Ho & Hc). split_and!; [done..|]. intros Hin. apply startup_opens.
    rewrite <- Ho. apply list_elem_of_omap. by eexists.
  - by rewrite (startup_all Hf) in Hr.
Qed.
End Course.

(** ** Examples *)

(** The warehouse cannot be reached: the application's database is closed again. *)
Definition sample_config : Config :=
  {| App := {| Name := "THOR"; Environment := "production"; URL := "https://thor"; BindHost := ""; Port := 8080; ShutdownTimeout := 1; Timezone := "UTC";
               LogoFile := ""; WideLogoFile := ""; FaviconFile := "" |};
     APIKey := ""; BootstrapAccessManagers := "admin";
     Database := {| db_Network := "tcp"; db_Host := "db"; db_Port := 3306; db_Socket := ""; db_Name := "thor"; db_User := "thor"; db_Password := "" |};
     Session := {| CookieName := "thor"; Lifetime := 1; RememberLifetime := 1; Secure := true |};
     Auth := {| LoginFailureWindow := 1; LoginMaxFailures := 5; LoginLockout := 1 |}; DWH := "dwh"; MSO := "mso";
     Fincloud := {| BaseURL := "https://fincloud"; fc_Username := "u"; fc_Password := "p"; fc_LocationID := "1"; fc_RoleID := "1"; CAFile := "";
                    InsecureTLS := false; Timeout := 1; MaxReportSize := 1 |};
     Snapshot := {| RefreshInterval := 1; RefreshOnStart := false |};
     SLIK := {| Concurrency := 1; MaxUploadBytes := 1; StorageDir := "/slik" |}; DefaultParticipantCode := "" |}.
Definition sample_environment (dwh : res unit) : environment :=
  {| env_Load := Ok sample_config; env_Location := fun _ => Ok UTC; env_Open := fun _ => Ok tt; env_VerifyRuntime := Ok tt;
     env_OpenDSN := fun dsn _ => if seqb dsn "dwh" then dwh else Ok tt; env_NewClient := fun _ => Ok tt; env_NewAuthenticator := fun _ => Ok tt;
     env_Bootstrap := fun _ _ => Ok tt; env_NewAuthentication := fun _ _ => Ok tt; env_Renderer := fun _ => Ok tt; env_Static := fun _ => Ok tt;
     env_Branding := fun _ => Ok tt; env_Positions := Ok tt; env_SlikManager := fun _ => Ok tt; env_LpsGenerator := Ok tt;
     env_Listen := None; env_end := SignalFirst true; env_Shutdown := None |}.
Example dwh_unreachable : Run (fun _ => None) (sample_environment (Fail (Msg "parse mysql DSN"))) [] =
  (Fail (Wrap "initialize DWH: %w" (Msg "parse mysql DSN")),
   [Logged "app.starting"; Opened AppDatabase; Logged "app.database.connected"; Closed AppDatabase]).
Proof. vm_compute. reflexivity. Qed.
Example stopped_by_signal : let '(result, t) := Run (fun _ => None) (sample_environment (Ok tt)) [] in
  result = Ok tt ∧ openings t = all_resources ∧ closings t = rev all_resources.
Proof. vm_compute. auto. Qed.
(** One argument too many, an unknown one, and the help *)
Example exit_codes :
  map (exit_code (fun _ => None) (sample_environment (Ok tt))) [[]; ["serve"]; ["serve"; "now"]; ["start"]; ["--help"]]%string = [0; 0; 1; 1; 0].
Proof. vm_compute. reflexivity. Qed.
