(* ===== verification/Application.v ===== *)
(** The application behind the router: what its handlers write.

    The other files say what the handlers of the session, of the pages and of the API reply;
    here each reply is written as the code writes it (the [Handler]s under [internal/features],
    [internal/browserauth], [internal/api]), and [application] gives all of them to the router.
    What one request brings and meets (its form, its cookie, the tables) is its [visit].

    The templates, [http.ServeContent], the static files, the zip and PDF libraries and the text
    of a cookie are functions that are given.  A header with several values has them all in
    one text, a line each. *)
From stdpp Require Import base list strings gmap.
From Stdlib Require Import ZArith Lia Ascii.
From S2P Require Import Prelude GoStrings GoErrors Database GoTime GoJSON GoPath Dates LoanModel Directory Access BrowserAuth Navigation Api.
From S2P Require Import Render Server Shell AuditLogs LoanInquiry UserPages SlikJobs SlikPages Snapshots SnapshotPages Lps LpsPages Routes AccessGuarantees BrowserAuthFacts SlikGuarantees.
Local Open Scope Z_scope.

(** ** Parts of [net/http] *)

Definition AddHeader (key value : string) (w : writer) : writer :=
  SetHeader key (match w_header w !! key with Some old => (old +:+ of_bytes newline +:+ value)%string | None => value end) w.
Definition status_text (status : Z) : string :=
  if status =? 303 then "See Other"%string else if status =? 400 then "Bad Request"%string else
  if status =? 401 then "Unauthorized"%string else if status =? 413 then "Request Entity Too Large"%string else
  if status =? 422 then "Unprocessable Entity"%string else EmptyString.
Definition http_status (status : Z) : writer → writer := http_Error (status_text status) status.

(** ** The data of the pages *)

Inductive page_data :=
| NoData
| UsersData (data : UserPage) (previous next : string) | UserData (detail : Detail) | ConflictData (message back : string)
| EventsData (data : ListData) | EventData (record : audit_record)
| InquiryData (data : LoanInquiry.PageData)
| JobsData (as_of error : string) (jobs : list Job) | JobData (job : Job)
| SnapshotData (data : SnapshotPage)
| LpsData (data : LpsPage).

(** ** One request *)

Record visit := {
  vi_http : http_request; vi_path : string; vi_notice : string;    (* the cookie, the path and the notice of the query *)
  vi_id : string; vi_query : string → string; vi_raw_query : string;  (* the parameter "id" and the query *)
  vi_form : form; vi_permissions : option (list string); vi_upload : upload_form;
  vi_api : api_request;
  vi_now : time; vi_random : list ascii; vi_token : string;        (* the clock and what is drawn *)
  vi_labels : res unit;                                             (* what Fincloud says of its locations and roles *)
  vi_access : world access_db; vi_throttle : BrowserAuth.web;
  vi_slik : world slik; vi_snapshot : world snapshot_tables; vi_refresh : refresh_environment;
  vi_create : res unit; vi_seek : res unit                          (* the temporary file of an archive *)
}.

Section Application.
(** Rendering *)
Variable type_name : err → string.
Variable mysql_code : err → option (string * string).
Variable Error : err → string.
Variable files : list string.
Variable parse : parsed_page → res unit.
Variable execute : parsed_page → string → @ShellPage page_data → res (list ascii).
Variable execute_login : parsed_page → string → option Notice * LoginForm → res (list ascii).
Variable execute_error : parsed_page → string → error_page → res (list ascii).
Variable renderer : Renderer.
Variable registry : Registry.
Variable appName : string.
Variable branding : option Branding.
(** The libraries *)
Variable redirect_url : string → string.                  (* the address as [http.Redirect] cleans and escapes it *)
Variable cookie_text : Cookie → string.
Variable zip : list (string * string) → list ascii.
Variable StaticFiles : web_handler.
Variable ServeContent : string → time → list ascii → web_handler.    (* of a name, a time and a content *)
(** The services of the handlers, as in their files *)
Variable unicode_lower : string → string.
Variable authenticate : list attempt → attempt → res unit.
Variables lifetime rememberLifetime : Z.
Variable cookies : CookieManager.
Variable similar : list ascii → list ascii → bool.
Variable definitions : list PermissionDefinition.
Variable ids : nat → Z.
Variable json_column : list ascii → list ascii.
Variable positions : string → Date → res ResolvedPosition.
Variable render_pdf : ResultView → time → res (list ascii).
Variable jobs : manager.
Variable generate : Lps.Input → res (Lps.Result * list (string * string)).
Variable defaultCode : string.
Variable location : Location.
Variable keyHash : option (list ascii).                    (* of the API key, if there is one *)
Variable ready_check : option (web_request → res unit).
Variable visit_of : web_request → visit.
(** Where a library panics, before or after a handler has written *)
Variable panics : web_request → option (bool * string).

(** [http.Redirect] and [http.SetCookie] *)
Definition http_Redirect (address : string) (status : Z) (request : web_request) (w : writer) : writer :=
  let address := redirect_url address in
  let had := bool_decide (is_Some (w_header w !! "Content-Type"%string)) in
  let reads := seqb (wr_method request) "GET" || seqb (wr_method request) "HEAD" in
  let w := SetHeader "Location" address w in
  let w := if negb had && reads then SetHeader "Content-Type" "text/html; charset=utf-8" w else w in
  let w := WriteHeader status w in
  if negb had && seqb (wr_method request) "GET"
  then WriteBody (quoted "<a href='" ++ escape_html (bytes address) ++ quoted "'>" ++ bytes (status_text status) ++ bytes "</a>." ++ newline ++ newline) w
  else w.
Definition http_SetCookie (c : Cookie) (w : writer) : writer :=
  if empty (cookie_text c) then w else AddHeader "Set-Cookie" (cookie_text c) w.
Definition see_other (address : string) : web_handler := fun request '(w, logs) => (None, (http_Redirect address 303 request w, logs)).

(** ** The session, [internal/browserauth] *)

Definition error_show : Z → string → string → error_page → writer → res unit * writer :=
  RenderPageWithLayout files parse execute_error renderer.
Definition failed (operation : string) (e : err) : web_handler := Internal type_name mysql_code error_show operation e.

Definition renderLogin (status : Z) (f : LoginForm) : web_handler := fun request '(w, logs) =>
  match RenderPageWithLayout files parse execute_login renderer status "login" "auth" (NoticeFromID (vi_notice (visit_of request)), f) w with
  | (Ok _, w) => (None, (w, logs))
  | (Fail e, w) => failed "render login page" e request (w, logs)
  end.
Definition write_login (r : login_reply) : web_handler := fun request '(w, logs) =>
  match r with
  | BrowserAuth.BadForm status => (None, (http_status status w, logs))
  | LoginPage_reply status f => renderLogin status f request (w, logs)
  | SignedIn address c | SignedOut address c => see_other address request (http_SetCookie c w, logs)
  | LoginFailure operation e => failed operation e request (w, logs)
  end.
Definition session_of (request : web_request) : reply (option Principal) * bool * world access_db :=
  let v := visit_of request in LoadPrincipal (vi_http v) (vi_now v) (vi_access v).
(** The user that the middleware puts into the context, and the tables when it is done *)
Definition current (request : web_request) : option Principal :=
  match (session_of request).1.1 with Serve principal => principal | _ => None end.
Definition tables_now (request : web_request) : world access_db := (session_of request).2.

(** What is written in the place of the next handler *)
Definition write_reply {A} (operation : string) (r : reply A) (forbidden : web_handler) (next : A → web_handler) : web_handler := fun request '(w, logs) =>
  match r with
  | Serve a => next a request (w, logs)
  | RedirectTo address status => (None, (http_Redirect address status request w, logs))
  | HXRedirect address => (None, (http_status StatusUnauthorized (SetHeader "HX-Redirect" address w), logs))
  | Forbidden => forbidden request (w, logs)
  | InternalError e => failed operation e request (w, logs)
  end.
Definition nothing : web_handler := fun _ s => (None, s).
Definition load_principal (next : web_handler) : web_handler := fun request '(w, logs) =>
  let '(loaded, cleared, _) := session_of request in
  let w := if cleared then http_SetCookie (Clear_cookie cookies) w else w in
  write_reply "resolve browser session" loaded nothing (fun _ => next) request (w, logs).
Definition require_guest (next : web_handler) : web_handler := fun request =>
  write_reply "" (RequireGuest (current request)) nothing (fun _ => next) request.
Definition require_auth (next : web_handler) : web_handler := fun request =>
  write_reply "" (RequireAuth (vi_http (visit_of request)) (current request)) nothing (fun _ => next) request.

Definition interrupted (h : web_handler) : web_handler := fun request s =>
  match panics request with
  | Some (true, value) => let '(panic, s) := h request s in (Some (default value panic), s)
  | Some (false, value) => (Some value, s)
  | None => h request s
  end.
Definition login_form : web_handler := fun request =>
  let v := visit_of request in
  write_login (LoginPage (vi_labels v) (vi_query v "next")) request.
Definition login_handler : web_handler := fun request =>
  let v := visit_of request in
  write_login
    (handle_Login unicode_lower authenticate lifetime rememberLifetime cookies (vi_labels v) (vi_form v) (vi_random v) (vi_now v)
       (vi_throttle v) (tables_now request)).1.1 request.
Definition logout_handler : web_handler := fun request =>
  let v := visit_of request in
  write_login (handle_Logout cookies (rq_cookie (vi_http v)) (current request) (vi_now v) (tables_now request)).1 request.

(** ** The pages of the features *)

Definition shell_of (request : web_request) : shell_request :=
  let v := visit_of request in
  {| sq_principal := current request; sq_path := vi_path v; sq_notice := vi_notice v; sq_web := request |}.
Definition wide_logo : bool := match branding with Some b => wide b | None => false end.
Definition page (status : Z) (name title : string) (data : page_data) : web_handler := fun request s =>
  (None, shell_RenderPage type_name mysql_code files parse execute execute_error renderer registry appName wide_logo (shell_of request) status name title data s).
(** A part of a page, or the whole of it, by the handler itself *)
Definition part_of_page (name layout title operation prepare : string) (data : page_data) : web_handler := fun request '(w, logs) =>
  match shell_PageData registry appName wide_logo (shell_of request) title data with
  | None => failed prepare (Msg "principal missing") request (w, logs)
  | Some shown =>
      match RenderPartial files parse execute renderer 200 name layout shown w with
      | (Ok _, w) => (None, (w, logs))
      | (Fail e, w) => failed operation e request (w, logs)
      end
  end.
Definition missing : web_handler := NotFound type_name mysql_code error_show.
Definition plain (message : string) (status : Z) : web_handler := answering (http_Error message status).
Definition plain_status (status : Z) : web_handler := answering (http_status status).
(** A file that the handler sends itself *)
Definition send_file (kind disposition : string) (content : list ascii) : writer → writer := fun w =>
  WriteBody content (SetHeader "Content-Disposition" disposition (SetHeader "Content-Type" kind w)).
Definition disposition (manner filename : string) : string := of_bytes (bytes manner ++ quoted "; filename='" ++ bytes filename ++ quoted "'").

Definition dashboard_page : web_handler := page 200 "features/dashboard/index" "Dashboard" NoData.

Definition write_access (partial : bool) (r : access_reply) : web_handler :=
  match r with
  | Users data previous next =>
      if partial then part_of_page "features/users/index" "users-table" "Access Management" "render access users" "prepare access management" (UsersData data previous next)
      else part_of_page "features/users/index" "admin" "Access Management" "render access management" "prepare access management" (UsersData data previous next)
  | UserDetail detail => page 200 "features/users/show" "Access Management" (UserData detail)
  | UserPages.Missing => missing
  | BadManagementForm => plain_status 400
  | Conflict message back => page 409 "conflict" "Conflict" (ConflictData message back)
  | Unprocessable => plain_status 422
  | UserPages.Failure operation e => failed operation e
  | UserPages.SeeOther address => see_other address
  end.
Definition write_events {A} (operation name title : string) (data : A → page_data) (r : page_reply A) : web_handler :=
  match r with
  | Shown _ a => page 200 name title (data a)
  | NotFoundPage _ => missing
  | InternalPage _ e => failed operation e
  end.
Definition write_inquiry (r : inquiry_reply) : web_handler :=
  match r with
  | PlainError status message => plain message status
  | InquiryPage status data => page status "features/loaninquiry/index" "Loan Inquiry" (InquiryData data)
  | PDFDocument filename document => answering (fun w =>
      WriteBody document (WriteHeader 200 (SetHeader "Content-Length" (Itoa (Z.of_nat (length document)))
        (SetHeader "Content-Disposition" (disposition "inline" filename) (SetHeader "Content-Type" "application/pdf" w)))))
  end.
Definition spreadsheet : string := "application/vnd.openxmlformats-officedocument.spreadsheetml.sheet".
(** The file of a job, for which [http.ServeContent] answers *)
Definition write_download (r : slik_reply) (otherwise : web_handler) : web_handler :=
  match r with
  | Attachment filename modified content =>
      header_then (fun w => SetHeader "Content-Disposition" (disposition "attachment" filename) (SetHeader "Content-Type" spreadsheet w))
        (ServeContent "slik.xlsx" modified content)
  | _ => otherwise
  end.
Definition write_slik (partial : bool) (r : slik_reply) : web_handler :=
  match r with
  | JobsPage code as_of error jobs => page code "features/slik/index" "SLIK Generator" (JobsData as_of error jobs)
  | StatusPage job =>
      if partial then part_of_page "features/slik/status" "slik-status" "SLIK Status" "render SLIK status" "prepare SLIK status" (JobData job)
      else page 200 "features/slik/status" "SLIK Status" (JobData job)
  | SlikPages.Missing => missing
  | Gone => plain "SLIK output expired" 410
  | Unavailable => plain "SLIK output unavailable" 409
  | SlikPages.Failure operation e => failed operation e
  | Attachment _ _ _ => nothing            (* written by [write_download] *)
  | SlikPages.SeeOther address => see_other address
  end.
Definition write_lps (r : lps_reply) : web_handler :=
  match r with
  | LpsShown code data => page code "features/lps/index" "LPS Generation" (LpsData data)
  | LpsPages.BadForm => plain_status 400
  | LpsPages.Failure operation e => failed operation e
  | Archive filename contents => answering (send_file "application/zip" (disposition "attachment" filename) (zip contents))
  end.
Definition write_snapshot (r : snapshot_reply) : web_handler :=
  match r with
  | SnapshotShown code data => page code "features/snapshots/index" "Current Snapshot" (SnapshotData data)
  | SnapshotPages.Failure operation e => failed operation e
  | SnapshotPages.SeeOther address => see_other address
  end.

(** *** The routes of the features *)

Definition lps_form (f : form) : option (string → string) := match f with Ok values => Some values | Fail _ => None end.
(** The handler of a route, for the user of the request *)
Definition feature_page (r : Routes.route) : web_handler := fun request =>
  let v := visit_of request in
  let principal := current request in
  let now := vi_now v in
  let id := vi_id v in
  let access := tables_now request in
  let slik_reply := fun r => (slik_answer jobs (Some location) r principal now (vi_slik v)).1 in
  let route := (Method r +:+ " " +:+ Pattern r)%string in
  if seqb route "GET /" then dashboard_page request else
  if seqb route "GET /access" then
    write_access (HX_Request (vi_http v)) (users_Index similar (vi_query v "q") (vi_query v "page") principal access).1 request else
  if seqb route "GET /access/{id}" then write_access false (users_Show definitions id principal access).1 request else
  if seqb route "POST /access/{id}/permissions" then
    write_access false (manage definitions (Replace (vi_permissions v)) id principal now access).1 request else
  if seqb route "POST /access/{id}/activate" then write_access false (manage definitions (Activate true) id principal now access).1 request else
  if seqb route "POST /access/{id}/deactivate" then write_access false (manage definitions (Activate false) id principal now access).1 request else
  if seqb route "GET /audit-logs" then
    write_events "list audit logs" "features/auditlogs/index" "Audit Logs" EventsData
      (list_events ids json_column (vi_query v "action") (vi_query v "page") access).1 request else
  if seqb route "GET /audit-logs/{id}" then
    write_events "find audit log" "features/auditlogs/show" "Audit Log" EventData (show_event ids json_column id access).1 request else
  if seqb route "GET /loans" || seqb route "GET /loans/inquiry" then write_inquiry (LoanInquiry.Index location now) request else
  if seqb route "GET /loans/inquiry/pdf" then write_inquiry (PDF Error positions render_pdf location now (vi_raw_query v)) request else
  if seqb route "POST /loans/inquiry" then write_inquiry (Inquiry Error positions location principal now (vi_form v)).1 request else
  if seqb route "GET /slik" then write_slik false (slik_reply ListJobs) request else
  if seqb route "POST /slik" then write_slik false (slik_reply (Upload (vi_upload v) now (vi_token v))) request else
  if seqb route "GET /slik/{id}" then write_slik false (slik_reply (ReadJob false id)) request else
  if seqb route "GET /slik/{id}/status" then write_slik true (slik_reply (ReadJob true id)) request else
  if seqb route "GET /slik/{id}/download" then
    write_download (slik_reply (FetchOutput id)) (write_slik false (slik_reply (FetchOutput id))) request else
  if seqb route "POST /slik/{id}/cancel" then write_slik false (slik_reply (CancelJob id)) request else
  if seqb route "GET /lps" then write_lps (lps_Index location defaultCode principal now) request else
  if seqb route "POST /lps" then
    match LpsPages.lps_Generate (fun input => Some (generate input)) Error (lps_form (vi_form v)) principal (vi_create v) (vi_seek v) now access with
    | Some (r, _) => write_lps r request
    | None => nothing request                (* the generator always answers *)
    end else
  if seqb route "GET /snapshot" then write_snapshot (snapshot_Index principal (vi_snapshot v)).1 request else
  if seqb route "POST /snapshot/refresh" then write_snapshot (SnapshotPages.snapshot_Refresh (vi_refresh v) principal (vi_snapshot v)).1 request else
  nothing request.
(** [RequirePermission] of the route, then its handler *)
Definition guarded_page (r : Routes.route) : web_handler := fun request =>
  match current request with
  | None => failed "permission middleware" (Msg "principal missing from request context") request
  | Some p => write_reply "" (RequirePermission (route_Permission r) p) (page 403 "forbidden" "Forbidden" NoData) (fun _ => feature_page r) request
  end.
Definition features : web_handler := interrupted (fun request =>
  match List.find (fun r => seqb (Method r) (wr_method request) && seqb (Pattern r) (wr_pattern request)) feature_routes with
  | Some r => guarded_page r request
  | None => nothing request                  (* the router sends no other request here *)
  end).

(** ** The API, [internal/api] *)

Definition write_api (r : http_response) : web_handler := answering (fun w =>
  WriteBody (response_body r) (WriteHeader (Api.status r) (SetHeader "Content-Type" (Api.content_type r) w))).
Definition api (hash : list ascii) : web_handler := interrupted (fun request =>
  let v := visit_of request in
  write_api (serve positions location hash (vi_now v) (vi_api v)).1 request).

(** ** The application *)

Definition application : RouterDependencies := {|
  Server.StaticFiles := StaticFiles;
  dep_Branding := branding;
  Server.ServeContent := fun a => ServeContent "" (modTime a) (asset_body a);
  LoadPrincipal_ := load_principal; RequireGuest_ := require_guest; RequireAuth_ := require_auth;
  LoginPage_ := interrupted login_form; Login_ := interrupted login_handler; Logout_ := interrupted logout_handler;
  RegisterAPI := api <$> keyHash;
  RegisterAuthenticated := Some features;
  dep_Ready := ready_check
|}.
Definition router (from : web_request → origin) : Server.route → web_handler :=
  NewRouter type_name mysql_code files parse execute_error renderer from application.

(** ** What the handlers keep to *)

(** [http.ServeContent] and [http.FileServer] set the headers of the content only, but for an
    error they strip Cache-Control; they log nothing and do not panic. *)
Definition serves (h : web_handler) : Prop := ∀ policy prot request w logs,
  prot = common_headers policy ∨ prot = uncached (common_headers policy) → guarded prot w →
  ∃ w', h request (w, logs) = (None, (w', logs)) ∧
    guarded (if 400 <=? w_status w' then delete "Cache-Control"%string prot else prot) w'.

Abbreviation kept := (uncached (common_headers page_policy)).

Lemma kept_error_safe : error_safe kept = true.
Proof. vm_compute. reflexivity. Qed.
Lemma keeps_writing (f : web_request → writer → writer) : (∀ request w, guarded kept w → guarded kept (f request w)) →
  keeps_to kept (λ request '(w, logs), (None, (f request w, logs))).
Proof. intros Hf request w logs Hw. split; [by apply guarded_due, Hf|]. exists []. split; [by rewrite app_nil_r|constructor]. Qed.
Lemma keeps_after (f : web_request → writer → writer) h : (∀ request w, guarded kept w → guarded kept (f request w)) → keeps_to kept h →
  keeps_to kept (λ request '(w, logs), h request (f request w, logs)).
Proof. intros Hf Hh request w logs Hw. by apply Hh, Hf. Qed.
Lemma keeps_request (h : web_request → web_handler) : (∀ request, keeps_to kept (h request)) → keeps_to kept (λ request, h request request).
Proof. intros Hh request. apply Hh. Qed.
Lemma keeps_nothing : keeps_to kept nothing.
Proof. apply (keeps_writing (λ _ w, w)). done. Qed.

(** Headers that are not protected may be set. *)
Definition unprotected : list string :=
  ["Content-Type"; "Content-Length"; "Content-Disposition"; "Location"; "Set-Cookie"; "HX-Redirect"]%string.
Lemma unprotected_free key : key ∈ unprotected → kept !! key = None.
Proof. intros H. repeat (apply elem_of_cons in H as [->|H]; [vm_compute; reflexivity|]). by apply elem_of_nil in H. Qed.
Lemma kept_SetHeader key value w : key ∈ unprotected → guarded kept w → guarded kept (SetHeader key value w).
Proof. intros H. apply guarded_SetHeader. left. by apply unprotected_free. Qed.
Lemma kept_http_Error message status w : guarded kept w → guarded kept (http_Error message status w).
Proof. apply guarded_http_Error; [vm_compute; reflexivity..|right; vm_compute; reflexivity]. Qed.

(** What rendering leaves behind: nothing, or the whole page *)
Lemma render_outcome {D} (exec : parsed_page → string → D → res (list ascii)) status p name data w r w' :
  render files parse exec renderer status p name data w = (r, w') →
  (is_ok r = false ∧ w' = w) ∨ (r = Ok tt ∧ ∃ buffer, w' = WriteBody buffer (WriteHeader status (SetHeader "Content-Type" "text/html; charset=utf-8" w))).
Proof. unfold render. intros H. cases_in H; injection H as <- <-; eauto. Qed.
Lemma kept_rendered buffer status w : guarded kept w →
  guarded kept (WriteBody buffer (WriteHeader status (SetHeader "Content-Type" "text/html; charset=utf-8" w))).
Proof. intros Hw. by apply guarded_WriteBody, guarded_WriteHeader, kept_SetHeader; [left|]. Qed.

Lemma keeps_failed operation e : keeps_to kept (failed operation e).
Proof.
  intros request w logs Hw. unfold failed, Internal, renderInternal.
  match goal with |- context [renderError ?a ?b ?c ?d ?e ?f ?g ?h ?i (w, ?l)] =>
    pose proof (renderError_keeps a b files parse execute_error renderer kept d e f g h i w l kept_error_safe ltac:(discriminate) Hw) as H;
    unfold error_layout in H; fold error_show in H; destruct (renderError a b c d e f g h i (w, l)) as [w' logs'] end.
  destruct H as (H1 & (more & -> & Hmore) & _). split; [by apply guarded_due|].
  eexists. rewrite <- app_assoc. split; [reflexivity|]. apply Forall_app_2; [by repeat constructor|done].
Qed.
Lemma keeps_missing : keeps_to kept missing.
Proof. apply (keeps_not_found type_name mysql_code files parse execute_error renderer), kept_error_safe. Qed.

(** A handler that renders, and answers with the error page if that fails *)
Lemma keeps_rendering {D} (exec : parsed_page → string → D → res (list ascii)) status p name data operation request w logs :
  guarded kept w →
  let '(_, (w', logs')) := match render files parse exec renderer status p name data w with
    | (Ok _, w) => (None, (w, logs)) | (Fail e, w) => failed operation e request (w, logs) end in
  guarded (due request (w_status w') kept) w' ∧ ∃ more, logs' = logs ++ more ∧ no_completed more.
Proof.
  intros Hw. destruct (render _ _ _ _ _ _ _ _ w) as [r w1] eqn:E. apply render_outcome in E as [[Hr ->]|(-> & buffer & ->)].
  - destruct r as [|e]; [discriminate|]. by apply keeps_failed.
  - split; [by apply guarded_due, kept_rendered|]. exists []. split; [by rewrite app_nil_r|constructor].
Qed.
Lemma keeps_page status name title data : keeps_to kept (page status name title data).
Proof.
  intros request w logs Hw. unfold page, shell_RenderPage. destruct (shell_PageData _ _ _ _ _ _) as [shown|].
  - pose proof (keeps_rendering execute status name "admin" shown ("render admin page " +:+ name)%string request w logs Hw) as H.
    unfold RenderPage. destruct (render _ _ _ _ _ _ _ _ w) as [[[]|e] w1]; [exact H|].
    unfold failed, Internal in H. unfold shell_Internal, Internal. cbn [snd]. exact H.
  - pose proof (keeps_failed "prepare admin page" (Msg "principal missing from request context") request w logs Hw) as H. exact H.
Qed.
Lemma keeps_part name layout title operation prepare data : keeps_to kept (part_of_page name layout title operation prepare data).
Proof.
  intros request w logs Hw. unfold part_of_page. destruct (shell_PageData _ _ _ _ _ _) as [shown|]; [|by apply keeps_failed].
  by apply keeps_rendering.
Qed.
Lemma keeps_renderLogin status f : keeps_to kept (renderLogin status f).
Proof.
  intros request w logs Hw. unfold renderLogin, RenderPageWithLayout. destruct (empty "auth" || _).
  - by apply keeps_failed.
  - by apply keeps_rendering.
Qed.

Lemma kept_AddHeader key value w : key ∈ unprotected → guarded kept w → guarded kept (AddHeader key value w).
Proof. apply kept_SetHeader. Qed.
Lemma kept_SetCookie c w : guarded kept w → guarded kept (http_SetCookie c w).
Proof. intros Hw. unfold http_SetCookie. destruct (empty _); [done|]. apply kept_AddHeader; [|done]. unfold unprotected. set_solver. Qed.
Lemma kept_Redirect address status request w : guarded kept w → guarded kept (http_Redirect address status request w).
Proof.
  intros Hw. unfold http_Redirect. assert (guarded kept (SetHeader "Location" (redirect_url address) w)) as H1
    by (apply kept_SetHeader; [unfold unprotected; set_solver|done]).
  destruct (negb _ && (_ || _)); destruct (negb _ && _); repeat first [apply guarded_WriteBody | apply guarded_WriteHeader]; try done;
    by apply kept_SetHeader; [left|].
Qed.
Lemma keeps_see_other address : keeps_to kept (see_other address).
Proof. apply (keeps_writing (http_Redirect address 303)). intros request w. apply kept_Redirect. Qed.
Lemma keeps_plain message status : keeps_to kept (plain message status).
Proof. apply keeps_answering. intros w. apply kept_http_Error. Qed.
Lemma keeps_plain_status status : keeps_to kept (plain_status status).
Proof. apply keeps_plain. Qed.

Lemma keeps_login_reply r : keeps_to kept (write_login r).
Proof.
  destruct r as [status|status f|address c|address c|operation e]; intros request w logs Hw; cbn [write_login].
  - by apply (keeps_plain_status status request).
  - by apply keeps_renderLogin.
  - by apply keeps_see_other, kept_SetCookie.
  - by apply keeps_see_other, kept_SetCookie.
  - by apply keeps_failed.
Qed.
Lemma keeps_reply {A} operation (r : reply A) forbidden next :
  keeps_to kept forbidden → (∀ a, keeps_to kept (next a)) → keeps_to kept (write_reply operation r forbidden next).
Proof.
  intros Hf Hn. destruct r as [a|address status|address| |e]; intros request w logs Hw; cbn [write_reply].
  - by apply Hn.
  - apply (keeps_writing (http_Redirect address status)); [|done]. intros request' w'. apply kept_Redirect.
  - apply (keeps_plain_status StatusUnauthorized request). by apply kept_SetHeader; [unfold unprotected; set_solver|].
  - by apply Hf.
  - by apply keeps_failed.
Qed.
Lemma keeps_load_principal h : keeps_to kept h → keeps_to kept (load_principal h).
Proof.
  intros Hh request w logs Hw. unfold load_principal. destruct (session_of request) as [[loaded cleared] tables].
  apply keeps_reply; [apply keeps_nothing|done|]. by destruct cleared; [apply kept_SetCookie|].
Qed.
Lemma keeps_interrupted h : keeps_to kept h → keeps_to kept (interrupted h).
Proof.
  intros Hh request w logs Hw. unfold interrupted. destruct (panics request) as [[[] value]|].
  - specialize (Hh request w logs Hw). destruct (h request (w, logs)) as [panic [w' logs']]. exact Hh.
  - by apply (keeps_nothing request).
  - by apply Hh.
Qed.

(** *** The pages *)

Lemma keeps_access partial r : keeps_to kept (write_access partial r).
Proof.
  destruct r; cbn [write_access]; try destruct partial;
    auto using keeps_part, keeps_page, keeps_missing, keeps_plain_status, keeps_failed, keeps_see_other.
Qed.
Lemma keeps_events {A} operation name title (data : A → page_data) r : keeps_to kept (write_events operation name title data r).
Proof. destruct r; cbn [write_events]; auto using keeps_page, keeps_missing, keeps_failed. Qed.
Lemma keeps_file f : (∀ w, guarded kept w → guarded kept (f w)) → keeps_to kept (answering f).
Proof. apply keeps_answering. Qed.
Lemma kept_disposition value w : guarded kept w → guarded kept (SetHeader "Content-Disposition" value w).
Proof. apply kept_SetHeader. unfold unprotected. set_solver. Qed.
Lemma kept_type value w : guarded kept w → guarded kept (SetHeader "Content-Type" value w).
Proof. apply kept_SetHeader. left. Qed.
Lemma keeps_inquiry r : keeps_to kept (write_inquiry r).
Proof.
  destruct r as [status message|status data|filename document]; cbn [write_inquiry]; auto using keeps_page, keeps_plain.
  apply keeps_answering. intros w Hw. apply guarded_WriteBody, guarded_WriteHeader, kept_SetHeader; [unfold unprotected; set_solver|].
  by apply kept_disposition, kept_type.
Qed.
Lemma keeps_slik partial r : keeps_to kept (write_slik partial r).
Proof.
  destruct r; cbn [write_slik]; try destruct partial;
    auto using keeps_part, keeps_page, keeps_missing, keeps_plain, keeps_failed, keeps_see_other, keeps_nothing.
Qed.
Lemma keeps_lps r : keeps_to kept (write_lps r).
Proof.
  destruct r as [code data| |operation e|filename contents]; cbn [write_lps]; auto using keeps_page, keeps_plain_status, keeps_failed.
  apply keeps_answering. intros w Hw. unfold send_file. by apply guarded_WriteBody, kept_disposition, kept_type.
Qed.
Lemma keeps_snapshot r : keeps_to kept (write_snapshot r).
Proof. destruct r; cbn [write_snapshot]; auto using keeps_page, keeps_failed, keeps_see_other. Qed.
Lemma keeps_api hash : keeps_to kept (api hash).
Proof.
  apply keeps_interrupted, (keeps_request (λ request, write_api _)). intros request. apply keeps_answering.
  intros w Hw. by apply guarded_WriteBody, guarded_WriteHeader, kept_type.
Qed.

(** *** The features *)

Lemma download_pattern r : r ∈ feature_routes → seqb (Method r +:+ " " +:+ Pattern r) "GET /slik/{id}/download" = true → Pattern r = download_route.
Proof.
  intros Hr Hs. assert (Forall (λ r, seqb (Method r +:+ " " +:+ Pattern r) "GET /slik/{id}/download" = true → seqb (Pattern r) download_route = true) feature_routes) as H.
  { cbn. repeat (apply Forall_cons; split; [vm_compute; intros H; first [reflexivity|discriminate H]|]). constructor. }
  rewrite Forall_forall in H. by apply seqb_eq, H.
Qed.
Context (static_serves : serves StaticFiles) (content_serves : ∀ name modified content, serves (ServeContent name modified content)).

Lemma download_keeps r otherwise request w logs :
  Route request = download_route → keeps_to kept otherwise → guarded kept w →
  let '(_, (w', logs')) := write_download r otherwise request (w, logs) in
  guarded (due request (w_status w') kept) w' ∧ ∃ more, logs' = logs ++ more ∧ no_completed more.
Proof.
  intros Hroute Ho Hw. destruct r; try by apply Ho. cbn [write_download header_then].
  edestruct (content_serves "slik.xlsx" modified content page_policy kept request) as (w' & -> & Hw'); [by right| |].
  - apply kept_disposition, kept_type, Hw.
  - split; [|exists []; split; [by rewrite app_nil_r|constructor]]. unfold due. rewrite Hroute. exact Hw'.
Qed.
Lemma feature_keeps r request w logs :
  r ∈ feature_routes → Pattern r = wr_pattern request → guarded kept w →
  let '(_, (w', logs')) := feature_page r request (w, logs) in
  guarded (due request (w_status w') kept) w' ∧ ∃ more, logs' = logs ++ more ∧ no_completed more.
Proof.
  intros Hr Hp Hw. pose proof (download_pattern r Hr) as Hd. unfold feature_page. cbv zeta.
  repeat match goal with
  | |- context [if seqb ?a "GET /slik/{id}/download" then _ else _] => destruct (seqb a "GET /slik/{id}/download") eqn:E
  | |- context [if seqb ?a ?b || seqb ?a ?c then _ else _] => destruct (seqb a b || seqb a c)
  | |- context [if seqb ?a ?b then _ else _] => destruct (seqb a b)
  end.
  all: try first [by apply keeps_page | by apply keeps_access | by apply keeps_events | by apply keeps_inquiry | by apply keeps_slik
    | by apply keeps_lps | by apply keeps_snapshot | by apply keeps_nothing].
  - apply download_keeps; [|apply keeps_slik|done]. unfold Route. rewrite <- Hp, (Hd eq_refl). done.
  - destruct (LpsPages.lps_Generate _ _ _ _ _ _ _ _) as [[reply tables]|]; [by apply keeps_lps|by apply keeps_nothing].
Qed.
Lemma keeps_features : keeps_to kept features.
Proof.
  apply keeps_interrupted. intros request w logs Hw. destruct (List.find _ feature_routes) as [r|] eqn:E; [|by apply keeps_nothing].
  apply List.find_some in E as [Hr Hm]. apply list_elem_of_In in Hr. apply andb_true_iff in Hm as [_ Hp%seqb_eq].
  unfold guarded_page. destruct (current request) as [p|]; [|by apply keeps_failed].
  destruct (RequirePermission (route_Permission r) p) as [a|address status|address| |e] eqn:Eg; cbn [write_reply].
  1: by apply feature_keeps.
  all: unfold RequirePermission, RequireAnyPermission in Eg; destruct (existsb _ _); try discriminate Eg. by apply keeps_page.
Qed.

Lemma application_well_behaved : well_behaved application.
Proof.
  split.
  - intros request w logs Hw. change (Server.StaticFiles application) with StaticFiles.
    destruct (static_serves page_policy (common_headers page_policy) request w logs) as (w' & -> & Hw'); [by left|done|].
    split; [|exists []; split; [by rewrite app_nil_r|constructor]]. apply guarded_due. by destruct (400 <=? w_status w').
  - intros a request w logs Hw. cbn [Server.ServeContent application].
    destruct (content_serves "" (modTime a) (asset_body a) asset_policy (common_headers asset_policy) request w logs) as (w' & -> & Hw'); [by left|done|].
    split; [|exists []; split; [by rewrite app_nil_r|constructor]]. apply guarded_due. by destruct (400 <=? w_status w').
  - intros h. cbn [RegisterAPI application]. destruct keyHash as [hash|]; [|done]. intros [= <-]. apply keeps_api.
  - intros h [= <-]. apply keeps_features.
  - intros h middleware Hm Hh. cbn in Hm. repeat (apply elem_of_cons in Hm as [->|Hm]); [| | |by apply elem_of_nil in Hm].
    + by apply keeps_load_principal.
    + intros request. by apply keeps_reply; [apply keeps_nothing|].
    + intros request. by apply keeps_reply; [apply keeps_nothing|].
  - intros h Hh. cbn in Hh. repeat (apply elem_of_cons in Hh as [->|Hh]); [| | |by apply elem_of_nil in Hh]; apply keeps_interrupted; intros request;
      apply keeps_login_reply.
Qed.

Lemma quiet_iff request status : Server.quiet request status = true ↔
  status < 400 ∧ Route request ∈ ["/health"; "/ready"; "/static/*"; "/slik/{id}/status"]%string.
Proof.
  unfold Server.quiet. rewrite andb_true_iff, Z.ltb_lt, existsb_exists. split.
  - intros [Hs (route & Hin & E%seqb_eq)]. split; [done|]. rewrite E. by apply list_elem_of_In.
  - intros [Hs Hin]. split; [done|]. exists (Route request). split; [by apply list_elem_of_In|]. by apply seqb_eq.
Qed.

(** C22: every answer of the application is complete, for any route and request, whatever the
    services, the templates and the tables are, and also when a library panics in a handler.
    The panic ends in the router.  The answer carries the security headers of its route, and
    no-store on the pages of a session and the API; only a download that [http.ServeContent]
    itself refuses goes out without no-store.  The access log gets one record with the status
    and the size that the client got, and none when a quiet route (a probe, a static file, the
    poll of a job's status) answers without an error; no handler writes such a record itself.
    After a panic the status is 500 if nothing had been sent, and otherwise as it was begun.
    That [http.ServeContent] and the file server keep the headers ([serves]) is what is
    relied on. *)
Theorem every_answer (from : web_request → origin) r request :
  let '(panic, (w, logs)) := router from r request (fresh_writer, []) in
  let sent := Render.finish w in
  panic = None ∧ due request (w_status sent) (route_headers application r) ⊆ w_sent sent ∧
  (∃ inner, no_completed inner ∧
     logs = inner ++ if decide (w_status sent < 400 ∧ Route request ∈ ["/health"; "/ready"; "/static/*"; "/slik/{id}/status"]%string) then []
       else [Completed (wr_id request) (wr_method request) (Route request) (w_status sent) (Z.of_nat (length (w_body w)))]) ∧
  (let '(panicked, (begun, _)) :=
     endpoint type_name mysql_code files parse execute_error renderer from application r request (security_headers fresh_writer, []) in
   w_status sent = if panicked then (if w_status begun =? 0 then 500 else w_status begun) else w_status (Render.finish begun)).
Proof.
  pose proof (router_answers type_name mysql_code files parse execute_error renderer from application r request application_well_behaved) as H.
  unfold router. destruct (NewRouter _ _ _ _ _ _ _ _ _ _ _) as [panic [w logs]]. cbv zeta in H |- *.
  destruct H as (Hp & Hh & (inner & Hi & Hl) & Hs). split_and!; [done|done| |done]. exists inner. split; [done|]. rewrite Hl. f_equal.
  destruct (Server.quiet request (w_status (Render.finish w))) eqn:Eq.
  - apply quiet_iff in Eq. by rewrite decide_True.
  - rewrite decide_False; [done|]. intros Hq%quiet_iff. congruence.
Qed.
End Application.

(** ** Alice's requests

    The templates say their names; the files and the contents are served as they are. *)

Definition sample_pages : Renderer := {| reload := false;
  parsed_pages := list_to_map ((fun name => (name, {| parsed_name := name; parsed_files := [] |})) <$>
    ["features/users/index"; "features/slik/index"; "forbidden"; "login"; "internal_server_error"; "not_found"])%string |}.
Definition sample_execute {D} (p : parsed_page) (name : string) (data : D) : res (list ascii) := Ok (bytes (parsed_name p)).
Definition plain_content (content : list ascii) : web_handler := answering (WriteBody content).
Definition sample_visit (cookie : option string) (query : string) : visit := {|
  vi_http := {| rq_cookie := cookie; RequestURI := "/access"; HX_Request := false |};
  vi_path := "/access"; vi_notice := ""; vi_id := "1"; vi_query := fun _ => query; vi_raw_query := "";
  vi_form := Fail Malformed; vi_permissions := None; vi_upload := {| form_parsed := false; form_AsOf := ""; form_Workbook := None |};
  vi_api := {| authorization := []; account_param := ""; as_of_values := []; request_id := "" |};
  vi_now := 2000001 * Second; vi_random := []; vi_token := ""; vi_labels := Ok tt;
  vi_access := snd signing_in; vi_throttle := no_failures;
  vi_slik := World (example_state QUEUED) []; vi_snapshot := World ex_tables []; vi_refresh := ex_environment;
  vi_create := Ok tt; vi_seek := Ok tt |}.
Definition answer_to (cookie : option string) (panics : option (bool * string)) (method pattern : string) : option string * web_state :=
  router (fun _ => "*errors.errorString"%string) (fun _ => None) (fun _ => "error"%string) [] (fun _ => Ok tt)
    sample_execute sample_execute sample_execute sample_pages navigationGroups "THOR" None
    id Value (fun _ => []) (plain_content []) (fun _ _ content => plain_content content)
    id accept (60 * Minute) (600 * Minute) {| cm_name := "session"; cm_secure := true; cm_rememberLifetime := 600 * Minute |}
    (fun x y => bool_decide (x = y)) PermissionDefinitions Z.of_nat id
    (fun _ _ => Fail (Sentinel ErrNotFound)) (fun _ _ => Ok []) example_manager (fun _ => Fail (Sentinel ErrInvalidInput)) "000" UTC None None
    (fun _ => sample_visit cookie "") (fun _ => panics) (fun _ => {| Host := "thor"; Sec_Fetch_Site := "same-origin"; Origin := ""; origin_host := None |})
    Feature {| wr_id := "1"; wr_method := method; wr_pattern := pattern |} (fresh_writer, []).
Definition told (answer : option string * web_state) : Z * string * list log_record :=
  let '(_, (w, logs)) := answer in (w_status (Render.finish w), of_bytes (w_body w), logs).

(** Signed in, she sees the users, may not see the SLIK jobs, and gets an error page when the
    handler panics; without her cookie she is sent to the login page. *)
Example alice_answers :
  told (answer_to (Some alice_token) None "GET" "/access") =
    (200, "features/users/index"%string, [Completed "1" "GET" "/access" 200 20]) ∧
  told (answer_to (Some alice_token) None "GET" "/slik") = (403, "forbidden"%string, [Completed "1" "GET" "/slik" 403 9]) ∧
  told (answer_to (Some alice_token) (Some (false, "runtime.boundsError"%string)) "GET" "/access") =
    (500, "internal_server_error"%string,
     [PanicRecovered "1" "GET" "/access" "runtime.boundsError"; Completed "1" "GET" "/access" 500 21]) ∧
  told (answer_to None None "POST" "/access/{id}/activate") = (303, ""%string, [Completed "1" "POST" "/access/{id}/activate" 303 0]).
Proof. split_and!; vm_compute; reflexivity. Qed.
Lemma plain_serves content : serves (plain_content content).
Proof.
  intros policy prot request w logs _ Hw. exists (WriteBody content w). split; [done|].
  apply guarded_WriteBody. destruct (400 <=? _); [|done]. eapply guarded_weaken; [apply delete_subseteq|exact Hw].
Qed.
Lemma every_answer_witness :
  ∃ w logs, answer_to (Some alice_token) (Some (true, "runtime.boundsError"%string)) "GET" "/access" = (None, (w, logs)) ∧
    uncached (common_headers page_policy) ⊆ w_sent (Render.finish w) ∧ w_status (Render.finish w) = 200 ∧
    ∃ inner, no_completed inner ∧ logs = inner ++ [Completed "1" "GET" "/access" 200 20].
Proof.
  pose proof (every_answer (fun _ => "*errors.errorString"%string) (fun _ => None) (fun _ => "error"%string) [] (fun _ => Ok tt)
    sample_execute sample_execute sample_execute sample_pages navigationGroups "THOR" None
    id Value (fun _ => []) (plain_content []) (fun _ _ content => plain_content content)
    id accept (60 * Minute) (600 * Minute) {| cm_name := "session"; cm_secure := true; cm_rememberLifetime := 600 * Minute |}
    (fun x y => bool_decide (x = y)) PermissionDefinitions Z.of_nat id
    (fun _ _ => Fail (Sentinel ErrNotFound)) (fun _ _ => Ok []) example_manager (fun _ => Fail (Sentinel ErrInvalidInput)) "000" UTC None None
    (fun _ => sample_visit (Some alice_token) "") (fun _ => Some (true, "runtime.boundsError"%string))
    (plain_serves []) (fun _ _ content => plain_serves content)
    (fun _ => {| Host := "thor"; Sec_Fetch_Site := "same-origin"; Origin := ""; origin_host := None |})
    Feature {| wr_id := "1"; wr_method := "GET"; wr_pattern := "/access" |}) as H.
  fold (answer_to (Some alice_token) (Some (true, "runtime.boundsError"%string)) "GET" "/access") in H.
  assert (told (answer_to (Some alice_token) (Some (true, "runtime.boundsError"%string)) "GET" "/access") =
    (200, "features/users/index"%string, [PanicRecovered "1" "GET" "/access" "runtime.boundsError"; Completed "1" "GET" "/access" 200 20])) as Hc
    by (vm_compute; reflexivity).
  destruct (answer_to _ _ _ _) as [panic [w logs]]. destruct H as (-> & Hh & _). injection Hc as Hs _ ->.
  exists w, [PanicRecovered "1" "GET" "/access" "runtime.boundsError"; Completed "1" "GET" "/access" 200 20].
  split; [reflexivity|]. split; [|split; [exact Hs|]].
  - cbv zeta in Hh. rewrite Hs in Hh. exact Hh.
  - exists [PanicRecovered "1" "GET" "/access" "runtime.boundsError"]. split; [repeat constructor|reflexivity].
Defined.
